(* ===== verification/_CoqProject ===== *)
-Q . S2P
Prelude.v
Enums.v
Utils.v
Win32.v
IpAddress.v
SocketAddress.v
PeerTable.v
Packets.v
Crypto.v
DnsCache.v
Threads.v
WebSocket.v
LanSocket.v
World.v
Lan.v
Session.v
Manager.v
Interface.v
SeqNum.v
SctpWire.v
SctpPacket.v
ReConfig.v
DataTracker.v
SctpTimer.v
TaskTimeout.v
Reassembly.v
ReassemblyQueue.v
Receiver.v
SendQueue.v
OutstandingData.v
RetransmissionQueue.v
RRSendQueue.v
Fragmentation.v
Association.v
StreamReset.v
ControlWire.v
ControlBlock.v
Socket.v
SocketInvariant.v
SocketHistory.v
Handshake.v
Delivery.v
Teardown.v
Deferrer.v
