(* ===== verification/Prelude.v ===== *)
(** * NetherNet: a verification library for the WebRTC game transport

    ** The program

    NetherNet (src/NetherNet/NetherNet) is a peer-to-peer transport over WebRTC.  An
    application calls [SimpleNetworkInterfaceImpl]; the interface forwards to a
    [NetworkSessionManager], which maps a remote network id to a [NetworkSession]; a
    session owns a peer connection with a reliable and an unreliable data channel,
    negotiates it, and queues packets until its channels open.  Peers find each other on
    the LAN through [LanThreadManager], which broadcasts discovery packets over a socket
    whose datagrams are enveloped by [AesContext], and keeps the peers it hears of in a
    [PeerRecordTable]; or they exchange signals over a web socket.  Work is posted as
    closures to two threads: the signal thread ([RtcThreadManager]) and the LAN thread.

    ** Files, and the code each one models

    - [Prelude]: execution of C++ code, machine integers, bytes, automation.
    - [Enums]: the enumerations and their values (network/, connection/, logging/).
    - [Utils]: [ErrorOr], [View], [NonOwnerPointer], [ThreadSafe] (utils/).
    - [Win32], [IpAddress], [SocketAddress]: the address types of the WebRTC sources the
      repository carries (includes/webrtc/rtc_base), and their conversion to and from
      text (win32.cc).
    - [PeerTable]: network/PeerRecordTable.cpp; the class [PeerDirectory] with its laws is
      the interface the LAN thread uses it through.
    - [Packets]: network/packets/, the discovery packets and their bytes.
    - [Crypto]: encryption/ and the key derivation of HNetherNet.cpp, over the classes
      [OpenSSL]/[OpenSSLLaws] and [RtcSocket]/[RtcSocketLaws].
    - [DnsCache]: network/AsyncResolverFactory.cpp.
    - [Threads]: Controller.cpp and threadding/RtcThreadManager.cpp.
    - [WebSocket]: connection/WebSocket.cpp and WebSocketSignalingInterfaceImpl.cpp.
    - [LanSocket]: the socket creation of threadding/LanThreadManager.cpp.
    - [World]: the state the remaining components share, one record per class of the
      source with its fields, the closures, the trace of observable events, and the
      primitives (locks, captures, thread queues).
    - [Lan]: the rest of LanThreadManager.cpp.
    - [Session]: connection/NetworkSession.cpp and its observers.
    - [Manager]: network/NetworkSessionManager.cpp.
    - [Interface]: connection/SimpleNetworkInterfaceImpl.cpp, and [run_task], what the
      signal thread does with each closure.

    The data channels of a session run over SCTP, whose implementation the repository
    carries too (includes/webrtc/net/dcsctp).  It is modelled as a whole: the data path in both
    directions, from the messages an application adds to the chunks of a packet, and from the
    bytes of a packet to the messages handed to the other application; and the socket around
    it, which sets associations up, takes packets and timeouts, and closes:

    - [SeqNum]: modular arithmetic and the unwrapping of sequence numbers (rtc_base/numerics,
      common/sequence_numbers.h).
    - [SctpWire], [SctpPacket]: packet/, the chunks of the data path, packets and the
      validation of acknowledgements.  [WireFormat] with the class [RoundTrips] is what a
      packet needs of a kind of chunk.
    - [ReConfig]: packet/parameter/ and packet/chunk/reconfig_chunk.cc, the parameters with
      which streams are reset.
    - [DataTracker]: rx/data_tracker.cc, which chunks are new and when to acknowledge.
    - [SctpTimer], [TaskTimeout]: timer/timer.cc, tx/retransmission_timeout.cc, and
      timer/task_queue_timeout.cc with the queue of tasks it posts to.
    - [Reassembly]: rx/traditional_reassembly_streams.cc, ordered and unordered streams.
    - [ReassemblyQueue]: rx/interleaved_reassembly_streams.cc, rx/reassembly_queue.cc and the
      handlers of DATA and FORWARD-TSN chunks of socket/dcsctp_socket.cc; the class
      [ReassemblyStreams] with [ReassemblyLaws] is the interface between queue and streams.
    - [Receiver]: the theorem about all of the receiving side together.
    - [SendQueue]: tx/send_queue.h, the interface between the queue of messages and what sends
      them (classes [SendQueue], [StreamResets], [SendQueueLaws]).
    - [OutstandingData]: tx/outstanding_data.cc, the chunks in flight.
    - [RetransmissionQueue]: tx/retransmission_queue.cc, SACKs, congestion control and the
      filling of packets, over any [SendQueue].
    - [RRSendQueue]: tx/rr_send_queue.cc and tx/stream_scheduler.cc, an instance of that
      interface and its laws.
    - [Fragmentation]: which chunks leave the send queue over whole runs.
    - [Association]: both ends together, from application to application.
    - [StreamReset]: socket/stream_reset_handler.cc over the queues of both directions, and
      two such handlers that talk to each other.
    - [ControlWire]: packet/chunk/, packet/parameter/ and packet/error_cause/, the eleven
      control chunks, the parameters of the handshake and the error causes; socket/state_cookie.cc.
    - [ControlBlock]: socket/transmission_control_block.cc, heartbeat_handler.cc and
      packet_sender.cc.  The class [Endpoint] is what surrounds a socket: its options, the
      clock, the random numbers, the CRC and the network that takes packets.
    - [Socket]: socket/dcsctp_socket.cc: [Connect], [Shutdown], [Close], [Send], [ResetStreams],
      [ReceivePacket] with a handler for each type of chunk, the timers, and handover.
    - [SocketInvariant], [SocketHistory]: what holds of a socket after any calls.
    - [Handshake], [Teardown]: two sockets that connect, and that close.
    - [Delivery]: packets of data through a socket.
    - [Deferrer]: socket/callback_deferrer.cc, a socket with it, and an application that may
      call the socket from within a callback ([respond]).

    Definitions keep the names of the source; where two classes share a method name, the
    class is a prefix ([Session_SendPacket], [Manager_SendPacket],
    [Interface_SendPacket]).  A loop body, a lambda or the tail of a method that is a
    definition of its own is named after what it does ([send_packet_task], [ice_loop]).

    ** How code is modelled

    A method is a function in the monad [M S A], from a state to an [outcome]: it
    returns, throws, terminates the process, or reaches undefined behaviour, and all
    but termination carry the state reached.  Undefined behaviour has a cause
    ([fault]): a null or dangling pointer, an invalidated iterator, an access out of
    bounds, a value-returning function that flows off its end, a mutex locked twice by its
    owner, a bad shift.  Unsigned integers are [Z] with [wrap]; bytes are [Z] below 256;
    the layout of objects is that of x86-64.  A lambda that captures by reference holds
    the frame of the call that created it ([with_frame], [captured]); reading it after the
    call returned is [DanglingRef].  Every definition is executable; loops are
    structural recursions over the collection they traverse, and the one wait that may
    never end ([wait_and_dispatch]) runs over an explicit schedule.  Fuel occurs where a
    loop ends by what it computes: the loops of [inet_pton] have six rounds (IPv4) or
    one more than the length of the text (IPv6), which [inet_pton_terminates] shows to be enough, those that assemble messages have one
    round more than the stream has messages and [assembly_loops_end] shows that more change
    nothing.  In the sending side the loop that fills a packet has as many rounds as bytes and
    the loop of the scheduler as many as there are active streams; running out is the fault
    [NoProgress], which [GetChunksToSend_spec] and [Queue_Produce_spec] exclude; the loops that
    drop acknowledged chunks or expired messages have one round per element.  The receiving
    SCTP code neither throws nor is undefined on the paths modelled, so the data path is
    written as plain functions, and its parsers return a value of [parsed], in which a failed
    check is a result of its own; in the socket, which is in the monad again, a failed check
    ends the process.  Checks that only debug builds execute (RTC_DCHECK) are left out.  What
    a socket calls and sends is a trace, newest first; what of it reaches the application, and
    when, is modelled in [Deferrer], where the depth to which the application calls back is
    bounded by fuel, which [callbacks_exactly_once] shows to be enough.  A control block
    owns the send queue while it exists; the timers of a block that is gone are not found.  Code outside the repository (OpenSSL, libHttpClient, Winsock, jsoncpp,
    webrtc's peer connections, the application's callbacks) is a class of functions
    ([OpenSSL], [HttpClient], [Env], ...); functions the project declares without
    defining are the class [Declared].

    ** What the theorems show

    [wp m Q s] is total correctness: from [s], [m] returns and [Q] holds; [always] speaks
    of the state of every outcome, and [keeps] is its invariant form.  The classes
    [SessionStable], [ManagerStable] and [InterfaceStable] say that a predicate survives
    what a component writes; proving an instance gives the invariant for every
    operation of that component and those below it.

    - Data path: [SendPacket_routes] and [SendPacket_without_session] (the interface on
      every branch), [SendPacket_closure_dangles], [CheckSendDeferredData_flush];
      [transport_never_gains], an invariant over every sequence of operations.
    - Envelope: [Open_Seal_roundtrip], [RecvFrom_bounded]; [AesAdapter_socket_freed] shows that no
      adapter the code creates has a socket to send or receive through.
    - Discovery: packet round trips and wire layout, the peer table as a finite map ([peer_table_refines_map]), the addresses found
      ([discovery_keeps_last_network]), socket creation.
    - Sessions: liveness ([IsDeadSession_cause]), the state report, ICE candidates,
      incoming requests ([InitiateIncomingSession_forgets]).
    - Signaling and configuration: [signal_error_dispatch],
      [InitializeConfiguration_result], the web socket, the DNS cache as a finite map.
    - Addresses: printing and parsing are inverse ([ip_text_roundtrip],
      [sockaddr_text_roundtrip]) and stay inside their buffers.
    - SCTP, both ends: [messages_arrive] takes a sender through any history of additions,
      packets, SACKs, timeouts and retransmissions and shows that the other application is
      given the messages added, in order, up to the first that misses a fragment, while what
      arrives stays in the window and below the watermark ([flows]) and message numbers do not
      jump by [2 ^ 15] or more ([near]); [far_chunk_blocks] is what happens beyond.
    - SCTP, the socket: [socket_invariant] takes a socket through any history of calls, packets
      of any bytes and timeouts and shows that its state, its timers and its block agree, and
      that no call uses a block that is not there; [handshake_establishes] and
      [shutdown_completes] run two sockets against each other, byte for byte;
      [socket_delivers_in_order] carries the theorem of the receiving side, with its limits, through
      [ReceivePacket] to the calls of the application; [callbacks_exactly_once] and
      [callbacks_in_order] are about when these are made; [wrong_tag_ignored] is about strangers;
      [control_chunks_roundtrip], [state_cookie_roundtrip] and [control_parsers_never_fail]
      are about the bytes.
    - SCTP, stream resets: [resets_exactly_once] takes two ends through any history over a
      network that loses, repeats and reorders and shows that what one end is told is what the
      other did; [reset_completes], [reset_handler_never_fails],
      [repeated_request_answered_alike], and [reconfig_roundtrip] for the bytes.
    - SCTP, sending: [sends_whole_messages] (how messages are cut, numbered and ordered, over runs
      that neither discard nor reset),
      [send_queue_consistent], [outstanding_consistent], [sack_acks_exactly],
      [retransmits_what_was_sent], [timeout_reschedules_all], [forward_tsn_covers_abandoned];
      [sends_within_window], [sack_outcome] and [sender_never_stalls] for every history of the
      retransmission queue over any send queue that keeps the laws; the bound of the first is
      the sender's variable [rwnd_], which may wrap around ([zero_window_wraps]).
    - SCTP, receiving: [delivered_in_order] is the end-to-end theorem of the receiving side: messages
      of an ordered stream come out in order and exactly once, when the network reorders,
      repeats and loses chunks within the limits [flows] and [near].  It rests on the data tracker as a set of
      numbers ([data_tracker_exactly_once]), the unwrapping of sequence numbers
      ([unwrap_recovers]) and the state of an ordered stream as a function of the fragments
      that arrived ([ordered_delivery]; [unordered_delivery] for the others).
      [sctp_packet_roundtrip] and [tracker_sack_interoperates] are about the wire,
      [queued_bytes_accounted] about memory, [tracker_wf_preserved], [ack_timer_iff_delayed]
      (as long as none is forced) and [ack_every_second_packet] about acknowledgements, [stale_timeouts_ignored],
      [task_timeout_refines], [backoff_is_power_of_two], [rto_within_limits] and [srtt_converges] about time.
    - Defects: the theorems named [..._dangle(s)], [..._never_...], [..._ignores_mac],
      [..._leaks_handle], [..._freed], [..._unterminated], [..._lenient], [..._corner_cases],
      [..._truncates_offsets], [..._leaves_timer_running], [window_wraps_past_watermark],
      [expire_invalidates_iterator], [forward_tsn_wrap_stalls], [zero_window_wraps],
      [handover_loses_a_reset], [repeated_incoming_request_answered_otherwise],
      [cookie_echo_reopens], [cookie_echo_bypasses_tag], [calls_after_closed],
      [far_chunk_blocks] and [threshold_call_is_late] state what the code does where it does not do what it means to.

    ** What is not modelled

    The connector and server-locator classes (their bodies are TODO comments), logging,
    statistics reports, and the vendored libraries apart from the address types and the
    SCTP sources above: of SCTP the CRC (a parameter), the observer of packets and the texts for
    the log are left out.  [handshake_establishes] and
    [shutdown_completes] are for a network that takes every packet and for sockets with nothing
    to send ([fair], [resting], [idle]); [socket_delivers_in_order] is for one ordered stream
    without message interleaving.  The theorems on runs of the send queue are for the scheduler
    without message interleaving, and [messages_arrive] is for one ordered stream without
    abandoned messages; [resets_exactly_once] is for fewer than 2^31 steps, before the numbers
    of the requests come round, and for requests that fit a chunk.  Callbacks of NetherNet's application are events of the trace: they do not call
    back into the transport.
    Threads interleave between operations and closures, not inside one; where two
    threads touch the same lock ([Threads]) the interleaving is explicit. *)

From Stdlib Require Export ZArith Lia.
From stdpp Require Export base list gmap strings numbers sorting pretty.

(** ** Record update

    [r <| f := v |>] replaces one field of a record.  A record opts in with an
    [Eta] instance that rebuilds it from its projections. *)

Class Eta (R : Type) := eta : R → R.
Class Setter {R E : Type} (proj : R → E) := set_field : (E → E) → R → R.

Ltac term_head t := lazymatch t with ?f _ => term_head f | _ => t end.
Ltac build_setter R proj :=
  lazymatch constr:(@eta R _) with
  | @eta _ ?e =>
    let c := term_head e in
    let h := eval unfold c in e in
    refine (fun f r => ltac:(
      let t := eval cbv beta in (h r) in
      let t' := eval pattern (proj r) in t in
      lazymatch t' with
      | ?g _ => let u := eval cbv beta in (g (f (proj r))) in exact u
      end))
  end.

#[export] Hint Extern 1 (@Setter ?R _ ?proj) => build_setter R proj : typeclass_instances.

Declare Scope cpp_scope.
Delimit Scope cpp_scope with cpp.
Open Scope Z_scope.
Open Scope cpp_scope.

#[warning="-postfix-notation-not-level-1"]
Notation "x <| proj := v |>" := (set_field (proj := proj) (λ _, v) x)
  (at level 12, left associativity, proj at level 11, format "x  <| proj  :=  v |>") : cpp_scope.
#[warning="-postfix-notation-not-level-1"]
Notation "x <| proj ::= f |>" := (set_field (proj := proj) f x)
  (at level 12, left associativity, proj at level 11, format "x  <| proj  ::=  f |>") : cpp_scope.

(** ** Execution of C++ code

    A call either returns, throws, terminates the process or reaches
    undefined behaviour.  Every outcome but termination carries the state it was
    reached in, so that what happened before can still be stated. *)

Inductive fault :=
| NullDeref        (* a null pointer is dereferenced *)
| DanglingRef      (* a reference outlives the object it names *)
| IterInvalid      (* an iterator of an erased element is advanced *)
| NoReturn         (* a value-returning function flows off its end *)
| OutOfBounds      (* a read or write outside an object *)
| RelockMutex      (* a thread locks a std::mutex it already owns *)
| BadShift         (* a shift count that is negative or too large *)
| NoProgress.      (* a loop goes on beyond the rounds it is given *)

Inductive exn :=
| ResourceDeadlock (* std::system_error, resource_deadlock_would_occur *)
| BadFunctionCall  (* std::bad_function_call *)
| JsonLogic.       (* Json::LogicError of a failed conversion *)

#[export] Instance fault_eq_dec : EqDecision fault.
Proof. solve_decision. Defined.
#[export] Instance exn_eq_dec : EqDecision exn.
Proof. solve_decision. Defined.

Inductive outcome (S A : Type) :=
| Ret (a : A) (s : S)
| Throw (e : exn) (s : S)
| Terminate
| Undef (f : fault) (s : S).
Arguments Ret {S A} a s.
Arguments Throw {S A} e s.
Arguments Terminate {S A}.
Arguments Undef {S A} f s.

Definition M (S A : Type) : Type := S → outcome S A.

Definition ret {S A} (a : A) : M S A := λ s, Ret a s.
Definition bind {S A B} (m : M S A) (k : A → M S B) : M S B := λ s,
  match m s with
  | Ret a s' => k a s'
  | Throw e s' => Throw e s'
  | Terminate => Terminate
  | Undef f s' => Undef f s'
  end.
Definition throw {S A} (e : exn) : M S A := λ s, Throw e s.
Definition terminate {S A} : M S A := λ _, Terminate.
Definition undef {S A} (f : fault) : M S A := λ s, Undef f s.
Definition get {S} : M S S := λ s, Ret s s.
Definition gets {S A} (f : S → A) : M S A := λ s, Ret (f s) s.
Definition modify {S} (f : S → S) : M S unit := λ s, Ret tt (f s).
Definition when {S} (b : bool) (m : M S unit) : M S unit := if b then m else ret tt.

Arguments ret {S A} a s /.
Arguments bind {S A B} m k s /.
Arguments throw {S A} e s /.
Arguments terminate {S A} _ /.
Arguments undef {S A} f s /.
Arguments get {S} s /.
Arguments gets {S A} f s /.
Arguments modify {S} f s /.
Arguments when {S} b m : simpl nomatch.

Notation "'let!' x := m 'in' k" := (bind m (λ x, k))
  (at level 10, x name, m at level 100, k at level 200) : cpp_scope.
Notation "m ;; k" := (bind m (λ _, k))
  (at level 100, k at level 200, right associativity) : cpp_scope.

(** Dereference of a pointer that may be null. *)
Definition deref {S A} (p : option A) : M S A :=
  match p with Some a => ret a | None => undef NullDeref end.
Arguments deref {S A} p : simpl nomatch.

(** A write whose bounds were checked by [write_at]. *)
Definition in_bounds {S A} (p : option A) : M S A :=
  match p with Some a => ret a | None => undef OutOfBounds end.
Arguments in_bounds {S A} p : simpl nomatch.

(** A range-for over a sequence that the body does not change. *)
Fixpoint for_each {S A} (f : A → M S unit) (l : list A) : M S unit :=
  match l with
  | [] => ret tt
  | a :: l' => f a ;; for_each f l'
  end.

(** The same, threading a value that the body updates. *)
Fixpoint fold_m {S A B} (f : B → A → M S B) (l : list A) (b : B) : M S B :=
  match l with
  | [] => ret b
  | a :: l' => let! b' := f b a in fold_m f l' b'
  end.

(** Run an operation of a component inside the state of the system. *)
Definition lift {S T A} (proj : S → T) (upd : T → S → S) (m : M T A) : M S A := λ s,
  match m (proj s) with
  | Ret a t => Ret a (upd t s)
  | Throw e t => Throw e (upd t s)
  | Terminate => Terminate
  | Undef f t => Undef f (upd t s)
  end.
Arguments lift {S T A} proj upd m s /.

(** ** Total correctness

    [wp m Q s]: from [s], the call returns (no exception, no termination, no
    undefined behaviour) and its result and final state satisfy [Q]. *)

Definition wp {S A} (m : M S A) (Q : A → S → Prop) (s : S) : Prop :=
  match m s with Ret a s' => Q a s' | _ => False end.

(** Whatever the outcome, the state it was reached in satisfies [Q]. *)
Definition always {S A} (Q : S → Prop) (m : M S A) (s : S) : Prop :=
  match m s with
  | Ret _ s' | Throw _ s' | Undef _ s' => Q s'
  | Terminate => True
  end.

Section wp_rules.
Context {S : Type}.

Lemma wp_ret {A} (a : A) (Q : A → S → Prop) s : Q a s → wp (ret a) Q s.
Proof. done. Qed.

Lemma wp_bind {A B} (m : M S A) (k : A → M S B) (Q : B → S → Prop) s :
  wp m (λ a, wp (k a) Q) s → wp (bind m k) Q s.
Proof. unfold wp; cbn. by destruct (m s). Qed.

Lemma wp_mono {A} (m : M S A) (P Q : A → S → Prop) s :
  (∀ a s', P a s' → Q a s') → wp m P s → wp m Q s.
Proof. unfold wp. destruct (m s); naive_solver. Qed.

Lemma wp_and_ret {A} (m : M S A) (P Q : A → S → Prop) s : wp m P s → (∀ a t, m s = Ret a t → Q a t) → wp m (λ a t, P a t ∧ Q a t) s.
Proof. unfold wp. destruct (m s); auto. Qed.

Lemma wp_elim {A} (m : M S A) (P : A → S → Prop) s a t : wp m P s → m s = Ret a t → P a t.
Proof. unfold wp. intros H E. by rewrite E in H. Qed.

Lemma wp_returns (m : M S unit) (P : unit → S → Prop) s : wp m P s → ∃ t, m s = Ret tt t.
Proof. unfold wp. destruct (m s) as [[] t| | |]; [by eexists|done..]. Qed.

Lemma wp_when (b : bool) (m : M S unit) (Q : unit → S → Prop) s :
  (b = true → wp m Q s) → (b = false → Q tt s) → wp (when b m) Q s.
Proof. destruct b; cbn; auto. Qed.

Lemma wp_eq {A} (m : M S A) (a : A) s s' : m s = Ret a s' → wp m (λ b t, b = a ∧ t = s') s.
Proof. unfold wp. by intros ->. Qed.

(** A loop that keeps an invariant over the elements still to visit. *)
Lemma wp_for_each {A} (f : A → M S unit) (I : list A → S → Prop) l s :
  (∀ a l' t, I (a :: l') t → wp (f a) (λ _, I l') t) →
  I l s → wp (for_each f l) (λ _, I []) s.
Proof.
  intros Hstep. revert s. induction l as [|a l IH]; intros s Hs; [done|].
  apply wp_bind. eapply wp_mono, Hstep, Hs. eauto.
Qed.

Lemma wp_fold_m {A B} (f : B → A → M S B) (I : list A → B → S → Prop) l b s :
  I l b s → (∀ a l' b s, I (a :: l') b s → wp (f b a) (λ b', I l' b') s) → wp (fold_m f l b) (λ b', I [] b') s.
Proof.
  intros Hs Hstep. revert b s Hs. induction l as [|a l IH]; intros b s Hs; cbn; [done|].
  apply wp_bind. eapply wp_mono; [|by apply Hstep]. cbn. auto.
Qed.

Lemma always_bind {A B} (Q : S → Prop) (m : M S A) (k : A → M S B) s :
  always Q m s → (∀ a t, Q t → always Q (k a) t) → always Q (bind m k) s.
Proof. unfold always; cbn. destruct (m s); [intros ? H; by apply H | done..]. Qed.

Lemma always_when (Q : S → Prop) (b : bool) (m : M S unit) s :
  Q s → (∀ t, Q t → always Q m t) → always Q (when b m) s.
Proof. destruct b; cbn; auto. Qed.

Lemma always_for_each {A} (Q : S → Prop) (f : A → M S unit) l s :
  Q s → (∀ a t, Q t → always Q (f a) t) → always Q (for_each f l) s.
Proof.
  intros Hs Hf. revert s Hs. induction l as [|a l IH]; intros s Hs; [done|].
  apply always_bind; [by apply Hf | intros _ t Ht; by apply IH].
Qed.

Lemma always_ret {A} (Q : S → Prop) (a : A) s : Q s → always Q (ret a) s.
Proof. done. Qed.
Lemma always_undef {A} (Q : S → Prop) f s : Q s → always Q (undef f : M S A) s.
Proof. done. Qed.
Lemma always_gets {A} (Q : S → Prop) (f : S → A) s : Q s → always Q (gets f) s.
Proof. done. Qed.
Lemma always_get (Q : S → Prop) s : Q s → always Q get s.
Proof. done. Qed.
Lemma always_deref {A} (Q : S → Prop) (p : option A) s : Q s → always Q (deref p) s.
Proof. by destruct p. Qed.
Lemma always_modify (Q : S → Prop) f s : Q (f s) → always Q (modify f) s.
Proof. done. Qed.

(** An invariant of every reached state holds of the state a call returns in. *)
Lemma always_Ret {A} (Q : S → Prop) (m : M S A) s a s' :
  always Q m s → m s = Ret a s' → Q s'.
Proof. unfold always. intros H E. by rewrite E in H. Qed.


(** [keeps P m]: from a state that satisfies [P], whatever the outcome of [m], the
    state it was reached in satisfies [P]. *)
Definition keeps {A} (P : S → Prop) (m : M S A) : Prop := ∀ s, P s → always P m s.

Lemma keeps_bind {A B} (P : S → Prop) (m : M S A) (k : A → M S B) :
  keeps P m → (∀ a, keeps P (k a)) → keeps P (bind m k).
Proof. intros Hm Hk s Hs. apply always_bind; [by apply Hm | intros a t Ht; by apply Hk]. Qed.
Lemma keeps_ret {A} (P : S → Prop) (a : A) : keeps P (ret a).
Proof. by intros s. Qed.
Lemma keeps_undef {A} (P : S → Prop) f : keeps P (undef f : M S A).
Proof. by intros s. Qed.
Lemma keeps_throw {A} (P : S → Prop) e : keeps P (throw e : M S A).
Proof. by intros s. Qed.
Lemma keeps_terminate {A} (P : S → Prop) : keeps P (terminate : M S A).
Proof. by intros s. Qed.
Lemma keeps_gets {A} (P : S → Prop) (f : S → A) : keeps P (gets f).
Proof. by intros s. Qed.
Lemma keeps_deref {A} (P : S → Prop) (p : option A) : keeps P (deref p).
Proof. by destruct p; intros s. Qed.
Lemma keeps_in_bounds {A} (P : S → Prop) (p : option A) : keeps P (in_bounds p).
Proof. by destruct p; intros s. Qed.
Lemma keeps_modify (P : S → Prop) f : (∀ s, P s → P (f s)) → keeps P (modify f).
Proof. intros Hf s Hs. by apply Hf. Qed.
Lemma keeps_when (P : S → Prop) b (m : M S unit) : keeps P m → keeps P (when b m).
Proof. intros Hm. destruct b; [done | by intros s]. Qed.
Lemma keeps_for_each {A} (P : S → Prop) (f : A → M S unit) l :
  (∀ a, keeps P (f a)) → keeps P (for_each f l).
Proof. intros Hf s Hs. apply always_for_each; [done | intros a t Ht; by apply Hf]. Qed.
Lemma keeps_match_option {A B} (P : S → Prop) (o : option B) (m : B → M S A) (n : M S A) :
  (∀ b, keeps P (m b)) → keeps P n → keeps P (match o with Some b => m b | None => n end).
Proof. by destruct o. Qed.
Lemma keeps_if {A} (P : S → Prop) (b : bool) (m n : M S A) :
  keeps P m → keeps P n → keeps P (if b then m else n).
Proof. by destruct b. Qed.

End wp_rules.

Create HintDb cpp.
Create Rewrite HintDb cpp.
#[export] Hint Resolve wp_ret always_ret always_undef always_gets always_get always_deref : cpp.
#[export] Hint Resolve keeps_ret keeps_undef keeps_throw keeps_terminate keeps_gets keeps_deref
  keeps_in_bounds : cpp.

(** ** Lists *)

Lemma list_filter_id {A} (P : A → Prop) `{!∀ x, Decision (P x)} (l : list A) : (∀ x, x ∈ l → P x) → filter P l = l.
Proof.
  induction l as [|x l IH]; intros Hl; [done|]. rewrite filter_cons, decide_True by (apply Hl, elem_of_cons; auto).
  f_equal. apply IH. intros y Hy. apply Hl, elem_of_cons. auto.
Qed.

(** Where an element of a concatenation comes from. *)
Lemma lookup_concat {A} (ls : list (list A)) n x : concat ls !! n = Some x →
  ∃ i j l, ls !! i = Some l ∧ l !! j = Some x ∧ n = (length (concat (take i ls)) + j)%nat.
Proof.
  revert n. induction ls as [|l ls IH]; intros n; [done|]. cbn [concat]. intros [H|[Hn H]]%lookup_app_Some.
  - by exists 0%nat, n, l.
  - destruct (IH _ H) as (i & j & l' & Hi & Hj & E). exists (S i), j, l'. split; [done|]. split; [done|]. cbn [take concat]. rewrite length_app. lia.
Qed.

Lemma length_concat_take {A} (ls : list (list A)) i i' l : ls !! i = Some l → (i < i')%nat →
  (length (concat (take i ls)) + length l ≤ length (concat (take i' ls)))%nat.
Proof.
  intros Hi Hlt. replace i' with (S i + (i' - S i))%nat by lia. rewrite <- take_take_drop, (take_S_r _ _ _ Hi), !concat_app, !length_app. cbn.
  rewrite app_nil_r. lia.
Qed.

(** ** Machine integers *)

(** The value an unsigned integer of [w] bits takes: arithmetic is modulo [2^w]. *)
Definition wrap (w x : Z) : Z := x mod 2 ^ w.
Definition uint (w x : Z) : Prop := 0 ≤ x < 2 ^ w.

#[export] Instance uint_dec w x : Decision (uint w x).
Proof. unfold uint. apply _. Defined.

Lemma wrap_uint w x : 0 ≤ w → uint w (wrap w x).
Proof. intros. unfold uint, wrap. apply Z.mod_pos_bound. lia. Qed.

Lemma wrap_small w x : uint w x → wrap w x = x.
Proof. unfold uint, wrap. intros. by apply Z.mod_small. Qed.

Lemma wrap_wrap w x : 0 ≤ w → wrap w (wrap w x) = wrap w x.
Proof. intros. unfold wrap. apply Z.mod_mod. pose proof (Z.pow_pos_nonneg 2 w). lia. Qed.

Lemma wrap_plus w a b : 0 ≤ w → wrap w (wrap w a + b) = wrap w (a + b).
Proof. intros. unfold wrap. apply Z.add_mod_idemp_l. pose proof (Z.pow_pos_nonneg 2 w). lia. Qed.

Lemma lor_shiftl a b k : 0 ≤ k → 0 ≤ b < 2 ^ k → Z.lor (Z.shiftl a k) b = a * 2 ^ k + b.
Proof.
  intros Hk Hb. rewrite <- (Z.shiftl_mul_pow2 a k) by done. rewrite <- Z.add_lor_land.
  enough (Z.land (Z.shiftl a k) b = 0) as -> by lia. apply Z.bits_inj'. intros n Hn. rewrite Z.land_spec, Z.bits_0.
  destruct (Z.lt_ge_cases n k) as [Hl|Hg]; [by rewrite Z.shiftl_spec_low|].
  rewrite <- (Z.mod_small b (2 ^ k) Hb). by rewrite Z.mod_pow2_bits_high, andb_false_r by lia.
Qed.

#[export] Hint Resolve wrap_uint : cpp.
#[export] Hint Rewrite wrap_small using (unfold uint; lia) : cpp.

(** ** Bytes, little-endian

    A byte is a [Z] in [0, 256); the platform (x86-64, as the Visual Studio
    project builds) stores integers least significant byte first. *)

Definition byte_ok (b : Z) : Prop := 0 ≤ b < 256.
Definition bytes_ok (l : list Z) : Prop := Forall byte_ok l.

Fixpoint le_split (n : nat) (z : Z) : list Z :=
  match n with
  | O => []
  | S n' => z mod 256 :: le_split n' (z / 256)
  end.

Fixpoint le_combine (l : list Z) : Z :=
  match l with
  | [] => 0
  | b :: l' => b + 256 * le_combine l'
  end.

Lemma length_le_split n z : length (le_split n z) = n.
Proof. revert z; induction n; intros; cbn; auto. Qed.

Lemma le_split_ok n z : bytes_ok (le_split n z).
Proof.
  revert z; induction n as [|n IH]; intros z; constructor; [|apply IH].
  apply Z.mod_pos_bound. lia.
Qed.

Lemma le_combine_split n z : le_combine (le_split n z) = z mod 256 ^ Z.of_nat n.
Proof.
  revert z; induction n as [|n IH]; intros z; cbn [le_split le_combine].
  - by rewrite Z.mod_1_r.
  - rewrite IH, Nat2Z.inj_succ, Z.pow_succ_r by lia.
    rewrite (Z.rem_mul_r z 256) by lia. lia.
Qed.

Lemma le_combine_bound l : bytes_ok l → 0 ≤ le_combine l < 256 ^ Z.of_nat (length l).
Proof.
  induction 1 as [|b l Hb Hl IH]; cbn [le_combine length]; [lia|].
  rewrite Nat2Z.inj_succ, Z.pow_succ_r by lia. unfold byte_ok in Hb. lia.
Qed.

Lemma le_split_combine l : bytes_ok l → le_split (length l) (le_combine l) = l.
Proof.
  induction 1 as [|b l Hb Hl IH]; cbn [le_split le_combine length]; [done|].
  unfold byte_ok in Hb. f_equal.
  - rewrite (Z.mul_comm 256), Z.mod_add by lia. by apply Z.mod_small.
  - rewrite (Z.mul_comm 256), Z.div_add, Z.div_small, Z.add_0_l by lia. done.
Qed.

Lemma le_combine_inj l k :
  bytes_ok l → bytes_ok k → length l = length k → le_combine l = le_combine k → l = k.
Proof.
  intros Hl Hk Hlen Heq.
  by rewrite <- (le_split_combine l), <- (le_split_combine k), Hlen, Heq.
Qed.

(** A write of [bs] at [off] of an object; [None] outside of it. *)
Definition write_at (off : nat) (bs buf : list Z) : option (list Z) :=
  if (off + length bs <=? length buf)%nat
  then Some (take off buf ++ bs ++ drop (off + length bs) buf) else None.

(** [std::vector::resize]: cut, or pad with zeros. *)
Definition vec_resize (n : nat) (l : list Z) : list Z := take n l ++ replicate (n - length l) 0.

Lemma write_at_in off bs buf :
  (off + length bs ≤ length buf)%nat →
  write_at off bs buf = Some (take off buf ++ bs ++ drop (off + length bs) buf).
Proof. intros H. unfold write_at. by apply Nat.leb_le in H as ->. Qed.

Lemma write_at_length off bs buf buf' : write_at off bs buf = Some buf' → length buf' = length buf.
Proof.
  unfold write_at. case_match eqn:H; [|done]. apply Nat.leb_le in H. intros [= <-].
  rewrite !length_app, length_take, length_drop. lia.
Qed.

(** What precedes the write is kept, and what was written can be read back. *)
Lemma write_at_prefix off bs buf buf' n :
  write_at off bs buf = Some buf' → (n ≤ off)%nat → take n buf' = take n buf.
Proof.
  unfold write_at. case_match eqn:H; [|done]. apply Nat.leb_le in H. intros [= <-] Hn.
  rewrite take_app_le by (rewrite length_take; lia). rewrite take_take. f_equal. lia.
Qed.

Lemma write_at_read off bs buf buf' :
  write_at off bs buf = Some buf' → take (off + length bs) buf' = take off buf ++ bs.
Proof.
  unfold write_at. case_match eqn:H; [|done]. apply Nat.leb_le in H. intros [= <-].
  rewrite (assoc_L (++)), take_app_length' by (rewrite length_app, length_take; lia). done.
Qed.

Lemma length_vec_resize n l : length (vec_resize n l) = n.
Proof. unfold vec_resize. rewrite length_app, length_take, length_replicate. lia. Qed.

#[export] Hint Resolve le_split_ok le_combine_bound : cpp.
#[export] Hint Rewrite length_le_split length_vec_resize : cpp.

(** ** Tactics *)

(** Case on the scrutinees of the goal and simplify, until none is left. *)
Ltac run_cases := repeat (case_match; simplify_eq/=; try done).

(** Prove [keeps P m] along the structure of [m], with the lemmas of the database. *)
Ltac keep := repeat first
  [ progress intros
  | solve [auto with cpp]
  | simple apply keeps_bind | simple apply keeps_when | simple apply keeps_for_each
  | match goal with |- keeps _ (match ?x with _ => _ end) => destruct x end ].

(** Evaluate the comparisons of literals in the goal. *)
Ltac compute_test t :=
  let v := eval vm_compute in t in
  match v with true => change t with true | false => change t with false end.
Ltac compute_tests :=
  repeat match goal with
  | |- context [?a =? ?b] => compute_test (a =? b)
  | |- context [?a <? ?b] => compute_test (a <? b)
  | |- context [?a <=? ?b] => compute_test (a <=? b)
  end; cbv iota.

(** Symbolic execution of a call: unfold the listed operation, then compute. *)
Tactic Notation "exec" constr(f) := unfold f; cbn.
Tactic Notation "exec" constr(f) "," constr(g) := unfold f, g; cbn.
