(* ===== verification/Enums.v ===== *)
(** * Enumerations of the program

    One inductive type per C++ enumeration, with the constructors and the
    integer values of the source.  [CppEnum] is what the rest of the
    development needs of them: the value of an enumerator, the enumerator a
    cast from an integer names (none, when the integer is not the value of an
    enumerator: an [enum class] with a fixed underlying type may hold it all
    the same), and that the two are inverse. *)

From S2P Require Import Prelude.

Class CppEnum (A : Type) := {
  enum_all : list A;
  enum_val : A → Z
}.

(** A cast from an integer to the enumeration. *)
Definition enum_of {A} `{CppEnum A} (z : Z) : option A :=
  List.find (λ e, enum_val e =? z) enum_all.

Class CppEnumOk (A : Type) `{CppEnum A} := {
  enum_of_val : ∀ e : A, enum_of (enum_val e) = Some e;
  enum_complete : ∀ e : A, List.In e enum_all
}.

Ltac solve_enum :=
  split;
  [ intros []; vm_compute; reflexivity
  | intros []; cbn; repeat (first [left; reflexivity | right]) ].

Lemma enum_val_inj {A} `{CppEnumOk A} (e1 e2 : A) : enum_val e1 = enum_val e2 → e1 = e2.
Proof. intros Heq. assert (Some e1 = Some e2) as [=]; [by rewrite <- !enum_of_val, Heq | done]. Qed.

Lemma enum_of_Some {A} `{CppEnumOk A} z (e : A) : enum_of z = Some e ↔ enum_val e = z.
Proof.
  split; [|intros <-; apply enum_of_val].
  unfold enum_of. intros [_ Hz]%List.find_some. lia.
Qed.

(** ** network/packets/ESessionError.hpp *)

Inductive ESessionError :=
| ESessionErrorNone
| ESessionErrorDestinationNotLoggedIn
| ESessionErrorNegotiationTimeout
| ESessionErrorWrongTransportVersion
| ESessionErrorFailedToCreatePeerConnection
| ESessionErrorICE
| ESessionErrorConnectRequest
| ESessionErrorConnectResponse
| ESessionErrorCandidateAdd
| ESessionErrorInactivityTimeout
| ESessionErrorFailedToCreateOffer
| ESessionErrorFailedToCreateAnswer
| ESessionErrorFailedToSetLocalDescription
| ESessionErrorFailedToSetRemoteDescription
| ESessionErrorNegotiationTimeoutWaitingForResponse
| ESessionErrorNegotiationTimeoutWaitingForAccept
| ESessionErrorIncomingConnectionIgnored
| ESessionErrorSignalingParsingFailure
| ESessionErrorSignalingUnknownError
| ESessionErrorSignalingUnicastMessageDeliveryFailed
| ESessionErrorSignalingBroadcastDeliveryFailed
| ESessionErrorSignalingMessageDeliveryFailed
| ESessionErrorSignalingTurnAuthFailed
| ESessionErrorSignalingFallbackToBestEffortDelivery
| ESessionErrorNoSignalingChannel
| ESessionErrorNotLoggedIn
| ESessionErrorSignalingFailedToSend.

#[export] Instance ESessionError_eq_dec : EqDecision ESessionError.
Proof. solve_decision. Defined.

#[export] Instance ESessionError_enum : CppEnum ESessionError := {
  enum_all := [ESessionErrorNone; ESessionErrorDestinationNotLoggedIn; ESessionErrorNegotiationTimeout; ESessionErrorWrongTransportVersion; ESessionErrorFailedToCreatePeerConnection; ESessionErrorICE; ESessionErrorConnectRequest; ESessionErrorConnectResponse; ESessionErrorCandidateAdd; ESessionErrorInactivityTimeout; ESessionErrorFailedToCreateOffer; ESessionErrorFailedToCreateAnswer; ESessionErrorFailedToSetLocalDescription; ESessionErrorFailedToSetRemoteDescription; ESessionErrorNegotiationTimeoutWaitingForResponse; ESessionErrorNegotiationTimeoutWaitingForAccept; ESessionErrorIncomingConnectionIgnored; ESessionErrorSignalingParsingFailure; ESessionErrorSignalingUnknownError; ESessionErrorSignalingUnicastMessageDeliveryFailed; ESessionErrorSignalingBroadcastDeliveryFailed; ESessionErrorSignalingMessageDeliveryFailed; ESessionErrorSignalingTurnAuthFailed; ESessionErrorSignalingFallbackToBestEffortDelivery; ESessionErrorNoSignalingChannel; ESessionErrorNotLoggedIn; ESessionErrorSignalingFailedToSend];
  enum_val e :=
    match e with
    | ESessionErrorNone => 0
    | ESessionErrorDestinationNotLoggedIn => 1
    | ESessionErrorNegotiationTimeout => 2
    | ESessionErrorWrongTransportVersion => 3
    | ESessionErrorFailedToCreatePeerConnection => 4
    | ESessionErrorICE => 5
    | ESessionErrorConnectRequest => 6
    | ESessionErrorConnectResponse => 7
    | ESessionErrorCandidateAdd => 8
    | ESessionErrorInactivityTimeout => 9
    | ESessionErrorFailedToCreateOffer => 10
    | ESessionErrorFailedToCreateAnswer => 11
    | ESessionErrorFailedToSetLocalDescription => 12
    | ESessionErrorFailedToSetRemoteDescription => 13
    | ESessionErrorNegotiationTimeoutWaitingForResponse => 14
    | ESessionErrorNegotiationTimeoutWaitingForAccept => 15
    | ESessionErrorIncomingConnectionIgnored => 16
    | ESessionErrorSignalingParsingFailure => 17
    | ESessionErrorSignalingUnknownError => 18
    | ESessionErrorSignalingUnicastMessageDeliveryFailed => 19
    | ESessionErrorSignalingBroadcastDeliveryFailed => 20
    | ESessionErrorSignalingMessageDeliveryFailed => 21
    | ESessionErrorSignalingTurnAuthFailed => 22
    | ESessionErrorSignalingFallbackToBestEffortDelivery => 23
    | ESessionErrorNoSignalingChannel => 24
    | ESessionErrorNotLoggedIn => 25
    | ESessionErrorSignalingFailedToSend => 26
    end }.

#[export] Instance ESessionError_enum_ok : CppEnumOk ESessionError.
Proof. solve_enum. Qed.

(** ** network/packets/DiscoveryPacketType.hpp *)

Inductive DiscoveryPacketType :=
| PacketRequest
| PacketResponse
| PacketMessage.

#[export] Instance DiscoveryPacketType_eq_dec : EqDecision DiscoveryPacketType.
Proof. solve_decision. Defined.

#[export] Instance DiscoveryPacketType_enum : CppEnum DiscoveryPacketType := {
  enum_all := [PacketRequest; PacketResponse; PacketMessage];
  enum_val e :=
    match e with
    | PacketRequest => 0
    | PacketResponse => 1
    | PacketMessage => 2
    end }.

#[export] Instance DiscoveryPacketType_enum_ok : CppEnumOk DiscoveryPacketType.
Proof. solve_enum. Qed.

(** ** network/SignalingChannelId.hpp *)

Inductive SignalingChannelId :=
| ChannelWebSocket
| ChannelLan.

#[export] Instance SignalingChannelId_eq_dec : EqDecision SignalingChannelId.
Proof. solve_decision. Defined.

#[export] Instance SignalingChannelId_enum : CppEnum SignalingChannelId := {
  enum_all := [ChannelWebSocket; ChannelLan];
  enum_val e :=
    match e with
    | ChannelWebSocket => 0
    | ChannelLan => 1
    end }.

#[export] Instance SignalingChannelId_enum_ok : CppEnumOk SignalingChannelId.
Proof. solve_enum. Qed.

(** ** network/ESendType.hpp *)

Inductive ESendType :=
| eSendTypeUnreliable
| eSendTypeReliable.

#[export] Instance ESendType_eq_dec : EqDecision ESendType.
Proof. solve_decision. Defined.

#[export] Instance ESendType_enum : CppEnum ESendType := {
  enum_all := [eSendTypeUnreliable; eSendTypeReliable];
  enum_val e :=
    match e with
    | eSendTypeUnreliable => 0
    | eSendTypeReliable => 1
    end }.

#[export] Instance ESendType_enum_ok : CppEnumOk ESendType.
Proof. solve_enum. Qed.

(** ** connection/NetworkSession.hpp: the negotiation state of a session *)

Inductive ENegotiationState :=
| NegNone
| NegWaitingForResponse
| NegWaitingForAccept
| NegICEProcessing.

#[export] Instance ENegotiationState_eq_dec : EqDecision ENegotiationState.
Proof. solve_decision. Defined.

#[export] Instance ENegotiationState_enum : CppEnum ENegotiationState := {
  enum_all := [NegNone; NegWaitingForResponse; NegWaitingForAccept; NegICEProcessing];
  enum_val e :=
    match e with
    | NegNone => 0
    | NegWaitingForResponse => 1
    | NegWaitingForAccept => 2
    | NegICEProcessing => 3
    end }.

#[export] Instance ENegotiationState_enum_ok : CppEnumOk ENegotiationState.
Proof. solve_enum. Qed.

(** ** Controller.hpp *)

Inductive ThreadState :=
| Running
| Suspended
| Stopped.

#[export] Instance ThreadState_eq_dec : EqDecision ThreadState.
Proof. solve_decision. Defined.

#[export] Instance ThreadState_enum : CppEnum ThreadState := {
  enum_all := [Running; Suspended; Stopped];
  enum_val e :=
    match e with
    | Running => 0
    | Suspended => 1
    | Stopped => 2
    end }.

#[export] Instance ThreadState_enum_ok : CppEnumOk ThreadState.
Proof. solve_enum. Qed.

(** ** connection/DisconnectFailReason.hpp *)

Inductive DisconnectFailReason :=
| DfrUnknown
| DfrCantConnectNoInternet
| DfrNoPermissions
| DfrUnrecoverableError
| DfrThirdPartyBlocked
| DfrThirdPartyNoInternet
| DfrThirdPartyBadIP
| DfrThirdPartyNoServerOrServerLocked
| DfrVersionMismatch
| DfrSkinIssue
| DfrInviteSessionNotFound
| DfrEduLevelSettingsMissing
| DfrLocalServerNotFound
| DfrLegacyDisconnect
| DfrUserLeaveGameAttempted
| DfrPlatformLockedSkinsError
| DfrRealmsWorldUnassigned
| DfrRealmsServerCantConnect
| DfrRealmsServerHidden
| DfrRealmsServerDisabledBeta
| DfrRealmsServerDisabled
| DfrCrossPlatformDisabled
| DfrCantConnect
| DfrSessionNotFound
| DfrClientSettingsIncompatibleWithServer
| DfrServerFull
| DfrInvalidPlatformSkin
| DfrEditionVersionMismatch
| DfrEditionMismatch
| DfrLevelNewerThanExeVersion
| DfrNoFailOccurred
| DfrBannedSkin
| DfrTimeout
| DfrServerNotFound
| DfrOutdatedServer
| DfrOutdatedClient
| DfrNoPremiumPlatform
| DfrMultiplayerDisabled
| DfrNoWiFi
| DfrWorldCorruption
| DfrNoReason
| DfrDisconnected
| DfrInvalidPlayer
| DfrLoggedInOtherLocation
| DfrServerIdConflict
| DfrNotAllowed
| DfrNotAuthenticated
| DfrInvalidTenant
| DfrUnknownPacket
| DfrUnexpectedPacket
| DfrInvalidCommandRequestPacket
| DfrHostSuspended
| DfrLoginPacketNoRequest
| DfrLoginPacketNoCert
| DfrMissingClient
| DfrKicked
| DfrKickedForExploit
| DfrKickedForIdle
| DfrResourcePackProblem
| DfrIncompatiblePack
| DfrOutOfStorage
| DfrInvalidLevel
| DfrDisconnectPacketDeprecated
| DfrBlockMismatch
| DfrInvalidHeights
| DfrInvalidWidths
| DfrConnectionLostDeprecated
| DfrZombieConnection
| DfrShutdown
| DfrReasonNotSetDeprecated
| DfrLoadingStateTimeout
| DfrResourcePackLoadingFailed
| DfrSearchingForSessionLoadingScreenFailed
| DfrNetherNetProtocolVersion
| DfrSubsystemStatusError
| DfrEmptyAuthFromDiscovery
| DfrEmptyUrlFromDiscovery
| DfrExpiredAuthFromDiscovery
| DfrUnknownSignalServiceSignInFailure
| DfrXBLJoinLobbyFailure
| DfrUnspecifiedClientInstanceDisconnection
| DfrNetherNetSessionNotFound
| DfrNetherNetCreatePeerConnection
| DfrNetherNetICE
| DfrNetherNetConnectRequest
| DfrNetherNetConnectResponse
| DfrNetherNetNegotiationTimeout
| DfrNetherNetInactivityTimeout
| DfrStaleConnectionBeingReplaced
| DfrRealmsSessionNotFoundDeprecated
| DfrBadPacket
| DfrNetherNetFailedToCreateOffer
| DfrNetherNetFailedToCreateAnswer
| DfrNetherNetFailedToSetLocalDescription
| DfrNetherNetFailedToSetRemoteDescription
| DfrNetherNetNegotiationTimeoutWaitingForResponse
| DfrNetherNetNegotiationTimeoutWaitingForAccept
| DfrNetherNetIncomingConnectionIgnored
| DfrNetherNetSignalingParsingFailure
| DfrNetherNetSignalingUnknownError
| DfrNetherNetSignalingUnicastDeliveryFailed
| DfrNetherNetSignalingBroadcastDeliveryFailed
| DfrNetherNetSignalingGenericDeliveryFailed
| DfrEditorMismatchEditorWorld
| DfrEditorMismatchVanillaWorld
| DfrWorldTransferNotPrimaryClient
| DfrRequestServerShutdown
| DfrClientGameSetupCancelled
| DfrClientGameSetupFailed
| DfrNoVenue
| DfrNetherNetSignalingSigninFailed
| DfrSessionAccessDenied
| DfrServiceSigninIssue
| DfrNetherNetNoSignalingChannel
| DfrNetherNetNotLoggedIn
| DfrNetherNetClientSignalingError
| DfrSubClientLoginDisabled
| DfrDeepLinkTryingToOpenDemoWorldWhileSignedIn.

#[export] Instance DisconnectFailReason_eq_dec : EqDecision DisconnectFailReason.
Proof. solve_decision. Defined.

#[export] Instance DisconnectFailReason_enum : CppEnum DisconnectFailReason := {
  enum_all := [DfrUnknown; DfrCantConnectNoInternet; DfrNoPermissions; DfrUnrecoverableError; DfrThirdPartyBlocked; DfrThirdPartyNoInternet; DfrThirdPartyBadIP; DfrThirdPartyNoServerOrServerLocked; DfrVersionMismatch; DfrSkinIssue; DfrInviteSessionNotFound; DfrEduLevelSettingsMissing; DfrLocalServerNotFound; DfrLegacyDisconnect; DfrUserLeaveGameAttempted; DfrPlatformLockedSkinsError; DfrRealmsWorldUnassigned; DfrRealmsServerCantConnect; DfrRealmsServerHidden; DfrRealmsServerDisabledBeta; DfrRealmsServerDisabled; DfrCrossPlatformDisabled; DfrCantConnect; DfrSessionNotFound; DfrClientSettingsIncompatibleWithServer; DfrServerFull; DfrInvalidPlatformSkin; DfrEditionVersionMismatch; DfrEditionMismatch; DfrLevelNewerThanExeVersion; DfrNoFailOccurred; DfrBannedSkin; DfrTimeout; DfrServerNotFound; DfrOutdatedServer; DfrOutdatedClient; DfrNoPremiumPlatform; DfrMultiplayerDisabled; DfrNoWiFi; DfrWorldCorruption; DfrNoReason; DfrDisconnected; DfrInvalidPlayer; DfrLoggedInOtherLocation; DfrServerIdConflict; DfrNotAllowed; DfrNotAuthenticated; DfrInvalidTenant; DfrUnknownPacket; DfrUnexpectedPacket; DfrInvalidCommandRequestPacket; DfrHostSuspended; DfrLoginPacketNoRequest; DfrLoginPacketNoCert; DfrMissingClient; DfrKicked; DfrKickedForExploit; DfrKickedForIdle; DfrResourcePackProblem; DfrIncompatiblePack; DfrOutOfStorage; DfrInvalidLevel; DfrDisconnectPacketDeprecated; DfrBlockMismatch; DfrInvalidHeights; DfrInvalidWidths; DfrConnectionLostDeprecated; DfrZombieConnection; DfrShutdown; DfrReasonNotSetDeprecated; DfrLoadingStateTimeout; DfrResourcePackLoadingFailed; DfrSearchingForSessionLoadingScreenFailed; DfrNetherNetProtocolVersion; DfrSubsystemStatusError; DfrEmptyAuthFromDiscovery; DfrEmptyUrlFromDiscovery; DfrExpiredAuthFromDiscovery; DfrUnknownSignalServiceSignInFailure; DfrXBLJoinLobbyFailure; DfrUnspecifiedClientInstanceDisconnection; DfrNetherNetSessionNotFound; DfrNetherNetCreatePeerConnection; DfrNetherNetICE; DfrNetherNetConnectRequest; DfrNetherNetConnectResponse; DfrNetherNetNegotiationTimeout; DfrNetherNetInactivityTimeout; DfrStaleConnectionBeingReplaced; DfrRealmsSessionNotFoundDeprecated; DfrBadPacket; DfrNetherNetFailedToCreateOffer; DfrNetherNetFailedToCreateAnswer; DfrNetherNetFailedToSetLocalDescription; DfrNetherNetFailedToSetRemoteDescription; DfrNetherNetNegotiationTimeoutWaitingForResponse; DfrNetherNetNegotiationTimeoutWaitingForAccept; DfrNetherNetIncomingConnectionIgnored; DfrNetherNetSignalingParsingFailure; DfrNetherNetSignalingUnknownError; DfrNetherNetSignalingUnicastDeliveryFailed; DfrNetherNetSignalingBroadcastDeliveryFailed; DfrNetherNetSignalingGenericDeliveryFailed; DfrEditorMismatchEditorWorld; DfrEditorMismatchVanillaWorld; DfrWorldTransferNotPrimaryClient; DfrRequestServerShutdown; DfrClientGameSetupCancelled; DfrClientGameSetupFailed; DfrNoVenue; DfrNetherNetSignalingSigninFailed; DfrSessionAccessDenied; DfrServiceSigninIssue; DfrNetherNetNoSignalingChannel; DfrNetherNetNotLoggedIn; DfrNetherNetClientSignalingError; DfrSubClientLoginDisabled; DfrDeepLinkTryingToOpenDemoWorldWhileSignedIn];
  enum_val e :=
    match e with
    | DfrUnknown => 0
    | DfrCantConnectNoInternet => 1
    | DfrNoPermissions => 2
    | DfrUnrecoverableError => 3
    | DfrThirdPartyBlocked => 4
    | DfrThirdPartyNoInternet => 5
    | DfrThirdPartyBadIP => 6
    | DfrThirdPartyNoServerOrServerLocked => 7
    | DfrVersionMismatch => 8
    | DfrSkinIssue => 9
    | DfrInviteSessionNotFound => 10
    | DfrEduLevelSettingsMissing => 11
    | DfrLocalServerNotFound => 12
    | DfrLegacyDisconnect => 13
    | DfrUserLeaveGameAttempted => 14
    | DfrPlatformLockedSkinsError => 15
    | DfrRealmsWorldUnassigned => 16
    | DfrRealmsServerCantConnect => 17
    | DfrRealmsServerHidden => 18
    | DfrRealmsServerDisabledBeta => 19
    | DfrRealmsServerDisabled => 20
    | DfrCrossPlatformDisabled => 21
    | DfrCantConnect => 22
    | DfrSessionNotFound => 23
    | DfrClientSettingsIncompatibleWithServer => 24
    | DfrServerFull => 25
    | DfrInvalidPlatformSkin => 26
    | DfrEditionVersionMismatch => 27
    | DfrEditionMismatch => 28
    | DfrLevelNewerThanExeVersion => 29
    | DfrNoFailOccurred => 30
    | DfrBannedSkin => 31
    | DfrTimeout => 32
    | DfrServerNotFound => 33
    | DfrOutdatedServer => 34
    | DfrOutdatedClient => 35
    | DfrNoPremiumPlatform => 36
    | DfrMultiplayerDisabled => 37
    | DfrNoWiFi => 38
    | DfrWorldCorruption => 39
    | DfrNoReason => 40
    | DfrDisconnected => 41
    | DfrInvalidPlayer => 42
    | DfrLoggedInOtherLocation => 43
    | DfrServerIdConflict => 44
    | DfrNotAllowed => 45
    | DfrNotAuthenticated => 46
    | DfrInvalidTenant => 47
    | DfrUnknownPacket => 48
    | DfrUnexpectedPacket => 49
    | DfrInvalidCommandRequestPacket => 50
    | DfrHostSuspended => 51
    | DfrLoginPacketNoRequest => 52
    | DfrLoginPacketNoCert => 53
    | DfrMissingClient => 54
    | DfrKicked => 55
    | DfrKickedForExploit => 56
    | DfrKickedForIdle => 57
    | DfrResourcePackProblem => 58
    | DfrIncompatiblePack => 59
    | DfrOutOfStorage => 60
    | DfrInvalidLevel => 61
    | DfrDisconnectPacketDeprecated => 62
    | DfrBlockMismatch => 63
    | DfrInvalidHeights => 64
    | DfrInvalidWidths => 65
    | DfrConnectionLostDeprecated => 66
    | DfrZombieConnection => 67
    | DfrShutdown => 68
    | DfrReasonNotSetDeprecated => 69
    | DfrLoadingStateTimeout => 70
    | DfrResourcePackLoadingFailed => 71
    | DfrSearchingForSessionLoadingScreenFailed => 72
    | DfrNetherNetProtocolVersion => 73
    | DfrSubsystemStatusError => 74
    | DfrEmptyAuthFromDiscovery => 75
    | DfrEmptyUrlFromDiscovery => 76
    | DfrExpiredAuthFromDiscovery => 77
    | DfrUnknownSignalServiceSignInFailure => 78
    | DfrXBLJoinLobbyFailure => 79
    | DfrUnspecifiedClientInstanceDisconnection => 80
    | DfrNetherNetSessionNotFound => 81
    | DfrNetherNetCreatePeerConnection => 82
    | DfrNetherNetICE => 83
    | DfrNetherNetConnectRequest => 84
    | DfrNetherNetConnectResponse => 85
    | DfrNetherNetNegotiationTimeout => 86
    | DfrNetherNetInactivityTimeout => 87
    | DfrStaleConnectionBeingReplaced => 88
    | DfrRealmsSessionNotFoundDeprecated => 89
    | DfrBadPacket => 90
    | DfrNetherNetFailedToCreateOffer => 91
    | DfrNetherNetFailedToCreateAnswer => 92
    | DfrNetherNetFailedToSetLocalDescription => 93
    | DfrNetherNetFailedToSetRemoteDescription => 94
    | DfrNetherNetNegotiationTimeoutWaitingForResponse => 95
    | DfrNetherNetNegotiationTimeoutWaitingForAccept => 96
    | DfrNetherNetIncomingConnectionIgnored => 97
    | DfrNetherNetSignalingParsingFailure => 98
    | DfrNetherNetSignalingUnknownError => 99
    | DfrNetherNetSignalingUnicastDeliveryFailed => 100
    | DfrNetherNetSignalingBroadcastDeliveryFailed => 101
    | DfrNetherNetSignalingGenericDeliveryFailed => 102
    | DfrEditorMismatchEditorWorld => 103
    | DfrEditorMismatchVanillaWorld => 104
    | DfrWorldTransferNotPrimaryClient => 105
    | DfrRequestServerShutdown => 106
    | DfrClientGameSetupCancelled => 107
    | DfrClientGameSetupFailed => 108
    | DfrNoVenue => 109
    | DfrNetherNetSignalingSigninFailed => 110
    | DfrSessionAccessDenied => 111
    | DfrServiceSigninIssue => 112
    | DfrNetherNetNoSignalingChannel => 113
    | DfrNetherNetNotLoggedIn => 114
    | DfrNetherNetClientSignalingError => 115
    | DfrSubClientLoginDisabled => 116
    | DfrDeepLinkTryingToOpenDemoWorldWhileSignedIn => 117
    end }.

#[export] Instance DisconnectFailReason_enum_ok : CppEnumOk DisconnectFailReason.
Proof. solve_enum. Qed.

(** ** logging/LogSeverity.hpp

    [First] and [Disabled] share the value 0, so this enumeration is a set of
    named integers rather than an injective one. *)

Inductive LogSeverity :=
| First
| Disabled
| CriticalOnly
| Error
| Warning
| Information
| Verbose
| Count.

Definition LogSeverity_val (s : LogSeverity) : Z :=
  match s with
  | First => 0
  | Disabled => 0
  | CriticalOnly => 1
  | Error => 2
  | Warning => 3
  | Information => 4
  | Verbose => 5
  | Count => 6
  end.

(** ** WebRTC states the sessions read

    api/peer_connection_interface.h and api/data_channel_interface.h. *)

Inductive IceConnectionState :=
| kIceConnectionNew
| kIceConnectionChecking
| kIceConnectionConnected
| kIceConnectionCompleted
| kIceConnectionFailed
| kIceConnectionDisconnected
| kIceConnectionClosed
| kIceConnectionMax.

#[export] Instance IceConnectionState_eq_dec : EqDecision IceConnectionState.
Proof. solve_decision. Defined.

#[export] Instance IceConnectionState_enum : CppEnum IceConnectionState := {
  enum_all := [kIceConnectionNew; kIceConnectionChecking; kIceConnectionConnected; kIceConnectionCompleted; kIceConnectionFailed; kIceConnectionDisconnected; kIceConnectionClosed; kIceConnectionMax];
  enum_val e :=
    match e with
    | kIceConnectionNew => 0
    | kIceConnectionChecking => 1
    | kIceConnectionConnected => 2
    | kIceConnectionCompleted => 3
    | kIceConnectionFailed => 4
    | kIceConnectionDisconnected => 5
    | kIceConnectionClosed => 6
    | kIceConnectionMax => 7
    end }.

#[export] Instance IceConnectionState_enum_ok : CppEnumOk IceConnectionState.
Proof. solve_enum. Qed.

Inductive IceGatheringState :=
| kIceGatheringNew
| kIceGatheringGathering
| kIceGatheringComplete.

#[export] Instance IceGatheringState_eq_dec : EqDecision IceGatheringState.
Proof. solve_decision. Defined.

#[export] Instance IceGatheringState_enum : CppEnum IceGatheringState := {
  enum_all := [kIceGatheringNew; kIceGatheringGathering; kIceGatheringComplete];
  enum_val e :=
    match e with
    | kIceGatheringNew => 0
    | kIceGatheringGathering => 1
    | kIceGatheringComplete => 2
    end }.

#[export] Instance IceGatheringState_enum_ok : CppEnumOk IceGatheringState.
Proof. solve_enum. Qed.

Inductive DataState :=
| kConnecting
| kOpen
| kClosing
| kClosed.

#[export] Instance DataState_eq_dec : EqDecision DataState.
Proof. solve_decision. Defined.

#[export] Instance DataState_enum : CppEnum DataState := {
  enum_all := [kConnecting; kOpen; kClosing; kClosed];
  enum_val e :=
    match e with
    | kConnecting => 0
    | kOpen => 1
    | kClosing => 2
    | kClosed => 3
    end }.

#[export] Instance DataState_enum_ok : CppEnumOk DataState.
Proof. solve_enum. Qed.

Inductive PeerConnectionState :=
| Pc_kNew
| Pc_kConnecting
| Pc_kConnected
| Pc_kDisconnected
| Pc_kFailed
| Pc_kClosed.

#[export] Instance PeerConnectionState_eq_dec : EqDecision PeerConnectionState.
Proof. solve_decision. Defined.

#[export] Instance PeerConnectionState_enum : CppEnum PeerConnectionState := {
  enum_all := [Pc_kNew; Pc_kConnecting; Pc_kConnected; Pc_kDisconnected; Pc_kFailed; Pc_kClosed];
  enum_val e :=
    match e with
    | Pc_kNew => 0
    | Pc_kConnecting => 1
    | Pc_kConnected => 2
    | Pc_kDisconnected => 3
    | Pc_kFailed => 4
    | Pc_kClosed => 5
    end }.

#[export] Instance PeerConnectionState_enum_ok : CppEnumOk PeerConnectionState.
Proof. solve_enum. Qed.

Inductive IceCandidateType :=
| kHost
| kSrflx
| kPrflx
| kRelay.

#[export] Instance IceCandidateType_eq_dec : EqDecision IceCandidateType.
Proof. solve_decision. Defined.

#[export] Instance IceCandidateType_enum : CppEnum IceCandidateType := {
  enum_all := [kHost; kSrflx; kPrflx; kRelay];
  enum_val e :=
    match e with
    | kHost => 0
    | kSrflx => 1
    | kPrflx => 2
    | kRelay => 3
    end }.

#[export] Instance IceCandidateType_enum_ok : CppEnumOk IceCandidateType.
Proof. solve_enum. Qed.

(** ** connection/NetherNetTransportServerConfiguration.hpp *)

Inductive SignalingHost :=
| HostWebSocket
| HostDeferred
| HostTcpClientPrototype
| HostTcpServerPrototype
| HostNone.

#[export] Instance SignalingHost_eq_dec : EqDecision SignalingHost.
Proof. solve_decision. Defined.

#[export] Instance SignalingHost_enum : CppEnum SignalingHost := {
  enum_all := [HostWebSocket; HostDeferred; HostTcpClientPrototype; HostTcpServerPrototype; HostNone];
  enum_val e :=
    match e with
    | HostWebSocket => 0
    | HostDeferred => 1
    | HostTcpClientPrototype => 2
    | HostTcpServerPrototype => 3
    | HostNone => 4
    end }.

#[export] Instance SignalingHost_enum_ok : CppEnumOk SignalingHost.
Proof. solve_enum. Qed.
