(* ===== verification/Utils.v ===== *)
(** * utils/: ErrorOr, View, NonOwnerPointer, ThreadSafe

    The small vocabulary types of the program.  [ErrorOr] is a value or an
    error; [NonOwnerPointer] is a pointer that its owner can invalidate through
    a shared control block; [ThreadSafe] is a value behind a mutex. *)

From S2P Require Import Prelude.

(** ** utils/Errors.hpp *)

Inductive ErrorOr (T E : Type) :=
| Value (t : T)
| result_error (e : E).
Arguments Value {T E} t.
Arguments result_error {T E} e.

Section ErrorOr.
Context {T E S : Type}.
Implicit Types r : ErrorOr T E.

Definition has_value r : bool := match r with Value _ => true | result_error _ => false end.
Definition err r : bool := match r with Value _ => false | result_error _ => true end.

(** [value()] and [error()] are [noexcept] and call [std::get], which throws on
    the wrong alternative: the process terminates. *)
Definition value r : M S T := match r with Value t => ret t | result_error _ => terminate end.
Definition error r : M S E := match r with Value _ => terminate | result_error e => ret e end.
End ErrorOr.

Lemma err_negb_has_value {T E} (r : ErrorOr T E) : err r = negb (has_value r).
Proof. by destruct r. Qed.

Lemma value_checked {S T E} (r : ErrorOr T E) (s : S) :
  has_value r = true → ∃ t, r = Value t ∧ value r s = Ret t s.
Proof. destruct r as [t|]; [|done]. intros _. by exists t. Qed.

(** ** utils/Strings.hpp: a view of bytes the caller owns *)

Record View := mkView { pData : list Z; mLength : Z }.
Definition get_len (v : View) : Z := mLength v.
Definition view_empty (v : View) : bool := mLength v =? 0.
Definition view_of (l : list Z) : View := mkView l (Z.of_nat (length l)).

(** ** utils/EnableNonOwnerReferences.hpp and utils/NonOwnerPointer.hpp

    The heap of control blocks maps each allocated block to its [mIsValid].
    An object that enables references holds its block; its implicit copy
    constructor copies the pointer, so a copy shares the block. *)

Abbreviation block := positive (only parsing).
Record EnableNonOwnerReferences := mkOwner { owner_block : option block }.
Record NonOwnerPointer (T : Type) := mkNonOwner {
  mControlBlock : option block;
  mPointer : option T
}.
Arguments mkNonOwner {T}.
Arguments mControlBlock {T}.
Arguments mPointer {T}.

Abbreviation blocks := (gmap positive bool) (only parsing).

(** The constructor allocates a valid block. *)
Definition EnableNonOwnerReferences_new : M blocks EnableNonOwnerReferences := λ h,
  let b := fresh (dom h) in Ret (mkOwner (Some b)) (<[b := true]> h).

Definition EnableNonOwnerReferences_copy (o : EnableNonOwnerReferences) : EnableNonOwnerReferences := o.

(** The destructor marks the block, if there is one. *)
Definition EnableNonOwnerReferences_destroy (o : EnableNonOwnerReferences) : M blocks unit :=
  match owner_block o with
  | Some b => modify (λ h, <[b := false]> h)
  | None => ret tt
  end.

Definition non_owner_get {T} (p : NonOwnerPointer T) (h : blocks) : option T :=
  match mControlBlock p with
  | Some b => match h !! b with Some true => mPointer p | _ => None end
  | None => None
  end.
Definition non_owner_bool {T} (p : NonOwnerPointer T) (h : blocks) : bool :=
  match non_owner_get p h with Some _ => true | None => false end.
Definition non_owner_eqb {T} `{EqDecision T} (p q : NonOwnerPointer T) (h : blocks) : bool :=
  bool_decide (non_owner_get p h = non_owner_get q h).

(** A reference taken from an owner. *)
Definition non_owner_of {T} (o : EnableNonOwnerReferences) (p : T) : NonOwnerPointer T :=
  mkNonOwner (owner_block o) (Some p).

(** a non-owner pointer reads its object from the moment the owner is
    constructed until the owner, or any copy of it, is destroyed; from then on it
    reads null, and it stays null whatever other owners do.  References through other
    blocks are not affected. *)
Theorem non_owner_lifetime {T} (h : blocks) (x : T) (q : NonOwnerPointer T) :
  wp EnableNonOwnerReferences_new (λ o h1,
    let p := non_owner_of o x in
    non_owner_get p h1 = Some x
    ∧ (is_Some (mControlBlock q ≫= λ b, h !! b) → non_owner_get q h1 = non_owner_get q h)
    ∧ wp (EnableNonOwnerReferences_destroy (EnableNonOwnerReferences_copy o)) (λ _ h2,
        non_owner_get p h2 = None ∧ non_owner_bool p h2 = false
        ∧ (is_Some (mControlBlock q ≫= λ b, h !! b) → non_owner_get q h2 = non_owner_get q h)
        ∧ wp EnableNonOwnerReferences_new (λ _ h3, non_owner_get p h3 = None) h2) h1) h.
Proof.
  unfold wp; cbn. set (b := fresh (dom h)).
  assert (h !! b = None) as Hb by (apply not_elem_of_dom, is_fresh).
  assert (∀ h' : blocks, (∀ c, c ≠ b → h' !! c = h !! c) →
    is_Some (mControlBlock q ≫= λ b, h !! b) → non_owner_get q h' = non_owner_get q h) as Hq.
  { intros h' Hh' [v Hv]. unfold non_owner_get. destruct (mControlBlock q) as [c|]; cbn in *; [|done].
    rewrite Hh'; [done|]. congruence. }
  unfold non_owner_get at 1; cbn. rewrite lookup_insert_eq. split; [done|]. split.
  { apply Hq. intros c Hc. by rewrite lookup_insert_ne. }
  unfold non_owner_bool, non_owner_get at 1 2; cbn. rewrite !lookup_insert_eq. split_and!; try done.
  { apply Hq. intros c Hc. by rewrite !lookup_insert_ne. }
  unfold non_owner_get; cbn. set (b' := fresh _).
  assert (b' ≠ b) as Hne.
  { intros E. pose proof (is_fresh (dom (<[b:=false]> (<[b:=true]> h)))) as Hf. fold b' in Hf.
    rewrite E, !dom_insert_L in Hf. set_solver. }
  by rewrite lookup_insert_ne, lookup_insert_eq by done.
Qed.

(** ** utils/Utils.hpp: [ThreadSafe<T>] and its [View]

    [ts.get()] builds a [View] whose [lock_guard] owns the mutex for the life of
    the view: locking again from the same thread is undefined. *)

Record ThreadSafe (T : Type) := mkTS { ts_data : T; ts_locked : bool }.
Arguments mkTS {T}.
Arguments ts_data {T}.
Arguments ts_locked {T}.

Definition with_view {T A} (body : M T A) : M (ThreadSafe T) A := λ ts,
  if ts_locked ts then Undef RelockMutex ts
  else
    match body (ts_data ts) with
    | Ret a d => Ret a (mkTS d false)
    | Throw e d => Throw e (mkTS d false)
    | Terminate => Terminate
    | Undef f d => Undef f (mkTS d true)
    end.
