(* ===== verification/Win32.v ===== *)
(** * rtc_base/win32.cc: addresses as text

    [inet_ntop] and [inet_pton] as the project builds them on Windows.  A C string is the
    list of its character codes, without the terminating NUL.  Of the C library they use
    [snprintf] of a number, [isdigit], [strtol], [strchr] and [sscanf] of a hexadecimal
    [unsigned short]; these are modelled first, as the C standard describes them. *)

From S2P Require Import Prelude.

Definition chars (s : string) : list Z := (λ a, Z.of_N (Ascii.N_of_ascii a)) <$> String.list_ascii_of_string s.
Definition string_of_chars (l : list Z) : string :=
  String.string_of_list_ascii ((λ c, Ascii.ascii_of_N (Z.to_N c)) <$> l).

(** What a [std::string] holds up to its first NUL. *)
Fixpoint c_chars (l : list Z) : list Z :=
  match l with
  | [] => []
  | c :: l' => if c =? 0 then [] else c :: c_chars l'
  end.

(** ** The C library *)

Definition chr_dot : Z := 46.
Definition chr_colon : Z := 58.

Definition digit_char (d : Z) : Z := if d <? 10 then 48 + d else 87 + d.
Definition digit_val (c : Z) : Z := if c <=? 57 then c - 48 else if c <=? 70 then c - 55 else c - 87.
Definition isdigit (c : Z) : bool := (48 <=? c) && (c <=? 57).
Definition isxdigit (c : Z) : bool :=
  isdigit c || ((97 <=? c) && (c <=? 102)) || ((65 <=? c) && (c <=? 70)).
Definition isspace (c : Z) : bool := (c =? 32) || ((9 <=? c) && (c <=? 13)).

(** [snprintf] with [%d] or [%x] of a non-negative number of at most [fuel] digits. *)
Fixpoint print_base (fuel : nat) (base n : Z) : list Z :=
  match fuel with
  | O => []
  | S f => if n <? base then [digit_char n] else print_base f base (n / base) ++ [digit_char (n mod base)]
  end.
Definition print_dec (n : Z) : list Z := print_base 20 10 n.
Definition print_hex (n : Z) : list Z := print_base 16 16 n.

Fixpoint span (f : Z → bool) (l : list Z) : list Z * list Z :=
  match l with
  | [] => ([], [])
  | c :: l' => if f c then let '(a, b) := span f l' in (c :: a, b) else ([], l)
  end.
Definition digits_value (base : Z) (l : list Z) : Z := fold_left (λ a c, a * base + digit_val c) l 0.

(** [strtol(s, &end, 10)]: the value, saturated to 32 bits, and what follows; the end is
    the start when there is no number. *)
Definition strtol (s : list Z) : Z * list Z :=
  let '(_, s1) := span isspace s in
  let '(neg, s2) := match s1 with c :: r => if c =? 45 then (true, r) else if c =? 43 then (false, r) else (false, s1)
                    | [] => (false, s1) end in
  match span isdigit s2 with
  | ([], _) => (0, s)
  | (ds, rest) => let v := digits_value 10 ds in
                  (Z.max (- 2 ^ 31) (Z.min (2 ^ 31 - 1) (if neg then - v else v)), rest)
  end.

(** [sscanf(s, "%hx%n")], or with a field width: the value and the characters read. *)
Definition scan_hx (width : option nat) (s : list Z) : option (Z * nat) :=
  let '(ws, s1) := span isspace s in
  let field := match width with Some w => take w s1 | None => s1 end in
  let '(neg, s2) := match field with c :: r => if c =? 45 then (true, r) else if c =? 43 then (false, r) else (false, field)
                    | [] => (false, field) end in
  let s3 := match s2 with
            | z :: x :: r => if (z =? 48) && ((x =? 120) || (x =? 88)) then r else s2
            | _ => s2 end in
  match span isxdigit s3 with
  | ([], _) => None
  | (ds, rest) => let v := digits_value 16 ds in
                  Some (wrap 16 (if neg then - v else v), (length ws + (length field - length rest))%nat)
  end.

(** [strchr(s, c)]: what follows the first [c]. *)
Fixpoint after_char (c : Z) (s : list Z) : option (list Z) :=
  match s with
  | [] => None
  | a :: s' => if a =? c then Some s' else after_char c s'
  end.
Definition has_char (c : Z) (s : list Z) : bool :=
  match after_char c s with Some _ => true | None => false end.

(** ** inet_ntop

    The Windows SDK's sizes of the two text buffers. *)

Definition INET_ADDRSTRLEN : Z := 22.
Definition INET6_ADDRSTRLEN : Z := 65.

(** The buffer [dst] with [text] written at its start. *)
Definition overwrite (dst text : list Z) : list Z := text ++ drop (length text) dst.
(** [snprintf(dst, size, ...)] of [text]: cut to the buffer and ended by a NUL. *)
Definition snprintf (dst : list Z) (size : Z) (text : list Z) : list Z :=
  overwrite dst (take (Z.to_nat (size - 1)) text ++ [0]).

Definition dotted_quad (src : list Z) : list Z :=
  match src with
  | [b1; b2; b3; b4] =>
    print_dec b1 ++ [chr_dot] ++ print_dec b2 ++ [chr_dot] ++ print_dec b3 ++ [chr_dot] ++ print_dec b4
  | _ => []
  end.

(** The address as eight numbers; exchanging the bytes of a short does not change whether
    it is 0 or 0xFFFF. *)
Fixpoint as_shorts (src : list Z) : list Z :=
  match src with
  | hi :: lo :: rest => (256 * hi + lo) :: as_shorts rest
  | _ => []
  end.

(** The first loop, over whether each short is zero: the positions in their runs, [max]
    and [maxpos]. *)
Fixpoint mark_runs (i : Z) (zero : list bool) (current max maxpos : Z) : list Z * Z * Z :=
  match zero with
  | [] => ([], max, maxpos)
  | true :: rest =>
    let '(max', maxpos') := if max <? current then (current, i) else (max, maxpos) in
    let '(runpos, m, p) := mark_runs (i + 1) rest (current + 1) max' maxpos' in (current :: runpos, m, p)
  | false :: rest => let '(runpos, m, p) := mark_runs (i + 1) rest 1 max maxpos in (-1 :: runpos, m, p)
  end.

(** The second loop, from the last position to the first. *)
Fixpoint keep_longest (i : Z) (rev_runpos : list Z) (tmpmax : Z) : list Z :=
  match rev_runpos with
  | [] => []
  | r :: rest =>
    if tmpmax <? i then -1 :: keep_longest (i - 1) rest tmpmax
    else if r =? -1 then r :: keep_longest (i - 1) rest (-1)
    else r :: keep_longest (i - 1) rest tmpmax
  end.

Definition run_positions (zero : list bool) : list Z * Z * Z :=
  let '(runpos, max, maxpos) := mark_runs 0 zero 1 0 (-1) in
  (if 0 <? max then reverse (keep_longest 7 (reverse runpos) maxpos) else runpos, max, maxpos).

(** The printing loop; [skip] positions are passed over without being looked at. *)
Fixpoint print_shorts (i : Z) (runpos shorts : list Z) (max : Z) (skip : nat) : list Z :=
  match runpos, shorts with
  | r :: runpos', w :: shorts' =>
    match skip with
    | S k => print_shorts (i + 1) runpos' shorts' max k
    | O =>
      if r =? -1 then
        print_hex w ++ (if negb (i =? 7) && negb (default 0 (head runpos') =? 1) then [chr_colon] else [])
          ++ print_shorts (i + 1) runpos' shorts' max 0
      else if r =? 1 then
        [chr_colon; chr_colon] ++ print_shorts (i + 1) runpos' shorts' max (Z.to_nat (max - 1))
      else print_shorts (i + 1) runpos' shorts' max 0
    end
  | _, _ => []
  end.

(** The condition under which the last four bytes are printed as an IPv4 address, and the
    text in front of them. *)
Definition is_v4_in_v6 (runpos shorts : list Z) (maxpos : Z) : bool :=
  (default 0 (runpos !! 0%nat) =? 1)
  && ((maxpos =? 5) || ((maxpos =? 4) && (default 0 (shorts !! 5%nat) =? 0xFFFF))).
Definition v4_prefix (maxpos : Z) : list Z :=
  [chr_colon; chr_colon] ++ (if maxpos =? 4 then [102; 102; 102; 102; chr_colon] else []).

Definition inet_ntop_v4 (src dst : list Z) (size : Z) : option (list Z) :=
  if size <? INET_ADDRSTRLEN then None else Some (snprintf dst size (dotted_quad src)).

(** The NUL behind a number is the next character's place; the last one stays.  An address
    that ends in its run ends in two colons, behind which nothing is written. *)
Definition inet_ntop_v6 (src dst : list Z) (size : Z) : option (list Z) :=
  if size <? INET6_ADDRSTRLEN then None else
  let shorts := as_shorts src in
  let '(runpos, max, maxpos) := run_positions ((λ w, w =? 0) <$> shorts) in
  Some (if is_v4_in_v6 runpos shorts maxpos then
    let cursor := length (v4_prefix maxpos) in
    let dst' := overwrite dst (v4_prefix maxpos) in
    take cursor dst'
      ++ default (drop cursor dst') (inet_ntop_v4 (drop 12 src) (drop cursor dst') (INET6_ADDRSTRLEN - Z.of_nat cursor))
  else overwrite dst (print_shorts 0 runpos shorts max 0 ++ (if default 0 (last runpos) =? -1 then [0] else []))).

Definition win32_inet_ntop (af : Z) (src dst : list Z) (size : Z) : option (list Z) :=
  if af =? 2 then inet_ntop_v4 src dst size
  else if af =? 23 then inet_ntop_v6 src dst size
  else None.

(** The text of an IPv6 address, whatever buffer it is written to. *)
Definition ntop_v6_text (src : list Z) : list Z :=
  let shorts := as_shorts src in
  let '(runpos, max, maxpos) := run_positions ((λ w, w =? 0) <$> shorts) in
  if is_v4_in_v6 runpos shorts maxpos then v4_prefix maxpos ++ dotted_quad (drop 12 src)
  else print_shorts 0 runpos shorts max 0.

(** ** inet_pton *)

(** A loop bounded by [fuel]. *)
Inductive run (A : Type) := Done (a : A) | OutOfFuel.
Arguments Done {A} a.
Arguments OutOfFuel {A}.
Definition finish {A} (r : run (option A)) : option A := match r with Done a => a | OutOfFuel => None end.

(** [result] holds the numbers found. *)
Fixpoint pton_v4_loop (fuel : nat) (src_pos result : list Z) : run (option (list Z)) :=
  match fuel with
  | O => OutOfFuel
  | S f =>
    match src_pos with
    | [] => Done (if (length result =? 4)%nat then Some result else None)
    | c :: _ =>
      if negb (isdigit c) then Done None else
      let '(value, end_pos) := strtol src_pos in
      if (value <? 0) || (255 <? value) || (length src_pos =? length end_pos)%nat then Done None else
      if (3 <? length result)%nat then Done None else
      match end_pos with
      | [] => pton_v4_loop f [] (result ++ [value])
      | d :: rest => if d =? chr_dot then pton_v4_loop f rest (result ++ [value]) else Done None
      end
    end
  end.
Definition inet_pton_v4 (src : list Z) : option (list Z) := finish (pton_v4_loop 6 src []).

Definition count_colons (s : list Z) : nat := length (List.filter (λ c, c =? chr_colon) s).

(** The loop over an address without a trailing IPv4 part; [addr_cursor] counts shorts and
    [an_addr] holds them in host order. *)
Fixpoint pton_v6_loop (fuel : nat) (s : list Z) (addr_cursor : nat) (an_addr : list Z) (seencompressed : bool) :
    run (option (list Z)) :=
  match fuel with
  | O => OutOfFuel
  | S f =>
    match s with
    | [] => Done (if (addr_cursor <? 8)%nat then None else Some an_addr)
    | c :: rest =>
      if negb (addr_cursor <? 8)%nat then Done None else
      if c =? chr_colon then
        match rest with
        | c2 :: rest2 =>
          if c2 =? chr_colon then
            if seencompressed then Done None else
            match rest2 with
            | [] => pton_v6_loop f [] 8 an_addr seencompressed
            | _ => let coloncount := count_colons rest2 in
                   if (8 - addr_cursor <? coloncount + 1)%nat then Done None
                   else pton_v6_loop f rest2 (8 - (coloncount + 1)) an_addr true
            end
          else pton_v6_loop f rest addr_cursor an_addr seencompressed
        | [] => pton_v6_loop f [] addr_cursor an_addr seencompressed
        end
      else
        match scan_hx (Some 4%nat) s with
        | None => Done None
        | Some (word, bytesread) =>
          match drop bytesread s with
          | [] => pton_v6_loop f [] (S addr_cursor) (<[addr_cursor := word]> an_addr) seencompressed
          | d :: rest' =>
            if d =? chr_colon
            then pton_v6_loop f (d :: rest') (S addr_cursor) (<[addr_cursor := word]> an_addr) seencompressed
            else Done None
          end
        end
    end
  end.

(** The shorts in network order. *)
Fixpoint short_bytes (shorts : list Z) : list Z :=
  match shorts with [] => [] | w :: rest => w / 256 :: w mod 256 :: short_bytes rest end.

Definition pton_v6_plain (src : list Z) : option (list Z) :=
  short_bytes <$> finish (pton_v6_loop (S (length src)) src 0 (replicate 8 0) false).

Definition inet_pton_v6 (src : list Z) : option (list Z) :=
  if has_char 120 src then None else
  match src with
  | c1 :: c2 :: _ :: _ =>
    if (c1 =? chr_colon) && (c2 =? chr_colon) && has_char chr_dot (drop 2 src) then
      match after_char chr_colon (drop 2 src) with
      | Some rest =>
        match scan_hx None (drop 2 src) with
        | Some (a_short, bytesread) =>
          if (a_short =? 0xFFFF) && (bytesread =? 4)%nat
          then (λ v4, replicate 10 0 ++ [255; 255] ++ v4) <$> inet_pton_v4 rest else None
        | None => None
        end
      | None => (λ v4, replicate 12 0 ++ v4) <$> inet_pton_v4 (drop 2 src)
      end
    else pton_v6_plain src
  | _ => pton_v6_plain src
  end.

(** 0 also stands for a text that is no address; another family is refused with -1. *)
Definition win32_inet_pton (af : Z) (src : list Z) : Z * option (list Z) :=
  let result (r : option (list Z)) := (match r with Some _ => 1 | None => 0 end, r) in
  if af =? 2 then result (inet_pton_v4 src)
  else if af =? 23 then result (inet_pton_v6 src)
  else (-1, None).

(** ** Numbers as text *)

Lemma span_app f l rest :
  Forall (λ c, f c = true) l → (∀ c r, rest = c :: r → f c = false) → span f (l ++ rest) = (l, rest).
Proof.
  intros Hl Hr. induction Hl as [|c l Hc Hl IH]; cbn.
  - destruct rest as [|c r]; cbn; [done|]. by rewrite (Hr c r).
  - by rewrite Hc, IH.
Qed.

Lemma span_spec f l : let '(a, b) := span f l in l = a ++ b ∧ Forall (λ c, f c = true) a.
Proof.
  induction l as [|c l IH]; cbn; [done|]. destruct (f c) eqn:E; cbn; [|done].
  destruct (span f l) as [a b]. destruct IH as [-> Ha]. split; [done|]. by constructor.
Qed.

(** The characters a number in a base up to 16 is written with. *)
Definition digit_ok (base c : Z) : Prop := ∃ d, 0 ≤ d < base ∧ c = digit_char d.

Lemma digit_ok_val base c : base ≤ 16 → digit_ok base c →
  isxdigit c = true ∧ (base ≤ 10 → isdigit c = true) ∧ 48 ≤ c ≤ 102 ∧ c ≠ 58 ∧ c ≠ 46 ∧ c ≠ 88.
Proof.
  intros Hb (d & Hd & ->). unfold isxdigit, isdigit, digit_char.
  destruct (Z.ltb_spec d 10); repeat split; intros; lia.
Qed.

Lemma digit_val_char d : 0 ≤ d < 16 → digit_val (digit_char d) = d.
Proof.
  intros Hd. unfold digit_val, digit_char. destruct (Z.ltb_spec d 10); repeat case_match; lia.
Qed.

Section PrintBase.
Variable base : Z.
Hypothesis Hbase : 2 ≤ base ≤ 16.

Lemma print_base_ok fuel n :
  0 ≤ n < base ^ Z.of_nat fuel → (0 < fuel)%nat →
  Forall (digit_ok base) (print_base fuel base n) ∧ digits_value base (print_base fuel base n) = n
  ∧ (0 < length (print_base fuel base n))%nat.
Proof.
  revert n. induction fuel as [|f IH]; intros n Hn Hf; [lia|]. cbn [print_base].
  rewrite Nat2Z.inj_succ, Z.pow_succ_r in Hn by lia. destruct (Z.ltb_spec n base) as [Hlt|Hge].
  { split_and!; [|unfold digits_value; cbn; rewrite digit_val_char by lia; lia | cbn; lia].
    repeat constructor. exists n. split; [lia|done]. }
  assert (0 < f)%nat as Hf' by (destruct f; [cbn in Hn; lia|lia]).
  assert (0 ≤ n / base < base ^ Z.of_nat f) as Hq.
  { split; [apply Z.div_pos; lia | apply Z.div_lt_upper_bound; lia]. }
  pose proof (Z.mod_pos_bound n base ltac:(lia)) as Hm.
  destruct (IH (n / base) Hq Hf') as (Hok & Hval & Hlen). split_and!.
  - apply Forall_app. split; [done|]. repeat constructor. by exists (n mod base).
  - unfold digits_value in *. rewrite fold_left_app, Hval. cbn. rewrite digit_val_char by lia.
    pose proof (Z.div_mod n base ltac:(lia)). lia.
  - rewrite length_app. cbn. lia.
Qed.

Lemma print_base_length fuel n k :
  0 ≤ n < base ^ Z.of_nat k → (0 < k)%nat → (length (print_base fuel base n) ≤ k)%nat.
Proof.
  revert n k. induction fuel as [|f IH]; intros n k Hn Hk; cbn [print_base]; [cbn; lia|].
  destruct (Z.ltb_spec n base) as [Hlt|Hge]; [cbn; lia|]. rewrite length_app. cbn [length].
  destruct k as [|k]; [lia|]. rewrite Nat2Z.inj_succ, Z.pow_succ_r in Hn by lia.
  assert (0 < k)%nat by (destruct k; [cbn in Hn; lia|lia]).
  enough (length (print_base f base (n / base)) ≤ k)%nat by lia.
  apply IH; [|done]. split; [apply Z.div_pos; lia | apply Z.div_lt_upper_bound; lia].
Qed.
End PrintBase.

Lemma print_dec_ok n : byte_ok n →
  Forall (digit_ok 10) (print_dec n) ∧ digits_value 10 (print_dec n) = n ∧ (0 < length (print_dec n) ≤ 3)%nat.
Proof.
  unfold byte_ok, print_dec. intros Hn. destruct (print_base_ok 10 ltac:(lia) 20 n ltac:(lia) ltac:(lia)) as (H1 & H2 & H3).
  split_and!; try done. apply print_base_length; lia.
Qed.

Lemma print_hex_ok n : uint 16 n →
  Forall (digit_ok 16) (print_hex n) ∧ digits_value 16 (print_hex n) = n ∧ (0 < length (print_hex n) ≤ 4)%nat.
Proof.
  unfold uint, print_hex. intros Hn. destruct (print_base_ok 16 ltac:(lia) 16 n ltac:(lia) ltac:(lia)) as (H1 & H2 & H3).
  split_and!; try done. apply print_base_length; lia.
Qed.

(** No digit, which is what follows a number in a printed address. *)
Definition delimited (rest : list Z) : Prop := ∀ c r, rest = c :: r → c = 58 ∨ c = 46.

Lemma strtol_print n rest : byte_ok n → delimited rest → strtol (print_dec n ++ rest) = (n, rest).
Proof.
  intros Hn Hr. destruct (print_dec_ok n Hn) as (Hok & Hval & Hlen). unfold byte_ok in Hn.
  destruct (print_dec n) as [|c l] eqn:E; [cbn in Hlen; lia|].
  assert (Forall (λ c, isdigit c = true) (c :: l)) as Hd.
  { eapply Forall_impl; [exact Hok|]. intros x Hx. apply (digit_ok_val 10 x ltac:(lia) Hx). lia. }
  assert (span isdigit ((c :: l) ++ rest) = (c :: l, rest)) as Hs.
  { apply span_app; [done|]. intros c' r ->. destruct (Hr c' r eq_refl) as [-> | ->]; done. }
  assert (isspace c = false ∧ (c =? 45) = false ∧ (c =? 43) = false) as (H1 & H2 & H3).
  { apply list.Forall_cons in Hok as [Hc _]. destruct (digit_ok_val 10 c ltac:(lia) Hc) as (_ & _ & Hc' & _).
    unfold isspace. lia. }
  unfold strtol. cbn [app span]. rewrite H1, H2, H3. cbn [app] in Hs. rewrite Hs. rewrite Hval.
  f_equal. lia.
Qed.

Lemma scan_hx_print width n rest :
  uint 16 n → delimited rest → (∀ k, width = Some k → k = 4%nat) →
  scan_hx width (print_hex n ++ rest) = Some (n, length (print_hex n)).
Proof.
  intros Hn Hr Hw. destruct (print_hex_ok n Hn) as (Hok & Hval & Hlen).
  destruct (print_hex n) as [|c l] eqn:E; [cbn in Hlen; lia|].
  pose proof (λ x Hx, digit_ok_val 16 x ltac:(lia) Hx) as Hdig.
  assert (Forall (λ c, isxdigit c = true) (c :: l)) as Hd by (eapply Forall_impl; [exact Hok | apply Hdig]).
  pose proof Hok as [Hc Hl]%list.Forall_cons. destruct (Hdig c Hc) as (_ & _ & Hcr & _).
  assert (isspace c = false ∧ (c =? 45) = false ∧ (c =? 43) = false) as (H1 & H2 & H3) by (unfold isspace; lia).
  set (tail := match width with Some k => take (k - length (c :: l)) rest | None => rest end).
  assert ((match width with Some k => take k (c :: l ++ rest) | None => c :: l ++ rest end) = c :: l ++ tail) as Hf.
  { subst tail. destruct width as [k|]; [|done]. rewrite (Hw k eq_refl) in *.
    change (c :: l ++ rest) with ((c :: l) ++ rest). rewrite take_app_ge by lia. done. }
  assert (delimited tail) as Ht.
  { subst tail. destruct width as [k|]; [|done]. intros x r Hx. destruct rest as [|y rest']; [by rewrite take_nil in Hx|].
    destruct (k - _)%nat; cbn in Hx; [done|]. injection Hx as -> _. by apply (Hr x rest'). }
  assert (span isxdigit (c :: l ++ tail) = (c :: l, tail)) as Hs.
  { apply (span_app isxdigit (c :: l)); [done|]. intros x r ->. destruct (Ht x r eq_refl) as [-> | ->]; done. }
  unfold scan_hx. cbn [app span]. rewrite H1. cbv zeta. rewrite Hf, H2, H3.
  assert ((match l ++ tail with
           | x :: r => if (c =? 48) && ((x =? 120) || (x =? 88)) then r else c :: l ++ tail
           | [] => c :: l ++ tail end) = c :: l ++ tail) as Hp.
  { destruct (l ++ tail) as [|x r] eqn:El; [done|].
    assert (x ≠ 120 ∧ x ≠ 88) as [Hx1 Hx2].
    { destruct l as [|y l']; cbn in El; [destruct (Ht x r El); lia|]. injection El as -> _.
      apply list.Forall_cons in Hl as [Hy _]. destruct (Hdig x Hy) as (_ & _ & ? & _ & _ & ?). lia. }
    rewrite (proj2 (Z.eqb_neq x 120)), (proj2 (Z.eqb_neq x 88)) by done. by rewrite andb_false_r. }
  rewrite Hp, Hs, Hval. unfold uint in Hn. rewrite wrap_small by done. f_equal. f_equal.
  cbn [length]. rewrite length_app. lia.
Qed.

(** ** IPv4 text *)

Lemma delimited_dot l : delimited (chr_dot :: l).
Proof. intros c r [= <- _]. by right. Qed.
Lemma delimited_nil : delimited [].
Proof. by intros c r. Qed.
Lemma delimited_colon l : delimited (chr_colon :: l).
Proof. intros c r [= <- _]. by left. Qed.

Lemma pton_v4_step fuel n rest result :
  byte_ok n → delimited rest → (length result < 4)%nat →
  pton_v4_loop (S fuel) (print_dec n ++ rest) result
  = match rest with
    | [] => pton_v4_loop fuel [] (result ++ [n])
    | d :: rest' => if d =? chr_dot then pton_v4_loop fuel rest' (result ++ [n]) else Done None
    end.
Proof.
  intros Hn Hr Hres. pose proof (strtol_print n rest Hn Hr) as Hst.
  destruct (print_dec_ok n Hn) as (Hok & _ & Hlen). unfold byte_ok in Hn.
  destruct (print_dec n) as [|c l] eqn:E; [cbn in Hlen; lia|]. cbn [pton_v4_loop app].
  assert (isdigit c = true) as Hc.
  { apply list.Forall_cons in Hok as [Hc _]. apply (digit_ok_val 10 c ltac:(lia) Hc). lia. }
  rewrite Hc. cbn [negb]. cbn [app] in Hst. rewrite Hst.
  rewrite (proj2 (Z.ltb_ge n 0)), (proj2 (Z.ltb_ge 255 n)) by lia. cbn [orb].
  rewrite (proj2 (Nat.eqb_neq _ _)) by (cbn [length]; rewrite length_app; lia).
  by rewrite (proj2 (Nat.ltb_ge 3 (length result))) by lia.
Qed.

Lemma pton_dotted_quad a : length a = 4%nat → bytes_ok a → inet_pton_v4 (dotted_quad a) = Some a.
Proof.
  intros Hlen Hok. destruct a as [|b1 [|b2 [|b3 [|b4 [|]]]]]; try done.
  unfold bytes_ok in Hok. rewrite !list.Forall_cons in Hok. destruct Hok as (H1 & H2 & H3 & H4 & _).
  unfold inet_pton_v4, dotted_quad. cbn [app].
  rewrite pton_v4_step; [|done|apply delimited_dot|cbn; lia]. cbn [app Z.eqb]. rewrite Z.eqb_refl.
  rewrite pton_v4_step; [|done|apply delimited_dot|cbn; lia]. rewrite Z.eqb_refl.
  rewrite pton_v4_step; [|done|apply delimited_dot|cbn; lia]. rewrite Z.eqb_refl.
  rewrite <- (app_nil_r (print_dec b4)). rewrite pton_v4_step; [done|done|apply delimited_nil|cbn; lia].
Qed.

(** ** Termination of the parsers *)

Lemma scan_hx_reads width s v n : scan_hx width s = Some (v, n) → (0 < n)%nat.
Proof.
  unfold scan_hx. destruct (span isspace s) as [ws s1]. set (field := match width with Some w => take w s1 | None => s1 end).
  cbv zeta. intros H.
  destruct (match field with c :: r => if c =? 45 then (true, r) else if c =? 43 then (false, r) else (false, field)
            | [] => (false, field) end) as [neg s2] eqn:E2.
  assert (length s2 ≤ length field)%nat as L2.
  { destruct field as [|c r]; [by injection E2 as <- <-|].
    destruct (c =? 45); [injection E2 as <- <-; cbn; lia|].
    destruct (c =? 43); injection E2 as <- <-; cbn; lia. }
  set (s3 := match s2 with z :: x :: r => if (z =? 48) && ((x =? 120) || (x =? 88)) then r else s2 | _ => s2 end) in H.
  assert (length s3 ≤ length s2)%nat as L3.
  { subst s3. destruct s2 as [|z [|x r]]; [done..|]. destruct (_ && _); cbn; lia. }
  pose proof (span_spec isxdigit s3) as Hs. destruct (span isxdigit s3) as [ds rest]. destruct Hs as [Hs _].
  apply (f_equal length) in Hs. rewrite length_app in Hs. destruct ds as [|d ds]; [done|].
  injection H as _ <-. cbn in Hs. lia.
Qed.

(** Enough fuel gives a result that does not depend on the fuel. *)
Lemma pton_v6_fuel f1 f2 s cur an seen :
  (length s < f1)%nat → (length s < f2)%nat →
  pton_v6_loop f1 s cur an seen = pton_v6_loop f2 s cur an seen ∧ pton_v6_loop f1 s cur an seen ≠ OutOfFuel.
Proof.
  revert f2 s cur an seen. induction f1 as [|f1 IH]; intros f2 s cur an seen H1 H2; [lia|].
  destruct f2 as [|f2]; [lia|]. cbn [pton_v6_loop].
  destruct s as [|c rest]; [done|]. cbn [length] in H1, H2.
  destruct (negb _); [done|]. destruct (c =? chr_colon).
  - destruct rest as [|c2 rest2]; [apply IH; cbn; lia|]. destruct (c2 =? chr_colon); [|apply IH; lia].
    destruct seen; [done|]. cbn in H1, H2. destruct rest2 as [|x r]; [apply IH; cbn; lia|].
    destruct (_ <? _)%nat; [done|]. apply IH; lia.
  - destruct (scan_hx (Some 4%nat) (c :: rest)) as [[word n]|] eqn:E; [|done].
    apply scan_hx_reads in E. pose proof (length_drop (c :: rest) n) as Hd. cbn in Hd.
    destruct (drop n (c :: rest)) as [|d r]; [apply IH; cbn; lia|]. cbn [length] in Hd.
    destruct (d =? chr_colon); [|done]. apply IH; cbn [length]; lia.
Qed.

Lemma pton_v4_fuel fuel s result : (5 - length result < fuel)%nat → (length result ≤ 4)%nat →
  pton_v4_loop fuel s result ≠ OutOfFuel.
Proof.
  revert s result. induction fuel as [|f IH]; intros s result Hf Hr; [lia|]. cbn [pton_v4_loop].
  destruct s as [|c s]; [done|]. destruct (negb (isdigit c)); [done|].
  destruct (strtol (c :: s)) as [value end_pos]. destruct (_ || _ || _); [done|].
  destruct (Nat.ltb_spec 3 (length result)); [done|].
  destruct end_pos as [|d rest]; [|destruct (d =? chr_dot); [|done]]; apply IH; rewrite length_app; cbn; lia.
Qed.

(** ** The loop without its fuel *)

Definition v6_loop (s : list Z) (cur : nat) (an : list Z) (seen : bool) : run (option (list Z)) :=
  pton_v6_loop (S (length s)) s cur an seen.

Lemma v6_loop_fuel f s cur an seen :
  (length s < f)%nat → pton_v6_loop f s cur an seen = v6_loop s cur an seen.
Proof. intros H. apply (pton_v6_fuel f (S (length s))); lia. Qed.

(** One unfolding, with a fuel that does not compute. *)
Lemma v6_loop_at s cur an seen :
  ∃ f, (length s ≤ f)%nat ∧ v6_loop s cur an seen = pton_v6_loop (S f) s cur an seen.
Proof. by exists (length s). Qed.

Lemma v6_loop_nil cur an seen : v6_loop [] cur an seen = Done (if (cur <? 8)%nat then None else Some an).
Proof. done. Qed.

(** A single colon is passed over. *)
Lemma v6_loop_colon s cur an seen :
  (cur < 8)%nat → (∀ r, s ≠ chr_colon :: r) → v6_loop (chr_colon :: s) cur an seen = v6_loop s cur an seen.
Proof.
  intros Hc Hs. unfold v6_loop at 1. cbn [pton_v6_loop]. rewrite (proj2 (Nat.ltb_lt cur 8)) by done. cbn [negb].
  rewrite Z.eqb_refl. destruct s as [|c2 rest2].
  { apply v6_loop_fuel. cbn. lia. }
  destruct (Z.eqb_spec c2 chr_colon) as [->|Hne]; [by destruct (Hs rest2)|]. apply v6_loop_fuel. cbn. lia.
Qed.

(** A compressed run. *)
Lemma v6_loop_run s cur an :
  (cur < 8)%nat →
  v6_loop (chr_colon :: chr_colon :: s) cur an false
  = match s with
    | [] => Done (Some an)
    | _ => if (8 - cur <? count_colons s + 1)%nat then Done None else v6_loop s (8 - (count_colons s + 1)) an true
    end.
Proof.
  intros Hc. destruct (v6_loop_at (chr_colon :: chr_colon :: s) cur an false) as (f & Hf & ->). cbn [pton_v6_loop].
  rewrite (proj2 (Nat.ltb_lt cur 8)) by done. cbn [negb]. rewrite Z.eqb_refl. cbn in Hf. destruct s as [|x r].
  - destruct f; [lia|done].
  - destruct (_ <? _)%nat; [done|]. apply v6_loop_fuel. cbn in *. lia.
Qed.

(** A number. *)
Lemma v6_loop_word w rest cur an seen :
  (cur < 8)%nat → uint 16 w → (∀ c r, rest = c :: r → c = chr_colon) →
  v6_loop (print_hex w ++ rest) cur an seen = v6_loop rest (S cur) (<[cur := w]> an) seen.
Proof.
  intros Hc Hw Hr.
  assert (delimited rest) as Hd by (intros x r Hx; left; by apply (Hr x r)).
  pose proof (scan_hx_print (Some 4%nat) w rest Hw Hd ltac:(by intros k [= <-])) as Hscan.
  destruct (print_hex_ok w Hw) as (Hok & _ & Hlen). destruct (print_hex w) as [|c l] eqn:E; [cbn in Hlen; lia|].
  apply list.Forall_cons in Hok as [Hc' _]. destruct (digit_ok_val 16 c ltac:(lia) Hc') as (_ & _ & _ & Hne & _).
  destruct (v6_loop_at ((c :: l) ++ rest) cur an seen) as (f & Hf & ->). rewrite length_app in Hf.
  cbn [app length pton_v6_loop] in *. rewrite (proj2 (Nat.ltb_lt cur 8)) by done. cbn [negb].
  rewrite (proj2 (Z.eqb_neq c chr_colon)) by done. rewrite Hscan.
  replace (drop (S (length l)) (c :: l ++ rest)) with rest by (cbn; by rewrite drop_app_length).
  destruct rest as [|d r]; [destruct f; [lia|done]|].
  rewrite (Hr d r eq_refl), Z.eqb_refl. apply v6_loop_fuel. cbn in *. lia.
Qed.

(** ** IPv6 text *)

(** Numbers separated by colons. *)
Fixpoint join (ws : list Z) : list Z :=
  match ws with
  | [] => []
  | [w] => print_hex w
  | w :: ws' => print_hex w ++ chr_colon :: join ws'
  end.

Lemma join_cons w ws : join (w :: ws) = print_hex w ++ match ws with [] => [] | _ => chr_colon :: join ws end.
Proof. destruct ws; [by rewrite app_nil_r | done]. Qed.

Lemma print_hex_head w : uint 16 w → ∃ c l, print_hex w = c :: l ∧ c ≠ chr_colon ∧ c ≠ chr_dot.
Proof.
  intros Hw. destruct (print_hex_ok w Hw) as (Hok & _ & Hlen). destruct (print_hex w) as [|c l]; [cbn in Hlen; lia|].
  apply list.Forall_cons in Hok as [Hc _]. destruct (digit_ok_val 16 c ltac:(lia) Hc) as (_ & _ & _ & ? & ? & _). eauto.
Qed.

Lemma join_head w ws : uint 16 w → ∃ c l, join (w :: ws) = c :: l ∧ c ≠ chr_colon.
Proof. intros Hw. rewrite join_cons. destruct (print_hex_head w Hw) as (c & l & -> & ? & _). by eexists _, _. Qed.

(** Writing numbers at consecutive positions. *)
Fixpoint insert_words (cur : nat) (ws an : list Z) : list Z :=
  match ws with [] => an | w :: ws' => insert_words (S cur) ws' (<[cur := w]> an) end.

Lemma insert_words_app cur pre ws mid post :
  cur = length pre → length mid = length ws → insert_words cur ws (pre ++ mid ++ post) = pre ++ ws ++ post.
Proof.
  intros ->. revert pre mid. induction ws as [|w ws IH]; intros pre mid Hl; destruct mid as [|m mid]; try done.
  cbn [insert_words]. rewrite (insert_app_r_alt pre _ (length pre)) by lia. rewrite Nat.sub_diag. cbn.
  replace (S (length pre)) with (length (pre ++ [w])) by (rewrite length_app; cbn; lia).
  rewrite (cons_middle w pre (mid ++ post)), (assoc_L app). rewrite IH by (cbn in Hl; lia).
  by rewrite <- (assoc_L app).
Qed.

(** The loop over numbers separated by colons, up to the end or to a further colon. *)
Lemma v6_loop_words ws rest cur an seen :
  Forall (uint 16) ws → ws ≠ [] → (cur + length ws ≤ 8)%nat → (∀ c r, rest = c :: r → c = chr_colon) →
  v6_loop (join ws ++ rest) cur an seen = v6_loop rest (cur + length ws) (insert_words cur ws an) seen.
Proof.
  revert cur an. induction ws as [|w ws IH]; intros cur an Hok Hne Hlen Hr; [done|]. cbn [length] in Hlen.
  apply list.Forall_cons in Hok as [Hw Hok]. rewrite join_cons, <- (assoc_L app).
  rewrite v6_loop_word; [|lia|done|by destruct ws; [|intros c r [= <- _]]].
  destruct ws as [|w2 ws]; cbn [app insert_words length]; [by rewrite Nat.add_1_r|].
  rewrite v6_loop_colon; [|cbn in Hlen; lia|].
  2:{ apply list.Forall_cons in Hok as [Hw2 _]. destruct (join_head w2 ws Hw2) as (c & l & -> & Hc). by intros r [= -> _]. }
  rewrite IH by (done || cbn in *; lia). cbn [length]. by rewrite Nat.add_succ_comm.
Qed.

Lemma count_colons_join ws :
  Forall (uint 16) ws → ws ≠ [] → count_colons (join ws) = (length ws - 1)%nat.
Proof.
  intros Hok Hne. assert (∀ w, uint 16 w → List.filter (λ c, c =? chr_colon) (print_hex w) = []) as Hw.
  { intros w Hw. destruct (print_hex_ok w Hw) as (Hd & _ & _). clear -Hd. induction Hd as [|c l Hc Hl IH]; [done|].
    cbn. destruct (digit_ok_val 16 c ltac:(lia) Hc) as (_ & _ & _ & Hne & _). by rewrite (proj2 (Z.eqb_neq c chr_colon)). }
  unfold count_colons. induction Hok as [|w ws H1 H2 IH]; [done|]. rewrite join_cons, List.filter_app, Hw by done.
  destruct ws as [|w2 ws]; [done|]. cbn [app List.filter]. rewrite Z.eqb_refl. cbn [length]. rewrite IH by done. cbn. lia.
Qed.

Lemma pton_plain_join ws : length ws = 8%nat → Forall (uint 16) ws → pton_v6_plain (join ws) = Some (short_bytes ws).
Proof.
  intros Hlen Hok. unfold pton_v6_plain. fold (v6_loop (join ws) 0 (replicate 8 0) false).
  rewrite <- (app_nil_r (join ws)). rewrite v6_loop_words; [|done|by destruct ws|lia|done].
  pose proof (insert_words_app 0 [] ws (replicate 8 0) [] eq_refl ltac:(by rewrite length_replicate)) as Hi.
  cbn [app] in Hi. rewrite !app_nil_r in Hi. by rewrite Hlen, Hi.
Qed.

Lemma pton_plain_run before k after :
  (length before + k + length after = 8)%nat → (0 < k)%nat → Forall (uint 16) before → Forall (uint 16) after →
  pton_v6_plain (join before ++ chr_colon :: chr_colon :: join after)
  = Some (short_bytes (before ++ replicate k 0 ++ after)).
Proof.
  intros Hlen Hk Hb Ha. unfold pton_v6_plain.
  fold (v6_loop (join before ++ chr_colon :: chr_colon :: join after) 0 (replicate 8 0) false).
  assert (v6_loop (join before ++ chr_colon :: chr_colon :: join after) 0 (replicate 8 0) false
    = v6_loop (chr_colon :: chr_colon :: join after) (length before)
        (before ++ replicate k 0 ++ replicate (length after) 0) false) as ->.
  { replace 8%nat with (length before + (k + length after))%nat by lia. rewrite !replicate_add.
    destruct before as [|w ws]; [done|]. rewrite v6_loop_words; [|done|done|lia|by intros c r [= <- _]]. f_equal.
    apply (insert_words_app 0 []); [done | by rewrite length_replicate]. }
  rewrite v6_loop_run by lia. destruct after as [|w ws]; [done|].
  destruct (join_head w ws) as (c & l & Ej & _); [by apply list.Forall_cons in Ha as [? _]|].
  rewrite count_colons_join by done. rewrite Ej, <- Ej. cbn [length] in Hlen |- *.
  rewrite (proj2 (Nat.ltb_ge _ _)) by lia. rewrite <- (app_nil_r (join _)).
  rewrite v6_loop_words; [|done|done|cbn; lia|done]. cbn [length]. rewrite v6_loop_nil, (proj2 (Nat.ltb_ge _ _)) by lia.
  cbn [finish fmap option_fmap option_map]. do 2 f_equal. rewrite !(assoc_L app before).
  pose proof (insert_words_app (8 - (S (length ws) - 1 + 1)) (before ++ replicate k 0) (w :: ws)
    (replicate (S (length ws)) 0) []) as Hi. rewrite !app_nil_r in Hi.
  apply Hi; [rewrite length_app, length_replicate; lia | by rewrite length_replicate].
Qed.

(** The shape of the printed text: the positions of the longest run of zeros, over the
    256 patterns of zeros. *)
Definition run_shape (zero : list bool) : bool :=
  let '(runpos, max, maxpos) := run_positions zero in
  let start := maxpos + 1 - max in
  if max =? 0 then bool_decide (runpos = replicate 8 (-1))
  else (0 <=? start) && (0 <? max) && (start + max <=? 8)
       && bool_decide (runpos = replicate (Z.to_nat start) (-1) ++ (Z.of_nat <$> seq 1 (Z.to_nat max))
                                 ++ replicate (Z.to_nat (8 - start - max)) (-1))
       && forallb id (take (Z.to_nat max) (drop (Z.to_nat start) zero)).

Lemma run_shape_all zero : length zero = 8%nat → run_shape zero = true.
Proof.
  intros Hlen. do 8 (destruct zero as [|[] zero]; try done); destruct zero; try done; by vm_compute.
Qed.

(** The general case of the printer: the numbers, with the longest run of zeros, if any,
    replaced by two colons. *)
Definition v6_text (before after : list Z) (k : nat) : list Z :=
  match k with O => join (before ++ after) | _ => join before ++ chr_colon :: chr_colon :: join after end.

(** Both sides of one case, as the same sequence of numbers and colons. *)
Ltac text_case :=
  cbv -[print_hex app]; repeat (progress cbn [app] || rewrite <- (assoc_L app)); by rewrite ?app_nil_r.

Lemma print_shorts_text shorts start k :
  length shorts = 8%nat → (start + k ≤ 8)%nat →
  print_shorts 0 (replicate start (-1) ++ (Z.of_nat <$> seq 1 k) ++ replicate (8 - start - k) (-1)) shorts (Z.of_nat k) 0
  = v6_text (take start shorts) (drop (start + k) shorts) k.
Proof.
  intros Hlen Hk. do 8 (destruct shorts as [|? shorts]; [done|]). destruct shorts; [|done].
  do 9 (destruct start as [|start]; [do 9 (destruct k as [|k]; [try lia; text_case|]); lia|]). lia.
Qed.

Lemma as_shorts_ok a : length a = 16%nat → bytes_ok a →
  length (as_shorts a) = 8%nat ∧ Forall (uint 16) (as_shorts a) ∧ short_bytes (as_shorts a) = a.
Proof.
  intros Hlen Hok. assert (∀ n a, length a = (2 * n)%nat → bytes_ok a →
    length (as_shorts a) = n ∧ Forall (uint 16) (as_shorts a) ∧ short_bytes (as_shorts a) = a) as H; [|by apply H].
  clear. induction n as [|n IH]; intros a Hlen Hok; [by destruct a|].
  destruct a as [|hi [|lo a]]; cbn in Hlen; try lia. unfold bytes_ok in Hok. rewrite !list.Forall_cons in Hok.
  destruct Hok as (Hhi & Hlo & Hok). destruct (IH a ltac:(lia) Hok) as (H1 & H2 & H3). unfold byte_ok in *.
  cbn. rewrite H1, H3. split_and!; [done | constructor; [unfold uint; lia | done] |].
  rewrite (Z.mul_comm 256 hi), Z.div_add_l, Z.div_small, Z.add_0_r by lia.
  rewrite Z.add_comm, Z.mod_add, Z.mod_small by lia. done.
Qed.

Lemma zeros_replicate l : forallb id ((λ w, w =? 0) <$> l) = true → l = replicate (length l) 0.
Proof.
  induction l as [|w l IH]; cbn; [done|]. intros [Hw Hl]%andb_prop. apply Z.eqb_eq in Hw as ->. by rewrite <- IH.
Qed.

(** [run_positions] on the shorts of an address: no zero at all, or the longest run. *)
Lemma run_positions_shorts shorts : length shorts = 8%nat →
  run_positions ((λ w, w =? 0) <$> shorts) = (replicate 8 (-1), 0, -1)
  ∨ ∃ start k, (start + k ≤ 8)%nat ∧ (0 < k)%nat
      ∧ run_positions ((λ w, w =? 0) <$> shorts)
        = (replicate start (-1) ++ (Z.of_nat <$> seq 1 k) ++ replicate (8 - start - k) (-1), Z.of_nat k,
           Z.of_nat (start + k) - 1)
      ∧ shorts = take start shorts ++ replicate k 0 ++ drop (start + k) shorts.
Proof.
  intros Hlen. pose proof (run_shape_all ((λ w, w =? 0) <$> shorts) ltac:(by rewrite length_fmap)) as Hs.
  unfold run_shape in Hs. destruct (run_positions _) as [[runpos max] maxpos] eqn:E.
  destruct (Z.eqb_spec max 0) as [->|Hm].
  { left. apply bool_decide_eq_true_1 in Hs as ->. do 2 f_equal.
    clear -E Hlen. do 8 (destruct shorts as [|? shorts]; [done|]). destruct shorts; [|done]. cbn in E.
    unfold run_positions in E.
    repeat match type of E with context [?x =? 0] => is_var x; destruct (x =? 0) end; cbn in E; by injection E. }
  right. rewrite !andb_true_iff, Z.leb_le, Z.ltb_lt, Z.leb_le, bool_decide_eq_true in Hs.
  destruct Hs as ((((H1 & H2) & H3) & Hrun) & Hz). exists (Z.to_nat (maxpos + 1 - max)), (Z.to_nat max).
  split_and!; [lia | lia | |].
  - rewrite Hrun. do 3 f_equal; [|lia|lia]. do 2 f_equal. f_equal. lia.
  - rewrite <- fmap_drop, <- fmap_take in Hz. apply zeros_replicate in Hz.
    rewrite length_take, length_drop, Hlen in Hz.
    replace (Z.to_nat max `min` (8 - Z.to_nat (maxpos + 1 - max)))%nat with (Z.to_nat max) in Hz by lia.
    rewrite <- Hz, <- drop_drop, (take_drop (Z.to_nat max)). by rewrite take_drop.
Qed.

(** What [inet_ntop] prints, in its three forms. *)
Lemma v6_text_forms a : length a = 16%nat → bytes_ok a →
  (∃ before k after, ntop_v6_text a = v6_text before after k ∧ as_shorts a = before ++ replicate k 0 ++ after)
  ∨ (ntop_v6_text a = chr_colon :: chr_colon :: dotted_quad (drop 12 a) ∧ take 12 a = replicate 12 0)
  ∨ (ntop_v6_text a = chr_colon :: chr_colon :: [102; 102; 102; 102; chr_colon] ++ dotted_quad (drop 12 a)
     ∧ take 12 a = replicate 10 0 ++ [255; 255]).
Proof.
  intros Hlen Hok. destruct (as_shorts_ok a Hlen Hok) as (Hl & _ & Hb). unfold ntop_v6_text. cbv zeta.
  destruct (run_positions_shorts (as_shorts a) Hl) as [-> | (start & k & Hle & Hk & -> & Hs)].
  { left. exists [], 0%nat, (as_shorts a). split; [|done].
    apply (print_shorts_text (as_shorts a) 0 0 Hl ltac:(lia)). }
  match goal with |- context [if ?t then _ else _] => destruct t eqn:Et end.
  - right. apply andb_true_iff in Et as [E0 E5].
    assert (start = 0%nat) as -> by (destruct start; [done|discriminate E0]).
    cbn [take app] in Hs. rewrite Nat.add_0_l in *. apply orb_true_iff in E5 as [E5|E5].
    + left. apply Z.eqb_eq in E5. assert (k = 6%nat) as -> by lia. split; [done|].
      rewrite <- Hb, Hs. by destruct (as_shorts a) as [|w0 [|w1 [|w2 [|w3 [|w4 [|w5 [|w6 [|w7 [|]]]]]]]]]; try done.
    + right. apply andb_true_iff in E5 as [E5 E6]. apply Z.eqb_eq in E5. assert (k = 5%nat) as -> by lia. split; [done|].
      rewrite <- Hb, Hs. clear Hb Hs.
      destruct (as_shorts a) as [|w0 [|w1 [|w2 [|w3 [|w4 [|w5 [|w6 [|w7 [|]]]]]]]]]; try done. cbn in E6. apply Z.eqb_eq in E6. by subst.
  - left. exists (take start (as_shorts a)), k, (drop (start + k) (as_shorts a)). split; [|done].
    rewrite print_shorts_text by done. done.
Qed.

(** ** Characters of printed addresses *)

Lemma has_char_none c s : Forall (λ x, x ≠ c) s → has_char c s = false ∧ after_char c s = None.
Proof.
  unfold has_char. intros H. enough (after_char c s = None) as -> by done.
  induction H as [|x s Hx Hs IH]; cbn; [done|]. by rewrite (proj2 (Z.eqb_neq x c)).
Qed.

Lemma has_char_some c pre rest : Forall (λ x, x ≠ c) pre → after_char c (pre ++ c :: rest) = Some rest.
Proof.
  induction 1 as [|x s Hx Hs IH]; cbn; [by rewrite Z.eqb_refl|]. by rewrite (proj2 (Z.eqb_neq x c)).
Qed.

(** Hexadecimal digits and colons, or decimal digits and dots. *)
Definition v6_char (c : Z) : Prop := c = chr_colon ∨ (48 ≤ c ≤ 102 ∧ c ≠ 58 ∧ c ≠ 46 ∧ c ≠ 88).
Definition v4_char (c : Z) : Prop := c = chr_dot ∨ (48 ≤ c ≤ 57).

Lemma print_hex_chars w : uint 16 w → Forall v6_char (print_hex w).
Proof.
  intros Hw. destruct (print_hex_ok w Hw) as (H & _). eapply Forall_impl; [exact H|]. intros c Hc.
  destruct (digit_ok_val 16 c ltac:(lia) Hc) as (_ & _ & ? & ? & ? & ?). right. lia.
Qed.
Lemma print_dec_chars b : byte_ok b → Forall v4_char (print_dec b).
Proof.
  intros Hb. destruct (print_dec_ok b Hb) as (H & _). eapply Forall_impl; [exact H|]. intros c Hc.
  destruct (digit_ok_val 10 c ltac:(lia) Hc) as (_ & Hd & _). specialize (Hd ltac:(lia)). unfold isdigit in Hd. right. lia.
Qed.

Lemma join_chars ws : Forall (uint 16) ws → Forall v6_char (join ws) ∧ (length (join ws) ≤ 5 * length ws - 1)%nat.
Proof.
  induction 1 as [|w ws Hw Hws [IH1 IH2]]; [done|]. rewrite join_cons, length_app.
  pose proof (print_hex_chars w Hw). destruct (print_hex_ok w Hw) as (_ & _ & Hlen). split.
  - apply Forall_app. split; [done|]. destruct ws; [done|]. constructor; [by left | done].
  - destruct ws as [|w2 ws]; cbn in *; lia.
Qed.

Lemma ntop_v4_chars a : length a = 4%nat → bytes_ok a →
  Forall v4_char (dotted_quad a) ∧ (length (dotted_quad a) ≤ 15)%nat ∧ has_char chr_dot (dotted_quad a) = true
  ∧ dotted_quad a ≠ [].
Proof.
  intros Hlen Hok. destruct a as [|b1 [|b2 [|b3 [|b4 [|]]]]]; try done.
  unfold bytes_ok in Hok. rewrite !list.Forall_cons in Hok. destruct Hok as (H1 & H2 & H3 & H4 & _).
  pose proof (print_dec_chars _ H1) as C1. pose proof (print_dec_chars _ H2). pose proof (print_dec_chars _ H3).
  pose proof (print_dec_chars _ H4). destruct (print_dec_ok _ H1) as (D1 & _ & L1). destruct (print_dec_ok _ H2) as (_ & _ & L2).
  destruct (print_dec_ok _ H3) as (_ & _ & L3). destruct (print_dec_ok _ H4) as (_ & _ & L4).
  unfold dotted_quad. assert (v4_char chr_dot) by by left. split_and!.
  - rewrite !Forall_app. split_and!; try done; by repeat constructor.
  - rewrite !length_app. cbn [length]. lia.
  - unfold has_char. cbn [app]. rewrite has_char_some; [done|]. eapply Forall_impl; [exact D1|]. intros c Hc.
    by apply (digit_ok_val 10 c ltac:(lia) Hc).
  - by destruct (print_dec b1).
Qed.

Lemma v6_chars_not s c : Forall v6_char s → c = 120 ∨ c = chr_dot → Forall (λ x, x ≠ c) s.
Proof.
  intros H Hc. eapply Forall_impl; [exact H|]. intros x [->|Hx]; unfold chr_colon, chr_dot in *; lia.
Qed.
Lemma v4_chars_not s c : Forall v4_char s → c = 120 ∨ c = chr_colon → Forall (λ x, x ≠ c) s.
Proof.
  intros H Hc. eapply Forall_impl; [exact H|]. intros x [->|Hx]; unfold chr_colon, chr_dot in *; lia.
Qed.

(** Text without an x or a dot is parsed by the plain loop. *)
Lemma inet_pton_v6_plain s : Forall v6_char s → inet_pton_v6 s = pton_v6_plain s.
Proof.
  intros Hs. unfold inet_pton_v6. destruct (has_char_none 120 s) as [-> _]; [apply v6_chars_not; auto|].
  destruct s as [|c1 [|c2 [|c3 s]]]; try done.
  destruct (has_char_none chr_dot (drop 2 (c1 :: c2 :: c3 :: s))) as [-> _].
  { apply Forall_drop, v6_chars_not; auto. }
  by rewrite andb_false_r.
Qed.

Lemma inet_pton_v6_v4 s :
  Forall v4_char s → s ≠ [] → has_char chr_dot s = true →
  inet_pton_v6 (chr_colon :: chr_colon :: s) = (λ v4, replicate 12 0 ++ v4) <$> inet_pton_v4 s
  ∧ inet_pton_v6 (chr_colon :: chr_colon :: [102; 102; 102; 102; chr_colon] ++ s)
    = (λ v4, replicate 10 0 ++ [255; 255] ++ v4) <$> inet_pton_v4 s.
Proof.
  intros Hs Hne Hdot. destruct (has_char_none 120 s) as [Hx _]; [by apply v4_chars_not; auto|].
  destruct (has_char_none chr_colon s) as [_ Hc]; [by apply v4_chars_not; auto|].
  assert (has_char 120 (chr_colon :: chr_colon :: s) = false) as E1 by done.
  assert (∀ l, has_char 120 (chr_colon :: chr_colon :: [102; 102; 102; 102; chr_colon] ++ l) = has_char 120 l) as E2 by done.
  unfold inet_pton_v6. rewrite E1, E2, Hx. destruct s as [|c s]; [done|]. cbn [drop app].
  rewrite !Z.eqb_refl, Hdot, Hc. split; [done|].
  assert (has_char chr_dot ([102; 102; 102; 102; chr_colon] ++ c :: s) = has_char chr_dot (c :: s)) as E3 by done.
  cbn [app] in E3. rewrite E3, Hdot. cbn [andb].
  assert (after_char chr_colon (102 :: 102 :: 102 :: 102 :: chr_colon :: c :: s) = Some (c :: s)) as -> by done.
  assert (scan_hx None (102 :: 102 :: 102 :: 102 :: chr_colon :: c :: s) = Some (0xFFFF, 4%nat)) as ->; [|done].
  apply (scan_hx_print None 0xFFFF (chr_colon :: c :: s)); [unfold uint; lia | apply delimited_colon | done].
Qed.

Lemma pton_v6_of_text a : length a = 16%nat → bytes_ok a → inet_pton_v6 (ntop_v6_text a) = Some a.
Proof.
  intros Hlen Hok. destruct (as_shorts_ok a Hlen Hok) as (Hl & Hu & Hb).
  assert (length (drop 12 a) = 4%nat ∧ bytes_ok (drop 12 a)) as [Hl4 Hb4].
  { split; [rewrite length_drop; lia | by apply Forall_drop]. }
  destruct (ntop_v4_chars (drop 12 a) Hl4 Hb4) as (Hc4 & _ & Hd4 & Hn4).
  destruct (inet_pton_v6_v4 _ Hc4 Hn4 Hd4) as [Hp1 Hp2]. rewrite (pton_dotted_quad _ Hl4 Hb4) in Hp1, Hp2.
  destruct (v6_text_forms a Hlen Hok) as [(before & k & after & -> & Hs)|[[-> Ht] | [-> Ht]]].
  - rewrite Hs in Hu, Hl. rewrite !length_app, length_replicate in Hl. rewrite !Forall_app in Hu. destruct Hu as (Hu1 & _ & Hu2).
    destruct (join_chars before Hu1) as [Hj1 _], (join_chars after Hu2) as [Hj2 _]. rewrite <- Hb, Hs. destruct k as [|k].
    + destruct (join_chars (before ++ after)) as [Hj3 _]; [by apply Forall_app|]. cbn [v6_text].
      rewrite inet_pton_v6_plain by done. rewrite pton_plain_join; [done | rewrite length_app; lia | by apply Forall_app].
    + cbn [v6_text]. rewrite inet_pton_v6_plain, pton_plain_run with (k := S k); try done; [lia | lia |].
      apply Forall_app. split; [done|]. by repeat (constructor; [by left|]).
  - rewrite Hp1. cbn [fmap option_fmap option_map]. by rewrite <- Ht, take_drop.
  - rewrite Hp2. cbn [fmap option_fmap option_map]. f_equal. rewrite <- (take_drop 12 a) at 2. by rewrite Ht.
Qed.

(** The printed text fits the buffer of [INET6_ADDRSTRLEN] characters with its NUL. *)
Lemma ntop_v6_bound a : length a = 16%nat → bytes_ok a → (length (ntop_v6_text a) ≤ 39)%nat.
Proof.
  intros Hlen Hok. destruct (as_shorts_ok a Hlen Hok) as (Hl & Hu & _).
  destruct (ntop_v4_chars (drop 12 a)) as (_ & H4 & _); [rewrite length_drop; lia | by apply Forall_drop|].
  destruct (v6_text_forms a Hlen Hok) as [(before & k & after & -> & Hs)|[[-> Ht] | [-> Ht]]]; [|cbn [app]; rewrite ?length_app, ?length_cons; change (length (@nil Z)) with 0%nat; lia..].
  rewrite Hs in Hu, Hl. rewrite !length_app, length_replicate in Hl. rewrite !Forall_app in Hu. destruct Hu as (Hu1 & _ & Hu2).
  destruct (join_chars before Hu1) as [_ Hj1], (join_chars after Hu2) as [_ Hj2].
  destruct (join_chars (before ++ after)) as [_ Hj3]; [by apply Forall_app|]. rewrite length_app in Hj3.
  destruct k; cbn [v6_text]; rewrite ?length_app; cbn [length]; lia.
Qed.

(** ** The buffer *)

Lemma overwrite_app dst a b : overwrite dst (a ++ b) = a ++ overwrite (drop (length a) dst) b.
Proof. unfold overwrite. by rewrite length_app, drop_drop, app_assoc. Qed.

Lemma snprintf_fits dst size text :
  (length text < Z.to_nat size)%nat → snprintf dst size text = overwrite dst (text ++ [0]).
Proof. intros H. unfold snprintf. by rewrite take_ge by lia. Qed.

Lemma inet_ntop_v4_buffer a dst size :
  length a = 4%nat → bytes_ok a → INET_ADDRSTRLEN ≤ size →
  inet_ntop_v4 a dst size = Some (overwrite dst (dotted_quad a ++ [0])).
Proof.
  intros Hlen Hok Hs. unfold inet_ntop_v4. destruct (Z.ltb_spec size INET_ADDRSTRLEN); [lia|].
  destruct (ntop_v4_chars a Hlen Hok) as (_ & Hl & _). unfold INET_ADDRSTRLEN in *. by rewrite snprintf_fits by lia.
Qed.

(** What is written to the buffer: the text, and a NUL unless the text ends in a run. *)
Lemma inet_ntop_v6_buffer a dst :
  length a = 16%nat → bytes_ok a →
  ∃ nul, inet_ntop_v6 a dst INET6_ADDRSTRLEN = Some (overwrite dst (ntop_v6_text a ++ nul)) ∧ (nul = [0] ∨ nul = []).
Proof.
  intros Hlen Hok. unfold inet_ntop_v6, ntop_v6_text. rewrite Z.ltb_irrefl. cbv zeta.
  destruct (run_positions _) as [[runpos max] maxpos]. destruct (is_v4_in_v6 _ _ _).
  - exists [0]. split; [|by left]. rewrite inet_ntop_v4_buffer.
    + cbn [default]. rewrite <- (app_assoc (v4_prefix maxpos)), (overwrite_app dst (v4_prefix maxpos)).
      set (tail := dotted_quad (drop 12 a) ++ [0]). unfold overwrite at 1. rewrite take_app_length.
      f_equal. f_equal. unfold overwrite at 2. by rewrite drop_app_length.
    + rewrite length_drop. lia.
    + by apply Forall_drop.
    + unfold v4_prefix. unfold INET_ADDRSTRLEN, INET6_ADDRSTRLEN. destruct (maxpos =? 4); cbn [length app]; lia.
  - eexists. split; [done|]. destruct (_ =? _); auto.
Qed.

Lemma c_chars_text text rest : Forall (λ c, c ≠ 0) text → c_chars (text ++ 0 :: rest) = text.
Proof. induction 1 as [|c l Hc Hl IH]; cbn; [done|]. by rewrite (proj2 (Z.eqb_neq c 0)), IH. Qed.

(** In a buffer of zeroes the text is ended whether or not a NUL was written. *)
Lemma c_chars_overwrite_zeros n text nul :
  Forall (λ c, c ≠ 0) text → (length text < n)%nat → nul = [0] ∨ nul = [] →
  c_chars (overwrite (replicate n 0) (text ++ nul)) = text.
Proof.
  intros Hc Hn Hnul. rewrite overwrite_app, drop_replicate.
  destruct (n - length text)%nat as [|m] eqn:E; [lia|]. destruct Hnul as [-> | ->]; by apply c_chars_text.
Qed.

(** The characters of the text of an IPv6 address. *)
Definition ip_char (c : Z) : Prop := v6_char c ∨ v4_char c.
Lemma ip_char_pos c : ip_char c → 46 ≤ c ≤ 102.
Proof. unfold ip_char, v6_char, v4_char, chr_dot, chr_colon. lia. Qed.

Lemma has_char_elem c s : c ∈ s → has_char c s = true.
Proof.
  unfold has_char. induction s as [|x s IH]; [by intros ?%not_elem_of_nil|]. cbn.
  destruct (Z.eqb_spec x c) as [|Hx]; [done|]. intros [->|H]%elem_of_cons; [done|]. by apply IH.
Qed.

Lemma after_char_elem c s rest : after_char c s = Some rest → c ∈ s.
Proof.
  induction s as [|x s IH]; cbn; [done|]. destruct (Z.eqb_spec x c) as [->|]; [by left|]. right. by apply IH.
Qed.

Lemma ntop_v6_chars a : length a = 16%nat → bytes_ok a → Forall ip_char (ntop_v6_text a) ∧ has_char chr_colon (ntop_v6_text a) = true.
Proof.
  intros Hlen Hok. destruct (as_shorts_ok a Hlen Hok) as (Hl & Hu & _).
  destruct (ntop_v4_chars (drop 12 a)) as (H4 & _); [rewrite length_drop; lia | by apply Forall_drop|].
  assert (ip_char chr_colon ∧ ip_char 102) as [Hc Hf] by (split; left; [by left | right; lia]).
  assert (∀ ws, Forall (uint 16) ws → Forall ip_char (join ws)) as Hj.
  { intros ws Hws. eapply Forall_impl; [apply (join_chars ws Hws)|]. by left. }
  apply (Forall_impl _ ip_char) in H4; [|by right].
  destruct (v6_text_forms a Hlen Hok) as [(before & k & after & -> & Hs)|[[-> Ht] | [-> Ht]]].
  - rewrite Hs in Hu, Hl. rewrite !length_app, length_replicate in Hl. rewrite !Forall_app in Hu. destruct Hu as (Hu1 & _ & Hu2).
    destruct k as [|k]; cbn [v6_text].
    + split; [apply Hj; by apply Forall_app|]. apply has_char_elem.
      destruct (before ++ after) as [|w1 [|w2 l]] eqn:E; [apply (f_equal length) in E; rewrite length_app in E; cbn in E; lia..|].
      cbn [join]. apply elem_of_app. right. by left.
    + split; [rewrite Forall_app; split; [auto|]; repeat constructor; auto|].
      apply has_char_elem, elem_of_app. right. by left.
  - split; [by repeat constructor | done].
  - split; [cbn; by repeat constructor | done].
Qed.

(** ** An IPv6 address is not an IPv4 address *)

Lemma strtol_digits c l :
  isdigit c = true → ∃ v ds rest, strtol (c :: l) = (v, rest) ∧ c :: l = ds ++ rest ∧ Forall (λ d, isdigit d = true) ds.
Proof.
  intros Hc. assert (isspace c = false ∧ (c =? 45) = false ∧ (c =? 43) = false) as (Hs & H1 & H2).
  { unfold isdigit, isspace in *. lia. }
  pose proof (span_spec isdigit (c :: l)) as Hsp. unfold strtol. cbn [span] in *. rewrite Hs, H1, H2. cbn [span]. rewrite Hc in *.
  destruct (span isdigit l) as [ds rest]. destruct Hsp as [Hsp Hds]. eauto 10.
Qed.

Lemma pton_v4_loop_colon fuel s result l :
  chr_colon ∈ s → pton_v4_loop fuel s result = Done l → l = None.
Proof.
  revert s result. induction fuel as [|f IH]; intros s result Hin; [done|]. cbn [pton_v4_loop].
  destruct s as [|c s]; [by apply not_elem_of_nil in Hin|]. destruct (isdigit c) eqn:Hc; [|by intros [= <-]]. cbn [negb].
  destruct (strtol_digits c s Hc) as (v & ds & rest & -> & Hsplit & Hds). rewrite Hsplit in Hin.
  assert (chr_colon ∈ rest) as Hrest.
  { apply elem_of_app in Hin as [Hin|]; [|done]. rewrite Forall_forall in Hds. by specialize (Hds _ Hin). }
  repeat (case_match; [by intros [= <-]|]). destruct rest as [|d rest]; [by apply not_elem_of_nil in Hrest|].
  destruct (Z.eqb_spec d chr_dot) as [->|]; [|by intros [= <-]]. apply IH. by apply elem_of_cons in Hrest as [|].
Qed.

Lemma inet_pton_v4_colon s : chr_colon ∈ s → inet_pton_v4 s = None.
Proof.
  intros Hin. unfold inet_pton_v4. destruct (pton_v4_loop 6 s []) as [l|] eqn:E; [|done].
  by apply pton_v4_loop_colon in E as ->.
Qed.

(** ** Properties *)

(** The loops of [inet_pton] end for every text: six rounds are enough for IPv4, one round
    per character and one more for IPv6, so [inet_pton] always returns. *)
Theorem inet_pton_terminates s :
  (∃ r, pton_v4_loop 6 s [] = Done r) ∧
  ∀ cursor addr seen, ∃ r, pton_v6_loop (S (length s)) s cursor addr seen = Done r.
Proof.
  split.
  - destruct (pton_v4_loop 6 s []) as [r|] eqn:E; [by exists r|]. by apply pton_v4_fuel in E; [|cbn; lia..].
  - intros cursor addr seen. destruct (pton_v6_fuel (S (length s)) (S (length s)) s cursor addr seen) as [_ H]; [lia..|].
    destruct (pton_v6_loop _ _ _ _ _) as [r|]; [by exists r|done].
Qed.

(** [inet_ntop] stays inside the buffer it is given and every address fits: an IPv4 text
    has at most 15 characters and an IPv6 text at most 39, and the rest of the buffer is
    left as it was. *)
Theorem inet_ntop_in_bounds a4 a6 dst :
  length a4 = 4%nat → bytes_ok a4 → length a6 = 16%nat → bytes_ok a6 → length dst = Z.to_nat INET6_ADDRSTRLEN →
  ∃ t4 t6, inet_ntop_v4 a4 dst INET6_ADDRSTRLEN = Some (t4 ++ drop (length t4) dst) ∧ (length t4 ≤ 16)%nat
    ∧ inet_ntop_v6 a6 dst INET6_ADDRSTRLEN = Some (t6 ++ drop (length t6) dst) ∧ (length t6 ≤ 40)%nat.
Proof.
  intros H4 Hb4 H6 Hb6 Hdst. destruct (inet_ntop_v6_buffer a6 dst H6 Hb6) as (nul & E & Hnul).
  exists (dotted_quad a4 ++ [0]), (ntop_v6_text a6 ++ nul).
  destruct (ntop_v4_chars a4 H4 Hb4) as (_ & Hl & _). pose proof (ntop_v6_bound a6 H6 Hb6).
  split_and!; [by apply inet_ntop_v4_buffer | rewrite length_app; cbn; lia | done |].
  rewrite length_app. destruct Hnul as [-> | ->]; cbn; lia.
Qed.

Lemma inet_ntop_in_bounds_witness :
  ∃ t4 t6, inet_ntop_v4 [192; 168; 0; 1] (replicate 65 7) INET6_ADDRSTRLEN = Some (t4 ++ drop (length t4) (replicate 65 7))
    ∧ (length t4 ≤ 16)%nat
    ∧ inet_ntop_v6 ([254; 128] ++ replicate 14 0) (replicate 65 7) INET6_ADDRSTRLEN
      = Some (t6 ++ drop (length t6) (replicate 65 7)) ∧ (length t6 ≤ 40)%nat.
Proof.
  apply (inet_ntop_in_bounds [192; 168; 0; 1] ([254; 128] ++ replicate 14 0) (replicate 65 7));
    [reflexivity | repeat constructor; done | reflexivity | repeat constructor; done | reflexivity].
Defined.

(** Nothing ends the text of an address that ends in its run of zeroes: in a buffer that
    does not hold zeroes already the C string goes on with what the buffer held. *)
Theorem ntop_v6_run_unterminated :
  c_chars <$> inet_ntop_v6 ([254; 128] ++ replicate 14 0) (replicate 64 65 ++ [0]) INET6_ADDRSTRLEN
  = Some (chars "fe80::AAAAAAAAAAAAAAAAAAAAAAAAAAAAAAAAAAAAAAAAAAAAAAAAAAAAAAAAAA").
Proof. by vm_compute. Qed.

(** What [inet_pton] takes beside the addresses its comments describe: a trailing dot and
    numbers of more than three digits in IPv4; signs, blanks, an upper-case hexadecimal
    prefix, a leading colon, and a run that stands for no zero at all
    in IPv6. *)
Theorem inet_pton_lenient :
  inet_pton_v4 (chars "1.2.3.4.") = Some [1; 2; 3; 4]
  ∧ inet_pton_v4 (chars "1.2.3.0004") = Some [1; 2; 3; 4]
  ∧ inet_pton_v6 (chars "::-1") = Some (replicate 14 0 ++ [255; 255])
  ∧ inet_pton_v6 (chars ":: 1") = Some (replicate 15 0 ++ [1])
  ∧ inet_pton_v6 (chars "::0X1F") = Some (replicate 15 0 ++ [31])
  ∧ inet_pton_v6 (chars ":1:2:3:4:5:6:7:8") = inet_pton_v6 (chars "1:2:3:4:5:6:7:8")
  ∧ inet_pton_v6 (chars "1:2:3:4:5:6:7::8") = inet_pton_v6 (chars "1:2:3:4:5:6:7:8").
Proof. by vm_compute. Qed.
