(* ===== verification/IpAddress.v ===== *)
(** * rtc::IPAddress (includes/webrtc/rtc_base/ip_address.h, ip_address.cc)

    The LAN component keeps a [std::set<rtc::IPAddress>] of broadcast
    addresses and the peer table compares [rtc::SocketAddress]es, so the order,
    the equality and the classification of addresses are modelled from the
    WebRTC sources the repository carries.  The union of an [in_addr] and an
    [in6_addr] is the list of its sixteen bytes, in memory (network) order. *)

From S2P Require Import Prelude Win32.

Inductive addr_family := AF_UNSPEC | AF_INET | AF_INET6.

#[export] Instance addr_family_eq_dec : EqDecision addr_family.
Proof. solve_decision. Defined.

Record IPAddress := mkIP { family_ : addr_family; u_ : list Z }.

#[export] Instance IPAddress_eq_dec : EqDecision IPAddress.
Proof. solve_decision. Defined.

(** ** Byte order *)

Definition NetworkToHost32 (b : list Z) : Z := le_combine (reverse b).
Definition HostToNetwork32 (x : Z) : list Z := reverse (le_split 4 x).

Fixpoint memcmp (a b : list Z) : comparison :=
  match a, b with
  | x :: a', y :: b' =>
    match x ?= y with Eq => memcmp a' b' | c => c end
  | _, _ => Eq
  end.

(** ** Constructors and accessors *)

Definition zeros (n : nat) : list Z := replicate n 0.

Definition IPAddress_nil : IPAddress := mkIP AF_UNSPEC (zeros 16).
Definition IPAddress_v4 (ip4 : list Z) : IPAddress := mkIP AF_INET (ip4 ++ zeros 12).
Definition IPAddress_v6 (ip6 : list Z) : IPAddress := mkIP AF_INET6 ip6.
Definition IPAddress_host (x : Z) : IPAddress := mkIP AF_INET (HostToNetwork32 x ++ zeros 12).

Definition ipv4_address (ip : IPAddress) : list Z := take 4 (u_ ip).
Definition ipv6_address (ip : IPAddress) : list Z := u_ ip.

Definition in6addr_any : list Z := zeros 16.
Definition in6addr_loopback : list Z := zeros 15 ++ [1].
Definition INADDR_ANY : Z := 0.
Definition INADDR_LOOPBACK : Z := 0x7F000001.

Definition kV4MappedPrefix : list Z := zeros 10 ++ [0xFF; 0xFF] ++ zeros 4.
Definition k6To4Prefix : list Z := [0x20; 0x02] ++ zeros 14.
Definition kTeredoPrefix : list Z := [0x20; 0x01] ++ zeros 14.
Definition kV4CompatibilityPrefix : list Z := zeros 16.
Definition k6BonePrefix : list Z := [0x3f; 0xfe] ++ zeros 14.
Definition kPrivateNetworkPrefix : list Z := [0xFD] ++ zeros 15.

Definition v4AddressAsHostOrderInteger (ip : IPAddress) : Z :=
  match family_ ip with
  | AF_INET => NetworkToHost32 (ipv4_address ip)
  | _ => 0
  end.

Definition overhead (ip : IPAddress) : Z :=
  match family_ ip with AF_INET => 20 | AF_INET6 => 40 | AF_UNSPEC => 0 end.

Definition Size (ip : IPAddress) : Z :=
  match family_ ip with AF_INET => 4 | AF_INET6 => 16 | AF_UNSPEC => 0 end.

(** ** Comparison *)

Definition family_eqb (f g : addr_family) : bool :=
  match f, g with
  | AF_UNSPEC, AF_UNSPEC | AF_INET, AF_INET | AF_INET6, AF_INET6 => true
  | _, _ => false
  end.

Definition memeq (a b : list Z) : bool :=
  match memcmp a b with Eq => true | _ => false end.

Definition ip_eqb (a b : IPAddress) : bool :=
  if family_eqb (family_ a) (family_ b) then
    match family_ a with
    | AF_INET => memeq (ipv4_address a) (ipv4_address b)
    | AF_INET6 => memeq (ipv6_address a) (ipv6_address b)
    | AF_UNSPEC => true
    end
  else false.

Definition ip_neb (a b : IPAddress) : bool := negb (ip_eqb a b).

Definition ip_ltb (a b : IPAddress) : bool :=
  if family_eqb (family_ a) (family_ b) then
    match family_ a with
    | AF_INET => NetworkToHost32 (ipv4_address a) <? NetworkToHost32 (ipv4_address b)
    | AF_INET6 => match memcmp (ipv6_address a) (ipv6_address b) with Lt => true | _ => false end
    | AF_UNSPEC => false
    end
  else
    match family_ a, family_ b with
    | AF_UNSPEC, _ => true
    | AF_INET, AF_INET6 => true
    | _, _ => false
    end.

Definition ip_gtb (a b : IPAddress) : bool := ip_neb a b && negb (ip_ltb a b).

(** ** Classification *)

Definition byte_at (l : list Z) (i : nat) : Z := default 0 (l !! i).

Definition IPIsHelper (ip : IPAddress) (tomatch : list Z) (length : Z) : bool :=
  let n := Z.to_nat (Z.shiftr length 3) in
  memeq (take n (ipv6_address ip)) (take n tomatch).

Definition IPIsUnspec (ip : IPAddress) : bool :=
  match family_ ip with AF_UNSPEC => true | _ => false end.
Definition IsNil (ip : IPAddress) : bool := IPIsUnspec ip.

Definition IPIsAny (ip : IPAddress) : bool :=
  match family_ ip with
  | AF_INET => ip_eqb ip (IPAddress_host INADDR_ANY)
  | AF_INET6 =>
    ip_eqb ip (IPAddress_v6 in6addr_any) || ip_eqb ip (IPAddress_v6 kV4MappedPrefix)
  | AF_UNSPEC => false
  end.

Definition IPIsLoopbackV4 (ip : IPAddress) : bool :=
  Z.shiftr (v4AddressAsHostOrderInteger ip) 24 =? 127.
Definition IPIsLoopbackV6 (ip : IPAddress) : bool := ip_eqb ip (IPAddress_v6 in6addr_loopback).
Definition IPIsLoopback (ip : IPAddress) : bool :=
  match family_ ip with
  | AF_INET => IPIsLoopbackV4 ip
  | AF_INET6 => IPIsLoopbackV6 ip
  | AF_UNSPEC => false
  end.

Definition IPIsLinkLocalV4 (ip : IPAddress) : bool :=
  Z.shiftr (v4AddressAsHostOrderInteger ip) 16 =? Z.lor (Z.shiftl 169 8) 254.
Definition IPIsLinkLocalV6 (ip : IPAddress) : bool :=
  (byte_at (ipv6_address ip) 0 =? 0xFE) && (Z.land (byte_at (ipv6_address ip) 1) 0xC0 =? 0x80).
Definition IPIsLinkLocal (ip : IPAddress) : bool :=
  match family_ ip with
  | AF_INET => IPIsLinkLocalV4 ip
  | AF_INET6 => IPIsLinkLocalV6 ip
  | AF_UNSPEC => false
  end.

Definition IPIsPrivateNetworkV4 (ip : IPAddress) : bool :=
  let x := v4AddressAsHostOrderInteger ip in
  (Z.shiftr x 24 =? 10) || (Z.shiftr x 20 =? Z.lor (Z.shiftl 172 4) 1)
  || (Z.shiftr x 16 =? Z.lor (Z.shiftl 192 8) 168).
Definition IPIsPrivateNetworkV6 (ip : IPAddress) : bool := IPIsHelper ip kPrivateNetworkPrefix 8.
Definition IPIsPrivateNetwork (ip : IPAddress) : bool :=
  match family_ ip with
  | AF_INET => IPIsPrivateNetworkV4 ip
  | AF_INET6 => IPIsPrivateNetworkV6 ip
  | AF_UNSPEC => false
  end.

Definition IPIsSharedNetworkV4 (ip : IPAddress) : bool :=
  Z.shiftr (v4AddressAsHostOrderInteger ip) 22 =? Z.lor (Z.shiftl 100 2) 1.
Definition IPIsSharedNetwork (ip : IPAddress) : bool :=
  match family_ ip with AF_INET => IPIsSharedNetworkV4 ip | _ => false end.

Definition IPIsPrivate (ip : IPAddress) : bool :=
  IPIsLinkLocal ip || IPIsLoopback ip || IPIsPrivateNetwork ip || IPIsSharedNetwork ip.

Definition IPIs6Bone (ip : IPAddress) : bool := IPIsHelper ip k6BonePrefix 16.
Definition IPIs6To4 (ip : IPAddress) : bool := IPIsHelper ip k6To4Prefix 16.
Definition IPIsTeredo (ip : IPAddress) : bool := IPIsHelper ip kTeredoPrefix 32.
Definition IPIsV4Compatibility (ip : IPAddress) : bool := IPIsHelper ip kV4CompatibilityPrefix 96.
Definition IPIsV4Mapped (ip : IPAddress) : bool := IPIsHelper ip kV4MappedPrefix 96.
Definition IPIsMacBased (ip : IPAddress) : bool :=
  let a := ipv6_address ip in
  negb (Z.land (byte_at a 8) 0x02 =? 0) && (byte_at a 11 =? 0xFF) && (byte_at a 12 =? 0xFE).
Definition IPIsSiteLocal (ip : IPAddress) : bool :=
  let a := ipv6_address ip in (byte_at a 0 =? 0xFE) && (Z.land (byte_at a 1) 0xC0 =? 0xC0).
Definition IPIsULA (ip : IPAddress) : bool := Z.land (byte_at (ipv6_address ip) 0) 0xFE =? 0xFC.

Definition IPAddressPrecedence (ip : IPAddress) : Z :=
  match family_ ip with
  | AF_INET => 30
  | AF_INET6 =>
    if IPIsLoopback ip then 60
    else if IPIsULA ip then 50
    else if IPIsV4Mapped ip then 30
    else if IPIs6To4 ip then 20
    else if IPIsTeredo ip then 10
    else if IPIsV4Compatibility ip || IPIsSiteLocal ip || IPIs6Bone ip then 1
    else 40
  | AF_UNSPEC => 0
  end.

(** ** Conversions *)

Definition ExtractMappedAddress (in6 : list Z) : list Z := take 4 (drop 12 in6).

Definition Normalized (ip : IPAddress) : IPAddress :=
  match family_ ip with
  | AF_INET6 => if IPIsV4Mapped ip then IPAddress_v4 (ExtractMappedAddress (u_ ip)) else ip
  | _ => ip
  end.

Definition AsIPv6Address (ip : IPAddress) : IPAddress :=
  match family_ ip with
  | AF_INET => IPAddress_v6 (take 12 kV4MappedPrefix ++ ipv4_address ip)
  | _ => ip
  end.

Definition GetLoopbackIP (family : addr_family) : IPAddress :=
  match family with
  | AF_INET => IPAddress_host INADDR_LOOPBACK
  | AF_INET6 => IPAddress_v6 in6addr_loopback
  | AF_UNSPEC => IPAddress_nil
  end.

Definition GetAnyIP (family : addr_family) : IPAddress :=
  match family with
  | AF_INET => IPAddress_host INADDR_ANY
  | AF_INET6 => IPAddress_v6 in6addr_any
  | AF_UNSPEC => IPAddress_nil
  end.

(** The four [uint32_t]s an [in6_addr] is read as, each as its bytes. *)
Definition v6_words (a : list Z) : list (list Z) :=
  [take 4 a; take 4 (drop 4 a); take 4 (drop 8 a); take 4 (drop 12 a)].

Definition HashIP (ip : IPAddress) : Z :=
  match family_ ip with
  | AF_INET => le_combine (ipv4_address ip)
  | AF_INET6 => foldl (λ h w, Z.lxor h (le_combine w)) 0 (v6_words (ipv6_address ip))
  | AF_UNSPEC => 0
  end.

Definition TruncateIP (ip : IPAddress) (length : Z) : IPAddress :=
  if length <? 0 then IPAddress_nil else
  match family_ ip with
  | AF_INET =>
    if 31 <? length then ip
    else if length =? 0 then IPAddress_host INADDR_ANY
    else
      let mask := wrap 32 (Z.shiftl 0xFFFFFFFF (32 - length)) in
      let host_order_ip := NetworkToHost32 (ipv4_address ip) in
      IPAddress_v4 (HostToNetwork32 (Z.land host_order_ip mask))
  | AF_INET6 =>
    if 127 <? length then ip
    else if length =? 0 then IPAddress_v6 in6addr_any
    else
      let position := length / 32 in
      let inner_length := 32 - (length - position * 32) in
      let inner_mask := wrap 32 (Z.shiftl 0xFFFFFFFF inner_length) in
      IPAddress_v6 (concat (imap (λ i w,
        if Z.of_nat i =? position then HostToNetwork32 (Z.land (NetworkToHost32 w) inner_mask)
        else if position <? Z.of_nat i then zeros 4 else w) (v6_words (ipv6_address ip))))
  | AF_UNSPEC => IPAddress_nil
  end.

(** The search for the first word that is not all ones, with its index. *)
Fixpoint first_partial_word (i : Z) (ws : list (list Z)) : Z * option (list Z) :=
  match ws with
  | [] => (i, None)
  | w :: ws' => if le_combine w =? 0xFFFFFFFF then first_partial_word (i + 1) ws' else (i, Some w)
  end.

(** The bit-twiddling that counts the trailing zeros of a non-zero word: the
    position of its lowest set bit, once that bit is isolated. *)
Definition bit_index (w : Z) : Z :=
  32 - (if w =? 0 then 0 else 1)
     - (if Z.land w 0x0000FFFF =? 0 then 0 else 16)
     - (if Z.land w 0x00FF00FF =? 0 then 0 else 8)
     - (if Z.land w 0x0F0F0F0F =? 0 then 0 else 4)
     - (if Z.land w 0x33333333 =? 0 then 0 else 2)
     - (if Z.land w 0x55555555 =? 0 then 0 else 1).

Definition count_zeroes (word : Z) : Z :=
  bit_index (Z.land word (wrap 32 (Z.lxor word 0xFFFFFFFF + 1))).

Definition CountIPMaskBits (mask : IPAddress) : Z :=
  let '(bits, word_to_count) :=
    match family_ mask with
    | AF_INET => (0, NetworkToHost32 (ipv4_address mask))
    | AF_INET6 =>
      let '(i, w) := first_partial_word 0 (v6_words (ipv6_address mask)) in
      (i * 32, match w with Some b => NetworkToHost32 b | None => 0 end)
    | AF_UNSPEC => (0, 0)
    end in
  if word_to_count =? 0 then bits else bits + (32 - count_zeroes word_to_count).

(** [InterfaceAddress]: an address with the IPv6 flags of its interface. *)
Record InterfaceAddress := mkIA { ia_ip : IPAddress; ipv6_flags_ : Z }.

Definition ia_eqb (a b : InterfaceAddress) : bool :=
  (ipv6_flags_ a =? ipv6_flags_ b) && ip_eqb (ia_ip a) (ia_ip b).

(** ** Text

    The texts [inet_ntop] writes and [inet_pton] reads are those of the Windows build. *)

Definition family_code (f : addr_family) : Z := match f with AF_UNSPEC => 0 | AF_INET => 2 | AF_INET6 => 23 end.

Definition inet_ntop (f : addr_family) (src dst : list Z) : option (list Z) :=
  win32_inet_ntop (family_code f) src dst (Z.of_nat (length dst)).
Definition inet_pton (f : addr_family) (src : string) : Z * option (list Z) :=
  win32_inet_pton (family_code f) (c_chars (chars src)).

Definition ToString (ip : IPAddress) : string :=
  match family_ ip with
  | AF_UNSPEC => ""
  | f =>
    let buf := replicate (Z.to_nat INET6_ADDRSTRLEN) 0 in
    let src := match f with AF_INET6 => ipv6_address ip | _ => ipv4_address ip end in
    match inet_ntop f src buf with
    | Some dst => string_of_chars (c_chars dst)
    | None => ""
    end
  end.

Definition IPFromString (str : string) : IPAddress * bool :=
  match inet_pton AF_INET str with
  | (_, Some addr) => (IPAddress_v4 addr, true)
  | (_, None) =>
    match inet_pton AF_INET6 str with
    | (_, Some addr6) => (IPAddress_v6 addr6, true)
    | (_, None) => (IPAddress_nil, false)
    end
  end.

Definition IPFromString_flags (str : string) (flags : Z) : option InterfaceAddress :=
  let '(ip, ok) := IPFromString str in if ok then Some (mkIA ip flags) else None.

(** [address.rfind('.')] and [resize]: what stands before the last [c]. *)
Definition before_last (c : Z) (s : list Z) : option (list Z) :=
  reverse <$> after_char c (reverse s).

(** The last number of an IPv4 address and the last five of an IPv6 address are hidden. *)
Definition ToSensitiveString (ip : IPAddress) : string :=
  match family_ ip with
  | AF_UNSPEC => ""
  | AF_INET =>
    match before_last chr_dot (chars (ToString ip)) with
    | None => ""
    | Some address => string_of_chars (address ++ chars ".x")
    end
  | AF_INET6 =>
    let word i := 256 * default 0 (ipv6_address ip !! i) + default 0 (ipv6_address ip !! S i) in
    string_of_chars (print_hex (word 0%nat) ++ [chr_colon] ++ print_hex (word 2%nat) ++ [chr_colon]
                       ++ print_hex (word 4%nat) ++ chars ":x:x:x:x:x")
  end.

(** [ToHex]: [%x] prints the two's complement of a negative number. *)
Definition ToHex (i : Z) : list Z := print_hex (wrap 32 i).

Definition InterfaceAddress_ToString (a : InterfaceAddress) : string :=
  match family_ (ia_ip a) with
  | AF_INET6 => string_of_chars (chars (ToString (ia_ip a)) ++ chars "|flags:0x" ++ ToHex (ipv6_flags_ a))
  | _ => ToString (ia_ip a)
  end.

(** The part of an [addrinfo] the code reads: the family of [ai_addr] and its address. *)
Definition IPFromAddrInfo (info : option (option (addr_family * list Z))) : option IPAddress :=
  match info with
  | Some (Some (AF_INET, sin_addr)) => Some (IPAddress_v4 sin_addr)
  | Some (Some (AF_INET6, sin6_addr)) => Some (IPAddress_v6 sin6_addr)
  | _ => None
  end.

(** ** Well-formed addresses: what the constructors build *)

#[global] Arguments zeros n : simpl never.
#[global] Arguments HostToNetwork32 x : simpl never.
#[global] Arguments NetworkToHost32 b : simpl never.

Definition ip_wf (ip : IPAddress) : Prop :=
  length (u_ ip) = 16%nat ∧ bytes_ok (u_ ip) ∧
  match family_ ip with
  | AF_UNSPEC => u_ ip = zeros 16
  | AF_INET => drop 4 (u_ ip) = zeros 12
  | AF_INET6 => True
  end.

Lemma zeros_ok n : bytes_ok (zeros n).
Proof. apply Forall_replicate. unfold byte_ok. lia. Qed.

Lemma bytes_ok_take n l : bytes_ok l → bytes_ok (take n l).
Proof. apply Forall_take. Qed.
Lemma bytes_ok_drop n l : bytes_ok l → bytes_ok (drop n l).
Proof. apply Forall_drop. Qed.
Lemma bytes_ok_app l k : bytes_ok l → bytes_ok k → bytes_ok (l ++ k).
Proof. intros. by apply Forall_app. Qed.
Lemma bytes_ok_reverse l : bytes_ok l → bytes_ok (reverse l).
Proof. intros. by apply Forall_reverse. Qed.

#[export] Hint Resolve zeros_ok bytes_ok_take bytes_ok_drop bytes_ok_app bytes_ok_reverse : cpp.

Lemma length_HostToNetwork32 x : length (HostToNetwork32 x) = 4%nat.
Proof. unfold HostToNetwork32. by rewrite length_reverse, length_le_split. Qed.

Lemma HostToNetwork32_ok x : bytes_ok (HostToNetwork32 x).
Proof. unfold HostToNetwork32. auto with cpp. Qed.
#[export] Hint Resolve HostToNetwork32_ok : cpp.

Lemma NetworkToHost32_HostToNetwork32 x : NetworkToHost32 (HostToNetwork32 x) = wrap 32 x.
Proof. unfold NetworkToHost32, HostToNetwork32. by rewrite reverse_involutive, le_combine_split. Qed.

Lemma HostToNetwork32_NetworkToHost32 b :
  length b = 4%nat → bytes_ok b → HostToNetwork32 (NetworkToHost32 b) = b.
Proof.
  intros Hlen Hok. unfold NetworkToHost32, HostToNetwork32.
  replace 4%nat with (length (reverse b)) by by rewrite length_reverse.
  rewrite le_split_combine by auto with cpp. apply reverse_involutive.
Qed.

Lemma NetworkToHost32_inj a b :
  length a = 4%nat → length b = 4%nat → bytes_ok a → bytes_ok b →
  NetworkToHost32 a = NetworkToHost32 b → a = b.
Proof.
  intros Ha Hb Hoa Hob Heq.
  rewrite <- (HostToNetwork32_NetworkToHost32 a), <- (HostToNetwork32_NetworkToHost32 b); auto.
  by rewrite Heq.
Qed.

Lemma NetworkToHost32_bound b : length b = 4%nat → bytes_ok b → uint 32 (NetworkToHost32 b).
Proof.
  intros Hlen Hok. unfold NetworkToHost32, uint.
  pose proof (le_combine_bound (reverse b) (bytes_ok_reverse _ Hok)) as Hb.
  by rewrite length_reverse, Hlen in Hb.
Qed.

Lemma IPAddress_host_wf x : ip_wf (IPAddress_host x).
Proof.
  split; [cbn; by rewrite length_app, length_HostToNetwork32 |].
  split; [cbn; auto with cpp |]. cbn.
  by rewrite drop_app_length' by by rewrite length_HostToNetwork32.
Qed.

Lemma IPAddress_v4_wf b : length b = 4%nat → bytes_ok b → ip_wf (IPAddress_v4 b).
Proof.
  intros Hlen Hok. split; [cbn; by rewrite length_app, Hlen |].
  split; [cbn; auto with cpp |]. cbn. by rewrite drop_app_length'.
Qed.

Lemma IPAddress_v6_wf b : length b = 16%nat → bytes_ok b → ip_wf (IPAddress_v6 b).
Proof. by split. Qed.

Lemma ip_v4_eta ip : ip_wf ip → family_ ip = AF_INET → ip = IPAddress_v4 (ipv4_address ip).
Proof.
  destruct ip as [f u]. unfold ip_wf, IPAddress_v4, ipv4_address. cbn.
  intros (_ & _ & Hz) ->. by rewrite <- Hz, take_drop.
Qed.

Lemma length_ipv4_address ip : ip_wf ip → length (ipv4_address ip) = 4%nat.
Proof. intros (Hlen & _). unfold ipv4_address. rewrite length_take, Hlen. done. Qed.

Lemma ipv4_address_ok ip : ip_wf ip → bytes_ok (ipv4_address ip).
Proof. intros (_ & Hok & _). by apply bytes_ok_take. Qed.

Lemma v4_host_bound ip : ip_wf ip → uint 32 (NetworkToHost32 (ipv4_address ip)).
Proof. intros. auto using NetworkToHost32_bound, length_ipv4_address, ipv4_address_ok. Qed.

#[export] Hint Resolve IPAddress_host_wf length_ipv4_address ipv4_address_ok v4_host_bound : cpp.

(** ** memcmp *)

Lemma memcmp_refl a : memcmp a a = Eq.
Proof. induction a; cbn; [done|]. by rewrite Z.compare_refl. Qed.

Lemma memcmp_Eq a b : length a = length b → memcmp a b = Eq → a = b.
Proof.
  revert b; induction a as [|x a IH]; intros [|y b] Hlen; cbn; try done.
  case Z.compare_spec; try done. intros ->. injection Hlen as Hlen. intros. f_equal. auto.
Qed.

Lemma memeq_spec a b : length a = length b → memeq a b = true ↔ a = b.
Proof.
  intros Hlen. unfold memeq. split; [|intros ->; by rewrite memcmp_refl].
  destruct (memcmp a b) eqn:E; [auto using memcmp_Eq | done..].
Qed.

Lemma memcmp_opp a b : memcmp b a = CompOpp (memcmp a b).
Proof.
  revert b; induction a as [|x a IH]; intros [|y b]; cbn; try done.
  rewrite (Z.compare_antisym x y). destruct (x ?= y); cbn; auto.
Qed.

Lemma memcmp_trans a b c :
  length a = length b → length b = length c → memcmp a b = Lt → memcmp b c = Lt → memcmp a c = Lt.
Proof.
  revert b c; induction a as [|x a IH]; intros [|y b] [|z c] Hab Hbc; cbn; try done.
  injection Hab as Hab. injection Hbc as Hbc.
  destruct (Z.compare_spec x y), (Z.compare_spec y z), (Z.compare_spec x z);
    subst; try done; try lia; eauto.
Qed.

(** ** Equality and order of well-formed addresses *)

Lemma ip_eqb_wf a b : ip_wf a → ip_wf b → ip_eqb a b = true ↔ a = b.
Proof.
  intros Ha Hb. unfold ip_eqb.
  destruct (family_ a) eqn:Ea, (family_ b) eqn:Eb; cbn; try (split; congruence).
  - destruct a as [fa ua], b as [fb ub], Ha as (_ & _ & Ha), Hb as (_ & _ & Hb).
    cbn in *. subst. by rewrite Ha, Hb.
  - rewrite memeq_spec by by rewrite !length_ipv4_address.
    split; [|by intros ->]. intros Heq.
    rewrite (ip_v4_eta a), (ip_v4_eta b) by auto. by rewrite Heq.
  - unfold ipv6_address. rewrite memeq_spec by by rewrite (proj1 Ha), (proj1 Hb).
    destruct a, b; cbn in *. split; [intros ->; by subst | by intros [= _ ->]].
Qed.

Lemma ip_ltb_irrefl a : ip_ltb a a = false.
Proof.
  unfold ip_ltb. destruct (family_ a); cbn; [done | apply Z.ltb_irrefl | by rewrite memcmp_refl].
Qed.

Lemma ip_ltb_trans a b c :
  ip_wf a → ip_wf b → ip_wf c → ip_ltb a b = true → ip_ltb b c = true → ip_ltb a c = true.
Proof.
  intros Ha Hb Hc. unfold ip_ltb.
  destruct (family_ a) eqn:Ea, (family_ b) eqn:Eb, (family_ c) eqn:Ec; cbn; try done; [rewrite !Z.ltb_lt; apply Z.lt_trans|].
  destruct (memcmp (ipv6_address a) (ipv6_address b)) eqn:E1; try done.
  destruct (memcmp (ipv6_address b) (ipv6_address c)) eqn:E2; try done.
  by rewrite (memcmp_trans _ (ipv6_address b)) by
    (auto; unfold ipv6_address; by rewrite ?(proj1 Ha), ?(proj1 Hb), ?(proj1 Hc)).
Qed.

Lemma ip_ltb_total a b : ip_wf a → ip_wf b → ip_ltb a b = true ∨ a = b ∨ ip_ltb b a = true.
Proof.
  intros Ha Hb. destruct (ip_eqb a b) eqn:E; [right; left; by apply ip_eqb_wf|].
  revert E. unfold ip_eqb, ip_ltb.
  destruct (family_ a) eqn:Ea, (family_ b) eqn:Eb; cbn; auto.
  - intros E. destruct (Z.lt_trichotomy (NetworkToHost32 (ipv4_address a))
      (NetworkToHost32 (ipv4_address b))) as [?|[Heq|?]]; [left; lia | | right; right; lia].
    apply NetworkToHost32_inj in Heq; auto with cpp.
    rewrite Heq in E. unfold memeq in E. by rewrite memcmp_refl in E.
  - unfold memeq. rewrite (memcmp_opp (ipv6_address a) (ipv6_address b)).
    destruct (memcmp (ipv6_address a) (ipv6_address b)); cbn; auto.
Qed.

(** ** Masks and truncation *)

Lemma land_high_mask x j :
  uint 32 x → 0 ≤ j ≤ 32 →
  Z.land x (wrap 32 (Z.shiftl 0xFFFFFFFF j)) = x / 2 ^ j * 2 ^ j.
Proof.
  intros Hx Hj. rewrite <- Z.shiftr_div_pow2, <- Z.shiftl_mul_pow2 by lia.
  change 0xFFFFFFFF with (Z.ones 32). unfold wrap.
  apply Z.bits_inj'. intros n Hn.
  rewrite Z.land_spec, Z.shiftl_spec by lia.
  destruct (Z.lt_ge_cases n 32) as [Hn32|Hn32].
  - rewrite Z.mod_pow2_bits_low, Z.shiftl_spec by lia.
    destruct (Z.lt_ge_cases n j).
    + by rewrite !(Z.testbit_neg_r _ (n - j)), andb_false_r by lia.
    + rewrite Z.ones_spec_low, Z.shiftr_spec, andb_true_r by lia. f_equal. lia.
  - rewrite (Z.mod_pow2_bits_high _ 32 n), andb_false_r by lia.
    rewrite Z.shiftr_spec by lia. rewrite Z.sub_add.
    symmetry. unfold uint in Hx. destruct (Z.eq_dec x 0) as [->|]; [apply Z.bits_0|].
    apply Z.bits_above_log2; [lia|]. apply Z.log2_lt_pow2; [lia|].
    apply Z.lt_le_trans with (2 ^ 32); [lia | by apply Z.pow_le_mono_r].
Qed.

(** The lowest set bit survives [w & (~w + 1)], and nothing else. *)
Lemma land_odd_opp m : Z.land (2 * m + 1) (2 * Z.lnot m + 1) = 1.
Proof.
  apply Z.bits_inj'. intros n Hn. rewrite Z.land_spec.
  destruct (Z.eq_dec n 0) as [->|]; [by rewrite !Z.testbit_odd_0|].
  rewrite <- (Z.succ_pred n), !Z.testbit_odd_succ by lia.
  rewrite Z.lnot_spec, andb_negb_r by lia. symmetry.
  apply Z.bits_above_log2; cbn; lia.
Qed.

Lemma negate_32 w : wrap 32 (Z.lxor w 0xFFFFFFFF + 1) = wrap 32 (- w).
Proof.
  unfold wrap. rewrite <- (Z.lnot_involutive w) at 2.
  replace (- Z.lnot (Z.lnot w)) with (Z.lnot w + 1) by (unfold Z.lnot; lia).
  rewrite Z.add_mod, (Z.add_mod (Z.lnot w)) by lia. f_equal. f_equal.
  rewrite <- !Z.land_ones by lia. apply Z.bits_inj'. intros n Hn.
  change 0xFFFFFFFF with (Z.ones 32).
  rewrite !Z.land_spec, Z.lxor_spec, Z.lnot_spec by lia.
  destruct (Z.lt_ge_cases n 32).
  - rewrite Z.ones_spec_low by lia. by destruct (Z.testbit w n).
  - by rewrite Z.ones_spec_high, !andb_false_r by lia.
Qed.

Lemma isolate_lowest_bit k m :
  0 ≤ k < 32 → let w := 2 ^ k * (2 * m + 1) in
  Z.land w (wrap 32 (Z.lxor w 0xFFFFFFFF + 1)) = 2 ^ k.
Proof.
  intros Hk w. rewrite negate_32. unfold wrap.
  rewrite <- Z.land_ones, Z.land_assoc, Z.land_ones by lia.
  assert (Z.land w (- w) = 2 ^ k) as ->.
  { subst w. rewrite (Z.mul_comm (2 ^ k)).
    replace (- ((2 * m + 1) * 2 ^ k)) with ((2 * Z.lnot m + 1) * 2 ^ k) by (unfold Z.lnot; lia).
    rewrite <- !Z.shiftl_mul_pow2, <- Z.shiftl_land, land_odd_opp by lia.
    rewrite Z.shiftl_1_l. done. }
  apply Z.mod_small. split; [lia|]. apply Z.pow_lt_mono_r; lia.
Qed.

(** A boolean property of the positions of a word holds if it computes to true
    at each of them. *)
Lemma below_32 (f : Z → bool) :
  forallb f (Z.of_nat <$> seq 0 32) = true → ∀ k, 0 ≤ k < 32 → f k = true.
Proof.
  intros Hf k Hk. rewrite List.forallb_forall in Hf. apply Hf.
  apply list_elem_of_In, list_elem_of_fmap. exists (Z.to_nat k).
  split; [lia|]. apply elem_of_seq. lia.
Qed.

Lemma count_zeroes_pow2 k m :
  0 ≤ k < 32 → count_zeroes (2 ^ k * (2 * m + 1)) = k.
Proof.
  intros Hk. unfold count_zeroes. rewrite isolate_lowest_bit by done.
  apply Z.eqb_eq. revert k Hk. apply below_32. vm_compute. reflexivity.
Qed.

(** The address as a number, most significant byte first, and its width. *)
Definition ip_value (ip : IPAddress) : Z :=
  match family_ ip with
  | AF_INET => NetworkToHost32 (ipv4_address ip)
  | AF_INET6 => le_combine (reverse (u_ ip))
  | AF_UNSPEC => 0
  end.
Definition ip_width (ip : IPAddress) : Z := 8 * Size ip.

Lemma le_combine_app l k : le_combine (l ++ k) = le_combine l + 256 ^ Z.of_nat (length l) * le_combine k.
Proof.
  induction l as [|b l IH]; cbn [le_combine app length]; [lia|].
  rewrite IH, Nat2Z.inj_succ, Z.pow_succ_r by lia. lia.
Qed.

Lemma NetworkToHost32_app a b :
  length b = 4%nat → le_combine (reverse (a ++ b)) = 2 ^ 32 * le_combine (reverse a) + NetworkToHost32 b.
Proof.
  intros Hb. rewrite reverse_app, le_combine_app, length_reverse, Hb.
  unfold NetworkToHost32. change (256 ^ Z.of_nat 4) with (2 ^ 32). lia.
Qed.

Lemma value_of_words w0 w1 w2 w3 :
  length w0 = 4%nat → length w1 = 4%nat → length w2 = 4%nat → length w3 = 4%nat →
  le_combine (reverse (w0 ++ w1 ++ w2 ++ w3)) =
  2 ^ 96 * NetworkToHost32 w0 + 2 ^ 64 * NetworkToHost32 w1 + 2 ^ 32 * NetworkToHost32 w2
  + NetworkToHost32 w3.
Proof.
  intros H0 H1 H2 H3. rewrite !app_assoc, !NetworkToHost32_app by done.
  fold (NetworkToHost32 w0). lia.
Qed.

Lemma v6_words_split ip :
  ip_wf ip → ∃ w0 w1 w2 w3,
    v6_words (u_ ip) = [w0; w1; w2; w3] ∧ u_ ip = w0 ++ w1 ++ w2 ++ w3 ∧
    Forall (λ w, length w = 4%nat ∧ bytes_ok w) [w0; w1; w2; w3].
Proof.
  intros (Hlen & Hok & _). unfold v6_words. do 4 eexists. split; [done|]. split.
  - rewrite <- (take_drop 4 (u_ ip)) at 1. f_equal.
    rewrite <- (take_drop 4 (drop 4 (u_ ip))) at 1. f_equal. rewrite drop_drop. cbn.
    rewrite <- (take_drop 4 (drop 8 (u_ ip))) at 1. f_equal. rewrite drop_drop. cbn.
    symmetry. apply take_ge. rewrite length_drop, Hlen. done.
  - repeat constructor; rewrite ?length_take, ?length_drop, ?Hlen; auto with cpp.
Qed.

Lemma NetworkToHost32_zeros : NetworkToHost32 (zeros 4) = 0.
Proof. reflexivity. Qed.

Lemma wrap_masked x j : uint 32 x → 0 ≤ j → wrap 32 (x / 2 ^ j * 2 ^ j) = x / 2 ^ j * 2 ^ j.
Proof.
  intros Hx Hj. apply wrap_small. unfold uint in *. assert (0 < 2 ^ j) by lia.
  pose proof (Z.mul_div_le x (2 ^ j)). split; [|lia].
  apply Z.mul_nonneg_nonneg; [apply Z.div_pos|]; lia.
Qed.

(** Truncation inside one 32-bit digit: the digits above stay, those below go. *)
Lemma truncate_digit j hi x lo w :
  0 ≤ j ≤ 32 → 0 ≤ w → 0 ≤ lo < 2 ^ w →
  (2 ^ w * (2 ^ 32 * hi + x) + lo) / 2 ^ (w + j) * 2 ^ (w + j)
  = 2 ^ w * (2 ^ 32 * hi + x / 2 ^ j * 2 ^ j).
Proof.
  intros Hj Hw Hlo. assert (0 < 2 ^ w ∧ 0 < 2 ^ j) as [??] by lia.
  rewrite Z.pow_add_r, <- Z.div_div by lia.
  rewrite (Z.mul_comm (2 ^ w)), Z.div_add_l, (Z.div_small lo), Z.add_0_r by lia.
  assert (2 ^ 32 = 2 ^ (32 - j) * 2 ^ j) as E by (rewrite <- Z.pow_add_r by lia; f_equal; lia).
  replace (2 ^ 32 * hi + x) with (2 ^ (32 - j) * hi * 2 ^ j + x) by (rewrite E; ring).
  rewrite Z.div_add_l by lia. rewrite E. ring.
Qed.

(** What [TruncateIP] does to the [i]-th word of an IPv6 address, as a number. *)
Definition truncated_word (n i x : Z) : Z :=
  let j := 32 - (n - n / 32 * 32) in
  if i =? n / 32 then x / 2 ^ j * 2 ^ j else if n / 32 <? i then 0 else x.

(** Truncation of a number given by four 32-bit digits. *)
Lemma truncate_words x0 x1 x2 x3 n :
  uint 32 x0 → uint 32 x1 → uint 32 x2 → uint 32 x3 → 0 < n < 128 →
  2 ^ 96 * truncated_word n 0 x0 + 2 ^ 64 * truncated_word n 1 x1
  + 2 ^ 32 * truncated_word n 2 x2 + truncated_word n 3 x3 =
  (2 ^ 96 * x0 + 2 ^ 64 * x1 + 2 ^ 32 * x2 + x3) / 2 ^ (128 - n) * 2 ^ (128 - n).
Proof.
  intros H0 H1 H2 H3 Hn. unfold uint in *.
  pose proof (Z.div_mod n 32). pose proof (Z.mod_pos_bound n 32).
  assert (n / 32 = 0 ∨ n / 32 = 1 ∨ n / 32 = 2 ∨ n / 32 = 3) as Hcases by lia.
  unfold truncated_word.
  destruct Hcases as [E|[E|[E|E]]]; rewrite E; compute_tests.
  - pose proof (truncate_digit (32 - (n - 0 * 32)) 0 x0 (2 ^ 64 * x1 + 2 ^ 32 * x2 + x3) 96) as Ht.
    replace (96 + (32 - (n - 0 * 32))) with (128 - n) in Ht by lia.
    replace (2 ^ 96 * x0 + 2 ^ 64 * x1 + 2 ^ 32 * x2 + x3)
      with (2 ^ 96 * (2 ^ 32 * 0 + x0) + (2 ^ 64 * x1 + 2 ^ 32 * x2 + x3)) by lia.
    rewrite Ht by lia. ring.
  - pose proof (truncate_digit (32 - (n - 1 * 32)) x0 x1 (2 ^ 32 * x2 + x3) 64) as Ht.
    replace (64 + (32 - (n - 1 * 32))) with (128 - n) in Ht by lia.
    replace (2 ^ 96 * x0 + 2 ^ 64 * x1 + 2 ^ 32 * x2 + x3)
      with (2 ^ 64 * (2 ^ 32 * x0 + x1) + (2 ^ 32 * x2 + x3)) by lia.
    rewrite Ht by lia. ring.
  - pose proof (truncate_digit (32 - (n - 2 * 32)) (2 ^ 32 * x0 + x1) x2 x3 32) as Ht.
    replace (32 + (32 - (n - 2 * 32))) with (128 - n) in Ht by lia.
    replace (2 ^ 96 * x0 + 2 ^ 64 * x1 + 2 ^ 32 * x2 + x3)
      with (2 ^ 32 * (2 ^ 32 * (2 ^ 32 * x0 + x1) + x2) + x3) by lia.
    rewrite Ht by lia. ring.
  - pose proof (truncate_digit (32 - (n - 3 * 32)) (2 ^ 64 * x0 + 2 ^ 32 * x1 + x2) x3 0 0) as Ht.
    replace (0 + (32 - (n - 3 * 32))) with (128 - n) in Ht by lia.
    replace (2 ^ 96 * x0 + 2 ^ 64 * x1 + 2 ^ 32 * x2 + x3)
      with (2 ^ 0 * (2 ^ 32 * (2 ^ 64 * x0 + 2 ^ 32 * x1 + x2) + x3) + 0) by lia.
    rewrite Ht by lia. ring.
Qed.

(** One word of the address, as [TruncateIP] rewrites it. *)
Definition truncate_word (n : Z) (i : nat) (w : list Z) : list Z :=
  if Z.of_nat i =? n / 32 then
    HostToNetwork32 (Z.land (NetworkToHost32 w)
      (wrap 32 (Z.shiftl 0xFFFFFFFF (32 - (n - n / 32 * 32)))))
  else if n / 32 <? Z.of_nat i then zeros 4 else w.

Lemma truncate_word_value n i k w :
  Z.of_nat i = k → length w = 4%nat ∧ bytes_ok w →
  length (truncate_word n i w) = 4%nat
  ∧ NetworkToHost32 (truncate_word n i w) = truncated_word n k (NetworkToHost32 w).
Proof.
  intros <- [Hlen Hok]. unfold truncate_word, truncated_word.
  pose proof (NetworkToHost32_bound w Hlen Hok) as Hb.
  pose proof (Z.mod_pos_bound n 32). pose proof (Z.div_mod n 32).
  destruct (Z.of_nat i =? n / 32); [|destruct (n / 32 <? Z.of_nat i)]; auto.
  rewrite length_HostToNetwork32, NetworkToHost32_HostToNetwork32, land_high_mask by lia || done.
  by rewrite wrap_masked by lia || done.
Qed.

Lemma TruncateIP_v6 ip w0 w1 w2 w3 n :
  family_ ip = AF_INET6 → v6_words (u_ ip) = [w0; w1; w2; w3] →
  Forall (λ w, length w = 4%nat ∧ bytes_ok w) [w0; w1; w2; w3] → 0 < n < 128 →
  ip_value (TruncateIP ip n) =
  2 ^ 96 * truncated_word n 0 (NetworkToHost32 w0) + 2 ^ 64 * truncated_word n 1 (NetworkToHost32 w1)
  + 2 ^ 32 * truncated_word n 2 (NetworkToHost32 w2) + truncated_word n 3 (NetworkToHost32 w3).
Proof.
  intros Hf Hw Hall Hn. unfold TruncateIP. rewrite Hf.
  replace (n <? 0) with false by lia. replace (127 <? n) with false by lia.
  replace (n =? 0) with false by lia. unfold ipv6_address. rewrite Hw.
  change (imap _ _) with (imap (truncate_word n) [w0; w1; w2; w3]). cbn [imap].
  rewrite !list.Forall_cons in Hall. destruct Hall as (H0 & H1 & H2 & H3 & _).
  apply (truncate_word_value n 0 0) in H0 as [? <-]; [|done].
  apply (truncate_word_value n 1 1) in H1 as [? <-]; [|done].
  apply (truncate_word_value n 2 2) in H2 as [? <-]; [|done].
  apply (truncate_word_value n 3 3) in H3 as [? <-]; [|done].
  unfold ip_value. cbn [family_ IPAddress_v6 u_ concat]. rewrite app_nil_r.
  by apply value_of_words.
Qed.

(** [rtc::IPAddress::operator<] is a strict total order whose equivalence
    is [operator==], and [operator==] is identity: what [std::set<rtc::IPAddress>],
    the container of the discovered broadcast addresses, requires of its elements. *)
Theorem ip_less_strict_total_order a b c :
  ip_wf a → ip_wf b → ip_wf c →
  ip_ltb a a = false
  ∧ (ip_ltb a b = true → ip_ltb b c = true → ip_ltb a c = true)
  ∧ (ip_ltb a b = true ∨ ip_eqb a b = true ∨ ip_gtb a b = true)
  ∧ (ip_eqb a b = true ↔ a = b)
  ∧ (ip_ltb a b = true → ip_eqb a b = false ∧ ip_gtb a b = false).
Proof.
  intros Ha Hb Hc. split_and!; [apply ip_ltb_irrefl | by apply ip_ltb_trans | | by apply ip_eqb_wf |].
  - unfold ip_gtb, ip_neb.
    destruct (ip_ltb a b) eqn:E; [by left|]. destruct (ip_eqb a b); cbn; auto.
  - intros Hlt. unfold ip_gtb. rewrite Hlt. split; [|by rewrite andb_comm].
    apply not_true_is_false. intros ->%ip_eqb_wf; [|done..]. by rewrite ip_ltb_irrefl in Hlt.
Qed.

Lemma ip_less_strict_total_order_witness :
  let a := IPAddress_host 0xC0A80001 in let b := IPAddress_v6 in6addr_loopback in
  ip_ltb a a = false ∧ (ip_ltb a b = true → ip_ltb b b = true → ip_ltb a b = true)
  ∧ (ip_ltb a b = true ∨ ip_eqb a b = true ∨ ip_gtb a b = true)
  ∧ (ip_eqb a b = true ↔ a = b)
  ∧ (ip_ltb a b = true → ip_eqb a b = false ∧ ip_gtb a b = false).
Proof.
  apply (ip_less_strict_total_order (IPAddress_host 0xC0A80001) (IPAddress_v6 in6addr_loopback)
    (IPAddress_v6 in6addr_loopback));
    (split; [reflexivity|split; [|done || reflexivity]];
     repeat (constructor; [unfold byte_ok; split; [discriminate | reflexivity]|]); constructor).
Defined.

(** Mapping an address to IPv6 and normalising it back is the identity,
    on every address but an IPv6 one that already is v4-mapped; an IPv4 address
    always maps to a v4-mapped one. *)
Theorem AsIPv6Address_Normalized ip :
  ip_wf ip → (family_ ip = AF_INET6 → IPIsV4Mapped ip = false) →
  Normalized (AsIPv6Address ip) = ip
  ∧ (family_ ip = AF_INET → IPIsV4Mapped (AsIPv6Address ip) = true).
Proof.
  intros Hwf Hv6. destruct (family_ ip) eqn:E.
  - unfold AsIPv6Address, Normalized. by rewrite E, E.
  - assert (IPIsV4Mapped (AsIPv6Address ip) = true) as Hm.
    { unfold AsIPv6Address, IPIsV4Mapped, IPIsHelper. rewrite E. cbn. reflexivity. }
    split; [|done]. unfold Normalized. rewrite Hm.
    unfold AsIPv6Address. rewrite E. cbn.
    rewrite (take_ge (ipv4_address ip)) by by rewrite length_ipv4_address.
    symmetry. by apply ip_v4_eta.
  - unfold AsIPv6Address, Normalized. rewrite E, E, Hv6 by done. by split.
Qed.

Lemma AsIPv6Address_Normalized_witness :
  Normalized (AsIPv6Address (IPAddress_host 0xC0A80001)) = IPAddress_host 0xC0A80001.
Proof. apply (AsIPv6Address_Normalized (IPAddress_host 0xC0A80001)); [auto with cpp | done]. Defined.

(** [TruncateIP ip n] keeps the [n] leading bits of the address and clears
    the others, for IPv4 ([n] up to 32) and IPv6 ([n] up to 128, whichever of the
    four words the boundary falls in). *)
Theorem TruncateIP_keeps_prefix ip n :
  ip_wf ip → family_ ip ≠ AF_UNSPEC → 0 ≤ n ≤ ip_width ip →
  family_ (TruncateIP ip n) = family_ ip ∧
  ip_value (TruncateIP ip n) = ip_value ip / 2 ^ (ip_width ip - n) * 2 ^ (ip_width ip - n).
Proof.
  intros Hwf Hf Hn. unfold ip_width, Size in *. destruct (family_ ip) eqn:E; [done| |].
  - unfold TruncateIP. rewrite E. replace (n <? 0) with false by lia.
    pose proof (v4_host_bound ip Hwf) as Hb. unfold ip_value. rewrite E.
    destruct (31 <? n) eqn:En.
    { rewrite E. replace (8 * 4 - n) with 0 by lia. by rewrite Z.div_1_r, Z.mul_1_r. }
    destruct (n =? 0) eqn:E0.
    { replace (8 * 4 - n) with 32 by lia. rewrite Z.div_small by done. done. }
    split; [done|]. cbn [family_ IPAddress_v4]. unfold ipv4_address at 1.
    cbn [u_ IPAddress_v4]. rewrite take_app_length' by by rewrite length_HostToNetwork32.
    rewrite NetworkToHost32_HostToNetwork32, land_high_mask, wrap_masked by lia || done. done.
  - destruct (decide (n = 0)) as [->|]; [|destruct (decide (n = 128)) as [->|]].
    + unfold TruncateIP. rewrite E. cbn. split; [done|]. unfold ip_value. rewrite E. cbn.
      rewrite Z.div_small; [reflexivity|]. destruct Hwf as (Hlen & Hok & _).
      pose proof (le_combine_bound _ (bytes_ok_reverse _ Hok)) as Hb.
      by rewrite length_reverse, Hlen in Hb.
    + unfold TruncateIP. rewrite E. cbn. rewrite E. by rewrite Z.div_1_r, Z.mul_1_r.
    + destruct (v6_words_split ip Hwf) as (w0 & w1 & w2 & w3 & Hw & Hu & Hall).
      rewrite (TruncateIP_v6 ip w0 w1 w2 w3 n) by (done || lia).
      rewrite !list.Forall_cons in Hall. destruct_and!.
      rewrite truncate_words by (done || lia || by apply NetworkToHost32_bound). split.
      * unfold TruncateIP. rewrite E. replace (n <? 0) with false by lia.
        replace (127 <? n) with false by lia. by replace (n =? 0) with false by lia.
      * unfold ip_value. rewrite E, Hu, value_of_words by done. done.
Qed.

Lemma TruncateIP_keeps_prefix_witness :
  ip_value (TruncateIP (IPAddress_host 0xC0A8017F) 20)
  = ip_value (IPAddress_host 0xC0A8017F) / 2 ^ 12 * 2 ^ 12.
Proof.
  apply (TruncateIP_keeps_prefix (IPAddress_host 0xC0A8017F) 20); [auto with cpp | done |].
  unfold ip_width. cbn. lia.
Defined.

(** [CountIPMaskBits] of an IPv4 mask whose lowest set bit is bit [k] is
    [32 - k], whatever the bits above it: the routine counts up to the last set
    bit (by isolating it with [w & (~w + 1)] and locating it by five masks), so it
    is the prefix length of a contiguous netmask, and on a mask with a hole it
    counts past the hole. *)
Theorem CountIPMaskBits_v4 mask k m :
  ip_wf mask → family_ mask = AF_INET → 0 ≤ k < 32 →
  ip_value mask = 2 ^ k * (2 * m + 1) → CountIPMaskBits mask = 32 - k.
Proof.
  intros Hwf Hf Hk Hv. unfold CountIPMaskBits. rewrite Hf.
  unfold ip_value in Hv. rewrite Hf in Hv. rewrite Hv.
  assert (2 ^ k * (2 * m + 1) ≠ 0) by (intros [?|?]%Z.mul_eq_0; lia).
  replace (2 ^ k * (2 * m + 1) =? 0) with false by lia.
  by rewrite count_zeroes_pow2 by done.
Qed.

Lemma CountIPMaskBits_v4_witness : CountIPMaskBits (IPAddress_host 0xFF00FF00) = 24.
Proof.
  apply (CountIPMaskBits_v4 (IPAddress_host 0xFF00FF00) 8 0x7F807F);
    [auto with cpp | reflexivity | lia | vm_compute; reflexivity].
Defined.

(** The prefix length is recovered from the netmask built by truncating
    the all-ones address, for every IPv4 length 0 to 32 and IPv6 length 0 to 128. *)
Theorem CountIPMaskBits_TruncateIP :
  (∀ n, (n ≤ 32)%nat →
     CountIPMaskBits (TruncateIP (IPAddress_host 0xFFFFFFFF) (Z.of_nat n)) = Z.of_nat n)
  ∧ (∀ n, (n ≤ 128)%nat →
     CountIPMaskBits (TruncateIP (IPAddress_v6 (replicate 16 0xFF)) (Z.of_nat n)) = Z.of_nat n).
Proof.
  assert (∀ f b, forallb f (seq 0 (S b)) = true → ∀ n, (n ≤ b)%nat → f n = true) as Hall.
  { intros f b Hf n Hn. rewrite List.forallb_forall in Hf. apply Hf, List.in_seq. lia. }
  split; intros n Hn; apply Z.eqb_eq; revert n Hn; apply Hall; vm_compute; reflexivity.
Qed.

Lemma CountIPMaskBits_TruncateIP_witness :
  CountIPMaskBits (TruncateIP (IPAddress_host 0xFFFFFFFF) 20) = 20.
Proof. apply (proj1 CountIPMaskBits_TruncateIP 20%nat). lia. Defined.

(** ** Text *)

Lemma chars_string_of_chars l : bytes_ok l → chars (string_of_chars l) = l.
Proof.
  intros Hl. unfold chars, string_of_chars. rewrite String.list_ascii_of_string_of_list_ascii, <- list_fmap_compose.
  induction Hl as [|c l Hc Hl IH]; cbn; [done|]. f_equal; [|done]. unfold byte_ok in Hc.
  rewrite Ascii.N_ascii_embedding by lia. lia.
Qed.

Lemma ip_chars_bytes l : Forall ip_char l → bytes_ok l ∧ Forall (λ c, c ≠ 0) l.
Proof.
  intros H. split; (eapply Forall_impl; [exact H|]); intros c Hc%ip_char_pos; unfold byte_ok; lia.
Qed.

Lemma c_chars_nonzero l : Forall (λ c, c ≠ 0) l → c_chars l = l.
Proof. induction 1 as [|c l Hc Hl IH]; cbn; [done|]. by rewrite (proj2 (Z.eqb_neq c 0)), IH. Qed.

(** The characters [ToString] gives. *)
Definition ip_text (ip : IPAddress) : list Z :=
  match family_ ip with
  | AF_UNSPEC => []
  | AF_INET => dotted_quad (ipv4_address ip)
  | AF_INET6 => ntop_v6_text (ipv6_address ip)
  end.

Lemma v6_address_ok ip : ip_wf ip → length (ipv6_address ip) = 16%nat ∧ bytes_ok (ipv6_address ip).
Proof. by intros (H1 & H2 & _). Qed.

Lemma ip_text_chars ip : ip_wf ip → Forall ip_char (ip_text ip) ∧ (length (ip_text ip) ≤ 39)%nat.
Proof.
  intros Hip. unfold ip_text. destruct (v6_address_ok ip Hip). destruct (family_ ip); [cbn; split; [constructor|lia]|..].
  - destruct (ntop_v4_chars (ipv4_address ip)) as (H1 & H2 & _); auto with cpp. split; [|lia].
    eapply Forall_impl; [exact H1|]. by right.
  - split; [by apply ntop_v6_chars | by apply ntop_v6_bound].
Qed.

Lemma ToString_chars ip : ip_wf ip → chars (ToString ip) = ip_text ip.
Proof.
  intros Hip. destruct (ip_text_chars ip Hip) as [Hc Hl]. destruct (ip_chars_bytes _ Hc) as [Hb Hz].
  destruct (v6_address_ok ip Hip). unfold ToString, inet_ntop, ip_text in *. rewrite length_replicate. cbv zeta.
  rewrite Z2Nat.id by (unfold INET6_ADDRSTRLEN; lia). unfold win32_inet_ntop.
  destruct (family_ ip) eqn:Ef; [done| |]; cbn [family_code Z.eqb Pos.eqb].
  - rewrite inet_ntop_v4_buffer; auto with cpp; [|unfold INET_ADDRSTRLEN, INET6_ADDRSTRLEN; lia].
    rewrite c_chars_overwrite_zeros; [by apply chars_string_of_chars | done | unfold INET6_ADDRSTRLEN; lia | by left].
  - destruct (inet_ntop_v6_buffer (ipv6_address ip) (replicate (Z.to_nat INET6_ADDRSTRLEN) 0)) as (nul & -> & Hnul); [done..|].
    rewrite c_chars_overwrite_zeros; [by apply chars_string_of_chars | done | unfold INET6_ADDRSTRLEN; lia | done].
Qed.

Lemma IPFromString_ToString ip : ip_wf ip → family_ ip ≠ AF_UNSPEC → IPFromString (ToString ip) = (ip, true).
Proof.
  intros Hip Hf. destruct (ip_text_chars ip Hip) as [Hc _]. destruct (ip_chars_bytes _ Hc) as [_ Hz].
  destruct (v6_address_ok ip Hip). unfold IPFromString, inet_pton, win32_inet_pton.
  rewrite (ToString_chars ip Hip), (c_chars_nonzero _ Hz). unfold ip_text. cbn [family_code Z.eqb Pos.eqb].
  destruct (family_ ip) eqn:Ef; [done|..].
  - rewrite pton_dotted_quad by auto with cpp. by rewrite <- ip_v4_eta.
  - destruct (ntop_v6_chars (ipv6_address ip)) as [_ Hcol]; [done..|]. rewrite inet_pton_v4_colon.
    + rewrite pton_v6_of_text by done. destruct ip; cbn in *. by subst.
    + unfold has_char in Hcol. destruct (after_char _ _) eqn:E; [|done]. by eapply after_char_elem.
Qed.

Lemma length_chars s : length (chars s) = String.length s.
Proof. unfold chars. rewrite length_fmap. induction s; cbn; auto. Qed.

Lemma before_last_app c a b : Forall (λ x, x ≠ c) b → before_last c (a ++ c :: b) = Some a.
Proof.
  intros Hb. unfold before_last. rewrite reverse_app, reverse_cons, <- app_assoc. cbn [app].
  rewrite has_char_some by by apply Forall_reverse.
  cbn. by rewrite reverse_involutive.
Qed.

(** What the sensitive text of an IPv4 address shows. *)
Lemma ToSensitiveString_v4 ip : ip_wf ip → family_ ip = AF_INET →
  ∃ b1 b2 b3 b4, ipv4_address ip = [b1; b2; b3; b4] ∧
  ToSensitiveString ip
  = string_of_chars ((print_dec b1 ++ [chr_dot] ++ print_dec b2 ++ [chr_dot] ++ print_dec b3) ++ chars ".x").
Proof.
  intros Hip Hf. pose proof (length_ipv4_address ip Hip) as Hl. pose proof (ipv4_address_ok ip Hip) as Hok.
  unfold ToSensitiveString. rewrite ToString_chars by done. unfold ip_text. rewrite Hf.
  destruct (ipv4_address ip) as [|b1 [|b2 [|b3 [|b4 [|]]]]]; try done. exists b1, b2, b3, b4. split; [done|].
  unfold bytes_ok in Hok. rewrite !list.Forall_cons in Hok. destruct Hok as (_ & _ & _ & H4 & _).
  assert (dotted_quad [b1; b2; b3; b4] = (print_dec b1 ++ [chr_dot] ++ print_dec b2 ++ [chr_dot] ++ print_dec b3)
    ++ chr_dot :: print_dec b4) as ->.
  { unfold dotted_quad. by rewrite <- !app_assoc. }
  rewrite before_last_app; [done|]. destruct (print_dec_ok b4 H4) as (Hd & _). eapply Forall_impl; [exact Hd|].
  intros c Hc. by apply (digit_ok_val 10 c ltac:(lia) Hc).
Qed.

(** Reading the text of an address gives the address back: every well-formed IPv4 or IPv6
    address, IPv4-mapped and compressed forms included, survives [ToString] and
    [IPFromString]. *)
Theorem ip_text_roundtrip ip :
  ip_wf ip → family_ ip ≠ AF_UNSPEC →
  IPFromString (ToString ip) = (ip, true) ∧ (0 < String.length (ToString ip) ≤ 39)%nat.
Proof.
  intros Hip Hf. pose proof (IPFromString_ToString ip Hip Hf) as H. split; [done|].
  destruct (ip_text_chars ip Hip) as [_ Hl]. rewrite <- ToString_chars, length_chars in Hl by done.
  split; [|done]. destruct (ToString ip); [discriminate H | cbn; lia].
Qed.

Lemma ip_text_roundtrip_witness :
  let ip := IPAddress_v6 ([254; 128] ++ zeros 13 ++ [1]) in
  ToString ip = "fe80::1"%string ∧ IPFromString (ToString ip) = (ip, true) ∧ (0 < String.length (ToString ip) ≤ 39)%nat.
Proof.
  split; [by vm_compute|]. apply (ip_text_roundtrip (IPAddress_v6 ([254; 128] ++ zeros 13 ++ [1]))); [|done].
  split_and!; [done | repeat constructor; done | done].
Defined.

(** The text written to logs does not depend on the part of an address it hides: IPv4
    addresses that share their first three bytes, and IPv6 addresses that share their
    first six, are written alike. *)
Theorem sensitive_string_hides a b :
  ip_wf a → ip_wf b → family_ a = family_ b →
  take (match family_ a with AF_INET => 3 | _ => 6 end) (u_ a) = take (match family_ a with AF_INET => 3 | _ => 6 end) (u_ b) →
  ToSensitiveString a = ToSensitiveString b.
Proof.
  intros Ha Hb Hf Ht. destruct (family_ a) eqn:Ef; symmetry in Hf.
  - unfold ToSensitiveString. by rewrite Ef, Hf.
  - destruct (ToSensitiveString_v4 a Ha Ef) as (a1 & a2 & a3 & a4 & Ea & ->).
    destruct (ToSensitiveString_v4 b Hb Hf) as (b1 & b2 & b3 & b4 & Eb & ->). unfold ipv4_address in Ea, Eb.
    apply (f_equal (take 3)) in Ea, Eb. rewrite take_take in Ea, Eb. cbn in Ea, Eb. rewrite Ht, Eb in Ea. by injection Ea as <- <- <-.
  - unfold ToSensitiveString. rewrite Ef, Hf. unfold ipv6_address.
    assert (∀ i, (i < 6)%nat → u_ a !! i = u_ b !! i) as Hi.
    { intros i Hi. by rewrite <- (lookup_take_lt (u_ a) 6 i Hi), Ht, lookup_take_lt. }
    rewrite !Hi by lia. done.
Qed.

Lemma sensitive_string_hides_witness :
  ToSensitiveString (IPAddress_host 0xC0A80001) = ToSensitiveString (IPAddress_host 0xC0A800FF)
  ∧ ToSensitiveString (IPAddress_host 0xC0A80001) = "192.168.0.x"%string.
Proof.
  split; [|by vm_compute]. apply (sensitive_string_hides (IPAddress_host 0xC0A80001) (IPAddress_host 0xC0A800FF));
    [apply IPAddress_host_wf | apply IPAddress_host_wf | reflexivity | reflexivity].
Defined.
