(* ===== verification/SocketAddress.v ===== *)
(** * rtc::SocketAddress (includes/webrtc/rtc_base/socket_address.h, .cc)

    The address type of the peer table, of the LAN socket and of the discovery
    handlers: an IP address, a port, a scope and, when it was built from a
    name, the host name.  Its text form, with the string builder it is written with, is
    modelled down to the characters. *)

From Stdlib Require Import String.
From S2P Require Import Prelude Win32 IpAddress.
Open Scope Z_scope.

Record SocketAddress := mkSA {
  hostname_ : string;
  ip_ : IPAddress;
  port_ : Z;
  scope_id_ : Z;
  literal_ : bool
}.

#[export] Instance SocketAddress_eta : Eta SocketAddress := λ a,
  mkSA (hostname_ a) (ip_ a) (port_ a) (scope_id_ a) (literal_ a).
#[export] Instance SocketAddress_eq_dec : EqDecision SocketAddress.
Proof. solve_decision. Defined.

(** ** Construction *)

Definition Clear : SocketAddress := mkSA "" IPAddress_nil 0 0 false.

Definition SetIP (ip : IPAddress) (a : SocketAddress) : SocketAddress :=
  a <| hostname_ := ""%string |> <| literal_ := false |> <| ip_ := ip |> <| scope_id_ := 0 |>.
Definition SetIP_host (x : Z) (a : SocketAddress) : SocketAddress := SetIP (IPAddress_host x) a.
Definition SetResolvedIP (ip : IPAddress) (a : SocketAddress) : SocketAddress :=
  a <| ip_ := ip |> <| scope_id_ := 0 |>.
(** [dchecked_cast<uint16_t>]: a release build truncates. *)
Definition SetPort (port : Z) (a : SocketAddress) : SocketAddress := a <| port_ := wrap 16 port |>.
Definition SetScopeID (id : Z) (a : SocketAddress) : SocketAddress := a <| scope_id_ := id |>.

Definition SocketAddress_ip (ip : IPAddress) (port : Z) : SocketAddress :=
  SetPort port (SetIP ip Clear).
Definition SocketAddress_host (x port : Z) : SocketAddress := SetPort port (SetIP_host x Clear).

Definition SetIP_name (hostname : string) (a : SocketAddress) : SocketAddress :=
  let '(ip, literal) := IPFromString hostname in
  a <| hostname_ := hostname |> <| literal_ := literal |>
    <| ip_ := if literal then ip else IPAddress_nil |> <| scope_id_ := 0 |>.

Definition SocketAddress_name (hostname : string) (port : Z) : SocketAddress :=
  SetPort port (SetIP_name hostname Clear).

(** ** Text *)

(** [SimpleStringBuilder] over a buffer of [cap] characters: what does not fit is cut off
    (only a debug build stops). *)
Definition sb_append (cap : nat) (buffer str : list Z) : list Z := buffer ++ take (cap - length buffer - 1) str.
Definition sb_build (cap : nat) (pieces : list (list Z)) : string :=
  string_of_chars (c_chars (fold_left (sb_append cap) pieces [])).

Definition PortAsString (a : SocketAddress) : string := string_of_chars (print_dec (port_ a)).

(** Both [HostAsURIString] and its sensitive form, by the text used for the IP address. *)
Definition host_as_uri (text : IPAddress → string) (a : SocketAddress) : string :=
  if negb (literal_ a) && negb (hostname_ a =? "")%string then hostname_ a
  else
    match family_ (ip_ a) with
    | AF_INET6 => "[" ++ text (ip_ a) ++ "]"
    | _ => text (ip_ a)
    end%string.
Definition HostAsURIString : SocketAddress → string := host_as_uri IpAddress.ToString.
Definition HostAsSensitiveURIString : SocketAddress → string := host_as_uri IpAddress.ToSensitiveString.

Definition SocketAddress_ToString (a : SocketAddress) : string :=
  sb_build 1024 [chars (HostAsURIString a); [chr_colon]; print_dec (port_ a)].
Definition SocketAddress_ToSensitiveString (a : SocketAddress) : string :=
  sb_build 1024 [chars (HostAsSensitiveURIString a); [chr_colon]; print_dec (port_ a)].

(** [strtoul(s, nullptr, 10)], saturated to 32 bits; a minus sign negates the value. *)
Definition strtoul (s : list Z) : Z :=
  let '(_, s1) := span isspace s in
  let '(neg, s2) := match s1 with c :: r => if c =? 45 then (true, r) else if c =? 43 then (false, r) else (false, s1)
                    | [] => (false, s1) end in
  let v := digits_value 10 (span isdigit s2).1 in
  if 2 ^ 32 - 1 <? v then 2 ^ 32 - 1 else if neg then wrap 32 (- v) else v.

(** [FromString]; [None] is the exception of [str.at(0)] on an empty text. *)
Definition FromString (str : string) (a : SocketAddress) : option (SocketAddress * bool) :=
  let s := chars str in
  match s with
  | [] => None
  | c :: _ => Some
    (if c =? 91 then
       match before_last 93 s with
       | Some pre =>
         match after_char chr_colon (drop (length pre) s) with
         | Some port => (SetIP_name (string_of_chars (drop 1 pre)) (SetPort (strtoul (c_chars port)) a), true)
         | None => (a, false)
         end
       | None => (a, true)
       end
     else
       match after_char chr_colon s with
       | None => (a, false)
       | Some port =>
         let host := take (length s - length port - 1) s in
         (SetIP_name (string_of_chars host) (SetPort (strtoul (c_chars port)) a), true)
       end)
  end.

(** ** Queries *)

Definition SocketAddress_IsNil (a : SocketAddress) : bool :=
  (hostname_ a =? "")%string && IPIsUnspec (ip_ a) && (0 =? port_ a).
Definition IsComplete (a : SocketAddress) : bool := negb (IPIsAny (ip_ a)) && negb (0 =? port_ a).
Definition ip (a : SocketAddress) : Z := v4AddressAsHostOrderInteger (ip_ a).
Definition IsAnyIP (a : SocketAddress) : bool := IPIsAny (ip_ a).
Definition IsLoopbackIP (a : SocketAddress) : bool :=
  IPIsLoopback (ip_ a) || (IPIsAny (ip_ a) && (hostname_ a =? "localhost")%string).
Definition IsPrivateIP (a : SocketAddress) : bool := IPIsPrivate (ip_ a).
Definition IsUnresolvedIP (a : SocketAddress) : bool :=
  IPIsUnspec (ip_ a) && negb (literal_ a) && negb (hostname_ a =? "")%string.
Definition sa_family (a : SocketAddress) : addr_family := family_ (ip_ a).

(** The host name with the address it was resolved to. *)
Definition ToSensitiveNameAndAddressString (a : SocketAddress) : string :=
  if IsUnresolvedIP a || literal_ a || (hostname_ a =? "")%string then SocketAddress_ToSensitiveString a
  else
    let addr := chars (IpAddress.ToSensitiveString (ip_ a)) in
    sb_build 1024
      ([chars (HostAsSensitiveURIString a); [chr_colon]; print_dec (port_ a); chars " ("]
         ++ match family_ (ip_ a) with AF_INET6 => [chars "["; addr; chars "]"] | _ => [addr] end
         ++ [[chr_colon]; print_dec (port_ a); chars ")"]).

(** ** Comparison *)

Definition EqualIPs (a b : SocketAddress) : bool :=
  ip_eqb (ip_ a) (ip_ b)
  && ((negb (IPIsAny (ip_ a)) && negb (IPIsUnspec (ip_ a))) || (hostname_ a =? hostname_ b)%string).
Definition EqualPorts (a b : SocketAddress) : bool := port_ a =? port_ b.
Definition sa_eqb (a b : SocketAddress) : bool := EqualIPs a b && EqualPorts a b.

Definition sa_ltb (a b : SocketAddress) : bool :=
  if ip_neb (ip_ a) (ip_ b) then ip_ltb (ip_ a) (ip_ b)
  else if (IPIsAny (ip_ a) || IPIsUnspec (ip_ a)) && negb (hostname_ a =? hostname_ b)%string
  then (hostname_ a <? hostname_ b)%string
  else port_ a <? port_ b.

(** [port_ | (port_ << 16)] is computed in [int], so a port above 0x7FFF makes
    it negative and the conversion to [size_t] extends the sign. *)
Definition sint (w x : Z) : Z := let y := wrap w x in if y <? 2 ^ (w - 1) then y else y - 2 ^ w.
Definition Hash (a : SocketAddress) : Z :=
  Z.lxor (Z.lxor 0 (HashIP (ip_ a)))
    (wrap 64 (sint 32 (Z.lor (port_ a) (Z.shiftl (port_ a) 16)))).

(** ** Socket API structures *)

Record sockaddr_in := mkSin { sin_family : addr_family; sin_port : list Z; sin_addr : list Z }.

Definition HostToNetwork16 (x : Z) : list Z := reverse (le_split 2 x).
Definition NetworkToHost16 (b : list Z) : Z := le_combine (reverse b).

#[global] Arguments HostToNetwork16 x : simpl never.
#[global] Arguments NetworkToHost16 b : simpl never.

Definition ToSockAddr (a : SocketAddress) : sockaddr_in :=
  match family_ (ip_ a) with
  | AF_INET =>
    mkSin AF_INET (HostToNetwork16 (port_ a))
      (if IPIsAny (ip_ a) then HostToNetwork32 INADDR_ANY else ipv4_address (ip_ a))
  | _ => mkSin AF_UNSPEC (zeros 2) (zeros 4)
  end.

Definition FromSockAddr (saddr : sockaddr_in) (a : SocketAddress) : SocketAddress * bool :=
  match sin_family saddr with
  | AF_INET =>
    (SetPort (NetworkToHost16 (sin_port saddr)) (SetIP_host (NetworkToHost32 (sin_addr saddr)) a)
       <| literal_ := false |>, true)
  | _ => (a, false)
  end.

(** A [sockaddr_storage], as the structure its family says to read it as. *)
Inductive sockaddr_storage :=
| ss_in (sin_port sin_addr : list Z)
| ss_in6 (sin6_port sin6_addr : list Z) (sin6_scope_id : Z)
| ss_other.

Definition ToSockAddrStorageHelper (ip : IPAddress) (port scope_id : Z) : sockaddr_storage * Z :=
  match family_ ip with
  | AF_INET6 => (ss_in6 (HostToNetwork16 port) (ipv6_address ip) scope_id, 28)
  | AF_INET => (ss_in (HostToNetwork16 port) (ipv4_address ip), 16)
  | AF_UNSPEC => (ss_other, 0)
  end.

Definition ToSockAddrStorage (a : SocketAddress) : sockaddr_storage * Z :=
  ToSockAddrStorageHelper (ip_ a) (port_ a) (scope_id_ a).
Definition ToDualStackSockAddrStorage (a : SocketAddress) : sockaddr_storage * Z :=
  ToSockAddrStorageHelper (AsIPv6Address (ip_ a)) (port_ a) (scope_id_ a).

Definition SocketAddressFromSockAddrStorage (addr : sockaddr_storage) : option SocketAddress :=
  match addr with
  | ss_in port ip4 => Some (SocketAddress_ip (IPAddress_v4 ip4) (NetworkToHost16 port))
  | ss_in6 port ip6 scope =>
    Some (SetScopeID scope (SocketAddress_ip (IPAddress_v6 ip6) (NetworkToHost16 port)))
  | ss_other => None
  end.

Definition EmptySocketAddressWithFamily (family : addr_family) : SocketAddress :=
  match family with
  | AF_INET => SocketAddress_ip (IPAddress_host INADDR_ANY) 0
  | AF_INET6 => SocketAddress_ip (IPAddress_v6 in6addr_any) 0
  | AF_UNSPEC => Clear
  end.

(** ** Lemmas *)

Definition sa_wf (a : SocketAddress) : Prop := ip_wf (ip_ a) ∧ uint 16 (port_ a).

Lemma NetworkToHost16_HostToNetwork16 x : NetworkToHost16 (HostToNetwork16 x) = wrap 16 x.
Proof. unfold NetworkToHost16, HostToNetwork16. by rewrite reverse_involutive, le_combine_split. Qed.

Lemma string_trichotomy s t :
  (s <? t)%string = true ∨ s = t ∨ (t <? s)%string = true.
Proof.
  unfold String.ltb. rewrite (String.compare_antisym t s).
  destruct (s ?= t)%string eqn:E; cbn; auto. right; left. by apply String.compare_eq_iff.
Qed.

Lemma string_ltb_irrefl s : (s <? s)%string = false.
Proof.
  unfold String.ltb. pose proof (String.compare_antisym s s) as H.
  by destruct (s ?= s)%string.
Qed.

Lemma string_ltb_asym s t : (s <? t)%string = true → (t <? s)%string = false.
Proof. unfold String.ltb. rewrite (String.compare_antisym t s). by destruct (s ?= t)%string. Qed.

Lemma ip_eqb_refl i : ip_wf i → ip_eqb i i = true.
Proof. intros. by apply ip_eqb_wf. Qed.

Lemma ip_ltb_asym a b : ip_wf a → ip_wf b → ip_ltb a b = true → ip_ltb b a = false.
Proof.
  intros Ha Hb Hlt. apply not_true_is_false. intros Hgt.
  by pose proof (ip_ltb_trans a b a Ha Hb Ha Hlt Hgt) as H; rewrite ip_ltb_irrefl in H.
Qed.

Lemma SocketAddress_host_wf x port : sa_wf (SocketAddress_host x port).
Proof. split; [apply IPAddress_host_wf | by apply wrap_uint]. Qed.

Lemma SocketAddress_ip_wf i port : ip_wf i → sa_wf (SocketAddress_ip i port).
Proof. split; [done | by apply wrap_uint]. Qed.

#[export] Hint Resolve SocketAddress_host_wf SocketAddress_ip_wf : cpp.

(** [operator<] of socket addresses decides exactly the same identity as
    [operator==]: of two addresses either one is smaller or they are equal, and never
    both.  Host names count in both or in neither (only when the IP is unspecified or
    any). *)
Theorem sockaddr_less_iff_not_equal a b :
  sa_wf a → sa_wf b →
  (sa_eqb a b = true ↔ sa_ltb a b = false ∧ sa_ltb b a = false)
  ∧ (sa_ltb a b = true → sa_ltb b a = false).
Proof.
  intros [Ha _] [Hb _]. unfold sa_eqb, EqualIPs, EqualPorts, sa_ltb, ip_neb.
  destruct (ip_eqb (ip_ a) (ip_ b)) eqn:E; cbn.
  - apply ip_eqb_wf in E; [|done..]. rewrite <- E, ip_eqb_refl by done. cbn.
    rewrite <- negb_orb, (String.eqb_sym (hostname_ b)).
    destruct (IPIsAny (ip_ a) || IPIsUnspec (ip_ a)); cbn; [|split; lia].
    destruct (String.eqb_spec (hostname_ a) (hostname_ b)) as [Hh|Hh]; cbn; [split; lia|].
    split; [split; [done|]|apply string_ltb_asym].
    intros [H1 H2]. destruct (string_trichotomy (hostname_ a) (hostname_ b)) as [?|[?|?]]; congruence.
  - assert (ip_eqb (ip_ b) (ip_ a) = false) as ->.
    { apply not_true_is_false. intros H%ip_eqb_wf; [|done..]. by rewrite H, ip_eqb_refl in E. }
    cbn. split; [split; [done|]|by apply ip_ltb_asym].
    intros [H1 H2]. destruct (ip_ltb_total (ip_ a) (ip_ b)) as [?|[Heq|?]]; try congruence.
    by rewrite Heq, ip_eqb_refl in E.
Qed.

Lemma sockaddr_less_iff_not_equal_witness :
  let a := SocketAddress_host 0xC0A80001 7551 in let b := SocketAddress_host 0xC0A80001 7552 in
  (sa_eqb a b = true ↔ sa_ltb a b = false ∧ sa_ltb b a = false)
  ∧ (sa_ltb a b = true → sa_ltb b a = false).
Proof.
  apply (sockaddr_less_iff_not_equal (SocketAddress_host 0xC0A80001 7551)
    (SocketAddress_host 0xC0A80001 7552));
    apply SocketAddress_host_wf.
Defined.

(** Writing an address into a [sockaddr_storage] and reading it back gives
    the same IP, port and (for IPv6) scope; the host name is dropped, so the result is
    [==] to the original whenever the host name does not take part in the comparison.
    An address without a family is refused. *)
Theorem sockaddr_storage_roundtrip a :
  sa_wf a →
  match SocketAddressFromSockAddrStorage (ToSockAddrStorage a).1 with
  | Some b =>
    ip_ b = ip_ a ∧ port_ b = port_ a ∧ hostname_ b = ""%string
    ∧ scope_id_ b = (match sa_family a with AF_INET6 => scope_id_ a | _ => 0 end)
    ∧ (IPIsAny (ip_ a) = false ∨ hostname_ a = ""%string → sa_eqb b a = true)
  | None => sa_family a = AF_UNSPEC ∧ (ToSockAddrStorage a).2 = 0
  end.
Proof.
  intros [Hip Hp]. unfold ToSockAddrStorage, ToSockAddrStorageHelper, sa_family.
  assert (∀ b, ip_ b = ip_ a → port_ b = port_ a → hostname_ b = ""%string →
    family_ (ip_ a) ≠ AF_UNSPEC →
    (IPIsAny (ip_ a) = false ∨ hostname_ a = ""%string → sa_eqb b a = true)) as Heq.
  { intros b Hi Hpo Hh Hf Hc. unfold sa_eqb, EqualIPs, EqualPorts.
    rewrite Hi, Hpo, Hh, ip_eqb_refl, Z.eqb_refl, andb_true_r by done. cbn.
    assert (IPIsUnspec (ip_ a) = false) as -> by (unfold IPIsUnspec; by destruct (family_ (ip_ a))).
    destruct Hc as [-> | ->]; [done | by rewrite orb_comm]. }
  assert (wrap 16 (wrap 16 (port_ a)) = port_ a) as Hport by by rewrite (wrap_small 16 (port_ a)), wrap_small.
  destruct (family_ (ip_ a)) eqn:E; cbn; rewrite ?NetworkToHost16_HostToNetwork16; [done| |].
  - rewrite <- ip_v4_eta by done. split_and!; try done. by apply Heq.
  - assert (IPAddress_v6 (ipv6_address (ip_ a)) = ip_ a) as Hv.
    { destruct (ip_ a); cbn in *. by subst. }
    split_and!; try done. by apply Heq.
Qed.

Lemma sockaddr_storage_roundtrip_witness :
  let a := SocketAddress_host 0xC0A80001 7551 in
  match SocketAddressFromSockAddrStorage (ToSockAddrStorage a).1 with
  | Some b =>
    ip_ b = ip_ a ∧ port_ b = port_ a ∧ hostname_ b = ""%string
    ∧ scope_id_ b = (match sa_family a with AF_INET6 => scope_id_ a | _ => 0 end)
    ∧ (IPIsAny (ip_ a) = false ∨ hostname_ a = ""%string → sa_eqb b a = true)
  | None => sa_family a = AF_UNSPEC ∧ (ToSockAddrStorage a).2 = 0
  end.
Proof. exact (sockaddr_storage_roundtrip (SocketAddress_host 0xC0A80001 7551) (SocketAddress_host_wf _ _)). Defined.

(** The hash agrees with [operator==]: equal addresses hash alike. *)
Theorem sockaddr_hash_respects_equality a b :
  sa_wf a → sa_wf b → sa_eqb a b = true → Hash a = Hash b.
Proof.
  intros [Ha _] [Hb _]. unfold sa_eqb, EqualIPs, EqualPorts, Hash.
  intros [[Hi _]%andb_true_iff Hp]%andb_true_iff.
  apply ip_eqb_wf in Hi as ->; [|done..]. by apply Z.eqb_eq in Hp as ->.
Qed.

Lemma sockaddr_hash_respects_equality_witness :
  Hash (SocketAddress_host 0xC0A80001 7551) = Hash (SetScopeID 3 (SocketAddress_host 0xC0A80001 7551)).
Proof.
  apply (sockaddr_hash_respects_equality (SocketAddress_host 0xC0A80001 7551)
    (SetScopeID 3 (SocketAddress_host 0xC0A80001 7551)));
    [apply SocketAddress_host_wf | apply SocketAddress_host_wf | reflexivity].
Defined.

(** ** Text *)

Lemma chars_app s t : chars (s ++ t)%string = chars s ++ chars t.
Proof.
  unfold chars. induction s as [|c s IH]; [done|]. change (String c s ++ t)%string with (String c (s ++ t)%string).
  cbn. f_equal. exact IH.
Qed.

Lemma string_of_chars_chars s : string_of_chars (chars s) = s.
Proof.
  unfold string_of_chars, chars. rewrite <- list_fmap_compose.
  rewrite <- (String.string_of_list_ascii_of_string s) at 2. f_equal.
  induction (list_ascii_of_string s) as [|c l IH]; cbn; [done|]. rewrite IH, N2Z.id. f_equal. apply Ascii.ascii_N_embedding.
Qed.

Lemma sb_build_fits cap pieces :
  (length (concat pieces) < cap)%nat → Forall (λ c, c ≠ 0) (concat pieces) →
  sb_build cap pieces = string_of_chars (concat pieces).
Proof.
  intros Hl Hz. unfold sb_build. enough (∀ buf, (length buf + length (concat pieces) < cap)%nat →
    fold_left (sb_append cap) pieces buf = buf ++ concat pieces) as Hfold.
  { rewrite Hfold by (cbn; lia). cbn [app]. by rewrite c_chars_nonzero. }
  clear Hl Hz. induction pieces as [|p pieces IH]; intros buf Hl; cbn in *; [by rewrite app_nil_r|].
  rewrite length_app in Hl. unfold sb_append at 2. rewrite take_ge by lia. rewrite IH by (rewrite length_app; lia).
  by rewrite app_assoc.
Qed.

Lemma print_dec_port n : uint 16 n →
  Forall (digit_ok 10) (print_dec n) ∧ digits_value 10 (print_dec n) = n ∧ (0 < length (print_dec n) ≤ 5)%nat.
Proof.
  unfold uint, print_dec. intros Hn. destruct (print_base_ok 10 ltac:(lia) 20 n ltac:(lia) ltac:(lia)) as (H1 & H2 & H3).
  split_and!; try done. apply print_base_length; lia.
Qed.

Lemma strtoul_print n : uint 16 n → strtoul (print_dec n) = n.
Proof.
  intros Hn. destruct (print_dec_port n Hn) as (Hok & Hval & Hlen). unfold uint in Hn.
  destruct (print_dec n) as [|c l] eqn:E; [cbn in Hlen; lia|].
  assert (Forall (λ c, isdigit c = true) (c :: l)) as Hd.
  { eapply Forall_impl; [exact Hok|]. intros x Hx. apply (digit_ok_val 10 x ltac:(lia) Hx). lia. }
  assert (span isdigit (c :: l) = (c :: l, [])) as Hs by (rewrite <- (app_nil_r (c :: l)) at 1; by apply span_app).
  assert (isspace c = false ∧ (c =? 45) = false ∧ (c =? 43) = false) as (H1 & H2 & H3).
  { apply list.Forall_cons in Hd as [Hc _]. unfold isdigit, isspace in *. lia. }
  unfold strtoul. cbn [span]. rewrite H1, H2, H3. cbn [span] in Hs |- *. rewrite Hs. cbn [fst].
  rewrite Hval. destruct (Z.ltb_spec (2 ^ 32 - 1) n); lia.
Qed.

(** The characters of a port: digits. *)
Lemma port_chars n : uint 16 n → Forall (λ c, 48 ≤ c ≤ 57) (print_dec n).
Proof.
  intros Hn. destruct (print_dec_port n Hn) as (Hok & _). eapply Forall_impl; [exact Hok|]. intros c Hc.
  destruct (digit_ok_val 10 c ltac:(lia) Hc) as (_ & Hd & _). specialize (Hd ltac:(lia)). unfold isdigit in Hd. lia.
Qed.

Section TextRoundTrip.
Context (a : SocketAddress) (Ha : sa_wf a) (Hnum : literal_ a = true ∨ hostname_ a = ""%string)
        (Hf : family_ (ip_ a) ≠ AF_UNSPEC).

Definition bracketed (l : list Z) : list Z :=
  match family_ (ip_ a) with AF_INET6 => 91 :: l ++ [93] | _ => l end.

Lemma HostAsURIString_chars : chars (HostAsURIString a) = bracketed (ip_text (ip_ a)).
Proof using Ha Hf Hnum.
  destruct Ha as [Hip _]. unfold HostAsURIString, host_as_uri, bracketed.
  assert (negb (literal_ a) && negb (hostname_ a =? "")%string = false) as ->.
  { destruct Hnum as [-> | ->]; [done|]. by rewrite andb_false_r. }
  destruct (family_ (ip_ a)); rewrite ?chars_app, ?ToString_chars; done.
Qed.

Lemma socket_text : chars (SocketAddress_ToString a) = bracketed (ip_text (ip_ a)) ++ chr_colon :: print_dec (port_ a).
Proof using Ha Hf Hnum.
  destruct Ha as [Hip Hp]. destruct (ip_text_chars _ Hip) as [Hc Hl]. destruct (print_dec_port _ Hp) as (_ & _ & Hpl).
  destruct (ip_chars_bytes _ Hc) as [Hb Hz]. pose proof (port_chars _ Hp) as Hpc.
  assert ((length (bracketed (ip_text (ip_ a))) ≤ 41)%nat ∧ bytes_ok (bracketed (ip_text (ip_ a)))
    ∧ Forall (λ c, c ≠ 0) (bracketed (ip_text (ip_ a)))) as (Bl & Bb & Bz).
  { unfold bracketed. destruct (family_ (ip_ a)); cbn [length]; rewrite ?length_app; cbn [length]; split_and!; try done; try lia;
      (constructor; [done|]; apply Forall_app; split; [done|by repeat constructor]). }
  assert (Forall (λ c, c ≠ 0) (print_dec (port_ a)) ∧ bytes_ok (print_dec (port_ a))) as [Pz Pb].
  { split; (eapply Forall_impl; [exact Hpc|]); intros c Hc'; cbn in *; unfold byte_ok; lia. }
  unfold SocketAddress_ToString. rewrite HostAsURIString_chars, sb_build_fits; cbn [concat app]; rewrite app_nil_r.
  - apply chars_string_of_chars. apply Forall_app. split; [done|]. by constructor.
  - rewrite length_app. cbn [length]. lia.
  - apply Forall_app. split; [done|]. by constructor.
Qed.

Lemma FromString_text b :
  FromString (SocketAddress_ToString a) b
  = Some (SetIP_name (IpAddress.ToString (ip_ a)) (SetPort (port_ a) b), true).
Proof using Ha Hf Hnum.
  pose proof Ha as [Hip Hp]. destruct (ip_text_chars _ Hip) as [Hc Hl]. pose proof (port_chars _ Hp) as Hpc.
  assert (c_chars (print_dec (port_ a)) = print_dec (port_ a)) as Ec.
  { apply c_chars_nonzero. eapply Forall_impl; [exact Hpc|]. cbn. intros. lia. }
  assert (string_of_chars (ip_text (ip_ a)) = IpAddress.ToString (ip_ a)) as Es.
  { by rewrite <- ToString_chars, string_of_chars_chars. }
  unfold FromString. rewrite socket_text. unfold bracketed.
  destruct (family_ (ip_ a)) eqn:Ef; [done|..].
  - unfold ip_text. rewrite Ef. unfold ip_text in Es. rewrite Ef in Es.
    destruct (ntop_v4_chars (ipv4_address (ip_ a))) as (H4 & _ & _ & Hne); auto with cpp.
    destruct (dotted_quad (ipv4_address (ip_ a))) as [|c l] eqn:Eq; [done|]. cbn [app].
    assert ((c =? 91) = false) as ->.
    { apply list.Forall_cons in H4 as [Hv _]. unfold v4_char, chr_dot in Hv. lia. }
    change (c :: l ++ chr_colon :: print_dec (port_ a)) with ((c :: l) ++ chr_colon :: print_dec (port_ a)).
    rewrite has_char_some by (apply v4_chars_not; auto). cbv zeta. rewrite length_app. cbn [length].
    replace (S (length l) + S (length (print_dec (port_ a))) - length (print_dec (port_ a)) - 1)%nat
      with (length (c :: l)) by (cbn [length]; lia).
    rewrite take_app_length, Ec, Es, strtoul_print; done.
  - cbn [app]. rewrite Z.eqb_refl.
    assert (91 :: (ip_text (ip_ a) ++ [93]) ++ chr_colon :: print_dec (port_ a)
      = (91 :: ip_text (ip_ a)) ++ 93 :: chr_colon :: print_dec (port_ a)) as ->.
    { cbn [app]. by rewrite <- app_assoc. }
    rewrite before_last_app, drop_app_length.
    + change (after_char chr_colon (93 :: chr_colon :: print_dec (port_ a))) with (Some (print_dec (port_ a))).
      change (drop 1 (91 :: ip_text (ip_ a))) with (ip_text (ip_ a)). cbv beta match. by rewrite Ec, Es, strtoul_print.
    + constructor; [done|]. eapply Forall_impl; [exact Hpc|]. cbn. intros. lia.
Qed.
End TextRoundTrip.

(** Reading back the text of a socket address that stands for an IP address gives the same
    IP address and port, with the address's text as its literal host name: the text form
    loses nothing but the scope. *)
Theorem sockaddr_text_roundtrip a b :
  sa_wf a → literal_ a = true ∨ hostname_ a = ""%string → sa_family a ≠ AF_UNSPEC →
  FromString (SocketAddress_ToString a) b
  = Some (mkSA (IpAddress.ToString (ip_ a)) (ip_ a) (port_ a) 0 true, true).
Proof.
  intros Ha Hnum Hf. rewrite FromString_text by done. destruct Ha as [Hip Hp].
  unfold SetIP_name. rewrite IPFromString_ToString by done. unfold SetPort. cbn. by rewrite wrap_small.
Qed.

Lemma sockaddr_text_roundtrip_witness :
  let a := SocketAddress_ip (IPAddress_v6 (zeros 15 ++ [1])) 7551 in
  SocketAddress_ToString a = "[::1]:7551"%string
  ∧ FromString (SocketAddress_ToString a) Clear = Some (mkSA "::1" (IPAddress_v6 (zeros 15 ++ [1])) 7551 0 true, true).
Proof.
  split; [by vm_compute|].
  apply (sockaddr_text_roundtrip (SocketAddress_ip (IPAddress_v6 (zeros 15 ++ [1])) 7551) Clear); [|by right|done].
  split; [|done]. split_and!; [done | repeat constructor; done | done].
Defined.

(** The unusual texts [FromString] meets: an empty one raises an exception; one with an
    opening bracket that is never closed is reported as read although nothing is set; a port
    is taken modulo 65536, whatever follows it is ignored, and no number at all is port 0. *)
Theorem from_string_corner_cases a :
  FromString "" a = None
  ∧ FromString "[::1:80" a = Some (a, true)
  ∧ FromString "[::1]" a = Some (a, false)
  ∧ FromString "localhost" a = Some (a, false)
  ∧ (∃ b, FromString "10.0.0.1:65616x" a = Some (b, true) ∧ port_ b = 80 ∧ ip b = 0x0A000001)
  ∧ (∃ b, FromString "host:" a = Some (b, true) ∧ port_ b = 0 ∧ hostname_ b = "host"%string ∧ IsUnresolvedIP b = true).
Proof. split_and!; try done; (eexists; split; [by vm_compute|]; by vm_compute). Qed.
