(* ===== verification/PeerTable.v ===== *)
(** * network/PeerRecordTable: the peers seen on the LAN

    The class keeps two maps: [mExclusiveTable], behind a mutex, which
    [RemoveExpiredRecords] prunes, and [mPeerRecordTable], which every lookup
    and every insertion uses.  A call reads the clock once ([now], nanoseconds of
    the steady clock) and a [std::map] is traversed in key order. *)

From S2P Require Import Prelude Utils IpAddress SocketAddress.

Abbreviation NetworkID := Z (only parsing).
Definition seconds (s : Z) : Z := s * 1000000000.
(** [duration_cast] truncates towards zero. *)
Definition to_seconds (d : Z) : Z := Z.quot d 1000000000.

Record PeerRecord := mkPeerRecord {
  mRemoteId : NetworkID;
  mLastActiveTime : Z;
  mRemoteAddress : SocketAddress
}.

Record PeerRecordTable := mkTable {
  mExclusiveTable : ThreadSafe (gmap Z PeerRecord);
  mPeerRecordTable : gmap Z PeerRecord
}.

#[export] Instance PeerRecord_eta : Eta PeerRecord := λ r,
  mkPeerRecord (mRemoteId r) (mLastActiveTime r) (mRemoteAddress r).
#[export] Instance PeerRecordTable_eta : Eta PeerRecordTable := λ t,
  mkTable (mExclusiveTable t) (mPeerRecordTable t).

(** The records of a map in the order of a traversal. *)
Definition key_le (a b : Z * PeerRecord) : Prop := a.1 ≤ b.1.
#[export] Instance key_le_dec : RelDecision key_le.
Proof. intros a b. unfold key_le. apply _. Defined.
Definition in_key_order (m : gmap Z PeerRecord) : list (Z * PeerRecord) :=
  merge_sort key_le (map_to_list m).

Definition expired (now : Z) (r : PeerRecord) : bool :=
  negb (to_seconds (now - mLastActiveTime r) <=? 60).

(** [RemoveExpiredRecords] erases an expired element inside a range-for: the
    loop then advances the iterator of the erased element. *)
Fixpoint remove_loop (now : Z) (l : list (Z * PeerRecord)) : M (gmap Z PeerRecord) unit :=
  match l with
  | [] => ret tt
  | (k, r) :: l' =>
    if expired now r then modify (delete k) ;; undef IterInvalid
    else remove_loop now l'
  end.
Definition RemoveExpiredRecords (now : Z) : M (gmap Z PeerRecord) unit :=
  let! table := get in remove_loop now (in_key_order table).

(** The call every operation starts with, on the exclusive table. *)
Definition prune (now : Z) : M PeerRecordTable unit :=
  lift mExclusiveTable (λ e t, t <| mExclusiveTable := e |>) (with_view (RemoveExpiredRecords now)).

Definition Find (now : Z) (id : NetworkID) : M PeerRecordTable (option SocketAddress) :=
  prune now ;;
  let! table := gets mPeerRecordTable in
  match table !! id with
  | Some record => ret (Some (mRemoteAddress record))
  | None => ret None
  end.

Definition Contains (now : Z) (id : NetworkID) : M PeerRecordTable bool :=
  prune now ;;
  let! table := gets mPeerRecordTable in
  ret (bool_decide (is_Some (table !! id))).

Definition AddOrUpdate (now : Z) (networkID : NetworkID) (address : SocketAddress) :
    M PeerRecordTable bool :=
  prune now ;;
  let! table := gets mPeerRecordTable in
  match table !! networkID with
  | None =>
    when (bool_decide (table !! networkID = None))
      (modify (λ t, t <| mPeerRecordTable := <[networkID := mkPeerRecord networkID now address]> table |>)) ;;
    ret true
  | Some record =>
    modify (λ t, t <| mPeerRecordTable := <[networkID :=
      record <| mRemoteAddress := address |> <| mLastActiveTime := now |>]> table |>) ;;
    ret false
  end.

Definition PeerRecordTable_new : PeerRecordTable := mkTable (mkTS ∅ false) ∅.

(** ** Pruning *)

Lemma remove_loop_fresh now l m :
  Forall (λ p, expired now p.2 = false) l → remove_loop now l m = Ret tt m.
Proof. induction 1 as [|[k r] l Hr Hl IH]; cbn in *; [done|]. by rewrite Hr. Qed.

Lemma remove_loop_expired now l m :
  Exists (λ p, expired now p.2 = true) l → ∃ k r,
    (k, r) ∈ l ∧ expired now r = true ∧ remove_loop now l m = Undef IterInvalid (delete k m).
Proof.
  induction l as [|[k r] l IH]; [by inversion 1|]. cbn. destruct (expired now r) eqn:E.
  - intros _. exists k, r. split; [by left|]. done.
  - intros [?|(k' & r' & Hin & He & Hr)%IH]%Exists_cons; [cbn in *; congruence|].
    exists k', r'. split; [by right|]. done.
Qed.

Lemma elem_of_in_key_order m k r : (k, r) ∈ in_key_order m ↔ m !! k = Some r.
Proof.
  unfold in_key_order. rewrite merge_sort_Permutation. apply elem_of_map_to_list.
Qed.

Lemma prune_empty now t :
  mExclusiveTable t = mkTS ∅ false → prune now t = Ret tt t.
Proof. intros H. unfold prune; cbn. rewrite H. cbn. destruct t; cbn in *. by subst. Qed.

(** ** The abstract directory

    What the LAN component relies on: a map from identifiers to addresses, and
    operations that follow it and leave the table usable. *)

Class PeerDirectory (T : Type) := {
  pd_add : Z → Z → SocketAddress → M T bool;
  pd_find : Z → Z → M T (option SocketAddress);
  pd_contains : Z → Z → M T bool;
  (** [pd_rep t m]: the table [t] stands for the directory [m]. *)
  pd_rep : T → gmap Z SocketAddress → Prop
}.

Class PeerDirectoryLaws (T : Type) `{PeerDirectory T} := {
  pd_add_spec : ∀ now id addr t m, pd_rep t m →
    wp (pd_add now id addr) (λ b t', b = bool_decide (m !! id = None) ∧ pd_rep t' (<[id := addr]> m)) t;
  pd_find_spec : ∀ now id t m, pd_rep t m →
    wp (pd_find now id) (λ r t', r = m !! id ∧ t' = t) t;
  pd_contains_spec : ∀ now id t m, pd_rep t m →
    wp (pd_contains now id) (λ b t', b = bool_decide (is_Some (m !! id)) ∧ t' = t) t
}.

Definition table_rep (t : PeerRecordTable) (m : gmap Z SocketAddress) : Prop :=
  mExclusiveTable t = mkTS ∅ false ∧ mRemoteAddress <$> mPeerRecordTable t = m.

Lemma AddOrUpdate_spec now id addr t m :
  table_rep t m →
  wp (AddOrUpdate now id addr)
    (λ b t', b = bool_decide (m !! id = None) ∧ table_rep t' (<[id := addr]> m)) t.
Proof.
  intros [He <-]. unfold wp, AddOrUpdate; cbn. rewrite prune_empty by done. rewrite lookup_fmap.
  destruct (mPeerRecordTable t !! id) as [r|] eqn:E; cbn;
    (split; [done|]; split; [done|]; cbn; by rewrite fmap_insert).
Qed.

Lemma Find_spec now id t m :
  table_rep t m → wp (Find now id) (λ r t', r = m !! id ∧ t' = t) t.
Proof.
  intros [He <-]. unfold wp, Find; cbn. rewrite prune_empty by done. rewrite lookup_fmap.
  by destruct (mPeerRecordTable t !! id).
Qed.

Lemma Contains_spec now id t m :
  table_rep t m → wp (Contains now id) (λ b t', b = bool_decide (is_Some (m !! id)) ∧ t' = t) t.
Proof.
  intros [He <-]. unfold wp, Contains; cbn. rewrite prune_empty by done. split; [|done].
  apply bool_decide_ext. by rewrite lookup_fmap, fmap_is_Some.
Qed.

#[export] Instance PeerRecordTable_directory : PeerDirectory PeerRecordTable := {
  pd_add := AddOrUpdate;
  pd_find := Find;
  pd_contains := Contains;
  pd_rep := table_rep
}.

#[export] Instance PeerRecordTable_directory_laws : PeerDirectoryLaws PeerRecordTable.
Proof. split; eauto using AddOrUpdate_spec, Find_spec, Contains_spec. Qed.

(** ** Sequences of operations *)

Inductive table_op :=
| OpAdd (now : Z) (id : NetworkID) (address : SocketAddress)
| OpFind (now : Z) (id : NetworkID)
| OpContains (now : Z) (id : NetworkID).

Definition run_op (o : table_op) : M PeerRecordTable unit :=
  match o with
  | OpAdd now id a => AddOrUpdate now id a ;; ret tt
  | OpFind now id => Find now id ;; ret tt
  | OpContains now id => Contains now id ;; ret tt
  end.

(** The directory a sequence of operations describes: the last address added. *)
Definition spec_op (m : gmap Z SocketAddress) (o : table_op) : gmap Z SocketAddress :=
  match o with OpAdd _ id a => <[id := a]> m | _ => m end.

Lemma run_op_rep o t m : table_rep t m → wp (run_op o) (λ _ t', table_rep t' (spec_op m o)) t.
Proof.
  intros Hr. destruct o as [now id a|now id|now id]; apply wp_bind.
  - eapply wp_mono, (AddOrUpdate_spec now id a t m Hr). intros b t' [_ ?]. done.
  - eapply wp_mono, (Find_spec now id t m Hr). by intros b t' [_ ->].
  - eapply wp_mono, (Contains_spec now id t m Hr). by intros b t' [_ ->].
Qed.

(** After any sequence of operations the table stands for the directory the
    sequence describes. *)
Lemma run_ops_rep ops t m :
  table_rep t m → wp (for_each run_op ops) (λ _ t', table_rep t' (foldl spec_op m ops)) t.
Proof.
  revert t m. induction ops as [|o ops IH]; intros t m Hr; [done|].
  apply wp_bind. eapply wp_mono, run_op_rep, Hr. intros [] t' Hr'. by apply IH.
Qed.

(** C28: the peer table refines a map from identifiers to addresses: after any
    sequence of operations at any times, no operation is undefined, [Find] returns
    the last address added under the identifier, [Contains] says whether there is
    one, and [AddOrUpdate] returns true exactly for a new identifier. *)
Theorem peer_table_refines_map ops now id addr :
  wp (for_each run_op ops) (λ _ t,
    let m := foldl spec_op ∅ ops in
    wp (Find now id) (λ r _, r = m !! id) t
    ∧ wp (Contains now id) (λ b _, b = bool_decide (is_Some (m !! id))) t
    ∧ wp (AddOrUpdate now id addr) (λ b t', b = bool_decide (m !! id = None)
        ∧ wp (Find now id) (λ r _, r = Some addr) t') t) PeerRecordTable_new.
Proof.
  eapply wp_mono, (run_ops_rep ops _ ∅); [|split; [done | apply fmap_empty]].
  intros [] t Hr. set (m := foldl spec_op ∅ ops) in *. split_and!.
  - eapply wp_mono, (Find_spec now id t m Hr). by intros ?? [-> _].
  - eapply wp_mono, (Contains_spec now id t m Hr). by intros ?? [-> _].
  - eapply wp_mono, (AddOrUpdate_spec now id addr t m Hr). intros b t' [-> Hr']. split; [done|].
    eapply wp_mono, (Find_spec now id t' _ Hr'). intros r t'' [-> _]. by rewrite lookup_insert_eq.
Qed.

(** nothing ever expires: the pruning works on the other map, so a peer
    stays known, with its address, after any time of inactivity (the message of the
    pruning code announces removal after 60 seconds). *)
Theorem peer_never_expires t m id addr now later :
  table_rep t m →
  wp (AddOrUpdate now id addr) (λ _ t',
    wp (Contains (now + later) id) (λ b t'', b = true
      ∧ wp (Find (now + later) id) (λ r _, r = Some addr) t'') t') t.
Proof.
  intros Hr. eapply wp_mono, (AddOrUpdate_spec now id addr t m Hr). intros b t' [_ Hr'].
  eapply wp_mono, (Contains_spec (now + later) id t' _ Hr'). intros b' t'' [-> ->].
  rewrite lookup_insert_eq. split; [by rewrite bool_decide_eq_true|].
  eapply wp_mono, (Find_spec (now + later) id t' _ Hr'). intros r ? [-> _].
  by rewrite lookup_insert_eq.
Qed.

Lemma peer_never_expires_witness :
  wp (AddOrUpdate 0 7 (SocketAddress_host 0xC0A80001 7551)) (λ _ t',
    wp (Contains (0 + seconds 86400) 7) (λ b t'', b = true
      ∧ wp (Find (0 + seconds 86400) 7) (λ r _, r = Some (SocketAddress_host 0xC0A80001 7551)) t'') t')
    PeerRecordTable_new.
Proof.
  apply (peer_never_expires PeerRecordTable_new ∅ 7 (SocketAddress_host 0xC0A80001 7551) 0 (seconds 86400)).
  split; [reflexivity | apply fmap_empty].
Defined.

(** pruning itself is undefined as soon as there is something to prune: with an
    expired record (inactive for more than 60 whole seconds) in the exclusive table the
    loop erases one and advances its dead iterator; with none, it changes nothing. *)
Theorem RemoveExpiredRecords_outcome now m :
  match RemoveExpiredRecords now m with
  | Ret _ m' => m' = m ∧ ∀ k r, m !! k = Some r → expired now r = false
  | Undef f m' => f = IterInvalid ∧ ∃ k r, m !! k = Some r ∧ expired now r = true ∧ m' = delete k m
  | _ => False
  end.
Proof.
  unfold RemoveExpiredRecords; cbn.
  destruct (decide (Exists (λ p, expired now p.2 = true) (in_key_order m))) as [Hex|Hno].
  - destruct (remove_loop_expired now (in_key_order m) m Hex) as (k & r & Hin & He & ->).
    split; [done|]. exists k, r. by rewrite <- elem_of_in_key_order.
  - apply not_Exists_Forall in Hno; [|intros p; apply _].
    rewrite remove_loop_fresh; [split; [done|] |].
    + intros k r Hk%elem_of_in_key_order. rewrite Forall_forall in Hno.
      apply not_true_is_false, (Hno _ Hk).
    + eapply Forall_impl; [done|]. intros p Hp. by apply not_true_is_false.
Qed.
