(* ===== verification/Packets.v ===== *)
(** * network/packets/: the LAN discovery packets

    The three packet classes as the records their constructors fill, the copy of
    the payload into the fixed array (an out-of-range copy is undefined), and the
    bytes an object occupies in memory, because [SendLanBroadcastRequest] sends the
    object itself and [OnPacket] reads received bytes at fixed offsets.  Arrays are
    not initialised by the constructors: their previous contents are a parameter. *)

From S2P Require Import Prelude Enums.

Record DiscoveryPacketHeader := mkHeader { mPacketLen : Z; mPacketType : DiscoveryPacketType }.
Record DiscoveryPacket := mkPacket { pkt_header : DiscoveryPacketHeader; mSenderId : Z }.

Definition DiscoveryPacketHeader_new (type : DiscoveryPacketType) (len : Z) : DiscoveryPacketHeader :=
  mkHeader len type.
(** The length parameter is a [uint16_t]: a wider argument is truncated. *)
Definition DiscoveryPacket_new (senderId : Z) (type : DiscoveryPacketType) (len : Z) : DiscoveryPacket :=
  mkPacket (DiscoveryPacketHeader_new type (wrap 16 len)) senderId.

Definition PacketLength (p : DiscoveryPacket) : Z := mPacketLen (pkt_header p).
Definition PacketType (p : DiscoveryPacket) : DiscoveryPacketType := mPacketType (pkt_header p).
Definition SenderId (p : DiscoveryPacket) : Z := mSenderId p.

(** [memcpy(dst.data(), src.data(), n)] into an array: undefined past its end or
    past the end of the source. *)
Definition memcpy {S} (dst src : list Z) (n : nat) : M S (list Z) :=
  if ((n <=? length dst) && (n <=? length src))%nat then ret (take n src ++ drop n dst)
  else undef OutOfBounds.

(** ** DiscoveryRequestPacket *)

Record DiscoveryRequestPacket := mkRequest { req_base : DiscoveryPacket; mId : Z }.
Definition DiscoveryRequestPacket_new (id : Z) : DiscoveryRequestPacket :=
  mkRequest (DiscoveryPacket_new id PacketRequest 20) id.

(** ** DiscoveryResponsePacket *)

Definition GetResponsePacketLength (data_len : Z) : Z := wrap 32 (Z.min data_len 1148).
Definition GetResponsePayloadSize (size : Z) : Z := wrap 32 (Z.min size 1148).

Record DiscoveryResponsePacket := mkResponse {
  resp_base : DiscoveryPacket;
  resp_mMessageSize : Z;
  resp_mMessageData : list Z
}.

Definition DiscoveryResponsePacket_new {S} (array : list Z) (id : Z) (data : list Z) :
    M S DiscoveryResponsePacket :=
  let len := Z.of_nat (length data) in
  let base := DiscoveryPacket_new id PacketResponse (GetResponsePacketLength len) in
  let size := GetResponsePayloadSize len in
  let! bytes := memcpy array data (Z.to_nat size) in
  ret (mkResponse base size bytes).

Definition ApplicationData (p : DiscoveryResponsePacket) : list Z :=
  take (Z.to_nat (resp_mMessageSize p)) (resp_mMessageData p).

(** ** DiscoveryMessagePacket *)

Record DiscoveryMessagePacket := mkMessage {
  msg_base : DiscoveryPacket;
  mRecipientId : Z;
  mMessageSize : Z;
  mMessageData : list Z
}.

Definition DiscoveryMessagePacket_new {S} (array : list Z) (senderId recipientId : Z) (message : list Z) :
    M S DiscoveryMessagePacket :=
  let len := Z.of_nat (length message) in
  let base := DiscoveryPacket_new senderId PacketMessage len in
  let size := wrap 32 len in
  let! bytes := memcpy array message (Z.to_nat size) in
  ret (mkMessage base recipientId size bytes).

(** [MessageData] views [mMessageSize] bytes of the 1140-byte array. *)
Definition MessageData (p : DiscoveryMessagePacket) : list Z :=
  take (Z.to_nat (mMessageSize p)) (mMessageData p).
Definition RecipientId (p : DiscoveryMessagePacket) : Z := mRecipientId p.

(** ** Objects in memory

    Members are placed at the next multiple of their alignment (base class first),
    as both the Microsoft and the Itanium x86-64 conventions do; the source uses no
    packing pragma. *)

Definition align_up (off align : Z) : Z := (off + align - 1) / align * align.

(** Offsets of members given by size and alignment, from the end of the base. *)
Fixpoint member_offsets (off : Z) (members : list (Z * Z)) : list Z :=
  match members with
  | [] => []
  | (size, align) :: ms => let o := align_up off align in o :: member_offsets (o + size) ms
  end.

Definition header_offsets : list Z := member_offsets 0 [(2, 2); (2, 2)].
Definition packet_offsets : list Z := member_offsets 4 [(8, 8)].
Definition request_offsets : list Z := member_offsets 16 [(8, 8)].
Definition response_offsets : list Z := member_offsets 16 [(4, 4); (1148, 1)].
Definition message_offsets : list Z := member_offsets 16 [(8, 8); (4, 4); (1140, 1)].

(** Write bytes over a region of an object. *)
Definition store (off : Z) (bs : list Z) (mem : list Z) : list Z :=
  let o := Z.to_nat off in take o mem ++ bs ++ drop (o + length bs) mem.

(** The previous contents of a message array whose bytes are not read. *)
Definition unread_array : list Z := replicate 1140 0.
Arguments unread_array : simpl never.

(** The 24 bytes of a request object over the previous contents of its storage. *)
Definition request_image (mem : list Z) (p : DiscoveryRequestPacket) : list Z :=
  store 16 (le_split 8 (mId p))
    (store 8 (le_split 8 (SenderId (req_base p)))
      (store 2 (le_split 2 (enum_val (PacketType (req_base p))))
        (store 0 (le_split 2 (PacketLength (req_base p))) mem))).

(** The fields [OnPacket] reads: [PacketLength] of the header, the type at
    [data + 2] and the network id at [data + 4]. *)
Definition wire_length (data : list Z) : Z := le_combine (take 2 data).
Definition wire_type (data : list Z) : Z := le_combine (take 2 (drop 2 data)).
Definition wire_network_id (data : list Z) : Z := le_combine (take 8 (drop 4 data)).

(** ** Lemmas *)

Lemma memcpy_ok {S} dst src n (s : S) :
  (n ≤ length dst)%nat → (n ≤ length src)%nat →
  memcpy dst src n s = Ret (take n src ++ drop n dst) s.
Proof.
  intros H1 H2. unfold memcpy. apply Nat.leb_le in H1, H2. by rewrite H1, H2.
Qed.

Lemma memcpy_overflow {S} dst src n (s : S) :
  (length dst < n)%nat → memcpy dst src n s = Undef OutOfBounds s.
Proof. intros H. unfold memcpy. by apply Nat.leb_gt in H as ->. Qed.

Lemma response_packet_ok {S} (array : list Z) id data (s : S) :
  length array = 1148%nat →
  wp (DiscoveryResponsePacket_new array id data) (λ p s',
    s' = s ∧ ApplicationData p = take 1148 data
    ∧ PacketLength (resp_base p) = resp_mMessageSize p
    ∧ resp_mMessageSize p = Z.of_nat (length (ApplicationData p))
    ∧ PacketType (resp_base p) = PacketResponse ∧ SenderId (resp_base p) = id) s.
Proof.
  intros Ha. unfold wp, DiscoveryResponsePacket_new, ApplicationData; cbn.
  unfold GetResponsePayloadSize, GetResponsePacketLength.
  set (n := Z.to_nat (wrap 32 (Z.min (Z.of_nat (length data)) 1148))).
  assert (n = Nat.min 1148 (length data)) as Hn.
  { subst n. rewrite wrap_small by (unfold uint; lia). lia. }
  rewrite memcpy_ok by lia. cbn. fold n.
  assert (take n (take n data ++ drop n array) = take 1148 data) as Ht.
  { rewrite take_app_length' by (rewrite length_take; lia). rewrite Hn.
    destruct (Nat.le_gt_cases 1148 (length data)); [by rewrite Nat.min_l |].
    rewrite Nat.min_r, !take_ge by lia. done. }
  rewrite Ht. split_and!; try done.
  - change (wrap 16 (wrap 32 (Z.min (Z.of_nat (length data)) 1148))
      = wrap 32 (Z.min (Z.of_nat (length data)) 1148)).
    apply wrap_small. rewrite wrap_small; unfold uint; lia.
  - rewrite length_take. rewrite wrap_small by (unfold uint; lia). lia.
Qed.

(** the response packet accepts any application data: the payload is cut
    at 1148 bytes, never written past the array, read back by [ApplicationData], and
    the 16-bit packet length announced is exactly the size of the payload kept. *)
Theorem response_packet_payload {S} (array : list Z) id data (s : S) :
  length array = 1148%nat →
  wp (DiscoveryResponsePacket_new array id data) (λ p s',
    s' = s ∧ ApplicationData p = take 1148 data
    ∧ PacketLength (resp_base p) = resp_mMessageSize p
    ∧ resp_mMessageSize p = Z.of_nat (length (ApplicationData p))
    ∧ PacketType (resp_base p) = PacketResponse ∧ SenderId (resp_base p) = id) s.
Proof. apply response_packet_ok. Qed.

Lemma response_packet_payload_witness :
  wp (DiscoveryResponsePacket_new (replicate 1148 0) 7 [1; 2; 3]) (λ p s',
    s' = tt ∧ ApplicationData p = take 1148 [1; 2; 3]
    ∧ PacketLength (resp_base p) = resp_mMessageSize p
    ∧ resp_mMessageSize p = Z.of_nat (length (ApplicationData p))
    ∧ PacketType (resp_base p) = PacketResponse ∧ SenderId (resp_base p) = 7) tt.
Proof. exact (response_packet_payload (replicate 1148 0) 7 [1; 2; 3] tt eq_refl). Defined.

Lemma message_packet_ok {S} array src dst message (s : S) :
  length array = 1140%nat → (length message ≤ 1140)%nat →
  ∃ p, DiscoveryMessagePacket_new array src dst message s = Ret p s
    ∧ MessageData p = message ∧ RecipientId p = dst ∧ SenderId (msg_base p) = src
    ∧ PacketLength (msg_base p) = Z.of_nat (length message).
Proof.
  intros Ha Hlen. unfold DiscoveryMessagePacket_new; cbn.
  rewrite (wrap_small 32) by (unfold uint; lia). rewrite Nat2Z.id, memcpy_ok by lia. cbn.
  eexists. split; [done|]. unfold MessageData; cbn.
  rewrite Nat2Z.id, take_app_length' by (rewrite length_take; lia). rewrite take_ge by lia.
  split_and!; try done. apply wrap_small. unfold uint. lia.
Qed.

(** the message packet round-trips a message that fits its 1140-byte
    array, with the recipient, the sender and the announced length; a longer message
    (below 2^32 bytes) is copied past the end of the array. *)
Theorem message_packet_payload {S} (array : list Z) src dst message (s : S) :
  length array = 1140%nat → Z.of_nat (length message) < 2 ^ 32 →
  if (length message <=? 1140)%nat then
    wp (DiscoveryMessagePacket_new array src dst message) (λ p s',
      s' = s ∧ MessageData p = message ∧ RecipientId p = dst ∧ SenderId (msg_base p) = src
      ∧ PacketLength (msg_base p) = Z.of_nat (length message)) s
  else DiscoveryMessagePacket_new array src dst message s = Undef OutOfBounds s.
Proof.
  intros Ha Hlen. destruct (Nat.leb_spec (length message) 1140) as [Hle|Hgt].
  - destruct (message_packet_ok array src dst message s Ha Hle) as (p & E & Hp). unfold wp. by rewrite E.
  - unfold DiscoveryMessagePacket_new; cbn. rewrite (wrap_small 32) by (unfold uint; lia).
    by rewrite Nat2Z.id, memcpy_overflow by lia.
Qed.

Lemma message_packet_payload_witness :
  wp (DiscoveryMessagePacket_new (replicate 1140 0) 1 2 [80; 105; 110; 103]) (λ p s',
    s' = tt ∧ MessageData p = [80; 105; 110; 103] ∧ RecipientId p = 2 ∧ SenderId (msg_base p) = 1
    ∧ PacketLength (msg_base p) = Z.of_nat 4) tt.
Proof. exact (message_packet_payload (replicate 1140 0) 1 2 [80; 105; 110; 103] tt eq_refl eq_refl). Defined.

Lemma request_image_fields m0 m1 m2 m3 m4 m5 m6 m7 m8 m9 m10 m11 m12 m13 m14 m15 rest id :
  length rest = 8%nat →
  request_image ([m0; m1; m2; m3; m4; m5; m6; m7; m8; m9; m10; m11; m12; m13; m14; m15] ++ rest)
    (DiscoveryRequestPacket_new id)
  = [20; 0; 0; 0; m4; m5; m6; m7] ++ le_split 8 id ++ le_split 8 id.
Proof.
  intros Hr. unfold request_image, DiscoveryRequestPacket_new, DiscoveryPacket_new,
    DiscoveryPacketHeader_new, PacketLength, PacketType, SenderId.
  cbn [req_base pkt_header mPacketLen mPacketType mSenderId mId enum_val DiscoveryPacketType_enum].
  destruct rest as [|? [|? [|? [|? [|? [|? [|? [|? [|]]]]]]]]]; try discriminate. reflexivity.
Qed.

(** the request packet is sent as the memory of the object.  The receiver
    reads the length 20 and the type Request, but its network id straddles the four
    padding bytes at offset 4 and the low half of the sender: with zeroed padding it
    is the sender only when the sender is 0 (and then the packet is ignored). *)
Theorem request_packet_on_the_wire (mem : list Z) id :
  length mem = 24%nat → uint 64 id →
  let data := request_image mem (DiscoveryRequestPacket_new id) in
  length data = 24%nat ∧ wire_length data = 20 ∧ wire_type data = enum_val PacketRequest
  ∧ wire_network_id data = le_combine (take 4 (drop 4 mem)) + 2 ^ 32 * (id mod 2 ^ 32)
  ∧ (take 4 (drop 4 mem) = [0; 0; 0; 0] → wire_network_id data = id → id = 0).
Proof.
  intros Hm Hid. cbn zeta.
  do 16 (destruct mem as [|? mem]; [discriminate|]).
  assert (length mem = 8%nat) as Hr by (cbn in Hm; lia).
  pose proof (request_image_fields z z0 z1 z2 z3 z4 z5 z6 z7 z8 z9 z10 z11 z12 z13 z14 mem id Hr) as Hi.
  cbn [app] in Hi. rewrite Hi. clear Hi.
  split_and!; [reflexivity | reflexivity | reflexivity | |].
  - unfold wire_network_id. cbn [app take drop le_split].
    cbn [le_combine]. change (2 ^ 32) with (256 ^ Z.of_nat 4) at 2.
    rewrite <- (le_combine_split 4 id). cbn [le_split le_combine]. lia.
  - cbn [take drop]. intros [= -> -> -> ->]. unfold wire_network_id, uint in *.
    cbn [app take drop le_split le_combine]. intros Heq.
    pose proof (le_combine_split 4 id) as H4. cbn [le_split le_combine] in H4.
    pose proof (Z.div_mod id (256 ^ Z.of_nat 4)). change (256 ^ Z.of_nat 4) with (2 ^ 32) in *. lia.
Qed.

Lemma request_packet_on_the_wire_witness :
  wire_network_id (request_image (replicate 24 0) (DiscoveryRequestPacket_new 0x1122334455667788))
  = le_combine (take 4 (drop 4 (replicate 24 0))) + 2 ^ 32 * (0x1122334455667788 mod 2 ^ 32).
Proof.
  apply (request_packet_on_the_wire (replicate 24 0) 0x1122334455667788); [reflexivity|].
  unfold uint. lia.
Defined.

(** Offsets of the members under the platform's layout rules.  The
    comments of the headers place [mRecipientId] at 0x14, [mMessageSize] at 0x1C and
    the data at 0x20 (message), [mMessageSize] at 0x14 and the data at 0x18
    (response), and [OnPacket] expects the sender at 4: no member but the header's is
    there. *)
Theorem discovery_packet_layout :
  header_offsets = [0; 2] ∧ packet_offsets = [8] ∧ request_offsets = [16]
  ∧ message_offsets = [0x10; 0x18; 0x1C] ∧ response_offsets = [0x10; 0x14].
Proof. vm_compute. auto. Qed.
