(* ===== verification/Crypto.v ===== *)
(** * encryption/ and HNetherNet.cpp: the LAN envelope

    [AesContext] seals a datagram as HMAC-SHA256 of the plaintext followed by the
    AES-256-ECB ciphertext, and opens one; [OpenSSLAesAdapter] wraps a socket so
    that what goes through it is sealed and opened; [CreateKey] and
    [CreateEnvelope] derive the key from a 64-bit id.  OpenSSL is not part of the
    repository: its functions are the class [OpenSSL], its documented behaviour
    the class [OpenSSLLaws].  A [View] returned by [Seal] or [Open] points into
    [mOutputBuffer]; its callers read it before the next call, so it is returned
    as the bytes it shows. *)

From S2P Require Import Prelude Utils.

(** ** OpenSSL

    [succeeds n] tells whether the [n]th fallible call (context allocation, reset,
    initialisation, digest, HMAC) reports success, [ERR_get_error] returns
    [last_error n] after [n] calls.  The cipher functions give the bytes they write
    to their output for an input buffer and its [int] length, or report failure. *)
Class OpenSSL := {
  succeeds : nat → bool;
  last_error : nat → Z;
  sha256 : list Z → list Z;
  hmac_sha256 : list Z → list Z → list Z;
  encrypt_update : list Z → list Z → Z → option (list Z);
  encrypt_final : list Z → list Z → Z → option (list Z);
  decrypt_update : list Z → list Z → Z → option (list Z);
  decrypt_final : list Z → list Z → Z → option (list Z)
}.

(** [EVP_MD_size(EVP_sha256())], the block size of AES, its 256-bit key. *)
Definition EVP_MD_size : nat := 32.
Definition EVP_CIPHER_CTX_block_size : nat := 16.
Definition EVP_key_length : nat := 32.
Arguments EVP_MD_size : simpl never.
Arguments EVP_CIPHER_CTX_block_size : simpl never.
Arguments EVP_key_length : simpl never.

(** The value of a [size_t] converted to [int]. *)
Definition to_int (x : Z) : Z := let y := wrap 32 x in if y <? 2 ^ 31 then y else y - 2 ^ 32.

Class OpenSSLLaws `(OpenSSL) := {
  sha256_length d : length (sha256 d) = EVP_MD_size;
  hmac_length k d : length (hmac_sha256 k d) = EVP_MD_size;
  encrypt_valid k d :
    length k = EVP_key_length →
    is_Some (encrypt_update k d (Z.of_nat (length d)))
    ∧ is_Some (encrypt_final k d (Z.of_nat (length d)));
  encrypt_update_length k d u :
    encrypt_update k d (Z.of_nat (length d)) = Some u →
    (length u + 1 ≤ length d + EVP_CIPHER_CTX_block_size)%nat;
  encrypt_final_length k d n f :
    encrypt_final k d n = Some f → (length f ≤ EVP_CIPHER_CTX_block_size)%nat;
  decrypt_update_length k c u :
    decrypt_update k c (Z.of_nat (length c)) = Some u →
    (length u ≤ length c + EVP_CIPHER_CTX_block_size)%nat;
  decrypt_final_length k c n f :
    decrypt_final k c n = Some f → (length f ≤ EVP_CIPHER_CTX_block_size)%nat;
  decrypt_shrinks k c u f :
    decrypt_update k c (Z.of_nat (length c)) = Some u →
    decrypt_final k c (Z.of_nat (length c)) = Some f →
    (length (u ++ f) ≤ length c)%nat;
  decrypt_encrypt k d u f :
    encrypt_update k d (Z.of_nat (length d)) = Some u →
    encrypt_final k d (Z.of_nat (length d)) = Some f →
    let c := u ++ f in
    ∃ u' f', decrypt_update k c (Z.of_nat (length c)) = Some u'
      ∧ decrypt_final k c (Z.of_nat (length c)) = Some f' ∧ u' ++ f' = d
}.

Record AesContext := mkAes { mKeyData : list Z; mOutputBuffer : list Z }.
#[export] Instance AesContext_eta : Eta AesContext := λ r, mkAes (mKeyData r) (mOutputBuffer r).

(** State of a method of [AesContext]: the object and the OpenSSL calls made. *)
Abbreviation AesState := (AesContext * nat)%type (only parsing).

Section AesContext.
Context `{OpenSSL}.

(** One fallible OpenSSL call. *)
Definition ssl_call : M nat bool := λ n, Ret (succeeds n) (S n).
Definition ERR_get_error : M nat Z := λ n, Ret (last_error n) n.

(** encryption/OpenSSLInterface.cpp: an error code of category OpenSSL; the
    [unsigned long] is narrowed to [int]. *)
Definition make_error_code (openssl_error : Z) : Z := to_int openssl_error.

Definition fail_with {A} : M nat (ErrorOr A Z) :=
  let! err := ERR_get_error in ret (result_error (make_error_code err)).

Definition on_ssl {A} (m : M nat A) : M AesState A :=
  lift snd (λ n s, (fst s, n)) m.
Definition aes {A} (f : AesContext → A) : M AesState A := gets (λ s, f (fst s)).
Definition aes_set (f : AesContext → AesContext) : M AesState unit :=
  modify (λ s, (f (fst s), snd s)).

(** A write into [mOutputBuffer] by an OpenSSL function. *)
Definition out_write (off : nat) (bs : list Z) : M AesState unit :=
  let! buf := aes mOutputBuffer in
  let! buf' := in_bounds (write_at off bs buf) in
  aes_set (λ c, c <| mOutputBuffer := buf' |>).

(** The cipher reads [EVP_key_length] bytes at [mKeyData.data()]. *)
Definition cipher_key : M AesState (list Z) :=
  let! k := aes mKeyData in
  if (EVP_key_length <=? length k)%nat then ret (take EVP_key_length k) else undef OutOfBounds.

Definition GetBufferSizeForPlaintextSize (size : nat) : nat :=
  size + EVP_MD_size + 2 * EVP_CIPHER_CTX_block_size.

Definition Open (envelope : list Z) : M AesState (ErrorOr (list Z) Z) :=
  if (length envelope <? EVP_MD_size)%nat then on_ssl fail_with else
  let! reset := on_ssl ssl_call in
  if negb reset then on_ssl fail_with else
  let! key := cipher_key in
  let! init := on_ssl ssl_call in
  if negb init then on_ssl fail_with else
  let mInputBuffer := drop EVP_MD_size envelope in
  aes_set (λ c, c <| mOutputBuffer ::= vec_resize (length envelope) |>) ;;
  let inl := to_int (Z.of_nat (length envelope) - Z.of_nat EVP_MD_size) in
  match decrypt_update key mInputBuffer inl with
  | None => on_ssl fail_with
  | Some out =>
    out_write 0 out ;;
    match decrypt_final key mInputBuffer inl with
    | None => on_ssl fail_with
    | Some fin =>
      out_write (length out) fin ;;
      let outputDataLen := (length out + length fin)%nat in
      aes_set (λ c, c <| mOutputBuffer ::= vec_resize outputDataLen |>) ;;
      (* the digest goes to OpenSSL's static array and is not compared *)
      let! hmac := on_ssl ssl_call in
      if hmac then let! buf := aes mOutputBuffer in ret (Value (take outputDataLen buf))
      else on_ssl fail_with
    end
  end.

Definition Seal (plaintext : list Z) : M AesState (ErrorOr (list Z) Z) :=
  let! reset := on_ssl ssl_call in
  if negb reset then on_ssl fail_with else
  let! key := cipher_key in
  let! init := on_ssl ssl_call in
  if negb init then on_ssl fail_with else
  aes_set (λ c, c <| mOutputBuffer ::= vec_resize (GetBufferSizeForPlaintextSize (length plaintext)) |>) ;;
  let! hmac := on_ssl ssl_call in
  if negb hmac then on_ssl fail_with else
  let! mac_key := aes mKeyData in
  out_write 0 (hmac_sha256 mac_key plaintext) ;;
  let inl := to_int (Z.of_nat (length plaintext)) in
  match encrypt_update key plaintext inl with
  | None => on_ssl fail_with
  | Some out =>
    out_write EVP_MD_size out ;;
    match encrypt_final key plaintext inl with
    | None => on_ssl fail_with
    | Some fin =>
      out_write (EVP_MD_size + length out) fin ;;
      let totalLength := (length out + length fin)%nat in
      let! buf := aes mOutputBuffer in
      ret (Value (take (EVP_MD_size + totalLength) buf))
    end
  end.

(** ** HNetherNet.cpp *)

(** [EVP_CIPHER_CTX_new] is taken to find memory, as every other allocation is. *)
Definition AesContext_new (key : list Z) : AesContext := mkAes key [].

Definition CreateKey (id : Z) : M nat (ErrorOr (list Z) Z) :=
  let! ctx := ssl_call in
  if negb ctx then fail_with else
  let! init := ssl_call in
  if negb init then fail_with else
  let! upd := ssl_call in
  if negb upd then fail_with else
  let! fin := ssl_call in
  if negb fin then fail_with else
  ret (Value (sha256 (le_split 8 id))).

Definition CreateEnvelope (id : Z) : M nat (ErrorOr AesContext Z) :=
  let! Key := CreateKey id in
  if negb (has_value Key) then let! e := error Key in ret (result_error e)
  else let! k := value Key in ret (Value (AesContext_new k)).

End AesContext.
Arguments to_int : simpl never.
Arguments vec_resize : simpl never.
Arguments cipher_key : simpl never.
Arguments out_write : simpl never.
Arguments Seal : simpl never.
Arguments Open : simpl never.
Arguments CreateEnvelope : simpl never.
Arguments write_at : simpl never.

Section AesLemmas.
Context `{OpenSSL}.
Context `{!OpenSSLLaws _}.

Lemma to_int_small x : 0 ≤ x < 2 ^ 31 → to_int x = x.
Proof.
  intros Hx. unfold to_int. rewrite wrap_small by (unfold uint; lia).
  by destruct (Z.ltb_spec x (2 ^ 31)); [|lia].
Qed.

Lemma out_write_ok off bs c n :
  (off + length bs ≤ length (mOutputBuffer c))%nat →
  ∃ buf, write_at off bs (mOutputBuffer c) = Some buf
    ∧ out_write off bs (c, n) = Ret tt (c <| mOutputBuffer := buf |>, n).
Proof. intros Hb. eexists. split; [by apply write_at_in|]. unfold out_write. cbn. by rewrite write_at_in. Qed.

Lemma cipher_key_ok c n :
  (EVP_key_length ≤ length (mKeyData c))%nat →
  cipher_key (c, n) = Ret (take EVP_key_length (mKeyData c)) (c, n).
Proof. intros Hk. unfold cipher_key. cbn. by apply Nat.leb_le in Hk as ->. Qed.

(** Two successive writes fill the buffer from the first offset on. *)
Lemma write_twice off a b buf buf1 buf2 :
  write_at off a buf = Some buf1 → write_at (off + length a) b buf1 = Some buf2 →
  take (off + (length a + length b)) buf2 = take off buf ++ a ++ b.
Proof.
  intros H1 H2. rewrite Nat.add_assoc, (write_at_read _ _ _ _ H2), (write_at_read _ _ _ _ H1).
  by rewrite (assoc_L (++)).
Qed.

(** The result of [Seal]: the MAC followed by the ciphertext, or an error. *)
Definition sealed (k p : list Z) (r : ErrorOr (list Z) Z) : Prop :=
  match r with
  | Value env => ∃ u f,
      encrypt_update (take EVP_key_length k) p (Z.of_nat (length p)) = Some u
      ∧ encrypt_final (take EVP_key_length k) p (Z.of_nat (length p)) = Some f
      ∧ env = hmac_sha256 k p ++ u ++ f
  | result_error _ => ∃ n, succeeds n = false
  end.

Lemma Seal_spec p c n :
  (EVP_key_length ≤ length (mKeyData c))%nat → Z.of_nat (length p) < 2 ^ 31 →
  wp (Seal p) (λ r s, mKeyData (fst s) = mKeyData c ∧ sealed (mKeyData c) p r) (c, n).
Proof.
  intros Hk Hp. unfold wp, Seal, on_ssl, ssl_call, fail_with, ERR_get_error, aes, aes_set. cbn.
  destruct (succeeds n) eqn:?; cbn; [|by eauto]. rewrite cipher_key_ok by done. cbn.
  destruct (succeeds (S n)) eqn:?; cbn; [|by eauto]. destruct (succeeds (S (S n))) eqn:?; cbn; [|by eauto].
  destruct (encrypt_valid (take EVP_key_length (mKeyData c)) p) as [[u Hu] [f Hf]];
    [rewrite length_take; lia|].
  set (c1 := c <| mOutputBuffer ::= _ |>).
  assert (length (mOutputBuffer c1) = length p + 32 + 32)%nat as Hl1.
  { subst c1. cbn. rewrite length_vec_resize. unfold GetBufferSizeForPlaintextSize, EVP_MD_size, EVP_CIPHER_CTX_block_size. lia. }
  pose proof (hmac_length (mKeyData c) p) as Hh. assert (EVP_MD_size = 32%nat) as Hmd by done.
  destruct (out_write_ok 0 (hmac_sha256 (mKeyData c) p) c1 (S (S (S n)))) as (b1 & Hw1 & ->); [lia|].
  pose proof (write_at_length _ _ _ _ Hw1) as Hb1. cbn. rewrite to_int_small by lia.
  rewrite Hu. cbn.
  pose proof (encrypt_update_length _ _ _ Hu) as Hul. unfold EVP_CIPHER_CTX_block_size in *.
  destruct (out_write_ok EVP_MD_size u (c1 <| mOutputBuffer := b1 |>) (S (S (S n)))) as (b2 & Hw2 & ->); [cbn; lia|].
  pose proof (write_at_length _ _ _ _ Hw2) as Hb2. cbn in Hb2 |- *.
  rewrite Hf. cbn.
  pose proof (encrypt_final_length _ _ _ _ Hf) as Hfl. unfold EVP_CIPHER_CTX_block_size in *.
  destruct (out_write_ok (EVP_MD_size + length u) f (c1 <| mOutputBuffer := b1 |> <| mOutputBuffer := b2 |>) (S (S (S n))))
    as (b3 & Hw3 & E3); [cbn; lia|]. rewrite E3. cbn. split; [done|].
  exists u, f. split_and!; [done..|]. cbn in Hw2, Hw3.
  rewrite (write_twice _ _ _ _ _ _ Hw2 Hw3), <- Hh. f_equal.
  by rewrite <- (Nat.add_0_l (length _)), (write_at_read _ _ _ _ Hw1).
Qed.

(** The result of [Open]: the decryption of what follows the 32 bytes of MAC. *)
Definition opened (k env : list Z) (r : ErrorOr (list Z) Z) : Prop :=
  let c := drop EVP_MD_size env in
  match r with
  | Value p => (EVP_MD_size ≤ length env)%nat ∧ ∃ u f,
      decrypt_update (take EVP_key_length k) c (Z.of_nat (length c)) = Some u
      ∧ decrypt_final (take EVP_key_length k) c (Z.of_nat (length c)) = Some f
      ∧ p = u ++ f
  | result_error _ =>
      (∀ n, succeeds n = true) → (EVP_MD_size ≤ length env)%nat →
      ¬ (is_Some (decrypt_update (take EVP_key_length k) c (Z.of_nat (length c)))
         ∧ is_Some (decrypt_final (take EVP_key_length k) c (Z.of_nat (length c))))
  end.

Lemma Open_spec env c n :
  (EVP_key_length ≤ length (mKeyData c))%nat → Z.of_nat (length env) < 2 ^ 31 →
  wp (Open env) (λ r s, mKeyData (fst s) = mKeyData c ∧ opened (mKeyData c) env r) (c, n).
Proof.
  intros Hk He. unfold wp, Open, on_ssl, ssl_call, fail_with, ERR_get_error, aes, aes_set, opened.
  destruct (Nat.ltb_spec (length env) EVP_MD_size) as [Hlt|Hge]; cbn; [split; [done|]; lia|].
  destruct (succeeds n) eqn:Hs1; cbn; [|split; [done|]; intros Hs; by rewrite Hs in Hs1].
  rewrite cipher_key_ok by done. cbn.
  destruct (succeeds (S n)) eqn:Hs2; cbn; [|split; [done|]; intros Hs; by rewrite Hs in Hs2].
  set (c1 := c <| mOutputBuffer ::= _ |>). set (d := drop EVP_MD_size env). assert (EVP_MD_size = 32%nat) as Hmd by done.
  assert (length (mOutputBuffer c1) = length env) as Hl1 by apply length_vec_resize.
  assert (length d + 32 = length env)%nat as Hd.
  { subst d. rewrite length_drop. lia. }
  replace (to_int _) with (Z.of_nat (length d)) by (rewrite to_int_small; lia).
  destruct (decrypt_update _ d _) as [u|] eqn:Hu; cbn; [|split; [done|]; by intros _ _ [[] _]].
  pose proof (decrypt_update_length _ _ _ Hu) as Hul. unfold EVP_CIPHER_CTX_block_size in *.
  destruct (out_write_ok 0 u c1 (S (S n))) as (b1 & Hw1 & ->); [lia|].
  pose proof (write_at_length _ _ _ _ Hw1) as Hb1. cbn.
  destruct (decrypt_final _ d _) as [f|] eqn:Hf; cbn; [|split; [done|]; by intros _ _ [_ []]].
  pose proof (decrypt_final_length _ _ _ _ Hf) as Hfl. unfold EVP_CIPHER_CTX_block_size in *.
  destruct (out_write_ok (length u) f (c1 <| mOutputBuffer := b1 |>) (S (S n))) as (b2 & Hw2 & E2); [cbn; lia|].
  pose proof (write_at_length _ _ _ _ Hw2) as Hb2. rewrite E2. cbn.
  destruct (succeeds (S (S n))) eqn:Hs3; cbn; [|split; [done|]; intros Hs; by rewrite Hs in Hs3].
  split; [done|]. split; [done|]. exists u, f. split_and!; [done..|].
  pose proof (write_twice 0 u f _ _ _ Hw1 Hw2) as E.
  rewrite take_0 in E. rewrite Nat.add_0_l, app_nil_l in E. rewrite <- E. cbn in Hb2.
  unfold vec_resize. rewrite take_app_le by (rewrite length_take; lia). rewrite take_take. f_equal. lia.
Qed.
End AesLemmas.

(** ** OpenSSLAesAdapter over a socket

    The socket under the adapter: what its [n]th call returns.  A receive of at most
    [cb] bytes gives its return value and the bytes it wrote at [pv]. *)
Class RtcSocket := {
  sock_send : nat → list Z → Z;
  sock_recv : nat → Z → Z * list Z
}.

Class RtcSocketLaws `(RtcSocket) := {
  sock_recv_fits n cb : 0 ≤ cb → Z.of_nat (length (sock_recv n cb).2) ≤ cb;
  sock_recv_count n cb :
    0 ≤ (sock_recv n cb).1 → Z.of_nat (length (sock_recv n cb).2) = (sock_recv n cb).1;
  sock_recv_int n cb : (sock_recv n cb).1 < 2 ^ 31
}.

Record OpenSSLAesAdapter := mkAdapter {
  mEncryptionKey : option AesContext;
  socket_alive : bool;                  (* the object [socket_] points to *)
  ssl : nat;                            (* OpenSSL calls made *)
  sock_calls : nat;
  sent : list (list Z)                  (* datagrams handed to the socket *)
}.
#[export] Instance OpenSSLAesAdapter_eta : Eta OpenSSLAesAdapter :=
  λ r, mkAdapter (mEncryptionKey r) (socket_alive r) (ssl r) (sock_calls r) (sent r).

Section Adapter.
Context `{OpenSSL} `{RtcSocket}.

(** [AesAdapter(std::unique_ptr<rtc::Socket> socket)] passes [socket.get()] to a base
    that takes ownership; the parameter still owns the socket and deletes it when
    the constructor returns. *)
Definition AesAdapter_new (n : nat) : OpenSSLAesAdapter :=
  let base := mkAdapter None true n 0 [] in
  base <| socket_alive := false |>.
Definition AesAdapter_Create (n : nat) : ErrorOr OpenSSLAesAdapter Z := Value (AesAdapter_new n).

(** A call forwarded by [rtc::AsyncSocketAdapter] to the socket it owns. *)
Definition on_socket {A} (f : nat → A) : M OpenSSLAesAdapter A :=
  let! alive := gets socket_alive in
  if negb alive then undef DanglingRef else
  let! n := gets sock_calls in
  modify (λ a, a <| sock_calls := S n |>) ;; ret (f n).

Definition socket_Send (data : list Z) : M OpenSSLAesAdapter Z :=
  let! r := on_socket (λ n, sock_send n data) in
  modify (λ a, a <| sent ::= (λ l, l ++ [data]) |>) ;; ret r.

(** Received bytes overwrite the beginning of the caller's buffer. *)
Definition socket_Recv (pv : list Z) (cb : Z) : M OpenSSLAesAdapter (Z * list Z) :=
  let! r := on_socket (λ n, sock_recv n cb) in
  let! pv' := in_bounds (write_at 0 r.2 pv) in
  ret (r.1, pv').

(** A method of the key, if there is one. *)
Definition with_key {A} (c : AesContext) (m : M AesState A) : M OpenSSLAesAdapter A :=
  lift (λ a, (c, ssl a)) (λ s a, a <| mEncryptionKey := Some (fst s) |> <| ssl := snd s |>) m.

Definition SetKey (id : Z) : M OpenSSLAesAdapter (ErrorOr unit Z) :=
  let! envelope := lift ssl (λ n a, a <| ssl := n |>) (CreateEnvelope id) in
  if negb (has_value envelope) then let! e := error envelope in ret (result_error e)
  else
    let! c := value envelope in
    modify (λ a, a <| mEncryptionKey := Some c |>) ;; ret (Value tt).

Definition SendTo (pv : list Z) : M OpenSSLAesAdapter Z :=
  let! key := gets mEncryptionKey in
  match key with
  | None => ret 0
  | Some c =>
    let! enc_result := with_key c (Seal pv) in
    if negb (has_value enc_result) then ret 0
    else let! enc_data := value enc_result in socket_Send enc_data
  end.

(** [Send] differs from [SendTo] in the socket function it ends in. *)
Definition Send (pv : list Z) : M OpenSSLAesAdapter Z :=
  let! key := gets mEncryptionKey in
  match key with
  | None => ret 0
  | Some c =>
    let! enc_result := with_key c (Seal pv) in
    if negb (has_value enc_result) then ret 0
    else let! enc_data := value enc_result in socket_Send enc_data
  end.

(** What [Recv] and [RecvFrom] do with what the socket returned. *)
Definition open_received (recv_size : Z) (pv : list Z) : M OpenSSLAesAdapter (Z * list Z) :=
  if recv_size <? 0 then ret (-1, pv) else
  let! key := gets mEncryptionKey in
  match key with
  | None => ret (0, pv)
  | Some c =>
    let! decrypt_result := with_key c (Open (take (Z.to_nat recv_size) pv)) in
    if negb (has_value decrypt_result) then ret (0, pv)
    else
      let! decrypted_data := value decrypt_result in
      let! pv' := in_bounds (write_at 0 decrypted_data pv) in
      ret (to_int (Z.of_nat (length decrypted_data)), pv')
  end.

Definition Recv (pv : list Z) (cb : Z) : M OpenSSLAesAdapter (Z * list Z) :=
  let! r := socket_Recv pv cb in open_received r.1 r.2.

(** Every fourth byte of the buffer gets the low byte of 0xBAADF00D, [n] times. *)
Fixpoint fill_pattern (n : nat) (pfill : nat) (buffer : list Z) : option (list Z) :=
  match n with
  | O => Some buffer
  | S n' => match write_at pfill [wrap 8 0xBAADF00D] buffer with
            | Some b => fill_pattern n' (pfill + 4) b
            | None => None
            end
  end.

Definition RecvFrom (pv : list Z) (cb : Z) : M OpenSSLAesAdapter (Z * list Z) :=
  let max_size := if cb / 4 <? 512 then to_int (cb / 4) else 512 in
  let pad_offset := 4 * max_size in
  let fill_size := if pad_offset <? 0 then 0 else pad_offset / 4 in
  let! pv1 := in_bounds (fill_pattern (Z.to_nat fill_size) 0 pv) in
  let! r := socket_Recv pv1 cb in open_received r.1 r.2.

End Adapter.

Section CryptoTheorems.
Context `{OpenSSL}.
Context `{!OpenSSLLaws _}.

Lemma sealed_length k p env :
  sealed k p (Value env) → (length env ≤ GetBufferSizeForPlaintextSize (length p))%nat.
Proof.
  intros (u & f & Hu & Hf & ->).
  pose proof (encrypt_update_length _ _ _ Hu). pose proof (encrypt_final_length _ _ _ _ Hf).
  pose proof (hmac_length k p) as Hh.
  unfold GetBufferSizeForPlaintextSize, EVP_MD_size, EVP_CIPHER_CTX_block_size in *.
  rewrite !length_app. lia.
Qed.

Lemma Open_sealed p env c n :
  sealed (mKeyData c) p (Value env) → (EVP_key_length ≤ length (mKeyData c))%nat →
  Z.of_nat (length p) + 64 < 2 ^ 31 → (∀ k, succeeds k = true) →
  wp (Open env) (λ r s, r = Value p ∧ mKeyData (fst s) = mKeyData c) (c, n).
Proof.
  intros Hsl Hk Hp Hs. pose proof (sealed_length _ _ _ Hsl) as Hl.
  unfold GetBufferSizeForPlaintextSize, EVP_MD_size, EVP_CIPHER_CTX_block_size in Hl.
  destruct Hsl as (u & f & Hu & Hf & ->). pose proof (hmac_length (mKeyData c) p) as Hh.
  eapply wp_mono; [|apply Open_spec; [done | lia]].
  intros r' s' [Hk' Ho]. split; [|done]. unfold opened in Ho. rewrite (drop_app_length' (hmac_sha256 _ _)) in Ho by done.
  destruct (decrypt_encrypt _ _ _ _ Hu Hf) as (u' & f' & Hu' & Hf' & Heq). cbn in Hu', Hf'.
  destruct r' as [p'|e'].
  - destruct Ho as (_ & u'' & f'' & Hu'' & Hf'' & ->). congruence.
  - exfalso. apply Ho; [done | rewrite length_app; lia | by rewrite Hu', Hf'].
Qed.

(** C13: what one context seals, any context with the same key opens to the
    same plaintext.  For a key of at least 32 bytes and a plaintext that fits an
    [int], [Seal] returns without writing outside [mOutputBuffer], its envelope is at
    most 64 bytes longer than the plaintext, and when every OpenSSL call succeeds
    it yields an envelope, which [Open] maps back. *)
Theorem Open_Seal_roundtrip (c c' : AesContext) (n n' : nat) (p : list Z) :
  (EVP_key_length ≤ length (mKeyData c))%nat → mKeyData c' = mKeyData c →
  Z.of_nat (length p) + 64 < 2 ^ 31 → (∀ k, succeeds k = true) →
  wp (Seal p) (λ r _, ∃ env, r = Value env
    ∧ (length env ≤ GetBufferSizeForPlaintextSize (length p))%nat
    ∧ wp (Open env) (λ r' s', r' = Value p ∧ mKeyData (fst s') = mKeyData c') (c', n')) (c, n).
Proof.
  intros Hk Hc Hp Hs. eapply wp_mono; [|apply Seal_spec; [done|lia]].
  intros [env|e] s [_ Hr]; [|destruct Hr as [? Hr]; by rewrite Hs in Hr].
  exists env. split_and!; [done | by eapply sealed_length | ].
  apply Open_sealed; try done; [by rewrite Hc|]. by rewrite Hc.
Qed.

(** [Open] does not authenticate: the 32 bytes in front of the ciphertext
    have no influence on what it returns or leaves behind. *)
Theorem Open_ignores_mac (mac mac' ciphertext : list Z) (s : AesState) :
  length mac = EVP_MD_size → length mac' = EVP_MD_size →
  Open (mac ++ ciphertext) s = Open (mac' ++ ciphertext) s.
Proof.
  intros H1 H2. unfold Open. rewrite !length_app.
  rewrite (drop_app_length' mac), (drop_app_length' mac') by done. by rewrite H1, H2.
Qed.
End CryptoTheorems.

Section AdapterTheorems.
Context `{OpenSSL} `{RtcSocket}.
Context `{!OpenSSLLaws _} `{!RtcSocketLaws _}.

(** The key of an adapter, when it has one, is long enough for the cipher. *)
Definition adapter_ok (a : OpenSSLAesAdapter) : Prop :=
  match mEncryptionKey a with Some c => (EVP_key_length ≤ length (mKeyData c))%nat | None => True end.

Lemma CreateEnvelope_spec id n :
  wp (CreateEnvelope id) (λ r _, match r with
    | Value c => c = mkAes (sha256 (le_split 8 id)) []
    | result_error _ => ∃ k, succeeds k = false
    end) n.
Proof.
  unfold wp, CreateEnvelope, CreateKey, ssl_call, fail_with. cbn.
  destruct (succeeds n) eqn:?; cbn; [|by eauto]. destruct (succeeds (S n)) eqn:?; cbn; [|by eauto].
  destruct (succeeds (S (S n))) eqn:?; cbn; [|by eauto].
  destruct (succeeds (S (S (S n)))) eqn:?; cbn; by eauto.
Qed.

Lemma SetKey_spec id a :
  adapter_ok a →
  wp (SetKey id) (λ r a', adapter_ok a' ∧ socket_alive a' = socket_alive a
    ∧ sock_calls a' = sock_calls a ∧ sent a' = sent a
    ∧ ((∀ k, succeeds k = true) →
       r = Value tt ∧ mEncryptionKey a' = Some (mkAes (sha256 (le_split 8 id)) []))) a.
Proof.
  intros Ha. pose proof (CreateEnvelope_spec id (ssl a)) as He. unfold wp in *. unfold SetKey; cbn.
  destruct (CreateEnvelope id (ssl a)) as [[c|e] n| | |]; cbn; try done.
  - subst c. split_and!; try done. unfold adapter_ok; cbn.
    rewrite sha256_length. unfold EVP_key_length, EVP_MD_size. lia.
  - split_and!; try done. destruct He as [k Hk]. intros Hs. by rewrite Hs in Hk.
Qed.

Lemma fill_pattern_ok n off buf :
  (off + 4 * n ≤ length buf)%nat →
  ∃ buf', fill_pattern n off buf = Some buf' ∧ length buf' = length buf.
Proof.
  revert off buf. induction n as [|n IH]; intros off buf Hl; cbn; [by eauto|].
  destruct (write_at off [wrap 8 0xBAADF00D] buf) as [b|] eqn:Hw.
  - pose proof (write_at_length _ _ _ _ Hw) as Hb. destruct (IH (off + 4)%nat b) as (b' & -> & Hb'); [lia|].
    exists b'. split; [done|lia].
  - rewrite write_at_in in Hw; [done|]. cbn. lia.
Qed.

Lemma write_prefix bs buf :
  (length bs ≤ length buf)%nat →
  ∃ buf', write_at 0 bs buf = Some buf' ∧ length buf' = length buf ∧ take (length bs) buf' = bs.
Proof.
  intros Hl. destruct (write_at 0 bs buf) as [b|] eqn:Hw; [|by rewrite write_at_in in Hw].
  exists b. split_and!; [done | by eapply write_at_length |].
  by rewrite <- (Nat.add_0_l (length bs)), (write_at_read _ _ _ _ Hw).
Qed.

Lemma socket_Recv_spec pv cb a :
  socket_alive a = true → 0 ≤ cb → cb ≤ Z.of_nat (length pv) →
  let '(r, bs) := sock_recv (sock_calls a) cb in
  wp (socket_Recv pv cb) (λ v a', v.1 = r ∧ length v.2 = length pv ∧ take (length bs) v.2 = bs
    ∧ a' = a <| sock_calls := S (sock_calls a) |>) a.
Proof.
  intros Hlive Hcb0 Hcb. pose proof (sock_recv_fits (sock_calls a) cb Hcb0) as Hf.
  destruct (sock_recv _ _) as [r bs] eqn:Hr. cbn in Hf.
  destruct (write_prefix bs pv) as (b & Hw & Hl & Ht); [lia|].
  unfold wp, socket_Recv, on_socket. cbn. rewrite Hlive. cbn. rewrite Hr. cbn. rewrite Hw. by cbn.
Qed.

Lemma open_received_spec r pv a :
  adapter_ok a → r ≤ Z.of_nat (length pv) → r < 2 ^ 31 →
  wp (open_received r pv) (λ v a', adapter_ok a' ∧ length v.2 = length pv
    ∧ -1 ≤ v.1 ≤ Z.max 0 r ∧ (r < 0 → v = (-1, pv))
    ∧ (mEncryptionKey a = None → v.1 ≤ 0)
    ∧ (∀ c p, mEncryptionKey a = Some c → 0 ≤ r → sealed (mKeyData c) p (Value (take (Z.to_nat r) pv)) →
        Z.of_nat (length p) + 64 < 2 ^ 31 → (∀ k, succeeds k = true) →
        v.1 = Z.of_nat (length p) ∧ take (length p) v.2 = p)) a.
Proof.
  intros Ha Hr Hr31. unfold open_received.
  destruct (Z.ltb_spec r 0) as [Hneg|Hpos].
  { unfold wp; cbn. split_and!; try done; try lia. }
  unfold adapter_ok in Ha. apply wp_bind. unfold wp at 1; cbn.
  destruct (mEncryptionKey a) as [c|] eqn:Hkey.
  2:{ unfold wp; cbn. unfold adapter_ok. rewrite Hkey. split_and!; try done; lia. }
  set (env := take (Z.to_nat r) pv). assert (length env = Z.to_nat r) as Henv by (apply length_take_le; lia).
  pose proof (Open_spec env c (ssl a) Ha ltac:(lia)) as Ho.
  assert (∀ p, sealed (mKeyData c) p (Value env) → Z.of_nat (length p) + 64 < 2 ^ 31 →
    (∀ k, succeeds k = true) → wp (Open env) (λ r s, r = Value p ∧ mKeyData (fst s) = mKeyData c) (c, ssl a)) as Hs.
  { intros p Hsl Hp Hall. by apply Open_sealed. }
  unfold wp in Ho, Hs |- *. unfold with_key. cbn.
  destruct (Open env (c, ssl a)) as [[p|e] [c' n']| | |]; cbn in *; try done.
  - destruct Ho as (Hk' & Hlen & u & f & Hu & Hf & Hpe).
    pose proof (decrypt_shrinks _ _ _ _ Hu Hf) as Hsh. rewrite length_drop, <- Hpe in Hsh.
    unfold EVP_MD_size in *. destruct (write_prefix p pv) as (b & Hw & Hb & Ht); [lia|].
    rewrite Hw. cbn. unfold adapter_ok; cbn. rewrite to_int_small by lia.
    split_and!; try done; try lia; [congruence|].
    intros c0 p0 [= <-] _ Hsl Hp0 Hall. destruct (Hs p0 Hsl Hp0 Hall) as [[= <-] _]. done.
  - destruct Ho as [Hk' _]. unfold adapter_ok; cbn. split_and!; try done; try lia; [congruence|].
    intros c0 p0 [= <-] _ Hsl Hp0 Hall. by destruct (Hs p0 Hsl Hp0 Hall) as [? _].
Qed.

(** The prefill stays inside the buffer; the receive follows. *)
Lemma RecvFrom_prefilled pv cb a : 0 ≤ cb → cb ≤ Z.of_nat (length pv) →
  ∃ pv1, length pv1 = length pv ∧ RecvFrom pv cb a = (let! r := socket_Recv pv1 cb in open_received r.1 r.2) a.
Proof.
  intros Hcb0 Hcb. unfold RecvFrom. set (n := Z.to_nat _).
  assert (0 + 4 * n ≤ length pv)%nat as Hn.
  { subst n. pose proof (Z.div_pos cb 4 Hcb0 ltac:(lia)). pose proof (Z.mul_div_le cb 4 ltac:(lia)).
    destruct (Z.ltb_spec (cb / 4) 512); [rewrite to_int_small by lia|];
      (case_match; [lia|]); rewrite (Z.mul_comm 4), Z.div_mul by lia; lia. }
  destruct (fill_pattern_ok n 0 pv Hn) as (pv1 & Hfill & Hl1). exists pv1. split; [done|]. cbn. by rewrite Hfill.
Qed.
Lemma RecvFrom_freed pv cb a : socket_alive a = false → 0 ≤ cb → cb ≤ Z.of_nat (length pv) → RecvFrom pv cb a = Undef DanglingRef a.
Proof.
  intros Hlive Hcb0 Hcb. destruct (RecvFrom_prefilled pv cb a Hcb0 Hcb) as (pv1 & _ & ->).
  unfold socket_Recv, on_socket. cbn. by rewrite Hlive.
Qed.

(** The bytes the receive wrote are the first [r] of the buffer [open_received] sees. *)
Lemma RecvFrom_spec pv cb a :
  adapter_ok a → socket_alive a = true → 0 ≤ cb → cb ≤ Z.of_nat (length pv) →
  let '(r, bs) := sock_recv (sock_calls a) cb in
  wp (RecvFrom pv cb) (λ v a', adapter_ok a' ∧ length v.2 = length pv
    ∧ -1 ≤ v.1 ≤ Z.max 0 r ∧ (r < 0 → v.1 = -1) ∧ (mEncryptionKey a = None → v.1 ≤ 0)
    ∧ (∀ c p, mEncryptionKey a = Some c → 0 ≤ r → sealed (mKeyData c) p (Value bs) →
        Z.of_nat (length p) + 64 < 2 ^ 31 → (∀ k, succeeds k = true) →
        v.1 = Z.of_nat (length p) ∧ take (length p) v.2 = p)) a.
Proof.
  intros Ha Hlive Hcb0 Hcb. pose proof (sock_recv_fits (sock_calls a) cb Hcb0) as Hf.
  pose proof (sock_recv_count (sock_calls a) cb) as Hc. pose proof (sock_recv_int (sock_calls a) cb) as Hi.
  destruct (RecvFrom_prefilled pv cb a Hcb0 Hcb) as (pv1 & Hl1 & Hrun).
  pose proof (socket_Recv_spec pv1 cb a Hlive Hcb0 ltac:(lia)) as Hrecv.
  destruct (sock_recv (sock_calls a) cb) as [r bs] eqn:Hr. cbn in Hf, Hc, Hi.
  unfold wp at 1. rewrite Hrun. apply wp_bind. eapply wp_mono; [|apply Hrecv].
  intros [r' pv2] a1 (-> & Hl2 & Ht & ->). cbn [fst snd] in *.
  assert (r ≤ Z.of_nat (length pv2)) by (destruct (Z.le_gt_cases 0 r); lia).
  eapply wp_mono; [|by apply open_received_spec].
  intros v a' (Hok & Hlen & Hrange & Hfail & Hnokey & Hopen). cbn in Hnokey, Hopen.
  split_and!; try done; try lia.
  - intros Hneg. by rewrite Hfail.
  - intros c p Hkey Hpos Hsl. apply (Hopen c); [done | done |].
    replace (Z.to_nat r) with (length bs) by lia. by rewrite Ht.
Qed.

(** receiving through a live socket is memory safe and bounded: for any buffer of at least
    [cb] bytes the prefill, the receive and the copy of the plaintext stay inside it; the
    result is -1 when the socket fails, otherwise between 0 and what was received, and never
    positive without a key; a datagram that was sealed under the key is returned as the
    plaintext.  Through a freed socket the receive is undefined behaviour. *)
Theorem RecvFrom_bounded pv cb a :
  adapter_ok a → 0 ≤ cb → cb ≤ Z.of_nat (length pv) →
  if socket_alive a then
    wp (RecvFrom pv cb) (λ v a', adapter_ok a' ∧ length v.2 = length pv
      ∧ -1 ≤ v.1 ≤ cb ∧ ((sock_recv (sock_calls a) cb).1 < 0 → v.1 = -1)
      ∧ (mEncryptionKey a = None → v.1 ≤ 0)
      ∧ (∀ c p, mEncryptionKey a = Some c → 0 ≤ (sock_recv (sock_calls a) cb).1 →
          sealed (mKeyData c) p (Value (sock_recv (sock_calls a) cb).2) →
          Z.of_nat (length p) + 64 < 2 ^ 31 → (∀ k, succeeds k = true) →
          v.1 = Z.of_nat (length p) ∧ take (length p) v.2 = p)) a
  else RecvFrom pv cb a = Undef DanglingRef a.
Proof.
  intros Ha Hcb0 Hcb. destruct (socket_alive a) eqn:Hlive; [|by apply RecvFrom_freed].
  pose proof (RecvFrom_spec pv cb a Ha Hlive Hcb0 Hcb) as Hspec.
  pose proof (sock_recv_fits (sock_calls a) cb Hcb0) as Hf. pose proof (sock_recv_count (sock_calls a) cb) as Hc.
  destruct (sock_recv (sock_calls a) cb) as [r bs]. cbn in Hf, Hc. eapply wp_mono; [|apply Hspec].
  intros v a' (H1 & H2 & H3 & H4 & H5 & H6). cbn. assert (r ≤ cb) by (destruct (Z.le_gt_cases 0 r); lia).
  split_and!; try done; lia.
Qed.

(** an adapter made by [AesAdapter::Create] does not own a live socket: the constructor's
    parameter deletes the socket the base class adopted.  Once keyed, every send and every
    receive, of any data and into any buffer, goes through the freed object. *)
Theorem AesAdapter_socket_freed (id : Z) (p pv : list Z) (cb : Z) (n : nat) :
  (∀ k, succeeds k = true) → Z.of_nat (length p) < 2 ^ 31 → 0 ≤ cb → cb ≤ Z.of_nat (length pv) →
  ∃ a, AesAdapter_Create n = Value a
  ∧ wp (SetKey id) (λ _ a', (∃ s, SendTo p a' = Undef DanglingRef s)
      ∧ (∃ s, Recv pv cb a' = Undef DanglingRef s) ∧ RecvFrom pv cb a' = Undef DanglingRef a') a.
Proof.
  intros Hs Hp Hcb0 Hcb. exists (AesAdapter_new n). split; [done|].
  eapply wp_mono; [|by apply SetKey_spec].
  intros r a' (Ha & Hl & _ & _ & Hk). destruct (Hk Hs) as [_ Hkey]. cbn in Hl. split_and!.
  - unfold adapter_ok in Ha. rewrite Hkey in Ha. unfold SendTo, with_key. cbn. rewrite Hkey.
    pose proof (Seal_spec p _ (ssl a') Ha Hp) as Hsl. unfold wp in Hsl. cbn in Hsl |- *.
    destruct (Seal p _) as [[env|e] [c' n']| | |]; cbn in Hsl |- *; try done.
    + unfold socket_Send, on_socket, set_field. cbn. rewrite Hl. cbn. by eauto.
    + destruct Hsl as [_ [k Hk']]. by rewrite Hs in Hk'.
  - unfold Recv, socket_Recv, on_socket. cbn. rewrite Hl. cbn. by eauto.
  - by apply RecvFrom_freed.
Qed.
End AdapterTheorems.

(** ** A model of the laws

    A cipher that copies its input (OpenSSL's null cipher) and constant digests. *)
Definition null_openssl : OpenSSL := {|
  succeeds := λ _, true;
  last_error := λ _, 0;
  sha256 := λ _, replicate 32 7;
  hmac_sha256 := λ _ _, replicate 32 9;
  encrypt_update := λ _ d _, Some d;
  encrypt_final := λ _ _ _, Some [];
  decrypt_update := λ _ c _, Some c;
  decrypt_final := λ _ _ _, Some []
|}.

Lemma null_openssl_laws : OpenSSLLaws null_openssl.
Proof.
  split; cbn; try done; intros; simplify_eq; unfold EVP_CIPHER_CTX_block_size; cbn; try lia.
  - rewrite app_nil_r. lia.
  - eexists _, _. split_and!; [done..|]. by rewrite !app_nil_r.
Qed.

(** A socket whose receives deliver the sealed form of [1; 2; 3]. *)
Definition loop_socket : RtcSocket := {|
  sock_send := λ _ d, Z.of_nat (length d);
  sock_recv := λ _ cb, if 35 <=? cb then (35, replicate 32 9 ++ [1; 2; 3]) else (-1, [])
|}.

Lemma loop_socket_laws : RtcSocketLaws loop_socket.
Proof. split; intros n cb; cbn; destruct (Z.leb_spec 35 cb); cbn; lia. Qed.

Definition keyed_adapter (live : bool) : OpenSSLAesAdapter := mkAdapter (Some (mkAes (replicate 32 7) [])) live 0 0 [].

#[local] Existing Instances null_openssl null_openssl_laws loop_socket loop_socket_laws.

Lemma keyed_adapter_ok b : adapter_ok (keyed_adapter b).
Proof. unfold adapter_ok, keyed_adapter, EVP_key_length. cbn. lia. Qed.

Lemma Open_Seal_roundtrip_witness :
  wp (Seal [1; 2; 3]) (λ r _, ∃ env, r = Value env
    ∧ (length env ≤ GetBufferSizeForPlaintextSize 3)%nat
    ∧ wp (Open env) (λ r' s', r' = Value [1; 2; 3] ∧ mKeyData (fst s') = replicate 32 7)
        (mkAes (replicate 32 7) [], 0%nat)) (mkAes (replicate 32 7) [], 0%nat).
Proof.
  apply (Open_Seal_roundtrip (mkAes (replicate 32 7) []) (mkAes (replicate 32 7) []) 0 0 [1; 2; 3]);
    [unfold EVP_key_length; cbn; lia | reflexivity | cbn; lia | reflexivity].
Defined.

Lemma Open_ignores_mac_witness :
  Open (replicate 32 0 ++ [1; 2; 3]) (mkAes (replicate 32 7) [], 0%nat)
  = Open (replicate 32 9 ++ [1; 2; 3]) (mkAes (replicate 32 7) [], 0%nat).
Proof. exact (Open_ignores_mac (replicate 32 0) (replicate 32 9) [1; 2; 3] _ eq_refl eq_refl). Defined.

Lemma RecvFrom_bounded_witness :
  wp (RecvFrom (replicate 64 0) 64) (λ v _, v.1 = 3 ∧ take 3 v.2 = [1; 2; 3]) (keyed_adapter true).
Proof.
  pose proof (RecvFrom_bounded (replicate 64 0) 64 (keyed_adapter true) (keyed_adapter_ok true) ltac:(lia) ltac:(cbn; lia)) as H.
  eapply wp_mono; [|exact H]. intros v a' (_ & _ & _ & _ & _ & Hv). apply (Hv _ [1; 2; 3] eq_refl); [cbn; lia| |cbn; lia|done].
  exists [1; 2; 3], []. by split_and!.
Defined.

Lemma AesAdapter_socket_freed_witness :
  ∃ a, AesAdapter_Create 0 = Value a
  ∧ wp (SetKey 0xdeadbeef) (λ _ a', (∃ s, SendTo [1; 2; 3] a' = Undef DanglingRef s)
      ∧ (∃ s, Recv (replicate 64 0) 64 a' = Undef DanglingRef s)
      ∧ RecvFrom (replicate 64 0) 64 a' = Undef DanglingRef a') a.
Proof.
  apply (AesAdapter_socket_freed 0xdeadbeef [1; 2; 3] (replicate 64 0) 64 0).
  all: first [reflexivity | cbn; lia].
Defined.
