(* ===== verification/DnsCache.v ===== *)
(** * network/AsyncResolverFactory.cpp: the DNS cache

    [mCacheObject] maps a host name and an address family to the resolved addresses
    and the time at which they expire.  Times are nanoseconds of the steady clock;
    [std::chrono::steady_clock::now()] is an argument. *)

From S2P Require Import Prelude IpAddress PeerTable.

Abbreviation dns_key := (string * Z)%type (only parsing).
Abbreviation dns_entry := (list IPAddress * Z)%type (only parsing).
Record DnsCache := mkDns { mCacheObject : gmap dns_key dns_entry }.
#[export] Instance DnsCache_eta : Eta DnsCache := λ r, mkDns (mCacheObject r).

(** The addresses found are appended to [outResult]. *)
Definition TryGet (now : Z) (hostname : string) (family : Z) (outResult : list IPAddress) :
    M DnsCache (bool * list IPAddress) :=
  let! cache := gets mCacheObject in
  match cache !! (hostname, family) with
  | None => ret (false, outResult)
  | Some (ips, expiration) =>
    if expiration <? now then
      modify (λ c, c <| mCacheObject ::= delete (hostname, family) |>) ;; ret (false, outResult)
    else ret (true, outResult ++ ips)
  end.

(** [Add] with an explicit expiration: [insert_or_assign]. *)
Definition Add_until (hostname : string) (family : Z) (result : list IPAddress) (expiration : Z) :
    M DnsCache unit :=
  modify (λ c, c <| mCacheObject ::= <[(hostname, family) := (result, expiration)]> |>).

Definition minutes (n : Z) : Z := seconds (60 * n).

Definition Add (now : Z) (hostname : string) (family : Z) (result : list IPAddress) : M DnsCache unit :=
  Add_until hostname family result (now + minutes 5).

(** ** Specification: a cache that forgets nothing but answers only in time *)

Inductive dns_op :=
| OpAddUntil (hostname : string) (family : Z) (result : list IPAddress) (expiration : Z)
| OpAdd (now : Z) (hostname : string) (family : Z) (result : list IPAddress)
| OpGet (now : Z) (hostname : string) (family : Z).

Definition run_dns (o : dns_op) : M DnsCache unit :=
  match o with
  | OpAddUntil h f r e => Add_until h f r e
  | OpAdd t h f r => Add t h f r
  | OpGet t h f => let! _ := TryGet t h f [] in ret tt
  end.

Definition spec_dns (m : gmap dns_key dns_entry) (o : dns_op) : gmap dns_key dns_entry :=
  match o with
  | OpAddUntil h f r e => <[(h, f) := (r, e)]> m
  | OpAdd t h f r => <[(h, f) := (r, t + 300 * 10 ^ 9)]> m
  | OpGet _ _ _ => m
  end.

(** A lookup happens no later than [now]. *)
Definition asked_before (now : Z) (o : dns_op) : bool :=
  match o with OpGet t _ _ => t <=? now | _ => true end.

(** The entry a lookup at [now] may use. *)
Definition fresh_entry (now : Z) (e : option dns_entry) : option (list IPAddress) :=
  match e with Some (ips, expiration) => if expiration <? now then None else Some ips | None => None end.

Definition agree (now : Z) (c : DnsCache) (m : gmap dns_key dns_entry) : Prop :=
  ∀ k, fresh_entry now (mCacheObject c !! k) = fresh_entry now (m !! k).

Lemma run_dns_agree now o c m :
  asked_before now o = true → agree now c m →
  wp (run_dns o) (λ _ c', agree now c' (spec_dns m o)) c.
Proof.
  intros Ho Ha. destruct o as [h f r e | t h f r | t h f]; cbn.
  - intros k. destruct (decide (k = (h, f))) as [->|Hk]; cbn; [by rewrite !lookup_insert_eq|].
    rewrite !lookup_insert_ne by done. apply Ha.
  - intros k. change (minutes 5) with (300 * 10 ^ 9).
    destruct (decide (k = (h, f))) as [->|Hk]; cbn; [by rewrite !lookup_insert_eq|].
    rewrite !lookup_insert_ne by done. apply Ha.
  - unfold wp, TryGet; cbn. destruct (mCacheObject c !! (h, f)) as [[ips e]|] eqn:E; cbn; [|done].
    destruct (Z.ltb_spec e t) as [Hlt|]; cbn; [|done].
    intros k. cbn. destruct (decide (k = (h, f))) as [->|Hk].
    + rewrite lookup_delete_eq. rewrite <- Ha, E. cbn in Ho |- *.
      apply Z.leb_le in Ho. by destruct (Z.ltb_spec e now); [|lia].
    + rewrite lookup_delete_ne by done. apply Ha.
Qed.

(** refinement of the cache.  After any sequence of [Add]s and lookups made
    no later than [now], a lookup at [now] answers from the last [Add] of its host and
    family, appending exactly those addresses, if that entry has not expired (five
    minutes unless given), and otherwise reports a miss and leaves the output alone. *)
Theorem dns_cache_refines (now : Z) (ops : list dns_op) (h : string) (f : Z) (out : list IPAddress) :
  forallb (asked_before now) ops = true →
  wp (for_each run_dns ops) (λ _ c, wp (TryGet now h f out) (λ r _,
    r = match fresh_entry now (fold_left spec_dns ops ∅ !! (h, f)) with
        | Some ips => (true, out ++ ips)
        | None => (false, out)
        end) c) (mkDns ∅).
Proof.
  intros Hops.
  assert (∀ c m, agree now c m → wp (for_each run_dns ops) (λ _ c', agree now c' (fold_left spec_dns ops m)) c)
    as Hrun.
  { revert Hops. induction ops as [|o ops IH]; cbn; intros Hops c m Ha; [done|].
    apply andb_prop in Hops as [Ho Hops]. apply wp_bind. eapply wp_mono; [|by apply run_dns_agree].
    intros [] c' Ha'. by apply IH. }
  eapply wp_mono; [|by apply (Hrun _ ∅)].
  intros [] c Ha. rewrite <- (Ha (h, f)). unfold wp, TryGet; cbn.
  destruct (mCacheObject c !! (h, f)) as [[ips e]|]; cbn; [|done].
  by destruct (Z.ltb_spec e now).
Qed.

Lemma dns_cache_refines_witness :
  wp (for_each run_dns [OpAdd 0 "host" 2 [IPAddress_host 1]; OpGet 5 "host" 23]) (λ _ c,
    wp (TryGet 7 "host" 2 []) (λ r _, r = (true, [IPAddress_host 1])) c) (mkDns ∅).
Proof.
  exact (dns_cache_refines 7 [OpAdd 0 "host" 2 [IPAddress_host 1]; OpGet 5 "host" 23] "host" 2 [] eq_refl).
Defined.
