(* ===== verification/Threads.v ===== *)
(** * Controller.cpp and threadding/RtcThreadManager.cpp

    The run-loop condition a worker polls with [KeepGoing], the controller that
    changes its state, and the holder of an [rtc::Thread].  A wait on the condition
    variable releases the mutex and later reacquires it: what other threads do
    meanwhile is an explicit schedule. *)

From S2P Require Import Prelude Enums.

(** ** RunLoop::Condition and RunLoop::Controller *)

Record Condition := mkCondition {
  mState : ThreadState;
  mLock : bool;           (* the mutex is owned *)
  notified : nat          (* calls of [cv.notify_all] *)
}.
#[export] Instance Condition_eta : Eta Condition :=
  λ r, mkCondition (mState r) (mLock r) (notified r).

Definition state_eqb (a b : ThreadState) : bool := enum_val a =? enum_val b.

Definition unlock_mutex (c : Condition) : Condition := c <| mLock := false |>.

(** [std::unique_lock lock(mLock)] owns the mutex from its construction on. *)
Definition AcquireLock : M Condition unit :=
  let! owned := gets mLock in
  if owned then undef RelockMutex else modify (λ c, c <| mLock := true |>).

(** [lock.lock()] on a [unique_lock] that already owns its mutex throws. *)
Definition unique_lock_lock (owns : bool) : M Condition unit :=
  if owns then throw ResourceDeadlock else AcquireLock.

(** A scope that owns the lock releases it when an exception leaves it. *)
Definition lock_scope {A} (m : M Condition A) : M Condition A := λ c,
  match m c with Throw e c' => Throw e (unlock_mutex c') | o => o end.

Definition UpdateSharedState (state : ThreadState) : M Condition unit :=
  AcquireLock ;;
  lock_scope (
    unique_lock_lock true ;;
    let! state_before := gets mState in
    modify (λ c, c <| mState := state |>) ;;
    modify unlock_mutex ;;
    when (negb (state_eqb state state_before)) (modify (λ c, c <| notified ::= S |>))).

Definition RequestRun : M Condition unit := UpdateSharedState Running.
Definition RequestStop : M Condition unit := UpdateSharedState Stopped.
Definition RequestSuspend : M Condition unit := UpdateSharedState Suspended.

(** What happens while a worker waits: another thread calls a request (an exception
    it throws is that thread's), or the wait returns, possibly spuriously. *)
Inductive loop_event := Request (state : ThreadState) | Wakeup.

Definition request_by_other (state : ThreadState) : M Condition unit := λ c,
  match (match state with
         | Running => RequestRun | Suspended => RequestSuspend | Stopped => RequestStop
         end) c with
  | Throw _ c' => Ret tt c'
  | o => o
  end.

Definition StateRunning : M Condition bool := modify unlock_mutex ;; ret true.
Definition StateStopped : M Condition bool := modify unlock_mutex ;; ret false.

(** [StateDispatch] and [StateSuspended] call each other, once per wakeup.  The
    result is [None] when the schedule ends while the worker waits. *)
Fixpoint wait_and_dispatch (sched : list loop_event) : M Condition (option bool) :=
  match sched with
  | [] => ret None
  | Request s :: sched' => request_by_other s ;; wait_and_dispatch sched'
  | Wakeup :: sched' =>
    AcquireLock ;;
    let! st := gets mState in
    match st with
    | Stopped => let! b := StateStopped in ret (Some b)
    | Suspended => modify unlock_mutex ;; wait_and_dispatch sched'
    | Running => let! b := StateRunning in ret (Some b)
    end
  end.

(** [cv.wait(lock)] releases the mutex until the wakeup. *)
Definition StateSuspended (sched : list loop_event) : M Condition (option bool) :=
  modify unlock_mutex ;; wait_and_dispatch sched.

Definition StateDispatch (sched : list loop_event) : M Condition (option bool) :=
  let! st := gets mState in
  match st with
  | Stopped => let! b := StateStopped in ret (Some b)
  | Suspended => StateSuspended sched
  | Running => let! b := StateRunning in ret (Some b)
  end.

Definition KeepGoing (sched : list loop_event) : M Condition (option bool) :=
  AcquireLock ;; StateDispatch sched.

Lemma UpdateSharedState_throws st s0 k :
  UpdateSharedState st (mkCondition s0 false k) = Throw ResourceDeadlock (mkCondition s0 false k).
Proof. reflexivity. Qed.

Lemma request_by_other_noop st s0 k :
  request_by_other st (mkCondition s0 false k) = Ret tt (mkCondition s0 false k).
Proof. by destruct st. Qed.

(** the controller cannot control the worker.  [AcquireLock] returns a lock
    that owns the mutex and [UpdateSharedState] locks it again, so every request throws
    [resource_deadlock_would_occur], releases the mutex and changes nothing.  A worker's
    [KeepGoing] answers at once while Running or Stopped, with the mutex released; one
    that finds Suspended is never released, whatever requests and wakeups follow. *)
Theorem run_loop_cannot_be_controlled (s0 st : ThreadState) (k : nat) (sched : list loop_event) :
  let c := mkCondition s0 false k in
  UpdateSharedState st c = Throw ResourceDeadlock c
  ∧ KeepGoing sched c
    = Ret (match s0 with Running => Some true | Stopped => Some false | Suspended => None end) c.
Proof.
  split; [apply UpdateSharedState_throws|].
  assert (∀ sched, wait_and_dispatch sched (mkCondition Suspended false k)
    = Ret None (mkCondition Suspended false k)) as Hwait.
  { clear. induction sched as [|[st|] sched IH]; cbn; [done | | done].
    rewrite request_by_other_noop. apply IH. }
  destruct s0; [done | apply Hwait | done].
Qed.

(** ** RtcThreadManager

    [mThread] points to an [rtc::Thread]; [threads] tells which thread objects
    exist, [current] the one the caller runs on. *)

Record RtcThreadManager := mkRtc {
  mThread : option positive;
  threads : gset positive;
  current : option positive
}.
#[export] Instance RtcThreadManager_eta : Eta RtcThreadManager :=
  λ r, mkRtc (mThread r) (threads r) (current r).

Definition LoadRtcThread : M RtcThreadManager (option positive) := gets mThread.
Definition GetRtcThread : M RtcThreadManager (option positive) := LoadRtcThread.

(** A member call on a thread object. *)
Definition on_thread {A} (t : positive) (k : M RtcThreadManager A) : M RtcThreadManager A :=
  let! live := gets threads in
  if bool_decide (t ∈ live) then k else undef DanglingRef.

Definition IsOnThread : M RtcThreadManager bool :=
  let! t := LoadRtcThread in
  match t with
  | Some t => on_thread t (gets (λ r, bool_decide (current r = Some t)))
  | None => ret false
  end.

(** [ServerThread] is a local variable: it is destroyed when [Initialize] returns. *)
Definition Initialize : M RtcThreadManager unit :=
  let! live := gets threads in
  let ServerThread := fresh live in
  modify (λ r, r <| threads ::= union {[ServerThread]} |>) ;;
  modify (λ r, r <| mThread := Some ServerThread |>) ;;
  modify (λ r, r <| threads ::= (λ ts, ts ∖ {[ServerThread]}) |>).

(** [Shutdown] stops the thread (the object stays with its owner) and forgets it. *)
Definition Shutdown : M RtcThreadManager unit :=
  let! t := LoadRtcThread in
  match t with
  | Some t => on_thread t (ret tt) ;; modify (λ r, r <| mThread := None |>)
  | None => ret tt
  end.

(** [Initialize] stores the address of a local: after it, every use of the
    thread is a use of a destroyed object, whatever the threads in existence. *)
Theorem Initialize_leaves_dangling (r : RtcThreadManager) :
  wp Initialize (λ _ r', is_Some (mThread r') ∧ threads r' = threads r
    ∧ IsOnThread r' = Undef DanglingRef r' ∧ Shutdown r' = Undef DanglingRef r') r.
Proof.
  unfold wp, Initialize; cbn. set (t := fresh (threads r)).
  assert (t ∉ threads r) as Ht by apply is_fresh.
  assert (({[t]} ∪ threads r) ∖ {[t]} = threads r) as E by set_solver.
  unfold IsOnThread, Shutdown, LoadRtcThread, on_thread; cbn. rewrite E.
  rewrite bool_decide_eq_false_2 by done. by split_and!.
Qed.

(** A manager that was never initialised is safe to query and shut down,
    and [Shutdown] of a live thread makes the manager report no thread. *)
Lemma thread_manager_lifecycle (r : RtcThreadManager) :
  (mThread r = None → IsOnThread r = Ret false r ∧ Shutdown r = Ret tt r)
  ∧ (∀ t, mThread r = Some t → t ∈ threads r →
      IsOnThread r = Ret (bool_decide (current r = Some t)) r
      ∧ wp Shutdown (λ _ r', GetRtcThread r' = Ret None r' ∧ IsOnThread r' = Ret false r') r).
Proof.
  split.
  - intros Hn. unfold IsOnThread, Shutdown, LoadRtcThread; cbn. by rewrite Hn.
  - intros t Hs Ht. unfold wp, IsOnThread, Shutdown, LoadRtcThread, on_thread; cbn. rewrite Hs; cbn.
    rewrite bool_decide_eq_true_2 by done. by cbn.
Qed.
