(* ===== verification/WebSocket.v ===== *)
(** * connection/WebSocket.cpp and WebSocketSignalingInterfaceImpl.cpp

    The signaling web socket over libHttpClient.  The library is a parameter: its
    handles are reference counted, duplicating a handle adds a reference, closing it
    drops one; a null handle is refused with a negative result.  A [std::function]
    argument is represented by whether it holds a target. *)

From S2P Require Import Prelude.

Definition E_INVALIDARG : Z := -2147024809.

(** Results of the library's [n]th call on a valid handle. *)
Class HttpClient := {
  hc_send : nat → Z;              (* HCWebSocketSendMessageAsync *)
  hc_event_functions : nat → Z;   (* HCWebSocketGetEventFunctions *)
  hc_set_header : nat → Z         (* HCWebSocketSetHeader *)
}.

Record WebSocket := mkWs {
  mWebSocketHandle : option positive;
  mOperationGuard : bool;
  ws_refs : gmap positive nat;         (* references held on each library handle *)
  ws_calls : nat;
  ws_completions : nat;                (* times [onComplete] was invoked *)
  ws_disconnected : list positive;     (* handles whose connection was closed *)
  ws_headers : list (string * string)
}.
#[export] Instance WebSocket_eta : Eta WebSocket := λ r,
  mkWs (mWebSocketHandle r) (mOperationGuard r) (ws_refs r) (ws_calls r) (ws_completions r)
    (ws_disconnected r) (ws_headers r).

(** References on a handle: absent means none. *)
Definition refs (h : positive) (w : WebSocket) : nat := default 0%nat (ws_refs w !! h).

Section WebSocket.
Context `{HttpClient}.

(** A library call whose result depends on its number. *)
Definition hc_call (f : nat → Z) : M WebSocket Z :=
  let! n := gets ws_calls in modify (λ w, w <| ws_calls ::= S |>) ;; ret (f n).

Definition HCWebSocketDuplicateHandle (h : option positive) : M WebSocket (option positive) :=
  match h with
  | None => ret None
  | Some p => modify (λ w, w <| ws_refs ::= <[p := S (refs p w)]> |>) ;; ret (Some p)
  end.
Definition HCWebSocketCloseHandle (h : option positive) : M WebSocket Z :=
  match h with
  | None => ret E_INVALIDARG
  | Some p => modify (λ w, w <| ws_refs ::= <[p := Nat.pred (refs p w)]> |>) ;; ret 0
  end.
Definition HCWebSocketDisconnect (h : option positive) : M WebSocket Z :=
  match h with
  | None => ret E_INVALIDARG
  | Some p => modify (λ w, w <| ws_disconnected ::= cons p |>) ;; ret 0
  end.
Definition HCWebSocketGetEventFunctions (h : option positive) : M WebSocket Z :=
  match h with None => ret E_INVALIDARG | Some _ => hc_call hc_event_functions end.

Definition IsConnected : M WebSocket bool :=
  let! h := gets mWebSocketHandle in ret (match h with Some _ => true | None => false end).

(** Invoking a [std::function] that holds nothing throws. *)
Definition invoke (onComplete : bool) : M WebSocket unit :=
  if onComplete then modify (λ w, w <| ws_completions ::= S |>) else throw BadFunctionCall.

(** [std::lock_guard] on [mOperationGuard]. *)
Definition guarded {A} (body : M WebSocket A) : M WebSocket A := λ w,
  if mOperationGuard w then Undef RelockMutex w else
  match body (w <| mOperationGuard := true |>) with
  | Ret a w' => Ret a (w' <| mOperationGuard := false |>)
  | Throw e w' => Throw e (w' <| mOperationGuard := false |>)
  | o => o
  end.

Definition WebSocket_Send (onComplete : bool) : M WebSocket unit := guarded (
  let! h := gets mWebSocketHandle in
  let! dupHandle := HCWebSocketDuplicateHandle h in
  match dupHandle with
  | None => if onComplete then invoke onComplete else ret tt
  | Some _ =>
    let! send_result := hc_call hc_send in
    if send_result <? 0 then invoke onComplete
    else let! _ := HCWebSocketCloseHandle dupHandle in ret tt
  end).

Definition DeallocateSocketAsync (socket : option positive) : M WebSocket unit :=
  let! r := HCWebSocketGetEventFunctions socket in
  if 0 <=? r then let! _ := HCWebSocketCloseHandle socket in ret tt else ret tt.

Definition DeallocateSocket (handle : option positive) : M WebSocket Z :=
  match handle with
  | None => ret E_INVALIDARG
  | Some _ =>
    let! fetch_result := HCWebSocketGetEventFunctions handle in
    if 0 <=? fetch_result then HCWebSocketCloseHandle handle else ret fetch_result
  end.

(** The handle is cleared first, and the cleared member is what is disconnected. *)
Definition Disconnect : M WebSocket unit :=
  let! m_handle := guarded (
    let! h := gets mWebSocketHandle in
    modify (λ w, w <| mWebSocketHandle := None |>) ;; ret h) in
  match m_handle with
  | None => ret tt
  | Some _ =>
    let! cleared := gets mWebSocketHandle in
    let! _ := HCWebSocketDisconnect cleared in
    DeallocateSocketAsync cleared
  end.

(** The body is a TODO: the function has no return statement. *)
Definition AllocateSocket : M WebSocket (option positive) := undef NoReturn.

(** Headers are set until one is refused. *)
Fixpoint set_headers (headers : list (string * string)) : M WebSocket unit :=
  match headers with
  | [] => ret tt
  | hdr :: rest =>
    let! result := hc_call hc_set_header in
    if result <? 0 then ret tt
    else modify (λ w, w <| ws_headers ::= (λ l, l ++ [hdr]) |>) ;; set_headers rest
  end.

Definition Connect (headers : list (string * string)) (onComplete : bool) : M WebSocket unit :=
  let! h := AllocateSocket in
  modify (λ w, w <| mWebSocketHandle := h |>) ;;
  match h with
  | None => if onComplete then invoke onComplete else ret tt
  | Some _ => set_headers headers
  end.

(** ** WebSocketSignalingInterfaceImpl *)
Definition SignOut : M WebSocket unit := Disconnect.
Definition IsSignedIn : M WebSocket bool := IsConnected.


(** what [Send] does on each branch.  Without a connection it completes
    once with an error, or does nothing if there is no callback; when the library
    accepts the message the reference it took is dropped; when the library refuses, the
    reference is leaked, and a missing callback makes it throw. *)
Theorem WebSocket_Send_outcome (onComplete : bool) (w : WebSocket) :
  mOperationGuard w = false →
  match mWebSocketHandle w with
  | None =>
    wp (WebSocket_Send onComplete) (λ _ w', mOperationGuard w' = false ∧ ws_refs w' = ws_refs w
      ∧ ws_completions w' = (if onComplete then S (ws_completions w) else ws_completions w)) w
  | Some h =>
    if 0 <=? hc_send (ws_calls w) then
      wp (WebSocket_Send onComplete) (λ _ w', mOperationGuard w' = false
        ∧ ws_completions w' = ws_completions w ∧ (∀ k, refs k w' = refs k w)) w
    else ∃ w', WebSocket_Send onComplete w
               = (if onComplete then Ret tt w' else Throw BadFunctionCall w')
      ∧ mOperationGuard w' = false ∧ refs h w' = S (refs h w)
  end.
Proof.
  intros Hg. unfold wp, WebSocket_Send, guarded. rewrite Hg. cbn.
  destruct (mWebSocketHandle w) as [h|] eqn:Hh; cbn; rewrite ?Hh; cbn; [|by destruct onComplete; cbn].
  destruct (Z.leb_spec 0 (hc_send (ws_calls w))); cbn.
  - destruct (Z.ltb_spec (hc_send (ws_calls w)) 0); [lia|]. cbn. split_and!; try done.
    intros k. unfold refs at 1; cbn. destruct (decide (k = h)) as [->|Hne].
    + rewrite lookup_insert_eq. unfold refs; cbn. by rewrite lookup_insert_eq.
    + by rewrite !lookup_insert_ne.
  - destruct (Z.ltb_spec (hc_send (ws_calls w)) 0); [|lia].
    destruct onComplete; cbn; (eexists; split; [done|]; split; [done|]);
      unfold refs; cbn; by rewrite lookup_insert_eq.
Qed.

(** [Disconnect] forgets the handle without closing it: afterwards the
    socket reports it is not connected, but the library handle was neither disconnected
    nor released, because the cleared member is passed to the library. *)
Theorem Disconnect_leaks_handle (h : positive) (w : WebSocket) :
  mOperationGuard w = false → mWebSocketHandle w = Some h →
  wp SignOut (λ _ w', IsSignedIn w' = Ret false w' ∧ mOperationGuard w' = false
    ∧ ws_disconnected w' = ws_disconnected w ∧ (∀ k, refs k w' = refs k w)) w.
Proof.
  intros Hg Hh. unfold wp, SignOut, Disconnect, guarded. cbn. rewrite Hg. cbn. rewrite Hh. cbn.
  by split_and!.
Qed.
End WebSocket.

Definition refusing_client : HttpClient :=
  {| hc_send := λ _, -1; hc_event_functions := λ _, 0; hc_set_header := λ _, 0 |}.
Definition connected_socket : WebSocket := mkWs (Some 1%positive) false {[1%positive := 1%nat]} 0 0 [] [].

Lemma WebSocket_Send_outcome_witness :
  ∃ w', @WebSocket_Send refusing_client false connected_socket = Throw BadFunctionCall w'
    ∧ mOperationGuard w' = false ∧ refs 1 w' = 2%nat.
Proof. exact (@WebSocket_Send_outcome refusing_client false connected_socket eq_refl). Defined.

Lemma Disconnect_leaks_handle_witness :
  wp (@SignOut refusing_client) (λ _ w', IsSignedIn w' = Ret false w' ∧ mOperationGuard w' = false
    ∧ ws_disconnected w' = [] ∧ (∀ k, refs k w' = refs k connected_socket)) connected_socket.
Proof. exact (@Disconnect_leaks_handle refusing_client 1%positive connected_socket eq_refl eq_refl). Defined.
