(* ===== verification/LanSocket.v ===== *)
(** * threadding/LanThreadManager.cpp: creation of the LAN broadcast socket

    [TryCreateDualStackIPv6Socket], [TryCreateBroadcastSocket] and
    [TryCreateEncryptedBroadcastSocket].  The socket server and its sockets are
    parameters; the calls made on the socket are recorded in order. *)

From S2P Require Import Prelude Utils IpAddress SocketAddress Crypto.

Inductive SocketOption :=
| OPT_IPV6_V6ONLY | OPT_SO_BROADCAST | OPT_RCVBUF | OPT_IPV6_JOIN_GROUP | OPT_IPV6_MULTICAST_LOOP.

Inductive socket_call :=
| CallSetOption (opt : SocketOption) (value : Z)
| CallBind (addr : SocketAddress).

(** A socket server: whether [CreateSocket] gives a socket, what each call on it
    returns (0 is success), the error codes reported after a failure. *)
Class SocketServer := {
  CreateSocket : option positive;
  SetOption : SocketOption → Z;
  Bind : Z;
  GetLastError : Z;
  GetError : list socket_call → Z
}.

Record LanSockets := mkLanSockets {
  calls : list socket_call;
  multi_cast_link_local : list Z       (* the global [in6_addr] *)
}.
#[export] Instance LanSockets_eta : Eta LanSockets := λ r, mkLanSockets (calls r) (multi_cast_link_local r).

(** [IPv6AllHostsLinkLocal] is constructed from the global before anything runs. *)
Definition IPv6AllHostsLinkLocal : IPAddress := IPAddress_v6 (zeros 16).
Definition IPv6Any : IPAddress := IPAddress_v6 in6addr_any.

Section Sockets.
Context `{SocketServer}.

Definition set_option (opt : SocketOption) (value : Z) : M LanSockets Z :=
  modify (λ s, s <| calls ::= (λ l, l ++ [CallSetOption opt value]) |>) ;; ret (SetOption opt).
Definition bind_socket (addr : SocketAddress) : M LanSockets Z :=
  modify (λ s, s <| calls ::= (λ l, l ++ [CallBind addr]) |>) ;; ret Bind.
Definition get_error : M LanSockets Z := let! l := gets calls in ret (GetError l).

Definition TryCreateDualStackIPv6Socket (port : Z) : M LanSockets (ErrorOr positive Z) :=
  match CreateSocket with
  | None => ret (result_error GetLastError)
  | Some ip6_socket =>
    let! r := set_option OPT_IPV6_V6ONLY 0 in
    if negb (r =? 0) then let! e := get_error in ret (result_error e) else
    let! r := set_option OPT_SO_BROADCAST 1 in
    if negb (r =? 0) then let! e := get_error in ret (result_error e) else
    let! _ := set_option OPT_RCVBUF 0x8000 in
    let! r := bind_socket (SocketAddress_ip IPv6Any port) in
    if negb (r =? 0) then let! e := get_error in ret (result_error e) else
    modify (λ s, s <| multi_cast_link_local ::=
      (λ b, <[0%nat := 0xFF]> (<[1%nat := 0x02]> (<[15%nat := 0x01]> b))) |>) ;;
    let! _ := set_option OPT_IPV6_JOIN_GROUP 20 in
    let! _ := set_option OPT_IPV6_MULTICAST_LOOP 0 in
    ret (Value ip6_socket)
  end.

(** The error branch inspects the error and does nothing with it. *)
Definition TryCreateBroadcastSocket (port : Z) : M LanSockets (ErrorOr positive Z) :=
  let! try_ip6_socket := TryCreateDualStackIPv6Socket port in
  (if err try_ip6_socket then let! _ := error try_ip6_socket in ret tt else ret tt) ;;
  ret try_ip6_socket.

(** [n] counts the OpenSSL calls made before.  The early return on a failed socket is
    commented out in the source, and the last branch has no return statement. *)
Definition TryCreateEncryptedBroadcastSocket `{OpenSSL} (n : nat) (key port : Z) :
    M LanSockets (ErrorOr OpenSSLAesAdapter Z) :=
  let! socket_create := TryCreateBroadcastSocket port in
  let! _ := value socket_create in
  let aes_adapter := AesAdapter_Create n in
  if err aes_adapter then ret aes_adapter else
  let! a := value aes_adapter in
  match SetKey key a with
  | Ret set_key _ =>
    if err set_key then let! e := error set_key in ret (result_error e) else undef NoReturn
  | Throw e _ => throw e
  | Terminate => terminate
  | Undef f _ => undef f
  end.

(** The steps that decide, in order. *)
Definition mandatory_steps_ok : bool :=
  match CreateSocket with Some _ => true | None => false end 
  && (SetOption OPT_IPV6_V6ONLY =? 0) && (SetOption OPT_SO_BROADCAST =? 0) && (Bind =? 0).

(** The outcome of the dual-stack helper: a socket exactly when it could be created,
    made dual-stack, allowed to broadcast and bound; the receive buffer, the multicast
    group and the loopback option are best effort. *)
Lemma TryCreateDualStackIPv6Socket_spec port s :
  wp (TryCreateDualStackIPv6Socket port) (λ r s',
    has_value r = mandatory_steps_ok
    ∧ (∀ sock, r = Value sock → CreateSocket = Some sock
        ∧ CallBind (SocketAddress_ip IPv6Any port) ∈ calls s')) s.
Proof.
  unfold wp, TryCreateDualStackIPv6Socket, mandatory_steps_ok. cbn.
  destruct CreateSocket as [sock|]; cbn; [|by split].
  destruct (SetOption OPT_IPV6_V6ONLY =? 0); cbn; [|by split].
  destruct (SetOption OPT_SO_BROADCAST =? 0); cbn; [|by split].
  destruct (Bind =? 0); cbn; [|by split].
  split; [done|]. intros sock' [= <-]. split; [done|]. set_solver.
Qed.

(** a broadcast socket is returned exactly when it could be created, made
    dual-stack, allowed to broadcast and bound to the requested port; failures of the
    receive buffer, multicast group and loopback options are tolerated.  The addresses
    the multicast group option is given are still all zero: the global is filled in
    after the address was copied from it. *)
Theorem TryCreateBroadcastSocket_result (port : Z) (s : LanSockets) :
  wp (TryCreateBroadcastSocket port) (λ r s',
    has_value r = mandatory_steps_ok
    ∧ (∀ sock, r = Value sock → CreateSocket = Some sock
        ∧ CallBind (SocketAddress_ip IPv6Any port) ∈ calls s')
    ∧ IPIsAny IPv6AllHostsLinkLocal = true) s.
Proof.
  unfold TryCreateBroadcastSocket. apply wp_bind.
  eapply wp_mono; [|apply TryCreateDualStackIPv6Socket_spec].
  intros r s' [Hv Hs]. unfold wp; cbn. by destruct r; cbn in *; split_and!.
Qed.

End Sockets.

(** [TryCreateEncryptedBroadcastSocket] never returns an adapter: a failed
    socket terminates the process (its error is ignored and [value()] is [noexcept]), a
    failed key gives an error, and a successful one flows off the end of the function. *)
Theorem encrypted_broadcast_socket_never_returned `{SocketServer} `{OpenSSL} `{!OpenSSLLaws _}
    (n : nat) (key port : Z) (s : LanSockets) :
  if mandatory_steps_ok then
    (∃ e s', TryCreateEncryptedBroadcastSocket n key port s = Ret (result_error e) s')
    ∨ (∃ s', TryCreateEncryptedBroadcastSocket n key port s = Undef NoReturn s')
  else TryCreateEncryptedBroadcastSocket n key port s = Terminate.
Proof.
  pose proof (TryCreateDualStackIPv6Socket_spec port s) as Hs.
  unfold wp in Hs. unfold TryCreateEncryptedBroadcastSocket, TryCreateBroadcastSocket. cbn.
  destruct (TryCreateDualStackIPv6Socket port s) as [[sock|e] s'| | |]; try done;
    destruct Hs as [<- _]; cbn; [|done].
  pose proof (SetKey_spec key (AesAdapter_new n) I) as Hk. unfold wp in Hk.
  destruct (SetKey key (AesAdapter_new n)) as [[[]|e] a'| | |]; cbn in Hk |- *; try done; by eauto.
Qed.

Definition working_server : SocketServer := {|
  CreateSocket := Some 1%positive; SetOption := λ _, 0; Bind := 0;
  GetLastError := 0; GetError := λ _, 0
|}.

Lemma encrypted_broadcast_socket_never_returned_witness :
  (∃ e s', @TryCreateEncryptedBroadcastSocket working_server null_openssl 0 0xdeadbeef 7551
             (mkLanSockets [] (zeros 16)) = Ret (result_error e) s')
  ∨ (∃ s', @TryCreateEncryptedBroadcastSocket working_server null_openssl 0 0xdeadbeef 7551
             (mkLanSockets [] (zeros 16)) = Undef NoReturn s').
Proof.
  exact (@encrypted_broadcast_socket_never_returned working_server null_openssl null_openssl_laws
           0 0xdeadbeef 7551 (mkLanSockets [] (zeros 16))).
Defined.
