(* ===== verification/World.v ===== *)
(** * The shared state of the transport

    The objects the components share and the primitives they act through: the session
    objects, the session manager, the network interface, the LAN thread, the data
    channels and peer connections, the signal thread with its queue, and the trace of
    what the application and the network observe.  A closure posted to a thread is
    a constructor of [task]; what it captures by reference is the activation (frame) of
    the function that posted it, which is alive until that function returns.  The
    clock is read once per call: reads within a call see the same instant. *)

From S2P Require Import Prelude Enums Utils IpAddress SocketAddress PeerTable Packets Threads WebSocket.

(** ** Data *)

(** An ICE candidate: its type and an opaque identity. *)
Record Candidate := mkCandidate { cand_type : IceCandidateType; cand_id : Z }.

(** A webrtc data channel, with the messages it was given and its observer object. *)
Record Channel := mkChannel {
  ch_label : string;
  ch_state : DataState;
  ch_sent : list (list Z);
  ch_observer : option positive
}.
#[export] Instance Channel_eta : Eta Channel :=
  λ r, mkChannel (ch_label r) (ch_state r) (ch_sent r) (ch_observer r).

Record IceServer := mkIceServer { uri : string; username : string; password : string }.
#[export] Instance IceServer_eta : Eta IceServer := λ r, mkIceServer (uri r) (username r) (password r).

(** The members of [RTCConfiguration] the program sets. *)
Record RTCConfiguration := mkRtcConfig {
  type_relay : bool;            (* type == kRelay *)
  tcp_disabled : bool;          (* tcp_candidate_policy == kTcpCandidatePolicyDisabled *)
  rtcp_mux_require : bool;      (* rtcp_mux_policy == kRtcpMuxPolicyRequire *)
  servers : list IceServer
}.
#[export] Instance RTCConfiguration_eta : Eta RTCConfiguration :=
  λ r, mkRtcConfig (type_relay r) (tcp_disabled r) (rtcp_mux_require r) (servers r).

(** connection/NetworkSession.hpp; pointers to the manager and to webrtc objects may
    be null. *)
Record NetworkSession := mkSession {
  mConnNegotiationState : ENegotiationState;
  mNegotiationStateTimer : Z;
  mIsOutGoingSession : bool;
  mHasSentAcceptSession : bool;
  mStatsRequestInProgress : bool;
  mConnectionId : Z;
  mRemoteID : Z;
  mpPeerConnection : option positive;
  mDeferredIceCandidates : list Candidate;
  mNetworkSessionMgr : bool;                  (* non-null *)
  mIceConnectionState : IceConnectionState;
  mPeerConnectionState : PeerConnectionState;
  mConnectionStat : Z;
  mUnreliableChannelInterface : option positive;
  mUnreliablePackets : list (list Z);
  mUnreliableChannelState : DataState;
  mReliableChannelInterface : option positive;
  mReliablePackets : list (list Z);
  mReliableChannelState : DataState;
  mIsUsingRelay : bool;
  mCurrentRTT : Z;
  mTotalBytesSent : Z;
  mTotalBytesReceived : Z;
  mTotalPacketLost : Z;
  mIsDeleting : bool;
  mLastStatsUpdate : Z;
  mConnectionFlag : Z;
  mLastSessionActivity : Z;
  mSignalingPreference : option SignalingChannelId
}.
#[export] Instance NetworkSession_eta : Eta NetworkSession := λ r,
  mkSession (mConnNegotiationState r) (mNegotiationStateTimer r) (mIsOutGoingSession r)
    (mHasSentAcceptSession r) (mStatsRequestInProgress r) (mConnectionId r) (mRemoteID r)
    (mpPeerConnection r) (mDeferredIceCandidates r) (mNetworkSessionMgr r) (mIceConnectionState r)
    (mPeerConnectionState r) (mConnectionStat r) (mUnreliableChannelInterface r)
    (mUnreliablePackets r) (mUnreliableChannelState r) (mReliableChannelInterface r)
    (mReliablePackets r) (mReliableChannelState r) (mIsUsingRelay r) (mCurrentRTT r)
    (mTotalBytesSent r) (mTotalBytesReceived r) (mTotalPacketLost r) (mIsDeleting r)
    (mLastStatsUpdate r) (mConnectionFlag r) (mLastSessionActivity r) (mSignalingPreference r).

(** network/NetworkSessionManager.hpp *)
Record NetworkSessionRecord := mkRecord { mOwnSession : option positive; rec_mConnectionId : Z }.
#[export] Instance NetworkSessionRecord_eta : Eta NetworkSessionRecord :=
  λ r, mkRecord (mOwnSession r) (rec_mConnectionId r).

Record NetworkSessionManager := mkManager {
  mPacketData : gmap Z (list Z);
  mSessionCreationMutex : bool;
  mSessionList : gmap Z NetworkSessionRecord;
  mSimpleNetworkInterface : bool              (* non-null *)
}.
#[export] Instance NetworkSessionManager_eta : Eta NetworkSessionManager := λ r,
  mkManager (mPacketData r) (mSessionCreationMutex r) (mSessionList r) (mSimpleNetworkInterface r).

(** connection/SimpleNetworkInterfaceImpl.hpp *)
Record SimpleNetworkInterfaceImpl := mkIface {
  mCallBack : bool;                           (* non-null *)
  mReceiverId : Z;
  iface_mgr : bool;                           (* mNetworkSessionMgr is non-null *)
  mpPeerConnectionFactory : bool;             (* non-null *)
  mApiLevelMutex : bool;
  mRtcConfig : RTCConfiguration;
  mUsernameCert : string;
  mPasswordCert : string;
  mDisableLANSignaling : bool;
  mpWebRTCSignalingInterface : option WebSocket;
  mNegotiationTimeout : Z                     (* seconds *)
}.
#[export] Instance SimpleNetworkInterfaceImpl_eta : Eta SimpleNetworkInterfaceImpl := λ r,
  mkIface (mCallBack r) (mReceiverId r) (iface_mgr r) (mpPeerConnectionFactory r)
    (mApiLevelMutex r) (mRtcConfig r) (mUsernameCert r) (mPasswordCert r)
    (mDisableLANSignaling r) (mpWebRTCSignalingInterface r) (mNegotiationTimeout r).

(** threadding/LanThreadManager.hpp; [std::set<rtc::IPAddress>] is its elements in
    increasing order. *)
Record LanThreadManager := mkLan {
  lan_mRemoteId : Z;
  lan_mPeerRecordTable : option PeerRecordTable;  (* the object pointed to *)
  mSocket : bool;                             (* non-null *)
  mSocketAddress : SocketAddress;
  mBindAddress : SocketAddress;
  mBasicNetworkMgr : bool;                    (* non-null *)
  mEphemeralPort : Z;
  mIds : gset Z;
  mDiscoveredAddresses : list IPAddress;
  lan_current : bool;                         (* the caller runs on this thread *)
  lan_sent : list (list Z * SocketAddress)
}.
#[export] Instance LanThreadManager_eta : Eta LanThreadManager := λ r,
  mkLan (lan_mRemoteId r) (lan_mPeerRecordTable r) (mSocket r) (mSocketAddress r) (mBindAddress r)
    (mBasicNetworkMgr r) (mEphemeralPort r) (mIds r) (mDiscoveredAddresses r) (lan_current r)
    (lan_sent r).

(** ** Closures posted to threads *)

(** The completion passed down to [SendSignalingMessageTo]: none, or the lambda of
    [NetworkSession::SendToSignalingChannel], which captures the local [remoteId]. *)
Inductive completion :=
| CNone
| CSignalingFailed (this : positive) (fr : positive) (remoteId : Z).

(** Closures of the signal thread.  [fr] is the frame of captured locals. *)
Inductive task :=
| TSendPacket (this fr : positive) (send_type : ESendType) (send_buf : list Z)
| TSessionResponse (this : positive)
| TStats
| TClosePeer (this : positive)
| TInitOutgoing (this fr : positive) (remoteID : Z)
| TResetRecord (id : Z)
| TCleanup
| TTurnConfig (owner : positive) (config : string)
| TSetConfig (fr : positive) (config_out : RTCConfiguration)
| TSetServers (fr : positive) (ice_server_list : list IceServer)
| TDiscovery.

(** Closures of the LAN thread. *)
Inductive lan_task :=
| LPing
| LBroadcast
| LEnable
| LDisable (fr : positive) (id : Z)
| LSignal (fr : positive) (src dst : Z) (data_send : list Z) (on_complete : completion).

(** What the application and the peers observe. *)
Inductive event :=
| EvSessionOpen (id : Z)
| EvSessionClose (id : Z) (err : ESessionError)
| EvSessionRequested (id : Z)
| EvBroadcastResponse (id : Z) (data : list Z) (size : Z)
| EvPeerClosed (pc : positive)
| EvSetRemoteDescription (pc : positive) (this : positive)
| EvStartUpdating
| EvUpdateSignaling.

Record World := mkWorld {
  clock : Z;
  sessions : gmap positive NetworkSession;    (* the session objects that exist *)
  manager : NetworkSessionManager;
  iface : SimpleNetworkInterfaceImpl;
  g_SignalThread : RtcThreadManager;
  g_LanThread : option LanThreadManager;
  channels : gmap positive Channel;
  tasks : list task;
  lan_tasks : list lan_task;
  frames : gset positive;                     (* activations still on a stack *)
  next_frame : positive;
  env_calls : nat;                            (* calls answered by the environment *)
  events : list event
}.
#[export] Instance World_eta : Eta World := λ r,
  mkWorld (clock r) (sessions r) (manager r) (iface r) (g_SignalThread r) (g_LanThread r)
    (channels r) (tasks r) (lan_tasks r) (frames r) (next_frame r) (env_calls r) (events r).

(** ** The environment: webrtc, the application's callbacks, jsoncpp *)

Class Env := {
  OnSessionGetConnectionFlags : Z → Z;
  CreatePeerConnectionOrError : nat → option positive;
  CreateDataChannelOrError : nat → string → option positive;
  AddIceCandidate : positive → Candidate → bool;
  CreateID : nat → Z;
  OnBroadcastDiscoveryRequest : nat → option (list Z * Z);
  GetAnyAddressNetworks : nat → list (list InterfaceAddress);
  Json : Type;
  json_parse : string → option Json;
  json_member : Json → string → option Json;   (* operator[]; None: throws *)
  json_asInt : Json → option Z;                (* None: throws *)
  json_asString : Json → option string;
  json_isNull : Json → bool;
  json_isArray : Json → bool;
  json_elements : Json → list Json
}.

(** ** Primitives *)

Definition emit (e : event) : M World unit := modify (λ w, w <| events ::= (λ l, l ++ [e]) |>).

Definition now : M World Z := gets clock.

(** A call numbers itself; the environment answers by number. *)
Definition env_call {A} (f : nat → A) : M World A :=
  let! n := gets env_calls in modify (λ w, w <| env_calls ::= S |>) ;; ret (f n).

(** The activation of a function whose locals are captured by reference. *)
Definition with_frame {A} (body : positive → M World A) : M World A := λ w,
  let fr := next_frame w in
  match body fr (w <| next_frame ::= Pos.succ |> <| frames ::= union {[fr]} |>) with
  | Ret a w' => Ret a (w' <| frames ::= (λ fs, fs ∖ {[fr]}) |>)
  | Throw e w' => Throw e (w' <| frames ::= (λ fs, fs ∖ {[fr]}) |>)
  | Terminate => Terminate
  | Undef f w' => Undef f w'
  end.

(** Reading a local captured by reference. *)
Definition captured {A} (fr : positive) (v : A) : M World A :=
  let! fs := gets frames in if bool_decide (fr ∈ fs) then ret v else undef DanglingRef.

(** Members of a session object. *)
Definition session (this : positive) : M World NetworkSession :=
  let! ss := gets sessions in
  match ss !! this with Some s => ret s | None => undef DanglingRef end.
Definition set_session (this : positive) (f : NetworkSession → NetworkSession) : M World unit :=
  let! s := session this in modify (λ w, w <| sessions ::= <[this := f s]> |>).

Definition on_signal {A} (m : M RtcThreadManager A) : M World A :=
  lift g_SignalThread (λ t w, w <| g_SignalThread := t |>) m.

(** [thread->PostTask(...)] on the signal thread. *)
Definition PostTask (thread : positive) (t : task) : M World unit :=
  on_signal (on_thread thread (ret tt)) ;; modify (λ w, w <| tasks ::= (λ l, l ++ [t]) |>).

(** [if (rtc_thread) rtc_thread->PostTask(...)] after [LoadRtcThread]. *)
Definition post_if_thread (t : task) : M World unit :=
  let! rtc_thread := on_signal LoadRtcThread in
  match rtc_thread with Some th => PostTask th t | None => ret tt end.

(** A scope holding a [std::lock_guard]. *)
Definition with_mutex {A} (held : World → bool) (set : bool → World → World) (body : M World A) : M World A :=
  λ w, if held w then Undef RelockMutex w else
  match body (set true w) with
  | Ret a w' => Ret a (set false w')
  | Throw e w' => Throw e (set false w')
  | Terminate => Terminate
  | Undef f w' => Undef f w'
  end.
Definition api_lock {A} (body : M World A) : M World A :=
  with_mutex (λ w, mApiLevelMutex (iface w)) (λ b w, w <| iface ::= (λ i, i <| mApiLevelMutex := b |>) |>) body.
Definition session_lock {A} (body : M World A) : M World A :=
  with_mutex (λ w, mSessionCreationMutex (manager w))
    (λ b w, w <| manager ::= (λ m, m <| mSessionCreationMutex := b |>) |>) body.

(** [mNetworkSessionMgr->mSimpleNetworkInterface->...] from a session. *)
Definition via_manager (this : positive) : M World unit :=
  let! s := session this in
  if negb (mNetworkSessionMgr s) then undef NullDeref else
  let! m := gets manager in
  if negb (mSimpleNetworkInterface m) then undef NullDeref else ret tt.

(** Data channels. *)
Definition channel (ch : positive) : M World Channel :=
  let! cs := gets channels in match cs !! ch with Some c => ret c | None => undef DanglingRef end.
Definition set_channel (ch : positive) (f : Channel → Channel) : M World unit :=
  let! c := channel ch in modify (λ w, w <| channels ::= <[ch := f c]> |>).
(** [DataChannelInterface::Send] *)
Definition channel_Send (ch : positive) (data : list Z) : M World unit :=
  set_channel ch (λ c, c <| ch_sent ::= (λ l, l ++ [data]) |>).

(** ** SimpleNetworkInterfaceImpl: notifications and flags *)

Definition NotifyOnSessionOpen (id : Z) : M World unit :=
  let! i := gets iface in
  if negb (mCallBack i) then undef NullDeref else emit (EvSessionOpen id).

Definition NotifyOnSessionClose (id : Z) (err : ESessionError) : M World unit :=
  let! i := gets iface in
  if negb (mCallBack i) then undef NullDeref else emit (EvSessionClose id err).

Section Flags.
Context `{Env}.
Definition GetConnectionFlags (remoteId : Z) : M World Z :=
  let! i := gets iface in
  if negb (mCallBack i) then ret 0 else ret (OnSessionGetConnectionFlags remoteId).
End Flags.


(** ** Invariants through the primitives *)

Lemma keeps_with_frame {A} (P : World → Prop) (body : positive → M World A) :
  (∀ w g, P w → P (w <| next_frame ::= g |>)) → (∀ w g, P w → P (w <| frames ::= g |>)) →
  (∀ fr, keeps P (body fr)) → keeps P (with_frame body).
Proof.
  intros Hn Hf Hb w Hw. unfold always, with_frame.
  specialize (Hb (next_frame w) (w <| next_frame ::= Pos.succ |> <| frames ::= union {[next_frame w]} |>)).
  unfold always in Hb. case_match; [apply Hf | apply Hf | done |]; apply Hb; by apply Hf, Hn.
Qed.

Lemma keeps_with_mutex {A} (P : World → Prop) held (set : bool → World → World) (body : M World A) :
  (∀ b w, P w → P (set b w)) → keeps P body → keeps P (with_mutex held set body).
Proof.
  intros Hs Hb w Hw. unfold always, with_mutex. destruct (held w); [done|].
  specialize (Hb (set true w) (Hs true w Hw)). unfold always in Hb. case_match; auto.
Qed.

Lemma keeps_lift {T A} (P : World → Prop) (proj : World → T) (upd : T → World → World) (m : M T A) :
  (∀ t w, P w → P (upd t w)) → keeps P (lift proj upd m).
Proof. intros Hu w Hw. unfold always. cbn. destruct (m (proj w)); auto. Qed.

Lemma keeps_set_session (P : World → Prop) this f :
  (∀ w s, P w → sessions w !! this = Some s → P (w <| sessions ::= <[this := f s]> |>)) →
  keeps P (set_session this f).
Proof.
  intros Hf w Hw. unfold always, set_session, session. cbn.
  destruct (sessions w !! this) as [s|] eqn:E; cbn; [|done]. by apply Hf.
Qed.

(** A frame is gone once the function that owned it has returned. *)
Lemma with_frame_dead {A} (body : positive → M World A) w a w' :
  with_frame body w = Ret a w' → next_frame w ∉ frames w'.
Proof. unfold with_frame. case_match; try done. intros [= <- <-]. cbn. set_solver. Qed.

Lemma captured_dead {A} fr (v : A) w : fr ∉ frames w → captured fr v w = Undef DanglingRef w.
Proof. intros Hf. unfold captured. cbn. by rewrite bool_decide_eq_false_2. Qed.

Lemma captured_live {A} fr (v : A) w : fr ∈ frames w → captured fr v w = Ret v w.
Proof. intros Hf. unfold captured. cbn. by rewrite bool_decide_eq_true_2. Qed.

Arguments with_frame : simpl never.
Arguments captured : simpl never.

(** Primitives that only read keep every predicate. *)
Lemma keeps_now P : keeps P now.
Proof. by intros w. Qed.
Lemma keeps_session P this : keeps P (session this).
Proof. unfold session. keep. Qed.
Lemma keeps_channel P ch : keeps P (channel ch).
Proof. unfold channel. keep. Qed.
Lemma keeps_captured {A} P fr (v : A) : keeps P (captured fr v).
Proof. unfold captured. keep. Qed.
#[export] Hint Resolve keeps_now keeps_session keeps_channel keeps_captured : cpp.
Lemma keeps_via_manager P this : keeps P (via_manager this).
Proof. unfold via_manager. keep. Qed.
Lemma keeps_LoadRtcThread P : keeps P (on_signal LoadRtcThread).
Proof. intros w Hw. unfold always, on_signal. by destruct w. Qed.
#[export] Hint Resolve keeps_via_manager : cpp.

(** ** Executing the primitives on a known session *)

Lemma session_eq this s w : sessions w !! this = Some s → session this w = Ret s w.
Proof. intros Hs. unfold session. cbn. by rewrite Hs. Qed.
Arguments session : simpl never.

Lemma set_session_eq this f s w :
  sessions w !! this = Some s →
  set_session this f w = Ret tt (w <| sessions ::= <[this := f s]> |>).
Proof. intros Hs. unfold set_session. cbn. by rewrite (session_eq this s w Hs). Qed.

(** The session can reach the interface. *)
Definition linked (this : positive) (w : World) : Prop :=
  (∃ s, sessions w !! this = Some s ∧ mNetworkSessionMgr s = true)
  ∧ mSimpleNetworkInterface (manager w) = true.

Lemma via_manager_eq this s w :
  sessions w !! this = Some s → mNetworkSessionMgr s = true →
  mSimpleNetworkInterface (manager w) = true → via_manager this w = Ret tt w.
Proof. intros Hs Hm Hi. unfold via_manager. cbn. rewrite (session_eq this s w Hs), Hm. cbn. by rewrite Hi. Qed.

Lemma channel_Send_eq ch c data w :
  channels w !! ch = Some c →
  channel_Send ch data w
  = Ret tt (w <| channels ::= <[ch := c <| ch_sent ::= (λ l, l ++ [data]) |>]> |>).
Proof. intros Hc. unfold channel_Send, set_channel, channel. cbn. by rewrite Hc. Qed.

Lemma channels_send_eq ch c pkts w :
  channels w !! ch = Some c →
  for_each (channel_Send ch) pkts w
  = Ret tt (w <| channels ::= <[ch := c <| ch_sent ::= (λ l, l ++ pkts) |>]> |>).
Proof.
  revert c w. induction pkts as [|p pkts IH]; intros c w Hc.
  - unfold set_field; cbn. rewrite app_nil_r. destruct c; cbn in *. rewrite insert_id by done. by destruct w.
  - cbn [for_each bind]. rewrite (channel_Send_eq _ _ _ _ Hc).
    rewrite (IH (c <| ch_sent ::= (λ l, l ++ [p]) |>)) by (cbn; by rewrite lookup_insert_eq).
    unfold set_field; cbn. by rewrite insert_insert_eq, <- app_assoc.
Qed.

Arguments set_session : simpl never.
Arguments via_manager : simpl never.
Arguments channel_Send : simpl never.

(** ** A small world, for the examples

    One session (object 1, remote 2) known to the manager, one live signal thread
    (thread 1), a LAN thread with an empty peer table, no closure queued. *)

Definition sample_session : NetworkSession :=
  mkSession NegNone 0 false false false 1 2 None [] true kIceConnectionNew Pc_kNew 0 None [] kClosed
    None [] kClosed false 0 0 0 0 false 0 0 0 None.
Definition sample_manager : NetworkSessionManager :=
  mkManager ∅ false {[2 := mkRecord (Some 1%positive) 1]} true.
Definition sample_iface : SimpleNetworkInterfaceImpl :=
  mkIface true 7 true true false (mkRtcConfig false false false []) "" "" false None 15.
Definition sample_lan : LanThreadManager :=
  mkLan 2 (Some PeerRecordTable_new) true SocketAddress.Clear (SocketAddress_host 0 7551) true 7551 ∅ [] false [].
Definition sample_world : World :=
  mkWorld 0 {[1%positive := sample_session]} sample_manager sample_iface
    (mkRtc (Some 1%positive) {[1%positive]} (Some 1%positive)) (Some sample_lan) ∅ [] [] ∅ 1 0 [].

Definition sample_env : Env := {|
  OnSessionGetConnectionFlags := λ _, 0;
  CreatePeerConnectionOrError := λ _, Some 1%positive;
  CreateDataChannelOrError := λ _ _, None;
  AddIceCandidate := λ _ c, cand_id c <? 10;
  CreateID := λ _, 42;
  OnBroadcastDiscoveryRequest := λ _, None;
  GetAnyAddressNetworks := λ _, [[mkIA (IPAddress_host 0xC0A80101) 0]; [mkIA (IPAddress_host 0x0A000001) 0]];
  Json := unit;
  json_parse := λ _, None;
  json_member := λ _ _, None;
  json_asInt := λ _, None;
  json_asString := λ _, None;
  json_isNull := λ _, true;
  json_isArray := λ _, false;
  json_elements := λ _, []
|}.
