(* ===== verification/Lan.v ===== *)
(** * threadding/LanThreadManager.cpp: discovery and signaling on the LAN

    The operations of the LAN thread over the shared state.  The thread object is
    reached through the global [g_LanThread], which may be null.  Posting to the thread
    appends to its queue; [run_lan_task] is what the thread does with a closure. *)

From S2P Require Import Prelude Enums Utils IpAddress SocketAddress PeerTable Packets Threads WebSocket LanSocket World.

Definition getLanThread : M World LanThreadManager :=
  let! l := gets g_LanThread in deref l.
Definition set_lan (f : LanThreadManager → LanThreadManager) : M World unit :=
  let! l := getLanThread in modify (λ w, w <| g_LanThread := Some (f l) |>).
Definition lan_PostTask (t : lan_task) : M World unit :=
  modify (λ w, w <| lan_tasks ::= (λ l, l ++ [t]) |>).

(** The peer table behind its pointer, used through the [PeerDirectory] interface. *)
Definition on_peers {A} (m : M PeerRecordTable A) : M World A :=
  let! l := getLanThread in
  let! t := deref (lan_mPeerRecordTable l) in
  λ w,
    let upd t' := w <| g_LanThread := Some (l <| lan_mPeerRecordTable := Some t' |>) |> in
    match m t with
    | Ret a t' => Ret a (upd t')
    | Throw e t' => Throw e (upd t')
    | Terminate => Terminate
    | Undef f t' => Undef f (upd t')
    end.

Definition IsNetworkIdOnLan (id : Z) : M World bool :=
  let! t := now in on_peers (pd_contains t id).

Definition ShouldBeginNetworkDiscovery : M World bool :=
  let! l := getLanThread in ret (negb (mBasicNetworkMgr l)).

Definition BeginNetworkDiscovery : M World unit :=
  set_lan (λ l, l <| mBasicNetworkMgr := true |>) ;; emit EvStartUpdating.

(** [mSocket->SendTo(data, size, addr)] reads [size] bytes at [data]. *)
Definition lan_SendTo (data : list Z) (size : nat) (addr : SocketAddress) : M World unit :=
  let! l := getLanThread in
  if negb (mSocket l) then undef NullDeref else
  if (length data <? size)%nat then undef OutOfBounds else
  set_lan (λ l, l <| lan_sent ::= (λ s, s ++ [(take size data, addr)]) |>).

(** Every path sends to the mapped IPv6 address, most after sending to the address
    itself, and the function ends without returning its [std::error_code]. *)
Definition SendToHelper (data : list Z) (size : nat) (addr : SocketAddress) : M World Z :=
  let! l := getLanThread in
  (if negb (family_eqb (sa_family (mBindAddress l)) AF_INET6) || negb (family_eqb (sa_family addr) AF_INET)
   then lan_SendTo data size addr else ret tt) ;;
  let dst_addr := SocketAddress_ip (AsIPv6Address (ip_ addr)) (port_ addr) in
  lan_SendTo data size dst_addr ;;
  undef NoReturn.

(** From another thread, [BlockingCall] runs the body on the LAN thread. *)
Definition IsBroadcastDiscoveryEnabled (id : Z) : M World bool :=
  let! l := getLanThread in
  if lan_current l then ret (bool_decide (id ∈ mIds l))
  else
    set_lan (λ l, l <| lan_current := true |>) ;;
    let! on_lan := getLanThread in
    let isEnabled := bool_decide (id ∈ mIds on_lan) in
    set_lan (λ l, l <| lan_current := false |>) ;;
    ret isEnabled.

(** [mem] is the previous contents of the storage of the packet object. *)
Definition SendLanBroadcastRequest (mem : list Z) (id : Z) : M World unit :=
  let disc_req_pkt := DiscoveryRequestPacket_new id in
  let! l := getLanThread in
  for_each (λ ip,
    let length := Z.to_nat (PacketLength (req_base disc_req_pkt)) in
    let send_addr := SocketAddress_ip ip (mEphemeralPort l) in
    let! send_result := SendToHelper (request_image mem disc_req_pkt) length send_addr in
    ret tt) (mDiscoveredAddresses l).

Definition SendLanBroadcastResponse (addr : SocketAddress) (packet : DiscoveryResponsePacket) :
    M World unit := ret tt.
Definition CreateEncryptedBroadcastSocket : M World unit := ret tt.

Definition BroadcastTask (mem : list Z) : M World unit :=
  let! should := ShouldBeginNetworkDiscovery in
  when should BeginNetworkDiscovery ;;
  let! l := getLanThread in
  for_each (SendLanBroadcastRequest mem) (elements (mIds l)) ;;
  lan_PostTask LBroadcast.

(** The identifier is not inserted into [mIds]; from another thread the call is
    repeated with the member [mRemoteId]. *)
Definition EnableBroadcastDiscovery (id : Z) : M World unit :=
  let! l := getLanThread in
  if lan_current l then lan_PostTask LBroadcast else lan_PostTask LEnable.

Definition DisableBroadcastDiscovery (id : Z) : M World unit :=
  let! l := getLanThread in
  if negb (lan_current l) then with_frame (λ fr, lan_PostTask (LDisable fr id))
  else set_lan (λ l, l <| mIds ::= (λ s, s ∖ {[id]}) |>).

Definition DestroyLanResources : M World unit :=
  set_lan (λ l, l <| mSocketAddress := SocketAddress.Clear |>).

(** The completion passed by [NetworkSession::SendToSignalingChannel] closes the
    session whatever the error code is. *)
Definition invoke_completion (c : completion) : M World unit :=
  match c with
  | CNone => ret tt
  | CSignalingFailed this fr remoteId =>
    via_manager this ;;
    let! id := captured fr remoteId in
    NotifyOnSessionClose id ESessionErrorSignalingFailedToSend
  end.

Definition SendSignalingMessageTo (src dst : Z) (data : list Z) (on_complete : completion) : M World unit :=
  let! l := getLanThread in
  if lan_current l then
    let! t := now in
    let! found := on_peers (pd_find t dst) in
    match found with
    | Some addr =>
      (* the packet's array is not initialised; only the length is used *)
      let! discovery_msg_pkt := DiscoveryMessagePacket_new unread_array src dst data in
      let! _ := SendToHelper data (Z.to_nat (PacketLength (msg_base discovery_msg_pkt))) addr in
      invoke_completion on_complete
    | None => ret tt
    end
  else with_frame (λ fr, lan_PostTask (LSignal fr src dst data on_complete)).

(** ** Received packets *)

(** The body computes the packet type and has no return statement. *)
Definition TryMakePacketStorage (data : list Z) : M World (list Z) := undef NoReturn.

(** A [uint64_t] or [uint16_t] read at an offset of the datagram. *)
Definition read_at (off n : nat) (data : list Z) : M World Z :=
  if (off + n <=? length data)%nat then ret (le_combine (take n (drop off data))) else undef OutOfBounds.

(** What follows the construction of the storage: the sender is recorded and, when new,
    pinged; the packet is handed to the signal thread. *)
Definition on_stored_packet (data : list Z) (addr : SocketAddress) : M World unit :=
  let! network_id := read_at 4 8 data in
  (if negb (network_id =? 0) then
     let! packet_id := read_at 2 2 data in
     if negb (packet_id =? 0) then
       let! t := now in
       let! is_new := on_peers (pd_add t network_id addr) in
       when is_new (lan_PostTask LPing)
     else ret tt
   else ret tt) ;;
  post_if_thread TDiscovery.

Definition OnPacket (data : list Z) (addr : SocketAddress) : M World unit :=
  let size := Z.of_nat (length data) in
  if (4 <=? size) && (wire_length data <=? size) then
    let! dataStorage := TryMakePacketStorage data in
    match dataStorage !! 1176%nat with
    | None => undef OutOfBounds
    | Some flag => if negb (flag =? 0) then on_stored_packet data addr else ret tt
    end
  else ret tt.

(** ** Network discovery *)

(** [std::set::insert] of an address, the set being kept in increasing order. *)
Fixpoint set_insert (a : IPAddress) (l : list IPAddress) : list IPAddress :=
  match l with
  | [] => [a]
  | b :: l' => if ip_ltb a b then a :: l else if ip_ltb b a then b :: set_insert a l' else l
  end.

(** [~(-1 << -(char)ip6_flags)] as a 32-bit value; the shift count must be in
    [0, 32). *)
Definition host_bits (ip6_flags : Z) : M World Z :=
  let count := - sint 8 ip6_flags in
  if (0 <=? count) && (count <? 32) then ret (2 ^ count - 1) else undef BadShift.

Definition consider_address (a : InterfaceAddress) (broadcast_domain_list : list IPAddress) :
    M World (list IPAddress) :=
  let ip := ia_ip a in
  if IPIsLoopback ip then ret broadcast_domain_list else
  let! l := getLanThread in
  match family_ ip with
  | AF_INET =>
    if IPIsLinkLocal ip then ret broadcast_domain_list else
    let! bits := host_bits (ipv6_flags_ a) in
    ret (set_insert (IPAddress_host (Z.lor (NetworkToHost32 (ipv4_address ip)) bits)) broadcast_domain_list)
  | AF_INET6 =>
    if family_eqb (sa_family (mBindAddress l)) AF_INET6
    then ret (set_insert IPv6AllHostsLinkLocal broadcast_domain_list)
    else ret broadcast_domain_list
  | AF_UNSPEC => ret broadcast_domain_list
  end.

Fixpoint consider_addresses (ips : list InterfaceAddress) (acc : list IPAddress) : M World (list IPAddress) :=
  match ips with
  | [] => ret acc
  | a :: ips' => let! acc' := consider_address a acc in consider_addresses ips' acc'
  end.

(** The swap and the clear are inside the loop over the networks. *)
Fixpoint discovery_loop (networks : list (list InterfaceAddress)) (broadcast_domain_list : list IPAddress) :
    M World unit :=
  match networks with
  | [] => ret tt
  | network :: rest =>
    let! found := consider_addresses network broadcast_domain_list in
    set_lan (λ l, l <| mDiscoveredAddresses := found |>) ;;
    discovery_loop rest []
  end.

Section LanEnv.
Context `{Env}.

Definition OnNetworkDiscoveryComplete : M World unit :=
  let! l := getLanThread in
  if negb (mBasicNetworkMgr l) then undef NullDeref else
  let! network_list := env_call GetAnyAddressNetworks in
  discovery_loop network_list [].
End LanEnv.

(** ** The LAN thread runs a closure *)

Definition run_lan_task (mem : list Z) (t : lan_task) : M World unit :=
  set_lan (λ l, l <| lan_current := true |>) ;;
  (match t with
   | LPing => let! l := getLanThread in
              SendSignalingMessageTo 0 (lan_mRemoteId l) [80; 105; 110; 103] CNone
   | LBroadcast => BroadcastTask mem
   | LEnable => let! l := getLanThread in EnableBroadcastDiscovery (lan_mRemoteId l)
   | LDisable fr id => let! i := captured fr id in DisableBroadcastDiscovery i
   | LSignal fr src dst data on_complete =>
     let! s := captured fr src in SendSignalingMessageTo s dst data on_complete
   end) ;;
  set_lan (λ l, l <| lan_current := false |>).

(** ** Broadcast identifiers *)

Definition lan_ids (w : World) : gset Z := match g_LanThread w with Some l => mIds l | None => ∅ end.

(** Everything the program does with the LAN thread. *)
Inductive lan_op :=
| OpEnable (id : Z) | OpDisable (id : Z) | OpIsEnabled (id : Z) | OpIsOnLan (id : Z)
| OpSignal (src dst : Z) (data : list Z) | OpPacket (data : list Z) (addr : SocketAddress)
| OpTask (t : lan_task) | OpDiscovered | OpDestroy.

Definition run_lan_op `{Env} (mem : list Z) (o : lan_op) : M World unit :=
  match o with
  | OpEnable id => EnableBroadcastDiscovery id
  | OpDisable id => DisableBroadcastDiscovery id
  | OpIsEnabled id => let! _ := IsBroadcastDiscoveryEnabled id in ret tt
  | OpIsOnLan id => let! _ := IsNetworkIdOnLan id in ret tt
  | OpSignal src dst data => SendSignalingMessageTo src dst data CNone
  | OpPacket data addr => OnPacket data addr
  | OpTask t => run_lan_task mem t
  | OpDiscovered => OnNetworkDiscoveryComplete
  | OpDestroy => DestroyLanResources
  end.

Section IdsShrink.
Context `{Env}.
Variable ids : gset Z.

Definition ids_within (w : World) : Prop := lan_ids w ⊆ ids.

Lemma keeps_ids_lan : keeps ids_within getLanThread.
Proof. unfold getLanThread. keep. Qed.
Lemma keeps_ids_set f : (∀ l, mIds (f l) ⊆ mIds l) → keeps ids_within (set_lan f).
Proof.
  intros Hf w Hw. unfold always, set_lan, getLanThread. cbn.
  unfold ids_within, lan_ids in Hw |- *. destruct (g_LanThread w) as [l|] eqn:E; cbn; [|by rewrite E].
  by rewrite Hf.
Qed.
Lemma keeps_ids_emit e : keeps ids_within (emit e).
Proof. by apply keeps_modify. Qed.
Lemma keeps_ids_post t : keeps ids_within (lan_PostTask t).
Proof. by apply keeps_modify. Qed.
Lemma keeps_ids_peers {A} (m : M PeerRecordTable A) : keeps ids_within (on_peers m).
Proof.
  intros w Hw. unfold always, on_peers, getLanThread. cbn.
  unfold ids_within, lan_ids in Hw |- *. destruct (g_LanThread w) as [l|] eqn:E; cbn; [|by rewrite E].
  destruct (lan_mPeerRecordTable l) as [t|]; cbn; [|by rewrite E]. by destruct (m t); cbn.
Qed.
Lemma keeps_ids_frame {A} (body : positive → M World A) :
  (∀ fr, keeps ids_within (body fr)) → keeps ids_within (with_frame body).
Proof. by apply keeps_with_frame. Qed.
Lemma keeps_ids_signal {A} (m : M RtcThreadManager A) : keeps ids_within (on_signal m).
Proof. by apply keeps_lift. Qed.

Hint Resolve keeps_ids_lan keeps_ids_emit keeps_ids_post keeps_ids_peers keeps_ids_frame
  keeps_ids_signal : cpp.
Hint Extern 1 (keeps ids_within (set_lan _)) => apply keeps_ids_set; set_solver : cpp.
Hint Extern 1 (keeps ids_within (modify _)) => by apply keeps_modify : cpp.

Lemma keeps_ids_notify id e : keeps ids_within (NotifyOnSessionClose id e).
Proof. unfold NotifyOnSessionClose. keep. Qed.
Lemma keeps_ids_completion c : keeps ids_within (invoke_completion c).
Proof. destruct c; cbn; keep; apply keeps_ids_notify. Qed.
Lemma keeps_ids_SendToHelper data size addr : keeps ids_within (SendToHelper data size addr).
Proof. unfold SendToHelper, lan_SendTo. keep. Qed.
Lemma keeps_ids_message array src dst data :
  keeps ids_within (DiscoveryMessagePacket_new array src dst data).
Proof. unfold DiscoveryMessagePacket_new, memcpy. keep. Qed.
Hint Resolve keeps_ids_completion keeps_ids_SendToHelper keeps_ids_message : cpp.

Lemma keeps_ids_Signal src dst data c : keeps ids_within (SendSignalingMessageTo src dst data c).
Proof. unfold SendSignalingMessageTo. keep. Qed.
Lemma keeps_ids_Broadcast mem : keeps ids_within (BroadcastTask mem).
Proof.
  unfold BroadcastTask, ShouldBeginNetworkDiscovery, BeginNetworkDiscovery, SendLanBroadcastRequest. keep.
Qed.
Lemma keeps_ids_Enable id : keeps ids_within (EnableBroadcastDiscovery id).
Proof. unfold EnableBroadcastDiscovery. keep. Qed.
Lemma keeps_ids_Disable id : keeps ids_within (DisableBroadcastDiscovery id).
Proof. unfold DisableBroadcastDiscovery. keep. Qed.
Hint Resolve keeps_ids_Signal keeps_ids_Broadcast keeps_ids_Enable keeps_ids_Disable : cpp.

Lemma keeps_ids_addresses ips acc : keeps ids_within (consider_addresses ips acc).
Proof.
  revert acc. induction ips; intros acc; cbn; [keep|].
  unfold consider_address, host_bits. keep.
Qed.
Hint Resolve keeps_ids_addresses : cpp.
Lemma keeps_ids_discovery nets acc : keeps ids_within (discovery_loop nets acc).
Proof. revert acc. induction nets; intros acc; cbn; keep. Qed.
Hint Resolve keeps_ids_discovery : cpp.

Lemma keeps_ids_op mem o : keeps ids_within (run_lan_op mem o).
Proof.
  destruct o; cbn; unfold IsBroadcastDiscoveryEnabled, IsNetworkIdOnLan, OnPacket,
    TryMakePacketStorage, on_stored_packet, read_at, post_if_thread, PostTask, run_lan_task,
    OnNetworkDiscoveryComplete, env_call, DestroyLanResources; keep.
Qed.
End IdsShrink.

Lemma IsBroadcastDiscoveryEnabled_spec id w :
  is_Some (g_LanThread w) →
  wp (IsBroadcastDiscoveryEnabled id) (λ b _, b = bool_decide (id ∈ lan_ids w)) w.
Proof.
  intros [l Hl]. unfold wp, IsBroadcastDiscoveryEnabled, set_lan, getLanThread, lan_ids. cbn. rewrite Hl. cbn.
  by destruct (lan_current l); cbn; rewrite ?Hl.
Qed.

Lemma always_mono {S A} (P Q : S → Prop) (m : M S A) s :
  (∀ t, P t → Q t) → always P m s → always Q m s.
Proof. unfold always. destruct (m s); auto. Qed.

(** broadcast discovery can never be switched on.  Whatever the program does
    with the LAN thread, in whatever order and with whatever outcome, no identifier is
    ever added to [mIds]: [EnableBroadcastDiscovery] does not insert its argument, so
    [IsBroadcastDiscoveryEnabled] stays false for an id that was not there initially. *)
Theorem broadcast_ids_never_grow `{Env} (mem : list Z) (ops : list lan_op) (w : World) :
  always (λ w', lan_ids w' ⊆ lan_ids w
    ∧ (∀ id, id ∉ lan_ids w → is_Some (g_LanThread w') →
        wp (IsBroadcastDiscoveryEnabled id) (λ b _, b = false) w'))
    (for_each (run_lan_op mem) ops) w.
Proof.
  eapply always_mono; [|apply (keeps_for_each (ids_within (lan_ids w))); [|unfold ids_within; done]].
  - intros w' Hw'. split; [done|]. intros id Hid Hl. eapply wp_mono; [|by apply IsBroadcastDiscoveryEnabled_spec].
    intros b _ ->. apply bool_decide_eq_false_2. unfold ids_within in Hw'. set_solver.
  - intros o. apply keeps_ids_op.
Qed.

(** ** Network discovery *)

(** The addresses a network contributes when no interface flag is set. *)
Definition viable (v6_bound : bool) (a : InterfaceAddress) : option IPAddress :=
  let ip := ia_ip a in
  if IPIsLoopback ip then None else
  match family_ ip with
  | AF_INET => if IPIsLinkLocal ip then None else Some ip
  | AF_INET6 => if v6_bound then Some (IPAddress_v6 (zeros 16)) else None
  | AF_UNSPEC => None
  end.

Definition broadcast_domain (v6_bound : bool) (ips : list InterfaceAddress) : list IPAddress :=
  fold_left (λ acc a, match viable v6_bound a with Some b => set_insert b acc | None => acc end) ips [].

Definition unflagged (a : InterfaceAddress) : Prop := ip_wf (ia_ip a) ∧ ipv6_flags_ a = 0.

Lemma consider_address_spec a acc l w :
  g_LanThread w = Some l → unflagged a →
  consider_address a acc w
  = Ret (match viable (family_eqb (sa_family (mBindAddress l)) AF_INET6) a with
         | Some b => set_insert b acc | None => acc end) w.
Proof.
  intros Hl [Hwf Hf]. unfold consider_address, viable, getLanThread.
  destruct (IPIsLoopback (ia_ip a)); [done|]. cbn. rewrite Hl. cbn.
  destruct (family_ (ia_ip a)) eqn:Efam; cbn; [done| |].
  - destruct (IPIsLinkLocal (ia_ip a)); [done|]. rewrite Hf. cbn [bind].
    change (host_bits 0 w) with (Ret (S := World) 0 w). cbn [ret].
    rewrite Z.lor_0_r. do 2 f_equal. rewrite (ip_v4_eta (ia_ip a)) at 2 by done.
    unfold IPAddress_host, IPAddress_v4. f_equal.
    by rewrite HostToNetwork32_NetworkToHost32 by auto using length_ipv4_address, ipv4_address_ok.
  - by destruct (family_eqb _ _).
Qed.

Lemma consider_addresses_spec ips acc l w :
  g_LanThread w = Some l → Forall unflagged ips →
  consider_addresses ips acc w
  = Ret (fold_left (λ acc a, match viable (family_eqb (sa_family (mBindAddress l)) AF_INET6) a with
           | Some b => set_insert b acc | None => acc end) ips acc) w.
Proof.
  intros Hl Hips. revert acc. induction Hips as [|a ips Ha Hips IH]; intros acc; [done|].
  cbn [consider_addresses fold_left]. cbn [bind].
  rewrite (consider_address_spec a acc l w Hl Ha). apply IH.
Qed.

(** network discovery keeps the addresses of the last network only.  For
    interface addresses without flags, the list of addresses to broadcast to is, for the
    last network, each usable IPv4 address itself (not the broadcast address of its
    subnet) and the all-zero IPv6 address (not FF02::1) when the socket is bound to IPv6;
    what the networks before it contributed is swapped out. *)
Theorem discovery_keeps_last_network `{Env} (l : LanThreadManager) (w : World)
    (networks : list (list InterfaceAddress)) (last : list InterfaceAddress) :
  g_LanThread w = Some l → mBasicNetworkMgr l = true →
  GetAnyAddressNetworks (env_calls w) = networks ++ [last] →
  Forall (Forall unflagged) (networks ++ [last]) →
  wp OnNetworkDiscoveryComplete (λ _ w', ∃ l', g_LanThread w' = Some l'
    ∧ mDiscoveredAddresses l'
      = broadcast_domain (family_eqb (sa_family (mBindAddress l)) AF_INET6) last
    ∧ mBindAddress l' = mBindAddress l) w.
Proof.
  intros Hl Hm Hnets Hflags. unfold OnNetworkDiscoveryComplete, getLanThread.
  unfold wp. cbn. rewrite Hl. cbn. rewrite Hm. cbn. rewrite Hnets.
  set (w1 := w <| env_calls ::= S |>). assert (g_LanThread w1 = Some l) as Hl1 by done. clearbody w1.
  clear Hl Hm Hnets. revert l w1 Hl1. unfold broadcast_domain.
  induction networks as [|net networks IH]; intros l w1 Hl1;
    apply list.Forall_cons in Hflags as [Hnet Hflags]; cbn [app discovery_loop bind];
    rewrite (consider_addresses_spec _ _ l w1 Hl1 Hnet); unfold set_lan, getLanThread; cbn; rewrite Hl1; cbn.
  - by eexists.
  - match goal with |- context [Some (l <| mDiscoveredAddresses := ?x |>)] =>
      exact (IH Hflags (l <| mDiscoveredAddresses := x |>)
               (w1 <| g_LanThread := Some (l <| mDiscoveredAddresses := x |>) |>) eq_refl)
    end.
Qed.

(** ** Packets and signaling *)

Lemma on_peers_wp {A} (m : M PeerRecordTable A) (Q : A → World → Prop) w l t :
  g_LanThread w = Some l → lan_mPeerRecordTable l = Some t →
  wp m (λ a t', Q a (w <| g_LanThread := Some (l <| lan_mPeerRecordTable := Some t' |>) |>)) t →
  wp (on_peers m) Q w.
Proof.
  intros Hl Ht. unfold wp, on_peers, getLanThread. cbn. rewrite Hl. cbn. rewrite Ht. cbn. by destruct (m t).
Qed.

(** The LAN thread exists and its peer table stands for the directory [m]. *)
Definition lan_knows (w : World) (m : gmap Z SocketAddress) : Prop :=
  match g_LanThread w with
  | Some l => match lan_mPeerRecordTable l with Some t => pd_rep t m | None => False end
  | None => False
  end.

Lemma lan_knows_inv w m :
  lan_knows w m → ∃ l t, g_LanThread w = Some l ∧ lan_mPeerRecordTable l = Some t ∧ pd_rep t m.
Proof.
  unfold lan_knows. destruct (g_LanThread w) as [l|]; [|done].
  destruct (lan_mPeerRecordTable l) as [t|] eqn:E; [|done]. eauto.
Qed.

Lemma IsNetworkIdOnLan_spec id w m :
  lan_knows w m → IsNetworkIdOnLan id w = Ret (bool_decide (is_Some (m !! id))) w.
Proof.
  intros (l & t & Hl & Ht & Hr)%lan_knows_inv.
  unfold IsNetworkIdOnLan, on_peers, getLanThread. cbn -[pd_contains]. rewrite Hl. cbn -[pd_contains].
  rewrite Ht. cbn -[pd_contains]. pose proof (pd_contains_spec (clock w) id t m Hr) as Hc. unfold wp in Hc.
  destruct (pd_contains (clock w) id t) as [b t'|e t'| |f t']; try done. destruct Hc as [-> ->].
  unfold set_field; cbn. destruct w, l; cbn in *. by subst.
Qed.
Arguments IsNetworkIdOnLan : simpl never.
Arguments DiscoveryMessagePacket_new : simpl never.

(** a stored packet with a sender and a type other than Request registers the
    sender: afterwards the directory maps it to the address the packet came from, the
    peer is on the LAN, and a ping is queued exactly when the sender was unknown. *)
Theorem stored_packet_registers_sender (data : list Z) (addr : SocketAddress) (w : World)
    (m : gmap Z SocketAddress) :
  lan_knows w m → mThread (g_SignalThread w) = None →
  (12 ≤ length data)%nat → wire_network_id data ≠ 0 → wire_type data ≠ 0 →
  wp (on_stored_packet data addr) (λ _ w',
    lan_knows w' (<[wire_network_id data := addr]> m)
    ∧ lan_tasks w' = lan_tasks w ++ (match m !! wire_network_id data with Some _ => [] | None => [LPing] end)
    ∧ wp (IsNetworkIdOnLan (wire_network_id data)) (λ b _, b = true) w') w.
Proof.
  intros (l & t & Hl & Ht & Hr)%lan_knows_inv Hth Hlen Hid Hty. unfold on_stored_packet, read_at.
  rewrite (proj2 (Nat.leb_le (4 + 8) (length data))), (proj2 (Nat.leb_le (2 + 2) (length data))) by lia.
  fold (wire_network_id data) (wire_type data). apply wp_bind. unfold wp at 1; cbn [ret].
  apply wp_bind. rewrite (proj2 (Z.eqb_neq _ _) Hid). cbn [negb]. apply wp_bind. unfold wp at 1; cbn [ret].
  rewrite (proj2 (Z.eqb_neq _ _) Hty). cbn [negb]. apply wp_bind. unfold wp at 1; cbn.
  apply wp_bind. apply (on_peers_wp _ _ _ l t Hl Ht).
  eapply wp_mono; [|apply (pd_add_spec (clock w) (wire_network_id data) addr t m Hr)].
  intros b t' [-> Hr']. set (w1 := w <| g_LanThread := _ |>).
  assert (lan_knows w1 (<[wire_network_id data := addr]> m)) as Hk by done.
  assert (∀ w2, g_LanThread w2 = g_LanThread w1 →
    wp (IsNetworkIdOnLan (wire_network_id data)) (λ b _, b = true) w2) as Hon.
  { intros w2 E. apply wp_bind. unfold wp at 1; cbn. eapply on_peers_wp; [by rewrite E | done |].
    eapply wp_mono; [|apply (pd_contains_spec (clock w2) (wire_network_id data) t' _ Hr')].
    intros b t'' [-> _]. by rewrite lookup_insert_eq, bool_decide_eq_true_2. }
  unfold wp, post_if_thread, lan_PostTask. destruct (m !! wire_network_id data); cbn;
    rewrite Hth; cbn; (split_and!; [done | by rewrite ?app_nil_r | by apply Hon]).
Qed.

(** A discovery request of another instance cannot be handled.  The datagram
    [SendLanBroadcastRequest] emits passes the length checks of [OnPacket], and
    [TryMakePacketStorage], which has no return statement, is reached; a datagram shorter
    than 4 bytes, or than the length it announces, is ignored. *)
Theorem OnPacket_received_request (mem : list Z) (id : Z) (addr : SocketAddress) (w : World) (junk : list Z) :
  length mem = 24%nat →
  OnPacket (take 20 (request_image mem (DiscoveryRequestPacket_new id))) addr w = Undef NoReturn w
  ∧ ((length junk < 4)%nat ∨ Z.of_nat (length junk) < wire_length junk → OnPacket junk addr w = Ret tt w).
Proof.
  intros Hm. split.
  - do 16 (destruct mem as [|? mem]; [discriminate|]).
    assert (length mem = 8%nat) as Hr by (cbn in Hm; lia).
    pose proof (request_image_fields z z0 z1 z2 z3 z4 z5 z6 z7 z8 z9 z10 z11 z12 z13 z14 mem id Hr) as Hi.
    cbn [app] in Hi. rewrite Hi. reflexivity.
  - intros Hj. unfold OnPacket. destruct (Z.leb_spec 4 (Z.of_nat (length junk))); cbn; [|done].
    destruct (Z.leb_spec (wire_length junk) (Z.of_nat (length junk))); [lia|done].
Qed.

Lemma unflagged_host x : unflagged (mkIA (IPAddress_host x) 0).
Proof. split; [apply IPAddress_host_wf | done]. Qed.

Lemma discovery_keeps_last_network_witness :
  wp (@OnNetworkDiscoveryComplete sample_env) (λ _ w', ∃ l', g_LanThread w' = Some l'
    ∧ mDiscoveredAddresses l' = [IPAddress_host 0x0A000001]
    ∧ mBindAddress l' = mBindAddress sample_lan) sample_world.
Proof.
  apply (@discovery_keeps_last_network sample_env sample_lan sample_world
           [[mkIA (IPAddress_host 0xC0A80101) 0]] [mkIA (IPAddress_host 0x0A000001) 0]);
    [reflexivity | reflexivity | reflexivity |].
  repeat first [apply unflagged_host | apply List.Forall_nil | apply List.Forall_cons].
Defined.

Definition sample_packet : list Z := [12; 0; 2; 0; 9; 0; 0; 0; 0; 0; 0; 0].
Definition sample_threadless : World := sample_world <| g_SignalThread := mkRtc None ∅ None |>.

Lemma stored_packet_registers_sender_witness :
  wp (on_stored_packet sample_packet (SocketAddress_host 1 2)) (λ _ w',
    lan_knows w' (<[wire_network_id sample_packet := SocketAddress_host 1 2]> ∅)
    ∧ lan_tasks w' = lan_tasks sample_threadless
        ++ (match (∅ : gmap Z SocketAddress) !! wire_network_id sample_packet with
            | Some _ => [] | None => [LPing] end)
    ∧ wp (IsNetworkIdOnLan (wire_network_id sample_packet)) (λ b _, b = true) w') sample_threadless.
Proof.
  apply (stored_packet_registers_sender sample_packet (SocketAddress_host 1 2) sample_threadless ∅);
    [split; [reflexivity | apply fmap_empty] | reflexivity | cbn; lia | discriminate | discriminate].
Defined.

Lemma OnPacket_received_request_witness :
  OnPacket (take 20 (request_image (replicate 24 0) (DiscoveryRequestPacket_new 7)))
    (SocketAddress_host 1 2) sample_world = Undef NoReturn sample_world
  ∧ ((length [1] < 4)%nat ∨ Z.of_nat (length [1]) < wire_length [1] →
     OnPacket [1] (SocketAddress_host 1 2) sample_world = Ret tt sample_world).
Proof.
  exact (OnPacket_received_request (replicate 24 0) 7 (SocketAddress_host 1 2) sample_world [1] eq_refl).
Defined.

Lemma lan_SendTo_ok data addr w l :
  g_LanThread w = Some l → mSocket l = true →
  lan_SendTo data (length data) addr w
  = Ret tt (w <| g_LanThread := Some (l <| lan_sent ::= (λ s, s ++ [(data, addr)]) |>) |>).
Proof.
  intros Hl Hs. unfold lan_SendTo, set_lan, getLanThread. rewrite Nat.ltb_irrefl, take_ge by lia.
  cbn. rewrite Hl. cbn. rewrite Hs. cbn. by rewrite Hl.
Qed.
Arguments lan_SendTo : simpl never.

(** What [SendToHelper] puts on the wire before it fails to return. *)
Definition helper_datagrams (bind_addr : SocketAddress) (data : list Z) (addr : SocketAddress) :
    list (list Z * SocketAddress) :=
  (if negb (family_eqb (sa_family bind_addr) AF_INET6) || negb (family_eqb (sa_family addr) AF_INET)
   then [(data, addr)] else [])
  ++ [(data, SocketAddress_ip (AsIPv6Address (ip_ addr)) (port_ addr))].

Lemma SendToHelper_outcome data addr w l :
  g_LanThread w = Some l → mSocket l = true →
  SendToHelper data (length data) addr w
  = Undef NoReturn (w <| g_LanThread := Some (l <| lan_sent ::=
      (λ s, s ++ helper_datagrams (mBindAddress l) data addr) |>) |>).
Proof.
  intros Hl Hs. unfold SendToHelper, getLanThread, helper_datagrams. cbn. rewrite Hl. cbn.
  destruct (negb _ || negb _); cbn.
  - rewrite (lan_SendTo_ok data addr w l Hl Hs). cbn. erewrite lan_SendTo_ok by done. cbn.
    unfold set_field; cbn. by rewrite <- app_assoc.
  - by rewrite (lan_SendTo_ok _ _ w l Hl Hs).
Qed.
Arguments SendToHelper : simpl never.

(** on the LAN thread, a signaling message for a peer that is not in the
    directory is dropped without invoking the completion; for a known peer the bytes put
    on the wire are the message itself, not the discovery packet built from it, and then
    [SendToHelper] flows off its end before the completion. *)
Theorem lan_signaling_on_thread (src dst : Z) (data : list Z) (c : completion) (w : World)
    (l : LanThreadManager) (m : gmap Z SocketAddress) :
  g_LanThread w = Some l → lan_current l = true → mSocket l = true → lan_knows w m →
  (length data ≤ 1140)%nat →
  match m !! dst with
  | None => wp (SendSignalingMessageTo src dst data c) (λ _ w', events w' = events w
              ∧ (∃ l', g_LanThread w' = Some l' ∧ lan_sent l' = lan_sent l)) w
  | Some addr => ∃ w' l', SendSignalingMessageTo src dst data c w = Undef NoReturn w'
      ∧ events w' = events w ∧ g_LanThread w' = Some l'
      ∧ lan_sent l' = lan_sent l ++ helper_datagrams (mBindAddress l) data addr
  end.
Proof.
  intros Hl Hcur Hsock (l0 & t & Hl0 & Ht & Hr)%lan_knows_inv Hlen.
  rewrite Hl in Hl0. injection Hl0 as <-.
  pose proof (pd_find_spec (clock w) dst t m Hr) as Hf.
  unfold wp in Hf |- *. unfold SendSignalingMessageTo, on_peers, getLanThread. cbn. rewrite Hl. cbn.
  rewrite Hcur. cbn. rewrite Hl. cbn. rewrite Ht. cbn in Hf |- *.
  destruct (Find (clock w) dst t) as [r t'| | |]; try done. destruct Hf as [-> ->].
  destruct (m !! dst) as [addr|]; cbn; [|by eauto].
  match goal with |- context [DiscoveryMessagePacket_new _ _ _ _ ?s] =>
    destruct (message_packet_ok unread_array src dst data s eq_refl Hlen) as (p & -> & _ & _ & _ & Hpl) end.
  cbn. rewrite Hpl, Nat2Z.id. erewrite SendToHelper_outcome by done. cbn. by eexists _, _.
Qed.

Definition sample_lan_running : LanThreadManager := sample_lan <| lan_current := true |>.
Definition sample_on_lan : World := sample_world <| g_LanThread := Some sample_lan_running |>.

Lemma lan_signaling_on_thread_witness :
  wp (SendSignalingMessageTo 7 2 [80] CNone) (λ _ w', events w' = events sample_on_lan
    ∧ (∃ l', g_LanThread w' = Some l' ∧ lan_sent l' = lan_sent sample_lan_running)) sample_on_lan.
Proof.
  assert (lan_knows sample_on_lan ∅) as Hk by (split; [reflexivity | apply fmap_empty]).
  pose proof (lan_signaling_on_thread 7 2 [80] CNone sample_on_lan sample_lan_running ∅
    eq_refl eq_refl eq_refl Hk ltac:(cbn; lia)) as Hw.
  rewrite lookup_empty in Hw. exact Hw.
Defined.

(** Posting to the LAN thread from another thread captures locals by
    reference.  The closures of [SendSignalingMessageTo] and [DisableBroadcastDiscovery]
    are queued, and when the LAN thread runs them after the call returned they read a
    destroyed activation: the message is not sent and the identifier is not removed. *)
Theorem lan_posted_closures_dangle (mem : list Z) (src dst id : Z) (data : list Z) (c : completion)
    (w : World) (l : LanThreadManager) :
  g_LanThread w = Some l → lan_current l = false →
  wp (SendSignalingMessageTo src dst data c) (λ _ w', ∃ t, lan_tasks w' = lan_tasks w ++ [t]
    ∧ g_LanThread w' = Some l ∧ ∃ w'', run_lan_task mem t w' = Undef DanglingRef w'' ∧ lan_ids w'' = mIds l) w
  ∧ wp (DisableBroadcastDiscovery id) (λ _ w', ∃ t, lan_tasks w' = lan_tasks w ++ [t]
    ∧ g_LanThread w' = Some l ∧ ∃ w'', run_lan_task mem t w' = Undef DanglingRef w'' ∧ lan_ids w'' = mIds l) w.
Proof.
  intros Hl Hcur. split; unfold SendSignalingMessageTo, DisableBroadcastDiscovery, getLanThread;
    apply wp_bind; unfold wp at 1; cbn; rewrite Hl; cbn; rewrite Hcur; cbn.
  all: unfold wp, with_frame, lan_PostTask; cbn; eexists; split; [done|]; split; [done|].
  all: unfold run_lan_task, set_lan, getLanThread; cbn; rewrite Hl; cbn.
  all: rewrite captured_dead by (cbn; set_solver); by eexists.
Qed.

Lemma lan_posted_closures_dangle_witness :
  wp (SendSignalingMessageTo 7 2 [80] CNone) (λ _ w', ∃ t, lan_tasks w' = lan_tasks sample_world ++ [t]
    ∧ g_LanThread w' = Some sample_lan
    ∧ ∃ w'', run_lan_task [] t w' = Undef DanglingRef w'' ∧ lan_ids w'' = mIds sample_lan) sample_world
  ∧ wp (DisableBroadcastDiscovery 7) (λ _ w', ∃ t, lan_tasks w' = lan_tasks sample_world ++ [t]
    ∧ g_LanThread w' = Some sample_lan
    ∧ ∃ w'', run_lan_task [] t w' = Undef DanglingRef w'' ∧ lan_ids w'' = mIds sample_lan) sample_world.
Proof. exact (lan_posted_closures_dangle [] 7 2 7 [80] CNone sample_world sample_lan eq_refl eq_refl). Defined.
