(* ===== verification/Session.v ===== *)
(** * connection/NetworkSession.cpp: one session with a remote peer

    Each method takes the session object it is called on ([this]).  Closures posted to
    the signal thread are run by [run_task]; callbacks webrtc invokes later are
    operations of their own ([OnSetRemoteSuccess], ...).  Log calls have no effect
    ([NetherNetTransport_LogMessage] only starts reading its arguments), but what their
    arguments dereference is kept: most messages read the receiver id through the
    manager and the interface. *)

From S2P Require Import Prelude Enums Utils IpAddress SocketAddress PeerTable Packets Threads WebSocket World Lan.

Definition milliseconds (n : Z) : Z := n * 1000000.
Definition to_milliseconds (d : Z) : Z := Z.quot d 1000000.
Definition to_minutes (d : Z) : Z := Z.quot d 60000000000.

Definition data_state_eqb (a b : DataState) : bool := enum_val a =? enum_val b.
Definition neg_state_eqb (a b : ENegotiationState) : bool := enum_val a =? enum_val b.
Definition cand_type_eqb (a b : IceCandidateType) : bool := enum_val a =? enum_val b.
Definition error_eqb (a b : ESessionError) : bool := enum_val a =? enum_val b.

(** A log call whose arguments read [mNetworkSessionMgr->mSimpleNetworkInterface->mReceiverId]. *)
Definition log_receiver_id (this : positive) : M World unit := via_manager this.

Definition UpdateSessionActivity (this : positive) : M World unit :=
  let! t := now in set_session this (λ s, s <| mLastSessionActivity := t |>).

(** ** Sending data *)

Definition Session_SendPacket (this : positive) (data : list Z) (send_type : ESendType) : M World unit :=
  with_frame (λ fr,
    UpdateSessionActivity this ;;
    let! thread := on_signal LoadRtcThread in
    match thread with
    | None => ret tt
    | Some _ => post_if_thread (TSendPacket this fr send_type data)
    end).

(** The closure: reliable data goes to the reliable channel, anything else to the
    unreliable one; what cannot be sent yet is kept in the matching list. *)
Definition send_packet_task (this fr : positive) (send_type : ESendType) (send_buf : list Z) : M World unit :=
  let! s := session this in
  match mpPeerConnection s with
  | None => ret tt
  | Some _ =>
    let! ty := captured fr send_type in
    let! buf := captured fr send_buf in
    match ty with
    | eSendTypeReliable =>
      match mReliableChannelInterface s with
      | Some ch =>
        if data_state_eqb (mReliableChannelState s) kOpen then channel_Send ch buf
        else set_session this (λ s, s <| mReliablePackets ::= (λ l, l ++ [buf]) |>)
      | None => set_session this (λ s, s <| mReliablePackets ::= (λ l, l ++ [buf]) |>)
      end
    | eSendTypeUnreliable =>
      match mUnreliableChannelInterface s with
      | Some ch =>
        if data_state_eqb (mUnreliableChannelState s) kOpen then channel_Send ch buf
        else set_session this (λ s, s <| mUnreliablePackets ::= (λ l, l ++ [buf]) |>)
      | None => set_session this (λ s, s <| mUnreliablePackets ::= (λ l, l ++ [buf]) |>)
      end
    end
  end.

(** Deferred unreliable packets are sent on the reliable channel. *)
Definition CheckSendDeferredData (this : positive) : M World unit :=
  let! s := session this in
  (match mReliableChannelInterface s with
   | Some ch =>
     log_receiver_id this ;;
     for_each (channel_Send ch) (mReliablePackets s) ;;
     set_session this (λ s, s <| mReliablePackets := [] |>)
   | None => ret tt
   end) ;;
  (match mUnreliableChannelInterface s with
   | Some _ =>
     log_receiver_id this ;;
     for_each (λ pkt, let! ch := deref (mReliableChannelInterface s) in channel_Send ch pkt)
       (mUnreliablePackets s)
   | None => ret tt
   end) ;;
  set_session this (λ s, s <| mUnreliablePackets := [] |>).

Definition OnDataChannelMessage_session (this : positive) (data : list Z) : M World unit :=
  UpdateSessionActivity this ;;
  let! s := session this in
  if negb (mNetworkSessionMgr s) then undef NullDeref else
  (* NetworkSessionManager::OnRemoteMessageReceived; RemoteMessageReceived is empty *)
  ret tt.

(** ** Accepting *)

(** [MyCreateSessionDescriptionObserver::Create] builds an observer and has no return
    statement. *)
Definition MyCreateSessionDescriptionObserver_Create : M World unit := undef NoReturn.

Definition TrySendSessionResponse (this : positive) : M World unit :=
  UpdateSessionActivity this ;;
  log_receiver_id this ;;
  post_if_thread (TSessionResponse this).

Definition session_response_task (this : positive) : M World unit :=
  let! s := session this in
  if negb (neg_state_eqb (mConnNegotiationState s) NegWaitingForAccept) && negb (mHasSentAcceptSession s)
  then MyCreateSessionDescriptionObserver_Create
  else ret tt.

(** The failure callback of that observer. *)
Definition OnCreateAnswerFailed (this : positive) : M World unit :=
  via_manager this ;;
  let! s := session this in
  NotifyOnSessionClose (mRemoteID s) ESessionErrorFailedToCreateAnswer.

Definition AcceptSession (this : positive) : M World unit :=
  UpdateSessionActivity this ;;
  let! s := session this in
  if neg_state_eqb (mConnNegotiationState s) NegWaitingForAccept then
    set_session this (λ s, s <| mConnNegotiationState := NegICEProcessing |>) ;;
    TrySendSessionResponse this
  else log_receiver_id this.

Definition ApplyConnectionFlags (this : positive) (config : RTCConfiguration) (flag : Z) :
    M World RTCConfiguration :=
  let config := if negb (Z.land flag 1 =? 0) then config <| type_relay := true |> else config in
  let config := if negb (Z.land flag 2 =? 0) then config <| tcp_disabled := true |> else config in
  set_session this (λ s, s <| mConnectionFlag := flag |>) ;;
  ret config.

(** ** Statistics and state *)

Definition CheckUpdateStats (this : positive) : M World unit :=
  let! t := now in
  let! s := session this in
  if (2000 <=? to_milliseconds (t - mLastStatsUpdate s)) && negb (mStatsRequestInProgress s) then
    post_if_thread TStats ;;
    set_session this (λ s, s <| mStatsRequestInProgress := true |> <| mLastStatsUpdate := t |>)
  else ret tt.

(** connection/NetworkSession.hpp: [SessionState] *)
Record SessionState := mkState {
  ConnectionActive : bool;
  Connecting : bool;
  HasSessionError : bool;
  UsingRelay : bool;
  CurrentRTT : Z;
  BytesSendBuffer : Z;
  TotalBytesSent : Z;
  TotalBytesSentPerSecond : Z;
  TotalBytesReceived : Z;
  TotalPacketsSent : Z;
  TotalPacketsLost : Z;
  st_IceConnectionState : IceConnectionState
}.
#[export] Instance SessionState_eta : Eta SessionState := λ r,
  mkState (ConnectionActive r) (Connecting r) (HasSessionError r) (UsingRelay r) (CurrentRTT r)
    (BytesSendBuffer r) (TotalBytesSent r) (TotalBytesSentPerSecond r) (TotalBytesReceived r)
    (TotalPacketsSent r) (TotalPacketsLost r) (st_IceConnectionState r).

(** The out parameter may be null; [HasSessionError == true] compares and discards. *)
Definition GetSessionState (this : positive) (outState : option SessionState) :
    M World (bool * option SessionState) :=
  match outState with
  | None => ret (false, None)
  | Some o =>
    let! s := session this in
    let o := o <| TotalPacketsSent := 0 |> <| TotalBytesSentPerSecond := 0 |> <| BytesSendBuffer := 0 |>
               <| ConnectionActive := false |> <| st_IceConnectionState := kIceConnectionNew |> in
    let current_state := mIceConnectionState s in
    let o := if enum_val current_state <=? enum_val kIceConnectionChecking
             then o <| Connecting := true |> else o in
    let o := match current_state with
             | kIceConnectionCompleted | kIceConnectionConnected | kIceConnectionDisconnected =>
               o <| ConnectionActive := data_state_eqb (mUnreliableChannelState s) kOpen
                                        && data_state_eqb (mReliableChannelState s) kOpen |>
             | _ => o
             end in
    let o := o <| UsingRelay := mIsUsingRelay s |> <| CurrentRTT := mCurrentRTT s |>
               <| TotalBytesSent := mTotalBytesSent s |> <| TotalBytesReceived := mTotalBytesReceived s |>
               <| TotalPacketsLost := mTotalPacketLost s |> <| st_IceConnectionState := current_state |> in
    CheckUpdateStats this ;;
    ret (true, Some o)
  end.

(** [((mConnectionStat - 4) & 0xFFFFFFFD) != 0] on a [uint32_t]. *)
Definition IsConnectionAlive (s : NetworkSession) : bool :=
  negb (Z.land (wrap 32 (mConnectionStat s - 4)) 0xFFFFFFFD =? 0).

Definition IsInactiveSession (s : NetworkSession) (t : Z) : bool :=
  1 <? to_minutes (t - mLastSessionActivity s).

(** [(ESessionError)((state == WaitingForResponse) ^ 0xF)]: the cast of 14 or 15. *)
Definition timeout_error (state : ENegotiationState) : ESessionError :=
  default ESessionErrorNone
    (enum_of (Z.lxor (if neg_state_eqb state NegWaitingForResponse then 1 else 0) 0xF)).

Definition IsDeadSession (this : positive) (negotiationTimeout : Z) : M World bool :=
  let! s := session this in
  let! t := now in
  let die err := via_manager this ;; NotifyOnSessionClose (mRemoteID s) err ;; ret true in
  if IsConnectionAlive s then
    if neg_state_eqb (mConnNegotiationState s) NegICEProcessing then ret false else
    if to_milliseconds (t - mNegotiationStateTimer s) <=? 1000 * negotiationTimeout then ret false else
    die (timeout_error (mConnNegotiationState s))
  else die ESessionErrorICE.

Definition Close (this : positive) : M World unit :=
  let! s := session this in
  match mpPeerConnection s with
  | Some _ => post_if_thread (TClosePeer this)
  | None => ret tt
  end.

(** The closure dereferences the member again when it runs. *)
Definition close_peer_task (this : positive) : M World unit :=
  let! s := session this in
  let! pc := deref (mpPeerConnection s) in emit (EvPeerClosed pc).

Definition ProcessError (this : positive) (err : ESessionError) : M World unit :=
  via_manager this ;;
  let! s := session this in NotifyOnSessionClose (mRemoteID s) err.

(** ** Data channels *)

Definition UpdateDataChannelStates (this : positive) : M World unit :=
  let! s := session this in
  let! rel := match mReliableChannelInterface s with
              | Some ch => let! c := channel ch in ret (ch_state c)
              | None => ret kClosed end in
  set_session this (λ s, s <| mReliableChannelState := rel |>) ;;
  let! unrel := match mUnreliableChannelInterface s with
                | Some ch => let! c := channel ch in ret (ch_state c)
                | None => ret kClosed end in
  set_session this (λ s, s <| mUnreliableChannelState := unrel |>) ;;
  if data_state_eqb rel kOpen && data_state_eqb unrel kOpen
  then via_manager this ;; NotifyOnSessionOpen (mRemoteID s)
  else ret tt.

Definition OnDataChannelStateChange (this : positive) : M World unit :=
  UpdateDataChannelStates this ;; CheckSendDeferredData this.

(** [label.size() == 19 && label == "ReliableDataChannel"] *)
Definition is_reliable_label (label : string) : bool := bool_decide (label = "ReliableDataChannel"%string).

(** The observer is destroyed at the end of the call; the channel keeps its address. *)
Definition OnDataChannel (this : positive) (ch : positive) : M World unit := with_frame (λ fr,
  let! c := channel ch in
  (if is_reliable_label (ch_label c)
   then set_session this (λ s, s <| mReliableChannelInterface := Some ch |>)
   else set_session this (λ s, s <| mUnreliableChannelInterface := Some ch |>)) ;;
  set_channel ch (λ c, c <| ch_observer := Some fr |>) ;;
  UpdateDataChannelStates this ;;
  CheckSendDeferredData this).

(** webrtc notifies the observer registered with a channel; the observer's methods are
    empty. *)
Definition notify_observer (ch : positive) : M World unit :=
  let! c := channel ch in
  match ch_observer c with Some fr => captured fr tt | None => ret tt end.

(** ** ICE *)

(** [CandidateAdd::TryCreate] has an empty body. *)
Definition CandidateAdd_TryCreate : M World bool := undef NoReturn.

(** The candidate types a connection flag filters out. *)
Definition filtered (flag : Z) (ty : IceCandidateType) : bool :=
  (negb (Z.land flag 4 =? 0) && cand_type_eqb ty kHost)
  || (negb (Z.land flag 8 =? 0) && cand_type_eqb ty kSrflx)
  || (negb (Z.land flag 16 =? 0) && cand_type_eqb ty kPrflx).

Definition SendToSignalingChannel_iface (remoteId : Z) (preference : option SignalingChannelId)
    (onComplete : completion) : M World ESessionError :=
  let! i := gets iface in
  (if negb (mDisableLANSignaling i) then
     let! on_lan := IsNetworkIdOnLan remoteId in
     if on_lan then
       let is_ws := match preference with Some ChannelWebSocket => true | _ => false end in
       if negb is_ws then SendSignalingMessageTo (mReceiverId i) remoteId [] onComplete else ret tt
     else ret tt
   else ret tt) ;;
  undef NoReturn.

Definition SendToSignalingChannel (this : positive) : M World unit := with_frame (λ fr,
  let! s := session this in
  via_manager this ;;
  let! send_result := SendToSignalingChannel_iface (mRemoteID s) (mSignalingPreference s)
                        (CSignalingFailed this fr (mRemoteID s)) in
  if negb (error_eqb send_result ESessionErrorNone) then NotifyOnSessionClose (mRemoteID s) send_result
  else ret tt).

Definition OnIceCandidate (this : positive) (candidate : Candidate) : M World unit :=
  let! s := session this in
  let flag := mConnectionFlag s in
  let need_create := negb (filtered flag (cand_type candidate)) in
  if (Z.land flag 32 =? 0) || negb (cand_type_eqb (cand_type candidate) kRelay) then
    if need_create then
      let! candidate_create := CandidateAdd_TryCreate in
      if candidate_create then SendToSignalingChannel this else ret tt
    else ret tt
  else ret tt.

Definition OnConnectionChange (this : positive) (new_state : PeerConnectionState) : M World unit :=
  set_session this (λ s, s <| mPeerConnectionState := new_state |>) ;; log_receiver_id this.

(** [new_state - 1 <= 1] is a comparison of [int]s. *)
Definition OnIceConnectionChange (this : positive) (new_state : IceConnectionState) : M World unit :=
  set_session this (λ s, s <| mIceConnectionState := new_state |>) ;;
  log_receiver_id this ;;
  if enum_val new_state - 1 <=? 1 then CheckUpdateStats this else ret tt.

Section SessionEnv.
Context `{Env}.

(** The loop erases the candidates the peer connection accepts and keeps the others.
    [kept] are those already passed over. *)
Fixpoint ice_loop (this : positive) (kept rest : list Candidate) : M World unit :=
  match rest with
  | [] => ret tt
  | c :: rest' =>
    let! s := session this in
    let! pc := deref (mpPeerConnection s) in
    if AddIceCandidate pc c then
      via_manager this ;;
      set_session this (λ s, s <| mDeferredIceCandidates := kept ++ rest' |>) ;;
      ice_loop this kept rest'
    else
      via_manager this ;;
      ice_loop this (kept ++ [c]) rest'
  end.

(** The interface reference is taken through the manager before the loop. *)
Definition ProcessIceCandidates (this : positive) : M World unit :=
  let! s := session this in
  if negb (mNetworkSessionMgr s) then undef NullDeref else
  ice_loop this [] (mDeferredIceCandidates s).

Definition OnIceGatheringChange (this : positive) (new_state : IceGatheringState) : M World unit :=
  if enum_val new_state - 1 <=? 1 then ProcessIceCandidates this else ret tt.

(** ** Setting up a session *)

(** Callbacks of [MySetSessionDescriptionObserver] in [InitializeIncoming]. *)
Definition OnSetRemoteSuccess (this : positive) : M World unit :=
  let! s := session this in
  if mIsDeleting s then ret tt else TrySendSessionResponse this ;; ProcessIceCandidates this.
Definition OnSetRemoteFailure (this : positive) : M World unit :=
  via_manager this ;;
  let! s := session this in NotifyOnSessionClose (mRemoteID s) ESessionErrorFailedToSetRemoteDescription.

(** [MySetSessionDescriptionObserver::OnSetRemoteDescriptionComplete] *)
Definition OnSetRemoteDescriptionComplete (this : positive) (ok : bool) : M World unit :=
  if negb ok then OnSetRemoteFailure this else OnSetRemoteSuccess this.

Definition InitializeIncoming (this : positive) (remoteId connectionId : Z) (preference : SignalingChannelId) :
    M World unit :=
  UpdateSessionActivity this ;;
  set_session this (λ s, s <| mIsOutGoingSession := false |> <| mConnectionId := connectionId |>
    <| mRemoteID := remoteId |> <| mSignalingPreference := Some preference |>) ;;
  via_manager this ;;
  let! i := gets iface in
  let! connection_flag := GetConnectionFlags remoteId in
  let! _ := ApplyConnectionFlags this (mRtcConfig i) connection_flag in
  if negb (mpPeerConnectionFactory i) then undef NullDeref else
  let! peer_conn_create := env_call CreatePeerConnectionOrError in
  match peer_conn_create with
  | None => NotifyOnSessionClose remoteId ESessionErrorFailedToCreatePeerConnection
  | Some pc =>
    let! t := now in
    set_session this (λ s, s <| mpPeerConnection := Some pc |>
      <| mConnNegotiationState := NegWaitingForAccept |> <| mNegotiationStateTimer := t |>) ;;
    log_receiver_id this ;;
    (* the member is moved into a local, which the call below goes through *)
    set_session this (λ s, s <| mpPeerConnection := None |>) ;;
    emit (EvSetRemoteDescription pc this)
  end.

Definition InitializeOutgoing (this : positive) (remoteID : Z) : M World unit := with_frame (λ fr,
  UpdateSessionActivity this ;;
  let! id := env_call CreateID in
  let! t := now in
  set_session this (λ s, s <| mIsOutGoingSession := true |> <| mConnectionId := id |> <| mRemoteID := remoteID |>
    <| mConnNegotiationState := NegWaitingForResponse |> <| mNegotiationStateTimer := t |>) ;;
  log_receiver_id this ;;
  post_if_thread (TInitOutgoing this fr remoteID)).

(** One of the two channels of an outgoing session: created on the peer connection, given
    a local observer, and dropped; [existing] is what the code registers with instead
    when [member] is set. *)
Definition create_channel (this : positive) (label : string) (member existing : option positive) :
    M World unit := with_frame (λ fr,
  let! s := session this in
  let! _ := deref (mpPeerConnection s) in
  let! created := env_call (λ n, CreateDataChannelOrError n label) in
  match created with
  | None =>
    via_manager this ;; NotifyOnSessionClose (mRemoteID s) ESessionErrorFailedToCreatePeerConnection
  | Some new_ch =>
    let! ch := deref (match member with Some _ => existing | None => Some new_ch end) in
    modify (λ w, w <| channels ::= (λ cs, match cs !! new_ch with
      | Some _ => cs | None => <[new_ch := mkChannel label kConnecting [] None]> cs end) |>) ;;
    set_channel ch (λ c, c <| ch_observer := Some fr |>)
  end).

Definition init_outgoing_task (this fr : positive) (remoteID : Z) : M World unit :=
  via_manager this ;;
  let! i := gets iface in
  let! remote := captured fr remoteID in
  let! conn_flag := GetConnectionFlags remote in
  let! _ := ApplyConnectionFlags this (mRtcConfig i) conn_flag in
  if negb (mpPeerConnectionFactory i) then undef NullDeref else
  let! peer_create := env_call CreatePeerConnectionOrError in
  let! s := session this in
  (match peer_create with
   | None => NotifyOnSessionClose (mRemoteID s) ESessionErrorFailedToCreatePeerConnection
   | Some pc => set_session this (λ s, s <| mpPeerConnection := Some pc |>)
   end) ;;
  create_channel this "&ReliableDataChannel" (mReliableChannelInterface s) (mReliableChannelInterface s) ;;
  create_channel this "*UnreliableDataChannel" (mUnreliableChannelInterface s) (mReliableChannelInterface s) ;;
  let! rel := match mReliableChannelInterface s with
              | Some ch => let! c := channel ch in ret (ch_state c)
              | None => ret kClosed end in
  set_session this (λ s, s <| mReliableChannelState := rel |>) ;;
  (match mUnreliableChannelInterface s with
   | Some ch =>
     let! c := channel ch in
     set_session this (λ s, s <| mUnreliableChannelState := ch_state c |>) ;;
     if data_state_eqb (ch_state c) kOpen && data_state_eqb rel kOpen
     then NotifyOnSessionOpen remote else ret tt
   | None => set_session this (λ s, s <| mUnreliableChannelState := kClosed |>)
   end) ;;
  log_receiver_id this ;;
  MyCreateSessionDescriptionObserver_Create.

(** [ProcessSignal(CandidateAdd)]: beyond the activity it has no effect. *)
Definition ProcessSignal_candidate (this : positive) : M World unit := UpdateSessionActivity this.

Definition ProcessSignal_response (this : positive) : M World unit :=
  UpdateSessionActivity this ;;
  log_receiver_id this ;;
  let! t := now in
  set_session this (λ s, s <| mConnNegotiationState := NegICEProcessing |> <| mNegotiationStateTimer := t |>).

End SessionEnv.

(** ** Sending: theorems *)

Lemma post_if_thread_eq t th w :
  mThread (g_SignalThread w) = Some th → th ∈ threads (g_SignalThread w) →
  post_if_thread t w = Ret tt (w <| tasks ::= (λ l, l ++ [t]) |>).
Proof.
  intros Hth Hin. unfold post_if_thread, PostTask, on_signal, on_thread, LoadRtcThread. cbn. rewrite Hth. cbn.
  rewrite bool_decide_eq_true_2 by done. by destruct w.
Qed.
Lemma post_if_thread_none t w :
  mThread (g_SignalThread w) = None → post_if_thread t w = Ret tt w.
Proof. intros Hth. unfold post_if_thread, on_signal, LoadRtcThread. cbn. rewrite Hth. by destruct w. Qed.
Arguments post_if_thread : simpl never.

Definition sample_connected : NetworkSession := sample_session <| mpPeerConnection := Some 1%positive |>.

Lemma sample_thread_live : 1%positive ∈ threads (g_SignalThread sample_world).
Proof. change (1%positive ∈ ({[1%positive]} : gset positive)). set_solver. Qed.




(** ** Deferred data *)

Lemma for_each_ext {S A} (f g : A → M S unit) l s :
  (∀ a t, f a t = g a t) → for_each f l s = for_each g l s.
Proof.
  intros H. revert s. induction l as [|a l IH]; intros s; [done|]. cbn. rewrite H.
  destruct (g a s); auto.
Qed.

(** flushing deferred data once both channels exist: the reliable channel
    receives, in order, the deferred reliable packets and then the deferred unreliable
    packets too, the unreliable channel receives nothing, and both queues are empty.  With
    no channel at all the unreliable queue is emptied without sending. *)
Theorem CheckSendDeferredData_flush (this : positive) (w : World) (s : NetworkSession) :
  sessions w !! this = Some s → mNetworkSessionMgr s = true → mSimpleNetworkInterface (manager w) = true →
  (∀ rel c, mReliableChannelInterface s = Some rel → is_Some (mUnreliableChannelInterface s) →
    channels w !! rel = Some c →
    wp (CheckSendDeferredData this) (λ _ w',
      channels w' = <[rel := c <| ch_sent ::= (λ l, l ++ mReliablePackets s ++ mUnreliablePackets s) |>]> (channels w)
      ∧ ∃ s', sessions w' !! this = Some s' ∧ mReliablePackets s' = [] ∧ mUnreliablePackets s' = []) w)
  ∧ (mReliableChannelInterface s = None → mUnreliableChannelInterface s = None →
    wp (CheckSendDeferredData this) (λ _ w', channels w' = channels w
      ∧ ∃ s', sessions w' !! this = Some s' ∧ mReliablePackets s' = mReliablePackets s
          ∧ mUnreliablePackets s' = []) w).
Proof.
  intros Hs Hm Hi. split.
  - intros rel c Hrel [un Hun] Hc. unfold wp, CheckSendDeferredData, log_receiver_id. cbn.
    rewrite (session_eq this s w Hs), Hrel, Hun. cbn. rewrite (via_manager_eq this s w) by done.
    rewrite (channels_send_eq rel c) by done. cbn. rewrite (set_session_eq _ _ s) by done. cbn.
    erewrite via_manager_eq by (cbn; rewrite ?lookup_insert_eq; done).
    rewrite (for_each_ext _ (channel_Send rel)) by done.
    erewrite channels_send_eq by (cbn; by rewrite lookup_insert_eq). cbn.
    erewrite set_session_eq by (cbn; by rewrite lookup_insert_eq). cbn. rewrite lookup_insert_eq.
    unfold set_field; cbn. rewrite insert_insert_eq, <- app_assoc. split; [done|]. by eexists.
  - intros Hrel Hun. unfold wp, CheckSendDeferredData. cbn. rewrite (session_eq this s w Hs), Hrel, Hun. cbn.
    rewrite (set_session_eq _ _ s) by done. cbn. rewrite lookup_insert_eq. split; [done|]. by eexists.
Qed.

(** When only the unreliable channel exists, flushing a deferred packet
    dereferences the missing reliable channel; an incoming channel created by
    [InitializeOutgoing] of the other side always leads there, because neither of its
    labels is the one [OnDataChannel] takes for reliable. *)
Theorem CheckSendDeferredData_null (this un : positive) (w : World) (s : NetworkSession) :
  sessions w !! this = Some s → mNetworkSessionMgr s = true → mSimpleNetworkInterface (manager w) = true →
  mReliableChannelInterface s = None → mUnreliableChannelInterface s = Some un → mUnreliablePackets s ≠ [] →
  CheckSendDeferredData this w = Undef NullDeref w
  ∧ is_reliable_label "&ReliableDataChannel" = false ∧ is_reliable_label "*UnreliableDataChannel" = false.
Proof.
  intros Hs Hm Hi Hrel Hun Hne. split; [|done]. unfold CheckSendDeferredData, log_receiver_id. cbn.
  rewrite (session_eq this s w Hs), Hrel, Hun. cbn. rewrite (via_manager_eq this s w) by done.
  destruct (mUnreliablePackets s); [done|]. done.
Qed.

Definition sample_two_channels : World :=
  sample_world
    <| sessions := {[1%positive := sample_session <| mReliableChannelInterface := Some 1%positive |>
                        <| mUnreliableChannelInterface := Some 2%positive |>
                        <| mReliablePackets := [[1]] |> <| mUnreliablePackets := [[2]; [3]] |>]} |>
    <| channels := {[1%positive := mkChannel "ReliableDataChannel" kOpen [[0]] None;
                     2%positive := mkChannel "UnreliableDataChannel" kOpen [] None]} |>.

Lemma CheckSendDeferredData_flush_witness :
  wp (CheckSendDeferredData 1) (λ _ w',
    channels w' = <[1%positive := mkChannel "ReliableDataChannel" kOpen [[0]] None
                      <| ch_sent ::= (λ l, l ++ [[1]] ++ [[2]; [3]]) |>]> (channels sample_two_channels)
    ∧ ∃ s', sessions w' !! 1%positive = Some s' ∧ mReliablePackets s' = [] ∧ mUnreliablePackets s' = [])
    sample_two_channels.
Proof.
  refine (proj1 (CheckSendDeferredData_flush 1 sample_two_channels _ eq_refl eq_refl eq_refl)
           1%positive _ eq_refl _ eq_refl).
  exists 2%positive. reflexivity.
Defined.

Definition sample_unreliable_only : NetworkSession :=
  sample_session <| mUnreliableChannelInterface := Some 2%positive |> <| mUnreliablePackets := [[2]] |>.

Lemma CheckSendDeferredData_null_witness :
  CheckSendDeferredData 1 (sample_world <| sessions := {[1%positive := sample_unreliable_only]} |>)
  = Undef NullDeref (sample_world <| sessions := {[1%positive := sample_unreliable_only]} |>)
  ∧ is_reliable_label "&ReliableDataChannel" = false ∧ is_reliable_label "*UnreliableDataChannel" = false.
Proof.
  apply (CheckSendDeferredData_null 1 2 (sample_world <| sessions := {[1%positive := sample_unreliable_only]} |>)
           sample_unreliable_only); try reflexivity. discriminate.
Defined.

(** ** Liveness of a session *)

(** The bit trick of [IsConnectionAlive]: dead exactly in the ICE states Failed (4) and
    Closed (6). *)
Lemma land_mask_0 x : uint 32 x → Z.land x 0xFFFFFFFD = 0 ↔ x = 0 ∨ x = 2.
Proof.
  intros Hx. split; [|by intros [->| ->]]. intros H0.
  assert (Z.land x 0xFFFFFFFF = x) as Hfull.
  { change 0xFFFFFFFF with (Z.ones 32). rewrite Z.land_ones by lia. by apply Z.mod_small. }
  assert (x = Z.land x 2) as E.
  { rewrite <- Hfull at 1. change 0xFFFFFFFF with (Z.lor 0xFFFFFFFD 2).
    by rewrite Z.land_lor_distr_r, H0, Z.lor_0_l. }
  destruct (Z.testbit x 1) eqn:Hb.
  - right. rewrite E. apply Z.bits_inj_iff'. intros n Hn. rewrite Z.land_spec.
    destruct (Z.eq_dec n 1) as [->|Hne]; [by rewrite Hb|].
    change 2 with (2 ^ 1). by rewrite Z.pow2_bits_false, andb_false_r by lia.
  - left. rewrite E. apply Z.bits_inj_iff'. intros n Hn. rewrite Z.land_spec, Z.bits_0.
    destruct (Z.eq_dec n 1) as [->|Hne]; [by rewrite Hb|].
    change 2 with (2 ^ 1). by rewrite Z.pow2_bits_false, andb_false_r by lia.
Qed.

Lemma IsConnectionAlive_spec s :
  uint 32 (mConnectionStat s) →
  IsConnectionAlive s = negb ((mConnectionStat s =? enum_val kIceConnectionFailed)
                              || (mConnectionStat s =? enum_val kIceConnectionClosed)).
Proof.
  intros Hs. unfold IsConnectionAlive. f_equal. change (enum_val kIceConnectionFailed) with 4.
  change (enum_val kIceConnectionClosed) with 6. apply eq_bool_prop_intro.
  rewrite orb_True, !Is_true_true, !Z.eqb_eq, land_mask_0 by (apply wrap_uint; lia).
  unfold wrap, uint in *. split.
  - intros [H0|H2]; [left|right].
    + destruct (Z.le_gt_cases 4 (mConnectionStat s)); [rewrite Z.mod_small in H0; lia|].
      rewrite <- (Z.mod_add _ 1), Z.mod_small in H0; lia.
    + destruct (Z.le_gt_cases 4 (mConnectionStat s)); [rewrite Z.mod_small in H2; lia|].
      rewrite <- (Z.mod_add _ 1), Z.mod_small in H2; lia.
  - intros [->| ->]; [left|right]; done.
Qed.

(** Why a session is dead at time [t]. *)
Definition death_cause (s : NetworkSession) (t timeout : Z) : option ESessionError :=
  if (mConnectionStat s =? 4) || (mConnectionStat s =? 6) then Some ESessionErrorICE else
  match mConnNegotiationState s with
  | NegICEProcessing => None
  | NegWaitingForResponse =>
    if 1000 * timeout <? to_milliseconds (t - mNegotiationStateTimer s)
    then Some ESessionErrorNegotiationTimeoutWaitingForResponse else None
  | _ =>
    if 1000 * timeout <? to_milliseconds (t - mNegotiationStateTimer s)
    then Some ESessionErrorNegotiationTimeoutWaitingForAccept else None
  end.

Lemma IsDeadSession_spec (this : positive) (timeout : Z) (w : World) (s : NetworkSession) :
  sessions w !! this = Some s → mNetworkSessionMgr s = true → mSimpleNetworkInterface (manager w) = true →
  mCallBack (iface w) = true → uint 32 (mConnectionStat s) →
  IsDeadSession this timeout w
  = match death_cause s (clock w) timeout with
    | None => Ret false w
    | Some err => Ret true (w <| events ::= (λ l, l ++ [EvSessionClose (mRemoteID s) err]) |>)
    end.
Proof.
  intros Hs Hm Hi Hc Hu. unfold IsDeadSession, death_cause. cbn. rewrite (session_eq this s w Hs). cbn.
  rewrite IsConnectionAlive_spec by done. change (enum_val kIceConnectionFailed) with 4.
  change (enum_val kIceConnectionClosed) with 6.
  assert (∀ err, (via_manager this ;; NotifyOnSessionClose (mRemoteID s) err ;; ret true) w
    = Ret true (w <| events ::= (λ l, l ++ [EvSessionClose (mRemoteID s) err]) |>)) as Hdie.
  { intros err. cbn. rewrite (via_manager_eq this s w) by done. cbn. by rewrite Hc. }
  destruct ((mConnectionStat s =? 4) || (mConnectionStat s =? 6)); cbn [negb]; [apply Hdie|].
  destruct (mConnNegotiationState s); cbn [neg_state_eqb]; try done;
    rewrite Z.leb_antisym; destruct (1000 * timeout <? _); cbn [negb]; try done; apply Hdie.
Qed.

(** C31: a session is dead exactly when its connection state is Failed or Closed,
    or it is still negotiating and the negotiation timer is older than the timeout; the
    application is then told once, with the error of the cause (response or accept
    timeout, or ICE), and otherwise nothing changes. *)
Theorem IsDeadSession_cause (this : positive) (timeout : Z) (w : World) (s : NetworkSession) :
  sessions w !! this = Some s → mNetworkSessionMgr s = true → mSimpleNetworkInterface (manager w) = true →
  mCallBack (iface w) = true → uint 32 (mConnectionStat s) →
  IsDeadSession this timeout w
  = match death_cause s (clock w) timeout with
    | None => Ret false w
    | Some err => Ret true (w <| events ::= (λ l, l ++ [EvSessionClose (mRemoteID s) err]) |>)
    end.
Proof. apply IsDeadSession_spec. Qed.

Lemma sample_stat_ok : uint 32 (mConnectionStat sample_session).
Proof. unfold uint; cbn; lia. Qed.

Lemma IsDeadSession_cause_witness :
  IsDeadSession 1 15 (sample_world <| clock := seconds 16 |>)
  = Ret true (sample_world <| clock := seconds 16 |>
      <| events ::= (λ l, l ++ [EvSessionClose 2 ESessionErrorNegotiationTimeoutWaitingForAccept]) |>).
Proof.
  exact (IsDeadSession_cause 1 15 (sample_world <| clock := seconds 16 |>) sample_session
           eq_refl eq_refl eq_refl eq_refl sample_stat_ok).
Defined.

(** ** Reported state *)

Lemma CheckUpdateStats_returns this s w :
  sessions w !! this = Some s → (∀ th, mThread (g_SignalThread w) = Some th → th ∈ threads (g_SignalThread w)) →
  ∃ s' ts, CheckUpdateStats this w
    = Ret tt (w <| tasks ::= (λ l, l ++ ts) |> <| sessions ::= <[this := s']> |>)
    ∧ (ts = [] ∨ ts = [TStats])
    ∧ s' = (if (2000 <=? to_milliseconds (clock w - mLastStatsUpdate s)) && negb (mStatsRequestInProgress s)
            then s <| mStatsRequestInProgress := true |> <| mLastStatsUpdate := clock w |> else s).
Proof.
  intros Hs Hth. unfold CheckUpdateStats. cbn. rewrite (session_eq this s w Hs). cbn.
  destruct (_ && _) eqn:Hdue; cbn.
  - destruct (mThread (g_SignalThread w)) as [th|] eqn:Et.
    + rewrite (post_if_thread_eq _ th) by auto. cbn. rewrite (set_session_eq _ _ s) by done. eexists _, [TStats].
      split_and!; [done | by right | done].
    + rewrite post_if_thread_none by done. rewrite (set_session_eq _ _ s) by done. eexists _, [].
      split_and!; [|by left | done]. unfold set_field; cbn. by rewrite app_nil_r.
  - exists s, []. split_and!; [|by left | done]. unfold set_field; cbn. rewrite app_nil_r, insert_id by done.
    by destruct w.
Qed.

Arguments CheckUpdateStats : simpl never.

(** what [GetSessionState] reports: the session counts as active exactly when
    the ICE state is Connected, Completed or Disconnected and both data channels are
    open; the ICE state, round-trip time, relay use and totals are copied; but
    [HasSessionError] is left as the caller passed it, also in the states Failed and Closed
    (the assignment is written as a comparison), and [Connecting] is never cleared. *)
Theorem GetSessionState_report (this : positive) (o : SessionState) (w : World) (s : NetworkSession) :
  sessions w !! this = Some s → (∀ th, mThread (g_SignalThread w) = Some th → th ∈ threads (g_SignalThread w)) →
  wp (GetSessionState this (Some o)) (λ r _, r.1 = true ∧ ∃ o', r.2 = Some o'
    ∧ ConnectionActive o' = (bool_decide (mIceConnectionState s ∈
          [kIceConnectionConnected; kIceConnectionCompleted; kIceConnectionDisconnected])
        && data_state_eqb (mUnreliableChannelState s) kOpen && data_state_eqb (mReliableChannelState s) kOpen)
    ∧ Connecting o' = (Connecting o || bool_decide (mIceConnectionState s ∈ [kIceConnectionNew; kIceConnectionChecking]))
    ∧ HasSessionError o' = HasSessionError o
    ∧ st_IceConnectionState o' = mIceConnectionState s ∧ UsingRelay o' = mIsUsingRelay s
    ∧ CurrentRTT o' = mCurrentRTT s ∧ TotalBytesSent o' = mTotalBytesSent s
    ∧ TotalBytesReceived o' = mTotalBytesReceived s ∧ TotalPacketsLost o' = mTotalPacketLost s) w.
Proof.
  intros Hs Hth. unfold wp, GetSessionState. cbn. rewrite (session_eq this s w Hs). cbn.
  destruct (CheckUpdateStats_returns this s w Hs Hth) as (s' & ts & -> & _). cbn. split; [done|].
  eexists. split; [done|].
  destruct (mIceConnectionState s); cbn; rewrite ?orb_true_r, ?orb_false_r; by split_and!.
Qed.

Definition sample_report : SessionState :=
  mkState false false false false 0 0 0 0 0 0 0 kIceConnectionNew.
Definition sample_failed : NetworkSession := sample_session <| mIceConnectionState := kIceConnectionFailed |>.

Lemma sample_threads_live th :
  mThread (g_SignalThread (sample_world <| sessions := {[1%positive := sample_failed]} |>)) = Some th →
  th ∈ threads (g_SignalThread (sample_world <| sessions := {[1%positive := sample_failed]} |>)).
Proof. intros [= <-]. exact sample_thread_live. Qed.

Lemma GetSessionState_report_witness :
  wp (GetSessionState 1 (Some sample_report)) (λ r _, r.1 = true ∧ ∃ o', r.2 = Some o'
    ∧ ConnectionActive o' = false ∧ Connecting o' = false ∧ HasSessionError o' = false
    ∧ st_IceConnectionState o' = kIceConnectionFailed ∧ UsingRelay o' = false
    ∧ CurrentRTT o' = 0 ∧ TotalBytesSent o' = 0 ∧ TotalBytesReceived o' = 0 ∧ TotalPacketsLost o' = 0)
    (sample_world <| sessions := {[1%positive := sample_failed]} |>).
Proof.
  exact (GetSessionState_report 1 sample_report (sample_world <| sessions := {[1%positive := sample_failed]} |>)
           sample_failed eq_refl sample_threads_live).
Defined.

(** ** Deferred ICE candidates *)

Section IceTheorems.
Context `{Env}.

Lemma ice_loop_spec this pc kept rest s w :
  sessions w !! this = Some s → mNetworkSessionMgr s = true → mSimpleNetworkInterface (manager w) = true →
  mpPeerConnection s = Some pc → mDeferredIceCandidates s = kept ++ rest →
  ice_loop this kept rest w
  = Ret tt (w <| sessions ::= <[this := s <| mDeferredIceCandidates :=
      kept ++ List.filter (λ c, negb (AddIceCandidate pc c)) rest |>]> |>).
Proof.
  revert kept s w. induction rest as [|c rest IH]; intros kept s w Hs Hm Hi Hpc Hd; cbn.
  - rewrite <- Hd. unfold set_field; cbn. destruct s; cbn. rewrite insert_id by done. by destruct w.
  - rewrite (session_eq this s w Hs). cbn. rewrite Hpc. cbn.
    destruct (AddIceCandidate pc c); cbn; rewrite (via_manager_eq this s w) by done.
    + rewrite (set_session_eq _ _ s) by done.
      erewrite (IH kept (s <| mDeferredIceCandidates := kept ++ rest |>)); try done;
        [|cbn; by rewrite lookup_insert_eq].
      unfold set_field; cbn. by rewrite insert_insert_eq.
    + rewrite (IH (kept ++ [c]) s w); try done; by rewrite <- app_assoc.
Qed.

(** processing deferred ICE candidates offers each of them to the peer
    connection once, in order, and keeps exactly the rejected ones, in their order; a
    session without a peer connection dereferences null if it has any. *)
Theorem ProcessIceCandidates_keeps_rejected (this : positive) (w : World) (s : NetworkSession) :
  sessions w !! this = Some s → mNetworkSessionMgr s = true → mSimpleNetworkInterface (manager w) = true →
  ProcessIceCandidates this w
  = match mpPeerConnection s, mDeferredIceCandidates s with
    | None, _ :: _ => Undef NullDeref w
    | None, [] => Ret tt w
    | Some pc, cs => Ret tt (w <| sessions ::= <[this := s <| mDeferredIceCandidates :=
        List.filter (λ c, negb (AddIceCandidate pc c)) cs |>]> |>)
    end.
Proof.
  intros Hs Hm Hi. unfold ProcessIceCandidates. cbn. rewrite (session_eq this s w Hs), Hm. cbn.
  destruct (mpPeerConnection s) as [pc|] eqn:Hpc.
  - by rewrite (ice_loop_spec this pc [] _ s w).
  - destruct (mDeferredIceCandidates s); [done|]. cbn. rewrite (session_eq this s w Hs). cbn. by rewrite Hpc.
Qed.

(** an incoming session loses its peer connection.  When the peer connection
    is created, [InitializeIncoming] moves it out of the member again: the session then
    waits for acceptance with a null peer connection, so that [Close] does nothing and
    processing a deferred candidate when the remote description is set dereferences
    null. *)
Theorem InitializeIncoming_loses_connection (this pc : positive) (remoteId connectionId : Z)
    (pref : SignalingChannelId) (w : World) (s : NetworkSession) :
  sessions w !! this = Some s → mNetworkSessionMgr s = true → mSimpleNetworkInterface (manager w) = true →
  mpPeerConnectionFactory (iface w) = true → CreatePeerConnectionOrError (env_calls w) = Some pc →
  wp (InitializeIncoming this remoteId connectionId pref) (λ _ w',
    events w' = events w ++ [EvSetRemoteDescription pc this]
    ∧ ∃ s', sessions w' !! this = Some s' ∧ mpPeerConnection s' = None
      ∧ mConnNegotiationState s' = NegWaitingForAccept ∧ mRemoteID s' = remoteId
      ∧ mConnectionId s' = connectionId ∧ Close this w' = Ret tt w'
      ∧ (mDeferredIceCandidates s ≠ [] → ProcessIceCandidates this w' = Undef NullDeref w')) w.
Proof.
  intros Hs Hm Hi Hf Hpc. unfold wp, InitializeIncoming, UpdateSessionActivity, ApplyConnectionFlags,
    GetConnectionFlags, log_receiver_id. cbn.
  rewrite (set_session_eq _ _ s) by done. cbn. erewrite set_session_eq by (cbn; by rewrite lookup_insert_eq).
  cbn. erewrite via_manager_eq by (cbn; rewrite ?lookup_insert_eq; done). cbn.
  destruct (mCallBack (iface w)); cbn;
    (erewrite set_session_eq by (cbn; by rewrite lookup_insert_eq)); cbn; rewrite Hf; cbn; rewrite Hpc; cbn;
    (erewrite set_session_eq by (cbn; by rewrite lookup_insert_eq)); cbn;
    (erewrite via_manager_eq by (cbn; rewrite ?lookup_insert_eq; done)); cbn;
    (erewrite set_session_eq by (cbn; by rewrite lookup_insert_eq)); cbn; (split; [done|]);
    (eexists; split; [by rewrite lookup_insert_eq|]); cbn; (split_and!; try done).
  1,3: unfold Close; cbn; (erewrite session_eq by (cbn; by rewrite lookup_insert_eq)); done.
  all: intros Hd; unfold ProcessIceCandidates; cbn;
    (erewrite session_eq by (cbn; by rewrite lookup_insert_eq)); cbn; rewrite Hm; cbn;
    destruct (mDeferredIceCandidates s); [done|]; cbn;
    (erewrite session_eq by (cbn; by rewrite lookup_insert_eq)); done.
Qed.
End IceTheorems.

Definition sample_candidates : NetworkSession :=
  sample_connected <| mDeferredIceCandidates := [mkCandidate kHost 1; mkCandidate kHost 11; mkCandidate kRelay 3] |>.

Lemma ProcessIceCandidates_keeps_rejected_witness :
  @ProcessIceCandidates sample_env 1 (sample_world <| sessions := {[1%positive := sample_candidates]} |>)
  = Ret tt (sample_world <| sessions := {[1%positive := sample_candidates]} |>
      <| sessions ::= <[1%positive := sample_candidates <| mDeferredIceCandidates := [mkCandidate kHost 11] |>]> |>).
Proof.
  exact (@ProcessIceCandidates_keeps_rejected sample_env 1
    (sample_world <| sessions := {[1%positive := sample_candidates]} |>) sample_candidates eq_refl eq_refl eq_refl).
Defined.

Lemma InitializeIncoming_loses_connection_witness :
  wp (@InitializeIncoming sample_env 1 2 9 ChannelLan) (λ _ w',
    events w' = events sample_world ++ [EvSetRemoteDescription 1 1]
    ∧ ∃ s', sessions w' !! 1%positive = Some s' ∧ mpPeerConnection s' = None
      ∧ mConnNegotiationState s' = NegWaitingForAccept ∧ mRemoteID s' = 2
      ∧ mConnectionId s' = 9 ∧ Close 1 w' = Ret tt w'
      ∧ (mDeferredIceCandidates sample_session ≠ [] →
         @ProcessIceCandidates sample_env 1 w' = Undef NullDeref w')) sample_world.
Proof.
  exact (@InitializeIncoming_loses_connection sample_env 1 1 2 9 ChannelLan sample_world sample_session
           eq_refl eq_refl eq_refl eq_refl eq_refl).
Defined.

(** ** Fields that nothing writes *)

(** The entry points of a session: the methods other components call, the callbacks of
    webrtc and the closures the signal thread runs. *)
Inductive session_op :=
| OpSendPacket (data : list Z) (ty : ESendType) | OpAccept | OpGetState (o : option SessionState)
| OpIncoming (remoteId connectionId : Z) (pref : SignalingChannelId) | OpOutgoing (remoteId : Z)
| OpIsDead (timeout : Z) | OpClose | OpError (err : ESessionError)
| OpChannelState | OpChannel (ch : positive) | OpMessage (data : list Z)
| OpCandidate (c : Candidate) | OpConnection (st : PeerConnectionState)
| OpIceConnection (st : IceConnectionState) | OpIceGathering (st : IceGatheringState)
| OpRemoteDescription (ok : bool) | OpAnswerFailed | OpSignalCandidate | OpSignalResponse
| OpSendTask (fr : positive) (ty : ESendType) (data : list Z) | OpResponseTask | OpCloseTask
| OpOutgoingTask (fr : positive) (remoteId : Z).

Definition run_session_op `{Env} (p : positive * session_op) : M World unit :=
  let '(this, o) := p in
  match o with
  | OpSendPacket data ty => Session_SendPacket this data ty
  | OpAccept => AcceptSession this
  | OpGetState o => let! _ := GetSessionState this o in ret tt
  | OpIncoming r c pref => InitializeIncoming this r c pref
  | OpOutgoing r => InitializeOutgoing this r
  | OpIsDead timeout => let! _ := IsDeadSession this timeout in ret tt
  | OpClose => Close this
  | OpError err => ProcessError this err
  | OpChannelState => OnDataChannelStateChange this
  | OpChannel ch => OnDataChannel this ch
  | OpMessage data => OnDataChannelMessage_session this data
  | OpCandidate c => OnIceCandidate this c
  | OpConnection st => OnConnectionChange this st
  | OpIceConnection st => OnIceConnectionChange this st
  | OpIceGathering st => OnIceGatheringChange this st
  | OpRemoteDescription ok => OnSetRemoteDescriptionComplete this ok
  | OpAnswerFailed => OnCreateAnswerFailed this
  | OpSignalCandidate => ProcessSignal_candidate this
  | OpSignalResponse => ProcessSignal_response this
  | OpSendTask fr ty data => send_packet_task this fr ty data
  | OpResponseTask => session_response_task this
  | OpCloseTask => close_peer_task this
  | OpOutgoingTask fr r => init_outgoing_task this fr r
  end.

(** A predicate that no session operation can break: it does not look at the queues,
    the trace, the frames, the channels and the threads, and of a session it looks at no
    more than the two fields that nothing writes. *)
Definition untouched (s s' : NetworkSession) : Prop :=
  mConnectionStat s' = mConnectionStat s ∧ mHasSentAcceptSession s' = mHasSentAcceptSession s.

Class SessionStable (P : World → Prop) := {
  stable_sessions w this s s' : P w → sessions w !! this = Some s → untouched s s' →
    P (w <| sessions ::= <[this := s']> |>);
  stable_events w g : P w → P (w <| events ::= g |>);
  stable_tasks w g : P w → P (w <| tasks ::= g |>);
  stable_lan_tasks w g : P w → P (w <| lan_tasks ::= g |>);
  stable_frames w g : P w → P (w <| frames ::= g |>);
  stable_next_frame w g : P w → P (w <| next_frame ::= g |>);
  stable_env_calls w g : P w → P (w <| env_calls ::= g |>);
  stable_channels w g : P w → P (w <| channels ::= g |>);
  stable_signal w g : P w → P (w <| g_SignalThread ::= g |>);
  stable_lan w g : P w → P (w <| g_LanThread ::= g |>)
}.

Section Stable.
Context `{Env}.
Variable P : World → Prop.
Context `{!SessionStable P}.

Lemma keeps_stable_set this g : (∀ s, untouched s (g s)) → keeps P (set_session this g).
Proof. intros Hg. apply keeps_set_session. intros w s Hw Hs. by apply (stable_sessions w this s). Qed.
Lemma keeps_stable_frame {A} (body : positive → M World A) :
  (∀ fr, keeps P (body fr)) → keeps P (with_frame body).
Proof. apply keeps_with_frame; [apply stable_next_frame | apply stable_frames]. Qed.
Lemma keeps_stable_signal {A} (m : M RtcThreadManager A) : keeps P (on_signal m).
Proof. apply keeps_lift. intros t w Hw. by apply stable_signal. Qed.
Lemma keeps_stable_set_channel ch g : keeps P (set_channel ch g).
Proof. unfold set_channel. keep. apply keeps_modify. intros w Hw. by apply stable_channels. Qed.

Hint Resolve keeps_stable_frame keeps_stable_signal keeps_stable_set_channel : cpp.
Hint Extern 1 (keeps P (set_session _ _)) => apply keeps_stable_set; done : cpp.
Hint Extern 1 (keeps P (modify _)) =>
  apply keeps_modify; intros; first [by apply stable_events | by apply stable_tasks | by apply stable_lan_tasks
    | by apply stable_env_calls | by apply stable_channels | by apply stable_lan] : cpp.

Lemma keeps_stable_emit e : keeps P (emit e).
Proof. unfold emit. keep. Qed.
Lemma keeps_stable_env {A} (g : nat → A) : keeps P (env_call g).
Proof. unfold env_call. keep. Qed.
Lemma keeps_stable_send ch data : keeps P (channel_Send ch data).
Proof. unfold channel_Send. keep. Qed.
Lemma keeps_stable_post t : keeps P (post_if_thread t).
Proof. unfold post_if_thread, PostTask. keep. Qed.
Hint Resolve keeps_stable_emit keeps_stable_env keeps_stable_send keeps_stable_post : cpp.
Lemma keeps_stable_open id : keeps P (NotifyOnSessionOpen id).
Proof. unfold NotifyOnSessionOpen. keep. Qed.
Lemma keeps_stable_close id e : keeps P (NotifyOnSessionClose id e).
Proof. unfold NotifyOnSessionClose. keep. Qed.
Lemma keeps_stable_flags id : keeps P (GetConnectionFlags id).
Proof. unfold GetConnectionFlags. keep. Qed.
Lemma keeps_stable_activity this : keeps P (UpdateSessionActivity this).
Proof. unfold UpdateSessionActivity. keep. Qed.
Lemma keeps_stable_log this : keeps P (log_receiver_id this).
Proof. apply keeps_via_manager. Qed.
Hint Resolve keeps_stable_open keeps_stable_close keeps_stable_flags keeps_stable_activity
  keeps_stable_log : cpp.
Lemma keeps_stable_deferred this : keeps P (CheckSendDeferredData this).
Proof. unfold CheckSendDeferredData. keep. Qed.
Lemma keeps_stable_states this : keeps P (UpdateDataChannelStates this).
Proof. unfold UpdateDataChannelStates. keep. Qed.
Lemma keeps_stable_stats this : keeps P (CheckUpdateStats this).
Proof. unfold CheckUpdateStats. keep. Qed.
Lemma keeps_stable_response this : keeps P (TrySendSessionResponse this).
Proof. unfold TrySendSessionResponse. keep. Qed.
Lemma keeps_stable_apply this c flag : keeps P (ApplyConnectionFlags this c flag).
Proof. unfold ApplyConnectionFlags. keep. Qed.
Lemma keeps_stable_ice this kept rest : keeps P (ice_loop this kept rest).
Proof. revert kept. induction rest; intros kept; cbn; keep. Qed.
Lemma keeps_stable_channel this l m e : keeps P (create_channel this l m e).
Proof. unfold create_channel. apply keeps_stable_frame. keep. Qed.
Hint Resolve keeps_stable_deferred keeps_stable_states keeps_stable_stats keeps_stable_response
  keeps_stable_apply keeps_stable_ice keeps_stable_channel : cpp.
Lemma keeps_stable_candidates this : keeps P (ProcessIceCandidates this).
Proof. unfold ProcessIceCandidates. keep. Qed.
Hint Resolve keeps_stable_candidates : cpp.

(** The LAN thread does not touch the sessions. *)
Lemma keeps_stable_peers {A} (m : M PeerRecordTable A) : keeps P (on_peers m).
Proof.
  unfold on_peers, getLanThread. keep. intros w Hw. unfold always. destruct (m a0); try by apply stable_lan. done.
Qed.
Lemma keeps_stable_set_lan g : keeps P (set_lan g).
Proof. unfold set_lan, getLanThread. keep. Qed.
Lemma keeps_stable_lan_post t : keeps P (lan_PostTask t).
Proof. unfold lan_PostTask. keep. Qed.
Hint Resolve keeps_stable_peers keeps_stable_set_lan keeps_stable_lan_post : cpp.
Lemma keeps_stable_helper data size addr : keeps P (SendToHelper data size addr).
Proof. unfold SendToHelper, lan_SendTo, getLanThread. keep. Qed.
Lemma keeps_stable_completion c : keeps P (invoke_completion c).
Proof. destruct c; cbn; keep. Qed.
Lemma keeps_stable_packet array src dst data : keeps P (DiscoveryMessagePacket_new array src dst data).
Proof. unfold DiscoveryMessagePacket_new, memcpy. keep. Qed.
Hint Resolve keeps_stable_helper keeps_stable_completion keeps_stable_packet : cpp.
Lemma keeps_stable_lan_send src dst data c : keeps P (SendSignalingMessageTo src dst data c).
Proof. unfold SendSignalingMessageTo, getLanThread. keep. Qed.
Hint Resolve keeps_stable_lan_send : cpp.
Lemma keeps_stable_signaling this : keeps P (SendToSignalingChannel this).
Proof.
  unfold SendToSignalingChannel, SendToSignalingChannel_iface, IsNetworkIdOnLan.
  apply keeps_stable_frame. keep.
Qed.
Hint Resolve keeps_stable_signaling : cpp.

Lemma keeps_stable_op p : keeps P (run_session_op p).
Proof.
  destruct p as [this []]; cbn; unfold Session_SendPacket, AcceptSession, GetSessionState,
    InitializeIncoming, InitializeOutgoing, IsDeadSession, Close, ProcessError, OnDataChannelStateChange,
    OnDataChannel, OnDataChannelMessage_session, OnIceCandidate, CandidateAdd_TryCreate,
    OnConnectionChange, OnIceConnectionChange, OnIceGatheringChange,
    OnSetRemoteDescriptionComplete, OnSetRemoteFailure, OnSetRemoteSuccess, OnCreateAnswerFailed,
    ProcessSignal_candidate, ProcessSignal_response, send_packet_task, session_response_task,
    close_peer_task, init_outgoing_task, MyCreateSessionDescriptionObserver_Create;
    try (apply keeps_stable_frame; intros ?); keep.
Qed.
End Stable.

(** The two fields of every session. *)
Definition unwritten (f : positive → option (Z * bool)) (w : World) : Prop :=
  ∀ k, (λ s, (mConnectionStat s, mHasSentAcceptSession s)) <$> sessions w !! k = f k.

#[export] Instance unwritten_stable f : SessionStable (unwritten f).
Proof.
  split; try done. intros w this s s' Hw Hs [H1 H2] k. cbn. destruct (decide (k = this)) as [->|Hne].
  - rewrite lookup_insert_eq. rewrite <- (Hw this), Hs. cbn. by rewrite H1, H2.
  - rewrite lookup_insert_ne by done. apply Hw.
Qed.

(** the connection state a session dies by is never written.  Whatever
    sequence of calls, callbacks and closures runs, on whatever sessions and with whatever
    outcome, the connection state and the accept flag of every session stay as they
    were: [IsConnectionAlive] gives the same answer for ever, also after ICE reported
    Failed or Closed through [OnIceConnectionChange]. *)
Theorem connection_stat_never_written `{Env} (ops : list (positive * session_op)) (w : World) :
  always (λ w', ∀ k s, sessions w !! k = Some s → ∃ s', sessions w' !! k = Some s'
      ∧ mConnectionStat s' = mConnectionStat s ∧ mHasSentAcceptSession s' = mHasSentAcceptSession s
      ∧ IsConnectionAlive s' = IsConnectionAlive s)
    (for_each run_session_op ops) w.
Proof.
  set (f := λ k, (λ s, (mConnectionStat s, mHasSentAcceptSession s)) <$> sessions w !! k).
  eapply always_mono; [|apply (keeps_for_each (unwritten f)); [intros p; apply keeps_stable_op; apply _ | done]].
  intros w' Hw' k s Hs. specialize (Hw' k). unfold f in Hw'. rewrite Hs in Hw'. cbn in Hw'.
  apply fmap_Some in Hw' as (s' & Hs' & E). injection E as E1 E2. exists s'. split_and!; try done.
  unfold IsConnectionAlive. by rewrite E1.
Qed.
