(* ===== verification/Manager.v ===== *)
(** * network/NetworkSessionManager.cpp: the sessions by remote identifier

    [mSessionList] maps a remote id to a record with a pointer to its session; a
    reference to a record is its key, since the nodes of a [std::map] do not move.
    [operator[]] inserts a record with a null session when there is none. *)

From S2P Require Import Prelude Enums Utils IpAddress SocketAddress PeerTable Packets Threads WebSocket World Lan Session.

Definition set_manager (f : NetworkSessionManager → NetworkSessionManager) : M World unit :=
  modify (λ w, w <| manager ::= f |>).

Definition null_record : NetworkSessionRecord := mkRecord None 0.

(** [mSessionList[id]] *)
Definition record_at (id : Z) : M World NetworkSessionRecord :=
  let! m := gets manager in
  match mSessionList m !! id with
  | Some r => ret r
  | None => set_manager (λ m, m <| mSessionList ::= <[id := null_record]> |>) ;; ret null_record
  end.

(** [record.mOwnSession = nullptr] *)
Definition reset_record (id : Z) : M World unit :=
  set_manager (λ m, m <| mSessionList ::= alter (λ r, r <| mOwnSession := None |>) id |>).

(** Reading through [mSimpleNetworkInterface]. *)
Definition via_interface : M World SimpleNetworkInterfaceImpl :=
  let! m := gets manager in
  if negb (mSimpleNetworkInterface m) then undef NullDeref else gets iface.

Definition ClearPacketData (id : Z) : M World unit :=
  session_lock (set_manager (λ m, m <| mPacketData ::= delete id |>)).

Definition CloseSessionWithUser (id : Z) : M World bool := session_lock (
  let! m := gets manager in
  match mSessionList m !! id with
  | Some r => (match mOwnSession r with Some s => Close s | None => ret tt end) ;; ret true
  | None => ret false
  end).

Definition AcceptSessionWithUser (id : Z) : M World bool := session_lock (
  let! m := gets manager in
  match mSessionList m !! id with
  | Some r => match mOwnSession r with Some s => AcceptSession s ;; ret true | None => ret false end
  | None => ret false
  end).

Definition CloseSessionIfInactive (id : Z) : M World unit :=
  let! m := gets manager in
  match mSessionList m !! id ≫= mOwnSession with
  | None => ret tt
  | Some this =>
    let! s := session this in
    let! t := now in
    if negb (IsConnectionAlive s) && IsInactiveSession s t then
      let! _ := via_interface in
      ProcessError this ESessionErrorInactivityTimeout ;;
      Close this
    else ret tt
  end.

(** On the signal thread the record is reset at once, elsewhere by a posted closure. *)
Definition FilterDeadSession (id : Z) : M World bool :=
  let! m := gets manager in
  match mSessionList m !! id ≫= mOwnSession with
  | None => ret false
  | Some this =>
    let! i := via_interface in
    let! dead := IsDeadSession this (mNegotiationTimeout i) in
    if negb dead then ret false else
    let! _ := via_interface in
    let! on_thread := on_signal IsOnThread in
    (if on_thread then reset_record id else post_if_thread (TResetRecord id)) ;;
    ret true
  end.

Definition GetCurrentSession (id : Z) : M World (option positive) :=
  let! _ := record_at id in
  let! dead := FilterDeadSession id in
  if dead then ret None else let! r := record_at id in ret (mOwnSession r).

Definition Manager_GetSessionState (id : Z) (outState : option SessionState) :
    M World (bool * option SessionState) := session_lock (
  let! current := GetCurrentSession id in
  match current with
  | Some s => GetSessionState s outState
  | None => ret (false, outState)
  end).

Definition HasKnownConnection (id : Z) : M World bool := session_lock (
  let! r := record_at id in
  ret (match mOwnSession r with Some _ => true | None => false end)).

(** The construction of the new session is commented out. *)
Definition InitiateIncomingSession (id connectionId : Z) : M World bool :=
  let! current := GetCurrentSession id in
  let! overlaps := match current with
    | Some this => let! s := session this in
                   if connectionId =? mConnectionId s then let! _ := via_interface in ret true else ret false
    | None => ret false
    end in
  if overlaps then ret false else
  ClearPacketData id ;;
  let! m := gets manager in
  (if bool_decide (is_Some (mSessionList m !! id)) then
     let! on_thread := on_signal IsOnThread in
     (if negb on_thread then post_if_thread TCleanup else ret tt) ;;
     let! _ := record_at id in
     reset_record id
   else ret tt) ;;
  ret true.

Definition InitiateOutgoingSession (id : Z) : M World (option positive) :=
  let! m := gets manager in
  match mSessionList m !! id with
  | Some r => ret (mOwnSession r)
  | None => ClearPacketData id ;; GetCurrentSession id
  end.

Definition FindSpecificSession (id connectionid : Z) : M World (option positive) :=
  let! m := gets manager in
  match mSessionList m !! id with
  | None => ret None
  | Some r =>
    match mOwnSession r with
    | Some s => if rec_mConnectionId r =? connectionid then ret (Some s) else ret None
    | None => ret None
    end
  end.

(** The size goes to the out parameter. *)
Definition IsPacketAvailable (id : Z) (mcbMessage : Z) : M World (bool * Z) := session_lock (
  let! m := gets manager in
  match mPacketData m !! id with
  | None => ret (false, mcbMessage)
  | Some d => ret (true, wrap 32 (Z.of_nat (length d)))
  end).

(** The body is empty. *)
Definition RemoteMessageReceived (id : Z) (data : list Z) : M World unit := ret tt.
Definition OnRemoteMessageReceived (id : Z) (data : list Z) : M World unit :=
  match data with [] => ret tt | _ => RemoteMessageReceived id data end.

(** The whole body is commented out. *)
Definition OpenSessionWithUser (id : Z) : M World bool := undef NoReturn.

Definition Manager_ProcessError (id : Z) (err : ESessionError) : M World unit := session_lock (
  let! current := GetCurrentSession id in
  match current with Some s => ProcessError s err | None => ret tt end).

Definition Manager_SendPacket (id : Z) (data : list Z) (ty : ESendType) : M World Z := session_lock (
  let! current := GetCurrentSession id in
  match current with
  | Some s => Session_SendPacket s data ty ;; ret 1
  | None => ret 0
  end).

(** ** The manager never gains a session or a packet *)

Inductive manager_op :=
| MClear (id : Z) | MClose (id : Z) | MAccept (id : Z) | MInactive (id : Z) | MState (id : Z) (o : option SessionState)
| MKnown (id : Z) | MIncoming (id connectionId : Z) | MOutgoing (id : Z) | MFind (id connectionId : Z)
| MAvailable (id mcbMessage : Z) | MReceived (id : Z) (data : list Z) | MOpen (id : Z)
| MError (id : Z) (err : ESessionError) | MSend (id : Z) (data : list Z) (ty : ESendType)
| MResetTask (id : Z) | MSession (this : positive) (o : session_op).

Definition run_manager_op `{Env} (o : manager_op) : M World unit :=
  match o with
  | MClear id => ClearPacketData id
  | MClose id => let! _ := CloseSessionWithUser id in ret tt
  | MAccept id => let! _ := AcceptSessionWithUser id in ret tt
  | MInactive id => CloseSessionIfInactive id
  | MState id o => let! _ := Manager_GetSessionState id o in ret tt
  | MKnown id => let! _ := HasKnownConnection id in ret tt
  | MIncoming id c => let! _ := InitiateIncomingSession id c in ret tt
  | MOutgoing id => let! _ := InitiateOutgoingSession id in ret tt
  | MFind id c => let! _ := FindSpecificSession id c in ret tt
  | MAvailable id size => let! _ := IsPacketAvailable id size in ret tt
  | MReceived id data => OnRemoteMessageReceived id data
  | MOpen id => let! _ := OpenSessionWithUser id in ret tt
  | MError id err => Manager_ProcessError id err
  | MSend id data ty => let! _ := Manager_SendPacket id data ty in ret tt
  | MResetTask id => reset_record id
  | MSession this o => run_session_op (this, o)
  end.

(** The session recorded for a remote id. *)
Definition recorded (m : NetworkSessionManager) (id : Z) : option positive :=
  mSessionList m !! id ≫= mOwnSession.

Definition within (m0 m : NetworkSessionManager) : Prop :=
  (∀ id d, mPacketData m !! id = Some d → mPacketData m0 !! id = Some d)
  ∧ (∀ id this, recorded m id = Some this → recorded m0 id = Some this).

Definition manager_within (m0 : NetworkSessionManager) (w : World) : Prop := within m0 (manager w).

(** A predicate that no operation of the manager can break: besides what sessions
    write, it survives the four writes the manager makes. *)
Class ManagerStable (P : World → Prop) := {
  mstable_stable :: SessionStable P;
  mstable_null w id : P w → mSessionList (manager w) !! id = None →
    P (w <| manager ::= (λ m, m <| mSessionList ::= <[id := null_record]> |>) |>);
  mstable_reset w id : P w →
    P (w <| manager ::= (λ m, m <| mSessionList ::= alter (λ r, r <| mOwnSession := None |>) id |>) |>);
  mstable_delete w id : P w → P (w <| manager ::= (λ m, m <| mPacketData ::= delete id |>) |>);
  mstable_mutex w b : P w → P (w <| manager ::= (λ m, m <| mSessionCreationMutex := b |>) |>)
}.

#[export] Instance manager_within_stable m0 : ManagerStable (manager_within m0).
Proof.
  split; [by split| | | |done]; intros w id; unfold manager_within, within, recorded; cbn.
  - intros [Hp Hr] Hn. split; [done|]. intros id' this. destruct (decide (id' = id)) as [->|Hne];
      [by rewrite lookup_insert_eq | rewrite lookup_insert_ne by done; apply Hr].
  - intros [Hp Hr]. split; [done|]. intros id' this. destruct (decide (id' = id)) as [->|Hne];
      [rewrite lookup_alter_eq; by destruct (mSessionList (manager w) !! id)
      | rewrite lookup_alter_ne by done; apply Hr].
  - intros [Hp Hr]. split; [|done]. intros id' d Hd. apply lookup_delete_Some in Hd as [_ Hd]. by apply Hp.
Qed.

(** Dropping the result of a call does not matter. *)
Lemma keeps_drop {A} (P : World → Prop) (m : M World A) : keeps P (let! _ := m in ret tt) → keeps P m.
Proof. intros Hm w Hw. specialize (Hm w Hw). unfold always in *. cbn in Hm. by destruct (m w). Qed.

Section ManagerStable.
Context `{Env}.
Variable Q : World → Prop.
Context `{!ManagerStable Q}.

Lemma keeps_manager_lock {A} (body : M World A) : keeps Q body → keeps Q (session_lock body).
Proof. apply keeps_with_mutex. intros b w. apply mstable_mutex. Qed.
Lemma keeps_manager_record id : keeps Q (record_at id).
Proof.
  unfold record_at. intros w Hw. unfold always. cbn.
  destruct (mSessionList (manager w) !! id) as [r|] eqn:E; cbn; [done|]. by apply mstable_null.
Qed.
Lemma keeps_manager_reset id : keeps Q (reset_record id).
Proof. apply keeps_modify. intros w. apply mstable_reset. Qed.
Lemma keeps_manager_via : keeps Q via_interface.
Proof. unfold via_interface. keep. Qed.
Lemma keeps_manager_clear id : keeps Q (ClearPacketData id).
Proof. apply keeps_manager_lock, keeps_modify. intros w. apply mstable_delete. Qed.
Lemma keeps_manager_session p : keeps Q (run_session_op p).
Proof. apply keeps_stable_op. apply _. Qed.
Lemma keeps_manager_close this : keeps Q (Close this).
Proof. apply (keeps_manager_session (this, OpClose)). Qed.
Lemma keeps_manager_accept this : keeps Q (AcceptSession this).
Proof. apply (keeps_manager_session (this, OpAccept)). Qed.
Lemma keeps_manager_error this e : keeps Q (ProcessError this e).
Proof. apply (keeps_manager_session (this, OpError e)). Qed.
Lemma keeps_manager_send this d ty : keeps Q (Session_SendPacket this d ty).
Proof. apply (keeps_manager_session (this, OpSendPacket d ty)). Qed.
Lemma keeps_manager_signal {A} (m : M RtcThreadManager A) : keeps Q (on_signal m).
Proof. apply keeps_stable_signal. apply _. Qed.
Lemma keeps_manager_post t : keeps Q (post_if_thread t).
Proof. apply keeps_stable_post. apply _. Qed.

Lemma keeps_manager_notify id e : keeps Q (NotifyOnSessionClose id e).
Proof. apply keeps_stable_close. apply _. Qed.
Lemma keeps_manager_stats this : keeps Q (CheckUpdateStats this).
Proof. apply keeps_stable_stats. apply _. Qed.
Hint Resolve keeps_manager_lock keeps_manager_record keeps_manager_reset keeps_manager_via keeps_manager_clear
  keeps_manager_session keeps_manager_close keeps_manager_accept keeps_manager_error keeps_manager_send
  keeps_manager_signal keeps_manager_post keeps_manager_notify keeps_manager_stats : cpp.

Lemma keeps_manager_dead this t : keeps Q (IsDeadSession this t).
Proof. unfold IsDeadSession. keep. Qed.
Lemma keeps_manager_state this o : keeps Q (GetSessionState this o).
Proof. unfold GetSessionState. keep. Qed.
Hint Resolve keeps_manager_dead keeps_manager_state : cpp.
Lemma keeps_manager_filter id : keeps Q (FilterDeadSession id).
Proof. unfold FilterDeadSession. keep. Qed.
Hint Resolve keeps_manager_filter : cpp.
Lemma keeps_manager_current id : keeps Q (GetCurrentSession id).
Proof. unfold GetCurrentSession. keep. Qed.
Hint Resolve keeps_manager_current : cpp.

Lemma keeps_manager_op o : keeps Q (run_manager_op o).
Proof.
  destruct o; unfold run_manager_op, CloseSessionWithUser, AcceptSessionWithUser, CloseSessionIfInactive,
    Manager_GetSessionState, HasKnownConnection, InitiateIncomingSession, InitiateOutgoingSession,
    FindSpecificSession, IsPacketAvailable, OnRemoteMessageReceived, RemoteMessageReceived,
    OpenSessionWithUser, Manager_ProcessError, Manager_SendPacket;
    repeat (progress keep || simple apply keeps_manager_lock).
Qed.
End ManagerStable.

(** ** Lookup of the current session *)

Lemma record_at_eq id r w :
  mSessionList (manager w) !! id = Some r → record_at id w = Ret r w.
Proof. intros Hr. unfold record_at. cbn. by rewrite Hr. Qed.
Arguments record_at : simpl never.

(** What the theorems below assume of a recorded session: the pointers it goes through
    are valid, its state fits its type, and the signal thread, if any, exists. *)
Record session_ready (id : Z) (this : positive) (s : NetworkSession) (w : World) : Prop := mkReady {
  ready_record : recorded (manager w) id = Some this;
  ready_session : sessions w !! this = Some s;
  ready_manager : mNetworkSessionMgr s = true;
  ready_iface : mSimpleNetworkInterface (manager w) = true;
  ready_callback : mCallBack (iface w) = true;
  ready_stat : uint 32 (mConnectionStat s);
  ready_thread : ∀ th, mThread (g_SignalThread w) = Some th → th ∈ threads (g_SignalThread w)
}.

Definition on_signal_thread (w : World) : bool :=
  match mThread (g_SignalThread w) with
  | Some th => bool_decide (current (g_SignalThread w) = Some th)
  | None => false
  end.

Lemma IsOnThread_eq w :
  (∀ th, mThread (g_SignalThread w) = Some th → th ∈ threads (g_SignalThread w)) →
  on_signal IsOnThread w = Ret (on_signal_thread w) w.
Proof.
  intros Hth. unfold on_signal, IsOnThread, LoadRtcThread, on_thread, on_signal_thread. cbn.
  destruct (mThread (g_SignalThread w)) as [th|]; cbn; [|by destruct w].
  rewrite bool_decide_eq_true_2 by auto. cbn. by destruct w.
Qed.

(** The outcome of looking up a session that is recorded. *)
Definition current_outcome (id : Z) (this : positive) (s : NetworkSession) (w : World)
    (res : option positive) (w' : World) : Prop :=
  match death_cause s (clock w) (mNegotiationTimeout (iface w)) with
  | None => res = Some this ∧ w' = w
  | Some err => res = None ∧ events w' = events w ++ [EvSessionClose (mRemoteID s) err]
      ∧ sessions w' = sessions w ∧ mSessionCreationMutex (manager w') = mSessionCreationMutex (manager w)
      ∧ (if on_signal_thread w then recorded (manager w') id = None
         else tasks w' = tasks w ++ (match mThread (g_SignalThread w) with
                                     | Some _ => [TResetRecord id] | None => [] end))
  end.

(** [IsDeadSession] on a ready session, from the lemmas of the session. *)
Lemma IsDeadSession_ready id this s w timeout :
  session_ready id this s w →
  IsDeadSession this timeout w
  = match death_cause s (clock w) timeout with
    | None => Ret false w
    | Some err => Ret true (w <| events ::= (λ l, l ++ [EvSessionClose (mRemoteID s) err]) |>)
    end.
Proof. intros []. by apply IsDeadSession_spec. Qed.

Lemma GetCurrentSession_ready id this s w :
  session_ready id this s w → wp (GetCurrentSession id) (current_outcome id this s w) w.
Proof.
  intros Hr. pose proof Hr as [Hrec Hs Hm Hi Hc Hu Hth]. unfold recorded in Hrec.
  destruct (mSessionList (manager w) !! id) as [r|] eqn:Er; [|done]. cbn in Hrec.
  unfold wp, GetCurrentSession, FilterDeadSession, via_interface, current_outcome. cbn.
  rewrite (record_at_eq id r w Er). cbn. rewrite Er. cbn. rewrite Hrec. cbn. rewrite Hi. cbn.
  rewrite (IsDeadSession_ready id this s w _ Hr).
  destruct (death_cause s (clock w) _) as [err|]; cbn.
  2:{ rewrite (record_at_eq id r w Er). cbn. by rewrite Hrec. }
  rewrite Hi. cbn. rewrite IsOnThread_eq by done. unfold on_signal_thread. cbn.
  destruct (mThread (g_SignalThread w)) as [th|] eqn:Et; cbn.
  - destruct (bool_decide (current (g_SignalThread w) = Some th)); cbn.
    + split_and!; try done. unfold recorded; cbn. by rewrite lookup_alter_eq, Er.
    + rewrite (post_if_thread_eq _ th) by auto. cbn. by split_and!.
  - rewrite post_if_thread_none by done. cbn. split_and!; try done. by rewrite app_nil_r.
Qed.
Arguments GetCurrentSession : simpl never.

Definition locked (w : World) : World := w <| manager ::= (λ m, m <| mSessionCreationMutex := true |>) |>.
Lemma ready_locked id this s w : session_ready id this s w → session_ready id this s (locked w).
Proof. by intros []. Qed.

Lemma session_lock_wp {A} (body : M World A) (Q : A → World → Prop) w :
  mSessionCreationMutex (manager w) = false →
  wp body (λ a w', Q a (w' <| manager ::= (λ m, m <| mSessionCreationMutex := false |>) |>)) (locked w) →
  wp (session_lock body) Q w.
Proof.
  intros Hl. unfold wp, session_lock, with_mutex. rewrite Hl. fold (locked w). by destruct (body (locked w)).
Qed.

(** A recorded session that is alive is handed the packet, with one closure on the queue
    of the signal thread; a dead one is reported closed. *)
Lemma Manager_SendPacket_ready (id : Z) (this : positive) (s : NetworkSession) (w : World)
    (data : list Z) (ty : ESendType) :
  session_ready id this s w → mSessionCreationMutex (manager w) = false →
  wp (Manager_SendPacket id data ty) (λ r w', mSessionCreationMutex (manager w') = false ∧
    match death_cause s (clock w) (mNegotiationTimeout (iface w)) with
    | None => r = 1 ∧ events w' = events w ∧ recorded (manager w') id = Some this
        ∧ (match mThread (g_SignalThread w) with
           | Some _ => ∃ fr, tasks w' = tasks w ++ [TSendPacket this fr ty data]
           | None => tasks w' = tasks w end)
    | Some err => r = 0 ∧ events w' = events w ++ [EvSessionClose (mRemoteID s) err]
    end) w.
Proof.
  intros Hr Hl. apply session_lock_wp; [done|]. apply wp_bind.
  eapply wp_mono; [|by apply GetCurrentSession_ready, ready_locked].
  intros res w1 Hout. unfold current_outcome in Hout. cbn in Hout.
  destruct (death_cause s (clock w) _) as [err|].
  - destruct Hout as (-> & Hev & _). done.
  - destruct Hout as [-> ->]. destruct Hr as [Hrec Hs Hm Hi Hc Hu Hth].
    unfold wp, Session_SendPacket, with_frame, UpdateSessionActivity. cbn.
    rewrite (set_session_eq _ _ s) by done. cbn. destruct (mThread (g_SignalThread w)) as [th|] eqn:Et; cbn.
    + rewrite (post_if_thread_eq _ th) by auto. cbn. split_and!; try done. by eexists.
    + by split_and!.
Qed.

(** an incoming request for a peer with a live session: a request with the
    connection id of that session is ignored; any other request makes the manager
    forget the session (its record is reset, its packets dropped, the object is neither
    closed nor destroyed) and reports success, without creating the new session. *)
Theorem InitiateIncomingSession_forgets (id connectionId : Z) (this : positive) (s : NetworkSession) (w : World) :
  session_ready id this s w → mSessionCreationMutex (manager w) = false →
  death_cause s (clock w) (mNegotiationTimeout (iface w)) = None →
  wp (InitiateIncomingSession id connectionId) (λ b w',
    if connectionId =? mConnectionId s then b = false ∧ w' = w
    else b = true ∧ recorded (manager w') id = None ∧ mPacketData (manager w') !! id = None
         ∧ sessions w' = sessions w ∧ events w' = events w
         ∧ wp (HasKnownConnection id) (λ known _, known = false) w') w.
Proof.
  intros Hr Hl Hd. unfold InitiateIncomingSession. apply wp_bind.
  eapply wp_mono; [|by apply (GetCurrentSession_ready id this s)].
  intros res w1 Hout. unfold current_outcome in Hout. rewrite Hd in Hout. destruct Hout as [-> ->].
  destruct Hr as [Hrec Hs Hm Hi Hc Hu Hth]. unfold wp, via_interface. cbn. rewrite (session_eq this s w Hs). cbn.
  destruct (Z.eqb_spec connectionId (mConnectionId s)) as [E|E]; cbn; [by rewrite Hi|].
  unfold ClearPacketData, session_lock, with_mutex. rewrite Hl. cbn.
  unfold recorded in Hrec. destruct (mSessionList (manager w) !! id) as [r|] eqn:Er; [|done].
  rewrite bool_decide_eq_true_2 by done. cbn. rewrite IsOnThread_eq by done.
  assert (∀ w2, mSessionList (manager w2) = mSessionList (manager w) →
    mPacketData (manager w2) = delete id (mPacketData (manager w)) →
    mSessionCreationMutex (manager w2) = false → sessions w2 = sessions w → events w2 = events w →
    match ((record_at id ;; reset_record id) ;; ret true) w2 with
    | Ret b w' => b = true ∧ recorded (manager w') id = None ∧ mPacketData (manager w') !! id = None
         ∧ sessions w' = sessions w ∧ events w' = events w
         ∧ wp (HasKnownConnection id) (λ known _, known = false) w'
    | _ => False end) as Hfin.
  { intros w2 H1 H2 H3 H4 H5. cbn. rewrite (record_at_eq id r) by (by rewrite H1). cbn. unfold recorded; cbn.
    rewrite lookup_alter_eq, H1, Er, H2, lookup_delete_eq. cbn. split_and!; try done.
    apply session_lock_wp; [done|]. apply wp_bind. unfold wp.
    erewrite record_at_eq by (cbn; by rewrite lookup_alter_eq, H1, Er). done. }
  destruct (on_signal_thread _); cbn; [by apply Hfin|].
  match goal with |- context [post_if_thread TCleanup ?x] =>
    destruct (mThread (g_SignalThread w)) as [th|] eqn:Et;
    [rewrite (post_if_thread_eq TCleanup th x) by auto | rewrite (post_if_thread_none TCleanup x) by done] end;
    by apply Hfin.
Qed.

Lemma sample_ready : session_ready 2 1 sample_session sample_world.
Proof. split; try reflexivity; [exact sample_stat_ok | intros th [= <-]; exact sample_thread_live]. Qed.

Lemma InitiateIncomingSession_forgets_witness :
  wp (InitiateIncomingSession 2 5) (λ b w', b = true ∧ recorded (manager w') 2 = None
    ∧ mPacketData (manager w') !! 2 = None ∧ sessions w' = sessions sample_world ∧ events w' = []
    ∧ wp (HasKnownConnection 2) (λ known _, known = false) w') sample_world.
Proof. exact (InitiateIncomingSession_forgets 2 5 1 sample_session sample_world sample_ready eq_refl eq_refl). Defined.
