(* ===== verification/Interface.v ===== *)
(** * connection/SimpleNetworkInterfaceImpl.cpp: the interface of the transport

    The entry points an application calls.  Most take [mApiLevelMutex] and forward to
    the session manager; the configuration calls post a closure to the signal thread;
    received signals are decoded with jsoncpp ([Env]).  Functions the project declares
    but never defines are the operations of the class [Declared]. *)

From S2P Require Import Prelude Enums Utils IpAddress SocketAddress PeerTable Packets Threads WebSocket World Lan Session Manager.

(** ** Data *)

(** connection/NetherNetTransportServerConfiguration.hpp; a C string may be null. *)
Record StunRelayServer := mkStun { Uri : option string; Username : option string; Password : option string }.
Record NetherNetTransportServerConfiguration := mkServerConfig {
  StunRelayServers : list StunRelayServer;    (* 16 of them *)
  StunRelayServerCount : Z;                   (* size_t *)
  KnownMappedAddressCount : Z;
  TitleControlsSignalingSignIn : string
}.

Record TurnAuthServer := mkTurnAuth { userName : string; auth_password : string; turnUri : string; stunUri : string }.
#[export] Instance TurnAuthServer_eta : Eta TurnAuthServer :=
  λ r, mkTurnAuth (userName r) (auth_password r) (turnUri r) (stunUri r).

Record SignalingConfiguration := mkSignalingConfig {
  SignalingHostUrl : option string; AuthToken : option string;
  StunServer : option string; TurnServer : option string
}.

Record ConnectError := mkConnectError { err_mSessionId : Z; mErr : ESessionError }.
Definition ConnectError_Create (sessionId : Z) (err : ESessionError) : ConnectError := mkConnectError sessionId err.

(** The alternatives of [SignalingMessage]. *)
Inductive SignalingMessage :=
| SmConnectRequest (mSdp : string)
| SmConnectResponse (sessionId : Z)
| SmConnectError (e : ConnectError)
| SmCandidateAdd (mSdp : string).

(** ** Functions without a definition in the project *)

Class Declared := {
  Manager_ProcessSignal : Z → SignalingMessage → SignalingChannelId → M World unit;
  PeriodicDeadSessionCleaup : M World unit;
  Manager_ReadPacket : Z → Z → M World (bool * list Z * Z);   (* result, bytes written, size *)
  Signaling_SignIn : SignalingConfiguration → M WebSocket unit;
  Signaling_Update : M WebSocket unit
}.

(** ** Access *)

Definition set_iface (f : SimpleNetworkInterfaceImpl → SimpleNetworkInterfaceImpl) : M World unit :=
  modify (λ w, w <| iface ::= f |>).

(** [mNetworkSessionMgr->...] *)
Definition mgr_call {A} (m : M World A) : M World A :=
  let! i := gets iface in if negb (iface_mgr i) then undef NullDeref else m.

(** [mpWebRTCSignalingInterface->...] *)
Definition on_ws {A} (m : M WebSocket A) : M World A :=
  let! i := gets iface in
  match mpWebRTCSignalingInterface i with
  | None => undef NullDeref
  | Some s => lift (λ _, s) (λ s' w, w <| iface ::= (λ i, i <| mpWebRTCSignalingInterface := Some s' |>) |>) m
  end.

(** ** LAN signaling *)

Definition EnableSignalingOverLAN : M World unit :=
  let! i := gets iface in
  if mDisableLANSignaling i then set_iface (λ i, i <| mDisableLANSignaling := false |>) else ret tt.
Definition DisableSignalingOverLAN : M World unit :=
  let! i := gets iface in
  if negb (mDisableLANSignaling i) then set_iface (λ i, i <| mDisableLANSignaling := true |>) else ret tt.

(** ** Calls forwarded to the session manager *)

Definition Interface_AcceptSessionWithUser (id : Z) : M World unit := api_lock (
  let! _ := mgr_call (AcceptSessionWithUser id) in ret tt).
Definition Interface_ClearPacketData (id : Z) : M World unit := mgr_call (ClearPacketData id).
Definition Interface_GetSessionState (remoteId : Z) (pConnState : option SessionState) :
    M World (bool * option SessionState) := api_lock (
  let! i := gets iface in
  if mReceiverId i =? remoteId then ret (false, pConnState)
  else mgr_call (Manager_GetSessionState remoteId pConnState)).
Definition Interface_IsPacketAvailable (remoteId : Z) (pcbMessageSize : Z) : M World (bool * Z) :=
  api_lock (mgr_call (IsPacketAvailable remoteId pcbMessageSize)).
Definition Interface_CloseSessionWithUser (id : Z) : M World bool :=
  api_lock (mgr_call (CloseSessionWithUser id)).
Definition Interface_OpenSessionWithUser (remoteId : Z) : M World bool :=
  api_lock (mgr_call (OpenSessionWithUser remoteId)).
Definition ProcessSessionError (remoteId : Z) (err : ESessionError) : M World unit :=
  mgr_call (Manager_ProcessError remoteId err).
Definition NotifyOnSessionRequested (id : Z) : M World unit :=
  let! i := gets iface in
  if mCallBack i then emit (EvSessionRequested id)
  else let! _ := Interface_CloseSessionWithUser id in ret tt.

(** ** Calls forwarded to the LAN thread *)

Definition Interface_IsBroadcastDiscoveryEnabled : M World bool :=
  let! _ := getLanThread in
  let! i := gets iface in IsBroadcastDiscoveryEnabled (mReceiverId i).
Definition Interface_DisableBroadcastDiscovery : M World unit :=
  let! _ := getLanThread in
  let! i := gets iface in DisableBroadcastDiscovery (mReceiverId i).
Definition Interface_EnableBroadcastDiscovery : M World unit :=
  let! _ := getLanThread in
  let! i := gets iface in EnableBroadcastDiscovery (mReceiverId i).

(** ** The signaling service *)

Definition IsSignedIntoSignalingService : M World bool :=
  let! i := gets iface in
  match mpWebRTCSignalingInterface i with Some _ => on_ws IsSignedIn | None => ret false end.

(** Nothing is registered. *)
Definition RegisterSignalingChannelCallbacks : M World unit := ret tt.

Definition WebSocketSignalingInterfaceImpl_new : WebSocket := mkWs None false ∅ 0 0 [] [].

Definition MakeDefaultSignalingChannel (config : NetherNetTransportServerConfiguration) : M World unit :=
  (if negb (KnownMappedAddressCount config =? 0) then ret tt
   else set_iface (λ i, i <| mpWebRTCSignalingInterface := Some WebSocketSignalingInterfaceImpl_new |>)) ;;
  RegisterSignalingChannelCallbacks.

Definition SetWebRTCSignalingInterface (webrtc_interface : option WebSocket) : M World unit :=
  set_iface (λ i, i <| mpWebRTCSignalingInterface := webrtc_interface |>) ;;
  RegisterSignalingChannelCallbacks.

Definition SignOutFromSignalingService `{HttpClient} : M World unit :=
  let! i := gets iface in
  match mpWebRTCSignalingInterface i with Some _ => on_ws SignOut | None => ret tt end.

(** ** Sending *)

Definition send_type_eqb (a b : ESendType) : bool := enum_val a =? enum_val b.

Definition Interface_SendPacket (remoteId : Z) (pbdata : list Z) (sendType : ESendType) : M World Z := api_lock (
  let cbData := Z.of_nat (length pbdata) in
  if (1197 <=? cbData) && send_type_eqb sendType eSendTypeUnreliable then ret 0 else
  if (15361 <=? cbData) && send_type_eqb sendType eSendTypeReliable then ret 0 else
  let! _ := getLanThread in
  let! i := gets iface in
  if mReceiverId i =? remoteId then mgr_call (RemoteMessageReceived remoteId pbdata) ;; ret 1 else
  let! known := mgr_call (HasKnownConnection remoteId) in
  let! on_lan := if known then ret true else IsNetworkIdOnLan remoteId in
  let! reachable := if on_lan then ret true else
    match mpWebRTCSignalingInterface i with Some _ => on_ws IsSignedIn | None => ret false end in
  if reachable then mgr_call (Manager_SendPacket remoteId pbdata sendType) else ret 0).

(** ** Configuration *)

Definition RTCConfiguration_new : RTCConfiguration := mkRtcConfig false false true [].

(** Assigning a C string to a [std::string] reads through the pointer. *)
Definition c_str (s : option string) : M World string := deref s.

(** The loop over [StunRelayServers]; [remaining] is what is left of the count. *)
Fixpoint stun_loop (rest : list StunRelayServer) (remaining : Z) (acc : list IceServer) :
    M World (list IceServer) :=
  if remaining <=? 0 then ret acc else
  match rest with
  | [] => undef OutOfBounds
  | stun_server :: rest' =>
    let! u := c_str (Uri stun_server) in
    let! n := c_str (Username stun_server) in
    let! p := c_str (Password stun_server) in
    stun_loop rest' (remaining - 1) (acc ++ [mkIceServer u n p])
  end.

Definition UpdateConfigWithRelayToken (pRtcConfig : RTCConfiguration) : M World RTCConfiguration :=
  let! i := gets iface in
  ret (pRtcConfig <| servers ::= fmap (λ s, s <| username := mUsernameCert i |> <| password := mPasswordCert i |>) |>).

Definition InitializeConfiguration (config : NetherNetTransportServerConfiguration)
    (outRtcConfig : RTCConfiguration) : M World RTCConfiguration :=
  let out := outRtcConfig <| rtcp_mux_require := true |> <| tcp_disabled := true |> <| servers := [] |> in
  let! list := stun_loop (StunRelayServers config) (StunRelayServerCount config) [] in
  UpdateConfigWithRelayToken (out <| servers := list |>).

Definition SetServerConfiguration (config : NetherNetTransportServerConfiguration) : M World unit :=
  api_lock (with_frame (λ fr,
    let! config_out := InitializeConfiguration config RTCConfiguration_new in
    post_if_thread (TSetConfig fr config_out))).

Definition set_config_task (fr : positive) (config_out : RTCConfiguration) : M World unit :=
  let! c := captured fr config_out in set_iface (λ i, i <| mRtcConfig := c |>).

Definition ice_server_of (uri : option string) : list IceServer :=
  match uri with Some u => [mkIceServer u "" ""] | None => [] end.

Definition SignIntoSignalingService `{Declared} (signalingConfig : SignalingConfiguration) : M World unit :=
  with_frame (λ fr,
    let ice_server_list := ice_server_of (StunServer signalingConfig) ++ ice_server_of (TurnServer signalingConfig) in
    post_if_thread (TSetServers fr ice_server_list) ;;
    let! i := gets iface in
    match mpWebRTCSignalingInterface i with
    | Some _ => on_ws (Signaling_SignIn signalingConfig)
    | None => ret tt
    end).

Definition set_servers (l : list IceServer) : M World unit :=
  set_iface (λ i, i <| mRtcConfig ::= (λ c, c <| servers := l |>) |>).
Definition set_servers_task (fr : positive) (ice_server_list : list IceServer) : M World unit :=
  let! i := gets iface in
  (match servers (mRtcConfig i) with [] => ret tt | _ => set_servers [] end) ;;
  let! l := captured fr ice_server_list in set_servers l.

(** The constructor of the manager is not in the project: its result is an argument. *)
Definition Interface_Initialize (new_manager : NetworkSessionManager) : M World unit :=
  modify (λ w, w <| manager := new_manager |>) ;;
  set_iface (λ i, i <| iface_mgr := true |>) ;;
  let! _ := on_signal LoadRtcThread in ret tt.

(** [try_lock] on the mutex of the interface. *)
Definition PeriodicUpdateOnSignalThread `{Declared} : M World unit :=
  let! i := gets iface in
  (match mpWebRTCSignalingInterface i with Some _ => on_ws Signaling_Update | None => ret tt end) ;;
  let! i := gets iface in
  if mApiLevelMutex i then ret tt else
  set_iface (λ i, i <| mApiLevelMutex := true |>) ;;
  mgr_call PeriodicDeadSessionCleaup ;;
  set_iface (λ i, i <| mApiLevelMutex := false |>).

Definition Interface_ReadPacket `{Declared} (id cbDest : Z) : M World (bool * list Z * Z) :=
  api_lock (mgr_call (Manager_ReadPacket id cbDest)).

(** ** TURN credentials *)

Section Turn.
Context `{Env}.

Definition json {A} (o : option A) : M World A :=
  match o with Some a => ret a | None => throw JsonLogic end.
Definition json_string_member (j : Json) (key : string) : M World string :=
  let! v := json (json_member j key) in json (json_asString v).

(** [s.find(sub) != npos] *)
Definition contains (sub s : string) : bool :=
  match String.index 0 sub s with Some _ => true | None => false end.

Fixpoint url_loop (urls : list Json) (server : TurnAuthServer) : M World TurnAuthServer :=
  match urls with
  | [] => ret server
  | current_url :: rest =>
    let! url_str := json (json_asString current_url) in
    let server := if contains "turn" url_str then server <| turnUri := url_str |> else server in
    let server := if contains "stun" url_str then server <| stunUri := url_str |> else server in
    url_loop rest server
  end.

Fixpoint service_loop (services : list Json) (turn_auth_server_list : list TurnAuthServer) :
    M World (list TurnAuthServer) :=
  match services with
  | [] => ret turn_auth_server_list
  | service_data :: rest =>
    let! user := json_string_member service_data "Username" in
    let! pass := json_string_member service_data "Password" in
    let! urls := json (json_member service_data "Urls") in
    let! server := url_loop (json_elements urls) (mkTurnAuth user pass "" "") in
    service_loop rest (turn_auth_server_list ++ [server])
  end.

(** The C string of a [std::string] ends at its first NUL. *)
Fixpoint until_nul (s : string) : string :=
  match s with
  | EmptyString => EmptyString
  | String c rest => if Ascii.eqb c Ascii.zero then EmptyString else String c (until_nul rest)
  end.

(** The closure: the servers are cleared, and filled only if they are not empty. *)
Definition turn_config_task (owner : positive) (config : string) : M World unit :=
  let! c := captured owner config in
  match json_parse (until_nul c) with
  | None => ret tt
  | Some confVal =>
    let! i := gets iface in
    (match mpWebRTCSignalingInterface i with
     | Some _ => let! v := json (json_member confVal "ExpirationInSeconds") in
                 let! _ := json (json_asInt v) in ret tt
     | None => ret tt
     end) ;;
    let! turnAuthServers := json (json_member confVal "TurnAuthServers") in
    let! list := if negb (json_isNull turnAuthServers) && json_isArray turnAuthServers
                 then service_loop (json_elements turnAuthServers) [] else ret [] in
    let! user := json_string_member confVal "Username" in
    let! pass := json_string_member confVal "Password" in
    let list := list ++ [mkTurnAuth user pass "" ""] in
    set_servers [] ;;
    let! i := gets iface in
    match servers (mRtcConfig i) with
    | [] => ret tt
    | _ => for_each (λ t, set_iface (λ i, i <| mRtcConfig ::= (λ c, c <| servers ::= (λ l, l ++
             [mkIceServer (stunUri t) (userName t) (auth_password t)]) |>) |>)) list
    end
  end.

(** [config] is a reference to a string of the activation [owner]. *)
Definition ProcessTurnConfig (owner : positive) (config : string) : M World unit :=
  post_if_thread (TTurnConfig owner config).

(** ** Received signals *)

(** The body is empty. *)
Definition TryParseSignalingMessage (message : string) : M World (option SignalingMessage) := undef NoReturn.

(** The envelope of a web socket message: [None] when an error was reported.  The
    chain of decrements tests the code for 1, 2, 3 and 4. *)
Definition signal_envelope (remoteId : Z) (message : string) : M World (option string) :=
  match json_parse message with
  | None => ProcessSessionError remoteId ESessionErrorSignalingParsingFailure ;; ret None
  | Some json_message =>
    let! msgCode := json (json_member json_message "Code") in
    let! message_code := json (json_asInt msgCode) in
    if message_code =? 0 then ProcessSessionError remoteId ESessionErrorSignalingUnknownError ;; ret None else
    if message_code - 1 =? 0 then ProcessSessionError remoteId ESessionErrorDestinationNotLoggedIn ;; ret None else
    let message_code_sub2 := message_code - 2 in
    let! message_data := if message_code_sub2 =? 0 then json_string_member json_message "Message" else ret ""%string in
    let message_code_sub2 := message_code_sub2 - 1 in
    if message_code_sub2 =? 0 then ProcessSessionError remoteId ESessionErrorSignalingTurnAuthFailed ;; ret None else
    if message_code_sub2 =? 1
    then ProcessSessionError remoteId ESessionErrorSignalingFallbackToBestEffortDelivery ;; ret None
    else ret (Some message_data)
  end.

Definition ReceiveFromSignalingChannel `{Declared} (owner : positive) (remoteId : Z) (message : string)
    (a3 : bool) (channelId : SignalingChannelId) : M World unit :=
  let! message_data := if a3 then signal_envelope remoteId message else ret (Some ""%string) in
  match message_data with
  | None => ret tt
  | Some data =>
    let! result := TryParseSignalingMessage data in
    match result with
    | Some var => mgr_call (Manager_ProcessSignal remoteId var channelId)
    | None => if contains "Username" message then ProcessTurnConfig owner message else ret tt
    end
  end.

Definition ReceiveFromLanSignalingChannel `{Declared} (owner : positive) (remoteId : Z) (data : string) :
    M World unit := ReceiveFromSignalingChannel owner remoteId data false ChannelLan.

(** ** Discovery packets *)

(** Assigning from a [const char] pointer reads up to a NUL. *)
Fixpoint c_string (mem : list Z) : M World string :=
  match mem with
  | [] => undef OutOfBounds
  | b :: rest => if b =? 0 then ret ""%string
                 else let! s := c_string rest in ret (String (Ascii.ascii_of_N (Z.to_N b)) s)
  end.

Definition HandleDiscoveryMessage `{Declared} (packet : DiscoveryMessagePacket) : M World unit :=
  let! i := gets iface in
  if RecipientId packet =? mReceiverId i then with_frame (λ fr,
    let! packet_data := c_string (mMessageData packet) in
    ReceiveFromLanSignalingChannel fr (SenderId (msg_base packet)) packet_data)
  else ret tt.

Definition HandleDiscoveryResponse (packet : DiscoveryResponsePacket) : M World unit :=
  let! i := gets iface in
  if mCallBack i && negb (SenderId (resp_base packet) =? mReceiverId i)
  then emit (EvBroadcastResponse (SenderId (resp_base packet)) (ApplicationData packet) (PacketLength (resp_base packet)))
  else ret tt.

(** The application writes into a zeroed buffer of 1152 bytes and may change the size. *)
Definition HandleDiscoveryRequest (addr : SocketAddress) (packet : DiscoveryRequestPacket) : M World unit :=
  let! i := gets iface in
  if mCallBack i && negb (SenderId (req_base packet) =? mReceiverId i) then
    let! answer := env_call OnBroadcastDiscoveryRequest in
    match answer with
    | None => ret tt
    | Some (written, outMessageSize) =>
      let outData := vec_resize 1152 written in
      let size := wrap 64 outMessageSize in
      if 1152 <? size then undef OutOfBounds else
      let response_data := take (Z.to_nat size) outData in
      let! disc_resp_pkt := DiscoveryResponsePacket_new (replicate 1148 0) (mReceiverId i) response_data in
      let! _ := getLanThread in
      SendLanBroadcastResponse addr disc_resp_pkt
    end
  else ret tt.

(** ** The signal thread runs a closure *)

Definition run_task (t : task) : M World unit :=
  match t with
  | TSendPacket this fr ty buf => send_packet_task this fr ty buf
  | TSessionResponse this => session_response_task this
  | TClosePeer this => close_peer_task this
  | TInitOutgoing this fr remoteID => init_outgoing_task this fr remoteID
  | TResetRecord id => reset_record id
  | TTurnConfig owner config => turn_config_task owner config
  | TSetConfig fr config_out => set_config_task fr config_out
  | TSetServers fr l => set_servers_task fr l
  | TStats | TCleanup | TDiscovery => ret tt     (* empty bodies *)
  end.
End Turn.

(** ** Sending: theorems *)

(** The largest packet accepted for each kind of channel. *)
Definition packet_limit (ty : ESendType) : Z :=
  match ty with eSendTypeUnreliable => 1196 | eSendTypeReliable => 15360 end.
Definition oversized (ty : ESendType) (data : list Z) : bool := packet_limit ty <? Z.of_nat (length data).

Lemma api_lock_wp {A} (body : M World A) (Q : A → World → Prop) w :
  mApiLevelMutex (iface w) = false →
  wp body (λ a w', Q a (w' <| iface ::= (λ i, i <| mApiLevelMutex := false |>) |>))
    (w <| iface ::= (λ i, i <| mApiLevelMutex := true |>) |>) →
  wp (api_lock body) Q w.
Proof. intros Hl. unfold wp, api_lock, with_mutex. rewrite Hl. by destruct (body _). Qed.

(** Unlocking a state that was just locked gives it back. *)
Lemma api_unlock w :
  mApiLevelMutex (iface w) = false →
  w <| iface ::= (λ i, i <| mApiLevelMutex := true |>) |> <| iface ::= (λ i, i <| mApiLevelMutex := false |>) |> = w.
Proof. intros Hl. unfold set_field; cbn. destruct w as [? ? ? []]; cbn in *. by subst. Qed.

Lemma oversized_tests (ty : ESendType) (data : list Z) (w : World) (k : M World Z) :
  (if (1197 <=? Z.of_nat (length data)) && send_type_eqb ty eSendTypeUnreliable then ret 0 else
   if (15361 <=? Z.of_nat (length data)) && send_type_eqb ty eSendTypeReliable then ret 0 else k) w
  = (if oversized ty data then ret 0 else k) w.
Proof.
  unfold oversized. destruct ty; cbn [packet_limit];
    [change (send_type_eqb eSendTypeUnreliable eSendTypeUnreliable) with true;
     change (send_type_eqb eSendTypeUnreliable eSendTypeReliable) with false
    |change (send_type_eqb eSendTypeReliable eSendTypeUnreliable) with false;
     change (send_type_eqb eSendTypeReliable eSendTypeReliable) with true];
    rewrite ?andb_true_r, ?andb_false_r;
    repeat case_match; try done; rewrite ?Z.leb_le, ?Z.leb_gt, ?Z.ltb_lt, ?Z.ltb_ge in *; lia.
Qed.

(** The lookups of a world whose interface can reach its manager and the LAN thread. *)
Record interface_ready (m : gmap Z SocketAddress) (w : World) : Prop := mkInterfaceReady {
  ir_mgr : iface_mgr (iface w) = true;
  ir_api : mApiLevelMutex (iface w) = false;
  ir_session : mSessionCreationMutex (manager w) = false;
  ir_lan : lan_knows w m
}.

Lemma HasKnownConnection_recorded id this w :
  mSessionCreationMutex (manager w) = false → recorded (manager w) id = Some this →
  HasKnownConnection id w = Ret true w.
Proof.
  intros Hl Hr. unfold recorded in Hr. destruct (mSessionList (manager w) !! id) as [r|] eqn:Er; [|done].
  cbn in Hr. unfold HasKnownConnection, session_lock, with_mutex. rewrite Hl. cbn.
  rewrite (record_at_eq id r) by done. rewrite Hr. unfold set_field; cbn.
  destruct w as [? ? [] ?]; cbn in *. by subst.
Qed.
Arguments HasKnownConnection : simpl never.
Arguments Manager_SendPacket : simpl never.
Arguments IsNetworkIdOnLan : simpl never.

(** C1: [SendPacket] of the interface to a peer with a recorded session, on every
    branch.  A packet above the limit of its kind (1196 bytes unreliable, 15360 reliable)
    is refused with 0 and nothing changes; a packet to the own id is dropped with
    result 1; otherwise the live session is handed the packet (one closure on the signal
    thread's queue, result 1), and a dead session is reported closed with its cause and
    the result is 0.  Both mutexes are free again. *)
Theorem SendPacket_routes (id : Z) (this : positive) (s : NetworkSession) (w : World) (m : gmap Z SocketAddress)
    (data : list Z) (ty : ESendType) :
  session_ready id this s w → interface_ready m w →
  wp (Interface_SendPacket id data ty) (λ r w',
    mApiLevelMutex (iface w') = false ∧ mSessionCreationMutex (manager w') = false ∧
    if oversized ty data then r = 0 ∧ w' = w
    else if mReceiverId (iface w) =? id then r = 1 ∧ w' = w
    else match death_cause s (clock w) (mNegotiationTimeout (iface w)) with
    | None => r = 1 ∧ events w' = events w
        ∧ (match mThread (g_SignalThread w) with
           | Some _ => ∃ fr, tasks w' = tasks w ++ [TSendPacket this fr ty data]
           | None => tasks w' = tasks w end)
    | Some err => r = 0 ∧ events w' = events w ++ [EvSessionClose (mRemoteID s) err]
    end) w.
Proof.
  intros Hr [Hm Ha Hs Hl]. pose proof (api_unlock w Ha) as Hu.
  destruct (lan_knows_inv w m Hl) as (l & t & El & _ & _).
  apply api_lock_wp; [done|]. unfold wp. rewrite oversized_tests.
  destruct (oversized ty data); [by cbn; rewrite Hu|].
  unfold mgr_call, getLanThread, RemoteMessageReceived. cbn. rewrite El. cbn.
  destruct (mReceiverId (iface w) =? id); cbn; [by rewrite Hm; cbn; rewrite Hu|]. rewrite Hm. cbn.
  rewrite (HasKnownConnection_recorded id this) by (done || apply Hr). cbn. rewrite Hm. cbn.
  assert (session_ready id this s (w <| iface ::= (λ i, i <| mApiLevelMutex := true |>) |>)) as Hr' by by destruct Hr.
  pose proof (Manager_SendPacket_ready id this s _ data ty Hr' Hs) as Hw. unfold wp in Hw.
  destruct (Manager_SendPacket id data ty _) as [r w'|e w'| |f w']; try done. cbn in Hw |- *.
  destruct Hw as [Hw1 Hw2]. split; [done|]. split; [done|]. by destruct (death_cause s _ _) as [err|]; destruct_and?.
Qed.

Lemma sample_interface_ready : interface_ready ∅ sample_world.
Proof. by split. Qed.

Lemma SendPacket_routes_witness :
  wp (Interface_SendPacket 2 [1; 2] eSendTypeReliable) (λ r w',
    mApiLevelMutex (iface w') = false ∧ mSessionCreationMutex (manager w') = false ∧ r = 1 ∧ events w' = []
    ∧ ∃ fr, tasks w' = [TSendPacket 1 fr eSendTypeReliable [1; 2]]) sample_world.
Proof.
  exact (SendPacket_routes 2 1 sample_session sample_world ∅ [1; 2] eSendTypeReliable sample_ready
           sample_interface_ready).
Defined.

(** A lookup of a peer without a session changes at most the record table, where the
    peer then has a record with a null session. *)
Definition only_null_record (id : Z) (w w' : World) : Prop :=
  (∃ r, mSessionList (manager w') !! id = Some r ∧ mOwnSession r = None)
  ∧ mSessionCreationMutex (manager w') = false
  ∧ w' = w <| manager := manager w' |>
  ∧ mPacketData (manager w') = mPacketData (manager w)
  ∧ (∀ k, k ≠ id → mSessionList (manager w') !! k = mSessionList (manager w) !! k).

Lemma HasKnownConnection_null id w :
  mSessionCreationMutex (manager w) = false → recorded (manager w) id = None →
  wp (HasKnownConnection id) (λ b w', b = false ∧ only_null_record id w w') w.
Proof.
  intros Hl Hr. apply session_lock_wp; [done|]. unfold wp, record_at, only_null_record, recorded in *. cbn.
  destruct (mSessionList (manager w) !! id) as [r|] eqn:Er; cbn in Hr |- *.
  - rewrite Hr. cbn. split_and!; try done. by eexists.
  - split_and!; try done; [eexists; by rewrite lookup_insert_eq|]. intros k Hk. by rewrite lookup_insert_ne.
Qed.

Lemma Manager_SendPacket_null id data ty w r :
  mSessionList (manager w) !! id = Some r → mOwnSession r = None → mSessionCreationMutex (manager w) = false →
  Manager_SendPacket id data ty w = Ret 0 w.
Proof.
  intros Er Hr Hl. unfold Manager_SendPacket, session_lock, with_mutex, GetCurrentSession, FilterDeadSession.
  rewrite Hl. cbn. rewrite (record_at_eq id r) by done. cbn. rewrite Er. cbn. rewrite Hr. cbn.
  rewrite (record_at_eq id r) by done. cbn. rewrite Hr. unfold set_field; cbn.
  destruct w as [? ? [] ?]; cbn in *. by subst.
Qed.

Lemma IsSignedIn_eq ws w :
  mpWebRTCSignalingInterface (iface w) = Some ws →
  on_ws IsSignedIn w = Ret (match mWebSocketHandle ws with Some _ => true | None => false end) w.
Proof.
  intros E. unfold on_ws. cbn. rewrite E. cbn. unfold set_field; cbn. destruct w as [? ? ? []]; cbn in *. by subst.
Qed.
Arguments on_ws : simpl never.

(** a packet to another peer that has no session is always refused: the
    result is 0, whether the peer is on the LAN, the signaling service is signed in, or
    neither.  No session is opened, nothing is queued or reported; only a record
    with a null session may appear for the peer, and the other records and the packet
    data stay. *)
Theorem SendPacket_without_session (id : Z) (w : World) (m : gmap Z SocketAddress) (data : list Z) (ty : ESendType) :
  interface_ready m w → recorded (manager w) id = None → mReceiverId (iface w) ≠ id →
  wp (Interface_SendPacket id data ty) (λ r w', r = 0
    ∧ recorded (manager w') id = None ∧ w' = w <| manager := manager w' |>
    ∧ mPacketData (manager w') = mPacketData (manager w)
    ∧ (∀ k, k ≠ id → mSessionList (manager w') !! k = mSessionList (manager w) !! k)) w.
Proof.
  intros [Hm Ha Hs Hl] Hr Hid. pose proof (api_unlock w Ha) as Hu. unfold recorded in *.
  destruct (lan_knows_inv w m Hl) as (l & t & El & _ & _). apply api_lock_wp; [done|]. unfold wp. rewrite oversized_tests.
  destruct (oversized ty data); [by cbn; rewrite Hu; destruct w|].
  unfold mgr_call, getLanThread. cbn. rewrite El. cbn. rewrite (proj2 (Z.eqb_neq _ _) Hid). cbn. rewrite Hm. cbn.
  set (w1 := w <| iface ::= _ |>).
  pose proof (HasKnownConnection_null id w1 Hs Hr) as Hk. unfold wp in Hk.
  destruct (HasKnownConnection id w1) as [b w2|e w2| |f w2]; try done.
  destruct Hk as [-> ((r & Er & Hnull) & Hmx & Hw2 & Hp & Hothers)].
  assert (iface w2 = iface w1) as Hi by (by rewrite Hw2).
  assert (lan_knows w2 m) as Hl2 by (unfold lan_knows; by rewrite Hw2).
  assert (∀ b : bool, match (if b then mgr_call (Manager_SendPacket id data ty) else ret 0) w2 with
    | Ret x y => x = 0 ∧ y = w2 | _ => False end) as Hfin.
  { intros []; [|done]. unfold mgr_call; cbn. rewrite Hi. cbn. rewrite Hm. cbn.
    by rewrite (Manager_SendPacket_null id data ty w2 r). }
  assert (∀ w', w' = w2 → w' <| iface ::= (λ i, i <| mApiLevelMutex := false |>) |>
     = w <| manager := manager w2 |>) as Hback.
  { intros w' ->. rewrite Hw2. unfold w1. unfold set_field; cbn. destruct w as [? ? ? []]; cbn in *. by subst. }
  rewrite (IsNetworkIdOnLan_spec id w2 m Hl2). cbn.
  match goal with |- context [match ?X w2 with Ret _ _ => _ | _ => _ end] =>
    assert (∃ b, X w2 = Ret b w2) as [b ->] end.
  { destruct (bool_decide _); [by eexists|]. destruct (mpWebRTCSignalingInterface (iface w)) as [ws|] eqn:Ew;
      [|by eexists]. eexists. apply (IsSignedIn_eq ws). by rewrite Hi. }
  specialize (Hfin b). unfold mgr_call in Hfin. case_match; try done.
  destruct Hfin as [-> ->]. cbn. rewrite Er. cbn. split_and!; auto.
Qed.

Lemma SendPacket_without_session_witness :
  wp (Interface_SendPacket 9 [1; 2] eSendTypeReliable) (λ r w', r = 0
    ∧ recorded (manager w') 9 = None ∧ w' = sample_world <| manager := manager w' |>
    ∧ mPacketData (manager w') = mPacketData (manager sample_world)
    ∧ (∀ k, k ≠ 9 → mSessionList (manager w') !! k = mSessionList (manager sample_world) !! k)) sample_world.
Proof.
  apply (SendPacket_without_session 9 sample_world ∅ [1; 2] eSendTypeReliable sample_interface_ready);
    [reflexivity | discriminate].
Defined.

(** ** Received signals: theorems *)

Arguments ProcessSessionError : simpl never.





Definition idle_declared : Declared := {|
  Manager_ProcessSignal := λ _ _ _, ret tt; PeriodicDeadSessionCleaup := ret tt;
  Manager_ReadPacket := λ _ _, ret (false, [], 0); Signaling_SignIn := λ _, ret tt; Signaling_Update := ret tt
|}.


(** ** Discovery packets: theorems *)

Lemma c_string_terminated pre rest w :
  0 ∉ pre → ∃ s, c_string (pre ++ 0 :: rest) w = Ret s w.
Proof.
  induction pre as [|b pre IH]; intros Hn; cbn; [by eexists|]. rewrite (proj2 (Z.eqb_neq b 0)) by set_solver.
  destruct IH as [s E]; [set_solver|]. cbn. rewrite E. by eexists.
Qed.

Lemma c_string_unterminated mem w : 0 ∉ mem → c_string mem w = Undef OutOfBounds w.
Proof.
  induction mem as [|b mem IH]; intros Hn; cbn; [done|]. rewrite (proj2 (Z.eqb_neq b 0)) by set_solver.
  cbn. by rewrite IH by set_solver.
Qed.

(** No message of a LAN peer can be handled.  A message for another recipient
    is ignored; one for this host either fills its array without a NUL byte and is read
    past its end, or reaches [TryParseSignalingMessage], which has no body.  The session
    manager, the sessions, the queues and the application are not touched in any case. *)
Theorem discovery_message_outcome `{Env} `{Declared} (packet : DiscoveryMessagePacket) (w : World) :
  ∃ w', HandleDiscoveryMessage packet w
    = (if negb (RecipientId packet =? mReceiverId (iface w)) then Ret tt w' else
       if bool_decide (0 ∈ mMessageData packet) then Undef NoReturn w' else Undef OutOfBounds w')
  ∧ manager w' = manager w ∧ sessions w' = sessions w ∧ tasks w' = tasks w ∧ events w' = events w.
Proof.
  unfold HandleDiscoveryMessage. cbn. destruct (RecipientId packet =? mReceiverId (iface w)); cbn; [|by exists w].
  unfold with_frame. cbn. destruct (bool_decide_reflect (0 ∈ mMessageData packet)) as [Hin|Hout].
  - apply list_elem_of_split_l in Hin as (pre & rest & -> & Hpre).
    edestruct (c_string_terminated pre rest) as [s ->]; [done|].
    unfold ReceiveFromLanSignalingChannel, ReceiveFromSignalingChannel. cbn. eexists. by split_and!.
  - rewrite c_string_unterminated by done. eexists. by split_and!.
Qed.

(** ** Configuration: theorems *)

Definition complete (s : StunRelayServer) : Prop := is_Some (Uri s) ∧ is_Some (Username s) ∧ is_Some (Password s).
Definition as_ice (s : StunRelayServer) : IceServer :=
  mkIceServer (default "" (Uri s))%string (default "" (Username s))%string (default "" (Password s))%string.

Lemma stun_loop_spec rest n acc w :
  0 ≤ n → Forall complete (take (Z.to_nat n) rest) →
  stun_loop rest n acc w
  = if n <=? Z.of_nat (length rest) then Ret (acc ++ (as_ice <$> take (Z.to_nat n) rest)) w else Undef OutOfBounds w.
Proof.
  revert n acc. induction rest as [|st rest IH]; intros n acc Hn Hc; cbn -[Z.of_nat].
  - change (Z.of_nat 0) with 0. destruct (n <=? 0); [|done]. cbn. by rewrite take_nil, app_nil_r.
  - destruct (Z.leb_spec n 0) as [H0|H0].
    { rewrite (proj2 (Z.leb_le _ _)) by lia. replace n with 0 by lia. by rewrite app_nil_r. }
    replace (Z.to_nat n) with (S (Z.to_nat (n - 1))) in * by lia. cbn [take] in Hc |- *.
    apply list.Forall_cons in Hc as [((u & Eu) & (nm & En) & (pw & Ep)) Hc].
    rewrite Eu, En, Ep. cbn -[Z.of_nat]. rewrite IH by (lia || done).
    replace (n - 1 <=? Z.of_nat (length rest)) with (n <=? Z.of_nat (S (length rest)))
      by (apply eq_iff_eq_true; rewrite !Z.leb_le; lia).
    case_match; [|done]. unfold as_ice at 2. by rewrite Eu, En, Ep, <- app_assoc.
Qed.

(** C36: the configuration built from the application's server list.  With at most
    16 servers it has exactly their URIs, in order, all with the relay credentials of
    the interface (the credentials given with the servers are discarded), requires
    RTCP multiplexing and disables TCP candidates; with a larger count the loop reads
    past the array of 16. *)
Theorem InitializeConfiguration_result (config : NetherNetTransportServerConfiguration) (out : RTCConfiguration)
    (w : World) :
  let n := StunRelayServerCount config in
  0 ≤ n → length (StunRelayServers config) = 16%nat →
  Forall complete (take (Z.to_nat n) (StunRelayServers config)) →
  InitializeConfiguration config out w
  = if n <=? 16 then
      Ret (mkRtcConfig (type_relay out) true true
             ((λ s, mkIceServer (default "" (Uri s))%string (mUsernameCert (iface w)) (mPasswordCert (iface w)))
                <$> take (Z.to_nat n) (StunRelayServers config))) w
    else Undef OutOfBounds w.
Proof.
  intros n Hn Hlen Hc. unfold InitializeConfiguration, UpdateConfigWithRelayToken. cbn -[stun_loop].
  rewrite stun_loop_spec by done. rewrite Hlen. change (Z.of_nat 16) with 16. fold n. destruct (n <=? 16); [|done].
  cbn. unfold set_field; cbn. by rewrite <- list_fmap_compose.
Qed.

Definition sample_stun : StunRelayServer := mkStun (Some "stun:a") (Some "u") (Some "p").
Definition sample_config : NetherNetTransportServerConfiguration :=
  mkServerConfig (sample_stun :: replicate 15 (mkStun None None None)) 1 0 "".

Lemma sample_config_complete :
  Forall complete (take (Z.to_nat (StunRelayServerCount sample_config)) (StunRelayServers sample_config)).
Proof. by repeat constructor. Qed.

Lemma InitializeConfiguration_result_witness :
  InitializeConfiguration sample_config RTCConfiguration_new sample_world
  = Ret (mkRtcConfig false true true [mkIceServer "stun:a" "" ""]) sample_world.
Proof.
  exact (InitializeConfiguration_result sample_config RTCConfiguration_new sample_world ltac:(discriminate) eq_refl
           sample_config_complete).
Defined.

(** configurations are never applied while they exist.  [SetServerConfiguration]
    and [SignIntoSignalingService] leave the interface's configuration as it is and queue
    a closure that captures their local result by reference; when the signal thread runs
    it, after the call returned, it reads a destroyed object. *)
Theorem configuration_closures_dangle `{Env} `{Declared} (config : NetherNetTransportServerConfiguration)
    (sc : SignalingConfiguration) (w : World) (th : positive) :
  mApiLevelMutex (iface w) = false → mpWebRTCSignalingInterface (iface w) = None →
  mThread (g_SignalThread w) = Some th → th ∈ threads (g_SignalThread w) →
  0 ≤ StunRelayServerCount config ≤ 16 → length (StunRelayServers config) = 16%nat →
  Forall complete (take (Z.to_nat (StunRelayServerCount config)) (StunRelayServers config)) →
  let dangles w' := mRtcConfig (iface w') = mRtcConfig (iface w)
    ∧ ∃ t w'', tasks w' = tasks w ++ [t] ∧ run_task t w' = Undef DanglingRef w'' in
  wp (SetServerConfiguration config) (λ _, dangles) w ∧ wp (SignIntoSignalingService sc) (λ _, dangles) w.
Proof.
  intros Ha Hws Hth Hin Hn Hlen Hc dangles. split.
  - apply api_lock_wp; [done|]. unfold wp, with_frame, InitializeConfiguration, UpdateConfigWithRelayToken.
    cbn -[stun_loop]. rewrite stun_loop_spec by (lia || done). rewrite (proj2 (Z.leb_le _ _)) by lia. cbn.
    rewrite (post_if_thread_eq _ th) by done. cbn. split; [done|]. do 2 eexists. split; [done|]. cbn.
    unfold set_config_task. cbn. by rewrite captured_dead by (cbn; set_solver).
  - unfold wp, SignIntoSignalingService, with_frame. cbn. rewrite (post_if_thread_eq _ th) by done. cbn.
    rewrite Hws. cbn. split; [done|]. destruct (servers (mRtcConfig (iface w))) eqn:Es; (eexists _, _; split; [done|]);
    cbn; unfold set_servers_task; cbn; rewrite Es; cbn; by rewrite captured_dead by (cbn; set_solver).
Qed.

Lemma configuration_closures_dangle_witness :
  let dangles w' := mRtcConfig (iface w') = mRtcConfig (iface sample_world)
    ∧ ∃ t w'', tasks w' = tasks sample_world ++ [t] ∧ @run_task sample_env t w' = Undef DanglingRef w'' in
  wp (SetServerConfiguration sample_config) (λ _, dangles) sample_world
  ∧ wp (@SignIntoSignalingService idle_declared (mkSignalingConfig None None (Some "stun:a") None)%string) (λ _, dangles) sample_world.
Proof.
  apply (@configuration_closures_dangle sample_env idle_declared sample_config
           (mkSignalingConfig None None (Some "stun:a") None)%string sample_world 1);
    [reflexivity | reflexivity | reflexivity | exact sample_thread_live | split; discriminate | reflexivity
    | exact sample_config_complete].
Defined.

(** ** TURN credentials: theorem *)

(** A computation on JSON values that reads the state and throws, but never writes it. *)
Definition pure_json {A} (m : M World A) : Prop :=
  ∀ w, match m w with Ret _ w' => w' = w | Throw e w' => e = JsonLogic ∧ w' = w | _ => False end.

Section PureJson.
Context `{Env}.

Lemma pure_json_ret {A} (a : A) : pure_json (ret a).
Proof. by intros w. Qed.
Lemma pure_json_json {A} (o : option A) : pure_json (json o).
Proof. intros w. by destruct o. Qed.
Lemma pure_json_gets {A} (f : World → A) : pure_json (gets f).
Proof. by intros w. Qed.
Lemma pure_json_bind {A B} (m : M World A) (k : A → M World B) :
  pure_json m → (∀ a, pure_json (k a)) → pure_json (bind m k).
Proof. intros Hm Hk w. specialize (Hm w). cbn. destruct (m w); try done. subst. apply Hk. Qed.
Hint Resolve pure_json_ret pure_json_json pure_json_gets : cpp.
Ltac pure_json := repeat first [progress intros | solve [auto with cpp] | simple apply pure_json_bind].

Lemma pure_json_member j key : pure_json (json_string_member j key).
Proof. unfold json_string_member. pure_json. Qed.
Hint Resolve pure_json_member : cpp.
Lemma pure_json_urls urls server : pure_json (url_loop urls server).
Proof. revert server. induction urls; intros server; cbn; pure_json. Qed.
Hint Resolve pure_json_urls : cpp.
Lemma pure_json_services services acc : pure_json (service_loop services acc).
Proof. revert acc. induction services; intros acc; cbn; pure_json. Qed.
Hint Resolve pure_json_services : cpp.

(** Pure computations, then one that returns in [w1]. *)
Definition ends (w w1 : World) (m : M World unit) : Prop :=
  match m w with Ret _ w' => w' = w1 | Throw e w' => e = JsonLogic ∧ w' = w | _ => False end.
Lemma ends_bind {A} (w w1 : World) (m : M World A) k :
  pure_json m → (∀ a, ends w w1 (k a)) → ends w w1 (bind m k).
Proof. intros Hm Hk. specialize (Hm w). unfold ends. cbn. destruct (m w); try done. subst. apply Hk. Qed.

Lemma turn_config_spec (owner : positive) (config : string) (w : World) :
  match turn_config_task owner config w with
  | Ret _ w' => if bool_decide (json_parse (until_nul config) = None) then w' = w
                else w' = w <| iface ::= (λ i, i <| mRtcConfig ::= (λ c, c <| servers := [] |>) |>) |>
  | Throw e w' => e = JsonLogic ∧ w' = w
  | Undef f w' => f = DanglingRef ∧ w' = w ∧ owner ∉ frames w
  | Terminate => False
  end.
Proof.
  unfold turn_config_task. cbn. destruct (decide (owner ∈ frames w)) as [Hin|Hout].
  2:{ by rewrite captured_dead. }
  rewrite captured_live by done. destruct (json_parse (until_nul config)) as [confVal|]; [|done].
  rewrite bool_decide_eq_false_2 by done.
  match goal with |- match ?m w with Ret _ w' => w' = ?w1 | _ => _ end =>
    assert (ends w w1 m) as Hm; [|unfold ends in Hm; by destruct (m w)] end.
  apply ends_bind; [pure_json | intros i]. apply ends_bind; [destruct (mpWebRTCSignalingInterface i); pure_json|].
  intros _. apply ends_bind; [pure_json|]. intros tas. apply ends_bind; [destruct (_ && _); pure_json|].
  intros l. apply ends_bind; [pure_json|]. intros user. apply ends_bind; [pure_json|]. by intros pass.
Qed.

(** TURN credentials are never used.  Whatever JSON the signaling service sent,
    the closure of [ProcessTurnConfig] either changes nothing (the text does not parse, a
    member has the wrong type, or the string is gone), or returns with the list of
    ICE servers empty, the servers it decoded being dropped. *)
Theorem turn_config_never_fills (owner : positive) (config : string) (w : World) :
  match turn_config_task owner config w with
  | Ret _ w' => if bool_decide (json_parse (until_nul config) = None) then w' = w
                else w' = w <| iface ::= (λ i, i <| mRtcConfig ::= (λ c, c <| servers := [] |>) |>) |>
  | Throw e w' => e = JsonLogic ∧ w' = w
  | Undef f w' => f = DanglingRef ∧ w' = w ∧ owner ∉ frames w
  | Terminate => False
  end.
Proof. apply turn_config_spec. Qed.
End PureJson.

(** ** The transport as a whole *)

(** The ways into the transport: the calls of the application, what arrives from the
    network, the closures of both threads, and the calls between components.  [Initialize],
    which replaces the manager, and the two calls that end in a manager function
    without a definition ([ReadPacket], the periodic update) are not among them. *)
Inductive transport_op :=
| AAccept (id : Z) | AClearData (id : Z) | AState (id : Z) (o : option SessionState) | AAvailable (id size : Z)
| AClose (id : Z) | AOpen (id : Z) | AError (id : Z) (err : ESessionError) | ARequested (id : Z)
| ALanSignaling (on : bool) | ABroadcast (on : bool) | ABroadcastEnabled
| ASignedIn | ADefaultChannel (c : NetherNetTransportServerConfiguration) | ASetSignaling (s : option WebSocket)
| ASignIn (c : SignalingConfiguration) | ASignOut | ASetConfig (c : NetherNetTransportServerConfiguration)
| ASend (id : Z) (data : list Z) (ty : ESendType)
| ASignal (owner : positive) (id : Z) (message : string) (a3 : bool) (ch : SignalingChannelId)
| AMessage (p : DiscoveryMessagePacket) | AResponse (p : DiscoveryResponsePacket)
| ARequest (addr : SocketAddress) (p : DiscoveryRequestPacket)
| ATask (t : task) | AManager (o : manager_op) | ALan (mem : list Z) (o : lan_op).

Definition run_transport_op `{Env} `{Declared} `{HttpClient} (o : transport_op) : M World unit :=
  match o with
  | AAccept id => Interface_AcceptSessionWithUser id
  | AClearData id => Interface_ClearPacketData id
  | AState id o => let! _ := Interface_GetSessionState id o in ret tt
  | AAvailable id size => let! _ := Interface_IsPacketAvailable id size in ret tt
  | AClose id => let! _ := Interface_CloseSessionWithUser id in ret tt
  | AOpen id => let! _ := Interface_OpenSessionWithUser id in ret tt
  | AError id err => ProcessSessionError id err
  | ARequested id => NotifyOnSessionRequested id
  | ALanSignaling on => if on then EnableSignalingOverLAN else DisableSignalingOverLAN
  | ABroadcast on => if on then Interface_EnableBroadcastDiscovery else Interface_DisableBroadcastDiscovery
  | ABroadcastEnabled => let! _ := Interface_IsBroadcastDiscoveryEnabled in ret tt
  | ASignedIn => let! _ := IsSignedIntoSignalingService in ret tt
  | ADefaultChannel c => MakeDefaultSignalingChannel c
  | ASetSignaling s => SetWebRTCSignalingInterface s
  | ASignIn c => SignIntoSignalingService c
  | ASignOut => SignOutFromSignalingService
  | ASetConfig c => SetServerConfiguration c
  | ASend id data ty => let! _ := Interface_SendPacket id data ty in ret tt
  | ASignal owner id message a3 ch => ReceiveFromSignalingChannel owner id message a3 ch
  | AMessage p => HandleDiscoveryMessage p
  | AResponse p => HandleDiscoveryResponse p
  | ARequest addr p => HandleDiscoveryRequest addr p
  | ATask t => run_task t
  | AManager o => run_manager_op o
  | ALan mem o => run_lan_op mem o
  end.

(** A predicate that no operation of the interface can break either. *)
Class InterfaceStable (P : World → Prop) := {
  istable_manager :: ManagerStable P;
  istable_iface w g : P w → P (w <| iface ::= g |>)
}.

#[export] Instance manager_within_istable m0 : InterfaceStable (manager_within m0).
Proof. by split; [apply _|]. Qed.

Section InterfaceStable.
Context `{Env} `{Declared} `{HttpClient}.
Variable Q : World → Prop.
Context `{!InterfaceStable Q}.

Lemma keeps_interface_set g : keeps Q (set_iface g).
Proof. apply keeps_modify. intros w. apply istable_iface. Qed.
Lemma keeps_interface_lock {A} (body : M World A) : keeps Q body → keeps Q (api_lock body).
Proof. apply keeps_with_mutex. intros b w. apply istable_iface. Qed.
Lemma keeps_interface_mgr {A} (m : M World A) : keeps Q m → keeps Q (mgr_call m).
Proof. intros Hm. unfold mgr_call. keep. Qed.
Lemma keeps_interface_ws {A} (m : M WebSocket A) : keeps Q (on_ws m).
Proof. unfold on_ws. keep. apply keeps_lift. intros t w'. apply istable_iface. Qed.
Lemma keeps_interface_frame {A} (body : positive → M World A) :
  (∀ fr, keeps Q (body fr)) → keeps Q (with_frame body).
Proof. apply keeps_stable_frame. apply _. Qed.
Lemma keeps_interface_manager o : keeps Q (run_manager_op o).
Proof. apply keeps_manager_op, _. Qed.
Lemma keeps_interface_json {A} (m : M World A) : pure_json m → keeps Q m.
Proof. intros Hm w Hw. specialize (Hm w). unfold always. destruct (m w); naive_solver. Qed.
Lemma keeps_interface_post t : keeps Q (post_if_thread t).
Proof. apply keeps_stable_post, _. Qed.
Lemma keeps_interface_emit e : keeps Q (emit e).
Proof. apply keeps_stable_emit, _. Qed.
Lemma keeps_interface_env {A} (f : nat → A) : keeps Q (env_call f).
Proof. apply keeps_stable_env, _. Qed.
Lemma keeps_interface_session p : keeps Q (run_session_op p).
Proof. apply keeps_stable_op, _. Qed.
Lemma keeps_interface_lan_set g : keeps Q (set_lan g).
Proof. apply keeps_stable_set_lan, _. Qed.
Lemma keeps_interface_lan : keeps Q getLanThread.
Proof. unfold getLanThread. keep. Qed.
Lemma keeps_interface_lan_post t : keeps Q (lan_PostTask t).
Proof. apply keeps_stable_lan_post, _. Qed.
Lemma keeps_interface_peers {A} (m : M PeerRecordTable A) : keeps Q (on_peers m).
Proof. apply keeps_stable_peers, _. Qed.
Lemma keeps_interface_lan_send src dst data c : keeps Q (SendSignalingMessageTo src dst data c).
Proof. apply keeps_stable_lan_send, _. Qed.
Lemma keeps_interface_helper data size addr : keeps Q (SendToHelper data size addr).
Proof. apply keeps_stable_helper, _. Qed.
Hint Resolve keeps_interface_set keeps_interface_lock keeps_interface_mgr keeps_interface_ws keeps_interface_frame
  keeps_interface_manager keeps_interface_post keeps_interface_emit keeps_interface_env keeps_interface_session
  keeps_interface_lan_set keeps_interface_lan keeps_interface_lan_post keeps_interface_peers
  keeps_interface_lan_send keeps_interface_helper : cpp.

(** The LAN thread. *)
Lemma keeps_interface_enable id : keeps Q (EnableBroadcastDiscovery id).
Proof. unfold EnableBroadcastDiscovery. keep. Qed.
Lemma keeps_interface_disable id : keeps Q (DisableBroadcastDiscovery id).
Proof. unfold DisableBroadcastDiscovery. keep. Qed.
Lemma keeps_interface_enabled id : keeps Q (IsBroadcastDiscoveryEnabled id).
Proof. unfold IsBroadcastDiscoveryEnabled. keep. Qed.
Lemma keeps_interface_on_lan id : keeps Q (IsNetworkIdOnLan id).
Proof. unfold IsNetworkIdOnLan. keep. Qed.
Lemma keeps_interface_addresses ips acc : keeps Q (consider_addresses ips acc).
Proof.
  revert acc. induction ips; intros acc; cbn; keep. unfold consider_address, host_bits. keep.
Qed.
Hint Resolve keeps_interface_enable keeps_interface_disable keeps_interface_enabled keeps_interface_on_lan
  keeps_interface_addresses : cpp.
Lemma keeps_interface_discovery nets acc : keeps Q (discovery_loop nets acc).
Proof. revert acc. induction nets; intros acc; cbn; keep. Qed.
Lemma keeps_interface_broadcast mem : keeps Q (BroadcastTask mem).
Proof.
  unfold BroadcastTask, ShouldBeginNetworkDiscovery, BeginNetworkDiscovery, SendLanBroadcastRequest. keep.
Qed.
Hint Resolve keeps_interface_discovery keeps_interface_broadcast : cpp.
Lemma keeps_interface_lan_op mem o : keeps Q (run_lan_op mem o).
Proof.
  destruct o; cbn; unfold OnPacket, TryMakePacketStorage, on_stored_packet, read_at, run_lan_task,
    OnNetworkDiscoveryComplete, DestroyLanResources; keep.
Qed.
Hint Resolve keeps_interface_lan_op : cpp.

(** The calls of the session manager. *)
Lemma keeps_interface_accept id : keeps Q (AcceptSessionWithUser id).
Proof. apply keeps_drop, (keeps_interface_manager (MAccept id)). Qed.
Lemma keeps_interface_close id : keeps Q (CloseSessionWithUser id).
Proof. apply keeps_drop, (keeps_interface_manager (MClose id)). Qed.
Lemma keeps_interface_open id : keeps Q (OpenSessionWithUser id).
Proof. apply keeps_drop, (keeps_interface_manager (MOpen id)). Qed.
Lemma keeps_interface_known id : keeps Q (HasKnownConnection id).
Proof. apply keeps_drop, (keeps_interface_manager (MKnown id)). Qed.
Lemma keeps_interface_state id o : keeps Q (Manager_GetSessionState id o).
Proof. apply keeps_drop, (keeps_interface_manager (MState id o)). Qed.
Lemma keeps_interface_available id size : keeps Q (IsPacketAvailable id size).
Proof. apply keeps_drop, (keeps_interface_manager (MAvailable id size)). Qed.
Lemma keeps_interface_send id data ty : keeps Q (Manager_SendPacket id data ty).
Proof. apply keeps_drop, (keeps_interface_manager (MSend id data ty)). Qed.
Lemma keeps_interface_clear id : keeps Q (ClearPacketData id).
Proof. apply (keeps_interface_manager (MClear id)). Qed.
Lemma keeps_interface_error id err : keeps Q (ProcessSessionError id err).
Proof. apply keeps_interface_mgr, (keeps_interface_manager (MError id err)). Qed.
Hint Resolve keeps_interface_accept keeps_interface_close keeps_interface_open keeps_interface_known
  keeps_interface_state keeps_interface_available keeps_interface_send keeps_interface_clear
  keeps_interface_error : cpp.

Lemma keeps_interface_envelope id message : keeps Q (signal_envelope id message).
Proof. unfold signal_envelope, json_string_member, json. keep. Qed.
Lemma keeps_interface_c_string mem : keeps Q (c_string mem).
Proof. induction mem; cbn; keep. Qed.
Lemma keeps_interface_stun rest n acc : keeps Q (stun_loop rest n acc).
Proof. revert n acc. induction rest; intros n acc; cbn; unfold c_str; keep. Qed.
Hint Resolve keeps_interface_envelope keeps_interface_c_string keeps_interface_stun : cpp.
Lemma keeps_interface_undef {A B} f (k : A → M World B) : keeps Q (bind (undef f) k).
Proof. by intros w. Qed.
Hint Resolve keeps_interface_undef : cpp.
Lemma keeps_interface_signal owner id message a3 ch : keeps Q (ReceiveFromSignalingChannel owner id message a3 ch).
Proof. unfold ReceiveFromSignalingChannel, TryParseSignalingMessage. keep. Qed.
Lemma keeps_interface_turn owner config : keeps Q (turn_config_task owner config).
Proof.
  intros w Hw. pose proof (turn_config_spec owner config w) as Ht. unfold always.
  destruct (turn_config_task owner config w); [| by destruct Ht as [_ ->] | done | by destruct Ht as (_ & -> & _)].
  destruct (bool_decide _); subst; [done|]. by apply istable_iface.
Qed.
Lemma keeps_interface_response array id data : keeps Q (DiscoveryResponsePacket_new array id data).
Proof. unfold DiscoveryResponsePacket_new, memcpy. keep. Qed.
Hint Resolve keeps_interface_signal keeps_interface_turn keeps_interface_response : cpp.

Lemma keeps_interface_task t : keeps Q (run_task t).
Proof.
  destruct t as [this fr ty buf|this| |this|this fr r|id| | | | | ]; cbn;
    [apply (keeps_interface_session (this, OpSendTask fr ty buf)) | apply (keeps_interface_session (this, OpResponseTask))
    | | apply (keeps_interface_session (this, OpCloseTask)) | apply (keeps_interface_session (this, OpOutgoingTask fr r))
    | apply (keeps_interface_manager (MResetTask id)) | ..];
    unfold set_config_task, set_servers_task, set_servers; keep.
Qed.
Hint Resolve keeps_interface_task : cpp.

Lemma keeps_interface_op o : keeps Q (run_transport_op o).
Proof.
  destruct o; cbn; unfold Interface_AcceptSessionWithUser, Interface_ClearPacketData, Interface_GetSessionState,
    Interface_IsPacketAvailable, Interface_CloseSessionWithUser, Interface_OpenSessionWithUser,
    NotifyOnSessionRequested, Interface_CloseSessionWithUser, EnableSignalingOverLAN, DisableSignalingOverLAN,
    Interface_EnableBroadcastDiscovery, Interface_DisableBroadcastDiscovery, Interface_IsBroadcastDiscoveryEnabled,
    IsSignedIntoSignalingService, MakeDefaultSignalingChannel, SetWebRTCSignalingInterface,
    RegisterSignalingChannelCallbacks, SignIntoSignalingService, SignOutFromSignalingService,
    SetServerConfiguration, InitializeConfiguration, UpdateConfigWithRelayToken, Interface_SendPacket,
    HandleDiscoveryMessage, ReceiveFromLanSignalingChannel, HandleDiscoveryResponse, HandleDiscoveryRequest,
    SendLanBroadcastResponse, RemoteMessageReceived;
    repeat first [progress keep | simple apply keeps_interface_lock | simple apply keeps_interface_frame
                 | simple apply keeps_interface_mgr].
Qed.
End InterfaceStable.

(** the transport never establishes a session and never delivers a packet.
    Through any sequence of the operations above (application calls, received packets and
    signals, calls between components, closures of both threads), with any outcome, the manager
    records no session it did not record at the start (the construction of a session is
    commented out) and holds no packet data it did not hold (the receiving function
    is empty). *)
Theorem transport_never_gains `{Env} `{Declared} `{HttpClient} (ops : list transport_op) (w : World) :
  always (λ w', (∀ id d, mPacketData (manager w') !! id = Some d → mPacketData (manager w) !! id = Some d)
      ∧ (∀ id this, recorded (manager w') id = Some this → recorded (manager w) id = Some this))
    (for_each run_transport_op ops) w.
Proof. apply (keeps_for_each (manager_within (manager w))); [intros o; apply keeps_interface_op, _ | by split]. Qed.
