(* ===== verification/SeqNum.v ===== *)
(** * Wrapping sequence numbers

    includes/webrtc/rtc_base/numerics (mod_ops.h, sequence_number_util.h,
    sequence_number_unwrapper.h) and net/dcsctp/common/sequence_numbers.h: the arithmetic
    under the transmission, stream and message numbers of the SCTP association that carries
    a session's data channels.  A number is of an unsigned type of [w] bits; [m] is the
    modulus, 0 for that of the type. *)

From S2P Require Import Prelude.

(** ** Modular operations *)

(** [Add<M>] and [Subtract<M>], in the 32-bit [unsigned long] of the Windows build. *)
Definition Add_mod (m a b : Z) : Z :=
  let t := wrap 32 (m - b mod m) in
  let res := wrap 32 (a - t) in
  if a <? t then wrap 32 (res + m) else res.
Definition Subtract_mod (m a b : Z) : Z :=
  let sub := b mod m in
  if a <? sub then wrap 32 (m - wrap 32 (sub - a)) else wrap 32 (a - sub).

Definition ForwardDiff (w m a b : Z) : Z :=
  if 0 <? m then (if a <=? b then b - a else m - (a - b)) else wrap w (b - a).
Definition ReverseDiff (w m a b : Z) : Z :=
  if 0 <? m then (if b <=? a then a - b else m - (b - a)) else wrap w (a - b).
Definition MinDiff (w m a b : Z) : Z := Z.min (ForwardDiff w m a b) (ReverseDiff w m a b).

(** [a - b] of a type narrower than [int] is an [int] and may be negative. *)
Definition promoted_sub (w a b : Z) : Z := if w <? 32 then a - b else wrap w (a - b).

Definition AheadOrAt (w m a b : Z) : bool :=
  if 0 <? m then
    let maxDist := m / 2 in
    if Z.even m && (MinDiff w m a b =? maxDist) then b <? a else ForwardDiff w m b a <=? maxDist
  else
    let maxDist := (2 ^ w - 1) / 2 + 1 in
    if promoted_sub w a b =? maxDist then b <? a else ForwardDiff w 0 b a <? maxDist.

Definition AheadOf (w m a b : Z) : bool := negb (a =? b) && AheadOrAt w m a b.
Definition AscendingSeqNumComp (w m a b : Z) : bool := AheadOf w m a b.
Definition DescendingSeqNumComp (w m a b : Z) : bool := AheadOf w m b a.

(** ** SeqNumUnwrapper

    [last_unwrapped_] is an [int64_t]; a number moves it by at most half the range of the
    type, so that it is written as an unbounded integer. *)

Record SeqNumUnwrapper := mkUnwrapper { last_unwrapped_ : Z; last_value_ : option Z }.
#[export] Instance SeqNumUnwrapper_eta : Eta SeqNumUnwrapper := λ u, mkUnwrapper (last_unwrapped_ u) (last_value_ u).

Definition SeqNumUnwrapper_new : SeqNumUnwrapper := mkUnwrapper 0 None.

Definition Delta (w m last_value new_value : Z) : Z :=
  let kBackwardAdjustment := if m =? 0 then 2 ^ w else m in
  let result := ForwardDiff w m last_value new_value in
  if negb (AheadOrAt w m new_value last_value) then result - kBackwardAdjustment else result.

Definition Unwrap (w m value : Z) (u : SeqNumUnwrapper) : Z * SeqNumUnwrapper :=
  let last_unwrapped := match last_value_ u with
    | None => value
    | Some last => last_unwrapped_ u + Delta w m last value
    end in
  (last_unwrapped, mkUnwrapper last_unwrapped (Some value)).

Definition PeekUnwrap (w m value : Z) (u : SeqNumUnwrapper) : Z :=
  match last_value_ u with
  | None => value
  | Some last => last_unwrapped_ u + Delta w m last value
  end.

Definition Unwrapper_Reset (u : SeqNumUnwrapper) : SeqNumUnwrapper :=
  u <| last_unwrapped_ := 0 |> <| last_value_ := None |>.

(** A sequence of calls of [Unwrap]. *)
Fixpoint unwrap_all (w : Z) (values : list Z) (u : SeqNumUnwrapper) : list Z * SeqNumUnwrapper :=
  match values with
  | [] => ([], u)
  | v :: values' =>
    let '(x, u1) := Unwrap w 0 v u in
    let '(xs, u2) := unwrap_all w values' u1 in (x :: xs, u2)
  end.

(** ** UnwrappedSequenceNumber

    The remainder of a negative number is negative in C++; the cast to the unsigned type
    then wraps it. *)

Definition Wrap (w value : Z) : Z := wrap w (Z.rem value (2 ^ w)).
Definition next_value (value : Z) : Z := value + 1.
Definition AddTo (value delta : Z) : Z := value + delta.
Definition Difference (w lhs rhs : Z) : Z := wrap w (if rhs <? lhs then lhs - rhs else rhs - lhs).

(** ** Lemmas *)

Lemma Wrap_mod w v : 0 ≤ w → Wrap w v = wrap w v.
Proof.
  intros Hw. unfold Wrap, wrap. assert (2 ^ w ≠ 0) by (pose proof (Z.pow_pos_nonneg 2 w); lia).
  rewrite (Z.quot_rem' v (2 ^ w)) at 2. rewrite Z.add_comm, Z.mul_comm, Z.mod_add by done. done.
Qed.

Section Mod.
Context (w : Z) (Hw : 1 ≤ w).
Abbreviation half := (2 ^ (w - 1)).

Lemma pow_half : 2 ^ w = 2 * half ∧ 0 < half.
Proof using Hw.
  split; [|apply Z.pow_pos_nonneg; lia]. rewrite <- Z.pow_succ_r by lia. f_equal. lia.
Qed.

Lemma max_dist : (2 ^ w - 1) / 2 + 1 = half.
Proof using Hw.
  destruct pow_half as [H ?]. rewrite H. replace (2 * half - 1) with ((half - 1) * 2 + 1) by lia.
  rewrite Z.div_add_l by lia. change (1 / 2) with 0. lia.
Qed.

(** The difference of two numbers of the type, by cases. *)
Lemma ForwardDiff_cases a b : uint w a → uint w b →
  ForwardDiff w 0 a b = if a <=? b then b - a else b - a + 2 ^ w.
Proof using Hw.
  unfold uint, ForwardDiff, wrap. intros Ha Hb. cbn [Z.ltb Z.compare]. destruct (Z.leb_spec a b).
  - by rewrite Z.mod_small by lia.
  - rewrite <- (Z.mod_add (b - a) 1 (2 ^ w)) by lia. rewrite Z.mod_small by lia. lia.
Qed.

Lemma promoted_sub_test a b : uint w a → uint w b → b ≤ a →
  (promoted_sub w a b =? half) = (a - b =? half).
Proof using Hw.
  unfold uint, promoted_sub, wrap. intros Ha Hb Hab. destruct (w <? 32); [done|]. by rewrite Z.mod_small by lia.
Qed.

(** [a] is ahead of or at [b]: their distance, and what breaks the tie. *)
Lemma AheadOrAt_cases a b : uint w a → uint w b →
  AheadOrAt w 0 a b = if b <=? a then a - b <=? half else half <? b - a.
Proof using Hw.
  intros Ha Hb. destruct pow_half as [Hp Hh]. unfold AheadOrAt. cbn [Z.ltb Z.compare]. cbv zeta.
  rewrite max_dist, ForwardDiff_cases by done. destruct (Z.leb_spec b a) as [Hba|Hba].
  - rewrite promoted_sub_test by done. unfold uint in *. destruct (Z.eqb_spec (a - b) half) as [He|He]; lia.
  - unfold uint, promoted_sub, wrap in *. destruct (Z.eqb_spec (if w <? 32 then a - b else (a - b) mod 2 ^ w) half) as [He|He]; [|lia].
    destruct (w <? 32); [lia|]. rewrite <- (Z.mod_add (a - b) 1 (2 ^ w)), Z.mod_small in He by lia. lia.
Qed.

Lemma Delta_cases a b : uint w a → uint w b →
  Delta w 0 a b = (b - a) + (if half <? a - b then 2 ^ w
                             else if half <? b - a then - 2 ^ w else 0).
Proof using Hw.
  intros Ha Hb. destruct pow_half as [Hp Hh]. unfold Delta. cbn [Z.eqb]. cbv zeta. rewrite ForwardDiff_cases, AheadOrAt_cases by done.
  unfold uint in *. repeat match goal with |- context [?x <=? ?y] => destruct (Z.leb_spec x y)
    | |- context [?x <? ?y] => destruct (Z.ltb_spec x y) end; cbn [negb]; lia.
Qed.

Lemma wrap_shift x y : wrap w x = wrap w y → ∃ k, x = y + k * 2 ^ w.
Proof using Hw.
  unfold wrap. intros H. exists (x / 2 ^ w - y / 2 ^ w). assert (2 ^ w ≠ 0) as Hn by (pose proof (Z.pow_pos_nonneg 2 w); lia).
  pose proof (Z.div_mod x (2 ^ w) Hn). pose proof (Z.div_mod y (2 ^ w) Hn). rewrite H in *. nia.
Qed.

(** A step of less than half the range is found exactly. *)
Lemma Delta_exact u x : Z.abs (x - u) < half → Delta w 0 (wrap w u) (wrap w x) = x - u.
Proof using Hw.
  intros Hd. destruct pow_half as [Hp Hh]. pose proof (wrap_uint w u ltac:(lia)) as Hu. pose proof (wrap_uint w x ltac:(lia)) as Hx.
  rewrite Delta_cases by done. unfold wrap in *. unfold uint in *.
  pose proof (Z.div_mod x (2 ^ w) ltac:(lia)). pose proof (Z.div_mod u (2 ^ w) ltac:(lia)).
  assert (x / 2 ^ w = u / 2 ^ w ∨ x / 2 ^ w = u / 2 ^ w + 1 ∨ x / 2 ^ w = u / 2 ^ w - 1) as [E|[E|E]] by nia;
    rewrite E in *; destruct (Z.ltb_spec half (u mod 2 ^ w - x mod 2 ^ w)), (Z.ltb_spec half (x mod 2 ^ w - u mod 2 ^ w)); nia.
Qed.

(** However far the step, the unwrapped number has the bits that arrived. *)
Lemma Delta_wraps u b : uint w b → wrap w (u + Delta w 0 (wrap w u) b) = b.
Proof using Hw.
  intros Hb. pose proof (wrap_uint w u ltac:(lia)) as Hu. rewrite Delta_cases by done.
  assert (2 ^ w ≠ 0) as Hn by (pose proof (Z.pow_pos_nonneg 2 w); lia).
  transitivity (wrap w b); [|by apply wrap_small]. unfold wrap in *. pose proof (Z.div_mod u (2 ^ w) Hn) as Hd.
  assert (∀ k, (b + k * 2 ^ w) mod 2 ^ w = b mod 2 ^ w) as Hk by (intros; by apply Z.mod_add).
  destruct (_ <? _); [rewrite <- (Hk (u / 2 ^ w + 1)); f_equal; lia|].
  destruct (_ <? _); [rewrite <- (Hk (u / 2 ^ w - 1)) | rewrite <- (Hk (u / 2 ^ w))]; f_equal; lia.
Qed.

(** Numbers sent one after the other, each less than half the range from the one before. *)
Fixpoint steps_ok (last : Z) (xs : list Z) : Prop :=
  match xs with [] => True | x :: xs' => Z.abs (x - last) < half ∧ steps_ok x xs' end.

Definition last_sent (first : Z) (xs : list Z) : Z := fold_left (λ _ x, x) xs first.

Lemma unwrap_all_from last xs : steps_ok last xs →
  ∃ u, unwrap_all w (wrap w <$> xs) (mkUnwrapper last (Some (wrap w last))) = (xs, u)
    ∧ u = mkUnwrapper (last_sent last xs) (Some (wrap w (last_sent last xs))).
Proof using Hw.
  revert last. induction xs as [|x xs IH]; intros last; cbn [steps_ok fmap list_fmap unwrap_all].
  { intros _. eexists. split; [done|]. done. }
  intros [Hx Hxs]. unfold Unwrap. cbn [last_value_ last_unwrapped_]. rewrite Delta_exact by done.
  replace (last + (x - last)) with x by lia. destruct (IH x Hxs) as (u & -> & ->). by eexists.
Qed.
End Mod.

(** The numbers of the type around a modulus. *)
Lemma AheadOrAt_mod_cases w m a b : 0 < m → 0 ≤ a < m → 0 ≤ b < m →
  AheadOrAt w m a b = if b <=? a then a - b <=? m / 2 else (m / 2 + m mod 2) <=? b - a - (1 - m mod 2).
Proof.
  intros Hm Ha Hb. unfold AheadOrAt, MinDiff, ReverseDiff, ForwardDiff. rewrite (proj2 (Z.ltb_lt 0 m) Hm). cbv zeta.
  pose proof (Z.div_mod m 2 ltac:(lia)) as Hdm. pose proof (Zmod_even m) as He.
  destruct (Z.even m); rewrite He in *; cbn [andb];
    destruct (Z.leb_spec a b), (Z.leb_spec b a); try lia;
    repeat match goal with |- context [?x =? ?y] => destruct (Z.eqb_spec x y) end; lia.
Qed.

(** ** Properties *)

(** The addition and subtraction modulo [M], done in wrapping 32-bit arithmetic without a
    wider type, are those of the integers. *)
Theorem mod_ops_equivalent m a b :
  0 < m < 2 ^ 32 → 0 ≤ a < m → uint 32 b →
  Add_mod m a b = (a + b) mod m ∧ Subtract_mod m a b = (a - b) mod m.
Proof.
  intros Hm Ha Hb. pose proof (Z.mod_pos_bound b m ltac:(lia)) as Hr. pose proof (Z.div_mod b m ltac:(lia)) as Hd.
  unfold Add_mod, Subtract_mod, wrap. cbv zeta. set (r := b mod m) in *. split.
  - rewrite (Z.mod_small (m - r)) by lia. rewrite <- (Z.add_mod_idemp_r a b m) by lia. fold r. destruct (Z.ltb_spec a (m - r)).
    + rewrite Z.add_mod_idemp_l by lia. rewrite !Z.mod_small by lia. lia.
    + rewrite <- (Z.mod_add (a + r) (-1) m) by lia. rewrite !Z.mod_small by lia. lia.
  - rewrite <- (Zminus_mod_idemp_r a b m). fold r. destruct (Z.ltb_spec a r).
    + rewrite (Z.mod_small (r - a)) by lia. rewrite <- (Z.mod_add (a - r) 1 m) by lia. rewrite !Z.mod_small by lia. lia.
    + rewrite !Z.mod_small by lia. lia.
Qed.

Lemma mod_ops_equivalent_witness : Add_mod 100 60 70 = (60 + 70) mod 100 ∧ Subtract_mod 100 60 70 = (60 - 70) mod 100.
Proof. apply (mod_ops_equivalent 100 60 70); unfold uint; lia. Defined.

(** Of two different numbers exactly one is ahead of the other, whether they wrap at the end
    of their type or at a modulus, also when they are as far apart as they can be. *)
Theorem ahead_of_total w m a b :
  1 ≤ w → 0 ≤ m → uint w a → uint w b → (m = 0 ∨ (a < m ∧ b < m)) → a ≠ b →
  AheadOf w m a b = negb (AheadOf w m b a).
Proof.
  intros Hw Hm Ha Hb Hmod Hab. unfold AheadOf. rewrite (proj2 (Z.eqb_neq a b)), (proj2 (Z.eqb_neq b a)) by done. cbn [negb andb].
  destruct (Z.eq_dec m 0) as [->|Hm0].
  - destruct (pow_half w Hw). rewrite !AheadOrAt_cases by done. unfold uint in *.
    destruct (Z.leb_spec a b), (Z.leb_spec b a); lia.
  - destruct Hmod as [|[Ham Hbm]]; [done|]. unfold uint in *. pose proof (Z.mod_pos_bound m 2 ltac:(lia)).
    pose proof (Z.div_mod m 2 ltac:(lia)). rewrite !AheadOrAt_mod_cases by lia.
    destruct (Z.leb_spec a b), (Z.leb_spec b a); lia.
Qed.

Lemma ahead_of_total_witness : AheadOf 16 0 0 0x8000 = negb (AheadOf 16 0 0x8000 0).
Proof. apply (ahead_of_total 16 0 0 0x8000); unfold uint; lia. Defined.

(** Unwrapping recovers the numbers that were sent: of a sequence of counters of any size,
    transmitted modulo the type and each less than half the type's range from the one
    before, the unwrapper returns the counters themselves. *)
Theorem unwrap_recovers w first xs :
  1 ≤ w → uint w first → steps_ok w first xs →
  ∃ u, unwrap_all w (wrap w <$> first :: xs) SeqNumUnwrapper_new = (first :: xs, u)
    ∧ ∀ y, Z.abs (y - last_sent first xs) < 2 ^ (w - 1) → PeekUnwrap w 0 (wrap w y) u = y.
Proof.
  intros Hw Hf Hs. destruct (unwrap_all_from w Hw first xs Hs) as (u & E & Hu).
  exists u. cbn [fmap list_fmap unwrap_all]. unfold Unwrap at 1. cbn [last_value_ SeqNumUnwrapper_new].
  rewrite (wrap_small w first Hf) in *. rewrite E. split; [done|]. intros y Hy. subst u. unfold PeekUnwrap.
  cbn [last_value_ last_unwrapped_]. rewrite Delta_exact by done. lia.
Qed.

Lemma unwrap_recovers_witness :
  ∃ u, unwrap_all 8 (wrap 8 <$> [250; 300; 290; 400]) SeqNumUnwrapper_new = ([250; 300; 290; 400], u)
    ∧ ∀ y, Z.abs (y - 400) < 2 ^ (8 - 1) → PeekUnwrap 8 0 (wrap 8 y) u = y.
Proof. apply (unwrap_recovers 8 250 [300; 290; 400]); [lia | unfold uint; lia | cbn; lia]. Defined.
