(* ===== verification/SctpWire.v ===== *)
(** * SCTP packets and chunks (includes/webrtc/net/dcsctp/packet)

    The bytes of the association under a session's data channels: big-endian fields in
    bounded buffers, type-length-value chunks, and the DATA, I-DATA, SACK, FORWARD-TSN and
    I-FORWARD-TSN chunks.  Bytes are numbers below
    256.  A parser either returns a value, rejects its input, or fails an [RTC_CHECK], which
    would end the process. *)

From S2P Require Import Prelude.
Open Scope Z_scope.

Inductive parsed (A : Type) := Parsed (a : A) | Rejected | CheckFailed.
Arguments Parsed {A} a.
Arguments Rejected {A}.
Arguments CheckFailed {A}.

Definition pbind {A B} (m : parsed A) (k : A → parsed B) : parsed B :=
  match m with Parsed a => k a | Rejected => Rejected | CheckFailed => CheckFailed end.

Declare Scope parse_scope.
Delimit Scope parse_scope with parse.
Notation "'let*' x := m 'in' k" := (pbind m (λ x, k))
  (at level 10, x name, m at level 100, k at level 200) : parse_scope.
Open Scope parse_scope.

(** ** common/math.h *)

Definition RoundUpTo4 (val : Z) : Z := Z.land (val + 3) (-4).
Definition RoundDownTo4 (val : Z) : Z := Z.land val (-4).

Lemma land_m4 x : Z.land x (-4) = x - x mod 4.
Proof.
  change (-4) with (Z.lnot (Z.ones 2)). rewrite <- Z.ldiff_land, Z.ldiff_ones_r by lia.
  rewrite Z.shiftl_mul_pow2, Z.shiftr_div_pow2 by lia. pose proof (Z.div_mod x 4 ltac:(lia)). change (2 ^ 2) with 4. lia.
Qed.

Lemma RoundUpTo4_bounds x m : x ≤ m → m mod 4 = 0 → x ≤ RoundUpTo4 x ≤ m ∧ RoundUpTo4 x mod 4 = 0 ∧ RoundUpTo4 x < x + 4.
Proof.
  intros Hx Hm. unfold RoundUpTo4. rewrite land_m4. pose proof (Z.div_mod (x + 3) 4 ltac:(lia)). pose proof (Z.mod_pos_bound (x + 3) 4 ltac:(lia)).
  pose proof (Z.div_mod m 4 ltac:(lia)). split; [lia|]. split; [|lia].
  replace (x + 3 - (x + 3) mod 4) with ((x + 3) / 4 * 4) by lia. apply Z.mod_mul. lia.
Qed.

Lemma RoundDownTo4_bounds x : x - 4 < RoundDownTo4 x ≤ x ∧ RoundDownTo4 x mod 4 = 0.
Proof.
  unfold RoundDownTo4. rewrite land_m4. pose proof (Z.div_mod x 4 ltac:(lia)). pose proof (Z.mod_pos_bound x 4 ltac:(lia)). split; [lia|].
  replace (x - x mod 4) with (x / 4 * 4) by lia. apply Z.mod_mul. lia.
Qed.
Definition IsDivisibleBy4 (val : Z) : bool := Z.land val 3 =? 0.

(** ** bounded_byte_reader.h, bounded_byte_writer.h *)

Definition byte_at (off : nat) (data : list Z) : Z := default 0 (data !! off).
Definition Load8 (off : nat) (data : list Z) : Z := byte_at off data.
Definition Load16 (off : nat) (data : list Z) : Z := Z.lor (Z.shiftl (byte_at off data) 8) (byte_at (off + 1) data).
Definition Load32 (off : nat) (data : list Z) : Z :=
  Z.lor (Z.lor (Z.lor (Z.shiftl (byte_at off data) 24) (Z.shiftl (byte_at (off + 1) data) 16))
    (Z.shiftl (byte_at (off + 2) data) 8)) (byte_at (off + 3) data).

(** The offsets are checked at compile time against the fixed size. *)
Definition store (off : nat) (bs buf : list Z) : list Z := take off buf ++ bs ++ drop (off + length bs) buf.
Definition be8 (v : Z) : list Z := [wrap 8 v].
Definition be16 (v : Z) : list Z := [wrap 8 (Z.shiftr v 8); wrap 8 v].
Definition be32 (v : Z) : list Z :=
  [wrap 8 (Z.shiftr v 24); wrap 8 (Z.shiftr v 16); wrap 8 (Z.shiftr v 8); wrap 8 v].
Definition Store8 (off : nat) (v : Z) : list Z → list Z := store off (be8 v).
Definition Store16 (off : nat) (v : Z) : list Z → list Z := store off (be16 v).
Definition Store32 (off : nat) (v : Z) : list Z → list Z := store off (be32 v).

(** The readers and writers check their size when they are made. *)
Definition BoundedByteReader (fixed : nat) (data : list Z) : parsed (list Z) :=
  if (fixed <=? length data)%nat then Parsed data else CheckFailed.
Definition sub_reader (fixed sub off : nat) (data : list Z) : parsed (list Z) :=
  if (fixed + off + sub <=? length data)%nat then Parsed (take sub (drop (fixed + off) data)) else CheckFailed.
Definition variable_data (fixed : nat) (data : list Z) : list Z := drop fixed data.

Definition CopyToVariableData (fixed : nat) (source buf : list Z) : list Z :=
  let copy_size := (length source `min` (length buf - fixed))%nat in
  if (copy_size =? 0)%nat then buf else store fixed (take copy_size source) buf.

(** ** tlv_trait.h *)

Record TlvConfig := mkTlv {
  kType : Z;
  kTypeSizeInBytes : Z;
  kHeaderSize : nat;
  kVariableLengthAlignment : Z
}.

Definition ValidateLengthAlignment (length alignment : Z) : bool :=
  if alignment =? 0 then true else length mod alignment =? 0.

Definition ParseTLV (cfg : TlvConfig) (data : list Z) : parsed (list Z) :=
  if (length data <? kHeaderSize cfg)%nat then Rejected else
  let* tlv_header := BoundedByteReader 4 data in
  let type := if kTypeSizeInBytes cfg =? 1 then Load8 0 tlv_header else Load16 0 tlv_header in
  if negb (type =? kType cfg) then Rejected else
  let len := Load16 2 tlv_header in
  if kVariableLengthAlignment cfg =? 0 then
    if negb (len =? Z.of_nat (kHeaderSize cfg)) || negb (length data =? kHeaderSize cfg)%nat then Rejected
    else BoundedByteReader (kHeaderSize cfg) (take (Z.to_nat len) data)
  else if (Z.of_nat (length data) <? len) || (len <? Z.of_nat (kHeaderSize cfg)) then Rejected
  else if 3 <? Z.of_nat (length data) - len then Rejected
  else if negb (ValidateLengthAlignment len (kVariableLengthAlignment cfg)) then Rejected
  else BoundedByteReader (kHeaderSize cfg) (take (Z.to_nat len) data).

(** The bytes appended to [out]; the length field has 16 bits. *)
Definition AllocateTLV (cfg : TlvConfig) (variable_size : nat) : list Z :=
  let size := (kHeaderSize cfg + variable_size)%nat in
  let buf := replicate size 0 in
  Store16 2 (Z.of_nat size) ((if kTypeSizeInBytes cfg =? 1 then Store8 0 (kType cfg) else Store16 0 (kType cfg)) buf).

(** ** data.h, chunk/data_common.h *)

Record Data := mkData {
  stream_id : Z;
  ssn : Z;
  mid : Z;
  fsn : Z;
  ppid : Z;
  payload : list Z;
  is_beginning : bool;
  is_end : bool;
  is_unordered : bool
}.
Record AnyDataChunk := mkChunk { tsn_ : Z; data_ : Data; immediate_ack_ : bool }.

Definition kFlagsBitEnd : Z := 0.
Definition kFlagsBitBeginning : Z := 1.
Definition kFlagsBitUnordered : Z := 2.
Definition kFlagsBitImmediateAck : Z := 3.

Definition flag (bit : Z) (b : bool) : Z := if b then Z.shiftl 1 bit else 0.
Definition has_flag (flags bit : Z) : bool := negb (Z.land flags (Z.shiftl 1 bit) =? 0).
Definition data_flags (c : AnyDataChunk) : Z :=
  Z.lor (Z.lor (Z.lor (flag kFlagsBitEnd (is_end (data_ c))) (flag kFlagsBitBeginning (is_beginning (data_ c))))
    (flag kFlagsBitUnordered (is_unordered (data_ c)))) (flag kFlagsBitImmediateAck (immediate_ack_ c)).

(** ** chunk/data_chunk.cc *)

Definition DataChunkConfig : TlvConfig := mkTlv 0 1 16 1.

Definition DataChunk_Parse (data : list Z) : parsed AnyDataChunk :=
  let* reader := ParseTLV DataChunkConfig data in
  let flags := Load8 1 reader in
  Parsed (mkChunk (Load32 4 reader)
    (mkData (Load16 8 reader) (Load16 10 reader) 0 0 (Load32 12 reader) (variable_data 16 reader)
       (has_flag flags kFlagsBitBeginning) (has_flag flags kFlagsBitEnd) (has_flag flags kFlagsBitUnordered))
    (has_flag flags kFlagsBitImmediateAck)).

Definition DataChunk_SerializeTo (c : AnyDataChunk) (out : list Z) : list Z :=
  let d := data_ c in
  let writer := AllocateTLV DataChunkConfig (length (payload d)) in
  let writer := Store8 1 (data_flags c) writer in
  let writer := Store32 4 (tsn_ c) writer in
  let writer := Store16 8 (stream_id d) writer in
  let writer := Store16 10 (ssn d) writer in
  let writer := Store32 12 (ppid d) writer in
  out ++ CopyToVariableData 16 (payload d) writer.

(** ** chunk/idata_chunk.cc *)

Definition IDataChunkConfig : TlvConfig := mkTlv 64 1 20 1.

Definition IDataChunk_Parse (data : list Z) : parsed AnyDataChunk :=
  let* reader := ParseTLV IDataChunkConfig data in
  let flags := Load8 1 reader in
  let ppid_or_fsn := Load32 16 reader in
  let beginning := has_flag flags kFlagsBitBeginning in
  Parsed (mkChunk (Load32 4 reader)
    (mkData (Load16 8 reader) 0 (Load32 12 reader) (if beginning then 0 else ppid_or_fsn)
       (if beginning then ppid_or_fsn else 0) (variable_data 20 reader)
       beginning (has_flag flags kFlagsBitEnd) (has_flag flags kFlagsBitUnordered))
    (has_flag flags kFlagsBitImmediateAck)).

Definition IDataChunk_SerializeTo (c : AnyDataChunk) (out : list Z) : list Z :=
  let d := data_ c in
  let writer := AllocateTLV IDataChunkConfig (length (payload d)) in
  let writer := Store8 1 (data_flags c) writer in
  let writer := Store32 4 (tsn_ c) writer in
  let writer := Store16 8 (stream_id d) writer in
  let writer := Store32 12 (mid d) writer in
  let writer := Store32 16 (if is_beginning d then ppid d else fsn d) writer in
  out ++ CopyToVariableData 20 (payload d) writer.

(** ** chunk/sack_chunk.cc *)

Record GapAckBlock := mkGap { gap_start : Z; gap_end : Z }.
Record SackChunk := mkSack {
  cumulative_tsn_ack_ : Z;
  a_rwnd_ : Z;
  gap_ack_blocks_ : list GapAckBlock;
  sack_duplicate_tsns_ : gset Z
}.
Definition SackChunkConfig : TlvConfig := mkTlv 3 1 16 4.

(** [n] records of [size] bytes, read one after the other from [offset]. *)
Fixpoint read_records {A} (fixed size : nat) (f : list Z → A) (n offset : nat) (reader : list Z) : parsed (list A) :=
  match n with
  | O => Parsed []
  | S n' =>
    let* sub := sub_reader fixed size offset reader in
    let* rest := read_records fixed size f n' (offset + size) reader in
    Parsed (f sub :: rest)
  end.
(** The records written one after the other behind the fixed part; a sub-writer checks its
    size. *)
Fixpoint write_records (fixed size : nat) (records : list (list Z)) (offset : nat) (buf : list Z) : parsed (list Z) :=
  match records with
  | [] => Parsed buf
  | r :: records' =>
    if (fixed + offset + size <=? length buf)%nat
    then write_records fixed size records' (offset + size) (store (fixed + offset) r buf)
    else CheckFailed
  end.

Definition SackChunk_Parse (data : list Z) : parsed SackChunk :=
  let* reader := ParseTLV SackChunkConfig data in
  let nbr_of_gap_blocks := Z.to_nat (Load16 12 reader) in
  let nbr_of_dup_tsns := Z.to_nat (Load16 14 reader) in
  if negb (length (variable_data 16 reader) =? nbr_of_gap_blocks * 4 + nbr_of_dup_tsns * 4)%nat then Rejected else
  let* gaps := read_records 16 4 (λ r, mkGap (Load16 0 r) (Load16 2 r)) nbr_of_gap_blocks 0 reader in
  let* dups := read_records 16 4 (Load32 0) nbr_of_dup_tsns (nbr_of_gap_blocks * 4) reader in
  Parsed (mkSack (Load32 4 reader) (Load32 8 reader) gaps (list_to_set dups)).

(** The elements of a [std::set<TSN>], in order. *)
Definition in_order (s : gset Z) : list Z := merge_sort Z.le (elements s).

Definition SackChunk_SerializeTo (c : SackChunk) (out : list Z) : parsed (list Z) :=
  let gaps := gap_ack_blocks_ c in
  let dups := in_order (sack_duplicate_tsns_ c) in
  let writer := AllocateTLV SackChunkConfig (length gaps * 4 + length dups * 4) in
  let writer := Store32 4 (cumulative_tsn_ack_ c) writer in
  let writer := Store32 8 (a_rwnd_ c) writer in
  let writer := Store16 12 (Z.of_nat (length gaps)) writer in
  let writer := Store16 14 (Z.of_nat (length dups)) writer in
  let* writer := write_records 16 4 ((λ g, be16 (gap_start g) ++ be16 (gap_end g)) <$> gaps) 0 writer in
  let* writer := write_records 16 4 (be32 <$> dups) (length gaps * 4) writer in
  Parsed (out ++ writer).

(** ** chunk/forward_tsn_common.h, forward_tsn_chunk.cc, iforward_tsn_chunk.cc *)

Record SkippedStream := mkSkipped { skipped_stream_id : Z; skipped_ssn : Z; skipped_unordered : bool; skipped_mid : Z }.
Record AnyForwardTsnChunk := mkForward { new_cumulative_tsn_ : Z; skipped_streams_ : list SkippedStream }.

Definition ForwardTsnChunkConfig : TlvConfig := mkTlv 192 1 8 4.
Definition IForwardTsnChunkConfig : TlvConfig := mkTlv 194 1 8 8.

Definition ForwardTsnChunk_Parse (data : list Z) : parsed AnyForwardTsnChunk :=
  let* reader := ParseTLV ForwardTsnChunkConfig data in
  let streams_skipped := (length (variable_data 8 reader) / 4)%nat in
  let* skipped := read_records 8 4 (λ r, mkSkipped (Load16 0 r) (Load16 2 r) false 0) streams_skipped 0 reader in
  Parsed (mkForward (Load32 4 reader) skipped).

Definition ForwardTsnChunk_SerializeTo (c : AnyForwardTsnChunk) (out : list Z) : parsed (list Z) :=
  let skipped := skipped_streams_ c in
  let writer := AllocateTLV ForwardTsnChunkConfig (length skipped * 4) in
  let writer := Store32 4 (new_cumulative_tsn_ c) writer in
  let* writer := write_records 8 4 ((λ s, be16 (skipped_stream_id s) ++ be16 (skipped_ssn s)) <$> skipped) 0 writer in
  Parsed (out ++ writer).

Definition IForwardTsnChunk_Parse (data : list Z) : parsed AnyForwardTsnChunk :=
  let* reader := ParseTLV IForwardTsnChunkConfig data in
  let streams_skipped := (length (variable_data 8 reader) / 8)%nat in
  let* skipped := read_records 8 8
    (λ r, mkSkipped (Load16 0 r) 0 (negb (Z.land (Load8 3 r) 1 =? 0)) (Load32 4 r)) streams_skipped 0 reader in
  Parsed (mkForward (Load32 4 reader) skipped).

(** The third byte of a record is never written: it keeps the 0 of the allocation. *)
Definition IForwardTsnChunk_SerializeTo (c : AnyForwardTsnChunk) (out : list Z) : parsed (list Z) :=
  let skipped := skipped_streams_ c in
  let writer := AllocateTLV IForwardTsnChunkConfig (length skipped * 8) in
  let writer := Store32 4 (new_cumulative_tsn_ c) writer in
  let* writer := write_records 8 8
    ((λ s, be16 (skipped_stream_id s) ++ [0] ++ be8 (if skipped_unordered s then 1 else 0) ++ be32 (skipped_mid s)) <$> skipped)
    0 writer in
  Parsed (out ++ writer).

(** ** Bytes *)

Lemma wrap_8 x : 0 ≤ wrap 8 x < 2 ^ 8.
Proof. by apply wrap_uint. Qed.

Lemma join16 v : Z.lor (Z.shiftl (wrap 8 (Z.shiftr v 8)) 8) (wrap 8 v) = wrap 16 v.
Proof.
  rewrite lor_shiftl by (lia || apply wrap_8). unfold wrap. rewrite Z.shiftr_div_pow2 by lia.
  change (2 ^ 16) with (2 ^ 8 * 2 ^ 8). rewrite Z.rem_mul_r by lia. lia.
Qed.
(** Four bytes put together. *)
Lemma lor_bytes b3 b2 b1 b0 :
  0 ≤ b3 < 2 ^ 8 → 0 ≤ b2 < 2 ^ 8 → 0 ≤ b1 < 2 ^ 8 → 0 ≤ b0 < 2 ^ 8 →
  Z.lor (Z.lor (Z.lor (Z.shiftl b3 24) (Z.shiftl b2 16)) (Z.shiftl b1 8)) b0 = ((b3 * 2 ^ 8 + b2) * 2 ^ 8 + b1) * 2 ^ 8 + b0.
Proof.
  intros. transitivity (Z.lor (Z.shiftl (Z.lor (Z.shiftl (Z.lor (Z.shiftl b3 8) b2) 8) b1) 8) b0).
  - rewrite !Z.shiftl_lor, !Z.shiftl_shiftl by lia. done.
  - by rewrite !lor_shiftl by lia.
Qed.

Lemma split_mod v a b : 0 ≤ a → 0 ≤ b → v mod 2 ^ (a + b) = v mod 2 ^ a + 2 ^ a * ((v / 2 ^ a) mod 2 ^ b).
Proof. intros. rewrite Z.pow_add_r by done. apply Z.rem_mul_r; lia. Qed.

Lemma join32 v :
  Z.lor (Z.lor (Z.lor (Z.shiftl (wrap 8 (Z.shiftr v 24)) 24) (Z.shiftl (wrap 8 (Z.shiftr v 16)) 16))
    (Z.shiftl (wrap 8 (Z.shiftr v 8)) 8)) (wrap 8 v) = wrap 32 v.
Proof.
  set (b3 := wrap 8 (Z.shiftr v 24)). set (b2 := wrap 8 (Z.shiftr v 16)). set (b1 := wrap 8 (Z.shiftr v 8)). set (b0 := wrap 8 v).
  rewrite lor_bytes by apply wrap_8. unfold b3, b2, b1, b0, wrap. rewrite !Z.shiftr_div_pow2 by lia.
  assert (v mod 2 ^ 32 = v mod 2 ^ 24 + 16777216 * ((v / 2 ^ 24) mod 2 ^ 8)) as -> by by apply (split_mod v 24 8).
  assert (v mod 2 ^ 24 = v mod 2 ^ 16 + 65536 * ((v / 2 ^ 16) mod 2 ^ 8)) as -> by by apply (split_mod v 16 8).
  assert (v mod 2 ^ 16 = v mod 2 ^ 8 + 256 * ((v / 2 ^ 8) mod 2 ^ 8)) as -> by by apply (split_mod v 8 8).
  change (2 ^ 8) with 256. lia.
Qed.

#[global] Arguments wrap w x : simpl never.
#[global] Arguments Load8 off data : simpl never.
#[global] Arguments Load16 off data : simpl never.
#[global] Arguments Load32 off data : simpl never.

(** Reading a number that was written at the front of some bytes. *)
Lemma Load16_be16 v rest : Load16 0 (be16 v ++ rest) = wrap 16 v.
Proof. apply join16. Qed.
Lemma Load32_be32 v rest : Load32 0 (be32 v ++ rest) = wrap 32 v.
Proof. apply join32. Qed.
Lemma Load8_be8 v rest : Load8 0 (be8 v ++ rest) = wrap 8 v.
Proof. done. Qed.

Lemma byte_at_app off k a b : off = length a → byte_at (off + k) (a ++ b) = byte_at k b.
Proof. intros ->. unfold byte_at. by rewrite lookup_app_r, Nat.add_comm, Nat.add_sub by lia. Qed.
Lemma Load8_app off a b : off = length a → Load8 off (a ++ b) = Load8 0 b.
Proof. intros H. unfold Load8. by rewrite <- (byte_at_app off 0 a b H), Nat.add_0_r. Qed.
Lemma Load16_app off a b : off = length a → Load16 off (a ++ b) = Load16 0 b.
Proof.
  intros H. unfold Load16. rewrite (byte_at_app off 1 a b H). by rewrite <- (byte_at_app off 0 a b H), Nat.add_0_r.
Qed.
Lemma Load32_app off a b : off = length a → Load32 off (a ++ b) = Load32 0 b.
Proof.
  intros H. unfold Load32. rewrite !(byte_at_app off _ a b H). by rewrite <- (byte_at_app off 0 a b H), Nat.add_0_r.
Qed.

Lemma store_at a old new b : length new = length old → store (length a) new (a ++ old ++ b) = a ++ new ++ b.
Proof.
  intros H. unfold store. rewrite take_app_length, H. f_equal. f_equal.
  by rewrite <- drop_drop, drop_app_length, drop_app_length.
Qed.

Lemma copy_all hdr source :
  CopyToVariableData (length hdr) source (hdr ++ replicate (length source) 0) = hdr ++ source.
Proof.
  unfold CopyToVariableData. rewrite length_app, length_replicate.
  replace (length hdr + length source - length hdr)%nat with (length source) by lia. rewrite Nat.min_id.
  destruct source as [|c source]; [done|]. cbn [length Nat.eqb]. rewrite take_ge by (cbn; lia).
  pose proof (store_at hdr (replicate (S (length source)) 0) (c :: source) []) as H.
  rewrite !app_nil_r in H. apply H. by rewrite length_replicate.
Qed.

(** ** Type, length, value *)

(** The header every chunk starts with. *)
Definition tlv_header (type size flags : Z) : list Z := be8 type ++ be8 flags ++ be16 size.

(** A chunk or parameter of at most 65535 bytes, with up to three bytes of padding, is found:
    the type is the first byte, or the first two. *)
Lemma ParseTLV_read cfg type flags body pad :
  let size := (4 + length body)%nat in
  (if kTypeSizeInBytes cfg =? 1 then wrap 8 type else wrap 8 type * 2 ^ 8 + wrap 8 flags) = kType cfg →
  kVariableLengthAlignment cfg ≠ 0 → (4 ≤ kHeaderSize cfg)%nat →
  (kHeaderSize cfg ≤ size)%nat → Z.of_nat size < 2 ^ 16 → (length pad ≤ 3)%nat →
  ValidateLengthAlignment (Z.of_nat size) (kVariableLengthAlignment cfg) = true →
  ParseTLV cfg ((tlv_header type (Z.of_nat size) flags ++ body) ++ pad) = Parsed (tlv_header type (Z.of_nat size) flags ++ body).
Proof.
  intros size Ht Hal H4 Hh Hs Hp Hv. set (data := (tlv_header type (Z.of_nat size) flags ++ body) ++ pad).
  assert (length (tlv_header type (Z.of_nat size) flags ++ body) = size) as Hlen by (rewrite length_app; done).
  assert (length data = (size + length pad)%nat) as Hd by (unfold data; rewrite length_app, Hlen; done).
  assert ((if kTypeSizeInBytes cfg =? 1 then Load8 0 data else Load16 0 data) = kType cfg) as Hty.
  { rewrite <- Ht. destruct (_ =? 1); [done|]. apply (lor_shiftl (wrap 8 type) (wrap 8 flags)); [lia|apply wrap_8]. }
  assert (Load16 2 data = Z.of_nat size) as Hl16.
  { unfold data, tlv_header. rewrite <- !app_assoc, (app_assoc (be8 _) (be8 _)), Load16_app, Load16_be16 by done.
    apply wrap_small. split; lia. }
  unfold ParseTLV. rewrite (proj2 (Nat.ltb_ge _ _)) by lia. unfold BoundedByteReader at 1.
  rewrite (proj2 (Nat.leb_le 4 _)) by lia. cbn [pbind]. rewrite Hty, Hl16, Z.eqb_refl. cbn [negb]. rewrite (proj2 (Z.eqb_neq _ 0)) by done.
  rewrite (proj2 (Z.ltb_ge _ _)), (proj2 (Z.ltb_ge (Z.of_nat size) _)) by lia. cbn [orb].
  rewrite (proj2 (Z.ltb_ge 3 _)) by lia. rewrite Hv. cbn [negb]. rewrite Nat2Z.id. unfold data.
  rewrite take_app_length' by done. unfold BoundedByteReader. by rewrite (proj2 (Nat.leb_le _ _)) by lia.
Qed.

Lemma ParseTLV_found cfg flags body pad :
  let size := (4 + length body)%nat in
  kTypeSizeInBytes cfg = 1 → uint 8 (kType cfg) → kVariableLengthAlignment cfg ≠ 0 → (4 ≤ kHeaderSize cfg)%nat →
  (kHeaderSize cfg ≤ size)%nat → Z.of_nat size < 2 ^ 16 → (length pad ≤ 3)%nat →
  ValidateLengthAlignment (Z.of_nat size) (kVariableLengthAlignment cfg) = true →
  ParseTLV cfg ((tlv_header (kType cfg) (Z.of_nat size) flags ++ body) ++ pad)
  = Parsed (tlv_header (kType cfg) (Z.of_nat size) flags ++ body).
Proof. intros size Ht Hty Hal H4 Hh Hs Hp Hv. apply ParseTLV_read; try done. rewrite Ht. by apply wrap_small. Qed.

(** The same for a type of two bytes below 256: its first byte is zero. *)
Lemma ParseTLV_found2 cfg body pad :
  let size := (4 + length body)%nat in
  kTypeSizeInBytes cfg = 2 → uint 8 (kType cfg) → kVariableLengthAlignment cfg ≠ 0 → (4 ≤ kHeaderSize cfg)%nat →
  (kHeaderSize cfg ≤ size)%nat → Z.of_nat size < 2 ^ 16 → (length pad ≤ 3)%nat →
  ValidateLengthAlignment (Z.of_nat size) (kVariableLengthAlignment cfg) = true →
  ParseTLV cfg ((tlv_header 0 (Z.of_nat size) (kType cfg) ++ body) ++ pad) = Parsed (tlv_header 0 (Z.of_nat size) (kType cfg) ++ body).
Proof. intros size Ht Hty Hal H4 Hh Hs Hp Hv. apply ParseTLV_read; try done. rewrite Ht. cbn [Z.eqb]. rewrite (wrap_small 8 (kType cfg)) by done. by rewrite wrap_small. Qed.

Lemma flags_read c :
  has_flag (wrap 8 (data_flags c)) kFlagsBitEnd = is_end (data_ c)
  ∧ has_flag (wrap 8 (data_flags c)) kFlagsBitBeginning = is_beginning (data_ c)
  ∧ has_flag (wrap 8 (data_flags c)) kFlagsBitUnordered = is_unordered (data_ c)
  ∧ has_flag (wrap 8 (data_flags c)) kFlagsBitImmediateAck = immediate_ack_ c.
Proof. unfold data_flags. by destruct (is_end _), (is_beginning _), (is_unordered _), (immediate_ack_ _). Qed.

(** ** The bytes of the chunks *)

Lemma DataChunk_bytes c out :
  DataChunk_SerializeTo c out
  = out ++ (tlv_header (kType DataChunkConfig) (Z.of_nat (16 + length (payload (data_ c)))) (data_flags c)
      ++ be32 (tsn_ c) ++ be16 (stream_id (data_ c)) ++ be16 (ssn (data_ c)) ++ be32 (ppid (data_ c)) ++ payload (data_ c)).
Proof.
  unfold DataChunk_SerializeTo. cbv zeta. f_equal. set (p := payload (data_ c)).
  match goal with |- CopyToVariableData 16 p ?w = _ => assert (w = (tlv_header (kType DataChunkConfig) (Z.of_nat (16 + length p)) (data_flags c)
      ++ be32 (tsn_ c) ++ be16 (stream_id (data_ c)) ++ be16 (ssn (data_ c)) ++ be32 (ppid (data_ c))) ++ replicate (length p) 0) as -> end.
  { done. }
  match goal with |- CopyToVariableData 16 p (?h ++ _) = _ => etrans; [apply (copy_all h p)|] end. by rewrite <- !app_assoc.
Qed.

Lemma IDataChunk_bytes c out :
  IDataChunk_SerializeTo c out
  = out ++ (tlv_header (kType IDataChunkConfig) (Z.of_nat (20 + length (payload (data_ c)))) (data_flags c)
      ++ be32 (tsn_ c) ++ be16 (stream_id (data_ c)) ++ [0; 0] ++ be32 (mid (data_ c))
      ++ be32 (if is_beginning (data_ c) then ppid (data_ c) else fsn (data_ c)) ++ payload (data_ c)).
Proof.
  unfold IDataChunk_SerializeTo. cbv zeta. f_equal. set (p := payload (data_ c)).
  match goal with |- CopyToVariableData 20 p ?w = _ => assert (w = (tlv_header (kType IDataChunkConfig) (Z.of_nat (20 + length p)) (data_flags c)
      ++ be32 (tsn_ c) ++ be16 (stream_id (data_ c)) ++ [0; 0] ++ be32 (mid (data_ c))
      ++ be32 (if is_beginning (data_ c) then ppid (data_ c) else fsn (data_ c))) ++ replicate (length p) 0) as -> by done end.
  match goal with |- CopyToVariableData 20 p (?h ++ _) = _ => etrans; [apply (copy_all h p)|] end. by rewrite <- !app_assoc.
Qed.

Section Records.
Context (fixed size : nat).

Lemma write_records_all rs off pre post :
  Forall (λ r, length r = size) rs → length pre = (fixed + off)%nat →
  write_records fixed size rs off (pre ++ replicate (length rs * size) 0 ++ post) = Parsed (pre ++ concat rs ++ post).
Proof.
  intros Hrs. revert off pre. induction Hrs as [|r rs Hr Hrs IH]; intros off pre Hpre; [done|]. cbn [length Nat.mul write_records].
  rewrite replicate_add, <- app_assoc, !length_app, !length_replicate, Hpre. rewrite (proj2 (Nat.leb_le _ _)) by lia.
  rewrite <- Hpre, store_at by by rewrite length_replicate. rewrite app_assoc, IH by (rewrite length_app; lia).
  cbn [concat]. by rewrite <- !app_assoc.
Qed.

Lemma read_records_all {A} (f : list Z → A) rs off pre post :
  Forall (λ r, length r = size) rs → length pre = (fixed + off)%nat →
  read_records fixed size f (length rs) off (pre ++ concat rs ++ post) = Parsed (f <$> rs).
Proof.
  intros Hrs. revert off pre. induction Hrs as [|r rs Hr Hrs IH]; intros off pre Hpre; [done|]. cbn [length read_records concat fmap list_fmap].
  unfold sub_reader. rewrite (proj2 (Nat.leb_le _ _)) by (rewrite !length_app; lia). cbn [pbind].
  rewrite <- Hpre, drop_app_length, <- app_assoc, take_app_length' by done. rewrite app_assoc, IH by (rewrite length_app; lia). done.
Qed.

(** Reading inside the data never fails a check. *)
Lemma read_records_in_bounds {A} (f : list Z → A) n off data :
  (fixed + off + n * size ≤ length data)%nat → ∃ rs, read_records fixed size f n off data = Parsed rs.
Proof.
  revert off. induction n as [|n IH]; intros off H; [by eexists|]. cbn [read_records]. unfold sub_reader.
  rewrite (proj2 (Nat.leb_le _ _)) by lia. cbn [pbind]. destruct (IH (off + size)%nat ltac:(lia)) as [rs ->]. by eexists.
Qed.
End Records.

Lemma concat_lengths {A} (rs : list (list A)) n : Forall (λ r, length r = n) rs → length (concat rs) = (length rs * n)%nat.
Proof. induction 1; cbn; [done|]. rewrite length_app. lia. Qed.

Definition gap_bytes (g : GapAckBlock) : list Z := be16 (gap_start g) ++ be16 (gap_end g).

Lemma SackChunk_bytes c out :
  let gaps := gap_ack_blocks_ c in
  let dups := in_order (sack_duplicate_tsns_ c) in
  SackChunk_SerializeTo c out
  = Parsed (out ++ (tlv_header (kType SackChunkConfig) (Z.of_nat (16 + (length gaps * 4 + length dups * 4))) 0
      ++ be32 (cumulative_tsn_ack_ c) ++ be32 (a_rwnd_ c) ++ be16 (Z.of_nat (length gaps)) ++ be16 (Z.of_nat (length dups))
      ++ concat (gap_bytes <$> gaps) ++ concat (be32 <$> dups))).
Proof.
  intros gaps dups. unfold SackChunk_SerializeTo. fold gaps. fold dups. cbv zeta.
  match goal with |- context [write_records 16 4 _ 0 ?w] => assert (w = (tlv_header (kType SackChunkConfig) (Z.of_nat (16 + (length gaps * 4 + length dups * 4))) 0
      ++ be32 (cumulative_tsn_ack_ c) ++ be32 (a_rwnd_ c) ++ be16 (Z.of_nat (length gaps)) ++ be16 (Z.of_nat (length dups)))
      ++ replicate (length gaps * 4 + length dups * 4) 0) as -> by done end.
  set (hdr := tlv_header _ _ _ ++ _). rewrite replicate_add.
  pose proof (write_records_all 16 4 (gap_bytes <$> gaps) 0 hdr (replicate (length dups * 4) 0)) as H.
  rewrite length_fmap in H. fold gap_bytes. rewrite H; [|by apply Forall_fmap, Forall_true|done]. cbn [pbind].
  pose proof (write_records_all 16 4 (be32 <$> dups) (length gaps * 4) (hdr ++ concat (gap_bytes <$> gaps)) []) as H2.
  rewrite length_fmap, !app_nil_r, <- !app_assoc in H2. rewrite H2.
  - cbn [pbind]. unfold hdr. by rewrite <- !app_assoc.
  - by apply Forall_fmap, Forall_true.
  - rewrite length_app, (concat_lengths _ 4), length_fmap; [done|by apply Forall_fmap, Forall_true].
Qed.

Definition skipped_bytes (s : SkippedStream) : list Z := be16 (skipped_stream_id s) ++ be16 (skipped_ssn s).
Definition iskipped_bytes (s : SkippedStream) : list Z :=
  be16 (skipped_stream_id s) ++ [0] ++ be8 (if skipped_unordered s then 1 else 0) ++ be32 (skipped_mid s).

Lemma ForwardTsnChunk_bytes c out :
  ForwardTsnChunk_SerializeTo c out
  = Parsed (out ++ (tlv_header (kType ForwardTsnChunkConfig) (Z.of_nat (8 + length (skipped_streams_ c) * 4)) 0
      ++ be32 (new_cumulative_tsn_ c) ++ concat (skipped_bytes <$> skipped_streams_ c))).
Proof.
  unfold ForwardTsnChunk_SerializeTo. cbv zeta. set (l := skipped_streams_ c).
  match goal with |- context [write_records 8 4 _ 0 ?w] => assert (w = (tlv_header (kType ForwardTsnChunkConfig) (Z.of_nat (8 + length l * 4)) 0
      ++ be32 (new_cumulative_tsn_ c)) ++ replicate (length l * 4) 0) as -> by done end.
  pose proof (write_records_all 8 4 (skipped_bytes <$> l) 0
    (tlv_header (kType ForwardTsnChunkConfig) (Z.of_nat (8 + length l * 4)) 0 ++ be32 (new_cumulative_tsn_ c)) []) as H.
  rewrite length_fmap, !app_nil_r in H. fold skipped_bytes. rewrite H; [|by apply Forall_fmap, Forall_true|done].
  cbn [pbind]. by rewrite <- !app_assoc.
Qed.

Lemma IForwardTsnChunk_bytes c out :
  IForwardTsnChunk_SerializeTo c out
  = Parsed (out ++ (tlv_header (kType IForwardTsnChunkConfig) (Z.of_nat (8 + length (skipped_streams_ c) * 8)) 0
      ++ be32 (new_cumulative_tsn_ c) ++ concat (iskipped_bytes <$> skipped_streams_ c))).
Proof.
  unfold IForwardTsnChunk_SerializeTo. cbv zeta. set (l := skipped_streams_ c).
  match goal with |- context [write_records 8 8 _ 0 ?w] => assert (w = (tlv_header (kType IForwardTsnChunkConfig) (Z.of_nat (8 + length l * 8)) 0
      ++ be32 (new_cumulative_tsn_ c)) ++ replicate (length l * 8) 0) as -> by done end.
  pose proof (write_records_all 8 8 (iskipped_bytes <$> l) 0
    (tlv_header (kType IForwardTsnChunkConfig) (Z.of_nat (8 + length l * 8)) 0 ++ be32 (new_cumulative_tsn_ c)) []) as H.
  rewrite length_fmap, !app_nil_r in H. fold iskipped_bytes. rewrite H; [|by apply Forall_fmap, Forall_true|done].
  cbn [pbind]. by rewrite <- !app_assoc.
Qed.

(** ** What a chunk promises to the packet that carries it *)

Record WireFormat (A : Type) := mkFormat {
  fmt_serialize : A → list Z → parsed (list Z);
  fmt_parse : list Z → parsed A;
  fmt_wf : A → Prop
}.
Arguments fmt_serialize {A}.
Arguments fmt_parse {A}.
Arguments fmt_wf {A}.

(** A chunk is appended as bytes that start with their own number; they are read back, also
    with up to three bytes of padding behind them if their number is not a multiple of four. *)
Class RoundTrips {A} (f : WireFormat A) : Prop := round_trips c :
  fmt_wf f c → ∃ type flags body,
    let size := (4 + length body)%nat in
    let bytes := tlv_header type (Z.of_nat size) flags ++ body in
    Z.of_nat size < 2 ^ 16 ∧ (∀ out, fmt_serialize f c out = Parsed (out ++ bytes))
    ∧ ∀ pad, (length pad ≤ 3)%nat → (Z.of_nat size mod 4 = 0 → pad = []) → fmt_parse f (bytes ++ pad) = Parsed c.

Definition DataChunk_wf (c : AnyDataChunk) : Prop :=
  let d := data_ c in
  uint 32 (tsn_ c) ∧ uint 16 (stream_id d) ∧ uint 16 (ssn d) ∧ mid d = 0 ∧ fsn d = 0 ∧ uint 32 (ppid d)
  ∧ Z.of_nat (16 + length (payload d)) < 2 ^ 16.
Definition IDataChunk_wf (c : AnyDataChunk) : Prop :=
  let d := data_ c in
  uint 32 (tsn_ c) ∧ uint 16 (stream_id d) ∧ ssn d = 0 ∧ uint 32 (mid d)
  ∧ (if is_beginning d then uint 32 (ppid d) ∧ fsn d = 0 else uint 32 (fsn d) ∧ ppid d = 0)
  ∧ Z.of_nat (20 + length (payload d)) < 2 ^ 16.
Definition SackChunk_wf (c : SackChunk) : Prop :=
  uint 32 (cumulative_tsn_ack_ c) ∧ uint 32 (a_rwnd_ c)
  ∧ Forall (λ g, uint 16 (gap_start g) ∧ uint 16 (gap_end g)) (gap_ack_blocks_ c)
  ∧ (∀ t, t ∈ sack_duplicate_tsns_ c → uint 32 t)
  ∧ Z.of_nat (16 + (length (gap_ack_blocks_ c) * 4 + size (sack_duplicate_tsns_ c) * 4)) < 2 ^ 16.
Definition ForwardTsnChunk_wf (c : AnyForwardTsnChunk) : Prop :=
  uint 32 (new_cumulative_tsn_ c)
  ∧ Forall (λ s, uint 16 (skipped_stream_id s) ∧ uint 16 (skipped_ssn s) ∧ skipped_unordered s = false ∧ skipped_mid s = 0)
      (skipped_streams_ c)
  ∧ Z.of_nat (8 + length (skipped_streams_ c) * 4) < 2 ^ 16.
Definition IForwardTsnChunk_wf (c : AnyForwardTsnChunk) : Prop :=
  uint 32 (new_cumulative_tsn_ c)
  ∧ Forall (λ s, uint 16 (skipped_stream_id s) ∧ skipped_ssn s = 0 ∧ uint 32 (skipped_mid s)) (skipped_streams_ c)
  ∧ Z.of_nat (8 + length (skipped_streams_ c) * 8) < 2 ^ 16.

Definition DataChunk : WireFormat AnyDataChunk :=
  mkFormat _ (λ c out, Parsed (DataChunk_SerializeTo c out)) DataChunk_Parse DataChunk_wf.
Definition IDataChunk : WireFormat AnyDataChunk :=
  mkFormat _ (λ c out, Parsed (IDataChunk_SerializeTo c out)) IDataChunk_Parse IDataChunk_wf.
Definition Sack : WireFormat SackChunk := mkFormat _ SackChunk_SerializeTo SackChunk_Parse SackChunk_wf.
Definition ForwardTsn : WireFormat AnyForwardTsnChunk :=
  mkFormat _ ForwardTsnChunk_SerializeTo ForwardTsnChunk_Parse ForwardTsnChunk_wf.
Definition IForwardTsn : WireFormat AnyForwardTsnChunk :=
  mkFormat _ IForwardTsnChunk_SerializeTo IForwardTsnChunk_Parse IForwardTsnChunk_wf.

(** A field whose bytes stand at a known place. *)
Ltac field16 v := etrans; [exact (join16 v) | by apply wrap_small].
Ltac field32 v := etrans; [exact (join32 v) | by apply wrap_small].

Lemma aligned_1 n : ValidateLengthAlignment n 1 = true.
Proof. unfold ValidateLengthAlignment. cbn [Z.eqb]. by rewrite Z.mod_1_r. Qed.

#[export] Instance DataChunk_round_trips : RoundTrips DataChunk.
Proof.
  intros c (Ht & Hs & Hn & Hm & Hf & Hp & Hlen).
  set (body := be32 (tsn_ c) ++ be16 (stream_id (data_ c)) ++ be16 (ssn (data_ c)) ++ be32 (ppid (data_ c)) ++ payload (data_ c)).
  assert (4 + length body = 16 + length (payload (data_ c)))%nat as Hb by done.
  exists (kType DataChunkConfig), (data_flags c), body. cbv zeta. rewrite Hb. split; [done|].
  split; [intros out; cbn; by rewrite DataChunk_bytes|]. intros pad Hpad _. cbn [fmt_parse DataChunk]. unfold DataChunk_Parse.
  rewrite <- Hb, (ParseTLV_found DataChunkConfig (data_flags c) body pad); try done; [|cbn; lia|cbn; lia|apply aligned_1].
  cbn [pbind]. set (reader := tlv_header _ _ _ ++ body). destruct (flags_read c) as (F1 & F2 & F3 & F4).
  change (Load8 1 reader) with (wrap 8 (data_flags c)). change (variable_data 16 reader) with (payload (data_ c)).
  assert (Load32 4 reader = tsn_ c) as -> by field32 (tsn_ c).
  assert (Load16 8 reader = stream_id (data_ c)) as -> by field16 (stream_id (data_ c)).
  assert (Load16 10 reader = ssn (data_ c)) as -> by field16 (ssn (data_ c)).
  assert (Load32 12 reader = ppid (data_ c)) as -> by field32 (ppid (data_ c)).
  rewrite F1, F2, F3, F4. clear -Hm Hf. destruct c as [t [] i]. cbn in *. by subst.
Qed.

#[export] Instance IDataChunk_round_trips : RoundTrips IDataChunk.
Proof.
  intros c (Ht & Hs & Hn & Hm & Hpf & Hlen). set (d := data_ c) in *. set (pf := if is_beginning d then ppid d else fsn d).
  set (body := be32 (tsn_ c) ++ be16 (stream_id d) ++ [0; 0] ++ be32 (mid d) ++ be32 pf ++ payload d).
  assert (uint 32 pf) as Hpfu by (unfold pf; by destruct (is_beginning d), Hpf).
  assert (4 + length body = 20 + length (payload d))%nat as Hb by done.
  exists (kType IDataChunkConfig), (data_flags c), body. cbv zeta. rewrite Hb. split; [done|].
  split; [intros out; cbn; by rewrite IDataChunk_bytes|]. intros pad Hpad _. cbn [fmt_parse IDataChunk]. unfold IDataChunk_Parse.
  rewrite <- Hb, (ParseTLV_found IDataChunkConfig (data_flags c) body pad); try done; [|cbn; lia|cbn; lia|apply aligned_1].
  cbn [pbind]. set (reader := tlv_header _ _ _ ++ body). destruct (flags_read c) as (F1 & F2 & F3 & F4).
  change (Load8 1 reader) with (wrap 8 (data_flags c)). change (variable_data 20 reader) with (payload d).
  assert (Load32 4 reader = tsn_ c) as -> by field32 (tsn_ c).
  assert (Load16 8 reader = stream_id d) as -> by field16 (stream_id d).
  assert (Load32 12 reader = mid d) as -> by field32 (mid d).
  assert (Load32 16 reader = pf) as -> by field32 pf.
  rewrite F1, F2, F3, F4. clear -Hn Hpf. subst pf d. destruct c as [t [s n m f p pl b e u] i]. cbn in *. by destruct b, Hpf; subst.
Qed.

Lemma aligned_4 k n : ValidateLengthAlignment (Z.of_nat (4 * k + n * 4)) 4 = true.
Proof.
  unfold ValidateLengthAlignment. cbn [Z.eqb]. apply Z.eqb_eq.
  replace (Z.of_nat (4 * k + n * 4)) with ((Z.of_nat (k + n)) * 4) by lia. apply Z.mod_mul. lia.
Qed.

(** Records whose bytes are read back. *)
Lemma records_read {A} (write : A → list Z) (read : list Z → A) (l : list A) :
  Forall (λ a, read (write a) = a) l → read <$> (write <$> l) = l.
Proof. induction 1 as [|a l Ha Hl IH]; [done|]. cbn in *. by rewrite Ha, IH. Qed.

#[export] Instance ForwardTsn_round_trips : RoundTrips ForwardTsn.
Proof.
  intros c (Ht & Hs & Hlen). set (l := skipped_streams_ c) in *. set (body := be32 (new_cumulative_tsn_ c) ++ concat (skipped_bytes <$> l)).
  assert (Forall (λ r, length r = 4%nat) (skipped_bytes <$> l)) as Hrec by by apply Forall_fmap, Forall_true.
  pose proof (concat_lengths _ _ Hrec) as Hcl. rewrite length_fmap in Hcl.
  assert (4 + length body = 8 + length l * 4)%nat as Hb by (unfold body; rewrite length_app, Hcl; done).
  exists (kType ForwardTsnChunkConfig), 0, body. cbv zeta. rewrite Hb. split; [done|].
  split; [intros out; cbn; by rewrite ForwardTsnChunk_bytes|]. intros pad Hpad _. cbn [fmt_parse ForwardTsn]. unfold ForwardTsnChunk_Parse.
  rewrite <- Hb, (ParseTLV_found ForwardTsnChunkConfig 0 body pad); try done;
    [|cbn; lia|cbn; lia|by rewrite Hb|rewrite Hb; apply (aligned_4 2)].
  cbn [pbind]. set (reader := tlv_header _ _ _ ++ body).
  assert (Load32 4 reader = new_cumulative_tsn_ c) as -> by field32 (new_cumulative_tsn_ c).
  assert (length (variable_data 8 reader) = (length l * 4)%nat) as -> by done.
  rewrite Nat.div_mul by done.
  pose proof (read_records_all 8 4 (λ r, mkSkipped (Load16 0 r) (Load16 2 r) false 0) (skipped_bytes <$> l) 0
    (tlv_header (kType ForwardTsnChunkConfig) (Z.of_nat (4 + length body)) 0 ++ be32 (new_cumulative_tsn_ c)) [] Hrec eq_refl) as H.
  rewrite length_fmap, app_nil_r, <- app_assoc in H. fold body in H. unfold reader. rewrite H. cbn [pbind]. rewrite records_read.
  - by destruct c.
  - eapply Forall_impl; [exact Hs|]. intros s (H1 & H2 & H3 & H4). destruct s. cbn in *. subst. f_equal.
    + field16 skipped_stream_id0.
    + field16 skipped_ssn0.
Qed.

Lemma aligned_8 n : ValidateLengthAlignment (Z.of_nat (8 + n * 8)) 8 = true.
Proof.
  unfold ValidateLengthAlignment. cbn [Z.eqb]. apply Z.eqb_eq.
  replace (Z.of_nat (8 + n * 8)) with (Z.of_nat (1 + n) * 8) by lia. apply Z.mod_mul. lia.
Qed.

#[export] Instance IForwardTsn_round_trips : RoundTrips IForwardTsn.
Proof.
  intros c (Ht & Hs & Hlen). set (l := skipped_streams_ c) in *. set (body := be32 (new_cumulative_tsn_ c) ++ concat (iskipped_bytes <$> l)).
  assert (Forall (λ r, length r = 8%nat) (iskipped_bytes <$> l)) as Hrec by by apply Forall_fmap, Forall_true.
  pose proof (concat_lengths _ _ Hrec) as Hcl. rewrite length_fmap in Hcl.
  assert (4 + length body = 8 + length l * 8)%nat as Hb by (unfold body; rewrite length_app, Hcl; done).
  exists (kType IForwardTsnChunkConfig), 0, body. cbv zeta. rewrite Hb. split; [done|].
  split; [intros out; cbn; by rewrite IForwardTsnChunk_bytes|]. intros pad Hpad _. cbn [fmt_parse IForwardTsn]. unfold IForwardTsnChunk_Parse.
  rewrite <- Hb, (ParseTLV_found IForwardTsnChunkConfig 0 body pad); try done;
    [|cbn; lia|cbn; lia|by rewrite Hb|rewrite Hb; apply aligned_8].
  cbn [pbind]. set (reader := tlv_header _ _ _ ++ body).
  assert (Load32 4 reader = new_cumulative_tsn_ c) as -> by field32 (new_cumulative_tsn_ c).
  assert (length (variable_data 8 reader) = (length l * 8)%nat) as -> by done.
  rewrite Nat.div_mul by done.
  pose proof (read_records_all 8 8 (λ r, mkSkipped (Load16 0 r) 0 (negb (Z.land (Load8 3 r) 1 =? 0)) (Load32 4 r)) (iskipped_bytes <$> l) 0
    (tlv_header (kType IForwardTsnChunkConfig) (Z.of_nat (4 + length body)) 0 ++ be32 (new_cumulative_tsn_ c)) [] Hrec eq_refl) as H.
  rewrite length_fmap, app_nil_r, <- app_assoc in H. fold body in H. unfold reader. rewrite H. cbn [pbind]. rewrite records_read.
  - by destruct c.
  - eapply Forall_impl; [exact Hs|]. intros s (H1 & H2 & H3). destruct s as [sid n u m]. cbn in H1, H2, H3. subst n.
    unfold iskipped_bytes. cbn [skipped_stream_id skipped_unordered skipped_mid]. f_equal; [field16 sid | by destruct u | field32 m].
Qed.

Lemma in_order_perm s : in_order s ≡ₚ elements s.
Proof. apply merge_sort_Permutation. Qed.

Lemma in_order_set s : list_to_set (in_order s) = s.
Proof. apply set_eq. intros x. rewrite elem_of_list_to_set, in_order_perm. apply elem_of_elements. Qed.

Lemma length_in_order s : length (in_order s) = size s.
Proof. by rewrite in_order_perm. Qed.

#[export] Instance Sack_round_trips : RoundTrips Sack.
Proof.
  intros c (Ht & Ha & Hg & Hd & Hlen). pose proof (length_in_order (sack_duplicate_tsns_ c)) as Hsize.
  set (gaps := gap_ack_blocks_ c) in *. set (dups := in_order (sack_duplicate_tsns_ c)) in *. rewrite <- Hsize in Hlen.
  set (fixed := be32 (cumulative_tsn_ack_ c) ++ be32 (a_rwnd_ c) ++ be16 (Z.of_nat (length gaps)) ++ be16 (Z.of_nat (length dups))).
  set (body := fixed ++ concat (gap_bytes <$> gaps) ++ concat (be32 <$> dups)).
  assert (Forall (λ r, length r = 4%nat) (gap_bytes <$> gaps)) as Hrec by by apply Forall_fmap, Forall_true.
  assert (Forall (λ r, length r = 4%nat) (be32 <$> dups)) as Hrec2 by by apply Forall_fmap, Forall_true.
  pose proof (concat_lengths _ _ Hrec) as Hcl. pose proof (concat_lengths _ _ Hrec2) as Hcl2. rewrite length_fmap in Hcl. rewrite length_fmap in Hcl2.
  assert (4 + length body = 16 + (length gaps * 4 + length dups * 4))%nat as Hb by (unfold body; rewrite !length_app, Hcl, Hcl2; done).
  exists (kType SackChunkConfig), 0, body. cbv zeta. rewrite Hb. split; [done|].
  split; [intros out; cbn [fmt_serialize Sack]; rewrite SackChunk_bytes; unfold body, fixed; by rewrite <- !app_assoc|].
  intros pad Hpad _. cbn [fmt_parse Sack]. unfold SackChunk_Parse.
  rewrite <- Hb, (ParseTLV_found SackChunkConfig 0 body pad); try done;
    [|cbn; lia|cbn; lia|by rewrite Hb|rewrite Hb, <- Nat.mul_add_distr_r; apply (aligned_4 4)].
  cbn [pbind]. set (reader := tlv_header _ _ _ ++ body).
  assert (∀ n, (n * 4 ≤ length gaps * 4 + length dups * 4)%nat → uint 16 (Z.of_nat n)) as Hu by (unfold uint; lia).
  assert (Load16 12 reader = Z.of_nat (length gaps)) as -> by (etrans; [exact (join16 _)|apply wrap_small, Hu; lia]).
  assert (Load16 14 reader = Z.of_nat (length dups)) as -> by (etrans; [exact (join16 _)|apply wrap_small, Hu; lia]).
  assert (Load32 4 reader = cumulative_tsn_ack_ c) as -> by field32 (cumulative_tsn_ack_ c).
  assert (Load32 8 reader = a_rwnd_ c) as -> by field32 (a_rwnd_ c).
  rewrite !Nat2Z.id. assert (length (variable_data 16 reader) = (length gaps * 4 + length dups * 4)%nat) as ->
    by (change (variable_data 16 reader) with (concat (gap_bytes <$> gaps) ++ concat (be32 <$> dups)); by rewrite length_app, Hcl, Hcl2).
  rewrite Nat.eqb_refl. cbn [negb]. set (hdr := tlv_header (kType SackChunkConfig) (Z.of_nat (4 + length body)) 0 ++ fixed).
  pose proof (read_records_all 16 4 (λ r, mkGap (Load16 0 r) (Load16 2 r)) (gap_bytes <$> gaps) 0 hdr (concat (be32 <$> dups)) Hrec eq_refl) as H.
  pose proof (read_records_all 16 4 (Load32 0) (be32 <$> dups) (length gaps * 4) (hdr ++ concat (gap_bytes <$> gaps)) [] Hrec2) as H2.
  rewrite length_fmap in H. rewrite length_fmap in H2. unfold hdr in H, H2. rewrite <- !app_assoc in H. rewrite app_nil_r, <- !app_assoc in H2.
  fold body in H, H2. unfold reader. rewrite H. cbn [pbind]. rewrite H2 by (rewrite app_assoc, length_app, Hcl; done). cbn [pbind].
  rewrite !records_read; [unfold dups; rewrite in_order_set; by destruct c | |].
  - apply Forall_forall. intros t Hin. unfold dups in Hin. rewrite in_order_perm in Hin. apply elem_of_elements in Hin. specialize (Hd t Hin). field32 t.
  - eapply Forall_impl; [exact Hg|]. intros [gs ge] [G1 G2]. cbn in G1, G2. unfold gap_bytes. cbn [gap_start gap_end].
    f_equal; [field16 gs | field16 ge].
Qed.
