(* ===== verification/SctpPacket.v ===== *)
(** * SCTP packets (includes/webrtc/net/dcsctp/packet)

    The packet builder, the packet parser, and the validation of received selective
    acknowledgements.  The chunks a packet carries are known to it only through
    [WireFormat] and its round-trip law. *)

From S2P Require Import Prelude SctpWire.
Open Scope Z_scope.
Open Scope parse_scope.

(** ** chunk_validators.cc *)

Fixpoint blocks_valid (prev_end : Z) (gaps : list GapAckBlock) : bool :=
  match gaps with
  | [] => true
  | g :: gaps' =>
    if gap_end g <? gap_start g then false
    else if gap_start g <=? prev_end + 1 then false
    else blocks_valid (gap_end g) gaps'
  end.
Definition Validate (sack : SackChunk) : bool := blocks_valid 0 (gap_ack_blocks_ sack).

(** The loop that merges overlapping ranges; [back] is [merged.back()]. *)
Fixpoint merge_ranges (back : GapAckBlock) (gaps : list GapAckBlock) : list GapAckBlock :=
  match gaps with
  | [] => [back]
  | g :: gaps' =>
    if gap_start g <=? gap_end back + 1
    then merge_ranges (mkGap (gap_start back) (Z.max (gap_end back) (gap_end g))) gaps'
    else back :: merge_ranges g gaps'
  end.

Definition starts_before (a b : GapAckBlock) : Prop := gap_start a ≤ gap_start b.
#[export] Instance starts_before_dec a b : Decision (starts_before a b).
Proof. unfold starts_before. apply _. Defined.

Definition Clean (sack : SackChunk) : SackChunk :=
  if Validate sack then sack else
  let kept := List.filter (λ g, gap_start g <? gap_end g) (gap_ack_blocks_ sack) in
  let with_blocks b := mkSack (cumulative_tsn_ack_ sack) (a_rwnd_ sack) b (sack_duplicate_tsns_ sack) in
  if (length kept <=? 1)%nat then with_blocks kept else
  match merge_sort starts_before kept with
  | [] => with_blocks []
  | first :: rest => with_blocks (merge_ranges first rest)
  end.

(** ** sctp_packet.cc

    The CRC-32C itself belongs to a third-party library: a parameter. *)

Section Packet.
Variable crc32c_value : list Z → Z.

Definition GenerateCrc32C (data : list Z) : Z :=
  let crc32c := crc32c_value data in
  let byte0 := wrap 8 crc32c in
  let byte1 := wrap 8 (Z.shiftr crc32c 8) in
  let byte2 := wrap 8 (Z.shiftr crc32c 16) in
  let byte3 := wrap 8 (Z.shiftr crc32c 24) in
  Z.lor (Z.lor (Z.lor (Z.shiftl byte0 24) (Z.shiftl byte1 16)) (Z.shiftl byte2 8)) byte3.

Record DcSctpOptions := mkOptions {
  local_port : Z;
  remote_port : Z;
  mtu : Z;
  disable_checksum_verification : bool;
  zero_checksum_acceptable : bool
}.

Record Builder := mkBuilder {
  verification_tag_ : Z;
  source_port_ : Z;
  dest_port_ : Z;
  max_packet_size_ : Z;
  out_ : list Z
}.
#[export] Instance Builder_eta : Eta Builder := λ b,
  mkBuilder (verification_tag_ b) (source_port_ b) (dest_port_ b) (max_packet_size_ b) (out_ b).

Definition Builder_new (verification_tag : Z) (options : DcSctpOptions) : Builder :=
  mkBuilder verification_tag (wrap 16 (local_port options)) (wrap 16 (remote_port options)) (RoundDownTo4 (mtu options)) [].

Definition packet_header (b : Builder) : list Z :=
  Store32 4 (verification_tag_ b) (Store16 2 (dest_port_ b) (Store16 0 (source_port_ b) (replicate 12 0))).

(** [SerializeTo] is the chunk's. *)
Definition Builder_Add (SerializeTo : list Z → parsed (list Z)) (b : Builder) : parsed Builder :=
  let* out := SerializeTo (match out_ b with [] => packet_header b | out => out end) in
  Parsed (b <| out_ := if negb (Z.of_nat (length out) mod 4 =? 0)
                       then vec_resize (Z.to_nat (RoundUpTo4 (Z.of_nat (length out)))) out else out |>).

Definition bytes_remaining (b : Builder) : Z :=
  match out_ b with
  | [] => max_packet_size_ b - 12
  | out => if max_packet_size_ b <? Z.of_nat (length out) then 0 else max_packet_size_ b - Z.of_nat (length out)
  end.

Definition Builder_Build (write_checksum : bool) (b : Builder) : list Z * Builder :=
  let out := out_ b in
  (match out with
   | [] => []
   | _ => if write_checksum then Store32 8 (GenerateCrc32C out) out else out
   end, b <| out_ := [] |>).

Record CommonHeader := mkCommon { source_port : Z; destination_port : Z; verification_tag : Z; checksum : Z }.
Record ChunkDescriptor := mkDesc { desc_type : Z; desc_flags : Z; desc_data : list Z }.
Record SctpPacket := mkPacket { common_header_ : CommonHeader; packet_data_ : list Z; descriptors_ : list ChunkDescriptor }.

(** The loop over the chunks; every round takes at least four bytes, so that the number of
    bytes is enough fuel.  Without fuel the answer is that of a failed check. *)
Fixpoint parse_descriptors (fuel : nat) (descriptor_data : list Z) : parsed (list ChunkDescriptor) :=
  match descriptor_data with
  | [] => Parsed []
  | _ =>
    match fuel with
    | O => CheckFailed
    | S fuel' =>
      if (length descriptor_data <? 4)%nat then Rejected else
      let* chunk_header := BoundedByteReader 4 descriptor_data in
      let padded_length := wrap 16 (RoundUpTo4 (Load16 2 chunk_header)) in
      if Z.of_nat (length descriptor_data) <? padded_length then Rejected
      else if padded_length <? 4 then Rejected
      else
        let* rest := parse_descriptors fuel' (drop (Z.to_nat padded_length) descriptor_data) in
        Parsed (mkDesc (Load8 0 chunk_header) (Load8 1 chunk_header) (take (Z.to_nat padded_length) descriptor_data) :: rest)
    end
  end.

Definition SctpPacket_Parse (data : list Z) (options : DcSctpOptions) : parsed SctpPacket :=
  if (length data <? 12 + 4)%nat || (65535 <? Z.of_nat (length data)) then Rejected else
  let* reader := BoundedByteReader 12 data in
  let header := mkCommon (Load16 0 reader) (Load16 2 reader) (Load32 4 reader) (Load32 8 reader) in
  let unverified := disable_checksum_verification options || (zero_checksum_acceptable options && (checksum header =? 0)) in
  let zeroed := Store32 8 0 data in
  if negb unverified && negb (GenerateCrc32C zeroed =? checksum header) then Rejected else
  let data_copy := if unverified then data else Store32 8 (checksum header) zeroed in
  let* descriptors := parse_descriptors (length data_copy) (drop 12 data_copy) in
  Parsed (mkPacket header data_copy descriptors).
End Packet.

(** ** Padding *)

(** The number of bytes that fill [n] up to a multiple of four. *)
Definition padding (n : nat) : nat := Z.to_nat ((- Z.of_nat n) mod 4).

Lemma padding_bound n : (padding n ≤ 3)%nat.
Proof. unfold padding. pose proof (Z.mod_pos_bound (- Z.of_nat n) 4). lia. Qed.

Lemma RoundUpTo4_padding n : RoundUpTo4 (Z.of_nat n) = Z.of_nat (n + padding n).
Proof.
  unfold RoundUpTo4, padding. rewrite land_m4. pose proof (Z.mod_pos_bound (- Z.of_nat n) 4 ltac:(lia)).
  pose proof (Z.mod_pos_bound (Z.of_nat n + 3) 4 ltac:(lia)). pose proof (Z.div_mod (- Z.of_nat n) 4 ltac:(lia)).
  pose proof (Z.div_mod (Z.of_nat n + 3) 4 ltac:(lia)). lia.
Qed.

Lemma padding_mod4 n : Z.of_nat (n + padding n) mod 4 = 0.
Proof.
  rewrite <- RoundUpTo4_padding. unfold RoundUpTo4. rewrite land_m4. apply Z.mod_divide; [lia|].
  exists ((Z.of_nat n + 3) / 4). pose proof (Z.div_mod (Z.of_nat n + 3) 4 ltac:(lia)). lia.
Qed.

Lemma padding_aligned n : Z.of_nat n mod 4 = 0 → padding n = 0%nat.
Proof. unfold padding. intros H. apply Z.mod_opp_l_z in H; [|lia]. by rewrite H. Qed.

Lemma padding_add a b : Z.of_nat a mod 4 = 0 → padding (a + b) = padding b.
Proof.
  intros H. unfold padding. f_equal. apply Z.mod_divide in H as [k Hk]; [|lia].
  replace (- Z.of_nat (a + b)) with (- Z.of_nat b + (- k) * 4) by lia. apply Z.mod_add. lia.
Qed.

Definition padded (bytes : list Z) : list Z := bytes ++ replicate (padding (length bytes)) 0.

Lemma length_padded bytes : length (padded bytes) = (length bytes + padding (length bytes))%nat.
Proof. unfold padded. by rewrite length_app, length_replicate. Qed.

(** ** Building *)

Lemma Builder_Add_out b bytes SerializeTo :
  let out := match out_ b with [] => packet_header b | out => out end in
  (∀ o, SerializeTo o = Parsed (o ++ bytes)) → Z.of_nat (length out) mod 4 = 0 →
  Builder_Add SerializeTo b = Parsed (b <| out_ := out ++ padded bytes |>).
Proof.
  intros out Hs Hout. unfold Builder_Add. fold out. rewrite Hs. cbn [pbind]. set (n := length (out ++ bytes)).
  assert (padding n = padding (length bytes)) as Hp by (unfold n; rewrite length_app; by apply padding_add).
  do 2 f_equal. destruct (Z.eqb_spec (Z.of_nat n mod 4) 0) as [H|H]; cbn [negb].
  - apply padding_aligned in H. unfold padded. rewrite <- Hp, H. cbn. by rewrite app_nil_r.
  - rewrite RoundUpTo4_padding, Nat2Z.id. unfold vec_resize. rewrite take_ge by (unfold n; lia). unfold padded. fold n.
    replace (n + padding n - n)%nat with (padding n) by lia. by rewrite Hp, <- app_assoc.
Qed.

(** A chunk of any kind, known by its format. *)
Record any_chunk := AnyChunk { ac_type : Type; ac_format : WireFormat ac_type; ac_chunk : ac_type }.
Definition ac_ok (a : any_chunk) : Prop := RoundTrips (ac_format a) ∧ fmt_wf (ac_format a) (ac_chunk a).

Fixpoint add_all (chunks : list any_chunk) (b : Builder) : parsed Builder :=
  match chunks with
  | [] => Parsed b
  | a :: chunks' => let* b' := Builder_Add (fmt_serialize (ac_format a) (ac_chunk a)) b in add_all chunks' b'
  end.

(** The bytes a chunk is written as. *)
Definition wire_bytes (a : any_chunk) (bytes : list Z) : Prop :=
  ∃ type flags body, bytes = tlv_header type (Z.of_nat (4 + length body)) flags ++ body
    ∧ Z.of_nat (4 + length body) < 2 ^ 16 ∧ (∀ out, fmt_serialize (ac_format a) (ac_chunk a) out = Parsed (out ++ bytes))
    ∧ ∀ pad, (length pad ≤ 3)%nat → (Z.of_nat (4 + length body) mod 4 = 0 → pad = []) → fmt_parse (ac_format a) (bytes ++ pad) = Parsed (ac_chunk a).

Lemma ac_ok_bytes chunks : Forall ac_ok chunks → ∃ bs, Forall2 wire_bytes chunks bs.
Proof.
  induction 1 as [|a chunks [Hr Hw] Hs [bs IH]]; [by exists []|].
  destruct (Hr _ Hw) as (type & flags & body & H1 & H2 & H3).
  exists ((tlv_header type (Z.of_nat (4 + length body)) flags ++ body) :: bs). constructor; [|done]. by exists type, flags, body.
Qed.

Lemma padded_concat_mod4 (o : list Z) bytes : Z.of_nat (length o) mod 4 = 0 → Z.of_nat (length (o ++ padded bytes)) mod 4 = 0.
Proof.
  intros H. rewrite length_app, length_padded, Nat2Z.inj_add, <- Z.add_mod_idemp_l, H by lia. apply padding_mod4.
Qed.

Lemma add_all_out chunks bs b :
  Forall2 wire_bytes chunks bs → out_ b ≠ [] → Z.of_nat (length (out_ b)) mod 4 = 0 →
  add_all chunks b = Parsed (b <| out_ := out_ b ++ concat (padded <$> bs) |>).
Proof.
  intros H. revert b. induction H as [|a bytes chunks bs Ha Hs IH]; intros b Hb Hm; cbn [add_all concat fmap list_fmap].
  { rewrite app_nil_r. by destruct b. }
  destruct Ha as (type & flags & body & -> & _ & Hser & _). rewrite (Builder_Add_out b _ _ Hser).
  - cbn [pbind]. destruct (out_ b) as [|o os] eqn:E; [done|]. rewrite IH; [|done|].
    + cbn. by rewrite <- app_assoc.
    + by apply padded_concat_mod4.
  - by destruct (out_ b).
Qed.

Lemma add_all_new chunks bs tag options :
  Forall2 wire_bytes chunks bs → chunks ≠ [] →
  add_all chunks (Builder_new tag options)
  = Parsed (Builder_new tag options <| out_ := packet_header (Builder_new tag options) ++ concat (padded <$> bs) |>).
Proof.
  intros H Hne. destruct H as [|a bytes chunks bs Ha Hs]; [done|]. cbn [add_all concat fmap list_fmap].
  destruct Ha as (type & flags & body & -> & _ & Hser & _). rewrite (Builder_Add_out (Builder_new tag options) _ _ Hser) by done.
  cbn [pbind]. rewrite (add_all_out chunks bs); [|done|done|by apply padded_concat_mod4]. cbn. done.
Qed.

(** ** Parsing *)

Lemma parse_descriptors_chunk fuel type flags body rest :
  let bytes := tlv_header type (Z.of_nat (4 + length body)) flags ++ body in
  Z.of_nat (length (padded bytes)) < 2 ^ 16 →
  parse_descriptors (S fuel) (padded bytes ++ rest)
  = (let* r := parse_descriptors fuel rest in Parsed (mkDesc (wrap 8 type) (wrap 8 flags) (padded bytes) :: r)).
Proof.
  intros bytes Hlen. set (data := padded bytes ++ rest).
  assert (length bytes = 4 + length body)%nat as Hb by (unfold bytes; by rewrite length_app).
  assert (length data = length (padded bytes) + length rest)%nat as Hd by (unfold data; by rewrite length_app).
  rewrite length_padded in Hlen, Hd.
  assert (Load16 2 data = Z.of_nat (4 + length body)) as H16.
  { unfold data, padded, bytes, tlv_header. rewrite <- !app_assoc, (app_assoc (be8 _) (be8 _)), Load16_app, Load16_be16 by done.
    apply wrap_small. unfold uint. lia. }
  change (parse_descriptors (S fuel) data) with
    (if (length data <? 4)%nat then Rejected else
     let* chunk_header := BoundedByteReader 4 data in
     let padded_length := wrap 16 (RoundUpTo4 (Load16 2 chunk_header)) in
     if Z.of_nat (length data) <? padded_length then Rejected
     else if padded_length <? 4 then Rejected
     else let* rest := parse_descriptors fuel (drop (Z.to_nat padded_length) data) in
       Parsed (mkDesc (Load8 0 chunk_header) (Load8 1 chunk_header) (take (Z.to_nat padded_length) data) :: rest)).
  rewrite (proj2 (Nat.ltb_ge _ _)) by lia. unfold BoundedByteReader. rewrite (proj2 (Nat.leb_le _ _)) by lia. cbn [pbind]. cbv zeta.
  rewrite H16, <- Hb, RoundUpTo4_padding, wrap_small by (unfold uint; lia).
  rewrite (proj2 (Z.ltb_ge _ _)), (proj2 (Z.ltb_ge _ 4)) by lia. rewrite Nat2Z.id.
  unfold data. rewrite drop_app_length', take_app_length' by by rewrite length_padded. done.
Qed.

Lemma parse_descriptors_all chunks bs fuel :
  Forall2 wire_bytes chunks bs → (length (concat (padded <$> bs)) ≤ fuel)%nat →
  Z.of_nat (length (concat (padded <$> bs))) < 2 ^ 16 →
  ∃ ds, parse_descriptors fuel (concat (padded <$> bs)) = Parsed ds
    ∧ Forall2 (λ a d, fmt_parse (ac_format a) (desc_data d) = Parsed (ac_chunk a)) chunks ds.
Proof.
  intros H. revert fuel. induction H as [|a bytes chunks bs Ha Hs IH]; intros fuel Hf Hl.
  { exists []. split; [by destruct fuel|constructor]. }
  cbn [concat fmap list_fmap] in *. rewrite length_app in Hf, Hl.
  destruct Ha as (type & flags & body & -> & Hsize & _ & Hparse). set (bytes := tlv_header _ _ _ ++ body) in *.
  assert (4 ≤ length (padded bytes))%nat as H4 by (rewrite length_padded; unfold bytes; rewrite length_app; cbn; lia).
  destruct fuel as [|fuel]; [lia|].
  pose proof (parse_descriptors_chunk fuel type flags body (concat (padded <$> bs)) ltac:(fold bytes; lia)) as Hstep.
  fold bytes in Hstep. rewrite Hstep.
  destruct (IH fuel) as (ds & Hds & Hall); [lia|lia|]. rewrite Hds. cbn [pbind].
  eexists. split; [done|]. constructor; [|done]. cbn [desc_data]. apply Hparse; [rewrite length_replicate; apply padding_bound|].
  intros H4m. unfold bytes. rewrite length_app. by rewrite padding_aligned.
Qed.

Section PacketProofs.
Variable crc32c_value : list Z → Z.

Lemma GenerateCrc32C_uint data : uint 32 (GenerateCrc32C crc32c_value data).
Proof.
  unfold GenerateCrc32C. cbv zeta. set (v := crc32c_value data). rewrite lor_bytes by apply wrap_8. unfold uint.
  pose proof (wrap_8 v). pose proof (wrap_8 (Z.shiftr v 8)). pose proof (wrap_8 (Z.shiftr v 16)). pose proof (wrap_8 (Z.shiftr v 24)).
  change (2 ^ 8) with 256 in *. change (2 ^ 32) with 4294967296. lia.
Qed.

(** A packet as its ports, tag, checksum and chunks. *)
Definition packet_bytes (src dst tag sum : Z) (chunks : list Z) : list Z :=
  (be16 src ++ be16 dst ++ be32 tag) ++ be32 sum ++ chunks.

Lemma packet_checksum_stored src dst tag sum sum' chunks :
  Store32 8 sum' (packet_bytes src dst tag sum chunks) = packet_bytes src dst tag sum' chunks.
Proof. apply (store_at (be16 src ++ be16 dst ++ be32 tag) (be32 sum) (be32 sum')). done. Qed.

Lemma parse_packet src dst tag sum chunks options :
  uint 16 src → uint 16 dst → uint 32 tag → uint 32 sum → (4 ≤ length chunks)%nat → Z.of_nat (12 + length chunks) ≤ 65535 →
  SctpPacket_Parse crc32c_value (packet_bytes src dst tag sum chunks) options
  = if disable_checksum_verification options || (zero_checksum_acceptable options && (sum =? 0))
       || (GenerateCrc32C crc32c_value (packet_bytes src dst tag 0 chunks) =? sum)
    then (let* ds := parse_descriptors (12 + length chunks) chunks in
          Parsed (mkPacket (mkCommon src dst tag sum) (packet_bytes src dst tag sum chunks) ds))
    else Rejected.
Proof.
  intros Hs Hd Ht Hsum H4 Hl. set (data := packet_bytes src dst tag sum chunks).
  assert (length data = 12 + length chunks)%nat as Hlen by done. unfold SctpPacket_Parse.
  rewrite (proj2 (Nat.ltb_ge _ _)), (proj2 (Z.ltb_ge _ _)) by lia. cbn [orb]. unfold BoundedByteReader.
  rewrite (proj2 (Nat.leb_le _ _)) by lia. cbn [pbind]. cbv zeta.
  assert (Load16 0 data = src) as -> by field16 src. assert (Load16 2 data = dst) as -> by field16 dst.
  assert (Load32 4 data = tag) as -> by field32 tag. assert (Load32 8 data = sum) as -> by field32 sum.
  cbn [checksum]. unfold data. rewrite !packet_checksum_stored.
  destruct (disable_checksum_verification options || _) eqn:E; cbn [negb andb orb]; [done|].
  destruct (GenerateCrc32C _ _ =? sum); cbn [negb]; done.
Qed.

(** What is built is read back. *)
Lemma packet_read_back chunks tag options options' write_checksum :
  Forall ac_ok chunks → chunks ≠ [] → uint 16 (local_port options) → uint 16 (remote_port options) → uint 32 tag →
  (write_checksum = true ∨ zero_checksum_acceptable options' = true ∨ disable_checksum_verification options' = true) →
  ∃ b, add_all chunks (Builder_new tag options) = Parsed b ∧
  let data := (Builder_Build crc32c_value write_checksum b).1 in
  Z.of_nat (length data) ≤ 65535 →
  ∃ p, SctpPacket_Parse crc32c_value data options' = Parsed p
    ∧ source_port (common_header_ p) = local_port options ∧ destination_port (common_header_ p) = remote_port options
    ∧ verification_tag (common_header_ p) = tag
    ∧ Forall2 (λ a d, fmt_parse (ac_format a) (desc_data d) = Parsed (ac_chunk a)) chunks (descriptors_ p).
Proof.
  intros Hok Hne Hlp Hrp Htag Hsum. destruct (ac_ok_bytes chunks Hok) as [bs Hbs].
  eexists. split; [by apply (add_all_new chunks bs)|]. cbv zeta. set (cs := concat (padded <$> bs)).
  set (lp := wrap 16 (local_port options)). set (rp := wrap 16 (remote_port options)). set (out := packet_bytes lp rp tag 0 cs).
  assert (lp = local_port options) as Elp by by apply wrap_small. assert (rp = remote_port options) as Erp by by apply wrap_small.
  set (sum := if write_checksum then GenerateCrc32C crc32c_value out else 0).
  assert ((Builder_Build crc32c_value write_checksum (Builder_new tag options <| out_ := packet_header (Builder_new tag options) ++ cs |>)).1
    = packet_bytes lp rp tag sum cs) as ->.
  { unfold sum. destruct write_checksum; [|done]. apply (packet_checksum_stored _ _ _ 0). }
  assert (length (packet_bytes lp rp tag sum cs) = 12 + length cs)%nat as -> by done.
  intros Hl. assert (4 ≤ length cs)%nat as H4.
  { destruct Hbs as [|a bytes chunks' bs' Ha _]; [done|]. destruct Ha as (? & ? & body & -> & _). unfold cs. cbn [fmap list_fmap concat].
    rewrite length_app, length_padded, length_app. cbn. lia. }
  assert (uint 32 sum) as Hs by (unfold sum; destruct write_checksum; [apply GenerateCrc32C_uint | done]).
  rewrite parse_packet by congruence. fold out.
  assert (disable_checksum_verification options' || (zero_checksum_acceptable options' && (sum =? 0))
    || (GenerateCrc32C crc32c_value out =? sum) = true) as ->.
  { unfold sum. destruct write_checksum; [by rewrite Z.eqb_refl, orb_true_r|]. destruct Hsum as [|[-> | ->]]; [done|..]; by destruct (disable_checksum_verification options'). }
  destruct (parse_descriptors_all chunks bs (12 + length cs) Hbs) as (ds & Hds & Hall); [fold cs; lia|fold cs; lia|].
  fold cs in Hds. rewrite Hds. cbn [pbind]. by eexists.
Qed.
End PacketProofs.

(** ** Parsers and their checks *)

Lemma ParseTLV_safe cfg data : (4 ≤ kHeaderSize cfg)%nat →
  ParseTLV cfg data = Rejected ∨ ∃ r, ParseTLV cfg data = Parsed r ∧ (kHeaderSize cfg ≤ length r)%nat.
Proof.
  intros H4. unfold ParseTLV. destruct (Nat.ltb_spec (length data) (kHeaderSize cfg)); [by left|].
  assert (BoundedByteReader 4 data = Parsed data) as -> by (unfold BoundedByteReader; by rewrite (proj2 (Nat.leb_le _ _)) by lia).
  cbn [pbind]. cbv zeta. destruct (negb _); [by left|]. set (len := Load16 2 data).
  assert (∀ n, (kHeaderSize cfg ≤ n ≤ length data)%nat →
    ∃ r, BoundedByteReader (kHeaderSize cfg) (take n data) = Parsed r ∧ (kHeaderSize cfg ≤ length r)%nat) as Hread.
  { intros n Hn. unfold BoundedByteReader. rewrite length_take, (proj2 (Nat.leb_le _ _)) by lia. eexists. split; [done|].
    rewrite length_take. lia. }
  destruct (_ =? 0).
  - destruct (Z.eqb_spec len (Z.of_nat (kHeaderSize cfg))) as [->|]; [|by left]. destruct (Nat.eqb_spec (length data) (kHeaderSize cfg)); [|by left].
    right. apply Hread. lia.
  - destruct (Z.ltb_spec (Z.of_nat (length data)) len); [by left|]. destruct (Z.ltb_spec len (Z.of_nat (kHeaderSize cfg))); [by left|].
    cbn [orb]. destruct (3 <? _); [by left|]. destruct (negb _); [by left|]. right. apply Hread. lia.
Qed.

Lemma SackChunk_Parse_safe data : SackChunk_Parse data ≠ CheckFailed.
Proof.
  unfold SackChunk_Parse. destruct (ParseTLV_safe SackChunkConfig data) as [-> | (r & -> & Hr)]; [cbn; lia|done|]. cbn [pbind]. cbv zeta.
  cbn in Hr. destruct (Nat.eqb_spec (length (variable_data 16 r)) (Z.to_nat (Load16 12 r) * 4 + Z.to_nat (Load16 14 r) * 4)) as [E|]; [|done].
  cbn [negb]. unfold variable_data in E. rewrite length_drop in E.
  destruct (read_records_in_bounds 16 4 (λ r, mkGap (Load16 0 r) (Load16 2 r)) (Z.to_nat (Load16 12 r)) 0 r) as [g ->]; [lia|].
  destruct (read_records_in_bounds 16 4 (Load32 0) (Z.to_nat (Load16 14 r)) (Z.to_nat (Load16 12 r) * 4) r) as [d ->]; [lia|done].
Qed.

Lemma skipped_in_bounds size r : (8 ≤ length r)%nat → (8 + 0 + length (variable_data 8 r) / size * size ≤ length r)%nat.
Proof. intros H. unfold variable_data. rewrite length_drop, Nat.mul_comm. pose proof (Nat.Div0.mul_div_le (length r - 8) size). lia. Qed.

Lemma ForwardTsnChunk_Parse_safe data : ForwardTsnChunk_Parse data ≠ CheckFailed ∧ IForwardTsnChunk_Parse data ≠ CheckFailed.
Proof.
  unfold ForwardTsnChunk_Parse, IForwardTsnChunk_Parse. split.
  - destruct (ParseTLV_safe ForwardTsnChunkConfig data) as [-> | (r & -> & Hr)]; [cbn; lia|done|]. cbn [pbind].
    destruct (read_records_in_bounds 8 4 (λ r, mkSkipped (Load16 0 r) (Load16 2 r) false 0) (length (variable_data 8 r) / 4) 0 r) as [g ->];
      [by apply skipped_in_bounds|done].
  - destruct (ParseTLV_safe IForwardTsnChunkConfig data) as [-> | (r & -> & Hr)]; [cbn; lia|done|]. cbn [pbind].
    destruct (read_records_in_bounds 8 8 (λ r, mkSkipped (Load16 0 r) 0 (negb (Z.land (Load8 3 r) 1 =? 0)) (Load32 4 r))
      (length (variable_data 8 r) / 8) 0 r) as [g ->]; [by apply skipped_in_bounds|done].
Qed.

(** One round of the loop, on bytes that are not empty. *)
Lemma parse_descriptors_step fuel d :
  d ≠ [] → parse_descriptors (S fuel) d = Rejected ∨
  ∃ n desc, (4 ≤ n ≤ length d)%nat ∧ desc_data desc = take n d ∧
    parse_descriptors (S fuel) d = (let* rest := parse_descriptors fuel (drop n d) in Parsed (desc :: rest)).
Proof.
  intros Hne. destruct d as [|c d']; [done|]. set (d := c :: d') in *.
  change (parse_descriptors (S fuel) d) with
    (if (length d <? 4)%nat then Rejected else
     let* chunk_header := BoundedByteReader 4 d in
     let padded_length := wrap 16 (RoundUpTo4 (Load16 2 chunk_header)) in
     if Z.of_nat (length d) <? padded_length then Rejected
     else if padded_length <? 4 then Rejected
     else let* rest := parse_descriptors fuel (drop (Z.to_nat padded_length) d) in
       Parsed (mkDesc (Load8 0 chunk_header) (Load8 1 chunk_header) (take (Z.to_nat padded_length) d) :: rest)).
  destruct (Nat.ltb_spec (length d) 4); [by left|]. unfold BoundedByteReader. rewrite (proj2 (Nat.leb_le _ _)) by lia. cbn [pbind]. cbv zeta.
  set (len := wrap 16 _). destruct (Z.ltb_spec (Z.of_nat (length d)) len); [by left|]. destruct (Z.ltb_spec len 4); [by left|].
  right. exists (Z.to_nat len). eexists. split; [lia|]. split; [|done]. done.
Qed.

(** The descriptors cut the bytes into chunks of at least four, and nothing is left over. *)
Lemma parse_descriptors_cut fuel d : (length d ≤ fuel)%nat →
  parse_descriptors fuel d = Rejected ∨
  ∃ ds, parse_descriptors fuel d = Parsed ds ∧ concat (desc_data <$> ds) = d ∧ Forall (λ x, 4 ≤ length (desc_data x))%nat ds.
Proof.
  revert d. induction fuel as [|fuel IH]; intros d Hf.
  { destruct d; [|cbn in Hf; lia]. right. exists []. by split_and!. }
  destruct (decide (d = [])) as [->|Hne]; [right; exists []; by split_and!|].
  destruct (parse_descriptors_step fuel d Hne) as [->|(n & desc & Hn & Hd & ->)]; [by left|].
  destruct (IH (drop n d)) as [->|(ds & -> & Hc & Hall)]; [rewrite length_drop; lia|by left|]. right.
  exists (desc :: ds). split; [done|]. cbn [fmap list_fmap concat]. rewrite Hc, Hd, take_drop. split; [done|].
  constructor; [|done]. rewrite Hd, length_take. lia.
Qed.

Lemma length_Store32 off v buf : (off + 4 ≤ length buf)%nat → length (Store32 off v buf) = length buf.
Proof. intros H. unfold Store32, store. rewrite !length_app, length_take, length_drop. cbn [be32 length]. lia. Qed.

Section PacketSafety.
Variable crc32c_value : list Z → Z.

(** What a packet that is accepted looks like. *)
Lemma SctpPacket_Parse_cases data options :
  SctpPacket_Parse crc32c_value data options = Rejected ∨
  ∃ p, SctpPacket_Parse crc32c_value data options = Parsed p
    ∧ (16 ≤ length data)%nat ∧ Z.of_nat (length data) ≤ 65535 ∧ concat (desc_data <$> descriptors_ p) = drop 12 data
    ∧ Forall (λ x, 4 ≤ length (desc_data x))%nat (descriptors_ p)
    ∧ (disable_checksum_verification options = true ∨ (zero_checksum_acceptable options = true ∧ Load32 8 data = 0)
       ∨ GenerateCrc32C crc32c_value (Store32 8 0 data) = Load32 8 data).
Proof.
  unfold SctpPacket_Parse. destruct (Nat.ltb_spec (length data) (12 + 4)); [by left|].
  destruct (Z.ltb_spec 65535 (Z.of_nat (length data))); [by left|]. cbn [orb]. unfold BoundedByteReader.
  rewrite (proj2 (Nat.leb_le _ _)) by lia. cbn [pbind checksum]. cbv zeta. cbn [checksum].
  set (skip := disable_checksum_verification options || _). destruct (negb skip && negb (_ =? _)) eqn:E; [by left|].
  set (copy := if skip then data else _).
  assert (length copy = length data) as Hlen by (unfold copy; destruct skip; [done|]; rewrite length_Store32; rewrite length_Store32; lia).
  assert (drop 12 copy = drop 12 data) as Hdrop.
  { unfold copy. destruct skip; [done|]. clear -H. do 12 (destruct data as [|? data]; [cbn in H; lia|]). done. }
  destruct (parse_descriptors_cut (length copy) (drop 12 copy)) as [->|(ds & -> & Hc & Hall)]; [rewrite length_drop; lia|by left|].
  right. eexists. split; [done|]. cbn [descriptors_]. split_and!; [lia|lia|by rewrite Hc|done|]. unfold skip in E. clear -E.
  destruct (disable_checksum_verification options); [by left|]. right. destruct (zero_checksum_acceptable options); cbn in E; [|right; lia].
  destruct (Z.eqb_spec (Load32 8 data) 0); [by left|]. right. cbn in E. lia.
Qed.
End PacketSafety.

(** ** Validation of acknowledgements *)

Definition in_gap (t : Z) (g : GapAckBlock) : bool := (gap_start g <=? t) && (t <=? gap_end g).
Definition in_gaps (t : Z) (gaps : list GapAckBlock) : bool := existsb (in_gap t) gaps.

(** Merging sorted blocks keeps what they cover and leaves them apart. *)
Lemma merge_ranges_spec back gaps :
  gap_start back ≤ gap_end back → Forall (λ g, gap_start g ≤ gap_end g ∧ gap_start back ≤ gap_start g) gaps →
  StronglySorted starts_before gaps →
  ∃ e rest, merge_ranges back gaps = mkGap (gap_start back) e :: rest ∧ gap_end back ≤ e ∧ blocks_valid e rest = true
    ∧ ∀ t, in_gaps t (merge_ranges back gaps) = in_gap t back || in_gaps t gaps.
Proof.
  revert back. induction gaps as [|g gaps IH]; intros back Hb Hall Hsort; cbn [merge_ranges].
  { exists (gap_end back), []. destruct back. split_and!; try done; lia. }
  apply list.Forall_cons in Hall as [[Hg1 Hg2] Hall]. apply StronglySorted_inv in Hsort as [Hsort Hg].
  destruct (Z.leb_spec (gap_start g) (gap_end back + 1)) as [Hm|Hm].
  - destruct (IH (mkGap (gap_start back) (Z.max (gap_end back) (gap_end g)))) as (e & rest & E & He & Hv & Hin);
      [cbn; lia | done | done |]. cbn in E, He. exists e, rest. split_and!; [done|lia|done|].
    intros t. rewrite Hin. change (in_gaps t (g :: gaps)) with (in_gap t g || in_gaps t gaps).
    unfold in_gap. cbn [gap_start gap_end]. destruct (in_gaps t gaps); lia.
  - destruct (IH g Hg1) as (e & rest & E & He & Hv & Hin); [|done|].
    { apply Forall_forall. intros x Hx. rewrite !Forall_forall in *. split; [by apply Hall | by apply Hg]. }
    exists (gap_end back), (merge_ranges g gaps). split_and!; [by destruct back | lia | |].
    + rewrite E. cbn. rewrite Hv. rewrite (proj2 (Z.ltb_ge _ _)), (proj2 (Z.leb_gt _ _)) by lia. done.
    + intros t. cbn [in_gaps existsb]. by rewrite <- Hin.
Qed.

Lemma in_gaps_perm t l l' : l ≡ₚ l' → in_gaps t l = in_gaps t l'.
Proof.
  unfold in_gaps. induction 1; cbn; try congruence. by rewrite !orb_assoc, (orb_comm (in_gap t y)).
Qed.

#[export] Instance starts_before_trans : Transitive starts_before.
Proof. unfold starts_before. intros x y z. lia. Qed.
#[export] Instance starts_before_total : Total starts_before.
Proof. unfold starts_before. intros x y. lia. Qed.

(** The blocks of a list, apart from each other, and the first not before [start]. *)
Lemma blocks_valid_cons p s e rest : blocks_valid p (mkGap s e :: rest) = (s <=? e) && (p + 1 <? s) && blocks_valid e rest.
Proof. cbn. destruct (Z.ltb_spec e s), (Z.leb_spec s (p + 1)), (Z.leb_spec s e), (Z.ltb_spec (p + 1) s); try done; lia. Qed.

Lemma Clean_spec sack :
  Validate sack = false →
  let kept := List.filter (λ g, gap_start g <? gap_end g) (gap_ack_blocks_ sack) in
  (∀ t, in_gaps t (gap_ack_blocks_ (Clean sack)) = in_gaps t kept)
  ∧ match gap_ack_blocks_ (Clean sack) with [] => True | g :: rest => blocks_valid (gap_start g - 2) (g :: rest) = true end.
Proof.
  intros Hv kept. unfold Clean. rewrite Hv. fold kept. cbv zeta.
  assert (Forall (λ g, gap_start g < gap_end g) kept) as Hk.
  { apply Forall_forall. intros g [_ Hg]%list_elem_of_In%filter_In. lia. }
  destruct (Nat.leb_spec (length kept) 1) as [Hl|Hl]; cbn [gap_ack_blocks_].
  { split; [done|]. destruct kept as [|g [|]]; [done| |cbn in Hl; lia]. apply list.Forall_cons in Hk as [Hg _].
    destruct g as [s e]. cbn in *. rewrite (proj2 (Z.ltb_ge e s)), (proj2 (Z.leb_gt s _)) by lia. done. }
  pose proof (merge_sort_Permutation starts_before kept) as Hp. pose proof (StronglySorted_merge_sort starts_before kept) as Hs.
  destruct (merge_sort starts_before kept) as [|first rest] eqn:E.
  { apply Permutation_nil in Hp. rewrite Hp in Hl. cbn in Hl. lia. }
  apply StronglySorted_inv in Hs as [Hs Hfirst]. rewrite <- Hp in Hk. apply list.Forall_cons in Hk as [H1 H2].
  destruct (merge_ranges_spec first rest) as (e & rest' & Em & He & Hval & Hin); [lia| |done|].
  { apply Forall_forall. intros x Hx. rewrite !Forall_forall in *. specialize (H2 x Hx). specialize (Hfirst x Hx). unfold starts_before in *. lia. }
  cbn [gap_ack_blocks_]. split.
  - intros t. rewrite Hin. rewrite <- (in_gaps_perm t _ _ Hp). done.
  - rewrite Em, blocks_valid_cons. cbn [gap_start]. rewrite Hval. rewrite (proj2 (Z.leb_le _ _)), (proj2 (Z.ltb_lt _ _)) by lia. done.
Qed.

Lemma clean_valid sack : Validate sack = true → Clean sack = sack.
Proof. intros H. unfold Clean. by rewrite H. Qed.

(** ** Properties *)

(** C15: Packets round-trip: any non-empty sequence of DATA, I-DATA, SACK, FORWARD-TSN and
    I-FORWARD-TSN chunks (or of any chunks whose format round-trips) put into one packet of
    at most 65535 bytes is accepted by the parser with its ports and verification tag, and
    each chunk is read back from its descriptor, whatever CRC function is used. *)
Theorem sctp_packet_roundtrip crc32c_value chunks tag options options' write_checksum :
  Forall ac_ok chunks → chunks ≠ [] → uint 16 (local_port options) → uint 16 (remote_port options) → uint 32 tag →
  (write_checksum = true ∨ zero_checksum_acceptable options' = true ∨ disable_checksum_verification options' = true) →
  ∃ b, add_all chunks (Builder_new tag options) = Parsed b ∧
  let data := (Builder_Build crc32c_value write_checksum b).1 in
  Z.of_nat (length data) ≤ 65535 →
  ∃ p, SctpPacket_Parse crc32c_value data options' = Parsed p
    ∧ source_port (common_header_ p) = local_port options ∧ destination_port (common_header_ p) = remote_port options
    ∧ verification_tag (common_header_ p) = tag
    ∧ Forall2 (λ a d, fmt_parse (ac_format a) (desc_data d) = Parsed (ac_chunk a)) chunks (descriptors_ p).
Proof. apply packet_read_back. Qed.

Definition sample_options : DcSctpOptions := mkOptions 5000 5000 1191 false false.
Definition sample_chunks : list any_chunk :=
  [AnyChunk _ DataChunk (mkChunk 0xFFFFFFFF (mkData 1 2 0 0 51 [104; 101; 108; 108; 111] true true false) true);
   AnyChunk _ Sack (mkSack 77 131072 [mkGap 2 3; mkGap 9 9] {[ 70; 71 ]});
   AnyChunk _ ForwardTsn (mkForward 80 [mkSkipped 1 5 false 0])].

Lemma sample_chunks_ok : Forall ac_ok sample_chunks.
Proof.
  repeat (apply List.Forall_cons; [split; [cbn; apply _|] |]); [..|constructor].
  - by repeat split.
  - split_and!; try done; [by repeat constructor|].
    intros t Ht. assert (t = 70 ∨ t = 71) as [-> | ->] by (cbn in Ht; set_solver); done.
  - split_and!; try done. by repeat constructor.
Qed.

Lemma sctp_packet_roundtrip_witness :
  ∃ b, add_all sample_chunks (Builder_new 0xDEADBEEF sample_options) = Parsed b ∧
  let data := (Builder_Build (fold_right Z.add 0) true b).1 in
  Z.of_nat (length data) ≤ 65535 →
  ∃ p, SctpPacket_Parse (fold_right Z.add 0) data sample_options = Parsed p
    ∧ source_port (common_header_ p) = 5000 ∧ destination_port (common_header_ p) = 5000
    ∧ verification_tag (common_header_ p) = 0xDEADBEEF
    ∧ Forall2 (λ a d, fmt_parse (ac_format a) (desc_data d) = Parsed (ac_chunk a)) sample_chunks (descriptors_ p).
Proof.
  apply (sctp_packet_roundtrip (fold_right Z.add 0) sample_chunks 0xDEADBEEF sample_options sample_options true);
    [apply sample_chunks_ok | discriminate | unfold uint; cbn; lia | unfold uint; cbn; lia | unfold uint; lia | by left].
Defined.

(** No bytes from the network make a parser read outside them: for arbitrary input the packet
    parser and the chunk parsers return a result or reject it, and never fail the run-time
    check of a reader, nor loop for ever. *)
Theorem sctp_parsers_never_fail_check crc32c_value data options :
  SctpPacket_Parse crc32c_value data options ≠ CheckFailed
  ∧ DataChunk_Parse data ≠ CheckFailed ∧ IDataChunk_Parse data ≠ CheckFailed ∧ SackChunk_Parse data ≠ CheckFailed
  ∧ ForwardTsnChunk_Parse data ≠ CheckFailed ∧ IForwardTsnChunk_Parse data ≠ CheckFailed.
Proof.
  destruct (ForwardTsnChunk_Parse_safe data) as [H1 H2]. split_and!; [| | |apply SackChunk_Parse_safe|done|done].
  - by destruct (SctpPacket_Parse_cases crc32c_value data options) as [-> | (p & -> & _)].
  - unfold DataChunk_Parse. by destruct (ParseTLV_safe DataChunkConfig data) as [-> | (r & -> & _)]; [cbn; lia|..].
  - unfold IDataChunk_Parse. by destruct (ParseTLV_safe IDataChunkConfig data) as [-> | (r & -> & _)]; [cbn; lia|..].
Qed.

(** A packet that is accepted has between 16 and 65535 bytes and, unless verification is off
    or a zero checksum is allowed, the right checksum; its descriptors cut what follows the
    header into chunks of at least four bytes, with nothing left over. *)
Theorem sctp_packet_accepted crc32c_value data options p :
  SctpPacket_Parse crc32c_value data options = Parsed p →
  (16 ≤ length data)%nat ∧ Z.of_nat (length data) ≤ 65535 ∧ concat (desc_data <$> descriptors_ p) = drop 12 data
  ∧ Forall (λ x, 4 ≤ length (desc_data x))%nat (descriptors_ p)
  ∧ (disable_checksum_verification options = true ∨ (zero_checksum_acceptable options = true ∧ Load32 8 data = 0)
     ∨ GenerateCrc32C crc32c_value (Store32 8 0 data) = Load32 8 data).
Proof.
  intros Hp. destruct (SctpPacket_Parse_cases crc32c_value data options) as [H|(p' & H & Hrest)]; rewrite Hp in H; [done|].
  injection H as <-. exact Hrest.
Qed.

Lemma sctp_packet_accepted_witness :
  let data := be16 5000 ++ be16 5000 ++ be32 7 ++ be32 0 ++ [0; 3; 0; 4] in
  let options := mkOptions 5000 5000 1191 false true in
  let p := mkPacket (mkCommon 5000 5000 7 0) data [mkDesc 0 3 [0; 3; 0; 4]] in
  (16 ≤ length data)%nat ∧ Z.of_nat (length data) ≤ 65535 ∧ concat (desc_data <$> descriptors_ p) = drop 12 data
  ∧ Forall (λ x, 4 ≤ length (desc_data x))%nat (descriptors_ p)
  ∧ (disable_checksum_verification options = true ∨ (zero_checksum_acceptable options = true ∧ Load32 8 data = 0)
     ∨ GenerateCrc32C (λ _, 1) (Store32 8 0 data) = Load32 8 data).
Proof.
  apply (sctp_packet_accepted (λ _, 1) (be16 5000 ++ be16 5000 ++ be32 7 ++ be32 0 ++ [0; 3; 0; 4])
    (mkOptions 5000 5000 1191 false true)
    (mkPacket (mkCommon 5000 5000 7 0) (be16 5000 ++ be16 5000 ++ be32 7 ++ be32 0 ++ [0; 3; 0; 4]) [mkDesc 0 3 [0; 3; 0; 4]])).
  by vm_compute.
Defined.

(** Cleaning a received acknowledgement keeps it when it is valid.  Otherwise the result
    acknowledges exactly what the blocks that end behind their start do, in blocks that are
    sorted, disjoint and not adjacent; the cumulative number, the window and the duplicates
    stay. *)
Theorem clean_sack_keeps_acks sack :
  (Validate sack = true → Clean sack = sack)
  ∧ (Validate sack = false →
     (∀ t, in_gaps t (gap_ack_blocks_ (Clean sack))
           = in_gaps t (List.filter (λ g, gap_start g <? gap_end g) (gap_ack_blocks_ sack)))
     ∧ match gap_ack_blocks_ (Clean sack) with [] => True | g :: rest => blocks_valid (gap_start g - 2) (g :: rest) = true end)
  ∧ cumulative_tsn_ack_ (Clean sack) = cumulative_tsn_ack_ sack ∧ a_rwnd_ (Clean sack) = a_rwnd_ sack
  ∧ sack_duplicate_tsns_ (Clean sack) = sack_duplicate_tsns_ sack.
Proof.
  split_and!; [apply clean_valid | apply Clean_spec |..]; unfold Clean; repeat case_match; done.
Qed.

(** Cleaning drops blocks of a single number, which are valid, and may leave a block that
    starts right behind the cumulative number, which is not: its result need not validate. *)
Theorem clean_sack_corner_cases :
  let s := mkSack 10 0 [mkGap 5 6; mkGap 3 3] ∅ in
  let s' := mkSack 10 0 [mkGap 1 4] ∅ in
  Validate (mkSack 10 0 [mkGap 3 3; mkGap 5 6] ∅) = true
  ∧ gap_ack_blocks_ (Clean s) = [mkGap 5 6] ∧ Clean s' = s' ∧ Validate (Clean s') = false.
Proof. by vm_compute. Qed.
