(* ===== verification/ReConfig.v ===== *)
(** * Reconfiguration parameters and chunks (includes/webrtc/net/dcsctp/packet/parameter,
    packet/chunk/reconfig_chunk.h, .cc)

    The six parameters of a RE-CONFIG chunk, the list of parameters, and the chunk. *)

From S2P Require Import Prelude SctpWire SctpPacket.
Open Scope Z_scope.

(** ** parameter/parameter.cc *)

Record ParameterDescriptor := mkParam { param_type : Z; param_data : list Z }.

(** The loop of [Parameters::descriptors]; a length of zero would keep it from ending, which is
    the failed check without fuel. *)
Fixpoint descriptors_loop (fuel : nat) (span : list Z) : parsed (list ParameterDescriptor) :=
  match span with
  | [] => Parsed []
  | _ =>
    match fuel with
    | O => CheckFailed
    | S fuel' =>
      let* header := BoundedByteReader 4 span in
      let type := Load16 0 header in
      let len := Load16 2 header in
      let desc := mkParam type (take (Z.to_nat len) span) in
      let length_with_padding := RoundUpTo4 len in
      if Z.of_nat (length span) <? length_with_padding then Parsed [desc]
      else let* rest := descriptors_loop fuel' (drop (Z.to_nat length_with_padding) span) in Parsed (desc :: rest)
    end
  end.
Definition descriptors (data : list Z) : parsed (list ParameterDescriptor) := descriptors_loop (length data) data.

Fixpoint validate_loop (fuel : nat) (span : list Z) : parsed unit :=
  match span with
  | [] => Parsed tt
  | _ =>
    match fuel with
    | O => CheckFailed
    | S fuel' =>
      if (length span <? 4)%nat then Rejected else
      let* header := BoundedByteReader 4 span in
      let len := Load16 2 header in
      if (len <? 4) || (Z.of_nat (length span) <? len) then Rejected else
      let length_with_padding := RoundUpTo4 len in
      if Z.of_nat (length span) <? length_with_padding then Parsed tt
      else validate_loop fuel' (drop (Z.to_nat length_with_padding) span)
    end
  end.
Definition Parameters_Parse (data : list Z) : parsed (list Z) :=
  let* _ := validate_loop (length data) data in Parsed data.

(** [Parameters::Builder::Add]. *)
Definition Parameters_Add (SerializeTo : list Z → parsed (list Z)) (data : list Z) : parsed (list Z) :=
  SerializeTo (if negb (Z.of_nat (length data) mod 4 =? 0) then vec_resize (Z.to_nat (RoundUpTo4 (Z.of_nat (length data)))) data else data).

(** ** The parameters *)

Definition OutgoingResetConfig : TlvConfig := mkTlv 13 2 16 2.
Definition IncomingResetConfig : TlvConfig := mkTlv 14 2 8 2.
Definition SSNTSNResetConfig : TlvConfig := mkTlv 15 2 8 0.
Definition ResponseConfig : TlvConfig := mkTlv 16 2 12 4.
Definition AddOutgoingConfig : TlvConfig := mkTlv 17 2 12 0.
Definition AddIncomingConfig : TlvConfig := mkTlv 18 2 12 0.

Record OutgoingSSNResetRequestParameter := mkOutgoing {
  out_request_sequence_number : Z;
  out_response_sequence_number : Z;
  out_sender_last_assigned_tsn : Z;
  out_stream_ids : list Z
}.
Record IncomingSSNResetRequestParameter := mkIncoming { in_request_sequence_number : Z; in_stream_ids : list Z }.

Definition OutgoingReset_Parse (data : list Z) : parsed OutgoingSSNResetRequestParameter :=
  let* reader := ParseTLV OutgoingResetConfig data in
  let stream_count := (length (variable_data 16 reader) / 2)%nat in
  let* stream_ids := read_records 16 2 (Load16 0) stream_count 0 reader in
  Parsed (mkOutgoing (Load32 4 reader) (Load32 8 reader) (Load32 12 reader) stream_ids).
Definition OutgoingReset_SerializeTo (p : OutgoingSSNResetRequestParameter) (out : list Z) : parsed (list Z) :=
  let writer := AllocateTLV OutgoingResetConfig (length (out_stream_ids p) * 2) in
  let writer := Store32 4 (out_request_sequence_number p) writer in
  let writer := Store32 8 (out_response_sequence_number p) writer in
  let writer := Store32 12 (out_sender_last_assigned_tsn p) writer in
  let* writer := write_records 16 2 (be16 <$> out_stream_ids p) 0 writer in
  Parsed (out ++ writer).

Definition IncomingReset_Parse (data : list Z) : parsed IncomingSSNResetRequestParameter :=
  let* reader := ParseTLV IncomingResetConfig data in
  let stream_count := (length (variable_data 8 reader) / 2)%nat in
  let* stream_ids := read_records 8 2 (Load16 0) stream_count 0 reader in
  Parsed (mkIncoming (Load32 4 reader) stream_ids).
Definition IncomingReset_SerializeTo (p : IncomingSSNResetRequestParameter) (out : list Z) : parsed (list Z) :=
  let writer := AllocateTLV IncomingResetConfig (length (in_stream_ids p) * 2) in
  let writer := Store32 4 (in_request_sequence_number p) writer in
  let* writer := write_records 8 2 (be16 <$> in_stream_ids p) 0 writer in
  Parsed (out ++ writer).

Record SSNTSNResetRequestParameter := mkSSNTSN { ssntsn_request_sequence_number : Z }.
Definition SSNTSNReset_Parse (data : list Z) : parsed SSNTSNResetRequestParameter :=
  let* reader := ParseTLV SSNTSNResetConfig data in Parsed (mkSSNTSN (Load32 4 reader)).
Definition SSNTSNReset_SerializeTo (p : SSNTSNResetRequestParameter) (out : list Z) : parsed (list Z) :=
  Parsed (out ++ Store32 4 (ssntsn_request_sequence_number p) (AllocateTLV SSNTSNResetConfig 0)).

(** [AddOutgoingStreamsRequestParameter] and [AddIncomingStreamsRequestParameter] have the same
    fields. *)
Record AddStreamsRequestParameter := mkAddStreams { add_request_sequence_number : Z; nbr_of_new_streams : Z }.
Definition AddStreams_Parse (cfg : TlvConfig) (data : list Z) : parsed AddStreamsRequestParameter :=
  let* reader := ParseTLV cfg data in Parsed (mkAddStreams (Load32 4 reader) (Load16 8 reader)).
Definition AddStreams_SerializeTo (cfg : TlvConfig) (p : AddStreamsRequestParameter) (out : list Z) : parsed (list Z) :=
  let writer := AllocateTLV cfg 0 in
  let writer := Store32 4 (add_request_sequence_number p) writer in
  Parsed (out ++ Store16 8 (nbr_of_new_streams p) writer).
Definition AddOutgoing_Parse : list Z → parsed AddStreamsRequestParameter := AddStreams_Parse AddOutgoingConfig.
Definition AddOutgoing_SerializeTo : AddStreamsRequestParameter → list Z → parsed (list Z) := AddStreams_SerializeTo AddOutgoingConfig.
Definition AddIncoming_Parse : list Z → parsed AddStreamsRequestParameter := AddStreams_Parse AddIncomingConfig.
Definition AddIncoming_SerializeTo : AddStreamsRequestParameter → list Z → parsed (list Z) := AddStreams_SerializeTo AddIncomingConfig.

Inductive Result := kSuccessNothingToDo | kSuccessPerformed | kDenied | kErrorWrongSSN | kErrorRequestAlreadyInProgress
  | kErrorBadSequenceNumber | kInProgress.
#[export] Instance Result_eq_dec : EqDecision Result.
Proof. solve_decision. Defined.
Definition result_number (r : Result) : Z :=
  match r with kSuccessNothingToDo => 0 | kSuccessPerformed => 1 | kDenied => 2 | kErrorWrongSSN => 3
  | kErrorRequestAlreadyInProgress => 4 | kErrorBadSequenceNumber => 5 | kInProgress => 6 end.
Definition result_of (n : Z) : option Result :=
  match n with 0 => Some kSuccessNothingToDo | 1 => Some kSuccessPerformed | 2 => Some kDenied | 3 => Some kErrorWrongSSN
  | 4 => Some kErrorRequestAlreadyInProgress | 5 => Some kErrorBadSequenceNumber | 6 => Some kInProgress | _ => None end.

Record ReconfigurationResponseParameter := mkResponse {
  response_sequence_number : Z;
  response_result : Result;
  sender_next_tsn : option Z;
  receiver_next_tsn : option Z
}.
Definition Response_new (sn : Z) (result : Result) : ReconfigurationResponseParameter := mkResponse sn result None None.

Definition Response_Parse (data : list Z) : parsed ReconfigurationResponseParameter :=
  let* reader := ParseTLV ResponseConfig data in
  match result_of (Load32 8 reader) with
  | None => Rejected
  | Some result =>
    let sn := Load32 4 reader in
    let rest := variable_data 12 reader in
    match rest with
    | [] => Parsed (mkResponse sn result None None)
    | _ =>
      if negb (length rest =? 8)%nat then Rejected else
      let* sub := sub_reader 12 8 0 reader in
      Parsed (mkResponse sn result (Some (Load32 0 sub)) (Some (Load32 4 sub)))
    end
  end.
(** A sub-writer checks its size. *)
Definition Response_SerializeTo (p : ReconfigurationResponseParameter) (out : list Z) : parsed (list Z) :=
  let writer := AllocateTLV ResponseConfig (match sender_next_tsn p with Some _ => 8 | None => 0 end) in
  let writer := Store32 4 (response_sequence_number p) writer in
  let writer := Store32 8 (result_number (response_result p)) writer in
  let* writer := match sender_next_tsn p with
    | Some tsn => write_records 12 8 [be32 tsn ++ be32 (default 0 (receiver_next_tsn p))] 0 writer
    | None => Parsed writer
    end in
  Parsed (out ++ writer).

(** ** chunk/reconfig_chunk.cc *)

Definition ReConfigChunkConfig : TlvConfig := mkTlv 130 1 4 1.
Definition ReConfigChunk_Parse (data : list Z) : parsed (list Z) :=
  let* reader := ParseTLV ReConfigChunkConfig data in
  Parameters_Parse (variable_data 4 reader).
Definition ReConfigChunk_SerializeTo (parameters out : list Z) : list Z :=
  out ++ CopyToVariableData 4 parameters (AllocateTLV ReConfigChunkConfig (length parameters)).

(** ** Parameters are read back *)

Lemma aligned_2 k n : ValidateLengthAlignment (Z.of_nat (2 * k + n * 2)) 2 = true.
Proof.
  unfold ValidateLengthAlignment. cbn [Z.eqb]. apply Z.eqb_eq.
  replace (Z.of_nat (2 * k + n * 2)) with (Z.of_nat (k + n) * 2) by lia. apply Z.mod_mul. lia.
Qed.

(** A list of stream numbers behind a header. *)
Lemma streams_written fixed (ids : list Z) hdr : length hdr = fixed →
  write_records fixed 2 (be16 <$> ids) 0 (hdr ++ replicate (length ids * 2) 0) = Parsed (hdr ++ concat (be16 <$> ids)).
Proof.
  intros Hh. pose proof (write_records_all fixed 2 (be16 <$> ids) 0 hdr []) as H. rewrite length_fmap, !app_nil_r in H.
  apply H; [by apply Forall_fmap, Forall_true|lia].
Qed.

Lemma streams_length (ids : list Z) : length (concat (be16 <$> ids)) = (length ids * 2)%nat.
Proof. rewrite (concat_lengths _ 2), length_fmap; [done|by apply Forall_fmap, Forall_true]. Qed.

Lemma streams_read fixed (ids : list Z) hdr : length hdr = fixed → Forall (uint 16) ids →
  read_records fixed 2 (Load16 0) (length (variable_data fixed (hdr ++ concat (be16 <$> ids))) / 2) 0 (hdr ++ concat (be16 <$> ids)) = Parsed ids.
Proof.
  intros Hh Hids. unfold variable_data. rewrite <- Hh at 2. rewrite drop_app_length, streams_length, Nat.div_mul by done.
  pose proof (read_records_all fixed 2 (Load16 0) (be16 <$> ids) 0 hdr []) as H. rewrite length_fmap, !app_nil_r in H.
  rewrite H, records_read; [done| |by apply Forall_fmap, Forall_true|lia].
  eapply Forall_impl; [exact Hids|]. intros x Hx. cbn beta. field16 x.
Qed.

Definition OutgoingReset_wf (p : OutgoingSSNResetRequestParameter) : Prop :=
  uint 32 (out_request_sequence_number p) ∧ uint 32 (out_response_sequence_number p) ∧ uint 32 (out_sender_last_assigned_tsn p)
  ∧ Forall (uint 16) (out_stream_ids p) ∧ Z.of_nat (16 + length (out_stream_ids p) * 2) < 2 ^ 16.
Definition IncomingReset_wf (p : IncomingSSNResetRequestParameter) : Prop :=
  uint 32 (in_request_sequence_number p) ∧ Forall (uint 16) (in_stream_ids p) ∧ Z.of_nat (8 + length (in_stream_ids p) * 2) < 2 ^ 16.
Definition Response_wf (p : ReconfigurationResponseParameter) : Prop :=
  uint 32 (response_sequence_number p)
  ∧ match sender_next_tsn p, receiver_next_tsn p with Some s, Some r => uint 32 s ∧ uint 32 r | None, None => True | _, _ => False end.

Definition SSNTSNReset_wf (p : SSNTSNResetRequestParameter) : Prop := uint 32 (ssntsn_request_sequence_number p).
Definition AddStreams_wf (p : AddStreamsRequestParameter) : Prop := uint 32 (add_request_sequence_number p) ∧ uint 16 (nbr_of_new_streams p).

Definition OutgoingReset : WireFormat OutgoingSSNResetRequestParameter :=
  mkFormat _ OutgoingReset_SerializeTo OutgoingReset_Parse OutgoingReset_wf.
Definition IncomingReset : WireFormat IncomingSSNResetRequestParameter :=
  mkFormat _ IncomingReset_SerializeTo IncomingReset_Parse IncomingReset_wf.
Definition Response : WireFormat ReconfigurationResponseParameter :=
  mkFormat _ Response_SerializeTo Response_Parse Response_wf.

Definition SSNTSNReset : WireFormat SSNTSNResetRequestParameter :=
  mkFormat _ SSNTSNReset_SerializeTo SSNTSNReset_Parse SSNTSNReset_wf.
Definition AddOutgoing : WireFormat AddStreamsRequestParameter := mkFormat _ AddOutgoing_SerializeTo AddOutgoing_Parse AddStreams_wf.
Definition AddIncoming : WireFormat AddStreamsRequestParameter := mkFormat _ AddIncoming_SerializeTo AddIncoming_Parse AddStreams_wf.

(** The header of a parameter has a type of two bytes. *)
Definition param_tlv (type size : Z) : list Z := tlv_header (Z.shiftr type 8) size type.

(** A parameter is appended as bytes that carry its type and length and are read back. *)
Definition param_ok {A} (cfg : TlvConfig) (f : WireFormat A) (a : A) (bytes : list Z) : Prop :=
  (∃ body, bytes = param_tlv (kType cfg) (Z.of_nat (4 + length body)) ++ body ∧ Z.of_nat (4 + length body) < 2 ^ 16)
  ∧ (∀ out, fmt_serialize f a out = Parsed (out ++ bytes)) ∧ fmt_parse f bytes = Parsed a.

Lemma OutgoingReset_ok p : OutgoingReset_wf p → ∃ bytes, param_ok OutgoingResetConfig OutgoingReset p bytes.
Proof.
  intros (H1 & H2 & H3 & Hids & Hlen). set (ids := out_stream_ids p) in *.
  set (fixed := be32 (out_request_sequence_number p) ++ be32 (out_response_sequence_number p) ++ be32 (out_sender_last_assigned_tsn p)).
  set (body := fixed ++ concat (be16 <$> ids)).
  assert (4 + length body = 16 + length ids * 2)%nat as Hb by (unfold body; rewrite length_app, streams_length; done).
  set (hdr := tlv_header 0 (Z.of_nat (4 + length body)) (kType OutgoingResetConfig) ++ fixed). exists (hdr ++ concat (be16 <$> ids)). split; [|split].
  - exists body. split; [by unfold hdr, body; rewrite <- app_assoc|lia].
  - intros out. cbn [fmt_serialize OutgoingReset]. unfold OutgoingReset_SerializeTo. cbv zeta. fold ids.
    match goal with |- context [write_records 16 2 _ 0 ?w] => replace w with (hdr ++ replicate (length ids * 2) 0) by (unfold hdr; by rewrite Hb) end.
    by rewrite streams_written.
  - cbn [fmt_parse OutgoingReset]. unfold OutgoingReset_Parse.
    pose proof (ParseTLV_found2 OutgoingResetConfig body []) as Hp. cbv zeta in Hp. rewrite app_nil_r in Hp. unfold hdr. rewrite <- app_assoc. fold body.
    rewrite Hp; try done; [|cbn; lia|rewrite Hb; cbn; lia|by rewrite Hb|cbn; lia|rewrite Hb; apply (aligned_2 8)]. cbn [pbind].
    unfold body at 2 3. rewrite (app_assoc (tlv_header _ _ _)). fold hdr. rewrite streams_read by done. cbn [pbind]. destruct p. cbn in *. do 2 f_equal.
    + field32 out_request_sequence_number0.
    + field32 out_response_sequence_number0.
    + field32 out_sender_last_assigned_tsn0.
Qed.

Lemma IncomingReset_ok p : IncomingReset_wf p → ∃ bytes, param_ok IncomingResetConfig IncomingReset p bytes.
Proof.
  intros (H1 & Hids & Hlen). set (ids := in_stream_ids p) in *. set (fixed := be32 (in_request_sequence_number p)).
  set (body := fixed ++ concat (be16 <$> ids)).
  assert (4 + length body = 8 + length ids * 2)%nat as Hb by (unfold body; rewrite length_app, streams_length; done).
  set (hdr := tlv_header 0 (Z.of_nat (4 + length body)) (kType IncomingResetConfig) ++ fixed). exists (hdr ++ concat (be16 <$> ids)). split; [|split].
  - exists body. split; [by unfold hdr, body; rewrite <- app_assoc|lia].
  - intros out. cbn [fmt_serialize IncomingReset]. unfold IncomingReset_SerializeTo. cbv zeta. fold ids.
    match goal with |- context [write_records 8 2 _ 0 ?w] => replace w with (hdr ++ replicate (length ids * 2) 0) by (unfold hdr; by rewrite Hb) end.
    by rewrite streams_written.
  - cbn [fmt_parse IncomingReset]. unfold IncomingReset_Parse.
    pose proof (ParseTLV_found2 IncomingResetConfig body []) as Hp. cbv zeta in Hp. rewrite app_nil_r in Hp. unfold hdr. rewrite <- app_assoc. fold body.
    rewrite Hp; try done; [|cbn; lia|rewrite Hb; cbn; lia|by rewrite Hb|cbn; lia|rewrite Hb; apply (aligned_2 4)]. cbn [pbind].
    unfold body at 2 3. rewrite (app_assoc (tlv_header _ _ _)). fold hdr. rewrite streams_read by done. cbn [pbind]. destruct p. cbn in *. do 2 f_equal.
    field32 in_request_sequence_number0.
Qed.

Lemma result_read r : result_of (result_number r) = Some r.
Proof. by destruct r. Qed.

Lemma Response_ok p : Response_wf p → ∃ bytes, param_ok ResponseConfig Response p bytes.
Proof.
  intros (H1 & H2). destruct p as [sn result sender receiver]. cbn in H1, H2.
  set (rest := match sender with Some s => be32 s ++ be32 (default 0 receiver) | None => [] end).
  set (body := be32 sn ++ be32 (result_number result) ++ rest). exists (tlv_header 0 (Z.of_nat (4 + length body)) (kType ResponseConfig) ++ body).
  split; [exists body; split; [done|by destruct sender]|]. split; [by destruct sender|].
  cbn [fmt_parse Response]. unfold Response_Parse. pose proof (ParseTLV_found2 ResponseConfig body []) as Hp. cbv zeta in Hp. rewrite app_nil_r in Hp.
  assert (length body = 8 ∨ length body = 16)%nat as Hb by (destruct sender; [by right|by left]).
  rewrite Hp; try done; try (cbn [kHeaderSize ResponseConfig]; lia). 2: cbn; lia. 2: by destruct sender. clear Hp. cbn [pbind].
  set (reader := _ ++ body). assert (Load32 4 reader = sn) as -> by field32 sn.
  assert (Load32 8 reader = result_number result) as -> by (etrans; [exact (join32 (result_number result))|by destruct result]).
  rewrite result_read. destruct sender as [s|], receiver as [r|]; try done. destruct H2 as [Hs Hr].
  change (variable_data 12 reader) with (be32 s ++ be32 r). cbn [pbind be32 app]. change (negb _) with false. cbv iota.
  change (sub_reader 12 8 0 reader) with (Parsed (be32 s ++ be32 r)). cbn [pbind]. do 3 f_equal; [field32 s|field32 r].
Qed.

(** The parameters of a fixed size. *)
Lemma SSNTSNReset_ok p : SSNTSNReset_wf p → ∃ bytes, param_ok SSNTSNResetConfig SSNTSNReset p bytes.
Proof.
  destruct p as [sn]. intros H. cbn in H. exists (tlv_header 0 8 15 ++ be32 sn). split; [by exists (be32 sn)|]. split; [done|].
  change (fmt_parse SSNTSNReset _) with (@Parsed SSNTSNResetRequestParameter (mkSSNTSN (Load32 4 (tlv_header 0 8 15 ++ be32 sn)))). do 2 f_equal. field32 sn.
Qed.

Lemma AddStreams_ok cfg p : AddStreams_wf p → cfg = AddOutgoingConfig ∨ cfg = AddIncomingConfig →
  ∃ bytes, param_ok cfg (mkFormat _ (AddStreams_SerializeTo cfg) (AddStreams_Parse cfg) AddStreams_wf) p bytes.
Proof.
  destruct p as [sn n]. intros [H1 H2] Hcfg. cbn in H1, H2. set (body := be32 sn ++ be16 n ++ [0; 0]). exists (tlv_header 0 12 (kType cfg) ++ body).
  split; [exists body; split; [by destruct Hcfg as [-> | ->]|done]|]. split; [by destruct Hcfg as [-> | ->]|].
  assert (fmt_parse (mkFormat _ (AddStreams_SerializeTo cfg) (AddStreams_Parse cfg) AddStreams_wf) (tlv_header 0 12 (kType cfg) ++ body)
    = Parsed (mkAddStreams (Load32 4 (tlv_header 0 12 (kType cfg) ++ body)) (Load16 8 (tlv_header 0 12 (kType cfg) ++ body)))) as ->
    by (by destruct Hcfg as [-> | ->]).
  do 2 f_equal; [field32 sn|field16 n].
Qed.

(** ** Lists of parameters *)

(** The bytes of parameters one after the other, all but the last padded. *)
Definition joined (bs : list (list Z)) : list Z := foldl (λ data b, padded data ++ b) [] bs.

Definition param_bytes (desc : ParameterDescriptor) : Prop :=
  ∃ body, param_data desc = param_tlv (param_type desc) (Z.of_nat (4 + length body)) ++ body
    ∧ Z.of_nat (4 + length body) < 2 ^ 16 ∧ uint 16 (param_type desc).

Lemma padded_nil : padded [] = [].
Proof. done. Qed.

Lemma padded_app a b : Z.of_nat (length a) mod 4 = 0 → padded (a ++ b) = a ++ padded b.
Proof. intros H. unfold padded. by rewrite length_app, padding_add, app_assoc by done. Qed.

Lemma joined_cons b bs : joined (b :: bs) = match bs with [] => b | _ => padded b ++ joined bs end.
Proof.
  assert (∀ bs x, x ≠ [] ∨ bs = [] → foldl (λ data b, padded data ++ b) x bs = match bs with [] => x | _ => padded x ++ joined bs end) as H.
  { clear. intros bs. induction bs as [|c bs IH] using rev_ind; intros x Hx; [done|]. rewrite foldl_snoc. destruct bs as [|d bs]; [by destruct Hx|].
    rewrite IH by (destruct Hx as [|Hx]; [by left|by destruct bs]). unfold joined. cbn [app foldl]. rewrite foldl_snoc. rewrite padded_app by (rewrite length_padded; apply padding_mod4).
    by rewrite <- app_assoc. }
  unfold joined at 1. cbn [foldl]. rewrite padded_nil. cbn [app]. destruct bs as [|c bs]; [done|]. destruct b as [|z b].
  - cbn [foldl]. done.
  - apply H. by left.
Qed.

Lemma param_header desc t : param_bytes desc → let data := param_data desc ++ t in
  Load16 0 data = param_type desc ∧ Load16 2 data = Z.of_nat (length (param_data desc)) ∧ (4 ≤ length (param_data desc))%nat
  ∧ Z.of_nat (length (param_data desc)) < 2 ^ 16.
Proof.
  intros (body & E & Hlen & Hty). destruct desc as [ty data]. cbn [param_data param_type] in *. subst data. rewrite length_app. cbv zeta. change (length (param_tlv _ _)) with 4%nat.
  split; [|split; [|lia]].
  - etrans; [exact (join16 ty)|]. by apply wrap_small.
  - etrans; [exact (join16 _)|]. apply wrap_small. unfold uint. lia.
Qed.

(** The last parameter, and one before others. *)
Lemma loops_last fuel desc : param_bytes desc →
  descriptors_loop (S fuel) (param_data desc) = Parsed [desc] ∧ validate_loop (S fuel) (param_data desc) = Parsed tt.
Proof.
  intros H. destruct (param_header desc [] H) as (H0 & H2 & H4 & _). rewrite app_nil_r in H0, H2. destruct (param_data desc) as [|z l] eqn:E; [cbn in H4; lia|].
  cbn [descriptors_loop validate_loop]. rewrite <- E in *. unfold BoundedByteReader. rewrite (proj2 (Nat.ltb_ge _ _)), (proj2 (Nat.leb_le _ _)) by done.
  cbn [pbind]. rewrite H0, H2, RoundUpTo4_padding, !Nat2Z.id. rewrite take_ge, (proj2 (Z.ltb_ge _ 4)), Z.ltb_irrefl by lia. cbn [orb].
  destruct (Z.ltb_spec (Z.of_nat (length (param_data desc))) (Z.of_nat (length (param_data desc) + padding (length (param_data desc))))).
  - by destruct desc.
  - rewrite drop_ge by lia. destruct fuel; cbn; by destruct desc.
Qed.

Lemma loops_more fuel desc rest : param_bytes desc →
  descriptors_loop (S fuel) (padded (param_data desc) ++ rest) = (let* r := descriptors_loop fuel rest in Parsed (desc :: r))
  ∧ validate_loop (S fuel) (padded (param_data desc) ++ rest) = validate_loop fuel rest.
Proof.
  intros H. set (b := param_data desc). assert (padded b ++ rest = b ++ (replicate (padding (length b)) 0 ++ rest)) as Es by (unfold padded; by rewrite <- app_assoc).
  destruct (param_header desc (replicate (padding (length b)) 0 ++ rest) H) as (H0 & H2 & H4 & _). fold b in H0, H2, H4. rewrite <- Es in H0, H2.
  assert (length (padded b ++ rest) = length b + padding (length b) + length rest)%nat as Hlen by (rewrite length_app, length_padded; lia).
  destruct (padded b ++ rest) as [|z l] eqn:E; [cbn in Hlen; lia|]. cbn [descriptors_loop validate_loop]. rewrite <- E in *.
  unfold BoundedByteReader. rewrite (proj2 (Nat.ltb_ge _ _)), (proj2 (Nat.leb_le _ _)) by lia. cbn [pbind]. rewrite H0, H2, RoundUpTo4_padding, !Nat2Z.id.
  rewrite (proj2 (Z.ltb_ge (Z.of_nat (length b)) 4)), !(proj2 (Z.ltb_ge (Z.of_nat (length (padded b ++ rest))) _)) by lia. cbn [orb].
  rewrite drop_app_length' by (by rewrite length_padded). rewrite Es, take_app_length by done. by destruct desc.
Qed.

Lemma loops_joined descs fuel : Forall param_bytes descs → (length descs ≤ fuel)%nat →
  descriptors_loop fuel (joined (param_data <$> descs)) = Parsed descs ∧ validate_loop fuel (joined (param_data <$> descs)) = Parsed tt.
Proof.
  intros H. revert fuel. induction H as [|d descs Hd H IH]; intros fuel Hf; [by destruct fuel|]. destruct fuel as [|fuel]; [cbn in Hf; lia|].
  rewrite fmap_cons, joined_cons. destruct descs as [|d' descs]; [by apply loops_last|]. rewrite (fmap_cons param_data d' descs) in IH |- *.
  destruct (loops_more fuel d (joined (param_data d' :: (param_data <$> descs))) Hd) as [E1 E2]. rewrite E1, E2.
  destruct (IH fuel) as [F1 F2]; [cbn in Hf |- *; lia|]. by rewrite F1, F2.
Qed.

Lemma joined_length descs : Forall param_bytes descs → (length descs ≤ length (joined (param_data <$> descs)))%nat.
Proof.
  induction 1 as [|d descs Hd H IH]; [done|]. rewrite fmap_cons, joined_cons. destruct (param_header d [] Hd) as (_ & _ & H4 & _).
  destruct descs as [|d' descs]; [cbn; lia|]. cbn [fmap list_fmap] in *. rewrite length_app, length_padded. cbn [length] in *. lia.
Qed.

(** What was validated can be taken apart. *)
Lemma validated_descriptors fuel span : validate_loop fuel span = Parsed tt → ∃ descs, descriptors_loop fuel span = Parsed descs.
Proof.
  revert span. induction fuel as [|fuel IH]; intros [|z l] H; try done; [by eexists|by eexists|]. cbn [validate_loop descriptors_loop] in *. set (span := z :: l) in *.
  destruct (length span <? 4)%nat; [done|]. unfold BoundedByteReader in *. destruct (4 <=? length span)%nat; [|done]. cbn [pbind] in *.
  destruct (_ || _); [done|]. destruct (_ <? _); [by eexists|]. destruct (IH _ H) as [descs E]. rewrite E. by eexists.
Qed.

(** ** The chunk *)

(** Parameters that were built are validated and taken apart again. *)
Lemma built_parameters descs : Forall param_bytes descs → let data := joined (param_data <$> descs) in
  Parameters_Parse data = Parsed data ∧ descriptors data = Parsed descs.
Proof.
  intros H data. destruct (loops_joined descs (length data) H (joined_length descs H)) as [E1 E2]. unfold Parameters_Parse, descriptors.
  fold data in E1, E2. by rewrite E2.
Qed.

Lemma Parameters_Add_bytes SerializeTo b data : (∀ out, SerializeTo out = Parsed (out ++ b)) →
  Parameters_Add SerializeTo data = Parsed (padded data ++ b).
Proof.
  intros H. unfold Parameters_Add. rewrite H. do 2 f_equal. destruct (Z.eqb_spec (Z.of_nat (length data) mod 4) 0) as [E|E]; cbn [negb].
  - unfold padded. rewrite padding_aligned by done. by rewrite app_nil_r.
  - rewrite RoundUpTo4_padding, Nat2Z.id. unfold vec_resize. rewrite take_ge by lia. unfold padded.
    by replace (length data + padding (length data) - length data)%nat with (padding (length data)) by lia.
Qed.

Definition ReConfigChunk_wf (parameters : list Z) : Prop := Parameters_Parse parameters = Parsed parameters ∧ Z.of_nat (4 + length parameters) < 2 ^ 16.
Definition ReConfigChunk : WireFormat (list Z) := mkFormat _ (λ p out, Parsed (ReConfigChunk_SerializeTo p out)) ReConfigChunk_Parse ReConfigChunk_wf.

Lemma ReConfigChunk_written p out : ReConfigChunk_SerializeTo p out = out ++ tlv_header (kType ReConfigChunkConfig) (Z.of_nat (4 + length p)) 0 ++ p.
Proof. unfold ReConfigChunk_SerializeTo. f_equal. exact (copy_all (tlv_header (kType ReConfigChunkConfig) (Z.of_nat (4 + length p)) 0) p). Qed.

Lemma chunk_parsed data pad : ReConfigChunk_wf data → (length pad ≤ 3)%nat → ReConfigChunk_Parse (ReConfigChunk_SerializeTo data [] ++ pad) = Parsed data.
Proof.
  intros [Hp Hlen] Hpad. rewrite ReConfigChunk_written. cbn [app]. unfold ReConfigChunk_Parse.
  rewrite (ParseTLV_found ReConfigChunkConfig 0 data pad); try done; [cbn [kHeaderSize ReConfigChunkConfig]; lia|apply aligned_1].
Qed.

#[export] Instance ReConfigChunk_round_trips : RoundTrips ReConfigChunk.
Proof.
  intros p H. exists (kType ReConfigChunkConfig), 0, p. cbv zeta. split; [apply H|]. split.
  - intros out. cbn [fmt_serialize ReConfigChunk]. by rewrite ReConfigChunk_written.
  - intros pad Hpad _. rewrite <- (chunk_parsed p pad H Hpad). by rewrite ReConfigChunk_written.
Qed.

(** ** Properties *)

(** A parameter as the code passes it around, by its base class. *)
Inductive AnyParameter :=
| OutgoingResetParam (p : OutgoingSSNResetRequestParameter)
| IncomingResetParam (p : IncomingSSNResetRequestParameter)
| SSNTSNResetParam (p : SSNTSNResetRequestParameter)
| ResponseParam (p : ReconfigurationResponseParameter)
| AddOutgoingParam (p : AddStreamsRequestParameter)
| AddIncomingParam (p : AddStreamsRequestParameter).
Definition Param_SerializeTo (p : AnyParameter) : list Z → parsed (list Z) :=
  match p with
  | OutgoingResetParam p => OutgoingReset_SerializeTo p
  | IncomingResetParam p => IncomingReset_SerializeTo p
  | SSNTSNResetParam p => SSNTSNReset_SerializeTo p
  | ResponseParam p => Response_SerializeTo p
  | AddOutgoingParam p => AddOutgoing_SerializeTo p
  | AddIncomingParam p => AddIncoming_SerializeTo p
  end.
Definition param_wf (p : AnyParameter) : Prop :=
  match p with OutgoingResetParam p => OutgoingReset_wf p | IncomingResetParam p => IncomingReset_wf p | SSNTSNResetParam p => SSNTSNReset_wf p
  | ResponseParam p => Response_wf p | AddOutgoingParam p | AddIncomingParam p => AddStreams_wf p end.
Fixpoint build_loop (ps : list AnyParameter) (data : list Z) : parsed (list Z) :=
  match ps with [] => Parsed data | p :: ps' => let* data := Parameters_Add (Param_SerializeTo p) data in build_loop ps' data end.
Definition build_parameters (ps : list AnyParameter) : parsed (list Z) := build_loop ps [].

(** A descriptor is read as the parameter: it has its type and its parser returns it. *)
Definition reads (desc : ParameterDescriptor) (p : AnyParameter) : Prop :=
  match p with
  | OutgoingResetParam p => param_type desc = kType OutgoingResetConfig ∧ OutgoingReset_Parse (param_data desc) = Parsed p
  | IncomingResetParam p => param_type desc = kType IncomingResetConfig ∧ IncomingReset_Parse (param_data desc) = Parsed p
  | SSNTSNResetParam p => param_type desc = kType SSNTSNResetConfig ∧ SSNTSNReset_Parse (param_data desc) = Parsed p
  | ResponseParam p => param_type desc = kType ResponseConfig ∧ Response_Parse (param_data desc) = Parsed p
  | AddOutgoingParam p => param_type desc = kType AddOutgoingConfig ∧ AddOutgoing_Parse (param_data desc) = Parsed p
  | AddIncomingParam p => param_type desc = kType AddIncomingConfig ∧ AddIncoming_Parse (param_data desc) = Parsed p
  end.

Lemma param_ok_written {A} cfg (f : WireFormat A) a bytes : param_ok cfg f a bytes → uint 16 (kType cfg) →
  ∃ desc, param_bytes desc ∧ (param_type desc = kType cfg ∧ fmt_parse f (param_data desc) = Parsed a) ∧ ∀ out, fmt_serialize f a out = Parsed (out ++ param_data desc).
Proof. intros ((body & E & Hl) & Hs & Hp) Ht. exists (mkParam (kType cfg) bytes). split; [by exists body|]. by split. Qed.

Lemma param_written p : param_wf p → ∃ desc, param_bytes desc ∧ reads desc p ∧ ∀ out, Param_SerializeTo p out = Parsed (out ++ param_data desc).
Proof.
  intros H. destruct p as [p|p|p|p|p|p].
  - destruct (OutgoingReset_ok p H) as [b Hb]. by apply (param_ok_written _ _ _ _ Hb).
  - destruct (IncomingReset_ok p H) as [b Hb]. by apply (param_ok_written _ _ _ _ Hb).
  - destruct (SSNTSNReset_ok p H) as [b Hb]. by apply (param_ok_written _ _ _ _ Hb).
  - destruct (Response_ok p H) as [b Hb]. by apply (param_ok_written _ _ _ _ Hb).
  - destruct (AddStreams_ok AddOutgoingConfig p H) as [b Hb]; [by left|]. by apply (param_ok_written _ _ _ _ Hb).
  - destruct (AddStreams_ok AddIncomingConfig p H) as [b Hb]; [by right|]. by apply (param_ok_written _ _ _ _ Hb).
Qed.

Lemma parameters_written ps : Forall param_wf ps → ∃ descs, Forall param_bytes descs ∧ Forall2 reads descs ps
  ∧ build_parameters ps = Parsed (joined (param_data <$> descs)).
Proof.
  intros H. assert (∀ data, ∃ descs, Forall param_bytes descs ∧ Forall2 reads descs ps
    ∧ build_loop ps data = Parsed (foldl (λ data b, padded data ++ b) data (param_data <$> descs))) as Hl; [|exact (Hl [])].
  induction H as [|p ps Hp H IH]; intros data; [exists []; by repeat constructor|]. destruct (param_written p Hp) as (desc & Hb & Hr & Hs).
  destruct (IH (padded data ++ param_data desc)) as (descs & Hbs & Hrs & E). exists (desc :: descs). split; [by constructor|]. split; [by constructor|].
  cbn [build_loop]. rewrite (Parameters_Add_bytes _ _ _ Hs). exact E.
Qed.

(** C34: The parameters of a RE-CONFIG chunk survive the wire: those built into a chunk are, after
    it was serialized and parsed, with up to three bytes of padding, the same in number and
    order, and each is read back as it was. *)
Theorem reconfig_roundtrip ps pad : Forall param_wf ps → (length pad ≤ 3)%nat →
  ∃ data, build_parameters ps = Parsed data ∧ (Z.of_nat (4 + length data) < 2 ^ 16 →
    ReConfigChunk_Parse (ReConfigChunk_SerializeTo data [] ++ pad) = Parsed data
    ∧ ∃ descs, descriptors data = Parsed descs ∧ Forall2 reads descs ps).
Proof.
  intros H Hpad. destruct (parameters_written ps H) as (descs & Hb & Hr & E). destruct (built_parameters descs Hb) as [Hp Hd]. eexists. split; [done|].
  intros Hlen. split; [by apply chunk_parsed|by eexists].
Qed.

Definition sample_params : list AnyParameter :=
  [ResponseParam (Response_new 7 kInProgress); OutgoingResetParam (mkOutgoing 10 10 99 [1; 2; 3]); AddOutgoingParam (mkAddStreams 11 5)].
Lemma sample_params_wf : Forall param_wf sample_params.
Proof. repeat constructor; cbn; unfold uint; lia. Qed.

Lemma reconfig_roundtrip_witness : ∃ data, build_parameters sample_params = Parsed data ∧ (Z.of_nat (4 + length data) < 2 ^ 16 →
    ReConfigChunk_Parse (ReConfigChunk_SerializeTo data [] ++ [0; 0]) = Parsed data
    ∧ ∃ descs, descriptors data = Parsed descs ∧ Forall2 reads descs sample_params).
Proof. apply (reconfig_roundtrip sample_params [0; 0] sample_params_wf). cbn. lia. Defined.

Lemma validate_safe fuel span : (length span ≤ fuel)%nat → validate_loop fuel span ≠ CheckFailed.
Proof.
  revert span. induction fuel as [|fuel IH]; intros [|z l] Hf; try done; [cbn in Hf; lia|]. cbn [validate_loop]. set (span := z :: l) in *.
  destruct (Nat.ltb_spec (length span) 4); [done|]. unfold BoundedByteReader. rewrite (proj2 (Nat.leb_le _ _)) by lia. cbn [pbind].
  destruct (Z.ltb_spec (Load16 2 span) 4); [done|]. cbn [orb]. destruct (_ <? Load16 2 span); [done|]. destruct (_ <? _); [done|]. apply IH.
  rewrite length_drop. unfold RoundUpTo4. rewrite land_m4. pose proof (Z.mod_pos_bound (Load16 2 span + 3) 4). lia.
Qed.

Lemma stream_list_in_bounds fixed r : (fixed ≤ length r)%nat → (fixed + 0 + length (variable_data fixed r) / 2 * 2 ≤ length r)%nat.
Proof. intros H. unfold variable_data. rewrite length_drop, Nat.mul_comm. pose proof (Nat.Div0.mul_div_le (length r - fixed) 2). lia. Qed.

Lemma parameter_parsers_safe data :
  OutgoingReset_Parse data ≠ CheckFailed ∧ IncomingReset_Parse data ≠ CheckFailed ∧ Response_Parse data ≠ CheckFailed.
Proof.
  split_and!.
  - unfold OutgoingReset_Parse. destruct (ParseTLV_safe OutgoingResetConfig data) as [-> | (r & -> & Hr)]; [cbn; lia|done|]. cbn [pbind].
    destruct (read_records_in_bounds 16 2 (Load16 0) (length (variable_data 16 r) / 2) 0 r) as [g ->]; [by apply stream_list_in_bounds|done].
  - unfold IncomingReset_Parse. destruct (ParseTLV_safe IncomingResetConfig data) as [-> | (r & -> & Hr)]; [cbn; lia|done|]. cbn [pbind].
    destruct (read_records_in_bounds 8 2 (Load16 0) (length (variable_data 8 r) / 2) 0 r) as [g ->]; [by apply stream_list_in_bounds|done].
  - unfold Response_Parse. destruct (ParseTLV_safe ResponseConfig data) as [-> | (r & -> & Hr)]; [cbn; lia|done|]. cbn [pbind]. destruct (result_of _); [|done].
    cbv zeta. destruct (variable_data 12 r) as [|z l] eqn:E; [done|]. destruct (Nat.eqb_spec (length (z :: l)) 8) as [E8|]; [|done]. cbn [negb].
    unfold sub_reader. rewrite (proj2 (Nat.leb_le _ _)); [done|]. unfold variable_data in E. apply (f_equal length) in E. rewrite length_drop, E8 in E. lia.
Qed.

Lemma fixed_parsers_safe data :
  SSNTSNReset_Parse data ≠ CheckFailed ∧ AddOutgoing_Parse data ≠ CheckFailed ∧ AddIncoming_Parse data ≠ CheckFailed.
Proof.
  split_and!; [unfold SSNTSNReset_Parse|unfold AddOutgoing_Parse, AddStreams_Parse|unfold AddIncoming_Parse, AddStreams_Parse];
    (match goal with |- context [ParseTLV ?cfg data] => destruct (ParseTLV_safe cfg data) as [-> | (r & -> & _)] end; [cbn; lia|done|done]).
Qed.

(** The parameters of a chunk that was parsed can be listed. *)
Lemma chunk_descriptors data ps : ReConfigChunk_Parse data = Parsed ps → ∃ descs, descriptors ps = Parsed descs.
Proof.
  intros E. unfold ReConfigChunk_Parse in E. destruct (ParseTLV ReConfigChunkConfig data) as [r| |]; [|done..]. cbn [pbind] in E. unfold Parameters_Parse in E.
  destruct (validate_loop _ _) as [[]| |] eqn:V; [|done..]. injection E as <-. by apply validated_descriptors.
Qed.

(** No bytes of a RE-CONFIG chunk make the program fail a check or loop: the chunk is rejected,
    or its parameters can be listed, and the parser of each returns or rejects. *)
Theorem reconfig_parsers_never_fail data :
  ReConfigChunk_Parse data ≠ CheckFailed
  ∧ (∀ parameters, ReConfigChunk_Parse data = Parsed parameters → ∃ descs, descriptors parameters = Parsed descs)
  ∧ (OutgoingReset_Parse data ≠ CheckFailed ∧ IncomingReset_Parse data ≠ CheckFailed ∧ Response_Parse data ≠ CheckFailed)
  ∧ (SSNTSNReset_Parse data ≠ CheckFailed ∧ AddOutgoing_Parse data ≠ CheckFailed ∧ AddIncoming_Parse data ≠ CheckFailed).
Proof.
  split; [|split; [|split; [apply parameter_parsers_safe|apply fixed_parsers_safe]]].
  - unfold ReConfigChunk_Parse. destruct (ParseTLV_safe ReConfigChunkConfig data) as [-> | (r & -> & _)]; [cbn; lia|done|]. cbn [pbind].
    unfold Parameters_Parse. pose proof (validate_safe (length (variable_data 4 r)) (variable_data 4 r) (le_n _)). by destruct (validate_loop _ _).
  - intros ps. apply chunk_descriptors.
Qed.
