(* ===== verification/DataTracker.v ===== *)
(** * dcsctp::DataTracker (includes/webrtc/net/dcsctp/rx/data_tracker.h, .cc)

    The receiving side of the SCTP association under a session's data channels: which
    transmission sequence numbers (TSNs) have arrived, when to acknowledge them and what the
    selective acknowledgement says.  TSNs are 32-bit numbers, unwrapped to integers. *)

From S2P Require Import Prelude SeqNum SctpWire SctpPacket.
Open Scope Z_scope.

Definition kMaxDuplicateTsnReported : nat := 20.
Definition kMaxGapAckBlocksReported : nat := 20.
Definition kMaxAcceptedOutstandingFragments : Z := 100000.

(** ** AdditionalTsnBlocks *)

Record TsnRange := mkRange { first : Z; last : Z }.
#[export] Instance TsnRange_eta : Eta TsnRange := λ r, mkRange (first r) (last r).
#[export] Instance TsnRange_eq_dec : EqDecision TsnRange.
Proof. solve_decision. Defined.

(** [c_lower_bound]: the elements before and from the first that does not satisfy [less],
    which must hold on a prefix. *)
Fixpoint lower_bound {A} (less : A → bool) (l : list A) : list A * list A :=
  match l with
  | [] => ([], [])
  | a :: l' => if less a then let '(before, from) := lower_bound less l' in (a :: before, from) else ([], l)
  end.

Definition Add (tsn : Z) (blocks_ : list TsnRange) : bool * list TsnRange :=
  let '(before, from) := lower_bound (λ elem, next_value (last elem) <? tsn) blocks_ in
  match from with
  | [] => (true, blocks_ ++ [mkRange tsn tsn])
  | it :: rest =>
    if (first it <=? tsn) && (tsn <=? last it) then (false, blocks_)
    else if next_value (last it) =? tsn then
      match rest with
      | next_it :: rest' =>
        if next_value tsn =? first next_it
        then (true, before ++ it <| last := last next_it |> :: rest')
        else (true, before ++ it <| last := tsn |> :: rest)
      | [] => (true, before ++ it <| last := tsn |> :: rest)
      end
    else if first it =? next_value tsn then (true, before ++ it <| first := tsn |> :: rest)
    else (true, before ++ mkRange tsn tsn :: from)
  end.

Definition EraseTo (tsn : Z) (blocks_ : list TsnRange) : list TsnRange :=
  let '(_, from) := lower_bound (λ elem, last elem <? tsn) blocks_ in
  match from with
  | it :: rest => if first it <=? tsn then it <| first := next_value tsn |> :: rest else from
  | [] => []
  end.

Definition PopFront (blocks_ : list TsnRange) : list TsnRange := tail blocks_.

(** ** State *)

Inductive AckState := kIdle | kBecomingDelayed | kDelayed | kImmediate.
#[export] Instance AckState_eq_dec : EqDecision AckState.
Proof. solve_decision. Defined.

(** [delayed_ack_timer_] is whether the timer runs. *)
Record DataTracker := mkTracker {
  seen_packet_ : bool;
  delayed_ack_timer_ : bool;
  ack_state_ : AckState;
  tsn_unwrapper_ : SeqNumUnwrapper;
  last_cumulative_acked_tsn_ : Z;
  additional_tsn_blocks_ : list TsnRange;
  duplicate_tsns_ : gset Z
}.
#[export] Instance DataTracker_eta : Eta DataTracker := λ d,
  mkTracker (seen_packet_ d) (delayed_ack_timer_ d) (ack_state_ d) (tsn_unwrapper_ d)
    (last_cumulative_acked_tsn_ d) (additional_tsn_blocks_ d) (duplicate_tsns_ d).

Definition DataTracker_new (peer_initial_tsn : Z) : DataTracker :=
  let '(cum, u) := Unwrap 32 0 (wrap 32 (peer_initial_tsn - 1)) SeqNumUnwrapper_new in
  mkTracker false false kIdle u cum [] ∅.

(** ** Operations *)

Definition UpdateAckState (new_state : AckState) (d : DataTracker) : DataTracker :=
  if decide (new_state = ack_state_ d) then d
  else
    (if decide (ack_state_ d = kDelayed) then d <| delayed_ack_timer_ := false |>
     else if decide (new_state = kDelayed) then d <| delayed_ack_timer_ := true |> else d)
      <| ack_state_ := new_state |>.

Definition IsTSNValid (tsn : Z) (d : DataTracker) : bool :=
  let unwrapped_tsn := PeekUnwrap 32 0 tsn (tsn_unwrapper_ d) in
  negb (kMaxAcceptedOutstandingFragments <? Difference 32 unwrapped_tsn (last_cumulative_acked_tsn_ d)).

(** The cumulative TSN moves over the first block when it touches it. *)
Definition advance_cum_ack (d : DataTracker) : DataTracker :=
  match additional_tsn_blocks_ d with
  | r :: _ =>
    if first r =? next_value (last_cumulative_acked_tsn_ d)
    then d <| last_cumulative_acked_tsn_ := last r |> <| additional_tsn_blocks_ ::= PopFront |>
    else d
  | [] => d
  end.

Definition note_duplicate (unwrapped_tsn : Z) (d : DataTracker) : DataTracker :=
  if (size (duplicate_tsns_ d) <? kMaxDuplicateTsnReported)%nat
  then d <| duplicate_tsns_ := {[ Wrap 32 unwrapped_tsn ]} ∪ duplicate_tsns_ d |> else d.

(** The first half of [Observe]: whether the number is new. *)
Definition observe_tsn (unwrapped_tsn : Z) (d : DataTracker) : bool * DataTracker :=
  if unwrapped_tsn <=? last_cumulative_acked_tsn_ d
  then (false, UpdateAckState kImmediate (note_duplicate unwrapped_tsn d))
  else if unwrapped_tsn =? next_value (last_cumulative_acked_tsn_ d)
  then (true, advance_cum_ack (d <| last_cumulative_acked_tsn_ := unwrapped_tsn |>))
  else
    let '(inserted, blocks) := Add unwrapped_tsn (additional_tsn_blocks_ d) in
    let d1 := d <| additional_tsn_blocks_ := blocks |> in
    if inserted then (true, d1) else (false, note_duplicate unwrapped_tsn d1).

(** Data (or a forward TSN) asks for an acknowledgement with the next packet's. *)
Definition delay_ack (d : DataTracker) : DataTracker :=
  match ack_state_ d with
  | kIdle => UpdateAckState kBecomingDelayed d
  | kDelayed => UpdateAckState kImmediate d
  | _ => d
  end.

(** The second half: when the acknowledgement is due. *)
Definition schedule_ack (immediate_ack : bool) (d : DataTracker) : DataTracker :=
  let d1 := match additional_tsn_blocks_ d with [] => d | _ => UpdateAckState kImmediate d end in
  let d2 := if immediate_ack then UpdateAckState kImmediate d1 else d1 in
  delay_ack (if seen_packet_ d2 then d2 else UpdateAckState kImmediate (d2 <| seen_packet_ := true |>)).

Definition Observe (tsn : Z) (immediate_ack : bool) (d : DataTracker) : bool * DataTracker :=
  let '(unwrapped_tsn, u) := Unwrap 32 0 tsn (tsn_unwrapper_ d) in
  let '(is_new, d1) := observe_tsn unwrapped_tsn (d <| tsn_unwrapper_ := u |>) in
  (is_new, schedule_ack immediate_ack d1).

Definition HandleForwardTsn (new_cumulative_ack : Z) (d : DataTracker) : bool * DataTracker :=
  let '(unwrapped_tsn, u) := Unwrap 32 0 new_cumulative_ack (tsn_unwrapper_ d) in
  let d0 := d <| tsn_unwrapper_ := u |> in
  if unwrapped_tsn <=? last_cumulative_acked_tsn_ d0 then (false, UpdateAckState kImmediate d0)
  else
    (true, delay_ack (advance_cum_ack (d0 <| last_cumulative_acked_tsn_ := unwrapped_tsn |>
                                          <| additional_tsn_blocks_ ::= EraseTo unwrapped_tsn |>))).

(** Gap ack blocks are offsets from the cumulative TSN, of 16 bits. *)
Definition CreateGapAckBlocks (d : DataTracker) : list GapAckBlock :=
  (λ b, mkGap (wrap 16 (Difference 32 (first b) (last_cumulative_acked_tsn_ d)))
              (wrap 16 (Difference 32 (last b) (last_cumulative_acked_tsn_ d))))
    <$> take kMaxGapAckBlocksReported (additional_tsn_blocks_ d).

(** [a_rwnd] is stored in 32 bits. *)
Definition CreateSelectiveAck (a_rwnd : Z) (d : DataTracker) : SackChunk * DataTracker :=
  (mkSack (Wrap 32 (last_cumulative_acked_tsn_ d)) (wrap 32 a_rwnd) (CreateGapAckBlocks d) (duplicate_tsns_ d),
   d <| duplicate_tsns_ := ∅ |>).

Definition ShouldSendAck (also_if_delayed : bool) (d : DataTracker) : bool * DataTracker :=
  if bool_decide (ack_state_ d = kImmediate)
     || (also_if_delayed && (bool_decide (ack_state_ d = kBecomingDelayed) || bool_decide (ack_state_ d = kDelayed)))
  then (true, UpdateAckState kIdle d) else (false, d).

Definition last_cumulative_acked_tsn (d : DataTracker) : Z := Wrap 32 (last_cumulative_acked_tsn_ d).
Definition IsLaterThanCumulativeAckedTsn (tsn : Z) (d : DataTracker) : bool :=
  last_cumulative_acked_tsn_ d <? PeekUnwrap 32 0 tsn (tsn_unwrapper_ d).
Definition will_increase_cum_ack_tsn (tsn : Z) (d : DataTracker) : bool :=
  PeekUnwrap 32 0 tsn (tsn_unwrapper_ d) =? next_value (last_cumulative_acked_tsn_ d).

Definition ForceImmediateSack (d : DataTracker) : DataTracker := d <| ack_state_ := kImmediate |>.
Definition HandleDelayedAckTimerExpiry (d : DataTracker) : DataTracker := UpdateAckState kImmediate d.
Definition ObservePacketEnd (d : DataTracker) : DataTracker :=
  match ack_state_ d with kBecomingDelayed => UpdateAckState kDelayed d | _ => d end.

(** The part of the handover state the tracker fills in, and whether it is ready for it. *)
Record HandoverRx := mkHandoverRx { ho_last_cumulative_acked_tsn : Z; ho_seen_packet : bool }.
Definition ReadyForHandover (d : DataTracker) : bool := match additional_tsn_blocks_ d with [] => true | _ => false end.
Definition AddHandoverState (d : DataTracker) : HandoverRx :=
  mkHandoverRx (last_cumulative_acked_tsn d) (seen_packet_ d).
Definition RestoreFromState (state : HandoverRx) (d : DataTracker) : DataTracker :=
  let '(cum, u) := Unwrap 32 0 (ho_last_cumulative_acked_tsn state) (tsn_unwrapper_ d) in
  d <| seen_packet_ := ho_seen_packet state |> <| tsn_unwrapper_ := u |> <| last_cumulative_acked_tsn_ := cum |>.

(** ** The blocks as a set of numbers *)

#[global] Arguments next_value value : simpl never.

(** Blocks above [lo]: sorted, non-empty, and neither overlapping nor adjacent. *)
Fixpoint blocks_ok (lo : Z) (l : list TsnRange) : Prop :=
  match l with
  | [] => True
  | r :: l' => lo + 1 < first r ∧ first r ≤ last r ∧ blocks_ok (last r) l'
  end.
Definition in_range (t : Z) (r : TsnRange) : bool := (first r <=? t) && (t <=? last r).
Definition in_blocks (t : Z) (l : list TsnRange) : bool := existsb (in_range t) l.

Lemma in_range_spec t r : in_range t r = true ↔ first r ≤ t ≤ last r.
Proof. unfold in_range. lia. Qed.

Lemma blocks_ok_weaken lo lo' l : lo' ≤ lo → blocks_ok lo l → blocks_ok lo' l.
Proof. destruct l; cbn; [done|]. intros ? (? & ? & ?). split_and!; auto; lia. Qed.

Lemma in_blocks_above lo l t : blocks_ok lo l → in_blocks t l = true → lo + 1 < t.
Proof.
  revert lo. induction l as [|r l IH]; intros lo; cbn; [done|]. intros (H1 & H2 & H3) [H|H]%orb_true_iff.
  - apply in_range_spec in H. lia.
  - specialize (IH _ H3 H). lia.
Qed.

Lemma in_blocks_below lo l t : blocks_ok lo l → t ≤ lo + 1 → in_blocks t l = false.
Proof. intros H Ht. destruct (in_blocks t l) eqn:E; [|done]. apply (in_blocks_above lo) in E; [lia|done]. Qed.

Lemma in_blocks_app t l k : in_blocks t (l ++ k) = in_blocks t l || in_blocks t k.
Proof. unfold in_blocks. apply existsb_app. Qed.

(** The highest number below a block that follows [before]. *)
Definition top (lo : Z) (before : list TsnRange) : Z := fold_left (λ _ r, last r) before lo.

Lemma blocks_ok_app lo before from : blocks_ok lo (before ++ from) ↔ blocks_ok lo before ∧ blocks_ok (top lo before) from.
Proof.
  revert lo. induction before as [|r l IH]; intros lo; cbn; [tauto|]. rewrite IH. unfold top. tauto.
Qed.

Lemma lower_bound_split {A} (less : A → bool) l :
  let '(before, from) := lower_bound less l in
  l = before ++ from ∧ Forall (λ a, less a = true) before ∧ (∀ a r, from = a :: r → less a = false).
Proof.
  induction l as [|a l IH]; cbn; [done|]. destruct (less a) eqn:E; [|by split_and!; [|constructor|intros ? ? [= <- _]]].
  destruct (lower_bound less l) as [before from]. destruct IH as (-> & H1 & H2). split_and!; [done|by constructor|done].
Qed.

Lemma top_below lo before tsn :
  blocks_ok lo before → Forall (λ r, last r < tsn) before → lo < tsn → lo ≤ top lo before ∧ top lo before < tsn.
Proof.
  revert lo. induction before as [|r l IH]; intros lo; cbn; [lia|]. intros (H1 & H2 & H3) [Hr Hl]%list.Forall_cons Hlo.
  destruct (IH (last r) H3 Hl Hr). unfold top in *. lia.
Qed.

(** [c_lower_bound] is only meaningful where [less] holds on a prefix: it always does, for a
    bound on the end of a block. *)
Lemma blocks_sorted lo l tsn : blocks_ok lo l →
  let '(_, from) := lower_bound (λ elem, last elem <? tsn) l in Forall (λ elem, tsn ≤ last elem) from.
Proof.
  revert lo. induction l as [|r l IH]; intros lo; cbn; [done|]. intros (H1 & H2 & H3). destruct (Z.ltb_spec (last r) tsn).
  - specialize (IH _ H3). by destruct (lower_bound _ l).
  - constructor; [done|]. clear IH H1. revert r H2 H3 H. induction l as [|r' l IH]; intros r H2 H3 H; [done|].
    destruct H3 as (G1 & G2 & G3). constructor; [lia|]. apply (IH r'); [done|done|lia].
Qed.

Ltac range_facts := unfold next_value in *; cbn [first last set_field] in *.

Lemma in_blocks_before before t tsn lo :
  blocks_ok lo before → Forall (λ r, next_value (last r) < tsn) before → tsn ≤ t → in_blocks t before = false.
Proof.
  revert lo. induction before as [|r l IH]; intros lo; cbn; [done|]. intros (H1 & H2 & H3) [Hr Hl]%list.Forall_cons Ht.
  change (in_range t r || in_blocks t l = false). rewrite (IH (last r)) by done. unfold in_range, next_value in *. lia.
Qed.

(** Replacing the blocks behind [before] by ones that hold [tsn] too. *)
Lemma add_behind lo tsn before from new :
  blocks_ok lo before → in_blocks tsn before = false → blocks_ok (top lo before) new →
  in_blocks tsn from = false → (∀ t, in_blocks t new = (t =? tsn) || in_blocks t from) →
  blocks_ok lo (before ++ new) ∧ true = negb (in_blocks tsn (before ++ from))
  ∧ ∀ t, in_blocks t (before ++ new) = (t =? tsn) || in_blocks t (before ++ from).
Proof.
  intros H1 H2 H3 H4 H5. split_and!; [by apply blocks_ok_app | by rewrite in_blocks_app, H2, H4 |].
  intros t. rewrite !in_blocks_app, H5. by destruct (in_blocks t before), (t =? tsn).
Qed.

Ltac member t := cbn [in_blocks existsb]; unfold in_range; cbn [first last set_field];
  fold (in_range t); repeat match goal with |- context [existsb ?f ?l] => generalize (existsb f l); intros [] end; lia.

Lemma Add_spec lo tsn l :
  blocks_ok lo l → lo + 1 < tsn →
  let '(inserted, l') := Add tsn l in
  blocks_ok lo l' ∧ inserted = negb (in_blocks tsn l) ∧ ∀ t, in_blocks t l' = (t =? tsn) || in_blocks t l.
Proof.
  intros Hok Hlo. unfold Add. pose proof (lower_bound_split (λ elem, next_value (last elem) <? tsn) l) as Hs.
  destruct (lower_bound _ l) as [before from]. destruct Hs as (-> & Hb & Hf). apply blocks_ok_app in Hok as [Hok1 Hok2].
  assert (Forall (λ r, next_value (last r) < tsn) before) as Hb' by (eapply Forall_impl; [exact Hb|]; cbn; intros; lia).
  assert (top lo before + 1 < tsn) as Htop.
  { enough (top lo before < tsn - 1) by lia. apply top_below; [done| |lia].
    eapply Forall_impl; [exact Hb'|]. unfold next_value. cbn. intros; lia. }
  assert (in_blocks tsn before = false) as Hnb by (eapply in_blocks_before; [done|done|lia]).
  destruct from as [|it rest].
  { rewrite <- app_assoc. cbn [app]. apply (add_behind lo tsn before []); try done. intros t. member t. }
  specialize (Hf it rest eq_refl). destruct Hok2 as (I1 & I2 & I3). range_facts.
  destruct ((first it <=? tsn) && (tsn <=? last it)) eqn:E1.
  { assert (in_range tsn it = true) as Hr by done.
    split_and!; [by apply blocks_ok_app | | intros t]; rewrite !in_blocks_app; cbn [in_blocks existsb].
    - by rewrite Hr, orb_true_r.
    - destruct (Z.eqb_spec t tsn) as [->|]; [|done]. by rewrite Hr, orb_true_r. }
  assert (in_blocks tsn (it :: rest) = false) as Hnr.
  { cbn [in_blocks existsb]. unfold in_range at 1. rewrite E1. cbn [orb].
    destruct (Z.le_gt_cases tsn (last it + 1)); [by apply (in_blocks_below (last it)) | lia]. }
  destruct (Z.eqb_spec (last it + 1) tsn) as [Ea|Ea].
  - destruct rest as [|next_it rest']; [|destruct I3 as (J1 & J2 & J3); destruct (Z.eqb_spec (tsn + 1) (first next_it))];
      (apply add_behind; try done; [cbn [blocks_ok]; range_facts; split_and!; try done; lia | intros t; member t]).
  - destruct (Z.eqb_spec (first it) (tsn + 1));
      (apply add_behind; try done; [cbn [blocks_ok]; range_facts; split_and!; try done; lia | intros t; member t]).
Qed.

(** ** The tracker as a set of numbers *)

Definition tracker_ok (d : DataTracker) : Prop := blocks_ok (last_cumulative_acked_tsn_ d) (additional_tsn_blocks_ d).
Definition seen (d : DataTracker) (t : Z) : bool :=
  (t <=? last_cumulative_acked_tsn_ d) || in_blocks t (additional_tsn_blocks_ d).

(** The data of a tracker, as opposed to the schedule of its acknowledgements. *)
Definition same_data (d d' : DataTracker) : Prop :=
  last_cumulative_acked_tsn_ d' = last_cumulative_acked_tsn_ d
  ∧ additional_tsn_blocks_ d' = additional_tsn_blocks_ d ∧ tsn_unwrapper_ d' = tsn_unwrapper_ d.

#[export] Instance same_data_refl : Reflexive same_data.
Proof. by intros d. Qed.
#[export] Instance same_data_trans : Transitive same_data.
Proof. intros d1 d2 d3 (? & ? & ?) (? & ? & ?). split_and!; congruence. Qed.

Lemma same_data_seen d d' t : same_data d d' → seen d' t = seen d t.
Proof. unfold seen. by intros (-> & -> & _). Qed.
Lemma same_data_ok d d' : same_data d d' → tracker_ok d → tracker_ok d'.
Proof. unfold tracker_ok. by intros (-> & -> & _). Qed.

Lemma UpdateAckState_data new_state d : same_data d (UpdateAckState new_state d).
Proof. unfold UpdateAckState. repeat case_decide; done. Qed.
Lemma note_duplicate_data t d : same_data d (note_duplicate t d).
Proof. unfold note_duplicate. by case_match. Qed.
#[local] Hint Resolve UpdateAckState_data note_duplicate_data : core.

Lemma delay_ack_data d : same_data d (delay_ack d).
Proof. unfold delay_ack. case_match; first [reflexivity | apply UpdateAckState_data]. Qed.

Lemma schedule_ack_data immediate d : same_data d (schedule_ack immediate d).
Proof.
  unfold schedule_ack. cbv zeta.
  etrans; [|apply delay_ack_data].
  destruct (additional_tsn_blocks_ d), immediate; (case_match; [|etrans; [|apply UpdateAckState_data]; etrans; [|done]]);
    repeat (done || (etrans; [|apply UpdateAckState_data])).
Qed.

(** Blocks from which the cumulative TSN can be advanced: the first may touch it, and is
    empty only then. *)
Definition blocks_touching (cum : Z) (l : list TsnRange) : Prop :=
  match l with
  | [] => True
  | r :: l' => cum < first r ∧ (first r ≤ last r ∨ (first r = cum + 1 ∧ last r = cum)) ∧ blocks_ok (last r) l'
  end.

Lemma blocks_ok_touching cum l : blocks_ok cum l → blocks_touching cum l.
Proof. destruct l; cbn; [done|]. intros (? & ? & ?). split_and!; [lia|by left|done]. Qed.

Lemma blocks_ok_touching_next cum l : blocks_ok cum l → blocks_touching (cum + 1) l.
Proof. destruct l; cbn; [done|]. intros (? & ? & ?). split_and!; [lia|by left|done]. Qed.

Lemma advance_cum_ack_spec d :
  blocks_touching (last_cumulative_acked_tsn_ d) (additional_tsn_blocks_ d) →
  tracker_ok (advance_cum_ack d) ∧ (∀ t, seen (advance_cum_ack d) t = seen d t)
  ∧ last_cumulative_acked_tsn_ d ≤ last_cumulative_acked_tsn_ (advance_cum_ack d)
  ∧ tsn_unwrapper_ (advance_cum_ack d) = tsn_unwrapper_ d.
Proof.
  unfold advance_cum_ack, tracker_ok, seen. destruct (additional_tsn_blocks_ d) as [|r l] eqn:E.
  { rewrite E. intros _. split_and!; [done|done|lia|done]. }
  cbn [blocks_touching]. intros (H1 & H2 & H3). unfold next_value.
  destruct (Z.eqb_spec (first r) (last_cumulative_acked_tsn_ d + 1)) as [He|He].
  - cbn. rewrite E. cbn. split_and!; [done| |lia|done]. intros t. fold (in_blocks t l). destruct (in_blocks t l).
    + by rewrite !orb_true_r.
    + unfold in_range. lia.
  - rewrite E. split_and!; [|done|lia|done]. cbn. split_and!; [lia|lia|done].
Qed.

Lemma EraseTo_spec lo tsn l :
  blocks_ok lo l → lo < tsn →
  blocks_touching tsn (EraseTo tsn l) ∧ ∀ t, tsn < t → in_blocks t (EraseTo tsn l) = in_blocks t l.
Proof.
  intros Hok Hlo. unfold EraseTo. pose proof (lower_bound_split (λ elem, last elem <? tsn) l) as Hs.
  destruct (lower_bound _ l) as [before from]. destruct Hs as (-> & Hb & Hf). apply blocks_ok_app in Hok as [Hok1 Hok2].
  assert (Forall (λ r, last r < tsn) before) as Hb' by (eapply Forall_impl; [exact Hb|]; cbn; intros; lia).
  assert (∀ t, tsn < t → in_blocks t before = false) as Hbelow.
  { intros t Ht. apply (in_blocks_before before t t lo); [done| |done]. eapply Forall_impl; [exact Hb'|]. unfold next_value. cbn. intros. lia. }
  destruct from as [|it rest]; [split; [done|]; intros t Ht; by rewrite app_nil_r, Hbelow|].
  specialize (Hf it rest eq_refl). destruct Hok2 as (I1 & I2 & I3).
  destruct (Z.leb_spec (first it) tsn); split.
  - cbn. unfold next_value. split_and!; [lia|lia|done].
  - intros t Ht. rewrite in_blocks_app, Hbelow by done. cbn [orb]. unfold next_value. member t.
  - cbn. split_and!; [lia|lia|done].
  - intros t Ht. by rewrite in_blocks_app, Hbelow by done.
Qed.

#[global] Arguments in_blocks t l : simpl never.

(** What arrives is added to what was seen, and reported as new exactly when it was not. *)
Lemma observe_tsn_spec x d :
  tracker_ok d →
  let '(is_new, d') := observe_tsn x d in
  tracker_ok d' ∧ is_new = negb (seen d x) ∧ (∀ t, seen d' t = (t =? x) || seen d t)
  ∧ last_cumulative_acked_tsn_ d ≤ last_cumulative_acked_tsn_ d' ∧ tsn_unwrapper_ d' = tsn_unwrapper_ d.
Proof.
  intros Hok. unfold observe_tsn. destruct (Z.leb_spec x (last_cumulative_acked_tsn_ d)) as [Hx|Hx].
  { pose proof (transitivity (note_duplicate_data x d) (UpdateAckState_data kImmediate _)) as Hsame.
    pose proof Hsame as (Hc & _ & Hu). split_and!; [by eapply same_data_ok | | |lia|done].
    - unfold seen. by rewrite (proj2 (Z.leb_le _ _)).
    - intros t. rewrite (same_data_seen _ _ t Hsame). unfold seen. destruct (in_blocks _ _); lia. }
  unfold next_value. destruct (Z.eqb_spec x (last_cumulative_acked_tsn_ d + 1)) as [Hn|Hn].
  { destruct (advance_cum_ack_spec (d <| last_cumulative_acked_tsn_ := x |>)) as (A1 & A2 & A3 & A4).
    { cbn. rewrite Hn. by apply blocks_ok_touching_next. }
    cbn in A3. split_and!; [done| | |lia|done].
    - unfold seen. rewrite (in_blocks_below (last_cumulative_acked_tsn_ d)); [lia|done|lia].
    - intros t. rewrite A2. unfold seen. cbn. destruct (in_blocks _ _); lia. }
  pose proof (Add_spec (last_cumulative_acked_tsn_ d) x (additional_tsn_blocks_ d) Hok ltac:(lia)) as Hadd.
  destruct (Add x _) as [inserted blocks]. destruct Hadd as (B1 & B2 & B3).
  assert (∀ t, seen (d <| additional_tsn_blocks_ := blocks |>) t = (t =? x) || seen d t) as Hseen.
  { intros t. unfold seen. cbn. rewrite B3. by destruct (t <=? _), (t =? x). }
  assert (negb (seen d x) = inserted) as <-.
  { rewrite B2. unfold seen. destruct (in_blocks x _); lia. }
  destruct (seen d x) eqn:Es; cbn [negb].
  - pose proof (note_duplicate_data x (d <| additional_tsn_blocks_ := blocks |>)) as Hsame. pose proof Hsame as (Hc & _ & Hu).
    split_and!; [by eapply same_data_ok |done| |rewrite Hc; done|by rewrite Hu]. intros t. by rewrite (same_data_seen _ _ t Hsame).
  - by split_and!.
Qed.

Lemma Observe_spec tsn immediate d :
  tracker_ok d →
  let x := PeekUnwrap 32 0 tsn (tsn_unwrapper_ d) in
  let '(is_new, d') := Observe tsn immediate d in
  tracker_ok d' ∧ is_new = negb (seen d x) ∧ (∀ t, seen d' t = (t =? x) || seen d t)
  ∧ last_cumulative_acked_tsn_ d ≤ last_cumulative_acked_tsn_ d' ∧ tsn_unwrapper_ d' = mkUnwrapper x (Some tsn).
Proof.
  intros Hok x. unfold Observe, Unwrap. fold (PeekUnwrap 32 0 tsn (tsn_unwrapper_ d)). fold x.
  match goal with |- context [observe_tsn x ?d0] => pose proof (observe_tsn_spec x d0 Hok) as H end.
  destruct (observe_tsn _ _) as [is_new d1]. destruct H as (H1 & H2 & H3 & H4 & H5).
  pose proof (schedule_ack_data immediate d1) as Hsame. pose proof Hsame as (Hc & _ & Hu).
  split_and!; [by eapply same_data_ok | done | intros t; by rewrite (same_data_seen _ _ t Hsame) | by rewrite Hc | by rewrite Hu].
Qed.

Lemma HandleForwardTsn_spec tsn d :
  tracker_ok d →
  let x := PeekUnwrap 32 0 tsn (tsn_unwrapper_ d) in
  let '(effect, d') := HandleForwardTsn tsn d in
  tracker_ok d' ∧ effect = (last_cumulative_acked_tsn_ d <? x) ∧ (∀ t, seen d' t = (t <=? x) || seen d t)
  ∧ last_cumulative_acked_tsn_ d ≤ last_cumulative_acked_tsn_ d' ∧ tsn_unwrapper_ d' = mkUnwrapper x (Some tsn).
Proof.
  intros Hok x. unfold HandleForwardTsn, Unwrap. fold (PeekUnwrap 32 0 tsn (tsn_unwrapper_ d)). fold x. cbv zeta.
  set (d0 := d <| tsn_unwrapper_ := mkUnwrapper x (Some tsn) |>). destruct (Z.leb_spec x (last_cumulative_acked_tsn_ d0)) as [Hx|Hx].
  { pose proof (UpdateAckState_data kImmediate d0) as Hsame. pose proof Hsame as (Hc & _ & Hu). cbn in Hx.
    split_and!; [by eapply same_data_ok | lia | | by rewrite Hc | by rewrite Hu].
    intros t. rewrite (same_data_seen _ _ t Hsame). unfold seen. cbn. destruct (in_blocks _ _); lia. }
  destruct (EraseTo_spec _ x _ Hok Hx) as [E1 E2]. cbn in Hx.
  set (d1 := d0 <| last_cumulative_acked_tsn_ := x |> <| additional_tsn_blocks_ ::= EraseTo x |>).
  destruct (advance_cum_ack_spec d1 E1) as (A1 & A2 & A3 & A4).
  assert (∀ t, seen (advance_cum_ack d1) t = (t <=? x) || seen d t) as Hseen.
  { intros t. rewrite A2. unfold seen. cbn. destruct (Z.leb_spec t x); [done|]. rewrite E2 by done.
    by rewrite (proj2 (Z.leb_gt t _)) by lia. }
  pose proof (delay_ack_data (advance_cum_ack d1)) as Hsame.
  pose proof Hsame as (Hc & _ & Hu). cbn in A3.
  split_and!; [by eapply same_data_ok | by rewrite (proj2 (Z.ltb_lt _ _)) | intros t; by rewrite (same_data_seen _ _ t Hsame)
    | rewrite Hc; lia | by rewrite Hu, A4].
Qed.

(** ** Sequences of arrivals

    [x] is the number the sender meant; its last 32 bits arrive. *)

Inductive arrival := Arrive (x : Z) (immediate : bool) | Skip (x : Z).
Definition arrived (e : arrival) : Z := match e with Arrive x _ | Skip x => x end.

Definition receive (e : arrival) (d : DataTracker) : bool * DataTracker :=
  match e with
  | Arrive x immediate => Observe (wrap 32 x) immediate d
  | Skip x => HandleForwardTsn (wrap 32 x) d
  end.

Fixpoint receive_all (es : list arrival) (d : DataTracker) : list bool * DataTracker :=
  match es with
  | [] => ([], d)
  | e :: es' => let '(r, d1) := receive e d in let '(rs, d2) := receive_all es' d1 in (r :: rs, d2)
  end.

(** Every arrival is within the window the tracker accepts. *)
Fixpoint in_window (es : list arrival) (d : DataTracker) : Prop :=
  match es with
  | [] => True
  | e :: es' => Z.abs (arrived e - last_cumulative_acked_tsn_ d) ≤ kMaxAcceptedOutstandingFragments
                ∧ in_window es' (receive e d).2
  end.

(** The contract: a set of numbers.  Data is new when it is not in the set and joins it; a
    forward TSN fills the set up to its number and has an effect when something was missing. *)
Fixpoint promised (S : Z → bool) (es : list arrival) (rs : list bool) : Prop :=
  match es, rs with
  | [], [] => True
  | Arrive x _ :: es', r :: rs' => r = negb (S x) ∧ promised (λ t, (t =? x) || S t) es' rs'
  | Skip x :: es', r :: rs' => (r = true ↔ ∃ t, t ≤ x ∧ S t = false) ∧ promised (λ t, (t <=? x) || S t) es' rs'
  | _, _ => False
  end.
Definition received_set (S : Z → bool) (es : list arrival) : Z → bool :=
  fold_left (λ S e, match e with Arrive x _ => λ t, (t =? x) || S t | Skip x => λ t, (t <=? x) || S t end) es S.

(** The unwrapper stays near the window, so that 32 bits are enough to find the number. *)
Definition tracker_inv (d : DataTracker) : Prop :=
  tracker_ok d ∧ (∀ t, seen d t = true → t ≤ last_cumulative_acked_tsn_ d + kMaxAcceptedOutstandingFragments)
  ∧ ∃ v, tsn_unwrapper_ d = mkUnwrapper v (Some (wrap 32 v))
       ∧ Z.abs (v - last_cumulative_acked_tsn_ d) ≤ 2 * kMaxAcceptedOutstandingFragments.

Lemma peek_in_window d x :
  tracker_inv d → Z.abs (x - last_cumulative_acked_tsn_ d) ≤ kMaxAcceptedOutstandingFragments →
  PeekUnwrap 32 0 (wrap 32 x) (tsn_unwrapper_ d) = x.
Proof.
  intros (_ & _ & v & Hv & Hd) Hx. unfold PeekUnwrap. rewrite Hv. cbn [last_value_ last_unwrapped_].
  unfold kMaxAcceptedOutstandingFragments in *. rewrite Delta_exact by lia. lia.
Qed.

Lemma cum_seen d : seen d (last_cumulative_acked_tsn_ d) = true.
Proof. unfold seen. by rewrite Z.leb_refl. Qed.
Lemma next_not_seen d : tracker_ok d → seen d (last_cumulative_acked_tsn_ d + 1) = false.
Proof. intros Hok. unfold seen. rewrite (in_blocks_below (last_cumulative_acked_tsn_ d)); [lia|done|lia]. Qed.

Lemma receive_step e d :
  tracker_inv d → Z.abs (arrived e - last_cumulative_acked_tsn_ d) ≤ kMaxAcceptedOutstandingFragments →
  let '(r, d') := receive e d in
  tracker_inv d' ∧ last_cumulative_acked_tsn_ d ≤ last_cumulative_acked_tsn_ d' ∧
  match e with
  | Arrive x _ => r = negb (seen d x) ∧ ∀ t, seen d' t = (t =? x) || seen d t
  | Skip x => r = (last_cumulative_acked_tsn_ d <? x) ∧ ∀ t, seen d' t = (t <=? x) || seen d t
  end.
Proof.
  intros Hinv Hx. pose proof (peek_in_window d _ Hinv Hx) as Hpeek. pose proof Hinv as (Hok & Hmax & _).
  destruct e as [x immediate|x]; cbn [receive arrived] in *.
  - pose proof (Observe_spec (wrap 32 x) immediate d Hok) as H. cbv zeta in H. rewrite Hpeek in H.
    destruct (Observe _ _ _) as [r d']. destruct H as (H1 & H2 & H3 & H4 & H5). split_and!; try done.
    pose proof (cum_seen d') as Hc. rewrite H3 in Hc. apply orb_true_iff in Hc as [Hc|Hc%Hmax];
      (split_and!; [done | intros t Ht; rewrite H3 in Ht; apply orb_true_iff in Ht as [Ht|Ht%Hmax]; lia |
        exists x; split; [done|]; lia]).
  - pose proof (HandleForwardTsn_spec (wrap 32 x) d Hok) as H. cbv zeta in H. rewrite Hpeek in H.
    destruct (HandleForwardTsn _ _) as [r d']. destruct H as (H1 & H2 & H3 & H4 & H5). split_and!; try done.
    pose proof (cum_seen d') as Hc. rewrite H3 in Hc. apply orb_true_iff in Hc as [Hc|Hc%Hmax];
      (split_and!; [done | intros t Ht; rewrite H3 in Ht; apply orb_true_iff in Ht as [Ht|Ht%Hmax]; lia |
        exists x; split; [done|]; lia]).
Qed.

Lemma DataTracker_new_inv i : tracker_inv (DataTracker_new i) ∧ ∀ t, seen (DataTracker_new i) t = (t <=? wrap 32 (i - 1)).
Proof.
  unfold DataTracker_new, Unwrap. cbn [last_value_ SeqNumUnwrapper_new]. split.
  - split; [done|]. split; [intros t Ht; unfold seen, in_blocks, kMaxAcceptedOutstandingFragments in *; cbn in *; lia|].
    eexists. split; [cbn; by rewrite (wrap_small 32 (wrap 32 (i - 1))) by by apply wrap_uint|].
    cbn [last_cumulative_acked_tsn_]. unfold kMaxAcceptedOutstandingFragments. lia.
  - intros t. unfold seen. cbn. by rewrite orb_false_r.
Qed.

Lemma promised_ext S S' es rs : (∀ t, S t = S' t) → promised S es rs → promised S' es rs.
Proof.
  revert S S' rs. induction es as [|[x i|x] es IH]; intros S S' rs HS; destruct rs as [|r rs]; cbn; try done.
  - intros [H1 H2]. rewrite <- HS. split; [done|]. eapply IH; [|exact H2]. intros t. cbn. by rewrite HS.
  - intros [H1 H2]. split; [setoid_rewrite <- HS; done|]. eapply IH; [|exact H2]. intros t. cbn. by rewrite HS.
Qed.

Lemma received_set_ext S S' es t : (∀ t, S t = S' t) → received_set S es t = received_set S' es t.
Proof.
  revert S S'. induction es as [|[x i|x] es IH]; intros S S' HS; cbn; [done|..]; apply IH; intros u; by rewrite HS.
Qed.

(** Below the number of a forward TSN something is missing exactly when it is above the
    cumulative number. *)
Lemma forward_has_effect d x : tracker_ok d → (last_cumulative_acked_tsn_ d <? x) = true ↔ ∃ t, t ≤ x ∧ seen d t = false.
Proof.
  intros Hok. rewrite Z.ltb_lt. split.
  - intros Hx. exists (last_cumulative_acked_tsn_ d + 1). split; [lia|]. by apply next_not_seen.
  - intros (t & Ht & Hs). unfold seen in Hs. apply orb_false_iff in Hs as [Hs _]. lia.
Qed.

Lemma receive_all_promised es d :
  tracker_inv d → in_window es d →
  let '(rs, d') := receive_all es d in
  promised (seen d) es rs ∧ tracker_inv d' ∧ last_cumulative_acked_tsn_ d ≤ last_cumulative_acked_tsn_ d'
  ∧ ∀ t, seen d' t = received_set (seen d) es t.
Proof.
  revert d. induction es as [|e es IH]; intros d Hinv; [intros _; cbn; split_and!; try done; lia|]. intros [Hx Hw]. cbn [receive_all in_window] in *.
  pose proof (receive_step e d Hinv Hx) as Hstep. destruct (receive e d) as [r d1]. destruct Hstep as (Hinv1 & Hle & Hstep).
  specialize (IH d1 Hinv1 Hw). destruct (receive_all es d1) as [rs d2]. destruct IH as (H1 & H2 & H3 & H4).
  destruct e as [x i|x]; destruct Hstep as [Hr Hs]; cbn [promised received_set fold_left].
  - split_and!; [done | by eapply promised_ext | done | lia |]. intros t. rewrite H4. by apply received_set_ext.
  - split_and!; [rewrite Hr; apply forward_has_effect, Hinv | by eapply promised_ext | done | lia |].
    intros t. rewrite H4. by apply received_set_ext.
Qed.

(** ** Properties *)

(** C14: Each data chunk is reported as new exactly once: for any sequence of data chunks and
    forward TSNs inside the accepted window, in any order and with any repetitions and gaps,
    the tracker answers as the plain set of received numbers would.  At the end the
    cumulative number is the largest below which nothing is missing. *)
Theorem data_tracker_exactly_once i es :
  uint 32 i → in_window es (DataTracker_new i) →
  let '(rs, d) := receive_all es (DataTracker_new i) in
  let S := received_set (λ t, t <=? wrap 32 (i - 1)) es in
  promised (λ t, t <=? wrap 32 (i - 1)) es rs
  ∧ (∀ t, t ≤ last_cumulative_acked_tsn_ d → S t = true) ∧ S (last_cumulative_acked_tsn_ d + 1) = false
  ∧ (∀ t, in_blocks t (additional_tsn_blocks_ d) = (last_cumulative_acked_tsn_ d <? t) && S t).
Proof.
  intros Hi Hw. destruct (DataTracker_new_inv i) as [Hinv Hnew].
  pose proof (receive_all_promised es _ Hinv Hw) as H. destruct (receive_all es _) as [rs d]. destruct H as (H1 & (Hok & _) & _ & H4).
  cbv zeta. assert (∀ t, received_set (λ t, t <=? wrap 32 (i - 1)) es t = seen d t) as HS.
  { intros t. rewrite H4. by apply received_set_ext. }
  split_and!; [by eapply promised_ext | intros t Ht; rewrite HS; unfold seen; lia | rewrite HS; by apply next_not_seen |].
  intros t. rewrite HS. unfold seen. destruct (Z.ltb_spec (last_cumulative_acked_tsn_ d) t).
  - by rewrite (proj2 (Z.leb_gt t _)).
  - rewrite (in_blocks_below (last_cumulative_acked_tsn_ d)); [done|done|lia].
Qed.

Lemma data_tracker_exactly_once_witness :
  let es := [Arrive 0x100000001 false; Arrive 0x100000004 false; Arrive 0x100000000 true; Arrive 0x100000004 false; Skip 0x100000003] in
  let '(rs, d) := receive_all es (DataTracker_new 0xFFFFFFFF) in
  let S := received_set (λ t, t <=? wrap 32 (0xFFFFFFFF - 1)) es in
  promised (λ t, t <=? wrap 32 (0xFFFFFFFF - 1)) es rs
  ∧ (∀ t, t ≤ last_cumulative_acked_tsn_ d → S t = true) ∧ S (last_cumulative_acked_tsn_ d + 1) = false
  ∧ (∀ t, in_blocks t (additional_tsn_blocks_ d) = (last_cumulative_acked_tsn_ d <? t) && S t).
Proof.
  apply (data_tracker_exactly_once 0xFFFFFFFF
    [Arrive 0x100000001 false; Arrive 0x100000004 false; Arrive 0x100000000 true; Arrive 0x100000004 false; Skip 0x100000003]);
    [unfold uint; lia | vm_compute; intuition discriminate].
Defined.

(** ** The acknowledgement *)

(** What a selective acknowledgement tells the sender whose cumulative number is [cum]. *)
Definition sack_acks (cum : Z) (s : SackChunk) (t : Z) : bool :=
  (t <=? cum) || existsb (λ g, (cum + gap_start g <=? t) && (t <=? cum + gap_end g)) (gap_ack_blocks_ s).

(** Offsets of 16 bits say what they should for blocks near the cumulative number. *)
Lemma gap_offset cum t : cum < t ≤ cum + 0xFFFF → wrap 16 (Difference 32 t cum) = t - cum.
Proof.
  intros Ht. unfold Difference. destruct (Z.ltb_spec cum t); [|lia].
  rewrite (wrap_small 32), (wrap_small 16) by (unfold uint; lia). lia.
Qed.

Lemma blocks_last_above lo l r : blocks_ok lo l → r ∈ l → lo < first r ∧ first r ≤ last r.
Proof.
  revert lo. induction l as [|r' l IH]; intros lo; [by intros _ ?%not_elem_of_nil|]. intros (H1 & H2 & H3) [->|Hr]%elem_of_cons; [lia|].
  destruct (IH _ H3 Hr). lia.
Qed.

Lemma gap_blocks_acks d t :
  tracker_ok d → Forall (λ r, last r ≤ last_cumulative_acked_tsn_ d + 0xFFFF) (additional_tsn_blocks_ d) →
  existsb (λ g, (last_cumulative_acked_tsn_ d + gap_start g <=? t) && (t <=? last_cumulative_acked_tsn_ d + gap_end g))
    (CreateGapAckBlocks d) = in_blocks t (take kMaxGapAckBlocksReported (additional_tsn_blocks_ d)).
Proof.
  intros Hok Hnear. unfold CreateGapAckBlocks, in_blocks.
  assert (∀ r, r ∈ take kMaxGapAckBlocksReported (additional_tsn_blocks_ d) →
    last_cumulative_acked_tsn_ d < first r ∧ first r ≤ last r ∧ last r ≤ last_cumulative_acked_tsn_ d + 0xFFFF) as Hall.
  { intros r Hr. apply elem_of_take in Hr as (i & Hi & _). apply list_elem_of_lookup_2 in Hi.
    rewrite Forall_forall in Hnear. specialize (Hnear r Hi). cbn in Hnear. by destruct (blocks_last_above _ _ r Hok Hi). }
  induction (take kMaxGapAckBlocksReported (additional_tsn_blocks_ d)) as [|r l IH]; [done|].
  cbn. rewrite IH by (intros; apply Hall; by right). destruct (Hall r ltac:(by left)) as (H1 & H2 & H3).
  f_equal. unfold in_range. rewrite !gap_offset by lia. do 2 f_equal; lia.
Qed.

(** A selective acknowledgement is sound: as long as no block reaches more than 65535 numbers
    past the cumulative number, it acknowledges nothing that has not been received.  With at
    most twenty blocks it acknowledges everything that has; the duplicates it reports are
    forgotten. *)
Theorem selective_ack_sound a_rwnd d :
  tracker_ok d → Forall (λ r, last r ≤ last_cumulative_acked_tsn_ d + 0xFFFF) (additional_tsn_blocks_ d) →
  let '(s, d') := CreateSelectiveAck a_rwnd d in
  cumulative_tsn_ack_ s = last_cumulative_acked_tsn d
  ∧ (∀ t, sack_acks (last_cumulative_acked_tsn_ d) s t = true → seen d t = true)
  ∧ ((length (additional_tsn_blocks_ d) ≤ kMaxGapAckBlocksReported)%nat →
     ∀ t, sack_acks (last_cumulative_acked_tsn_ d) s t = seen d t)
  ∧ duplicate_tsns_ d' = ∅ ∧ (∀ t, seen d' t = seen d t).
Proof.
  intros Hok Hnear. unfold CreateSelectiveAck, sack_acks, seen. cbn. split_and!; try done.
  - intros t. rewrite gap_blocks_acks by done. intros [->|H]%orb_true_iff; [done|].
    rewrite <- (take_drop kMaxGapAckBlocksReported (additional_tsn_blocks_ d)), in_blocks_app, H. by rewrite orb_true_r.
  - intros Hl t. rewrite gap_blocks_acks by done. by rewrite take_ge.
Qed.

Lemma selective_ack_sound_witness :
  let d := (receive_all [Arrive 3 false; Arrive 4 false; Arrive 9 false] (DataTracker_new 1)).2 in
  let '(s, d') := CreateSelectiveAck 5000 d in
  cumulative_tsn_ack_ s = last_cumulative_acked_tsn d
  ∧ (∀ t, sack_acks (last_cumulative_acked_tsn_ d) s t = true → seen d t = true)
  ∧ ((length (additional_tsn_blocks_ d) ≤ kMaxGapAckBlocksReported)%nat →
     ∀ t, sack_acks (last_cumulative_acked_tsn_ d) s t = seen d t)
  ∧ duplicate_tsns_ d' = ∅ ∧ (∀ t, seen d' t = seen d t).
Proof.
  apply (selective_ack_sound 5000 ((receive_all [Arrive 3 false; Arrive 4 false; Arrive 9 false] (DataTracker_new 1)).2)).
  - vm_compute. intuition discriminate.
  - vm_compute. repeat constructor; discriminate.
Defined.

(** Farther blocks are accepted, but their offsets do not fit: the acknowledgement then
    covers numbers that never arrived. *)
Theorem selective_ack_truncates_offsets :
  let d := DataTracker_new 1 in
  let d1 := (Observe 65540 false d).2 in
  let s := (CreateSelectiveAck 5000 d1).1 in
  IsTSNValid 65540 d = true ∧ sack_acks (last_cumulative_acked_tsn_ d1) s 4 = true ∧ seen d1 4 = false
  ∧ sack_acks (last_cumulative_acked_tsn_ d1) s 65540 = false ∧ seen d1 65540 = true.
Proof. by vm_compute. Qed.

(** ** When an acknowledgement is due *)

(** The calls of the socket that change the tracker.  The delayed acknowledgement's timer stops
    when it expires. *)
Inductive ack_event :=
| AckData (tsn : Z) (immediate : bool)
| AckForward (tsn : Z)
| AckPacketEnd
| AckShouldSend (also_if_delayed : bool)
| AckTimer
| AckSack (a_rwnd : Z)
| AckForce.

Definition ack_step (d : DataTracker) (e : ack_event) : DataTracker :=
  match e with
  | AckData tsn immediate => (Observe tsn immediate d).2
  | AckForward tsn => (HandleForwardTsn tsn d).2
  | AckPacketEnd => ObservePacketEnd d
  | AckShouldSend also => (ShouldSendAck also d).2
  | AckTimer => if delayed_ack_timer_ d then HandleDelayedAckTimerExpiry (d <| delayed_ack_timer_ := false |>) else d
  | AckSack a_rwnd => (CreateSelectiveAck a_rwnd d).2
  | AckForce => ForceImmediateSack d
  end.

(** The timer runs in the delayed state, and only there unless an acknowledgement was forced. *)
Definition timer_ok (d : DataTracker) : Prop := delayed_ack_timer_ d = bool_decide (ack_state_ d = kDelayed).
Definition timer_runs (d : DataTracker) : Prop := ack_state_ d = kDelayed → delayed_ack_timer_ d = true.
Definition not_forced (e : ack_event) : Prop := match e with AckForce => False | _ => True end.

Lemma UpdateAckState_state s d : ack_state_ (UpdateAckState s d) = s.
Proof. unfold UpdateAckState. case_decide; [done|]. by repeat case_decide. Qed.

Lemma UpdateAckState_timer s d : timer_ok d → timer_ok (UpdateAckState s d).
Proof.
  unfold timer_ok, UpdateAckState. intros H.
  destruct (decide (s = ack_state_ d)) as [E|E]; [exact H|].
  destruct (decide (ack_state_ d = kDelayed)) as [E1|E1]; [|destruct (decide (s = kDelayed)) as [E2|E2]]; cbn.
  - rewrite bool_decide_eq_false_2; congruence.
  - by rewrite bool_decide_eq_true_2.
  - rewrite H, !bool_decide_eq_false_2; done.
Qed.

Lemma UpdateAckState_runs s d : timer_runs d → timer_runs (UpdateAckState s d).
Proof. unfold timer_runs, UpdateAckState. intros H. repeat case_decide; cbn; auto; congruence. Qed.

(** The fields that say when to acknowledge. *)
Definition same_ack (d d' : DataTracker) : Prop :=
  delayed_ack_timer_ d' = delayed_ack_timer_ d ∧ ack_state_ d' = ack_state_ d.
Lemma note_duplicate_ack t d : same_ack d (note_duplicate t d).
Proof. unfold note_duplicate. by case_match. Qed.
Lemma advance_cum_ack_ack d : same_ack d (advance_cum_ack d).
Proof. unfold advance_cum_ack. by repeat case_match. Qed.

(** A property of these fields that [UpdateAckState] keeps is kept by the other operations. *)
Section AckInvariant.
  Context (P : DataTracker → Prop) (Hupdate : ∀ s d, P d → P (UpdateAckState s d)) (Hsame : ∀ d d', same_ack d d' → P d → P d').

Lemma observe_tsn_keeps x d : P d → P (observe_tsn x d).2.
Proof using Hupdate Hsame.
  intros H. unfold observe_tsn. case_match; [apply Hupdate; eapply Hsame; [apply note_duplicate_ack|done]|].
  case_match; [eapply Hsame; [apply advance_cum_ack_ack|]; by eapply Hsame; [|exact H]|]. destruct (Add x _) as [[] blocks]; [by eapply Hsame; [|exact H]|].
  eapply Hsame; [apply note_duplicate_ack|]. by eapply Hsame; [|exact H].
Qed.
Lemma delay_ack_keeps d : P d → P (delay_ack d).
Proof using Hupdate. unfold delay_ack. case_match; auto. Qed.
Lemma schedule_ack_keeps immediate d : P d → P (schedule_ack immediate d).
Proof using Hupdate Hsame.
  intros H. unfold schedule_ack. cbv zeta. apply delay_ack_keeps. set (d1 := match additional_tsn_blocks_ d with [] => d | _ => _ end).
  assert (P d1) as H1 by (subst d1; case_match; auto). set (d2 := if immediate then _ else _). assert (P d2) as H2 by (subst d2; destruct immediate; auto).
  case_match; [done|]. apply Hupdate. by eapply Hsame; [|exact H2].
Qed.
Lemma ack_step_keeps d e : not_forced e → (delayed_ack_timer_ d = true → P (HandleDelayedAckTimerExpiry (d <| delayed_ack_timer_ := false |>))) → P d → P (ack_step d e).
Proof using Hupdate Hsame.
  intros Hf Ht H. destruct e; cbn [ack_step]; [| | | | | |done].
  - unfold Observe. destruct (Unwrap _ _ _ _) as [x u]. assert (P (d <| tsn_unwrapper_ := u |>)) as H0 by (by eapply Hsame; [|exact H]).
    apply (observe_tsn_keeps x) in H0. destruct (observe_tsn _ _). by apply schedule_ack_keeps.
  - unfold HandleForwardTsn. destruct (Unwrap _ _ _ _) as [x u]. cbv zeta. assert (P (d <| tsn_unwrapper_ := u |>)) as H0 by (by eapply Hsame; [|exact H]).
    case_match; [by apply Hupdate|]. cbn [snd]. apply delay_ack_keeps. eapply Hsame; [apply advance_cum_ack_ack|]. by eapply Hsame; [|exact H].
  - unfold ObservePacketEnd. case_match; auto.
  - unfold ShouldSendAck. case_match; [by apply Hupdate|done].
  - destruct (delayed_ack_timer_ d); auto.
  - by eapply Hsame; [|exact H].
Qed.
End AckInvariant.

Lemma delay_ack_state d :
  (ack_state_ (delay_ack d) = kBecomingDelayed ∨ ack_state_ (delay_ack d) = kImmediate)
  ∧ (ack_state_ d = kDelayed ∨ ack_state_ d = kImmediate → ack_state_ (delay_ack d) = kImmediate).
Proof. unfold delay_ack. destruct (ack_state_ d) eqn:E; rewrite ?UpdateAckState_state; intuition congruence. Qed.

(** From a delayed acknowledgement data makes it immediate. *)
Lemma schedule_ack_delayed immediate d :
  ack_state_ d = kDelayed ∨ ack_state_ d = kImmediate → ack_state_ (schedule_ack immediate d) = kImmediate.
Proof.
  intros H. unfold schedule_ack. cbv zeta. apply delay_ack_state.
  destruct (additional_tsn_blocks_ d), immediate; case_match; rewrite ?UpdateAckState_state; auto.
Qed.

Lemma observe_tsn_state x d : ack_state_ (observe_tsn x d).2 = ack_state_ d ∨ ack_state_ (observe_tsn x d).2 = kImmediate.
Proof.
  unfold observe_tsn. case_match; [right; apply UpdateAckState_state|]. left.
  case_match; [cbn [snd]; by destruct (advance_cum_ack_ack (d <| last_cumulative_acked_tsn_ := x |>)) as [_ ->]|].
  destruct (Add x _) as [[] blocks]; [done|]. cbn [snd].
  by destruct (note_duplicate_ack x (d <| additional_tsn_blocks_ := blocks |>)) as [_ ->].
Qed.

Lemma Observe_state tsn immediate d :
  (ack_state_ (Observe tsn immediate d).2 = kBecomingDelayed ∨ ack_state_ (Observe tsn immediate d).2 = kImmediate)
  ∧ (ack_state_ d = kDelayed ∨ ack_state_ d = kImmediate → ack_state_ (Observe tsn immediate d).2 = kImmediate).
Proof.
  unfold Observe. destruct (Unwrap _ _ _ _) as [x u]. pose proof (observe_tsn_state x (d <| tsn_unwrapper_ := u |>)) as Hs.
  destruct (observe_tsn _ _) as [r d1]. cbn in *. split; [apply delay_ack_state|].
  intros H. apply schedule_ack_delayed. destruct Hs as [-> | ->]; auto.
Qed.

Lemma ShouldSendAck_due also d :
  ack_state_ d = kImmediate ∨ (also = true ∧ ack_state_ d = kDelayed) → (ShouldSendAck also d).1 = true.
Proof.
  unfold ShouldSendAck. intros [H|[-> H]].
  - by rewrite bool_decide_eq_true_2.
  - by rewrite (bool_decide_eq_true_2 (ack_state_ d = kDelayed)), !orb_true_r by done.
Qed.

Lemma ObservePacketEnd_immediate d : ack_state_ d = kImmediate → ack_state_ (ObservePacketEnd d) = kImmediate.
Proof. intros H. unfold ObservePacketEnd. destruct (ack_state_ d) eqn:E; congruence. Qed.

Lemma ack_step_timer d e : not_forced e → timer_ok d → timer_ok (ack_step d e).
Proof.
  intros Hf H. apply ack_step_keeps; [apply UpdateAckState_timer|unfold timer_ok; by intros ? ? [-> ->]|done| |done].
  intros E. unfold timer_ok in H. rewrite E in H. symmetry in H. apply bool_decide_eq_true in H. unfold HandleDelayedAckTimerExpiry, UpdateAckState, timer_ok. cbn. by rewrite H.
Qed.
Lemma ack_step_runs d e : timer_runs d → timer_runs (ack_step d e).
Proof.
  intros H. assert (not_forced e ∨ e = AckForce) as [Hf| ->] by (destruct e; cbn; auto); [|done].
  apply ack_step_keeps; [apply UpdateAckState_runs|unfold timer_runs; by intros ? ? [-> ->]|done| |done].
  intros _. unfold timer_runs, HandleDelayedAckTimerExpiry. by rewrite UpdateAckState_state.
Qed.

Lemma ack_run_timer i es : Forall not_forced es → timer_ok (fold_left ack_step es (DataTracker_new i)).
Proof.
  intros Hes. assert (timer_ok (DataTracker_new i)) as H by done. revert H. generalize (DataTracker_new i).
  induction Hes as [|e es He _ IH]; intros d H; [done|]. cbn. by apply IH, ack_step_timer.
Qed.
Lemma ack_run_runs i es : timer_runs (fold_left ack_step es (DataTracker_new i)).
Proof.
  assert (timer_runs (DataTracker_new i)) as H by done. revert H. generalize (DataTracker_new i).
  induction es as [|e es IH]; intros d H; [done|]. cbn. by apply IH, ack_step_runs.
Qed.

(** Through any sequence of chunks, packet ends, timer expiries and acknowledgements the
    delayed acknowledgement's timer runs exactly in the delayed state, as long as none is
    forced: received data never waits for an acknowledgement that nothing will trigger. *)
Theorem ack_timer_iff_delayed i es : Forall not_forced es →
  let d := fold_left ack_step es (DataTracker_new i) in
  delayed_ack_timer_ d = bool_decide (ack_state_ d = kDelayed).
Proof. apply ack_run_timer. Qed.

(** An acknowledgement is sent for at least every second packet with data (RFC 4960, section
    6.2): after one the acknowledgement is immediate or delayed by a running timer, and after
    the next, when none was sent in between, it is immediate. *)
Theorem ack_every_second_packet i es tsn1 tsn2 immediate1 immediate2 :
  let d := fold_left ack_step es (DataTracker_new i) in
  let d1 := ObservePacketEnd (Observe tsn1 immediate1 d).2 in
  let d2 := ObservePacketEnd (Observe tsn2 immediate2 d1).2 in
  ((ShouldSendAck false d1).1 = true ∨ delayed_ack_timer_ d1 = true) ∧ (ShouldSendAck true d1).1 = true
  ∧ (ShouldSendAck false d2).1 = true.
Proof.
  cbv zeta. set (d := fold_left ack_step es (DataTracker_new i)).
  pose proof (ack_run_runs i es : timer_runs d) as Hd.
  pose proof (ack_step_runs _ (AckData tsn1 immediate1) Hd) as Ht. cbn [ack_step] in Ht.
  pose proof (ack_step_runs _ AckPacketEnd Ht) as Ht1. cbn [ack_step] in Ht1.
  destruct (Observe_state tsn1 immediate1 d) as [Hs _]. set (d1 := ObservePacketEnd (Observe tsn1 immediate1 d).2) in *.
  assert (ack_state_ d1 = kDelayed ∨ ack_state_ d1 = kImmediate) as H1.
  { subst d1. unfold ObservePacketEnd. destruct Hs as [E|E]; rewrite E; [left; apply UpdateAckState_state | by right]. }
  destruct (Observe_state tsn2 immediate2 d1) as [_ H2]. specialize (H2 H1). split_and!.
  - destruct H1 as [E|E]; [right; by apply Ht1 | left; by apply ShouldSendAck_due; left].
  - apply ShouldSendAck_due. destruct H1; auto.
  - apply ShouldSendAck_due. left. by rewrite ObservePacketEnd_immediate.
Qed.

(** Forcing an acknowledgement changes the state behind the timer's back: the timer keeps
    running after the acknowledgement was sent, and its expiry sends one more. *)
Theorem force_sack_leaves_timer_running :
  let d := fold_left ack_step [AckData 1 false; AckShouldSend false; AckData 2 false; AckPacketEnd] (DataTracker_new 1) in
  let d1 := (ShouldSendAck false (ForceImmediateSack d)).2 in
  (ShouldSendAck false (ForceImmediateSack d)).1 = true ∧ ack_state_ d1 = kIdle ∧ delayed_ack_timer_ d1 = true
  ∧ (ShouldSendAck false (ack_step d1 AckTimer)).1 = true.
Proof. by vm_compute. Qed.

(** ** Handover *)

(** A tracker that is ready for it survives a handover: a new tracker, whatever number it was
    started with, restored from its state has seen the same numbers relative to the
    cumulative one, hands the same state over again, and unwraps what arrives. *)
Theorem tracker_handover_roundtrip i d :
  ReadyForHandover d = true →
  let d' := RestoreFromState (AddHandoverState d) (DataTracker_new i) in
  tracker_ok d' ∧ AddHandoverState d' = AddHandoverState d
  ∧ (∀ k, seen d' (last_cumulative_acked_tsn_ d' + k) = seen d (last_cumulative_acked_tsn_ d + k))
  ∧ ∀ tsn, uint 32 tsn → Wrap 32 (PeekUnwrap 32 0 tsn (tsn_unwrapper_ d')) = tsn.
Proof.
  intros Hready. assert (additional_tsn_blocks_ d = []) as Hb by (unfold ReadyForHandover in Hready; by case_match).
  cbv zeta. unfold RestoreFromState, DataTracker_new, Unwrap, AddHandoverState, last_cumulative_acked_tsn.
  cbn [last_value_ last_unwrapped_ SeqNumUnwrapper_new ho_last_cumulative_acked_tsn ho_seen_packet tsn_unwrapper_ set_field].
  set (v := wrap 32 (i - 1)). set (c := Wrap 32 (last_cumulative_acked_tsn_ d)).
  assert (uint 32 c) as Hc by (unfold c; rewrite Wrap_mod by lia; by apply wrap_uint).
  assert (wrap 32 v = v) as Hv by (apply wrap_small; by apply wrap_uint).
  assert (wrap 32 (v + Delta 32 0 v c) = c) as Hd by (rewrite <- Hv at 2; by apply Delta_wraps).
  split_and!; [done | cbn; by rewrite Wrap_mod, Hd by lia | intros k; unfold seen; cbn; rewrite Hb; unfold in_blocks; cbn; lia |].
  intros tsn Ht. unfold PeekUnwrap. cbn. rewrite Wrap_mod by lia. rewrite <- Hd at 2. by apply Delta_wraps.
Qed.

Lemma tracker_handover_roundtrip_witness :
  let d := (receive_all [Arrive 7 false; Arrive 8 false] (DataTracker_new 7)).2 in
  let d' := RestoreFromState (AddHandoverState d) (DataTracker_new 1000) in
  tracker_ok d' ∧ AddHandoverState d' = AddHandoverState d
  ∧ (∀ k, seen d' (last_cumulative_acked_tsn_ d' + k) = seen d (last_cumulative_acked_tsn_ d + k))
  ∧ ∀ tsn, uint 32 tsn → Wrap 32 (PeekUnwrap 32 0 tsn (tsn_unwrapper_ d')) = tsn.
Proof.
  apply (tracker_handover_roundtrip 1000 ((receive_all [Arrive 7 false; Arrive 8 false] (DataTracker_new 7)).2)).
  reflexivity.
Defined.

(** ** The acknowledgement on the wire *)

(** At most twenty duplicates are remembered, each a 32-bit number. *)
Definition dups_ok (d : DataTracker) : Prop :=
  (size (duplicate_tsns_ d) ≤ kMaxDuplicateTsnReported)%nat ∧ ∀ t, t ∈ duplicate_tsns_ d → uint 32 t.

Lemma note_duplicate_dups x d : dups_ok d → dups_ok (note_duplicate x d).
Proof.
  unfold dups_ok, note_duplicate. intros [H1 H2]. destruct (Nat.ltb_spec (size (duplicate_tsns_ d)) kMaxDuplicateTsnReported); [|done].
  cbn. split.
  - rewrite size_union_alt, size_singleton.
    pose proof (subseteq_size (duplicate_tsns_ d ∖ {[Wrap 32 x]}) (duplicate_tsns_ d) ltac:(apply subseteq_difference_l; done)). lia.
  - intros t [->%elem_of_singleton|Ht]%elem_of_union; [|by apply H2]. rewrite Wrap_mod by lia. by apply wrap_uint.
Qed.

Lemma UpdateAckState_dups s d : duplicate_tsns_ (UpdateAckState s d) = duplicate_tsns_ d.
Proof. unfold UpdateAckState. by repeat case_decide. Qed.

Lemma delay_ack_dups d : duplicate_tsns_ (delay_ack d) = duplicate_tsns_ d.
Proof. unfold delay_ack. case_match; by rewrite ?UpdateAckState_dups. Qed.

Lemma schedule_ack_dups immediate d : duplicate_tsns_ (schedule_ack immediate d) = duplicate_tsns_ d.
Proof.
  unfold schedule_ack. cbv zeta. rewrite delay_ack_dups.
  destruct (additional_tsn_blocks_ d), immediate; case_match; rewrite ?UpdateAckState_dups; cbn; by rewrite ?UpdateAckState_dups.
Qed.

Lemma advance_cum_ack_dups d : duplicate_tsns_ (advance_cum_ack d) = duplicate_tsns_ d.
Proof. unfold advance_cum_ack. by repeat case_match. Qed.

Lemma Observe_dups tsn imm d : dups_ok d → dups_ok (Observe tsn imm d).2.
Proof.
  intros H. unfold Observe. destruct (Unwrap _ _ _ _) as [y u]. unfold observe_tsn. cbv zeta.
  repeat (case_match; simplify_eq); cbn [snd]; unfold dups_ok; rewrite ?schedule_ack_dups, ?UpdateAckState_dups, ?advance_cum_ack_dups;
    first [done | by apply note_duplicate_dups].
Qed.

Lemma HandleForwardTsn_dups tsn d : dups_ok d → dups_ok (HandleForwardTsn tsn d).2.
Proof.
  intros H. unfold HandleForwardTsn. destruct (Unwrap _ _ _ _) as [y u]. cbv zeta.
  case_match; cbn [snd]; unfold dups_ok; by rewrite ?delay_ack_dups, ?UpdateAckState_dups, ?advance_cum_ack_dups.
Qed.

Lemma receive_dups e d : dups_ok d → dups_ok (receive e d).2.
Proof. destruct e; [apply Observe_dups | apply HandleForwardTsn_dups]. Qed.

Lemma no_dups : (size (∅ : gset Z) ≤ kMaxDuplicateTsnReported)%nat ∧ ∀ t, t ∈ (∅ : gset Z) → uint 32 t.
Proof. split; [rewrite size_empty; unfold kMaxDuplicateTsnReported; lia | set_solver]. Qed.

Lemma ack_step_dups d e : dups_ok d → dups_ok (ack_step d e).
Proof.
  intros H. destruct e; cbn [ack_step]; [by apply Observe_dups | by apply HandleForwardTsn_dups | | | | exact no_dups | exact H];
    unfold ObservePacketEnd, ShouldSendAck, HandleDelayedAckTimerExpiry; repeat case_match; unfold dups_ok;
    cbn [snd]; by rewrite ?UpdateAckState_dups.
Qed.

Lemma ack_step_ok d e : tracker_ok d → tracker_ok (ack_step d e).
Proof.
  intros H. destruct e; cbn [ack_step].
  - pose proof (Observe_spec tsn immediate d H) as Ho. cbv zeta in Ho. destruct (Observe _ _ _). apply Ho.
  - pose proof (HandleForwardTsn_spec tsn d H) as Ho. cbv zeta in Ho. destruct (HandleForwardTsn _ _). apply Ho.
  - unfold ObservePacketEnd. case_match; first [done | by eapply same_data_ok; [apply UpdateAckState_data|]].
  - unfold ShouldSendAck. case_match; [|done]. by eapply same_data_ok; [apply UpdateAckState_data|].
  - case_match; [|done]. unfold HandleDelayedAckTimerExpiry. by eapply same_data_ok; [apply UpdateAckState_data|].
  - done.
  - done.
Qed.

(** The well-formed trackers: the blocks beyond the cumulative number are sorted, apart from
    it and from each other, the remembered duplicates are few and of 32 bits, and the timer
    runs in the delayed state. *)
Definition tracker_wf (d : DataTracker) : Prop := tracker_ok d ∧ dups_ok d ∧ timer_runs d.
(** A tracker of a new association, or of one that was handed over. *)
Definition starts (d : DataTracker) : Prop := ∃ i, d = DataTracker_new i ∨ ∃ state, d = RestoreFromState state (DataTracker_new i).
Lemma starts_wf d : starts d → tracker_wf d ∧ timer_ok d.
Proof.
  intros [i [-> |[state ->]]]; split; try done; (split; [|split; [exact no_dups|done]]); [apply (DataTracker_new_inv i)|done].
Qed.

(** C38: Whatever numbers arrive and whatever is called in whatever order, the acknowledgements that
    are forced included, a tracker stays well-formed, from a new one or one restored from a
    handover: the blocks beyond the cumulative number are sorted, apart from it and from each
    other; at most twenty duplicates, of 32 bits, are remembered; and in the delayed state the
    timer runs.  As long as no acknowledgement is forced it runs in no other state. *)
Theorem tracker_wf_preserved d es : starts d →
  let d' := fold_left ack_step es d in tracker_wf d' ∧ (Forall not_forced es → delayed_ack_timer_ d' = bool_decide (ack_state_ d' = kDelayed)).
Proof.
  intros [Hwf Ht]%starts_wf. cbv zeta. split.
  - clear Ht. revert d Hwf. induction es as [|e es IH]; intros d (H1 & H2 & H3); [done|]. cbn. apply IH.
    split; [by apply ack_step_ok | split; [by apply ack_step_dups | by apply ack_step_runs]].
  - intros Hes. clear Hwf. revert d Ht. induction Hes as [|e es He _ IH]; intros d Ht; [exact Ht|]. cbn. by apply IH, ack_step_timer.
Qed.

Lemma tracker_wf_preserved_witness :
  let d := fold_left ack_step [AckData 3 false; AckPacketEnd; AckData 3 false; AckForce; AckShouldSend false; AckTimer; AckForward 5] (DataTracker_new 1) in
  tracker_wf d ∧ last_cumulative_acked_tsn_ d = 5.
Proof.
  split; [|by vm_compute]. apply (tracker_wf_preserved (DataTracker_new 1) [AckData 3 false; AckPacketEnd; AckData 3 false; AckForce; AckShouldSend false; AckTimer; AckForward 5]).
  exists 1. by left.
Defined.

Lemma receive_all_dups es d : dups_ok d → dups_ok (receive_all es d).2.
Proof.
  revert d. induction es as [|e es IH]; intros d H; [done|]. cbn. pose proof (receive_dups e d H) as H1.
  destruct (receive e d) as [r d1]. specialize (IH d1 H1). by destruct (receive_all es d1).
Qed.

Lemma gap_blocks_valid cum prev l :
  cum ≤ prev → blocks_ok prev l → Forall (λ r, last r ≤ cum + 0xFFFF) l →
  let gaps := (λ b, mkGap (wrap 16 (Difference 32 (first b) cum)) (wrap 16 (Difference 32 (last b) cum))) <$> l in
  blocks_valid (prev - cum) gaps = true ∧ Forall (λ g, uint 16 (gap_start g) ∧ uint 16 (gap_end g)) gaps.
Proof.
  revert prev. induction l as [|r l IH]; intros prev Hc Hok Hn; [done|]. destruct Hok as (H1 & H2 & H3).
  apply list.Forall_cons in Hn as [Hr Hn]. destruct (IH (last r) ltac:(lia) H3 Hn) as [V F]. cbv zeta in *. cbn [fmap list_fmap].
  rewrite !gap_offset by lia. split.
  - rewrite blocks_valid_cons, V. rewrite (proj2 (Z.leb_le _ _)), (proj2 (Z.ltb_lt _ _)) by lia. done.
  - constructor; [|done]. cbn. unfold uint. lia.
Qed.

Lemma blocks_ok_take lo n l : blocks_ok lo l → blocks_ok lo (take n l).
Proof. intros H. rewrite <- (take_drop n l) in H. apply blocks_ok_app in H as [H _]. exact H. Qed.

(** C37: The acknowledgements of a tracker are understood by its peer: after any sequence of
    arrivals inside the window, with no block more than 65535 numbers past the cumulative
    one, the acknowledgement is written, read back from its bytes unchanged, and validates,
    so that the peer takes it as it is. *)
Theorem tracker_sack_interoperates i es a_rwnd :
  uint 32 i → in_window es (DataTracker_new i) →
  let d := (receive_all es (DataTracker_new i)).2 in
  Forall (λ r, last r ≤ last_cumulative_acked_tsn_ d + 0xFFFF) (additional_tsn_blocks_ d) →
  let s := (CreateSelectiveAck a_rwnd d).1 in
  ∃ bytes, SackChunk_SerializeTo s [] = Parsed bytes ∧ SackChunk_Parse bytes = Parsed s ∧ Clean s = s.
Proof.
  intros Hi Hw d Hnear s. destruct (DataTracker_new_inv i) as [Hinv _].
  pose proof (receive_all_promised es _ Hinv Hw) as H. pose proof (receive_all_dups es (DataTracker_new i)) as Hd.
  unfold d in *. clear d. destruct (receive_all es (DataTracker_new i)) as [rs d]. cbn [snd] in *. destruct H as (_ & (Hok & _) & _).
  destruct Hd as [Hd1 Hd2]; [exact no_dups|].
  destruct (gap_blocks_valid (last_cumulative_acked_tsn_ d) (last_cumulative_acked_tsn_ d)
    (take kMaxGapAckBlocksReported (additional_tsn_blocks_ d))) as [V F]; [lia | by apply blocks_ok_take | by apply Forall_take|].
  rewrite Z.sub_diag in V. assert (length (gap_ack_blocks_ s) ≤ 20)%nat as Hl.
  { unfold s, CreateSelectiveAck, CreateGapAckBlocks. cbn [gap_ack_blocks_ fst]. rewrite length_fmap, length_take. unfold kMaxGapAckBlocksReported. lia. }
  assert (SackChunk_wf s) as Hwf.
  { unfold kMaxDuplicateTsnReported in *. split_and!; [unfold s; cbn; rewrite Wrap_mod by lia; by apply wrap_uint
      | by apply wrap_uint | exact F | exact Hd2 |]. change (sack_duplicate_tsns_ s) with (duplicate_tsns_ d). lia. }
  destruct (Sack_round_trips s Hwf) as (type & flags & body & _ & Hser & Hparse). cbv zeta in Hser, Hparse.
  eexists. split; [apply Hser|]. split.
  - specialize (Hparse [] ltac:(cbn; lia) (λ _, eq_refl)). by rewrite app_nil_r in Hparse.
  - apply clean_valid. exact V.
Qed.

Lemma tracker_sack_interoperates_witness :
  let d := (receive_all [Arrive 3 false; Arrive 4 false; Arrive 9 false; Arrive 9 false] (DataTracker_new 1)).2 in
  let s := (CreateSelectiveAck 5000 d).1 in
  ∃ bytes, SackChunk_SerializeTo s [] = Parsed bytes ∧ SackChunk_Parse bytes = Parsed s ∧ Clean s = s.
Proof.
  apply (tracker_sack_interoperates 1 [Arrive 3 false; Arrive 4 false; Arrive 9 false; Arrive 9 false] 5000).
  - unfold uint. lia.
  - vm_compute. intuition discriminate.
  - vm_compute. repeat constructor; discriminate.
Defined.
