(* ===== verification/SctpTimer.v ===== *)
(** * Timers of the SCTP association

    includes/webrtc/net/dcsctp/timer/timer.h, timer.cc and tx/retransmission_timeout.h, .cc:
    restartable timers with back-off, their manager, and the estimate of the retransmission
    timeout.  A [TimeDelta] is its number of microseconds, plus infinity being the largest
    [int64_t]; the values that occur are far below it. *)

From S2P Require Import Prelude.
Open Scope Z_scope.

Definition PlusInfinity : Z := 2 ^ 63 - 1.
(** [TimeDelta::ms()]: to the nearest millisecond. *)
Definition to_ms (d : Z) : Z := (d + 500) / 1000.

(** ** Timer *)

Inductive TimerBackoffAlgorithm := kFixed | kExponential.

Record TimerOptions := mkTimerOptions {
  opt_duration : Z;
  backoff_algorithm : TimerBackoffAlgorithm;
  max_restarts : option Z;
  max_backoff_duration : Z
}.

Definition kMaxTimerDuration : Z := 24 * 3600 * 1000000.

(** [timeout_] is the armed low-level timeout: its milliseconds and its identifier. *)
Record Timer := mkTimer {
  id_ : Z;
  options_ : TimerOptions;
  timeout_ : option (Z * Z);
  duration_ : Z;
  generation_ : Z;
  is_running_ : bool;
  expiration_count_ : nat
}.
#[export] Instance Timer_eta : Eta Timer := λ t,
  mkTimer (id_ t) (options_ t) (timeout_ t) (duration_ t) (generation_ t) (is_running_ t) (expiration_count_ t).

Definition Timer_new (id : Z) (options : TimerOptions) : Timer :=
  mkTimer id options None (opt_duration options) 0 false 0.

Definition MakeTimeoutId (timer_id generation : Z) : Z := Z.lor (Z.shiftl timer_id 32) generation.

(** The loop of the exponential algorithm. *)
Fixpoint backoff_loop (max_backoff duration : Z) (expiration_count : nat) : Z :=
  match expiration_count with
  | O => Z.min duration kMaxTimerDuration
  | S n =>
    if duration <? kMaxTimerDuration then
      let duration := duration * 2 in
      if max_backoff <? duration then max_backoff else backoff_loop max_backoff duration n
    else Z.min duration kMaxTimerDuration
  end.
Definition GetBackoffDuration (options : TimerOptions) (base_duration : Z) (expiration_count : nat) : Z :=
  match backoff_algorithm options with
  | kFixed => base_duration
  | kExponential => backoff_loop (max_backoff_duration options) base_duration expiration_count
  end.

(** A new generation, and the timeout armed with it. *)
Definition arm (duration : Z) (t : Timer) : Timer :=
  let generation := wrap 32 (generation_ t + 1) in
  t <| generation_ := generation |> <| timeout_ := Some (to_ms duration, MakeTimeoutId (id_ t) generation) |>.

(** [Restart] of a running timeout replaces it, as [Start] arms one that is not running. *)
Definition Timer_Start (t : Timer) : Timer :=
  let t := t <| expiration_count_ := 0%nat |> in
  if negb (is_running_ t) then arm (duration_ t) (t <| is_running_ := true |>)
  else arm (duration_ t) t.

Definition Timer_Stop (t : Timer) : Timer :=
  if is_running_ t
  then t <| timeout_ := None |> <| expiration_count_ := 0%nat |> <| is_running_ := false |> else t.

Definition set_duration (duration : Z) (t : Timer) : Timer := t <| duration_ := Z.min duration kMaxTimerDuration |>.

Definition restarts_left (t : Timer) : bool :=
  match max_restarts (options_ t) with None => true | Some n => Z.of_nat (expiration_count_ t) <=? n end.

(** [Trigger]; the callback may start, stop or set the timer, and returns a new duration.  The
    first component is whether it was called. *)
Definition Timer_Trigger (on_expired : Timer → Z * Timer) (generation : Z) (t : Timer) : bool * Timer :=
  if is_running_ t && (generation =? generation_ t) then
    let t := t <| expiration_count_ ::= S |> <| is_running_ := false |> in
    let t := if restarts_left t
             then arm (GetBackoffDuration (options_ t) (duration_ t) (expiration_count_ t)) (t <| is_running_ := true |>)
             else t in
    let '(new_duration, t) := on_expired t in
    (true,
     if (0 <? new_duration) && negb (new_duration =? duration_ t) then
       let t := t <| duration_ := new_duration |> in
       if is_running_ t
       then arm (GetBackoffDuration (options_ t) (duration_ t) (expiration_count_ t)) (t <| timeout_ := None |>)
       else t
     else t)
  else (false, t).

(** ** TimerManager

    [None] is the failed check that keeps the identifiers below the largest. *)

Record TimerManager := mkManager { timers_ : gmap Z Timer; next_id_ : Z }.
#[export] Instance TimerManager_eta : Eta TimerManager := λ m, mkManager (timers_ m) (next_id_ m).

Definition CreateTimer (options : TimerOptions) (m : TimerManager) : option (Z * TimerManager) :=
  let id := wrap 32 (next_id_ m + 1) in
  if id =? 2 ^ 32 - 1 then None
  else Some (id, m <| next_id_ := id |> <| timers_ ::= <[id := Timer_new id options]> |>).

(** The destructor of the timer, and the handler it runs. *)
Definition DestroyTimer (id : Z) (m : TimerManager) : TimerManager := m <| timers_ ::= delete id |>.

(** The expiry of the low-level timeout [timeout_id]: it is no longer armed. *)
Definition HandleTimeout (on_expired : Z → Timer → Z * Timer) (timeout_id : Z) (m : TimerManager) : bool * TimerManager :=
  let timer_id := Z.shiftr timeout_id 32 in
  let generation := wrap 32 timeout_id in
  match timers_ m !! timer_id with
  | Some t =>
    let t := match timeout_ t with
             | Some (_, armed) => if armed =? timeout_id then t <| timeout_ := None |> else t
             | None => t end in
    let '(called, t) := Timer_Trigger (on_expired timer_id) generation t in
    (called, m <| timers_ ::= <[timer_id := t]> |>)
  | None => (false, m)
  end.

(** ** RetransmissionTimeout

    [std::llround] of a product with an eighth, a quarter or their complements, which are
    exact in a [double] for the durations that are accepted. *)

Definition llround_div (num den : Z) : Z :=
  if 0 <=? num then (2 * num + den) / (2 * den) else - ((2 * - num + den) / (2 * den)).

Record RetransmissionTimeout := mkRto {
  min_rto_ : Z;
  max_rto_ : Z;
  max_rtt_ : Z;
  min_rtt_variance_ : Z;
  first_measurement_ : bool;
  srtt_ : Z;
  rtt_var_ : Z;
  rto_ : Z
}.
#[export] Instance RetransmissionTimeout_eta : Eta RetransmissionTimeout := λ r,
  mkRto (min_rto_ r) (max_rto_ r) (max_rtt_ r) (min_rtt_variance_ r) (first_measurement_ r) (srtt_ r) (rtt_var_ r) (rto_ r).

(** The options are in milliseconds. *)
Definition RetransmissionTimeout_new (rto_min rto_max rtt_max min_rtt_variance rto_initial : Z) : RetransmissionTimeout :=
  mkRto (1000 * rto_min) (1000 * rto_max) (1000 * rtt_max) (llround_div (1000 * min_rtt_variance) 8)
    true (1000 * rto_initial) 0 (1000 * rto_initial).

Definition ObserveRTT (rtt : Z) (r : RetransmissionTimeout) : RetransmissionTimeout :=
  if (rtt <? 0) || (max_rtt_ r <? rtt) then r else
  let r := if first_measurement_ r
           then r <| srtt_ := rtt |> <| rtt_var_ := Z.quot rtt 2 |> <| first_measurement_ := false |>
           else
             let rtt_diff := Z.abs (srtt_ r - rtt) in
             r <| rtt_var_ := llround_div (3 * rtt_var_ r) 4 + llround_div rtt_diff 4 |>
               <| srtt_ := llround_div (7 * srtt_ r) 8 + llround_div rtt 8 |> in
  let r := if rtt_var_ r <? min_rtt_variance_ r then r <| rtt_var_ := min_rtt_variance_ r |> else r in
  r <| rto_ := Z.max (min_rto_ r) (Z.min (max_rto_ r) (srtt_ r + 4 * rtt_var_ r)) |>.

(** ** Back-off *)

Lemma backoff_loop_capped mb d n :
  0 ≤ d → d ≤ mb → mb ≤ kMaxTimerDuration → backoff_loop mb d n = Z.min (d * 2 ^ Z.of_nat n) mb.
Proof.
  revert d. induction n as [|n IH]; intros d H0 H1 H2; cbn [backoff_loop]; [cbn; lia|].
  rewrite Nat2Z.inj_succ, Z.pow_succ_r by lia. pose proof (Z.pow_pos_nonneg 2 (Z.of_nat n) ltac:(lia) ltac:(lia)).
  destruct (Z.ltb_spec d kMaxTimerDuration); [|nia]. destruct (Z.ltb_spec mb (d * 2)); [nia|]. rewrite IH by lia. f_equal. ring.
Qed.

Lemma backoff_loop_uncapped mb d n :
  0 ≤ d → 2 * kMaxTimerDuration ≤ mb → backoff_loop mb d n = Z.min (d * 2 ^ Z.of_nat n) kMaxTimerDuration.
Proof.
  revert d. induction n as [|n IH]; intros d H0 H1; cbn [backoff_loop]; [cbn; lia|].
  rewrite Nat2Z.inj_succ, Z.pow_succ_r by lia. pose proof (Z.pow_pos_nonneg 2 (Z.of_nat n) ltac:(lia) ltac:(lia)).
  destruct (Z.ltb_spec d kMaxTimerDuration); [|nia]. destruct (Z.ltb_spec mb (d * 2)); [lia|]. rewrite IH by lia. f_equal. ring.
Qed.

(** C39: The loop of the back-off computes a power of two: the duration after [n] expirations is
    the base times two to the [n], capped by the configured maximum when it is at most a day,
    and by a day when there is none. *)
Theorem backoff_is_power_of_two options base n :
  backoff_algorithm options = kExponential → 0 ≤ base →
  (base ≤ max_backoff_duration options ≤ kMaxTimerDuration →
   GetBackoffDuration options base n = Z.min (base * 2 ^ Z.of_nat n) (max_backoff_duration options))
  ∧ (max_backoff_duration options = PlusInfinity →
     GetBackoffDuration options base n = Z.min (base * 2 ^ Z.of_nat n) kMaxTimerDuration).
Proof.
  intros Ha Hb. unfold GetBackoffDuration. rewrite Ha. split.
  - intros [H1 H2]. by apply backoff_loop_capped.
  - intros ->. apply backoff_loop_uncapped; [done|]. unfold PlusInfinity, kMaxTimerDuration. lia.
Qed.

Lemma backoff_is_power_of_two_witness :
  let options := mkTimerOptions 500000 kExponential None 3000000 in
  (500000 ≤ max_backoff_duration options ≤ kMaxTimerDuration →
   GetBackoffDuration options 500000 3 = Z.min (500000 * 2 ^ Z.of_nat 3) (max_backoff_duration options))
  ∧ (max_backoff_duration options = PlusInfinity →
     GetBackoffDuration options 500000 3 = Z.min (500000 * 2 ^ Z.of_nat 3) kMaxTimerDuration).
Proof. apply (backoff_is_power_of_two (mkTimerOptions 500000 kExponential None 3000000) 500000 3); [reflexivity | lia]. Defined.

(** A configured maximum above a day is returned as it is, although a day is the largest
    duration of a timer, and a base above the maximum is not capped before the first
    expiration. *)
Theorem backoff_corner_cases :
  let hour := 3600 * 1000000 in
  GetBackoffDuration (mkTimerOptions (20 * hour) kExponential None (30 * hour)) (20 * hour) 1 = 30 * hour
  ∧ kMaxTimerDuration < 30 * hour
  ∧ GetBackoffDuration (mkTimerOptions hour kExponential None 1000000) hour 0 = hour.
Proof. by vm_compute. Qed.

(** ** Expirations *)

(** A callback that leaves the timer alone. *)
Definition passive (t : Timer) : Z * Timer := (0, t).
Definition fire (t : Timer) : Timer := (Timer_Trigger passive (generation_ t) (t <| timeout_ := None |>)).2.

Fixpoint fire_n (k : nat) (t : Timer) : Timer := match k with O => t | S k' => fire (fire_n k' t) end.

Definition timer_state (t : Timer) : bool * nat * Z * TimerOptions := (is_running_ t, expiration_count_ t, duration_ t, options_ t).

Lemma fire_running t : is_running_ t = true →
  timer_state (fire t)
  = (match max_restarts (options_ t) with None => true | Some n => Z.of_nat (S (expiration_count_ t)) <=? n end,
     S (expiration_count_ t), duration_ t, options_ t)
  ∧ (is_running_ (fire t) = true →
     timeout_ (fire t) = Some (to_ms (GetBackoffDuration (options_ t) (duration_ t) (S (expiration_count_ t))),
                               MakeTimeoutId (id_ t) (generation_ (fire t)))).
Proof.
  intros Hr. unfold fire, Timer_Trigger. cbn [is_running_ generation_ set_field Timer_eta]. rewrite Hr, Z.eqb_refl. cbn [andb].
  unfold restarts_left, passive. cbn. destruct (max_restarts (options_ t)) as [n|]; [|done].
  destruct (Z.of_nat (S (expiration_count_ t)) <=? n) eqn:E; cbn; [done|]. split; [done|discriminate].
Qed.

Lemma fires t n k :
  max_restarts (options_ t) = Some n → 0 ≤ n → Z.of_nat k ≤ n →
  timer_state (fire_n k (Timer_Start t)) = (true, k, duration_ t, options_ t).
Proof.
  intros Hn H0. induction k as [|k IH]; intros Hk.
  { unfold timer_state, Timer_Start. cbn. by destruct (is_running_ t) eqn:E; cbn; rewrite ?E. }
  specialize (IH ltac:(lia)). cbn [fire_n]. set (u := fire_n k (Timer_Start t)) in *.
  unfold timer_state in IH. injection IH as R C D O. destruct (fire_running u R) as [-> _].
  rewrite C, D, O, Hn. by rewrite (proj2 (Z.leb_le _ _)).
Qed.

(** A started timer that may restart [n] times expires [n + 1] times: after each of the first
    [n] it runs again with the duration its back-off gives, after the last it has stopped,
    and a further timeout does nothing. *)
Theorem timer_expires_and_stops t n :
  max_restarts (options_ t) = Some n → 0 ≤ n →
  (∀ k, Z.of_nat k < n →
     let u := fire_n (S k) (Timer_Start t) in
     is_running_ u = true ∧ expiration_count_ u = S k
     ∧ fst <$> timeout_ u = Some (to_ms (GetBackoffDuration (options_ t) (duration_ t) (S k))))
  ∧ let u := fire_n (S (Z.to_nat n)) (Timer_Start t) in
    is_running_ u = false ∧ ∀ f g, Timer_Trigger f g u = (false, u).
Proof.
  intros Hn H0. split.
  - intros k Hk. cbv zeta. cbn [fire_n]. pose proof (fires t n k Hn H0 ltac:(lia)) as Hu.
    set (u := fire_n k (Timer_Start t)) in *. unfold timer_state in Hu. injection Hu as R C D O.
    destruct (fire_running u R) as [Hs Ht]. rewrite C, D, O, Hn in *. rewrite (proj2 (Z.leb_le _ _)) in Hs by lia.
    unfold timer_state in Hs. injection Hs as R' C' D' O'. rewrite (Ht R'). by split_and!.
  - cbv zeta. cbn [fire_n]. pose proof (fires t n (Z.to_nat n) Hn H0 ltac:(lia)) as Hu.
    set (u := fire_n (Z.to_nat n) (Timer_Start t)) in *. unfold timer_state in Hu. injection Hu as R C D O.
    destruct (fire_running u R) as [Hs _]. rewrite C, D, O, Hn in Hs. rewrite (proj2 (Z.leb_gt _ _)) in Hs by lia.
    unfold timer_state in Hs. injection Hs as R' C' D' O'. split; [done|]. intros f g. unfold Timer_Trigger. by rewrite R'.
Qed.

Lemma timer_expires_and_stops_witness :
  let t := Timer_new 7 (mkTimerOptions 200000 kExponential (Some 2) PlusInfinity) in
  (∀ k, Z.of_nat k < 2 →
     let u := fire_n (S k) (Timer_Start t) in
     is_running_ u = true ∧ expiration_count_ u = S k
     ∧ fst <$> timeout_ u = Some (to_ms (GetBackoffDuration (options_ t) (duration_ t) (S k))))
  ∧ let u := fire_n 3 (Timer_Start t) in
    is_running_ u = false ∧ ∀ f g, Timer_Trigger f g u = (false, u).
Proof.
  apply (timer_expires_and_stops (Timer_new 7 (mkTimerOptions 200000 kExponential (Some 2) PlusInfinity)) 2); [reflexivity | lia].
Defined.

(** ** Stale timeouts

    The steps of a socket over its timers; the callback of an expiration starts, stops and
    sets its own timer and returns a duration. *)

Inductive timer_op := op_start | op_stop | op_set (duration : Z).
Definition run_op (o : timer_op) : Timer → Timer :=
  match o with op_start => Timer_Start | op_stop => Timer_Stop | op_set d => set_duration d end.
Definition run_ops (l : list timer_op) (t : Timer) : Timer := foldl (λ t o, run_op o t) t l.
Definition callback (script : Z → list timer_op * Z) (id : Z) (t : Timer) : Z * Timer :=
  ((script id).2, run_ops (script id).1 t).

Inductive manager_step : TimerManager → TimerManager → Prop :=
  | step_create options m id m' : CreateTimer options m = Some (id, m') → manager_step m m'
  | step_destroy id m : manager_step m (DestroyTimer id m)
  | step_op id o m : manager_step m (m <| timers_ ::= alter (run_op o) id |>)
  | step_timeout script timeout_id m :
      0 ≤ timeout_id < 2 ^ 64 → manager_step m (HandleTimeout (callback script) timeout_id m).2.
Definition manager_new : TimerManager := mkManager ∅ 0.
Definition manager_reachable : TimerManager → Prop := rtc manager_step manager_new.

(** A running timer has its low-level timeout armed with its own number and its last
    generation, and one that is stopped has none. *)
Definition timer_wf (id : Z) (t : Timer) : Prop :=
  id_ t = id ∧ 0 ≤ id < 2 ^ 32 ∧ 0 ≤ generation_ t < 2 ^ 32
  ∧ snd <$> timeout_ t = (if is_running_ t then Some (MakeTimeoutId id (generation_ t)) else None).
Definition manager_wf (m : TimerManager) : Prop := 0 ≤ next_id_ m < 2 ^ 32 ∧ map_Forall timer_wf (timers_ m).

Lemma arm_wf id d t :
  id_ t = id → 0 ≤ id < 2 ^ 32 → is_running_ t = true → timer_wf id (arm d t).
Proof.
  intros <- Hi Hr. unfold timer_wf, arm. cbn. rewrite Hr. pose proof (Z.mod_pos_bound (generation_ t + 1) (2 ^ 32) ltac:(lia)).
  by split_and!; unfold wrap; try lia.
Qed.

Lemma run_op_wf id o t : timer_wf id t → timer_wf id (run_op o t).
Proof.
  intros (Hid & Hi & Hg & Ht). destruct o; cbn [run_op].
  - unfold Timer_Start. cbv zeta. cbn [is_running_ set_field Timer_eta]. by destruct (is_running_ t) eqn:E; apply arm_wf.
  - unfold Timer_Stop. destruct (is_running_ t) eqn:E; [done|]. unfold timer_wf. by rewrite E.
  - done.
Qed.

Lemma run_ops_wf id l t : timer_wf id t → timer_wf id (run_ops l t).
Proof. revert t. induction l as [|o l IH]; intros t H; [done|]. by apply IH, run_op_wf. Qed.

Lemma MakeTimeoutId_sum id g : 0 ≤ g < 2 ^ 32 → MakeTimeoutId id g = id * 2 ^ 32 + g.
Proof. intros Hg. by apply lor_shiftl. Qed.

Lemma timeout_id_split x : MakeTimeoutId (Z.shiftr x 32) (wrap 32 x) = x.
Proof.
  rewrite MakeTimeoutId_sum by (apply Z.mod_pos_bound; lia). unfold wrap. rewrite Z.shiftr_div_pow2 by lia.
  pose proof (Z.div_mod x (2 ^ 32) ltac:(lia)). lia.
Qed.

Lemma timeout_id_inj id g g' :
  0 ≤ g < 2 ^ 32 → 0 ≤ g' < 2 ^ 32 → MakeTimeoutId id g = MakeTimeoutId id g' → g = g'.
Proof. intros Hg Hg'. rewrite !MakeTimeoutId_sum by done. lia. Qed.

Lemma Trigger_wf id f g t :
  (∀ t, timer_wf id t → timer_wf id (f t).2) → id_ t = id → 0 ≤ id < 2 ^ 32 → 0 ≤ generation_ t < 2 ^ 32 →
  timeout_ t = None → is_running_ t = true → g = generation_ t →
  (Timer_Trigger f g t).1 = true ∧ timer_wf id (Timer_Trigger f g t).2.
Proof.
  intros Hf Hid Hi Hg Ht Hr ->. unfold Timer_Trigger. rewrite Hr, Z.eqb_refl. cbn [andb]. cbv zeta.
  match goal with |- context [f ?u] => set (t1 := u) end.
  assert (Hu : timer_wf id t1).
  { subst t1. match goal with |- context [restarts_left ?u] => destruct (restarts_left u) end; [by apply arm_wf|].
    unfold timer_wf. cbn. by rewrite Ht. }
  specialize (Hf t1 Hu). destruct (f t1) as [d t2]. cbn in Hf. split; [done|].
  destruct Hf as (Hid2 & _ & Hg2 & Ht2). cbn [snd]. destruct ((0 <? d) && _); [|done].
  match goal with |- context [if is_running_ ?u then _ else _] => change (is_running_ u) with (is_running_ t2) end.
  destruct (is_running_ t2) eqn:E; [by apply arm_wf|]. unfold timer_wf. cbn. by rewrite E.
Qed.

(** What a timeout does: it fires the timer it is armed for, and nothing otherwise. *)
Lemma HandleTimeout_spec f x m :
  manager_wf m → (∀ id t, timer_wf id t → timer_wf id (f id t).2) →
  ((HandleTimeout f x m).1 = true ↔ ∃ t, timers_ m !! Z.shiftr x 32 = Some t ∧ snd <$> timeout_ t = Some x)
  ∧ ((HandleTimeout f x m).1 = false → (HandleTimeout f x m).2 = m)
  ∧ manager_wf (HandleTimeout f x m).2.
Proof.
  intros [Hn Hm] Hf. unfold HandleTimeout. cbv zeta. destruct (timers_ m !! Z.shiftr x 32) as [t|] eqn:E.
  2:{ split_and!; [split; [done | by intros (? & ? & ?)] | done | done]. }
  destruct (Hm _ _ E) as (Hid & Hi & Hg & Ht). pose proof (Z.mod_pos_bound x (2 ^ 32) ltac:(lia)) as Hx.
  assert (Hback : m <| timers_ ::= <[Z.shiftr x 32 := t]> |> = m) by (destruct m; unfold set_field; cbn in *; by rewrite insert_id).
  destruct (decide (is_running_ t = true ∧ wrap 32 x = generation_ t)) as [[Hr Hgen]|Hno].
  - rewrite Hr, <- Hgen, timeout_id_split in Ht. destruct (timeout_ t) as [[ms y]|] eqn:Et; [|done]. injection Ht as ->.
    rewrite Z.eqb_refl. destruct (Trigger_wf (Z.shiftr x 32) (f (Z.shiftr x 32)) (wrap 32 x) (t <| timeout_ := None |>)) as [H1 H2]; try done; [by apply Hf|].
    destruct (Timer_Trigger _ _ _) as [c t']. cbn in H1, H2 |- *. subst c. split_and!; [| done |].
    + split; [|done]. intros _. exists t. by rewrite Et.
    + split; [done|]. by apply map_Forall_insert_2.
  - assert (Hnone : snd <$> timeout_ t ≠ Some x).
    { rewrite Ht. destruct (is_running_ t); [|done]. intros [= Hx']. apply Hno. split; [done|].
      rewrite <- (timeout_id_split x) in Hx' at 2. by eapply timeout_id_inj. }
    assert (Hsame : (match timeout_ t with Some (_, armed) => if armed =? x then t <| timeout_ := None |> else t | None => t end) = t).
    { destruct (timeout_ t) as [[ms y]|]; [|done]. destruct (Z.eqb_spec y x); [|done]. by subst. }
    rewrite Hsame. unfold Timer_Trigger. destruct (is_running_ t && (wrap 32 x =? generation_ t)) eqn:Eb.
    { exfalso. apply andb_true_iff in Eb as [? ?%Z.eqb_eq]. by apply Hno. }
    cbn [fst snd]. rewrite Hback. split_and!; [|done|done]. split; [done|]. intros (t' & [= <-] & ?). done.
Qed.

Lemma manager_step_wf m m' : manager_step m m' → manager_wf m → manager_wf m'.
Proof.
  intros [options m1 id m1' Hc | id m1 | id o m1 | script x m1 Hx] Hwf.
  - destruct Hwf as [Hn Hm]. unfold CreateTimer in Hc. pose proof (wrap_uint 32 (next_id_ m1 + 1) ltac:(lia)) as Hu. unfold uint in Hu.
    destruct (_ =? _); [done|]. injection Hc as <- <-. split; [done|]. by apply map_Forall_insert_2.
  - destruct Hwf as [Hn Hm]. split; [done|]. by apply map_Forall_delete.
  - destruct Hwf as [Hn Hm]. split; [done|]. intros i t. cbn. rewrite lookup_alter_Some. intros [(<- & t' & Ht & ->)|[_ Ht]]; [|by apply Hm].
    by apply run_op_wf, Hm.
  - apply HandleTimeout_spec; [done|]. intros id t Ht. by apply run_ops_wf.
Qed.

Lemma reachable_wf m : manager_reachable m → manager_wf m.
Proof.
  intros H. refine (rtc_ind_r manager_wf manager_new _ _ _ H); [by split|].
  intros y z _ Hs Hy. by eapply manager_step_wf.
Qed.

(** C33: After any creations, destructions, starts, stops and expirations, a timeout that arrives
    runs the callback of a timer exactly when it is the one the timer is armed with and the
    timer is running; a timeout that was overtaken by a stop or a restart changes nothing. *)
Theorem stale_timeouts_ignored m script x :
  manager_reachable m →
  ((HandleTimeout (callback script) x m).1 = true
   ↔ ∃ t, timers_ m !! Z.shiftr x 32 = Some t ∧ is_running_ t = true ∧ snd <$> timeout_ t = Some x)
  ∧ ((HandleTimeout (callback script) x m).1 = false → (HandleTimeout (callback script) x m).2 = m).
Proof.
  intros Hm%reachable_wf. destruct (HandleTimeout_spec (callback script) x m Hm) as (H1 & H2 & _).
  { intros id t Ht. by apply run_ops_wf. }
  split; [|done]. rewrite H1. split; [intros (t & Ht & Hx) | by intros (t & Ht & _ & Hx); exists t]. exists t. split_and!; [done| |done].
  destruct Hm as [_ Hm]. destruct (Hm _ _ Ht) as (_ & _ & _ & Ha). rewrite Hx in Ha. by destruct (is_running_ t).
Qed.

Definition sample_options : TimerOptions := mkTimerOptions 1000000 kExponential None PlusInfinity.
Definition created : TimerManager := manager_new <| next_id_ := 1 |> <| timers_ ::= <[1 := Timer_new 1 sample_options]> |>.
Definition started : TimerManager := created <| timers_ ::= alter (run_op op_start) 1 |>.
Definition sample_manager : TimerManager := started <| timers_ ::= alter (run_op op_start) 1 |>.

Lemma stale_timeouts_ignored_witness :
  let script := λ _, ([], 0) in
  (HandleTimeout (callback script) (2 ^ 32 + 1) sample_manager).2 = sample_manager
  ∧ (HandleTimeout (callback script) (2 ^ 32 + 2) sample_manager).1 = true.
Proof.
  assert (Hr : manager_reachable sample_manager).
  { apply (rtc_l _ _ created); [by apply (step_create sample_options _ 1)|].
    apply (rtc_l _ _ started); [apply step_op|]. apply rtc_once. apply step_op. }
  split.
  - apply (stale_timeouts_ignored sample_manager (λ _, ([], 0)) (2 ^ 32 + 1) Hr). vm_compute. reflexivity.
  - apply (stale_timeouts_ignored sample_manager (λ _, ([], 0)) (2 ^ 32 + 2) Hr). eexists. vm_compute. by split_and!.
Defined.

(** ** The estimate of the retransmission timeout *)

Lemma llround_div_bounds n d : 0 < d → 0 ≤ n → 2 * n - d ≤ 2 * d * llround_div n d ≤ 2 * n + d.
Proof.
  intros Hd Hn. unfold llround_div. rewrite (proj2 (Z.leb_le _ _)) by done.
  pose proof (Z.div_mod (2 * n + d) (2 * d) ltac:(lia)). pose proof (Z.mod_pos_bound (2 * n + d) (2 * d) ltac:(lia)). lia.
Qed.

Definition observe_all (rtts : list Z) (r : RetransmissionTimeout) : RetransmissionTimeout := foldl (λ r rtt, ObserveRTT rtt r) r rtts.

Definition rto_wf (lo hi k var : Z) (r : RetransmissionTimeout) : Prop :=
  (min_rto_ r = lo ∧ max_rto_ r = hi ∧ max_rtt_ r = 1000 * k ∧ min_rtt_variance_ r = var)
  ∧ lo ≤ rto_ r ≤ hi ∧ 0 ≤ rtt_var_ r
  ∧ (first_measurement_ r = false → 0 ≤ srtt_ r ≤ 1000 * k ∧ var ≤ rtt_var_ r).

(** One accepted measurement, as an equation per field. *)
Lemma ObserveRTT_fields rtt r : 0 ≤ rtt ≤ max_rtt_ r →
  let srtt := if first_measurement_ r then rtt else llround_div (7 * srtt_ r) 8 + llround_div rtt 8 in
  let var := if first_measurement_ r then Z.quot rtt 2
             else llround_div (3 * rtt_var_ r) 4 + llround_div (Z.abs (srtt_ r - rtt)) 4 in
  ObserveRTT rtt r
  = mkRto (min_rto_ r) (max_rto_ r) (max_rtt_ r) (min_rtt_variance_ r) false srtt (Z.max var (min_rtt_variance_ r))
      (Z.max (min_rto_ r) (Z.min (max_rto_ r) (srtt + 4 * Z.max var (min_rtt_variance_ r)))).
Proof.
  intros H. unfold ObserveRTT. rewrite (proj2 (Z.ltb_ge rtt 0)), (proj2 (Z.ltb_ge (max_rtt_ r) rtt)) by lia. cbn [orb]. cbv zeta.
  destruct (first_measurement_ r) eqn:Ef; unfold set_field; cbn -[Z.mul Z.quot llround_div Z.max Z.min];
    (match goal with |- context [?a <? ?b] => destruct (Z.ltb_spec a b) end; cbn -[Z.mul Z.quot llround_div Z.max Z.min]; f_equal; first [done | lia]).
Qed.

Lemma ObserveRTT_rejects rtt r : ¬ 0 ≤ rtt ≤ max_rtt_ r → ObserveRTT rtt r = r.
Proof. intros H. unfold ObserveRTT. destruct ((rtt <? 0) || (max_rtt_ r <? rtt)) eqn:E; [done|]. lia. Qed.

Lemma ObserveRTT_wf lo hi k var rtt r : lo ≤ hi → 0 ≤ var → rto_wf lo hi k var r → rto_wf lo hi k var (ObserveRTT rtt r).
Proof.
  intros Hlh Hvar Hw. destruct (decide (0 ≤ rtt ≤ max_rtt_ r)) as [Hr|Hr]; [|by rewrite ObserveRTT_rejects].
  destruct Hw as ((<- & <- & Hk & <-) & Hrto & Hv & Hs). rewrite ObserveRTT_fields by done. unfold rto_wf. cbn. split_and!; try lia. intros _.
  destruct (first_measurement_ r); [lia|]. specialize (Hs eq_refl).
  pose proof (llround_div_bounds (7 * srtt_ r) 8 ltac:(lia) ltac:(lia)).
  pose proof (llround_div_bounds rtt 8 ltac:(lia) ltac:(lia)). lia.
Qed.

Lemma observe_all_wf lo hi k var l r : lo ≤ hi → 0 ≤ var → rto_wf lo hi k var r → rto_wf lo hi k var (observe_all l r).
Proof. intros Hlh Hv. revert r. induction l as [|x l IH]; intros r H; [done|]. by apply IH, ObserveRTT_wf. Qed.

Lemma variance_nonneg var : 0 ≤ var → 0 ≤ llround_div (1000 * var) 8.
Proof. intros. pose proof (llround_div_bounds (1000 * var) 8 ltac:(lia) ltac:(lia)). lia. Qed.

Lemma RetransmissionTimeout_new_wf lo hi k var init : lo ≤ init ≤ hi →
  rto_wf (1000 * lo) (1000 * hi) k (llround_div (1000 * var) 8) (RetransmissionTimeout_new lo hi k var init).
Proof. intros H. unfold rto_wf, RetransmissionTimeout_new. cbn. split_and!; first [lia | discriminate]. Qed.

(** Whatever round-trip times are observed, also ones that are negative or beyond the
    configured maximum, the timeout stays between its two limits, and once one was accepted
    the smoothed time lies within the accepted range and the variance above its least
    value. *)
Theorem rto_within_limits lo hi k var init rtts :
  lo ≤ init ≤ hi → 0 ≤ var →
  let r := observe_all rtts (RetransmissionTimeout_new lo hi k var init) in
  1000 * lo ≤ rto_ r ≤ 1000 * hi
  ∧ (first_measurement_ r = false → 0 ≤ srtt_ r ≤ 1000 * k ∧ llround_div (1000 * var) 8 ≤ rtt_var_ r).
Proof.
  intros H Hv r. pose proof (variance_nonneg var Hv) as Hv'.
  destruct (observe_all_wf (1000 * lo) (1000 * hi) k _ rtts _ ltac:(lia) Hv' (RetransmissionTimeout_new_wf lo hi k var init H))
    as (_ & Hb & _ & Hs).
  by split.
Qed.

Lemma rto_within_limits_witness :
  let r := observe_all [120000; -5; 90000000; 80000] (RetransmissionTimeout_new 400 60000 60000 220 500) in
  1000 * 400 ≤ rto_ r ≤ 1000 * 60000
  ∧ (first_measurement_ r = false → 0 ≤ srtt_ r ≤ 1000 * 60000 ∧ llround_div (1000 * 220) 8 ≤ rtt_var_ r).
Proof. apply (rto_within_limits 400 60000 60000 220 500 [120000; -5; 90000000; 80000]); lia. Defined.

(** A steady round-trip time is learnt geometrically: after [n] further measurements of the
    same value the error of the smoothed time is at most [(7/8)^n] of what it was, up to
    eight microseconds of rounding. *)
Theorem srtt_converges r rtt n :
  first_measurement_ r = false → 0 ≤ srtt_ r → 0 ≤ rtt ≤ max_rtt_ r →
  8 ^ Z.of_nat n * (Z.abs (srtt_ (observe_all (replicate n rtt) r) - rtt) - 8) ≤ 7 ^ Z.of_nat n * (Z.abs (srtt_ r - rtt) - 8).
Proof.
  revert r. induction n as [|n IH]; intros r Hf Hs Hr; [cbn; lia|].
  cbn [replicate observe_all foldl]. fold (observe_all (replicate n rtt) (ObserveRTT rtt r)).
  pose proof (llround_div_bounds (7 * srtt_ r) 8 ltac:(lia) ltac:(lia)).
  pose proof (llround_div_bounds rtt 8 ltac:(lia) ltac:(lia)).
  specialize (IH (ObserveRTT rtt r)). rewrite ObserveRTT_fields in * by done. rewrite Hf in *. cbn in IH.
  specialize (IH eq_refl ltac:(lia) Hr). rewrite Nat2Z.inj_succ, !Z.pow_succ_r by lia.
  set (e := Z.abs (srtt_ (observe_all _ _) - rtt)) in *.
  assert (8 * Z.abs (llround_div (7 * srtt_ r) 8 + llround_div rtt 8 - rtt) ≤ 7 * Z.abs (srtt_ r - rtt) + 8) by lia.
  pose proof (Z.pow_pos_nonneg 7 (Z.of_nat n) ltac:(lia) ltac:(lia)). pose proof (Z.pow_pos_nonneg 8 (Z.of_nat n) ltac:(lia) ltac:(lia)).
  nia.
Qed.

Lemma srtt_converges_witness :
  8 ^ Z.of_nat 40 * (Z.abs (srtt_ (observe_all (replicate 40 80000) (ObserveRTT 120000 (RetransmissionTimeout_new 400 60000 60000 220 500))) - 80000) - 8)
  ≤ 7 ^ Z.of_nat 40 * (Z.abs (srtt_ (ObserveRTT 120000 (RetransmissionTimeout_new 400 60000 60000 220 500)) - 80000) - 8).
Proof.
  apply (srtt_converges (ObserveRTT 120000 (RetransmissionTimeout_new 400 60000 60000 220 500)) 80000 40);
    vm_compute; [reflexivity | discriminate | by split].
Defined.
