(* ===== verification/TaskTimeout.v ===== *)
(** * Timeouts on a task queue (includes/webrtc/net/dcsctp/timer/task_queue_timeout.h, .cc)

    How a timeout of the SCTP timers is brought about: delayed tasks cannot be taken back from
    a task queue, so that a task that comes too early posts another one for what remains, one
    that would come too late is made void by its safety flag, and a timeout that is stopped
    leaves its task behind.  The task queue is not part of the sources; it runs every task once,
    when its time has come or later.  Times are milliseconds. *)

From S2P Require Import Prelude.
Open Scope Z_scope.

(** ** State *)

(** [None] is the infinite future.  [flag_] names the safety flag, of which only the latest is
    alive, and none when the object is destroyed. *)
Record TaskQueueTimeout := mkTimeout {
  flag_ : nat;
  alive_ : bool;
  posted_task_expiration_ : option Z;
  timeout_expiration_ : option Z;
  timeout_id_ : Z
}.
#[export] Instance TaskQueueTimeout_eta : Eta TaskQueueTimeout := λ o, mkTimeout (flag_ o) (alive_ o) (posted_task_expiration_ o) (timeout_expiration_ o) (timeout_id_ o).
Record Task := mkTask { task_due : Z; task_flag : nat }.
(** The timeout, the clock, and the tasks that were posted. *)
Record TimeoutWorld := mkWorld { clock_ : Z; tasks_ : list Task; timeout_ : TaskQueueTimeout }.
#[export] Instance TimeoutWorld_eta : Eta TimeoutWorld := λ w, mkWorld (clock_ w) (tasks_ w) (timeout_ w).
(** What can be seen from outside: the time, the calls of the timeout, and its calls of
    [on_expired_], with the time and the id. *)
Inductive label := LTime (t : Z) | LStart (duration_ms timeout_id : Z) | LStop | LDestroy | LExpired (t timeout_id : Z).

Definition TaskQueueTimeout_new : TaskQueueTimeout := mkTimeout 0 true None None 0.

(** ** Operations *)

(** [DurationMs::InfiniteDuration]. *)
Definition kInfiniteDuration : Z := 2 ^ 31 - 1.
Definition add_duration (now duration_ms : Z) : option Z := if duration_ms =? kInfiniteDuration then None else Some (now + duration_ms).
(** [a >= b]. *)
Definition at_or_after (a b : option Z) : bool :=
  match a, b with None, _ => true | Some _, None => false | Some a, Some b => b <=? a end.

Definition Start (duration_ms timeout_id : Z) (w : TimeoutWorld) : TimeoutWorld :=
  let expiration := add_duration (clock_ w) duration_ms in
  let o := timeout_ w <| timeout_expiration_ := expiration |> <| timeout_id_ := timeout_id |> in
  if at_or_after expiration (posted_task_expiration_ o) then w <| timeout_ := o |>
  else
    let o := match posted_task_expiration_ o with Some _ => o <| flag_ ::= S |> | None => o end in
    w <| timeout_ := o <| posted_task_expiration_ := expiration |> |> <| tasks_ ::= cons (mkTask (clock_ w + duration_ms) (flag_ o)) |>.
Definition Stop (w : TimeoutWorld) : TimeoutWorld := w <| timeout_ ::= (λ o, o <| timeout_expiration_ := None |>) |>.
Definition Destroy (w : TimeoutWorld) : TimeoutWorld := w <| timeout_ ::= (λ o, o <| alive_ := false |>) |>.

(** The posted task, and its call of [on_expired_] if it makes one: [SafeTask] does nothing when
    its flag is not alive. *)
Definition run_task (w : TimeoutWorld) (t : Task) : list label * TimeoutWorld :=
  let o := timeout_ w in
  if alive_ o && (task_flag t =? flag_ o)%nat then
    let o := o <| posted_task_expiration_ := None |> in
    match timeout_expiration_ o with
    | None => ([], w <| timeout_ := o |>)
    | Some expiration =>
      let remaining := expiration - clock_ w in
      let w := w <| timeout_ := o <| timeout_expiration_ := None |> |> in
      if 0 <? remaining then ([], Start remaining (timeout_id_ o) w)
      else ([LExpired (clock_ w) (timeout_id_ o)], w)
    end
  else ([], w).
(** Tasks that are run one after the other. *)
Fixpoint run_tasks (w : TimeoutWorld) (ts : list Task) : list label * TimeoutWorld :=
  match ts with
  | [] => ([], w)
  | t :: ts' => let '(out, w) := run_task w t in let '(outs, w) := run_tasks w ts' in (out ++ outs, w)
  end.

(** ** Histories *)

(** Time goes on; the timeout is started, when it is not running, stopped and destroyed; the
    queue runs a task whose time has come. *)
Inductive step (w : TimeoutWorld) : list label → TimeoutWorld → Prop :=
| step_time t : clock_ w ≤ t → step w [LTime t] (w <| clock_ := t |>)
| step_start duration_ms timeout_id : alive_ (timeout_ w) = true → timeout_expiration_ (timeout_ w) = None → 0 ≤ duration_ms ≤ kInfiniteDuration →
    step w [LStart duration_ms timeout_id] (Start duration_ms timeout_id w)
| step_stop : alive_ (timeout_ w) = true → step w [LStop] (Stop w)
| step_destroy : alive_ (timeout_ w) = true → step w [LDestroy] (Destroy w)
| step_run l1 t l2 out w' : tasks_ w = l1 ++ t :: l2 → task_due t ≤ clock_ w → run_task (w <| tasks_ := l1 ++ l2 |>) t = (out, w') → step w out w'.
(** The labels of a history, in their order. *)
Inductive history (w : TimeoutWorld) : list label → TimeoutWorld → Prop :=
| history_none : history w [] w
| history_step ls ls' w' w'' : step w ls w' → history w' ls' w'' → history w (ls ++ ls') w''.
Definition TimeoutWorld_new (now : Z) : TimeoutWorld := mkWorld now [] TaskQueueTimeout_new.

(** ** An ideal timeout *)

(** It is armed with a time and an id, or not; it accepts a call of [on_expired_] only when it
    is armed, at the present time, which is not before the time it is armed for, and with its
    id, and is then not armed any more. *)
Record Ideal := mkIdeal { ideal_clock : Z; armed : option (Z * Z) }.
Definition ideal_step (i : Ideal) (l : label) : option Ideal :=
  match l with
  | LTime t => if ideal_clock i <=? t then Some (mkIdeal t (armed i)) else None
  | LStart duration_ms timeout_id => Some (mkIdeal (ideal_clock i) ((λ e, (e, timeout_id)) <$> add_duration (ideal_clock i) duration_ms))
  | LStop | LDestroy => Some (mkIdeal (ideal_clock i) None)
  | LExpired t timeout_id =>
    match armed i with
    | Some (expiration, id) => if (t =? ideal_clock i) && (timeout_id =? id) && (expiration <=? t) then Some (mkIdeal t None) else None
    | None => None
    end
  end.
Fixpoint ideal_run (i : Ideal) (ls : list label) : option Ideal :=
  match ls with [] => Some i | l :: ls' => match ideal_step i l with Some i' => ideal_run i' ls' | None => None end end.
Lemma ideal_run_app i ls ls' i' : ideal_run i ls = Some i' → ideal_run i (ls ++ ls') = ideal_run i' ls'.
Proof. revert i. induction ls as [|l ls IH]; intros i; cbn; [by intros [= ->]|]. destruct (ideal_step i l); [apply IH|done]. Qed.

(** What a user of the timeout knows of it. *)
Definition view (w : TimeoutWorld) : Ideal :=
  let o := timeout_ w in mkIdeal (clock_ w) (if alive_ o then (λ e, (e, timeout_id_ o)) <$> timeout_expiration_ o else None).

(** ** The invariant *)

(** At most one task is not void, and it is the one that is noted. *)
Definition tasks_noted (w : TimeoutWorld) : Prop := ∃ void,
  tasks_ w ≡ₚ match posted_task_expiration_ (timeout_ w) with Some p => mkTask p (flag_ (timeout_ w)) :: void | None => void end
  ∧ Forall (λ t, (task_flag t < flag_ (timeout_ w))%nat) void.
(** And a timeout that runs has one that does not come too late. *)
Record timeout_inv (w : TimeoutWorld) : Prop := {
  inv_tasks : tasks_noted w;
  inv_posted : ∀ e, timeout_expiration_ (timeout_ w) = Some e → e - clock_ w < kInfiniteDuration ∧ ∃ p, posted_task_expiration_ (timeout_ w) = Some p ∧ p ≤ e
}.

Lemma Start_inv duration_ms timeout_id w : tasks_noted w → 0 ≤ duration_ms ≤ kInfiniteDuration → timeout_inv (Start duration_ms timeout_id w).
Proof.
  intros (void & Hp & Hv) Hd. unfold Start, add_duration. destruct (Z.eqb_spec duration_ms kInfiniteDuration) as [->|Hne]; cbn [at_or_after]; [by split; [exists void|]|].
  cbn [posted_task_expiration_ set_field TaskQueueTimeout_eta timeout_ TimeoutWorld_eta]. destruct (posted_task_expiration_ (timeout_ w)) as [p|] eqn:Ep.
  - destruct (Z.leb_spec p (clock_ w + duration_ms)) as [Hle|Hlt]; cbn [at_or_after]; rewrite ?(proj2 (Z.leb_le _ _) Hle), ?(proj2 (Z.leb_gt _ _) Hlt).
    + split; [unfold tasks_noted|]; cbn; rewrite ?Ep; [by exists void|]. intros e [= <-]. split; [lia|]. by exists p.
    + split; [unfold tasks_noted|]; cbn; [|intros e [= <-]; split; [lia|by eexists]]. exists (mkTask p (flag_ (timeout_ w)) :: void). rewrite Hp. split; [done|].
      constructor; [cbn; lia|]. eapply Forall_impl; [exact Hv|]. cbn. lia.
  - split; [unfold tasks_noted|]; cbn; [|intros e [= <-]; split; [lia|by eexists]]. exists void. by rewrite Hp.
Qed.

(** Running a task takes it from the queue: either it is void, or it is the one that is noted. *)
Lemma run_noted w l1 t l2 : tasks_noted w → tasks_ w = l1 ++ t :: l2 →
  let w' := w <| tasks_ := l1 ++ l2 |> in
  if (task_flag t =? flag_ (timeout_ w))%nat then posted_task_expiration_ (timeout_ w) = Some (task_due t)
    ∧ tasks_noted (w' <| timeout_ ::= (λ o, o <| posted_task_expiration_ := None |>) |>)
  else tasks_noted w'.
Proof.
  intros (void & Hp & Hv) Et w'. rewrite Et, <- Permutation_middle in Hp. rewrite Forall_forall in Hv. destruct (Nat.eqb_spec (task_flag t) (flag_ (timeout_ w))) as [Hf|Hf].
  - destruct (posted_task_expiration_ (timeout_ w)) as [p|] eqn:Ep.
    + assert (t = mkTask p (flag_ (timeout_ w))) as ->.
      { assert (t ∈ mkTask p (flag_ (timeout_ w)) :: void) as [->|Hin]%elem_of_cons by (rewrite <- Hp; by left); [done|]. apply Hv in Hin. lia. }
      split; [done|]. exists void. cbn. split; [by apply Permutation_cons_inv in Hp|by apply Forall_forall].
    + assert (t ∈ void) as Hin by (rewrite <- Hp; by left). apply Hv in Hin. lia.
  - destruct (posted_task_expiration_ (timeout_ w)) as [p|] eqn:Ep.
    + assert (t ∈ void) as Hin. { assert (t ∈ mkTask p (flag_ (timeout_ w)) :: void) as [->|Hin]%elem_of_cons by (rewrite <- Hp; by left); done. }
      apply list_elem_of_split in Hin as (v1 & v2 & ->). rewrite <- (Permutation_middle v1), perm_swap in Hp. apply Permutation_cons_inv in Hp.
      exists (v1 ++ v2). cbn. rewrite Ep. split; [done|]. apply Forall_forall. intros x Hx. apply Hv. rewrite elem_of_app in *. rewrite elem_of_cons. tauto.
    + assert (t ∈ void) as Hin by (rewrite <- Hp; by left). apply list_elem_of_split in Hin as (v1 & v2 & ->). rewrite <- (Permutation_middle v1) in Hp. apply Permutation_cons_inv in Hp.
      exists (v1 ++ v2). cbn. rewrite Ep. split; [done|]. apply Forall_forall. intros x Hx. apply Hv. rewrite elem_of_app in *. rewrite elem_of_cons. tauto.
Qed.

(** A task of an object that lives: it is void, it starts what remains, or the timeout has
    expired. *)
Lemma run_alive w l1 t l2 : timeout_inv w → tasks_ w = l1 ++ t :: l2 → alive_ (timeout_ w) = true →
  let '(out, w') := run_task (w <| tasks_ := l1 ++ l2 |>) t in timeout_inv w' ∧ ideal_run (view w) out = Some (view w').
Proof.
  intros [Hn Hp] Et Ha. pose proof (run_noted w l1 t l2 Hn Et) as Hr. cbv zeta in Hr. unfold run_task. cbn [timeout_ set_field TimeoutWorld_eta]. rewrite Ha. cbn [andb].
  destruct (task_flag t =? flag_ (timeout_ w))%nat; [|by split; [split|]]. destruct Hr as [Hpost Hnoted].
  cbn [timeout_expiration_ set_field TaskQueueTimeout_eta clock_ TimeoutWorld_eta timeout_id_]. destruct (timeout_expiration_ (timeout_ w)) as [e|] eqn:Ee.
  - destruct (Hp e eq_refl) as [Hinf _]. set (w1 := w <| tasks_ := l1 ++ l2 |> <| timeout_ := _ |>). destruct (Z.ltb_spec 0 (e - clock_ w)) as [Hlt|Hle].
    + split; [apply Start_inv; [done|lia]|]. unfold Start, add_duration. change (clock_ w1) with (clock_ w). rewrite (proj2 (Z.eqb_neq _ _)) by lia.
      replace (clock_ w + (e - clock_ w)) with e by lia. unfold view. rewrite Ha, Ee. cbn. by rewrite Ha.
    + split; [by split|]. unfold view. rewrite Ha, Ee. cbn. rewrite Ha, !Z.eqb_refl, (proj2 (Z.leb_le _ _)) by lia. done.
  - split; [split; [done|]; cbn; by rewrite Ee|]. unfold view. cbn. by rewrite Ee.
Qed.

Lemma step_ok w ls w' : step w ls w' → (alive_ (timeout_ w) = true → timeout_inv w) → (alive_ (timeout_ w') = true → timeout_inv w') ∧ ideal_run (view w) ls = Some (view w').
Proof.
  intros Hs Hi. destruct Hs as [t Ht|d id Ha Hn Hd|Ha|Ha|l1 t l2 out w' Et Hdue Er].
  - split; [intros Ha; destruct (Hi Ha) as [H1 H2]; split; [done|]; cbn; intros e He; destruct (H2 e He); split; [lia|done]|]. cbn. by rewrite (proj2 (Z.leb_le _ _) Ht).
  - split; [intros _; apply Start_inv; [by apply Hi|done]|]. cbn. f_equal.
    unfold Start, view. destruct (at_or_after _ _); cbn; [by rewrite Ha|]. destruct (posted_task_expiration_ (timeout_ w)); cbn; by rewrite Ha.
  - split; [intros _; by destruct (Hi Ha)|]. unfold view. cbn. by rewrite Ha.
  - split; [done|]. done.
  - destruct (alive_ (timeout_ w)) eqn:Ha; [pose proof (run_alive w l1 t l2 (Hi eq_refl) Et Ha) as H; by rewrite Er in H; destruct H|].
    revert Er. unfold run_task. cbn [timeout_ set_field TimeoutWorld_eta]. rewrite Ha. cbn [andb]. intros [= <- <-]. split; [cbn; by rewrite Ha|done].
Qed.
Lemma history_inv w ls w' : history w ls w' → (alive_ (timeout_ w) = true → timeout_inv w) →
  (alive_ (timeout_ w') = true → timeout_inv w') ∧ ideal_run (view w) ls = Some (view w').
Proof.
  induction 1 as [w|w ls ls' w1 w2 Hs _ IH]; intros Hi; [done|]. destruct (step_ok _ _ _ Hs Hi) as [Hi1 Hr]. destruct (IH Hi1) as [H1 H2]. split; [done|].
  by rewrite (ideal_run_app _ _ _ _ Hr).
Qed.
Lemma new_inv now : timeout_inv (TimeoutWorld_new now).
Proof. split; [by exists []|done]. Qed.

(** ** Expiry *)

Lemma run_void ts w : Forall (λ t, (task_flag t < flag_ (timeout_ w))%nat) ts → run_tasks w ts = ([], w).
Proof.
  induction 1 as [|t ts Ht _ IH]; [done|]. cbn [run_tasks]. unfold run_task. rewrite (proj2 (Nat.eqb_neq _ _)) by lia. by rewrite andb_false_r, IH.
Qed.
Lemma run_tasks_app ts ts' w : run_tasks w (ts ++ ts') = let '(out, w1) := run_tasks w ts in let '(outs, w2) := run_tasks w1 ts' in (out ++ outs, w2).
Proof.
  revert w. induction ts as [|t ts IH]; intros w; cbn [app run_tasks]; [by destruct (run_tasks w ts')|]. destruct (run_task w t) as [o w1]. rewrite IH.
  destruct (run_tasks w1 ts) as [o1 w2]. destruct (run_tasks w2 ts') as [o2 w3]. by rewrite app_assoc.
Qed.
(** The tasks whose time has come at [t], in any order. *)
Lemma due_tasks_expire w e t ts : timeout_inv w → alive_ (timeout_ w) = true → timeout_expiration_ (timeout_ w) = Some e → e ≤ t →
  ts ≡ₚ filter (λ x, task_due x ≤ t) (tasks_ w) → ∀ w', timeout_ w' = timeout_ w → clock_ w' = t → (run_tasks w' ts).1 = [LExpired t (timeout_id_ (timeout_ w))].
Proof.
  intros [(void & Hp & Hv) Hpost] Ha Ee Het Hts w' Ho Hc. destruct (Hpost e Ee) as [_ (p & Ep & Hle)]. rewrite Ep in Hp.
  assert (ts ≡ₚ mkTask p (flag_ (timeout_ w)) :: filter (λ x, task_due x ≤ t) void) as Hp'.
  { rewrite Hts, Hp, filter_cons. by rewrite decide_True by (cbn; lia). }
  assert (mkTask p (flag_ (timeout_ w)) ∈ ts) as (l1 & l2 & ->)%list_elem_of_split by (rewrite Hp'; by left).
  rewrite <- Permutation_middle in Hp'. apply Permutation_cons_inv in Hp'.
  assert (Forall (λ t, (task_flag t < flag_ (timeout_ w))%nat) (l1 ++ l2)) as [Hv1 Hv2]%Forall_app.
  { rewrite Hp'. apply Forall_forall. intros x [_ Hx]%list_elem_of_filter. by apply (proj1 (Forall_forall _ _) Hv). }
  rewrite run_tasks_app, (run_void l1) by (by rewrite Ho). cbn [run_tasks]. unfold run_task. rewrite Ho, Ha, Nat.eqb_refl. cbn [andb task_flag].
  cbn [timeout_expiration_ set_field TaskQueueTimeout_eta]. rewrite Ee, Hc, (proj2 (Z.ltb_ge _ _)) by lia. rewrite run_void; [cbn; by rewrite Hc|exact Hv2].
Qed.

(** C32: A timeout behaves as if its task could be taken back.  Any history, of the time, the calls
    of the timeout and its calls of [on_expired_], is one that the ideal timeout accepts: each
    of the latter comes while the timeout runs, at or after the time of its last start plus the
    duration, with the id of that start, and not again until the next.  And when that time has
    come and the queue has run, in any order, what is due, the timeout has expired. *)
Theorem task_timeout_refines now ls w : history (TimeoutWorld_new now) ls w →
  ideal_run (mkIdeal now None) ls = Some (view w)
  ∧ ∀ e t ts, alive_ (timeout_ w) = true → timeout_expiration_ (timeout_ w) = Some e → e ≤ t → ts ≡ₚ filter (λ x, task_due x ≤ t) (tasks_ w) →
    (run_tasks (w <| clock_ := t |> <| tasks_ := filter (λ x, ¬ task_due x ≤ t) (tasks_ w) |>) ts).1 = [LExpired t (timeout_id_ (timeout_ w))].
Proof.
  intros Hr. destruct (history_inv _ _ _ Hr (λ _, new_inv now)) as [Hi Hv]. split; [exact Hv|]. intros e t ts Ha Ee Het Hts.
  set (w' := w <| clock_ := t |> <| tasks_ := _ |>). exact (due_tasks_expire w e t ts (Hi Ha) Ha Ee Het Hts w' eq_refl eq_refl).
Qed.

(** Started for 100 ms, stopped and started for 30 ms, so that the first task is void; the
    second expires; then it is started for 200 ms. *)
Definition sample_world : TimeoutWorld := mkWorld 1050 [mkTask 1250 1; mkTask 1100 0] (mkTimeout 1 true (Some 1250) (Some 1250) 7).
Lemma task_timeout_refines_witness :
  let ls := [LStart 100 5; LStop; LStart 30 6; LTime 1050; LExpired 1050 6; LStart 200 7] in
  ideal_run (mkIdeal 1000 None) ls = Some (mkIdeal 1050 (Some (1250, 7)))
  ∧ (run_tasks (sample_world <| clock_ := 1300 |> <| tasks_ := [] |>) [mkTask 1100 0; mkTask 1250 1]).1 = [LExpired 1300 7].
Proof.
  assert (history (TimeoutWorld_new 1000) ([LStart 100 5] ++ [LStop] ++ [LStart 30 6] ++ [LTime 1050] ++ [LExpired 1050 6] ++ [LStart 200 7] ++ []) sample_world) as Hr.
  { eapply history_step; [apply (step_start _ 100 5); [done|done|by vm_compute]|]. eapply history_step; [by apply step_stop|].
    eapply history_step; [apply (step_start _ 30 6); [done|done|by vm_compute]|]. eapply history_step; [apply (step_time _ 1050); by vm_compute|].
    eapply history_step; [apply (step_run _ [] (mkTask 1030 1) [mkTask 1100 0] [LExpired 1050 6] (mkWorld 1050 [mkTask 1100 0] (mkTimeout 1 true None None 6))); by vm_compute|].
    eapply history_step; [apply (step_start _ 200 7); [done|done|by vm_compute]|]. apply history_none. }
  destruct (task_timeout_refines 1000 _ sample_world Hr) as [H1 H2]. split; [exact H1|].
  apply (H2 1250 1300 [mkTask 1100 0; mkTask 1250 1]); [done|done|lia|]. vm_compute. apply perm_swap.
Defined.
