(* ===== verification/Reassembly.v ===== *)
(** * Reassembly of SCTP messages

    includes/webrtc/net/dcsctp/rx/traditional_reassembly_streams.h, .cc: the fragments of a
    message are collected per stream until it is complete; ordered streams deliver messages in
    the order of their stream sequence numbers.  A [std::map] is the list of its elements in
    the order of their keys, an iterator the place it splits that list at.  Every operation
    returns the messages it passes to [on_assembled_message_].  Byte counts are sums of
    payload sizes that are in memory, so the conversions between [int] and [size_t] keep
    them. *)

From S2P Require Import Prelude SeqNum SctpWire DataTracker.
Open Scope Z_scope.

(** ** std::map *)

Definition cmap (A : Type) : Type := list (Z * A).

(** The elements before [key], and from it. *)
Definition map_split {A} (key : Z) (m : cmap A) : cmap A * cmap A := lower_bound (λ p, p.1 <? key) m.

Definition emplace {A} (key : Z) (v : A) (m : cmap A) : bool * cmap A :=
  let '(before, from) := map_split key m in
  match from with
  | (k, _) :: _ => if k =? key then (false, m) else (true, before ++ (key, v) :: from)
  | [] => (true, before ++ [(key, v)])
  end.

(** [m[key].emplace(k, v)]: the inner map is created when it is missing. *)
Definition emplace_in {A} (key k : Z) (v : A) (m : cmap (cmap A)) : bool * cmap (cmap A) :=
  let '(before, from) := map_split key m in
  match from with
  | (key', inner) :: from' =>
    if key' =? key then let '(inserted, inner') := emplace k v inner in (inserted, before ++ (key, inner') :: from')
    else (true, before ++ (key, [(k, v)]) :: from)
  | [] => (true, before ++ [(key, [(k, v)])])
  end.

(** [erase(begin(), upper_bound(key))]: what is removed, and what is kept. *)
Definition erase_to {A} (key : Z) (m : cmap A) : cmap A * cmap A := lower_bound (λ p, p.1 <=? key) m.

Fixpoint map_find {A} (key : Z) (m : cmap A) : option A :=
  match m with [] => None | (k, v) :: m' => if k =? key then Some v else map_find key m' end.

(** [try_emplace(key, ...).first->second] replaced by [f] of it. *)
Fixpoint map_update {A B} (key : Z) (new : A) (f : A → B * A) (m : cmap A) : B * cmap A :=
  match m with
  | [] => let '(b, v) := f new in (b, [(key, v)])
  | (k, v) :: m' =>
    if key <? k then let '(b, v') := f new in (b, (key, v') :: m)
    else if k =? key then let '(b, v') := f v in (b, (k, v') :: m')
    else let '(b, m'') := map_update key new f m' in (b, (k, v) :: m'')
  end.

(** ** Messages *)

Definition ChunkMap : Type := cmap Data.
Definition data_size (d : Data) : Z := Z.of_nat (length (payload d)).
Definition map_size (m : ChunkMap) : Z := fold_right (λ p s, data_size p.2 + s) 0 m.

Record DcSctpMessage := mkMessage { message_stream_id_ : Z; message_ppid_ : Z; message_payload_ : list Z }.
#[export] Instance Data_eq_dec : EqDecision Data.
Proof. solve_decision. Defined.
#[export] Instance DcSctpMessage_eq_dec : EqDecision DcSctpMessage.
Proof. solve_decision. Defined.

(** The sizes and the messages with the TSNs they were assembled from. *)
Definition assembled : Type := list (list Z * DcSctpMessage).

Definition AssembleMessage_one (tsn : Z) (data : Data) : Z * assembled :=
  (data_size data, [([tsn], mkMessage (stream_id data) (ppid data) (payload data))]).

(** The chunks from [start] up to [end], which are not empty. *)
Definition AssembleMessage (chunks : ChunkMap) : Z * assembled :=
  match chunks with
  | [] => (0, [])
  | [(tsn, data)] => AssembleMessage_one tsn data
  | (_, start) :: _ =>
    (map_size chunks,
     [(fst <$> chunks, mkMessage (stream_id start) (ppid start) (concat (payload ∘ snd <$> chunks)))])
  end.

(** ** UnorderedStream *)

Record UnorderedStream := mkUnordered { chunks_ : ChunkMap }.
#[export] Instance UnorderedStream_eta : Eta UnorderedStream := λ s, mkUnordered (chunks_ s).

(** The loop back from [iter], over the chunks before it (nearest first): the chunks that
    remain before the beginning, and those from the beginning up to [iter]. *)
Fixpoint FindBeginning (iter : Z * Data) (before : list (Z * Data)) : option (list (Z * Data) * ChunkMap) :=
  if is_beginning iter.2 then Some (before, [])
  else match before with
       | [] => None
       | prev :: before' =>
         if next_value prev.1 =? iter.1
         then '(rest, message) ← FindBeginning prev before'; Some (rest, message ++ [prev])
         else None
       end.

(** The loop on from [iter]: the chunks from [iter] to the end, and those after it. *)
Fixpoint FindEnd (iter : Z * Data) (after : ChunkMap) : option (ChunkMap * ChunkMap) :=
  if is_end iter.2 then Some ([iter], after)
  else match after with
       | [] => None
       | next :: after' =>
         if next.1 =? next_value iter.1
         then '(message, rest) ← FindEnd next after'; Some (iter :: message, rest)
         else None
       end.

(** [iter] is at [tsn]. *)
Definition Unordered_TryToAssembleMessage (tsn : Z) (s : UnorderedStream) : Z * assembled * UnorderedStream :=
  let '(before, from) := map_split tsn (chunks_ s) in
  match from with
  | [] => (0, [], s)
  | iter :: after =>
    match FindBeginning iter (rev before) with
    | None => (0, [], s)
    | Some (rest, message1) =>
      match FindEnd iter after with
      | None => (0, [], s)
      | Some (message2, after') =>
        let '(bytes, out) := AssembleMessage (message1 ++ message2) in
        (bytes, out, s <| chunks_ := rev rest ++ after' |>)
      end
    end
  end.

Definition Unordered_Add (tsn : Z) (data : Data) (s : UnorderedStream) : Z * assembled * UnorderedStream :=
  if is_beginning data && is_end data then (0, (AssembleMessage_one tsn data).2, s)
  else
    let '(inserted, chunks) := emplace tsn data (chunks_ s) in
    if negb inserted then (0, [], s)
    else
      let '(bytes, out, s) := Unordered_TryToAssembleMessage tsn (s <| chunks_ := chunks |>) in
      (data_size data - bytes, out, s).

Definition Unordered_EraseTo (tsn : Z) (s : UnorderedStream) : Z * UnorderedStream :=
  let '(removed, kept) := erase_to tsn (chunks_ s) in (map_size removed, s <| chunks_ := kept |>).

(** ** OrderedStream *)

Record OrderedStream := mkOrdered {
  chunks_by_ssn_ : cmap ChunkMap;
  ssn_unwrapper_ : SeqNumUnwrapper;
  next_ssn_ : Z
}.
#[export] Instance OrderedStream_eta : Eta OrderedStream := λ s, mkOrdered (chunks_by_ssn_ s) (ssn_unwrapper_ s) (next_ssn_ s).

Definition OrderedStream_new (next_ssn : Z) : OrderedStream :=
  let '(next, u) := Unwrap 16 0 next_ssn SeqNumUnwrapper_new in mkOrdered [] u next.

(** The chunks of a sequence number are never empty, so that both ends can be read. *)
Definition complete (chunks : ChunkMap) : bool :=
  match chunks, list.last chunks with
  | (first_tsn, first_data) :: _, Some (last_tsn, last_data) =>
    is_beginning first_data && is_end last_data
    && (Difference 32 last_tsn first_tsn =? Z.of_nat (length chunks) - 1)
  | _, _ => false
  end.

Definition Ordered_TryToAssembleMessage (s : OrderedStream) : Z * assembled * OrderedStream :=
  match chunks_by_ssn_ s with
  | [] => (0, [], s)
  | (ssn, chunks) :: rest =>
    if negb (ssn =? next_ssn_ s) then (0, [], s)
    else if negb (complete chunks) then (0, [], s)
    else
      let '(bytes, out) := AssembleMessage chunks in
      (bytes, out, s <| chunks_by_ssn_ := rest |> <| next_ssn_ ::= next_value |>)
  end.

(** The loop ends when nothing was assembled; each other round removes an element. *)
Fixpoint assemble_loop (fuel : nat) (s : OrderedStream) : Z * assembled * OrderedStream :=
  match fuel with
  | O => (0, [], s)
  | S fuel' =>
    let '(bytes, out, s) := Ordered_TryToAssembleMessage s in
    if bytes =? 0 then (0, out, s)
    else let '(bytes', out', s) := assemble_loop fuel' s in (bytes + bytes', out ++ out', s)
  end.
Definition TryToAssembleMessages (s : OrderedStream) : Z * assembled * OrderedStream :=
  assemble_loop (S (length (chunks_by_ssn_ s))) s.

Definition TryToAssembleMessagesFastpath (ssn tsn : Z) (data : Data) (s : OrderedStream) : Z * assembled * OrderedStream :=
  if is_beginning data && is_end data then
    let '(bytes, out) := AssembleMessage_one tsn data in
    let '(bytes', out', s) := TryToAssembleMessages (s <| next_ssn_ ::= next_value |>) in
    (bytes + bytes', out ++ out', s)
  else
    let '(inserted, chunks) := emplace_in ssn tsn data (chunks_by_ssn_ s) in
    let s := s <| chunks_by_ssn_ := chunks |> in
    if negb inserted then (data_size data, [], s) else TryToAssembleMessages s.

Definition Ordered_Add (tsn : Z) (data : Data) (s : OrderedStream) : Z * assembled * OrderedStream :=
  let '(unwrapped_ssn, u) := Unwrap 16 0 (ssn data) (ssn_unwrapper_ s) in
  let s := s <| ssn_unwrapper_ := u |> in
  if unwrapped_ssn =? next_ssn_ s then
    let '(bytes, out, s) := TryToAssembleMessagesFastpath unwrapped_ssn tsn data s in (data_size data - bytes, out, s)
  else
    let '(inserted, chunks) := emplace_in unwrapped_ssn tsn data (chunks_by_ssn_ s) in
    let s := s <| chunks_by_ssn_ := chunks |> in
    if negb inserted then (0, [], s) else (data_size data, [], s).

Definition maps_size (m : cmap ChunkMap) : Z := fold_right (λ p s, map_size p.2 + s) 0 m.

Definition Ordered_EraseTo (ssn : Z) (s : OrderedStream) : Z * assembled * OrderedStream :=
  let '(unwrapped_ssn, u) := Unwrap 16 0 ssn (ssn_unwrapper_ s) in
  let '(removed, kept) := erase_to unwrapped_ssn (chunks_by_ssn_ s) in
  let s := s <| ssn_unwrapper_ := u |> <| chunks_by_ssn_ := kept |> in
  let s := if next_ssn_ s <=? unwrapped_ssn then s <| next_ssn_ := next_value unwrapped_ssn |> else s in
  let '(bytes, out, s) := TryToAssembleMessages s in
  (maps_size removed + bytes, out, s).

Definition Ordered_Reset (s : OrderedStream) : OrderedStream :=
  let '(next, u) := Unwrap 16 0 0 (Unwrapper_Reset (ssn_unwrapper_ s)) in
  s <| ssn_unwrapper_ := u |> <| next_ssn_ := next |>.

(** ** TraditionalReassemblyStreams *)

Record TraditionalStreams := mkTraditional {
  unordered_streams_ : cmap UnorderedStream;
  ordered_streams_ : cmap OrderedStream
}.
#[export] Instance TraditionalStreams_eta : Eta TraditionalStreams := λ t, mkTraditional (unordered_streams_ t) (ordered_streams_ t).
Definition TraditionalStreams_new : TraditionalStreams := mkTraditional [] [].

Definition Traditional_Add (tsn : Z) (data : Data) (t : TraditionalStreams) : Z * assembled * TraditionalStreams :=
  if is_unordered data then
    let '(r, streams) := map_update (stream_id data) (mkUnordered []) (Unordered_Add tsn data) (unordered_streams_ t) in
    (r, t <| unordered_streams_ := streams |>)
  else
    let '(r, streams) := map_update (stream_id data) (OrderedStream_new 0) (Ordered_Add tsn data) (ordered_streams_ t) in
    (r, t <| ordered_streams_ := streams |>).

Definition erase_unordered (tsn : Z) (m : cmap UnorderedStream) : Z * cmap UnorderedStream :=
  (fold_right (λ p s, (Unordered_EraseTo tsn p.2).1 + s) 0 m, (λ p, (p.1, (Unordered_EraseTo tsn p.2).2)) <$> m).

Fixpoint skip_streams (skipped : list SkippedStream) (m : cmap OrderedStream) : Z * assembled * cmap OrderedStream :=
  match skipped with
  | [] => (0, [], m)
  | sk :: skipped' =>
    let '(bytes, out, m) := map_update (skipped_stream_id sk) (OrderedStream_new 0) (Ordered_EraseTo (skipped_ssn sk)) m in
    let '(bytes', out', m) := skip_streams skipped' m in
    (bytes + bytes', out ++ out', m)
  end.

Definition Traditional_HandleForwardTsn (tsn : Z) (skipped : list SkippedStream) (t : TraditionalStreams)
    : Z * assembled * TraditionalStreams :=
  let '(bytes, unordered) := erase_unordered tsn (unordered_streams_ t) in
  let '(bytes', out, ordered) := skip_streams skipped (ordered_streams_ t) in
  (bytes + bytes', out, mkTraditional unordered ordered).

(** The streams named, or all when none is. *)
Definition Traditional_ResetStreams (stream_ids : list Z) (t : TraditionalStreams) : TraditionalStreams :=
  t <| ordered_streams_ ::= fmap (λ p,
    (p.1, if match stream_ids with [] => true | _ => bool_decide (p.1 ∈ stream_ids) end then Ordered_Reset p.2 else p.2)) |>.

(** Handover: which streams still hold chunks, and the numbers of the streams. *)
Definition kOrderedStreamHasUnassembledChunks : Z := 128.
Definition kUnorderedStreamHasUnassembledChunks : Z := 256.
Record RxStreams := mkRxStreams { ho_ordered_streams : list (Z * Z); ho_unordered_streams : list Z }.

Definition Traditional_GetHandoverReadiness (t : TraditionalStreams) : Z :=
  Z.lor (if existsb (λ p, negb (bool_decide (chunks_by_ssn_ p.2 = []))) (ordered_streams_ t) then kOrderedStreamHasUnassembledChunks else 0)
        (if existsb (λ p, negb (bool_decide (chunks_ p.2 = []))) (unordered_streams_ t) then kUnorderedStreamHasUnassembledChunks else 0).

Definition Traditional_AddHandoverState (t : TraditionalStreams) : RxStreams :=
  mkRxStreams ((λ p, (p.1, Wrap 16 (next_ssn_ p.2))) <$> ordered_streams_ t) (fst <$> unordered_streams_ t).

(** Into streams that are pristine. *)
Definition Traditional_RestoreFromState (state : RxStreams) (t : TraditionalStreams) : TraditionalStreams :=
  mkTraditional
    (fold_left (λ m id, (emplace id (mkUnordered []) m).2) (ho_unordered_streams state) (unordered_streams_ t))
    (fold_left (λ m p, (emplace p.1 (OrderedStream_new (wrap 16 p.2)) m).2) (ho_ordered_streams state) (ordered_streams_ t)).

(** ** Maps with consecutive keys, some of them missing *)

Definition sparse {A} (base : Z) (f : nat → option A) (s n : nat) : cmap A :=
  omap (λ i, (λ v, (base + Z.of_nat i, v)) <$> f i) (seq s n).
Definition put {A} (i : nat) (v : A) (f : nat → option A) : nat → option A := λ k, if (k =? i)%nat then Some v else f k.

Section Sparse.
  Context {A : Type} (base : Z).
  Implicit Types (f : nat → option A) (s n i : nat).

Lemma sparse_ext f g s n : (∀ i, (s ≤ i < s + n)%nat → f i = g i) → sparse base f s n = sparse base g s n.
Proof.
  revert s. induction n as [|n IH]; intros s H; [done|]. unfold sparse in *. cbn [seq omap list_omap].
  rewrite (H s) by lia. rewrite IH; [done|]. intros i Hi. apply H. lia.
Qed.

Lemma sparse_app f s n m : sparse base f s (n + m) = sparse base f s n ++ sparse base f (s + n) m.
Proof. unfold sparse. by rewrite seq_app, omap_app. Qed.

Lemma sparse_cons f s n :
  sparse base f s (S n) = match f s with Some v => [(base + Z.of_nat s, v)] | None => [] end ++ sparse base f (S s) n.
Proof. unfold sparse. cbn [seq omap list_omap]. by destruct (f s). Qed.

Lemma sparse_none f s n : (∀ i, f i = None) → sparse base f s n = [].
Proof. intros Hf. revert s. induction n as [|n IH]; intros s; [done|]. by rewrite sparse_cons, Hf, IH. Qed.

Lemma sparse_keys f s n : Forall (λ p, ∃ i, (s ≤ i < s + n)%nat ∧ p.1 = base + Z.of_nat i ∧ f i = Some p.2) (sparse base f s n).
Proof.
  apply Forall_forall. intros [k v] (i & Hi & Hf)%list_elem_of_omap. apply elem_of_seq in Hi.
  destruct (f i) as [w|] eqn:E; [|done]. injection Hf as <- <-. exists i. split; [lia|done].
Qed.

Lemma lower_bound_app {B} (less : B → bool) l r :
  Forall (λ a, less a = true) l → match r with [] => True | a :: _ => less a = false end → lower_bound less (l ++ r) = (l, r).
Proof.
  induction 1 as [|a l Ha _ IH]; intros Hr; cbn.
  - destruct r as [|b r]; [done|]. cbn. by rewrite Hr.
  - by rewrite Ha, IH.
Qed.

Lemma map_split_sparse f s n i :
  (s ≤ i ≤ s + n)%nat → map_split (base + Z.of_nat i) (sparse base f s n) = (sparse base f s (i - s), sparse base f i (s + n - i)).
Proof.
  intros Hi. replace n with ((i - s) + (s + n - i))%nat at 1 by lia. rewrite sparse_app. replace (s + (i - s))%nat with i by lia.
  apply lower_bound_app.
  - eapply Forall_impl; [apply sparse_keys|]. intros p (k & Hk & -> & _). lia.
  - pose proof (sparse_keys f i (s + n - i)) as Hk. destruct (sparse _ _ _ _) as [|p r]; [done|].
    apply list.Forall_cons in Hk as [(k & Hk & -> & _) _]. lia.
Qed.

Lemma sparse_split f s n i : (s ≤ i < s + n)%nat →
  sparse base f s n
  = sparse base f s (i - s) ++ match f i with Some v => [(base + Z.of_nat i, v)] | None => [] end ++ sparse base f (S i) (s + n - S i).
Proof.
  intros Hi. rewrite <- sparse_cons. replace (S (s + n - S i)) with (s + n - i)%nat by lia.
  replace i with (s + (i - s))%nat at 2 by lia. rewrite <- sparse_app. f_equal. lia.
Qed.

Lemma sparse_put f s n i v : (s ≤ i < s + n)%nat →
  sparse base (put i v f) s n = sparse base f s (i - s) ++ (base + Z.of_nat i, v) :: sparse base f (S i) (s + n - S i).
Proof.
  intros Hi. rewrite (sparse_split _ s n i Hi). unfold put at 2. rewrite Nat.eqb_refl. cbn [app].
  f_equal; [|f_equal]; apply sparse_ext; intros k Hk; unfold put; by rewrite (proj2 (Nat.eqb_neq _ _)) by lia.
Qed.

Lemma emplace_sparse f s n i v : (s ≤ i < s + n)%nat → f i = None →
  emplace (base + Z.of_nat i) v (sparse base f s n) = (true, sparse base (put i v f) s n).
Proof.
  intros Hi Hf. unfold emplace. rewrite map_split_sparse by lia. rewrite sparse_put by done.
  replace (s + n - i)%nat with (S (s + n - S i)) by lia. rewrite sparse_cons, Hf. cbn [app].
  pose proof (sparse_keys f (S i) (s + n - S i)) as Hk. destruct (sparse base f (S i) _) as [|[k w] r]; [done|].
  apply list.Forall_cons in Hk as [(k' & Hk & Hkey & _) _]. cbn in Hkey. by rewrite (proj2 (Z.eqb_neq _ _)) by lia.
Qed.

Lemma sparse_full f s n : (length (sparse base f s n) ≤ n)%nat ∧ (length (sparse base f s n) = n → ∀ i, (s ≤ i < s + n)%nat → is_Some (f i)).
Proof.
  revert s. induction n as [|n IH]; intros s; [split; [cbn; lia|intros; lia]|]. destruct (IH (S s)) as [H1 H2].
  rewrite sparse_cons, length_app. destruct (f s) as [v|] eqn:E; cbn [length]; [|split; lia].
  split; [lia|]. intros Hl i Hi. destruct (decide (i = s)) as [->|]; [by eexists|]. apply H2; lia.
Qed.

Lemma sparse_all f (g : nat → A) s n :
  (∀ i, (s ≤ i < s + n)%nat → f i = Some (g i)) → sparse base f s n = (λ i, (base + Z.of_nat i, g i)) <$> seq s n.
Proof.
  revert s. induction n as [|n IH]; intros s H; [done|]. rewrite sparse_cons, H by lia. cbn. f_equal. apply IH. intros i Hi. apply H. lia.
Qed.
End Sparse.

Lemma emplace_in_sparse {A} (base base' : Z) (f : nat → option (cmap A)) (g : nat → option A) s n i j m v :
  (s ≤ i < s + n)%nat → (j < m)%nat → f i = match sparse base' g 0 m with [] => None | inner => Some inner end → g j = None →
  emplace_in (base + Z.of_nat i) (base' + Z.of_nat j) v (sparse base f s n)
  = (true, sparse base (put i (sparse base' (put j v g) 0 m) f) s n).
Proof.
  intros Hi Hj Hf Hg. unfold emplace_in. rewrite map_split_sparse by lia. rewrite sparse_put by done.
  replace (s + n - i)%nat with (S (s + n - S i)) by lia. rewrite sparse_cons.
  pose proof (emplace_sparse base' g 0 m j v ltac:(lia) Hg) as He.
  destruct (sparse base' g 0 m) as [|p inner]; rewrite Hf; cbn [app].
  - injection He as <-. pose proof (sparse_keys base f (S i) (s + n - S i)) as Hk.
    destruct (sparse base f (S i) _) as [|[k w] r]; [done|]. apply list.Forall_cons in Hk as [(k' & Hk & Hkey & _) _]. cbn in Hkey.
    by rewrite (proj2 (Z.eqb_neq _ _)) by lia.
  - by rewrite Z.eqb_refl, He.
Qed.

(** ** Delivery on an ordered stream

    A sender numbers its messages from zero and cuts each into fragments with consecutive
    TSNs. *)

Record sent_message := mkSent { sent_tsn : Z; sent_ppid : Z; sent_fragments : list (list Z) }.
Definition fragment_count (m : sent_message) : nat := length (sent_fragments m).

(** Fragments carry data, and there are fewer of them than TSNs. *)
Definition sent_ok (m : sent_message) : Prop :=
  sent_fragments m ≠ [] ∧ Forall (λ f, f ≠ []) (sent_fragments m) ∧ Z.of_nat (fragment_count m) ≤ 2 ^ 32.

Definition fragment (sid : Z) (unordered : bool) (i : nat) (m : sent_message) (j : nat) : Data :=
  mkData sid (wrap 16 (Z.of_nat i)) 0 0 (sent_ppid m) (nth j (sent_fragments m) [])
    (j =? 0)%nat (S j =? fragment_count m)%nat unordered.
Definition fragment_tsn (m : sent_message) (j : nat) : Z := sent_tsn m + Z.of_nat j.

(** The message that should come out, with the TSNs of its fragments. *)
Definition delivery (sid : Z) (m : sent_message) : list Z * DcSctpMessage :=
  (fragment_tsn m <$> seq 0 (fragment_count m), mkMessage sid (sent_ppid m) (concat (sent_fragments m))).

Section Message.
  Context (sid : Z) (unordered : bool) (number : nat) (m : sent_message) (Hm : sent_ok m).
  Abbreviation frag := (fragment sid unordered number m).
  Abbreviation count := (fragment_count m).

(** The chunks of the fragments that arrived, and whether all did. *)
Definition arrived_chunks (have : nat → bool) : ChunkMap :=
  sparse (sent_tsn m) (λ j, if have j then Some (frag j) else None) 0 count.
Definition all_arrived (have : nat → bool) : bool := forallb have (seq 0 count).

Lemma all_arrived_spec have : all_arrived have = true ↔ ∀ j, (j < count)%nat → have j = true.
Proof. unfold all_arrived. rewrite forallb_forall. split; intros H j Hj; apply H; rewrite ?in_seq in *; lia. Qed.

Lemma arrived_chunks_all have : all_arrived have = true →
  arrived_chunks have = (λ j, (fragment_tsn m j, frag j)) <$> seq 0 count.
Proof. intros H. rewrite all_arrived_spec in H. apply sparse_all. intros j Hj. by rewrite H by lia. Qed.

Lemma count_pos : (0 < count)%nat.
Proof using Hm. destruct Hm as [H _]. unfold fragment_count. destruct (sent_fragments m); [done|]. cbn. lia. Qed.

Lemma complete_ends chunks p q : head chunks = Some p → list.last chunks = Some q →
  complete chunks = is_beginning p.2 && is_end q.2 && (Difference 32 q.1 p.1 =? Z.of_nat (length chunks) - 1).
Proof. intros Hp Hq. destruct chunks as [|[t d] l]; [done|]. injection Hp as <-. unfold complete. rewrite Hq. by destruct q. Qed.

Lemma Difference_ahead a n : 0 ≤ n < 2 ^ 32 → Difference 32 (a + n) a = n.
Proof.
  intros Hn. unfold Difference. destruct (Z.ltb_spec a (a + n)); rewrite wrap_small; unfold uint; lia.
Qed.

Lemma complete_arrived have : complete (arrived_chunks have) = all_arrived have.
Proof using Hm.
  pose proof count_pos as Hpos. destruct Hm as (_ & _ & Hsz). destruct (all_arrived have) eqn:Hall.
  - rewrite arrived_chunks_all by done.
    rewrite (complete_ends _ (fragment_tsn m 0, frag 0) (fragment_tsn m (count - 1), frag (count - 1))).
    + cbn [fst snd]. unfold fragment_tsn. rewrite Z.add_0_r, Difference_ahead by lia. rewrite length_fmap, length_seq.
      unfold fragment. cbn [is_beginning is_end]. rewrite (proj2 (Nat.eqb_eq (S (count - 1)) count)) by lia. cbn [Nat.eqb andb]. apply Z.eqb_eq. lia.
    + destruct count; [lia|done].
    + rewrite fmap_last, last_lookup, length_seq, lookup_seq_lt by lia. cbn. do 3 f_equal; lia.
  - apply not_true_iff_false. intros Hc. pose proof Hall as Hno. apply not_true_iff_false in Hno. apply Hno.
    destruct (head (arrived_chunks have)) as [p|] eqn:Hp; [|by destruct (arrived_chunks have)].
    destruct (list.last (arrived_chunks have)) as [q|] eqn:Hq; [|by apply last_None in Hq; rewrite Hq in Hp].
    rewrite (complete_ends _ p q Hp Hq) in Hc. apply andb_true_iff in Hc as [[Hb He]%andb_true_iff Hl%Z.eqb_eq].
    pose proof (sparse_keys (sent_tsn m) (λ j, if have j then Some (frag j) else None) 0 count) as Hk.
    fold (arrived_chunks have) in Hk. rewrite Forall_forall in Hk.
    destruct (Hk p (head_Some_elem_of _ _ Hp)) as (j & Hj & Hp1 & Hp2). destruct (Hk q (last_Some_elem_of _ _ Hq)) as (j' & Hj' & Hq1 & Hq2).
    destruct (have j) eqn:Hjh, (have j') eqn:Hjh'; try done. injection Hp2 as Hp2. injection Hq2 as Hq2. rewrite <- Hp2 in Hb. rewrite <- Hq2 in He.
    apply Nat.eqb_eq in Hb, He. subst j. rewrite Hp1, Hq1, Z.add_0_r, Difference_ahead in Hl by lia.
    apply all_arrived_spec. intros k Hk'.
    destruct (sparse_full (sent_tsn m) (λ j, if have j then Some (frag j) else None) 0 count) as [_ Hfull].
    destruct (Hfull ltac:(unfold arrived_chunks in Hl; lia) k ltac:(lia)) as [v Hv]. by destruct (have k).
Qed.

Lemma map_size_fragments (l : list nat) :
  map_size ((λ j, (fragment_tsn m j, frag j)) <$> l) = Z.of_nat (length (concat ((λ j, nth j (sent_fragments m) []) <$> l))).
Proof. induction l as [|j l IH]; [done|]. cbn [fmap list_fmap map_size fold_right concat]. rewrite length_app, Nat2Z.inj_add, <- IH. done. Qed.

Lemma nth_all {B} (l : list B) d : (λ j, nth j l d) <$> seq 0 (length l) = l.
Proof. induction l as [|a l IH]; [done|]. cbn. f_equal. rewrite <- fmap_S_seq, <- list_fmap_compose. exact IH. Qed.

Definition sent_size : Z := Z.of_nat (length (concat (sent_fragments m))).

Lemma sent_size_pos : 0 < sent_size.
Proof using Hm.
  unfold sent_size. destruct Hm as (H & Hf & _). destruct (sent_fragments m) as [|[|b f] l]; [done| |].
  - by apply list.Forall_cons in Hf as [[] _].
  - cbn. lia.
Qed.

(** The fast path of a message that is not cut. *)
Lemma assemble_single : 1%nat = count → (AssembleMessage_one (fragment_tsn m 0) (frag 0)).2 = [delivery sid m].
Proof.
  intros Hc. unfold delivery. rewrite <- Hc. unfold fragment_count in Hc. cbn.
  destruct (sent_fragments m) as [|f [|f' l]]; try done. cbn. by rewrite app_nil_r.
Qed.

Lemma assemble_arrived have : all_arrived have = true →
  AssembleMessage (arrived_chunks have) = (sent_size, [delivery sid m]).
Proof using Hm.
  intros H. pose proof count_pos as Hpos. rewrite arrived_chunks_all by done.
  assert (∀ l : list nat, l ≠ [] → hd 0%nat l = 0%nat → AssembleMessage ((λ j, (fragment_tsn m j, frag j)) <$> l)
    = (map_size ((λ j, (fragment_tsn m j, frag j)) <$> l),
       [(fragment_tsn m <$> l, mkMessage sid (sent_ppid m) (concat ((λ j, nth j (sent_fragments m) []) <$> l)))])) as Hl.
  { intros [|j [|j' l]]; [done| |]; intros _ [= ->].
    - cbn. unfold AssembleMessage_one. cbn. by rewrite app_nil_r, Z.add_0_r.
    - unfold AssembleMessage. cbn [fmap list_fmap]. do 4 f_equal; [|rewrite <- !list_fmap_compose; done]. f_equal. f_equal. by rewrite <- list_fmap_compose. }
  rewrite Hl; [|destruct count; [lia|done]|by destruct count]. rewrite map_size_fragments. unfold fragment_count, delivery, sent_size. by rewrite nth_all.
Qed.
End Message.

(** The unwrapper after [v] finds a number that is near. *)
Lemma unwrap_near v x : Z.abs (x - v) < 2 ^ 15 →
  Unwrap 16 0 (wrap 16 x) (mkUnwrapper v (Some (wrap 16 v))) = (x, mkUnwrapper x (Some (wrap 16 x))).
Proof. intros H. unfold Unwrap. cbn [last_value_ last_unwrapped_]. rewrite Delta_exact by (cbn; lia). by replace (v + (x - v)) with x by lia. Qed.

(** The fragments that have arrived, one more, and several. *)
Definition arrive (i j : nat) (have : nat → nat → bool) : nat → nat → bool := λ i' j', ((i' =? i)%nat && (j' =? j)%nat) || have i' j'.
Definition arrive_all (l : list (nat * nat)) (have : nat → nat → bool) : nat → nat → bool := fold_left (λ h p, arrive p.1 p.2 h) l have.

Lemma arrive_other i j have i' : i' ≠ i → ∀ j', arrive i j have i' j' = have i' j'.
Proof. intros H j'. unfold arrive. by rewrite (proj2 (Nat.eqb_neq _ _)). Qed.

Lemma arrive_fresh i j have l :
  (i, j) ∉ l → Forall (λ p, have p.1 p.2 = false) l → Forall (λ p, arrive i j have p.1 p.2 = false) l.
Proof.
  rewrite !Forall_forall. intros Hni Hn [a b] Hab. specialize (Hn _ Hab). cbn in *. unfold arrive. rewrite Hn, orb_false_r.
  apply not_true_iff_false. rewrite andb_true_iff, !Nat.eqb_eq. by intros [-> ->].
Qed.

Lemma arrive_all_spec l have i j : arrive_all l have i j = true ↔ (i, j) ∈ l ∨ have i j = true.
Proof.
  revert have. induction l as [|[a b] l IH]; intros have; cbn.
  - split; [by right|]. by intros [?%not_elem_of_nil|?].
  - unfold arrive_all in *. rewrite IH. unfold arrive. cbn. rewrite orb_true_iff, andb_true_iff, !Nat.eqb_eq, elem_of_cons, pair_equal_spec. tauto.
Qed.

Section Ordered.
  Context (sid : Z) (messages : nat → sent_message) (total : nat).
  Context (Hmessages : ∀ i, (i < total)%nat → sent_ok (messages i)).
  Implicit Types (have : nat → nat → bool) (u : SeqNumUnwrapper).

Definition chunks_of have (i : nat) : ChunkMap := arrived_chunks sid false i (messages i) (have i).
Definition entry have (i : nat) : option ChunkMap := match chunks_of have i with [] => None | chunks => Some chunks end.

(** The state of the stream when the messages below [k] have been delivered. *)
Definition ordered_state have (k : nat) u : OrderedStream :=
  mkOrdered (sparse 0 (entry have) k (total - k)) u (Z.of_nat k).
Definition whole have (i : nat) : bool := all_arrived (messages i) (have i).
Definition waiting have (k : nat) : Prop :=
  (k ≤ total)%nat ∧ (∀ i, (i < k)%nat → whole have i = true) ∧ (k = total ∨ whole have k = false).

Lemma entry_whole have i : (i < total)%nat → whole have i = true → entry have i = Some (chunks_of have i).
Proof using Hmessages.
  intros Hi H. unfold entry, chunks_of. rewrite arrived_chunks_all by done. pose proof (count_pos _ (Hmessages i Hi)). by destruct (fragment_count _); [lia|].
Qed.

Lemma try_whole have k u : (k < total)%nat → whole have k = true →
  Ordered_TryToAssembleMessage (ordered_state have k u)
  = (sent_size (messages k), [delivery sid (messages k)], ordered_state have (S k) u).
Proof using Hmessages.
  intros Hk Hw. unfold Ordered_TryToAssembleMessage, ordered_state. cbn [chunks_by_ssn_ next_ssn_].
  replace (total - k)%nat with (S (total - S k)) by lia. rewrite sparse_cons, entry_whole by done. cbn [app].
  rewrite Z.add_0_l, Z.eqb_refl. cbn [negb]. unfold chunks_of. rewrite complete_arrived by auto. unfold whole in Hw. rewrite Hw. cbn [negb].
  rewrite assemble_arrived by auto. unfold set_field. cbn. unfold next_value. do 2 f_equal. lia.
Qed.

Lemma try_waiting have k u : waiting have k →
  Ordered_TryToAssembleMessage (ordered_state have k u) = (0, [], ordered_state have k u).
Proof using Hmessages.
  intros (Hk & _ & Hw). unfold Ordered_TryToAssembleMessage. cbn [chunks_by_ssn_ next_ssn_ ordered_state].
  destruct (decide (k = total)) as [->|Hn]; [by rewrite Nat.sub_diag|]. destruct Hw as [->|Hw]; [done|].
  replace (total - k)%nat with (S (total - S k)) by lia. rewrite sparse_cons. destruct (entry have k) as [chunks|] eqn:E.
  - cbn [app]. rewrite Z.add_0_l, Z.eqb_refl. cbn [negb]. unfold entry in E.
    assert (chunks = chunks_of have k) as -> by (destruct (chunks_of have k); congruence).
    unfold chunks_of. rewrite complete_arrived by (apply Hmessages; lia). unfold whole in Hw. by rewrite Hw.
  - pose proof (sparse_keys 0 (entry have) (S k) (total - S k)) as Hkeys. cbn [app].
    destruct (sparse 0 (entry have) (S k) _) as [|[x c] l]; [done|].
    apply list.Forall_cons in Hkeys as [(i & Hi & Hx & _) _]. cbn in Hx. by rewrite (proj2 (Z.eqb_neq _ _)) by lia.
Qed.

(** The loop delivers the messages that are whole, in order, up to the first that is not. *)
Lemma loop_delivers have k u fuel :
  (k ≤ total)%nat → (∀ i, (i < k)%nat → whole have i = true) → (length (sparse 0 (entry have) k (total - k)) < fuel)%nat →
  ∃ k' bytes, (k ≤ k')%nat ∧ waiting have k'
    ∧ assemble_loop fuel (ordered_state have k u) = (bytes, (delivery sid ∘ messages) <$> seq k (k' - k), ordered_state have k' u).
Proof using Hmessages.
  revert k. induction fuel as [|fuel IH]; intros k Hk Hbelow Hfuel; [lia|]. cbn [assemble_loop].
  destruct (decide (k < total ∧ whole have k = true)%nat) as [[Hlt Hw]|Hno].
  - rewrite try_whole by done. pose proof (sent_size_pos _ (Hmessages k Hlt)). rewrite (proj2 (Z.eqb_neq _ _)) by lia.
    replace (total - k)%nat with (S (total - S k)) in Hfuel by lia. rewrite sparse_cons, entry_whole in Hfuel by done. cbn in Hfuel.
    destruct (IH (S k)) as (k' & bytes & Hle & Hwait & ->); [lia | | lia |].
    { intros i Hi. destruct (decide (i = k)) as [->|]; [done|]. apply Hbelow. lia. }
    exists k', (sent_size (messages k) + bytes). split_and!; [lia|done|]. do 2 f_equal.
    replace (k' - k)%nat with (S (k' - S k)) by lia. done.
  - assert (waiting have k) as Hwait.
    { split_and!; [done|done|]. destruct (decide (k = total)); [by left|right]. apply not_true_iff_false. intros ?. apply Hno. split; [lia|done]. }
    rewrite try_waiting by done. exists k, 0. split_and!; [done|done|]. by rewrite Nat.sub_diag.
Qed.

Lemma TryToAssembleMessages_delivers have k u :
  (k ≤ total)%nat → (∀ i, (i < k)%nat → whole have i = true) →
  ∃ k' bytes, (k ≤ k')%nat ∧ waiting have k'
    ∧ TryToAssembleMessages (ordered_state have k u) = (bytes, (delivery sid ∘ messages) <$> seq k (k' - k), ordered_state have k' u).
Proof using Hmessages. intros. apply loop_delivers; [done|done|]. cbn [chunks_by_ssn_ ordered_state]. lia. Qed.

Lemma chunks_of_ext have have' i : (∀ j, have i j = have' i j) → chunks_of have i = chunks_of have' i.
Proof. intros H. apply sparse_ext. intros j _. by rewrite H. Qed.

Lemma whole_ext have have' i : (∀ j, have i j = have' i j) → whole have i = whole have' i.
Proof. intros H. unfold whole, all_arrived. induction (seq _ _) as [|j l IH]; [done|]. cbn. by rewrite H, IH. Qed.

Lemma entry_ext have have' i : (∀ j, have i j = have' i j) → entry have i = entry have' i.
Proof. intros H. unfold entry. by rewrite (chunks_of_ext have have'). Qed.

Lemma whole_arrive i j have i' : whole have i' = true → whole (arrive i j have) i' = true.
Proof. unfold whole. rewrite !all_arrived_spec. intros H j' Hj'. unfold arrive. by rewrite H, orb_true_r. Qed.

(** A fragment joins the chunks of its message. *)
Lemma ordered_emplace have k u i j :
  (k ≤ i < total)%nat → (j < fragment_count (messages i))%nat → have i j = false →
  emplace_in (Z.of_nat i) (fragment_tsn (messages i) j) (fragment sid false i (messages i) j) (sparse 0 (entry have) k (total - k))
  = (true, sparse 0 (entry (arrive i j have)) k (total - k)).
Proof.
  intros Hi Hj Hh.
  pose proof (emplace_in_sparse 0 (sent_tsn (messages i)) (entry have)
    (λ j, if have i j then Some (fragment sid false i (messages i) j) else None) k (total - k) i j
    (fragment_count (messages i)) (fragment sid false i (messages i) j)) as He.
  rewrite Z.add_0_l in He. etransitivity; [apply He; [lia|done|done|by rewrite Hh]|]. clear He. f_equal. apply sparse_ext. intros i' Hi'.
  unfold put at 1. destruct (Nat.eqb_spec i' i) as [->|Hne]; [|apply entry_ext; intros j'; by rewrite arrive_other].
  unfold entry, chunks_of, arrived_chunks.
  match goal with |- Some ?x = _ => assert (x = sparse (sent_tsn (messages i)) (λ j', if arrive i j have i j' then Some (fragment sid false i (messages i) j') else None) 0 (fragment_count (messages i))) as -> end.
  { apply sparse_ext. intros j' Hj'. unfold put, arrive. rewrite Nat.eqb_refl. by destruct (Nat.eqb_spec j' j) as [->|]. }
  destruct (sparse _ _ _ _) eqn:E; [|done]. exfalso.
  rewrite (sparse_split _ _ _ _ j) in E by lia. apply app_eq_nil in E as [_ E]. unfold arrive in E. rewrite !Nat.eqb_refl in E. done.
Qed.
Lemma ordered_state_single have k j u :
  (k < total)%nat → fragment_count (messages k) = 1%nat → j = 0%nat → have k j = false →
  ordered_state have k u <| next_ssn_ ::= next_value |> = ordered_state (arrive k j have) (S k) u.
Proof.
  intros Hk Hc -> Hh. unfold ordered_state, set_field. cbn. unfold next_value. f_equal; [|lia].
  replace (total - k)%nat with (S (total - S k)) by lia. rewrite sparse_cons.
  unfold entry at 1, chunks_of, arrived_chunks. rewrite Hc, sparse_cons, Hh. cbn [app sparse omap list_omap seq].
  apply sparse_ext. intros i Hi. apply entry_ext. intros j. rewrite arrive_other by lia. done.
Qed.

Lemma waiting_arrive_above have k i j : (k < i)%nat → waiting have k → waiting (arrive i j have) k.
Proof.
  intros Hi (H1 & H2 & H3). split_and!; [done | intros i' Hi'; by apply whole_arrive, H2 |]. destruct H3 as [H3|H3]; [by left|right].
  rewrite <- H3. apply whole_ext. intros j'. by rewrite arrive_other by lia.
Qed.

(** One new fragment: what it makes whole is delivered, in order. *)
Lemma Ordered_Add_step have k u u' i j :
  waiting have k → (i < total)%nat → (j < fragment_count (messages i))%nat → have i j = false →
  Unwrap 16 0 (wrap 16 (Z.of_nat i)) u = (Z.of_nat i, u') →
  ∃ k' bytes, (k ≤ k')%nat ∧ waiting (arrive i j have) k'
    ∧ Ordered_Add (fragment_tsn (messages i) j) (fragment sid false i (messages i) j) (ordered_state have k u)
      = (bytes, (delivery sid ∘ messages) <$> seq k (k' - k), ordered_state (arrive i j have) k' u').
Proof using Hmessages.
  intros Hw Hi Hj Hh Hu. pose proof Hw as (Hk & Hbelow & _).
  assert (k ≤ i)%nat as Hki.
  { apply Nat.nlt_ge. intros Hlt. specialize (Hbelow i Hlt). unfold whole in Hbelow. rewrite all_arrived_spec in Hbelow. by rewrite Hbelow in Hh. }
  unfold Ordered_Add. cbn [ssn fragment]. change (ssn_unwrapper_ (ordered_state have k u)) with u. rewrite Hu. cbv zeta.
  change (ordered_state have k u <| ssn_unwrapper_ := u' |>) with (ordered_state have k u').
  change (next_ssn_ (ordered_state have k u')) with (Z.of_nat k). change (chunks_by_ssn_ (ordered_state have k u')) with (sparse 0 (entry have) k (total - k)).
  destruct (Z.eqb_spec (Z.of_nat i) (Z.of_nat k)) as [Hik|Hik].
  - assert (i = k) as -> by lia. unfold TryToAssembleMessagesFastpath. cbn [is_beginning is_end fragment].
    change (chunks_by_ssn_ (ordered_state have k u')) with (sparse 0 (entry have) k (total - k)).
    destruct ((j =? 0)%nat && (S j =? fragment_count (messages k))%nat) eqn:Eone.
    + apply andb_true_iff in Eone as [Ej%Nat.eqb_eq Ec%Nat.eqb_eq]. subst j. rewrite (ordered_state_single have k 0) by (done || lia).
      destruct (TryToAssembleMessages_delivers (arrive k 0 have) (S k) u') as (k' & bytes & Hle & Hw' & ->); [lia| |].
      { intros i Hi'. destruct (decide (i = k)) as [->|]; [|apply whole_arrive, Hbelow; lia]. unfold whole. rewrite all_arrived_spec.
        intros j' Hj'. assert (j' = 0%nat) as -> by lia. unfold arrive. by rewrite Nat.eqb_refl. }
      rewrite (surjective_pairing (AssembleMessage_one _ _)), assemble_single by done.
      exists k'. eexists. split_and!; [lia|done|]. f_equal. f_equal. replace (k' - k)%nat with (S (k' - S k)) by lia. done.
    + rewrite ordered_emplace by (done || lia). cbn [negb].
      destruct (TryToAssembleMessages_delivers (arrive k j have) k u') as (k' & bytes & Hle & Hw' & Hrun); [done|intros i' Hi'; by apply whole_arrive, Hbelow|].
      change (ordered_state have k u' <| chunks_by_ssn_ := sparse 0 (entry (arrive k j have)) k (total - k) |>) with (ordered_state (arrive k j have) k u').
      rewrite Hrun. exists k'. eexists. by split_and!.
  - rewrite ordered_emplace by (done || lia). cbn [negb]. exists k. eexists. split_and!; [done | apply waiting_arrive_above; [lia|done]|].
    by rewrite Nat.sub_diag.
Qed.
(** The fragments [(message, fragment)] arrive one after the other. *)
Fixpoint ordered_run (l : list (nat * nat)) (s : OrderedStream) : assembled * OrderedStream :=
  match l with
  | [] => ([], s)
  | (i, j) :: l' =>
    let '(_, out, s) := Ordered_Add (fragment_tsn (messages i) j) (fragment sid false i (messages i) j) s in
    let '(out', s) := ordered_run l' s in (out ++ out', s)
  end.
(** The number of a message is near that of the one before, so that 16 bits tell it. *)
Fixpoint near (last : Z) (l : list (nat * nat)) : Prop :=
  match l with [] => True | (i, _) :: l' => Z.abs (Z.of_nat i - last) < 2 ^ 15 ∧ near (Z.of_nat i) l' end.
Definition is_fragment (p : nat * nat) : Prop := (p.1 < total)%nat ∧ (p.2 < fragment_count (messages p.1))%nat.

Lemma ordered_run_spec l have k v :
  waiting have k → Forall is_fragment l → NoDup l → Forall (λ p, have p.1 p.2 = false) l → near v l →
  ∃ k' u', (k ≤ k')%nat ∧ waiting (arrive_all l have) k'
    ∧ ordered_run l (ordered_state have k (mkUnwrapper v (Some (wrap 16 v))))
      = ((delivery sid ∘ messages) <$> seq k (k' - k), ordered_state (arrive_all l have) k' u').
Proof using Hmessages.
  revert have k v. induction l as [|[i j] l IH]; intros have k v Hw Hf Hd Hn Hv; cbn [ordered_run].
  { exists k, (mkUnwrapper v (Some (wrap 16 v))). split_and!; [done|done|]. by rewrite Nat.sub_diag. }
  apply list.Forall_cons in Hf as [[Hi Hj] Hf]. apply list.Forall_cons in Hn as [Hh Hn]. apply list.NoDup_cons in Hd as [Hni Hd].
  destruct Hv as [Hv Hv']. cbn [fst snd] in *.
  destruct (Ordered_Add_step have k (mkUnwrapper v (Some (wrap 16 v))) (mkUnwrapper (Z.of_nat i) (Some (wrap 16 (Z.of_nat i)))) i j)
    as (k1 & bytes & Hk1 & Hw1 & ->); try done.
  { by apply unwrap_near. }
  destruct (IH (arrive i j have) k1 (Z.of_nat i)) as (k' & u' & Hk' & Hw' & ->); try done.
  { by apply arrive_fresh. }
  exists k', u'. split_and!; [lia|done|]. rewrite <- fmap_app. do 2 f_equal.
  replace (k' - k)%nat with ((k1 - k) + (k' - k1))%nat by lia. rewrite seq_app. do 2 f_equal. lia.
Qed.
End Ordered.

Lemma ordered_state_new sid messages total : OrderedStream_new 0 = ordered_state sid messages total (λ _ _, false) 0 (mkUnwrapper 0 (Some (wrap 16 0))).
Proof.
  unfold ordered_state. cbn. f_equal. rewrite Nat.sub_0_r.
  rewrite sparse_none; [done|]. intros i. unfold entry, chunks_of, arrived_chunks. by rewrite sparse_none.
Qed.

Lemma waiting_new messages total : (∀ i, (i < total)%nat → sent_ok (messages i)) → waiting messages total (λ _ _, false) 0.
Proof.
  intros Hm. split_and!; [lia|lia|]. destruct total as [|n]; [by left|right]. pose proof (count_pos _ (Hm 0%nat ltac:(lia))).
  unfold whole. apply not_true_iff_false. rewrite all_arrived_spec. intros H'. by specialize (H' 0%nat ltac:(lia)).
Qed.

Lemma forallb_false {A} (f : A → bool) l : forallb f l = false → ∃ a, In a l ∧ f a = false.
Proof.
  induction l as [|a l IH]; [done|]. cbn. destruct (f a) eqn:E; cbn; [|by intros _; exists a; auto].
  intros (b & Hb & Hf)%IH. exists b. auto.
Qed.

(** What a stream that waits for message [k] has and lacks. *)
Lemma waiting_facts messages total have k : waiting messages total have k →
  (k ≤ total)%nat
  ∧ (∀ i j, (i < k)%nat → (j < fragment_count (messages i))%nat → have i j = true)
  ∧ ((k < total)%nat → ∃ j, (j < fragment_count (messages k))%nat ∧ have k j = false).
Proof.
  intros (H1 & H2 & H3). split_and!; [done| |].
  - intros i j Hi Hj. specialize (H2 i Hi). unfold whole in H2. rewrite all_arrived_spec in H2. auto.
  - intros Hk. destruct H3 as [->|H3]; [lia|]. unfold whole, all_arrived in H3.
    apply forallb_false in H3 as (j & Hj & Hx). exists j. apply in_seq in Hj. split; [lia|done].
Qed.

(** The same, of the fragments [l] that have arrived. *)
Lemma waiting_lists messages total have k (l : list (nat * nat)) :
  waiting messages total have k → (∀ i j, have i j = true ↔ (i, j) ∈ l) →
  (k ≤ total)%nat
  ∧ (∀ i j, (i < k)%nat → (j < fragment_count (messages i))%nat → (i, j) ∈ l)
  ∧ ((k < total)%nat → ∃ j, (j < fragment_count (messages k))%nat ∧ (k, j) ∉ l).
Proof.
  intros Hw Hl. destruct (waiting_facts _ _ _ _ Hw) as (H1 & H2 & H3). split_and!; [done | intros i j Hi Hj; apply Hl; auto |].
  intros Hk. destruct (H3 Hk) as (j & Hj & Hx). exists j. split; [done|]. rewrite <- Hl. by rewrite Hx.
Qed.

(** Messages of an ordered stream are delivered in order and exactly once, each as soon as it
    and all before it have arrived: for any order in which fragments arrive, the messages
    handed on are those before the first one that still misses a fragment, each with its
    fragments put together. *)
Theorem ordered_delivery sid messages total l :
  (∀ i, (i < total)%nat → sent_ok (messages i)) →
  Forall (is_fragment messages total) l → NoDup l → near 0 l →
  ∃ k, (k ≤ total)%nat
    ∧ (ordered_run sid messages l (OrderedStream_new 0)).1 = (delivery sid ∘ messages) <$> seq 0 k
    ∧ (∀ i j, (i < k)%nat → (j < fragment_count (messages i))%nat → (i, j) ∈ l)
    ∧ ((k < total)%nat → ∃ j, (j < fragment_count (messages k))%nat ∧ (k, j) ∉ l).
Proof.
  intros Hm Hf Hd Hn. destruct (ordered_run_spec sid messages total Hm l (λ _ _, false) 0 0) as (k & u & _ & Hw & Hrun); try done.
  { by apply waiting_new. }
  { by apply Forall_true. }
  rewrite <- ordered_state_new, Nat.sub_0_r in Hrun. rewrite Hrun. destruct (waiting_lists _ _ _ _ l Hw) as (H1 & H2 & H3); [|by exists k].
  intros i j. rewrite arrive_all_spec. split; [by intros [?|?] | by left].
Qed.

Definition sample_messages (i : nat) : sent_message :=
  match i with
  | 0%nat => mkSent 10 51 [[1; 2]; [3]]
  | 1%nat => mkSent 14 51 [[4]]
  | _ => mkSent 20 53 [[5]; [6]; [7; 8]]
  end.

Lemma sample_messages_ok i : (i < 3)%nat → sent_ok (sample_messages i).
Proof.
  intros Hi. unfold sent_ok, fragment_count. destruct i as [|[|[|]]]; [| | |lia]; cbn; split_and!; try done; repeat constructor; done.
Qed.

Lemma ordered_delivery_witness :
  let l := [(1, 0); (2, 2); (0, 1); (0, 0); (2, 0)]%nat in
  ∃ k, (k ≤ 3)%nat
    ∧ (ordered_run 7 sample_messages l (OrderedStream_new 0)).1 = (delivery 7 ∘ sample_messages) <$> seq 0 k
    ∧ (∀ i j, (i < k)%nat → (j < fragment_count (sample_messages i))%nat → (i, j) ∈ l)
    ∧ ((k < 3)%nat → ∃ j, (j < fragment_count (sample_messages k))%nat ∧ (k, j) ∉ l).
Proof.
  apply (ordered_delivery 7 sample_messages 3).
  - exact sample_messages_ok.
  - repeat constructor; cbn; lia.
  - by apply (bool_decide_unpack _).
  - cbn. lia.
Defined.

(** *** A number that is too far ahead

    The window of the tracker is wider than the half of the stream sequence numbers: a chunk
    inside it may belong to a message more than [2 ^ 15] ahead, and its number is then taken
    for one in the past. *)

Fixpoint ordered_adds (l : list (Z * Data)) (s : OrderedStream) : assembled * OrderedStream :=
  match l with
  | [] => ([], s)
  | (tsn, data) :: l' =>
    let '(_, out, s) := Ordered_Add tsn data s in let '(out', s) := ordered_adds l' s in (out ++ out', s)
  end.
(** The first chunks that are kept belong to a message before the next one. *)
Definition blocked (s : OrderedStream) : Prop := match chunks_by_ssn_ s with (n, _) :: _ => n < next_ssn_ s | [] => False end.
Definition single (data : Data) : bool := is_beginning data && is_end data.

Lemma emplace_in_head {A} key k (v : A) m bound : match m with (n, _) :: _ => n < bound | [] => key < bound end →
  match (emplace_in key k v m).2 with (n, _) :: _ => n < bound | [] => False end.
Proof.
  intros H. unfold emplace_in, map_split. destruct m as [|[n c] m]; [done|]. cbn. destruct (Z.ltb_spec n key) as [Hlt|Hge].
  - destruct (lower_bound _ m) as [before from]. cbn. destruct from as [|[key' inner] from']; [done|]. destruct (key' =? key); [|done]. by destruct (emplace k v inner).
  - destruct (Z.eqb_spec n key) as [->|Hne]; [by destruct (emplace k v c)|]. cbn. lia.
Qed.
Lemma blocked_loop fuel s : blocked s → (assemble_loop (S fuel) s) = (0, [], s).
Proof.
  unfold blocked. intros H. cbn. unfold Ordered_TryToAssembleMessage. destruct (chunks_by_ssn_ s) as [|[n c] rest]; [done|].
  rewrite (proj2 (Z.eqb_neq n (next_ssn_ s))) by lia. done.
Qed.
Lemma blocked_Add tsn data s : blocked s → let '(_, out, s') := Ordered_Add tsn data s in
  blocked s' ∧ out = if single data && ((Unwrap 16 0 (ssn data) (ssn_unwrapper_ s)).1 =? next_ssn_ s) then (AssembleMessage_one tsn data).2 else [].
Proof.
  intros Hs. unfold Ordered_Add, single. destruct (Unwrap _ _ _ _) as [n u]. cbn [fst]. set (s1 := s <| ssn_unwrapper_ := u |>).
  assert (blocked s1) as Hs1 by done. change (next_ssn_ s1) with (next_ssn_ s). change (chunks_by_ssn_ s1) with (chunks_by_ssn_ s). destruct (Z.eqb_spec n (next_ssn_ s)) as [->|Hn].
  - rewrite andb_true_r. unfold TryToAssembleMessagesFastpath. change (next_ssn_ s1) with (next_ssn_ s). destruct (is_beginning data && is_end data).
    + cbn [AssembleMessage_one]. unfold TryToAssembleMessages. set (s2 := s1 <| next_ssn_ ::= next_value |>).
      assert (blocked s2) as Hs2. { unfold blocked in *. cbn. destruct (chunks_by_ssn_ s) as [|[]]; [done|]. unfold next_value in *. cbn in *. lia. }
      rewrite blocked_loop by done. by rewrite app_nil_r.
    + pose proof (emplace_in_head (next_ssn_ s) tsn data (chunks_by_ssn_ s1) (next_ssn_ s)) as Hh. destruct (emplace_in _ _ _ _) as [inserted chunks]. cbn in Hh.
      set (s2 := s1 <| chunks_by_ssn_ := chunks |>). assert (blocked s2) as Hs2. { apply Hh. unfold blocked in Hs. by destruct (chunks_by_ssn_ s) as [|[]]. }
      destruct inserted; cbn [negb]; [|done]. unfold TryToAssembleMessages. by rewrite blocked_loop.
  - rewrite andb_false_r. pose proof (emplace_in_head n tsn data (chunks_by_ssn_ s) (next_ssn_ s)) as Hh. destruct (emplace_in _ _ _ _) as [inserted chunks]. cbn in Hh.
    assert (blocked (s1 <| chunks_by_ssn_ := chunks |>)) as Hs2. { apply Hh. unfold blocked in Hs. by destruct (chunks_by_ssn_ s) as [|[]]. }
    by destruct inserted.
Qed.

(** A stream that is new gets a chunk of a message more than [2 ^ 15] ahead of its first.  From
    then on, whatever arrives, the messages of more than one fragment are never delivered:
    all that is delivered are chunks that are whole messages by themselves. *)
Theorem far_chunk_blocks tsn data l : 2 ^ 15 < ssn data < 2 ^ 16 →
  Forall (λ out, ∃ p, p ∈ l ∧ single p.2 = true ∧ out = ([p.1], mkMessage (stream_id p.2) (ppid p.2) (payload p.2)))
    (ordered_adds ((tsn, data) :: l) (OrderedStream_new 0)).1.
Proof.
  intros Hssn. cbn [ordered_adds]. unfold Ordered_Add at 1. unfold OrderedStream_new, Unwrap. cbn [last_value_ SeqNumUnwrapper_new last_unwrapped_ ssn_unwrapper_].
  rewrite Delta_cases by (unfold uint; lia). change (2 ^ (16 - 1)) with (2 ^ 15). rewrite (proj2 (Z.ltb_ge (2 ^ 15) (0 - ssn data))), (proj2 (Z.ltb_lt (2 ^ 15) (ssn data - 0))) by lia.
  cbn [next_ssn_ set_field OrderedStream_eta chunks_by_ssn_]. rewrite (proj2 (Z.eqb_neq _ 0)) by lia. cbn [emplace_in map_split lower_bound app negb].
  set (s := _ <| chunks_by_ssn_ := _ |>). assert (blocked s) as Hs by (unfold blocked; cbn; lia). clearbody s. clear Hssn.
  assert (Forall (λ out, ∃ p, p ∈ l ∧ single p.2 = true ∧ out = ([p.1], mkMessage (stream_id p.2) (ppid p.2) (payload p.2))) (ordered_adds l s).1) as H.
  { revert s Hs. induction l as [|[t d] l IH]; intros s Hs; [done|]. cbn [ordered_adds]. pose proof (blocked_Add t d s Hs) as Ha.
    destruct (Ordered_Add t d s) as [[bytes out] s']. destruct Ha as [Hb ->]. specialize (IH s' Hb). destruct (ordered_adds l s') as [out' s'']. cbn [fst] in *.
    apply Forall_app. split.
    - destruct (single d) eqn:Ew; [|done]. destruct (_ =? _); [|done]. cbn. constructor; [|done]. exists (t, d). split; [by left|done].
    - eapply Forall_impl; [exact IH|]. intros o (p & Hp & Hw & Ho). exists p. split; [by right|done]. }
  by destruct (ordered_adds l s) as [out s'].
Qed.

(** The two fragments of the first message, after a chunk of the 33001st. *)
Definition after_far : list (Z * Data) := [(10, fragment 7 false 0 (sample_messages 0) 0); (11, fragment 7 false 0 (sample_messages 0) 1)].
Lemma far_chunk_blocks_witness :
  (ordered_adds after_far (OrderedStream_new 0)).1 = [([10; 11], mkMessage 7 51 [1; 2; 3])]
  ∧ (ordered_adds ((33010, mkData 7 33000 0 0 51 [9] true true false) :: after_far) (OrderedStream_new 0)).1 = [].
Proof.
  split; [reflexivity|]. pose proof (far_chunk_blocks 33010 (mkData 7 33000 0 0 51 [9] true true false) after_far ltac:(cbn; lia)) as H.
  destruct (ordered_adds _ _).1 as [|out outs]; [reflexivity|]. exfalso. apply Forall_inv in H as (p & Hp & Hw & _).
  apply list_elem_of_In in Hp as [<-|[<-|[]]]; discriminate Hw.
Defined.

(** ** Delivery on an unordered stream *)

(** The loops of [FindBeginning] and [FindEnd], among the chunks of one message with other
    chunks [L] before and [R] after it. *)
Section Find.
  Context (sid : Z) (unordered : bool) (number : nat) (m : sent_message) (have : nat → bool).
  Context (L R : ChunkMap) (HL : Forall (λ p, p.1 < sent_tsn m) L)
    (HR : Forall (λ p, sent_tsn m + Z.of_nat (fragment_count m) ≤ p.1) R).
  Abbreviation frag := (fragment sid unordered number m).
  Abbreviation count := (fragment_count m).
  Abbreviation here := (λ j, if have j then Some (frag j) else None).
  Abbreviation chunk := (λ j, (fragment_tsn m j, frag j)).

Lemma next_fragment_tsn j : next_value (fragment_tsn m j) = fragment_tsn m (S j).
Proof. unfold next_value, fragment_tsn. lia. Qed.

Lemma map_split_message j : (j ≤ count)%nat →
  map_split (fragment_tsn m j) (L ++ arrived_chunks sid unordered number m have ++ R)
  = (L ++ sparse (sent_tsn m) here 0 j, sparse (sent_tsn m) here j (count - j) ++ R).
Proof using HL HR.
  intros Hj.
  assert (arrived_chunks sid unordered number m have = sparse (sent_tsn m) here 0 j ++ sparse (sent_tsn m) here j (count - j)) as ->.
  { rewrite <- (sparse_app _ _ 0). unfold arrived_chunks. f_equal. lia. }
  rewrite <- app_assoc, app_assoc. apply lower_bound_app.
  - apply Forall_app. split.
    + eapply Forall_impl; [exact HL|]. intros p Hp. unfold fragment_tsn. cbn in *. apply Z.ltb_lt. lia.
    + eapply Forall_impl; [apply sparse_keys|]. intros p (k & Hk & -> & _). unfold fragment_tsn. apply Z.ltb_lt. lia.
  - pose proof (sparse_keys (sent_tsn m) here j (count - j)) as Hk. unfold fragment_tsn. cbn [Nat.add].
    destruct (sparse _ _ _ _) as [|p r]; cbn [app].
    + destruct R as [|p r]; [done|]. apply list.Forall_cons in HR as [Hp _]. apply Z.ltb_ge. lia.
    + apply list.Forall_cons in Hk as [(k & Hk & -> & _) _]. apply Z.ltb_ge. lia.
Qed.

Lemma FindBeginning_message j : (j < count)%nat →
  FindBeginning (chunk j) (rev (L ++ sparse (sent_tsn m) here 0 j))
  = if forallb have (seq 0 j) then Some (rev L, chunk <$> seq 0 j) else None.
Proof using HL.
  rewrite rev_app_distr. induction j as [|j IH]; intros Hj; [by destruct (rev L)|].
  rewrite seq_S, forallb_app. cbn [Nat.add forallb]. 
  assert (sparse (sent_tsn m) here 0 (S j) = sparse (sent_tsn m) here 0 j ++ sparse (sent_tsn m) here j 1) as ->.
  { rewrite <- (sparse_app _ _ 0). f_equal. lia. }
  rewrite rev_app_distr, (sparse_cons (sent_tsn m) here j 0). destruct (have j) eqn:Hh; cbn [app rev sparse omap list_omap seq].
  - cbn [FindBeginning is_beginning fragment Nat.eqb snd fst]. fold (fragment_tsn m j).
    rewrite next_fragment_tsn, Z.eqb_refl, IH by lia.
    rewrite andb_true_r. destruct (forallb have (seq 0 j)); [|done]. cbn. by rewrite fmap_app.
  - rewrite andb_false_r. cbn [FindBeginning is_beginning fragment Nat.eqb snd fst].
    assert (Forall (λ p, p.1 < sent_tsn m + Z.of_nat j) (rev (sparse (sent_tsn m) here 0 j) ++ rev L)) as Hb.
    { apply Forall_app. split; apply Forall_rev.
      - eapply Forall_impl; [apply sparse_keys|]. intros p (k & Hk & -> & _). lia.
      - eapply Forall_impl; [exact HL|]. cbn. lia. }
    destruct (rev _ ++ rev L) as [|p l]; [done|]. apply list.Forall_cons in Hb as [Hb _].
    cbn. unfold next_value, fragment_tsn. by rewrite (proj2 (Z.eqb_neq _ _)) by lia.
Qed.

Lemma FindEnd_message n j : (j + S n = count)%nat →
  FindEnd (chunk j) (sparse (sent_tsn m) here (S j) n ++ R)
  = if forallb have (seq (S j) n) then Some (chunk <$> seq j (S n), R) else None.
Proof using HR.
  revert j. induction n as [|n IH]; intros j Hj.
  { clear HR. cbn [sparse omap list_omap seq app forallb fmap list_fmap].
    destruct R; cbn [FindEnd is_end fragment snd]; by rewrite (proj2 (Nat.eqb_eq (S j) count)) by lia. }
  rewrite sparse_cons. cbn [seq forallb]. destruct (have (S j)) eqn:Hh; cbn [app andb].
  - cbn [FindEnd is_end fragment snd fst]. replace (S j =? count)%nat with false by (symmetry; apply Nat.eqb_neq; lia).
    fold (fragment_tsn m (S j)). rewrite next_fragment_tsn, Z.eqb_refl, IH by lia. by destruct (forallb have _).
  - assert (Forall (λ p, sent_tsn m + Z.of_nat (S j) < p.1) (sparse (sent_tsn m) here (S (S j)) n ++ R)) as Hb.
    { apply Forall_app. split; [eapply Forall_impl; [apply sparse_keys|] | eapply Forall_impl; [exact HR|]].
      - intros p (k & Hk & -> & _). lia.
      - cbn. lia. }
    destruct (sparse _ _ _ _ ++ R) as [|p l]; cbn [FindEnd is_end fragment snd fst];
      (replace (S j =? count)%nat with false by (symmetry; apply Nat.eqb_neq; lia)); [done|].
    apply list.Forall_cons in Hb as [Hb _]. unfold next_value, fragment_tsn. by rewrite (proj2 (Z.eqb_neq p.1 _)) by lia.
Qed.
End Find.

Section TryMessage.
  Context (sid : Z) (unordered : bool) (number : nat) (m : sent_message) (Hm : sent_ok m) (have : nat → bool).
  Context (L R : ChunkMap) (HL : Forall (λ p, p.1 < sent_tsn m) L)
    (HR : Forall (λ p, sent_tsn m + Z.of_nat (fragment_count m) ≤ p.1) R).
  Abbreviation frag := (fragment sid unordered number m).
  Abbreviation count := (fragment_count m).
  Abbreviation chunks := (arrived_chunks sid unordered number m).

(** The attempt at any fragment of a message succeeds exactly when all have arrived. *)
Lemma try_message j : (j < count)%nat → have j = true →
  Unordered_TryToAssembleMessage (fragment_tsn m j) (mkUnordered (L ++ chunks have ++ R))
  = if all_arrived m have then (sent_size m, [delivery sid m], mkUnordered (L ++ R)) else (0, [], mkUnordered (L ++ chunks have ++ R)).
Proof using Hm HL HR.
  intros Hj Hh. unfold Unordered_TryToAssembleMessage. cbn [chunks_]. rewrite map_split_message by (done || lia).
  replace (count - j)%nat with (S (count - S j)) by lia. rewrite sparse_cons, Hh. cbn [app]. fold (fragment_tsn m j).
  rewrite FindBeginning_message by done. rewrite (FindEnd_message _ _ _ _ _ _ HR (count - S j) j) by lia.
  assert (all_arrived m have = forallb have (seq 0 j) && forallb have (seq (S j) (count - S j))) as Hall.
  { unfold all_arrived. replace count with (j + S (count - S j))%nat at 1 by lia. rewrite seq_app, forallb_app. cbn. by rewrite Hh. }
  destruct (all_arrived m have) eqn:Ew.
  - symmetry in Hall. apply andb_true_iff in Hall as [-> ->].
    assert (((λ j, (fragment_tsn m j, frag j)) <$> seq 0 j) ++ ((λ j, (fragment_tsn m j, frag j)) <$> seq j (S (count - S j))) = chunks have) as ->.
    { rewrite arrived_chunks_all by done. rewrite <- fmap_app, <- seq_app. do 2 f_equal. lia. }
    rewrite assemble_arrived by done. unfold set_field. cbn. by rewrite rev_involutive.
  - symmetry in Hall. apply andb_false_iff in Hall as [-> | H]; [done|]. by destruct (forallb have (seq 0 j)); rewrite ?H.
Qed.

Lemma emplace_message j : (j < count)%nat → have j = false →
  emplace (fragment_tsn m j) (frag j) (L ++ chunks have ++ R) = (true, L ++ chunks (λ k, (k =? j)%nat || have k) ++ R).
Proof using HL HR.
  intros Hj Hh. unfold emplace. rewrite map_split_message by (done || lia).
  replace (count - j)%nat with (S (count - S j)) by lia. rewrite sparse_cons, Hh. cbn [app].
  assert (chunks (λ k, (k =? j)%nat || have k)
    = sparse (sent_tsn m) (λ j, if have j then Some (frag j) else None) 0 j
      ++ (fragment_tsn m j, frag j) :: sparse (sent_tsn m) (λ j, if have j then Some (frag j) else None) (S j) (count - S j)) as ->.
  { unfold arrived_chunks. rewrite <- (sparse_ext _ (put j (frag j) (λ j, if have j then Some (frag j) else None))).
    - rewrite (sparse_put _ _ 0 count j) by lia. rewrite Nat.sub_0_r. do 3 f_equal.
    - intros k _. unfold put. by destruct (Nat.eqb_spec k j) as [->|]. }
  rewrite <- !app_assoc. cbn [app].
  assert (Forall (λ p, fragment_tsn m j < p.1) (sparse (sent_tsn m) (λ j, if have j then Some (frag j) else None) (S j) (count - S j) ++ R)) as Hb.
  { apply Forall_app. unfold fragment_tsn. split; [eapply Forall_impl; [apply sparse_keys|] | eapply Forall_impl; [exact HR|]].
    - intros p (k & Hk & -> & _). lia.
    - cbn. lia. }
  destruct (sparse _ _ (S j) _ ++ R) as [|[k d] l]; [done|]. apply list.Forall_cons in Hb as [Hb _]. cbn in Hb.
  by rewrite (proj2 (Z.eqb_neq _ _)) by lia.
Qed.
End TryMessage.

Section Unordered.
  Context (sid : Z) (messages : nat → sent_message) (total : nat).
  Context (Hmessages : ∀ i, (i < total)%nat → sent_ok (messages i)).
  (** The sender gives out TSNs in increasing order. *)
  Context (Hsorted : ∀ i i', (i < i' < total)%nat →
    sent_tsn (messages i) + Z.of_nat (fragment_count (messages i)) ≤ sent_tsn (messages i')).
  Implicit Types have : nat → nat → bool.

Definition pending have (i : nat) : ChunkMap :=
  if whole messages have i then [] else arrived_chunks sid true i (messages i) (have i).
Definition pending_all have (s n : nat) : ChunkMap := concat (pending have <$> seq s n).
Definition unordered_state have : UnorderedStream := mkUnordered (pending_all have 0 total).

Lemma pending_split have i : (i < total)%nat →
  pending_all have 0 total = pending_all have 0 i ++ pending have i ++ pending_all have (S i) (total - S i).
Proof using Type.
  intros Hi. unfold pending_all. replace total with (i + S (total - S i))%nat at 1 by lia. rewrite seq_app, fmap_app, concat_app. done.
Qed.

Lemma pending_keys have s n : Forall (λ p, ∃ i, (s ≤ i < s + n)%nat
  ∧ sent_tsn (messages i) ≤ p.1 < sent_tsn (messages i) + Z.of_nat (fragment_count (messages i))) (pending_all have s n).
Proof using Type.
  apply Forall_concat, Forall_fmap, Forall_forall. intros i Hi%elem_of_seq. unfold pending; cbn. destruct (whole _ _ _); [done|].
  eapply Forall_impl; [apply sparse_keys|]. intros p (j & Hj & -> & _). exists i. lia.
Qed.

Lemma pending_before have i : (i < total)%nat → Forall (λ p, p.1 < sent_tsn (messages i)) (pending_all have 0 i).
Proof using Hsorted. intros Hi. eapply Forall_impl; [apply pending_keys|]. intros p (k & Hk & Hp). cbn. specialize (Hsorted k i ltac:(lia)). lia. Qed.

Lemma pending_after have i : (i < total)%nat →
  Forall (λ p, sent_tsn (messages i) + Z.of_nat (fragment_count (messages i)) ≤ p.1) (pending_all have (S i) (total - S i)).
Proof using Hsorted. intros Hi. eapply Forall_impl; [apply pending_keys|]. intros p (k & Hk & Hp). cbn. specialize (Hsorted i k ltac:(lia)). lia. Qed.

Lemma pending_ext have have' s n : (∀ i, (s ≤ i < s + n)%nat → ∀ j, have i j = have' i j) → pending_all have s n = pending_all have' s n.
Proof using Type.
  intros H. unfold pending_all. f_equal. apply list_fmap_ext. intros k i [-> Hk]%lookup_seq. unfold pending.
  rewrite (whole_ext _ have have') by (intros j; apply H; lia). destruct (whole _ _ _); [done|]. apply sparse_ext. intros j _. by rewrite H by lia.
Qed.

(** One new fragment: its message is delivered when nothing of it is missing any more. *)
Lemma Unordered_Add_step have i j :
  (i < total)%nat → (j < fragment_count (messages i))%nat → have i j = false →
  ∃ bytes, Unordered_Add (fragment_tsn (messages i) j) (fragment sid true i (messages i) j) (unordered_state have)
    = (bytes, if whole messages (arrive i j have) i then [delivery sid (messages i)] else [], unordered_state (arrive i j have)).
Proof using Hmessages Hsorted.
  intros Hi Hj Hh. pose proof (pending_before have i Hi) as HL. pose proof (pending_after have i Hi) as HR.
  assert (whole messages have i = false) as Hno.
  { apply not_true_iff_false. unfold whole. rewrite all_arrived_spec. intros H. by rewrite H in Hh. }
  assert (unordered_state (arrive i j have) = mkUnordered (pending_all have 0 i ++ pending (arrive i j have) i ++ pending_all have (S i) (total - S i))) as Hst.
  { unfold unordered_state. rewrite (pending_split (arrive i j have) i Hi).
    do 2 f_equal; [|f_equal]; apply pending_ext; intros k Hk j'; by rewrite arrive_other by lia. }
  assert (unordered_state have = mkUnordered (pending_all have 0 i ++ arrived_chunks sid true i (messages i) (have i) ++ pending_all have (S i) (total - S i))) as Hst0.
  { unfold unordered_state. rewrite (pending_split have i Hi). unfold pending. by rewrite Hno. }
  assert (∀ k, arrive i j have i k = (k =? j)%nat || have i k) as Ha by (intros k; unfold arrive; by rewrite Nat.eqb_refl).
  rewrite Hst0, Hst. clear Hst Hst0. unfold Unordered_Add. cbn [is_beginning is_end fragment chunks_].
  destruct ((j =? 0)%nat && (S j =? fragment_count (messages i))%nat) eqn:Eone.
  - apply andb_true_iff in Eone as [Ej%Nat.eqb_eq Ec%Nat.eqb_eq]. subst j.
    assert (whole messages (arrive i 0 have) i = true) as Hw.
    { unfold whole. rewrite all_arrived_spec. intros k Hk. rewrite Ha. by replace k with 0%nat by lia. }
    unfold pending. rewrite Hw. exists 0. f_equal; [f_equal|].
    + by rewrite assemble_single.
    + unfold arrived_chunks. by rewrite <- Ec, sparse_cons, Hh.
  - rewrite emplace_message by done. cbn [negb].
    assert (all_arrived (messages i) (λ k, (k =? j)%nat || have i k) = whole messages (arrive i j have) i) as Hw.
    { unfold whole. apply eq_true_iff_eq. rewrite !all_arrived_spec. by setoid_rewrite Ha. }
    match goal with |- context [Unordered_TryToAssembleMessage _ ?s] => change s with
      (mkUnordered (pending_all have 0 i ++ arrived_chunks sid true i (messages i) (λ k, (k =? j)%nat || have i k) ++ pending_all have (S i) (total - S i))) end.
    rewrite try_message; [|by apply Hmessages|done|done|done|by rewrite Nat.eqb_refl]. rewrite Hw. unfold pending.
    destruct (whole messages (arrive i j have) i); [by eexists|]. eexists. do 4 f_equal.
    apply sparse_ext. intros k _. by rewrite Ha.
Qed.
Fixpoint unordered_run (l : list (nat * nat)) (s : UnorderedStream) : assembled * UnorderedStream :=
  match l with
  | [] => ([], s)
  | (i, j) :: l' =>
    let '(_, out, s) := Unordered_Add (fragment_tsn (messages i) j) (fragment sid true i (messages i) j) s in
    let '(out', s) := unordered_run l' s in (out ++ out', s)
  end.

Lemma whole_arrive_all l have i : whole messages have i = true → whole messages (arrive_all l have) i = true.
Proof using Type.
  unfold whole. rewrite !all_arrived_spec. intros H j Hj. apply arrive_all_spec. right. auto.
Qed.

Lemma unordered_run_spec l have :
  Forall (is_fragment messages total) l → NoDup l → Forall (λ p, have p.1 p.2 = false) l →
  ∃ ids, (unordered_run l (unordered_state have)).1 = (delivery sid ∘ messages) <$> ids ∧ NoDup ids
    ∧ ∀ i, i ∈ ids ↔ (i < total)%nat ∧ whole messages (arrive_all l have) i = true ∧ whole messages have i = false.
Proof using Hmessages Hsorted.
  revert have. induction l as [|[i j] l IH]; intros have Hf Hd Hn; cbn [unordered_run].
  { exists []. split_and!; [done|constructor|]. intros i. cbn. rewrite elem_of_nil. split; [done|]. intros (_ & -> & ?). done. }
  apply list.Forall_cons in Hf as [[Hi Hj] Hf]. apply list.Forall_cons in Hn as [Hh Hn]. apply list.NoDup_cons in Hd as [Hni Hd]. cbn [fst snd] in *.
  destruct (Unordered_Add_step have i j Hi Hj Hh) as [bytes ->]. destruct (IH (arrive i j have)) as (ids & Hout & Hids & Hiff); try done.
  { by apply arrive_fresh. }
  destruct (unordered_run l _) as [out s']. cbn [fst] in *. subst out.
  change (arrive_all ((i, j) :: l) have) with (arrive_all l (arrive i j have)).
  assert (whole messages have i = false) as Hno.
  { apply not_true_iff_false. unfold whole. rewrite all_arrived_spec. intros H. by rewrite H in Hh. }
  assert (∀ k, k ≠ i → whole messages (arrive i j have) k = whole messages have k) as Hother.
  { intros k Hk. apply whole_ext. intros j'. by rewrite arrive_other. }
  destruct (whole messages (arrive i j have) i) eqn:Ew.
  - exists (i :: ids). split_and!; [done| |].
    + constructor; [|done]. rewrite Hiff, Ew. by intros (_ & _ & ?).
    + intros k. rewrite elem_of_cons, Hiff. destruct (decide (k = i)) as [->|Hk]; [|rewrite Hother by done; tauto].
      rewrite (whole_arrive_all l _ i Ew). tauto.
  - exists ids. split_and!; [done|done|]. intros k. rewrite Hiff.
    destruct (decide (k = i)) as [->|Hk]; [rewrite Ew, Hno | rewrite Hother by done]; done.
Qed.
End Unordered.

(** C16: Each message of an unordered stream is delivered exactly once, with its fragments put
    together, as soon as all of them have arrived, in whatever order they do (the statement
    holds of every prefix of the arrivals). *)
Theorem unordered_delivery sid messages total l :
  (∀ i, (i < total)%nat → sent_ok (messages i)) →
  (∀ i i', (i < i' < total)%nat → sent_tsn (messages i) + Z.of_nat (fragment_count (messages i)) ≤ sent_tsn (messages i')) →
  Forall (is_fragment messages total) l → NoDup l →
  ∃ ids, (unordered_run sid messages l (mkUnordered [])).1 = (delivery sid ∘ messages) <$> ids ∧ NoDup ids
    ∧ ∀ i, i ∈ ids ↔ (i < total)%nat ∧ ∀ j, (j < fragment_count (messages i))%nat → (i, j) ∈ l.
Proof.
  intros Hm Hs Hf Hd. destruct (unordered_run_spec sid messages total Hm Hs l (λ _ _, false)) as (ids & Hout & Hids & Hiff); try done.
  { by apply Forall_true. }
  assert (∀ i, (i < total)%nat → whole messages (λ _ _, false) i = false) as Hnone.
  { intros i Hi. apply not_true_iff_false. unfold whole. rewrite all_arrived_spec. intros H. pose proof (count_pos _ (Hm i Hi)).
    by specialize (H 0%nat ltac:(lia)). }
  exists ids. split_and!; [|done|].
  - rewrite <- Hout. do 2 f_equal. unfold unordered_state. f_equal. symmetry. unfold pending_all.
    apply concat_nil_Forall, Forall_fmap, Forall_forall. intros i [_ Hi]%elem_of_seq. cbn. unfold pending. rewrite Hnone by done.
    by apply sparse_none.
  - intros i. rewrite Hiff. unfold whole at 1. rewrite all_arrived_spec. setoid_rewrite arrive_all_spec.
    split; [intros (H1 & H2 & _); split; [done|]; intros j Hj; by destruct (H2 j Hj)|].
    intros [H1 H2]. split_and!; [done | intros j Hj; left; auto | by apply Hnone].
Qed.

Lemma unordered_delivery_witness :
  let l := [(1, 0); (2, 2); (0, 1); (2, 0); (0, 0)]%nat in
  ∃ ids, (unordered_run 7 sample_messages l (mkUnordered [])).1 = (delivery 7 ∘ sample_messages) <$> ids ∧ NoDup ids
    ∧ ∀ i, i ∈ ids ↔ (i < 3)%nat ∧ ∀ j, (j < fragment_count (sample_messages i))%nat → (i, j) ∈ l.
Proof.
  apply (unordered_delivery 7 sample_messages 3).
  - exact sample_messages_ok.
  - intros i i' Hi. destruct i as [|[|[|]]], i' as [|[|[|]]]; cbn; lia.
  - repeat constructor; cbn; lia.
  - by apply (bool_decide_unpack _).
Defined.
