(* ===== verification/ReassemblyQueue.v ===== *)
(** * The receiving side of an SCTP association

    includes/webrtc/net/dcsctp/rx/reassembly_streams.h, interleaved_reassembly_streams.h, .cc,
    reassembly_queue.h, .cc, and what socket/dcsctp_socket.cc does with a DATA or FORWARD-TSN
    chunk: the data tracker decides whether it is new, the reassembly queue puts messages
    together.  The two kinds of streams are instances of one interface, and the queue's
    theorems are proved against it. *)

From S2P Require Import Prelude SeqNum SctpWire DataTracker Reassembly.
Open Scope Z_scope.

(** ** InterleavedReassemblyStreams *)

(** A [Stream]; its chunks are keyed by message and then by fragment number, with the TSN. *)
Record IStream := mkIStream {
  stream_unordered : bool;
  chunks_by_mid_ : cmap (cmap (Z * Data));
  mid_unwrapper_ : SeqNumUnwrapper;
  next_mid_ : Z
}.
#[export] Instance IStream_eta : Eta IStream := λ s, mkIStream (stream_unordered s) (chunks_by_mid_ s) (mid_unwrapper_ s) (next_mid_ s).

Definition IStream_new (unordered : bool) (next_mid : Z) : IStream :=
  let '(next, u) := Unwrap 32 0 next_mid SeqNumUnwrapper_new in mkIStream unordered [] u next.

(** Both ends are there and as many fragments as their numbers span. *)
Definition icomplete (chunks : cmap (Z * Data)) : bool :=
  match chunks, list.last chunks with
  | (first_fsn, (_, first_data)) :: _, Some (last_fsn, (_, last_data)) =>
    is_beginning first_data && is_end last_data && (last_fsn - first_fsn =? Z.of_nat (length chunks) - 1)
  | _, _ => false
  end.

(** The chunks with their TSNs, in the order of the fragments. *)
Definition by_fsn (chunks : cmap (Z * Data)) : ChunkMap := map snd chunks.

Fixpoint map_erase {A} (key : Z) (m : cmap A) : cmap A :=
  match m with [] => [] | (k, v) :: m' => if k =? key then m' else (k, v) :: map_erase key m' end.

Definition IStream_TryToAssembleMessage (mid : Z) (s : IStream) : Z * assembled * IStream :=
  match map_find mid (chunks_by_mid_ s) with
  | None => (0, [], s)
  | Some chunks =>
    if negb (icomplete chunks) then (0, [], s)
    else
      let '(bytes, out) := AssembleMessage (by_fsn chunks) in
      (bytes, out, s <| chunks_by_mid_ ::= map_erase mid |>)
  end.

Fixpoint iassemble_loop (fuel : nat) (s : IStream) : Z * assembled * IStream :=
  match fuel with
  | O => (0, [], s)
  | S fuel' =>
    let '(bytes, out, s) := IStream_TryToAssembleMessage (next_mid_ s) s in
    if bytes =? 0 then (0, out, s)
    else let '(bytes', out', s) := iassemble_loop fuel' (s <| next_mid_ ::= next_value |>) in (bytes + bytes', out ++ out', s)
  end.
Definition IStream_TryToAssembleMessages (s : IStream) : Z * assembled * IStream :=
  iassemble_loop (S (length (chunks_by_mid_ s))) s.

Definition imaps_size (m : cmap (cmap (Z * Data))) : Z := maps_size (map (λ p, (p.1, by_fsn p.2)) m).

Definition IStream_EraseTo (mid : Z) (s : IStream) : Z * assembled * IStream :=
  let '(unwrapped_mid, u) := Unwrap 32 0 mid (mid_unwrapper_ s) in
  let '(removed, kept) := erase_to unwrapped_mid (chunks_by_mid_ s) in
  let s := s <| mid_unwrapper_ := u |> <| chunks_by_mid_ := kept |> in
  if negb (stream_unordered s) then
    let s := if next_mid_ s <=? unwrapped_mid then s <| next_mid_ := next_value unwrapped_mid |> else s in
    let '(bytes, out, s) := IStream_TryToAssembleMessages s in
    (imaps_size removed + bytes, out, s)
  else (imaps_size removed, [], s).

Definition IStream_Add (tsn : Z) (data : Data) (s : IStream) : Z * assembled * IStream :=
  let '(unwrapped_mid, u) := Unwrap 32 0 (mid data) (mid_unwrapper_ s) in
  let s := s <| mid_unwrapper_ := u |> in
  if stream_unordered s && is_beginning data && is_end data then (0, (AssembleMessage_one tsn data).2, s)
  else if negb (stream_unordered s) && (unwrapped_mid =? next_mid_ s) && is_beginning data && is_end data then
    let out := (AssembleMessage_one tsn data).2 in
    let '(bytes, out', s) := IStream_TryToAssembleMessages (s <| next_mid_ ::= next_value |>) in
    (- bytes, out ++ out', s)
  else
    let '(inserted, chunks) := emplace_in unwrapped_mid (fsn data) (tsn, data) (chunks_by_mid_ s) in
    let s := s <| chunks_by_mid_ := chunks |> in
    if negb inserted then (0, [], s)
    else if stream_unordered s then
      let '(bytes, out, s) := IStream_TryToAssembleMessage unwrapped_mid s in (data_size data - bytes, out, s)
    else if unwrapped_mid =? next_mid_ s then
      let '(bytes, out, s) := IStream_TryToAssembleMessages s in (data_size data - bytes, out, s)
    else (data_size data, [], s).

Definition IStream_Reset (s : IStream) : IStream :=
  let '(next, u) := Unwrap 32 0 0 (Unwrapper_Reset (mid_unwrapper_ s)) in s <| mid_unwrapper_ := u |> <| next_mid_ := next |>.

(** [FullStreamId]s are ordered by the flag first: the map is the ordered streams and then
    the unordered ones. *)
Record InterleavedStreams := mkInterleaved { iordered_ : cmap IStream; iunordered_ : cmap IStream }.
#[export] Instance InterleavedStreams_eta : Eta InterleavedStreams := λ t, mkInterleaved (iordered_ t) (iunordered_ t).
Definition InterleavedStreams_new : InterleavedStreams := mkInterleaved [] [].

(** [GetOrCreateStream] and an operation on the stream. *)
Definition with_stream {B} (unordered : bool) (id : Z) (f : IStream → B * IStream) (t : InterleavedStreams) : B * InterleavedStreams :=
  if unordered
  then let '(b, m) := map_update id (IStream_new true 0) f (iunordered_ t) in (b, t <| iunordered_ := m |>)
  else let '(b, m) := map_update id (IStream_new false 0) f (iordered_ t) in (b, t <| iordered_ := m |>).

Definition Interleaved_Add (tsn : Z) (data : Data) (t : InterleavedStreams) : Z * assembled * InterleavedStreams :=
  with_stream (is_unordered data) (stream_id data) (IStream_Add tsn data) t.

Fixpoint Interleaved_HandleForwardTsn (tsn : Z) (skipped : list SkippedStream) (t : InterleavedStreams) : Z * assembled * InterleavedStreams :=
  match skipped with
  | [] => (0, [], t)
  | sk :: skipped' =>
    let '(bytes, out, t) := with_stream (skipped_unordered sk) (skipped_stream_id sk) (IStream_EraseTo (skipped_mid sk)) t in
    let '(bytes', out', t) := Interleaved_HandleForwardTsn tsn skipped' t in (bytes + bytes', out ++ out', t)
  end.

Definition reset_both (t : InterleavedStreams) (id : Z) : InterleavedStreams :=
  (with_stream false id (λ s, ((), IStream_Reset s)) (with_stream true id (λ s, ((), IStream_Reset s)) t).2).2.
Definition Interleaved_ResetStreams (stream_ids : list Z) (t : InterleavedStreams) : InterleavedStreams :=
  match stream_ids with
  | [] => mkInterleaved (map (λ p, (p.1, IStream_Reset p.2)) (iordered_ t)) (map (λ p, (p.1, IStream_Reset p.2)) (iunordered_ t))
  | _ => fold_left reset_both stream_ids t
  end.

(** The first stream that holds chunks decides. *)
Definition Interleaved_GetHandoverReadiness (t : InterleavedStreams) : Z :=
  if existsb (λ p, negb (bool_decide (chunks_by_mid_ p.2 = []))) (iordered_ t) then kOrderedStreamHasUnassembledChunks
  else if existsb (λ p, negb (bool_decide (chunks_by_mid_ p.2 = []))) (iunordered_ t) then kUnorderedStreamHasUnassembledChunks else 0.
Definition Interleaved_AddHandoverState (t : InterleavedStreams) : RxStreams :=
  mkRxStreams (map (λ p, (p.1, Wrap 32 (next_mid_ p.2))) (iordered_ t)) (map fst (iunordered_ t)).
Definition Interleaved_RestoreFromState (state : RxStreams) (t : InterleavedStreams) : InterleavedStreams :=
  mkInterleaved
    (fold_left (λ m p, (emplace p.1 (IStream_new false p.2) m).2) (ho_ordered_streams state) (iordered_ t))
    (fold_left (λ m id, (emplace id (IStream_new true 0) m).2) (ho_unordered_streams state) (iunordered_ t)).

(** ** ReassemblyStreams

    The interface the queue uses, with the handover apart.  [held] is the number of payload
    bytes the streams hold; every operation returns by how much it changes. *)
Class ReassemblyStreams (S : Type) := {
  rs_Add : Z → Data → S → Z * assembled * S;
  rs_HandleForwardTsn : Z → list SkippedStream → S → Z * assembled * S;
  rs_ResetStreams : list Z → S → S;
  rs_GetHandoverReadiness : S → Z;
  rs_AddHandoverState : S → RxStreams;
  rs_RestoreFromState : RxStreams → S → S
}.
#[export] Instance Traditional : ReassemblyStreams TraditionalStreams := {
  rs_Add := Traditional_Add; rs_HandleForwardTsn := Traditional_HandleForwardTsn; rs_ResetStreams := Traditional_ResetStreams;
  rs_GetHandoverReadiness := Traditional_GetHandoverReadiness; rs_AddHandoverState := Traditional_AddHandoverState;
  rs_RestoreFromState := Traditional_RestoreFromState
}.
#[export] Instance Interleaved : ReassemblyStreams InterleavedStreams := {
  rs_Add := Interleaved_Add; rs_HandleForwardTsn := Interleaved_HandleForwardTsn; rs_ResetStreams := Interleaved_ResetStreams;
  rs_GetHandoverReadiness := Interleaved_GetHandoverReadiness; rs_AddHandoverState := Interleaved_AddHandoverState;
  rs_RestoreFromState := Interleaved_RestoreFromState
}.
Class ReassemblyLaws (S : Type) `{ReassemblyStreams S} := {
  held : S → Z;
  rs_Add_held tsn data s : held (rs_Add tsn data s).2 = held s + (rs_Add tsn data s).1.1;
  rs_Forward_held tsn skipped s : held (rs_HandleForwardTsn tsn skipped s).2 = held s - (rs_HandleForwardTsn tsn skipped s).1.1;
  rs_Reset_held ids s : held (rs_ResetStreams ids s) = held s;
  held_nonneg s : 0 ≤ held s
}.

(** ** ReassemblyQueue *)

(** An action that waits for the end of the deferred reset. *)
Inductive deferred_action :=
  | defer_add (tsn : Z) (data : Data)
  | defer_forward (tsn : Z) (skipped : list SkippedStream).
Record DeferredResetStreams := mkDeferred {
  sender_last_assigned_tsn : Z;
  deferred_streams : list Z;
  deferred_actions : list deferred_action
}.
#[export] Instance DeferredResetStreams_eta : Eta DeferredResetStreams := λ d,
  mkDeferred (sender_last_assigned_tsn d) (deferred_streams d) (deferred_actions d).

Record ReassemblyQueue (S : Type) := mkQueue {
  max_size_bytes_ : Z;
  watermark_bytes_ : Z;
  queue_tsn_unwrapper_ : SeqNumUnwrapper;
  reassembled_messages_ : list DcSctpMessage;
  deferred_reset_streams_ : option DeferredResetStreams;
  queued_bytes_ : Z;
  streams_ : S
}.
Arguments mkQueue {S}.
Arguments max_size_bytes_ {S}.
Arguments watermark_bytes_ {S}.
Arguments queue_tsn_unwrapper_ {S}.
Arguments reassembled_messages_ {S}.
Arguments deferred_reset_streams_ {S}.
Arguments queued_bytes_ {S}.
Arguments streams_ {S}.
#[export] Instance ReassemblyQueue_eta S : Eta (ReassemblyQueue S) := λ q,
  mkQueue (max_size_bytes_ q) (watermark_bytes_ q) (queue_tsn_unwrapper_ q) (reassembled_messages_ q) (deferred_reset_streams_ q)
    (queued_bytes_ q) (streams_ q).

(** The watermark is nine tenths of the size, computed in [float]. *)
Definition Queue_new {S} (max_size_bytes watermark_bytes : Z) (streams : S) : ReassemblyQueue S :=
  mkQueue max_size_bytes watermark_bytes SeqNumUnwrapper_new [] None 0 streams.

Section Queue.
  Context {S : Type} `{ReassemblyStreams S}.
  Implicit Types q : ReassemblyQueue S.

(** [queued_bytes_] is a [size_t] that signed numbers are added to. *)
Definition add_queued (bytes : Z) q : ReassemblyQueue S := q <| queued_bytes_ ::= (λ b, wrap 64 (b + bytes)) |>.
Definition AddReassembledMessages (out : assembled) q : ReassemblyQueue S := q <| reassembled_messages_ ::= (λ l, l ++ map snd out) |>.

Definition Queue_Add (tsn : Z) (data : Data) q : ReassemblyQueue S :=
  let '(unwrapped_tsn, u) := Unwrap 32 0 tsn (queue_tsn_unwrapper_ q) in
  let q := q <| queue_tsn_unwrapper_ := u |> in
  match deferred_reset_streams_ q with
  | Some d =>
    if (sender_last_assigned_tsn d <? unwrapped_tsn) && bool_decide (stream_id data ∈ deferred_streams d)
    then add_queued (data_size data) q
           <| deferred_reset_streams_ := Some (d <| deferred_actions ::= (λ l, l ++ [defer_add tsn data]) |>) |>
    else let '(bytes, out, streams) := rs_Add unwrapped_tsn data (streams_ q) in
         add_queued bytes (AddReassembledMessages out (q <| streams_ := streams |>))
  | None => let '(bytes, out, streams) := rs_Add unwrapped_tsn data (streams_ q) in
            add_queued bytes (AddReassembledMessages out (q <| streams_ := streams |>))
  end.

Definition Queue_HandleForwardTsn (new_cumulative_tsn : Z) (skipped : list SkippedStream) q : ReassemblyQueue S :=
  let '(tsn, u) := Unwrap 32 0 new_cumulative_tsn (queue_tsn_unwrapper_ q) in
  let q := q <| queue_tsn_unwrapper_ := u |> in
  let perform :=
    let '(bytes, out, streams) := rs_HandleForwardTsn tsn skipped (streams_ q) in
    add_queued (- bytes) (AddReassembledMessages out (q <| streams_ := streams |>)) in
  match deferred_reset_streams_ q with
  | Some d =>
    if sender_last_assigned_tsn d <? tsn
    then q <| deferred_reset_streams_ := Some (d <| deferred_actions ::= (λ l, l ++ [defer_forward new_cumulative_tsn skipped]) |>) |>
    else perform
  | None => perform
  end.

Definition run_action q (a : deferred_action) : ReassemblyQueue S :=
  match a with
  | defer_add tsn data => Queue_Add tsn data (add_queued (- data_size data) q)
  | defer_forward tsn skipped => Queue_HandleForwardTsn tsn skipped q
  end.

Definition ResetStreamsAndLeaveDeferredReset (stream_ids : list Z) q : ReassemblyQueue S :=
  let q := q <| streams_ ::= rs_ResetStreams stream_ids |> in
  match deferred_reset_streams_ q with
  | Some d => fold_left run_action (deferred_actions d) (q <| deferred_reset_streams_ := None |>)
  | None => q
  end.

Definition EnterDeferredReset (sender_last_assigned_tsn : Z) (stream_ids : list Z) q : ReassemblyQueue S :=
  match deferred_reset_streams_ q with
  | Some _ => q
  | None =>
    let '(tsn, u) := Unwrap 32 0 sender_last_assigned_tsn (queue_tsn_unwrapper_ q) in
    q <| queue_tsn_unwrapper_ := u |> <| deferred_reset_streams_ := Some (mkDeferred tsn stream_ids []) |>
  end.

Definition FlushMessages q : list DcSctpMessage * ReassemblyQueue S := (reassembled_messages_ q, q <| reassembled_messages_ := [] |>).
Definition HasMessages q : bool := negb (bool_decide (reassembled_messages_ q = [])).
Definition IsConsistent q : bool := queued_bytes_ q <=? wrap 64 (2 * max_size_bytes_ q).
Definition remaining_bytes q : Z := wrap 64 (watermark_bytes_ q - queued_bytes_ q).
Definition is_full q : bool := max_size_bytes_ q <=? queued_bytes_ q.
Definition is_above_watermark q : bool := watermark_bytes_ q <=? queued_bytes_ q.

Definition kStreamResetDeferred : Z := 64.
Definition Queue_GetHandoverReadiness q : Z :=
  let status := rs_GetHandoverReadiness (streams_ q) in
  match deferred_reset_streams_ q with Some _ => Z.lor status kStreamResetDeferred | None => status end.
Definition Queue_AddHandoverState q : RxStreams := rs_AddHandoverState (streams_ q).
Definition Queue_RestoreFromState (state : RxStreams) q : ReassemblyQueue S := q <| streams_ ::= rs_RestoreFromState state |>.
End Queue.

(** ** The socket: DATA and FORWARD-TSN chunks *)

Record Receiver (S : Type) := mkReceiver { data_tracker_ : DataTracker; reassembly_queue_ : ReassemblyQueue S }.
Arguments mkReceiver {S}.
Arguments data_tracker_ {S}.
Arguments reassembly_queue_ {S}.
#[export] Instance Receiver_eta S : Eta (Receiver S) := λ r, mkReceiver (data_tracker_ r) (reassembly_queue_ r).

(** What the socket does beside changing its state. *)
Inductive reaction :=
  | no_reaction
  | send_no_user_data (tsn : Z)
  | close_exhausted
  | protocol_violation
  | OnMessagesReceived (messages : list DcSctpMessage).

Section Receiver.
  Context {S : Type} `{ReassemblyStreams S}.
  Implicit Types r : Receiver S.

Definition MaybeDeliverMessages r : reaction * Receiver S :=
  let '(messages, q) := FlushMessages (reassembly_queue_ r) in (OnMessagesReceived messages, r <| reassembly_queue_ := q |>).

Definition HandleDataCommon (chunk : AnyDataChunk) r : reaction * Receiver S :=
  let tsn := tsn_ chunk in
  let data := data_ chunk in
  if bool_decide (payload data = []) then (send_no_user_data tsn, r)
  else if is_full (reassembly_queue_ r) then (close_exhausted, r)
  else if is_above_watermark (reassembly_queue_ r) && negb (will_increase_cum_ack_tsn tsn (data_tracker_ r))
  then (no_reaction, r <| data_tracker_ ::= ForceImmediateSack |>)
  else if negb (IsTSNValid tsn (data_tracker_ r)) then (no_reaction, r)
  else
    let '(is_new, tracker) := Observe tsn (immediate_ack_ chunk) (data_tracker_ r) in
    let r := r <| data_tracker_ := tracker |> in
    if is_new then MaybeDeliverMessages (r <| reassembly_queue_ ::= Queue_Add tsn data |>) else (no_reaction, r).

Definition HandleForwardTsnCommon (partial_reliability : bool) (chunk : AnyForwardTsnChunk) r : reaction * Receiver S :=
  if negb partial_reliability then (protocol_violation, r)
  else
    let '(effect, tracker) := HandleForwardTsn (new_cumulative_tsn_ chunk) (data_tracker_ r) in
    let r := r <| data_tracker_ := tracker |> in
    let r := if effect then r <| reassembly_queue_ ::= Queue_HandleForwardTsn (new_cumulative_tsn_ chunk) (skipped_streams_ chunk) |> else r in
    MaybeDeliverMessages r.

(** [MaybeSendSack]: the acknowledgement announces the room left below the watermark. *)
Definition MaybeSendSack r : option SackChunk * Receiver S :=
  let '(send, tracker) := ShouldSendAck false (data_tracker_ r) in
  let r := r <| data_tracker_ := tracker |> in
  if send then
    let '(sack, tracker) := CreateSelectiveAck (remaining_bytes (reassembly_queue_ r)) (data_tracker_ r) in
    (Some sack, r <| data_tracker_ := tracker |>)
  else (None, r).
End Receiver.

(** ** Bytes held *)

Lemma lower_bound_concat {A} (less : A → bool) l : (lower_bound less l).1 ++ (lower_bound less l).2 = l.
Proof. pose proof (lower_bound_split less l) as Hl. destruct (lower_bound less l). by destruct Hl as [-> _]. Qed.

Lemma map_size_app m m' : map_size (m ++ m') = map_size m + map_size m'.
Proof. unfold map_size. induction m as [|p m IH]; [done|]. cbn. rewrite IH. lia. Qed.
Lemma map_size_cons p m : map_size (p :: m) = data_size p.2 + map_size m.
Proof. done. Qed.
Lemma maps_size_app m m' : maps_size (m ++ m') = maps_size m + maps_size m'.
Proof. unfold maps_size. induction m as [|p m IH]; [done|]. cbn. rewrite IH. lia. Qed.
Lemma maps_size_cons p m : maps_size (p :: m) = map_size p.2 + maps_size m.
Proof. done. Qed.
Lemma map_size_nonneg m : 0 ≤ map_size m.
Proof. unfold map_size. induction m as [|p m IH]; cbn; [lia|]. pose proof (Nat2Z.is_nonneg (length (payload p.2))). unfold data_size at 1. lia. Qed.
Lemma maps_size_nonneg m : 0 ≤ maps_size m.
Proof. unfold maps_size. induction m as [|p m IH]; cbn; [lia|]. pose proof (map_size_nonneg p.2). lia. Qed.

#[local] Arguments map_size : simpl never.
#[local] Arguments maps_size : simpl never.

Ltac sizes :=
  repeat first [rewrite maps_size_app | rewrite maps_size_cons | rewrite map_size_app | rewrite map_size_cons | progress cbn [fst snd negb]];
  change (map_size []) with 0; change (maps_size []) with 0; try lia.

(** The sum of a measure over the values of a map. *)
Definition sum_of {A} (g : A → Z) (m : cmap A) : Z := fold_right (λ p s, g p.2 + s) 0 m.

Lemma sum_of_app {A} (g : A → Z) m m' : sum_of g (m ++ m') = sum_of g m + sum_of g m'.
Proof. unfold sum_of. induction m as [|p m IH]; [done|]. cbn. rewrite IH. lia. Qed.
Lemma sum_of_cons {A} (g : A → Z) p m : sum_of g (p :: m) = g p.2 + sum_of g m.
Proof. done. Qed.
#[local] Arguments sum_of : simpl never.

Lemma emplace_sum {A} (g : A → Z) key v m : sum_of g (emplace key v m).2 = sum_of g m + (if (emplace key v m).1 then g v else 0).
Proof.
  unfold emplace. pose proof (lower_bound_concat (λ p, p.1 <? key) m) as Hm. unfold map_split. destruct (lower_bound _ m) as [before from]. cbn in Hm.
  subst m. destruct from as [|[k w] from]; cbn [fst snd]; [|destruct (k =? key); cbn [fst snd]];
    rewrite ?sum_of_app, ?sum_of_cons; cbn [snd]; change (sum_of g []) with 0; lia.
Qed.

Lemma emplace_in_sum {A} (g : A → Z) key k v m :
  sum_of (sum_of g) (emplace_in key k v m).2 = sum_of (sum_of g) m + (if (emplace_in key k v m).1 then g v else 0).
Proof.
  unfold emplace_in. pose proof (lower_bound_concat (λ p, p.1 <? key) m) as Hm. unfold map_split. destruct (lower_bound _ m) as [before from]. cbn in Hm.
  subst m. destruct from as [|[k' inner] from]; cbn [fst snd];
    [rewrite !sum_of_app, !sum_of_cons; cbn [snd]; rewrite sum_of_cons; change (sum_of (sum_of g) []) with 0; change (sum_of g []) with 0; cbn [snd]; lia|].
  destruct (k' =? key); cbn [fst snd].
  - pose proof (emplace_sum g k v inner) as Hv. destruct (emplace k v inner) as [b inner']. cbn [fst snd] in *. rewrite !sum_of_app, !sum_of_cons. cbn [snd]. lia.
  - rewrite !sum_of_app, !sum_of_cons. cbn [snd]. rewrite sum_of_cons. cbn [snd]. change (sum_of g []) with 0. lia.
Qed.

Lemma emplace_size tsn d m : map_size (emplace tsn d m).2 = map_size m + (if (emplace tsn d m).1 then data_size d else 0).
Proof. exact (emplace_sum data_size tsn d m). Qed.
Lemma emplace_in_size key tsn d m :
  maps_size (emplace_in key tsn d m).2 = maps_size m + (if (emplace_in key tsn d m).1 then data_size d else 0).
Proof. exact (emplace_in_sum data_size key tsn d m). Qed.

Lemma AssembleMessage_bytes chunks : (AssembleMessage chunks).1 = map_size chunks.
Proof. destruct chunks as [|[t d] [|p l]]; [done| |done]. cbn. sizes. Qed.

Lemma FindBeginning_concat iter before rest message :
  FindBeginning iter before = Some (rest, message) → rev before = rev rest ++ message.
Proof.
  revert iter rest message. induction before as [|p before IH]; intros iter rest message; cbn; (destruct (is_beginning iter.2); [intros [= <- <-]; by rewrite app_nil_r|]);
    [done|].
  destruct (_ =? _); [|done]. destruct (FindBeginning p before) as [[rest' message']|] eqn:E; [|done]. intros [= <- <-].
  cbn. by rewrite (IH _ _ _ E), app_assoc.
Qed.

Lemma FindEnd_concat iter after message rest : FindEnd iter after = Some (message, rest) → iter :: after = message ++ rest.
Proof.
  revert iter message rest. induction after as [|p after IH]; intros iter message rest; cbn; (destruct (is_end iter.2); [by intros [= <- <-]|]); [done|].
  destruct (_ =? _); [|done]. destruct (FindEnd p after) as [[message' rest']|] eqn:E; [|done]. intros [= <- <-]. cbn. by rewrite (IH _ _ _ E).
Qed.

Lemma Unordered_Try_size tsn s :
  map_size (chunks_ (Unordered_TryToAssembleMessage tsn s).2) = map_size (chunks_ s) - (Unordered_TryToAssembleMessage tsn s).1.1.
Proof.
  unfold Unordered_TryToAssembleMessage. pose proof (lower_bound_concat (λ p, p.1 <? tsn) (chunks_ s)) as Hm. unfold map_split.
  destruct (lower_bound _ _) as [before from]. cbn in Hm. destruct from as [|iter after]; [cbn; lia|].
  destruct (FindBeginning iter (rev before)) as [[rest message]|] eqn:Eb; [|cbn; lia]. destruct (FindEnd iter after) as [[message' rest']|] eqn:Ee; [|cbn; lia].
  apply FindBeginning_concat in Eb. rewrite rev_involutive in Eb. apply FindEnd_concat in Ee. pose proof (AssembleMessage_bytes (message ++ message')) as Hb.
  destruct (AssembleMessage _) as [bytes out]. cbn in *. subst bytes before. rewrite <- Hm, Ee. rewrite !map_size_app. lia.
Qed.

Lemma Unordered_Add_size tsn d s :
  map_size (chunks_ (Unordered_Add tsn d s).2) = map_size (chunks_ s) + (Unordered_Add tsn d s).1.1.
Proof.
  unfold Unordered_Add. destruct (_ && _); [cbn; lia|]. pose proof (emplace_size tsn d (chunks_ s)) as He.
  destruct (emplace tsn d (chunks_ s)) as [[] chunks]; cbn [negb fst snd] in *; [|lia].
  pose proof (Unordered_Try_size tsn (s <| chunks_ := chunks |>)) as Ht. destruct (Unordered_TryToAssembleMessage _ _) as [[bytes out] s']. cbn in *. lia.
Qed.

Lemma Unordered_EraseTo_size tsn s :
  map_size (chunks_ (Unordered_EraseTo tsn s).2) = map_size (chunks_ s) - (Unordered_EraseTo tsn s).1.
Proof.
  unfold Unordered_EraseTo, erase_to. pose proof (lower_bound_concat (λ p, p.1 <=? tsn) (chunks_ s)) as Hm. destruct (lower_bound _ _) as [removed kept].
  cbn in *. rewrite <- Hm, map_size_app. lia.
Qed.

Definition ordered_size (s : OrderedStream) : Z := maps_size (chunks_by_ssn_ s).

Lemma Ordered_Try_size s : ordered_size (Ordered_TryToAssembleMessage s).2 = ordered_size s - (Ordered_TryToAssembleMessage s).1.1.
Proof.
  unfold Ordered_TryToAssembleMessage, ordered_size. destruct (chunks_by_ssn_ s) as [|[n chunks] rest] eqn:E; [cbn; rewrite E; sizes|].
  destruct (negb _); [cbn; rewrite E; sizes|]. destruct (negb _); [cbn; rewrite E; sizes|].
  pose proof (AssembleMessage_bytes chunks) as Hb. destruct (AssembleMessage chunks) as [bytes out]. cbn in *. subst. sizes.
Qed.

Lemma assemble_loop_size fuel s : ordered_size (assemble_loop fuel s).2 = ordered_size s - (assemble_loop fuel s).1.1.
Proof.
  revert s. induction fuel as [|fuel IH]; intros s; cbn [assemble_loop]; [cbn; lia|]. pose proof (Ordered_Try_size s) as Ht.
  destruct (Ordered_TryToAssembleMessage s) as [[bytes out] s1]. cbn in Ht. destruct (Z.eqb_spec bytes 0); [cbn; lia|].
  specialize (IH s1). destruct (assemble_loop fuel s1) as [[bytes' out'] s2]. cbn in *. lia.
Qed.

Lemma Fastpath_size n tsn d s :
  ordered_size (TryToAssembleMessagesFastpath n tsn d s).2 = ordered_size s + data_size d - (TryToAssembleMessagesFastpath n tsn d s).1.1.
Proof.
  unfold TryToAssembleMessagesFastpath. destruct (_ && _).
  - pose proof (assemble_loop_size (S (length (chunks_by_ssn_ s))) (s <| next_ssn_ ::= next_value |>)) as Hl.
    unfold TryToAssembleMessages. cbn [AssembleMessage_one]. change (chunks_by_ssn_ (s <| next_ssn_ ::= next_value |>)) with (chunks_by_ssn_ s).
    destruct (assemble_loop _ _) as [[bytes out] s']. cbn in *. unfold ordered_size in *. cbn in Hl. lia.
  - pose proof (emplace_in_size n tsn d (chunks_by_ssn_ s)) as He. destruct (emplace_in _ _ _ _) as [inserted chunks]. cbn [fst snd] in He.
    cbv zeta. destruct inserted; cbn [negb]; [|unfold ordered_size; cbn; lia].
    unfold TryToAssembleMessages. match goal with |- context [assemble_loop ?k ?x] => pose proof (assemble_loop_size k x) as Hl;
      destruct (assemble_loop k x) as [[bytes out] s'] end. cbn in *. unfold ordered_size in *. cbn in Hl. lia.
Qed.

Lemma Ordered_Add_size tsn d s : ordered_size (Ordered_Add tsn d s).2 = ordered_size s + (Ordered_Add tsn d s).1.1.
Proof.
  unfold Ordered_Add. destruct (Unwrap _ _ _ _) as [n u]. cbv zeta. destruct (n =? _).
  - match goal with |- context [TryToAssembleMessagesFastpath n tsn d ?x] => pose proof (Fastpath_size n tsn d x) as Hl end.
    destruct (TryToAssembleMessagesFastpath _ _ _ _) as [[bytes out] s']. cbn in *. unfold ordered_size in *. cbn in Hl. lia.
  - match goal with |- context [emplace_in n tsn d ?x] => pose proof (emplace_in_size n tsn d x) as He; destruct (emplace_in n tsn d x) as [inserted chunks] end.
    cbn in He. destruct inserted; cbn [negb]; unfold ordered_size; cbn; lia.
Qed.

Lemma erase_to_size key m : maps_size (erase_to key m).2 = maps_size m - maps_size (erase_to key m).1.
Proof. unfold erase_to. pose proof (lower_bound_concat (λ p, p.1 <=? key) m) as Hm. destruct (lower_bound _ m) as [removed kept]. cbn in *. subst m. sizes. Qed.

Lemma Ordered_EraseTo_size n s : ordered_size (Ordered_EraseTo n s).2 = ordered_size s - (Ordered_EraseTo n s).1.1.
Proof.
  unfold Ordered_EraseTo. destruct (Unwrap _ _ _ _) as [k u]. pose proof (erase_to_size k (chunks_by_ssn_ s)) as He.
  destruct (erase_to k _) as [removed kept]. cbv zeta. cbn [fst snd] in He. unfold TryToAssembleMessages.
  match goal with |- context [assemble_loop ?f ?x] => pose proof (assemble_loop_size f x) as Hl; destruct (assemble_loop f x) as [[bytes out] s'] end.
  cbn in *. destruct (_ <=? k); unfold ordered_size in *; cbn in Hl; lia.
Qed.

(** ** Bytes held by the streams of a map *)

Lemma map_update_sum {A B} (g : A → Z) (h : B → Z) key new (f : A → B * A) m :
  g new = 0 → (∀ v, g (f v).2 = g v + h (f v).1) →
  sum_of g (map_update key new f m).2 = sum_of g m + h (map_update key new f m).1.
Proof.
  intros Hnew Hf. pose proof (Hf new) as Hn. unfold sum_of. induction m as [|[k v] m IH]; cbn [map_update].
  - destruct (f new) as [b v]. cbn in *. lia.
  - destruct (key <? k); [destruct (f new) as [b v']; cbn in *; lia|].
    destruct (k =? key); [specialize (Hf v); destruct (f v) as [b v']; cbn in *; lia|].
    destruct (map_update key new f m) as [b m']. cbn in *. lia.
Qed.

Lemma sum_of_nonneg {A} (g : A → Z) m : (∀ v, 0 ≤ g v) → 0 ≤ sum_of g m.
Proof. intros Hg. unfold sum_of. induction m as [|p m IH]; cbn; [lia|]. pose proof (Hg p.2). lia. Qed.

Lemma sum_of_map {A} (g : A → Z) (f : Z * A → Z * A) m : (∀ p, g (f p).2 = g p.2) → sum_of g (map f m) = sum_of g m.
Proof. intros Hf. unfold sum_of. induction m as [|p m IH]; [done|]. cbn. by rewrite Hf, IH. Qed.

Definition traditional_held (t : TraditionalStreams) : Z :=
  sum_of (λ s, map_size (chunks_ s)) (unordered_streams_ t) + sum_of ordered_size (ordered_streams_ t).

Lemma OrderedStream_new_size n : ordered_size (OrderedStream_new n) = 0.
Proof. done. Qed.

Lemma skip_streams_size skipped m : sum_of ordered_size (skip_streams skipped m).2 = sum_of ordered_size m - (skip_streams skipped m).1.1.
Proof.
  revert m. induction skipped as [|sk skipped IH]; intros m; cbn [skip_streams]; [cbn [fst snd]; lia|].
  pose proof (map_update_sum ordered_size (λ b : Z * assembled, - b.1) (skipped_stream_id sk) (OrderedStream_new 0) (Ordered_EraseTo (skipped_ssn sk)) m
    (OrderedStream_new_size 0) (Ordered_EraseTo_size (skipped_ssn sk))) as Hu. destruct (map_update _ _ _ m) as [[bytes out] m1].
  specialize (IH m1). destruct (skip_streams skipped m1) as [[bytes' out'] m2]. cbn [fst snd] in *. lia.
Qed.

Lemma erase_unordered_size tsn m :
  sum_of (λ s, map_size (chunks_ s)) (erase_unordered tsn m).2 = sum_of (λ s, map_size (chunks_ s)) m - (erase_unordered tsn m).1.
Proof.
  unfold erase_unordered, sum_of. cbn [fst snd]. induction m as [|[k v] m IH]; cbn -[Unordered_EraseTo]; [lia|]. cbn -[Unordered_EraseTo] in IH.
  pose proof (Unordered_EraseTo_size tsn v). lia.
Qed.

#[export] Program Instance TraditionalLaws : ReassemblyLaws TraditionalStreams := { held := traditional_held }.
Next Obligation.
  intros tsn d t. cbn [rs_Add Traditional]. unfold Traditional_Add, traditional_held. destruct (is_unordered d).
  - pose proof (map_update_sum (λ s, map_size (chunks_ s)) (λ b : Z * assembled, b.1) (stream_id d) (mkUnordered []) (Unordered_Add tsn d) (unordered_streams_ t)
      eq_refl (Unordered_Add_size tsn d)) as Hu. destruct (map_update _ _ _ _) as [[bytes out] m]. cbn in *. lia.
  - pose proof (map_update_sum ordered_size (λ b : Z * assembled, b.1) (stream_id d) (OrderedStream_new 0) (Ordered_Add tsn d) (ordered_streams_ t)
      eq_refl (Ordered_Add_size tsn d)) as Hu. destruct (map_update _ _ _ _) as [[bytes out] m]. cbn in *. lia.
Qed.
Next Obligation.
  intros tsn skipped t. cbn [rs_HandleForwardTsn Traditional]. unfold Traditional_HandleForwardTsn, traditional_held.
  pose proof (erase_unordered_size tsn (unordered_streams_ t)) as Hu. destruct (erase_unordered _ _) as [bytes m].
  pose proof (skip_streams_size skipped (ordered_streams_ t)) as Ho. destruct (skip_streams _ _) as [[bytes' out] m']. cbn in *. lia.
Qed.
Next Obligation.
  intros ids t. unfold traditional_held. cbn [rs_ResetStreams Traditional unordered_streams_ ordered_streams_ Traditional_ResetStreams]. f_equal.
  apply (sum_of_map ordered_size). intros p. by destruct (match ids with [] => _ | _ => _ end).
Qed.
Next Obligation.
  intros t. cbn. unfold traditional_held.
  pose proof (sum_of_nonneg (λ s, map_size (chunks_ s)) (unordered_streams_ t) (λ v, map_size_nonneg _)).
  pose proof (sum_of_nonneg ordered_size (ordered_streams_ t) (λ v, maps_size_nonneg _)). lia.
Qed.

Definition chunk_size (p : Z * Data) : Z := data_size p.2.
Definition istream_size (s : IStream) : Z := sum_of (sum_of chunk_size) (chunks_by_mid_ s).

Lemma by_fsn_size chunks : map_size (by_fsn chunks) = sum_of chunk_size chunks.
Proof. unfold map_size, by_fsn, sum_of. induction chunks as [|p l IH]; [done|]. cbn. by rewrite IH. Qed.

Lemma imaps_size_sum m : imaps_size m = sum_of (sum_of chunk_size) m.
Proof.
  unfold imaps_size, maps_size, sum_of at 1. induction m as [|p m IH]; [done|]. cbn. by rewrite by_fsn_size, IH.
Qed.

Lemma map_erase_sum {A} (g : A → Z) key m v : map_find key m = Some v → sum_of g (map_erase key m) = sum_of g m - g v.
Proof.
  unfold sum_of. induction m as [|[k w] m IH]; cbn; [done|]. destruct (k =? key); [intros [= ->]; lia|]. intros H. cbn. rewrite (IH H). lia.
Qed.

Lemma IStream_Try_size n s : istream_size (IStream_TryToAssembleMessage n s).2 = istream_size s - (IStream_TryToAssembleMessage n s).1.1.
Proof.
  unfold IStream_TryToAssembleMessage, istream_size. destruct (map_find n (chunks_by_mid_ s)) as [chunks|] eqn:E; [|cbn; lia].
  destruct (negb _); [cbn; lia|]. pose proof (AssembleMessage_bytes (by_fsn chunks)) as Hb. rewrite by_fsn_size in Hb.
  destruct (AssembleMessage _) as [bytes out]. cbn in *. rewrite (map_erase_sum _ n _ chunks) by done. lia.
Qed.

Lemma iassemble_loop_size fuel s : istream_size (iassemble_loop fuel s).2 = istream_size s - (iassemble_loop fuel s).1.1.
Proof.
  revert s. induction fuel as [|fuel IH]; intros s; cbn [iassemble_loop]; [cbn; lia|]. pose proof (IStream_Try_size (next_mid_ s) s) as Ht.
  destruct (IStream_TryToAssembleMessage _ s) as [[bytes out] s1]. cbn [fst snd] in Ht. destruct (Z.eqb_spec bytes 0); [cbn [fst snd]; lia|].
  specialize (IH (s1 <| next_mid_ ::= next_value |>)). destruct (iassemble_loop fuel _) as [[bytes' out'] s2]. cbn [fst snd] in *.
  change (istream_size (s1 <| next_mid_ ::= next_value |>)) with (istream_size s1) in IH. lia.
Qed.

(** After the loop, for any change of the stream that keeps its chunks. *)
Ltac use_loop := unfold IStream_TryToAssembleMessages;
  match goal with |- context [iassemble_loop ?f ?x] => pose proof (iassemble_loop_size f x); destruct (iassemble_loop f x) as [[? ?] ?] end;
  unfold istream_size in *; cbn in *.

Lemma IStream_Add_size tsn d s : istream_size (IStream_Add tsn d s).2 = istream_size s + (IStream_Add tsn d s).1.1.
Proof.
  unfold IStream_Add. destruct (Unwrap _ _ _ _) as [n u]. cbv zeta. destruct (_ && _ && _); [unfold istream_size; cbn; lia|].
  destruct (_ && _ && _ && _); [use_loop; lia|].
  match goal with |- context [emplace_in n ?f ?v ?x] => pose proof (emplace_in_sum chunk_size n f v x) as He; destruct (emplace_in n f v x) as [inserted chunks] end.
  cbn [fst snd chunks_by_mid_ set_field IStream_eta] in He. change (chunk_size (tsn, d)) with (data_size d) in He. destruct inserted; cbn [negb]; [|unfold istream_size; cbn; lia].
  match goal with |- context [if ?b then _ else _] => destruct b end.
  - match goal with |- context [IStream_TryToAssembleMessage n ?x] => pose proof (IStream_Try_size n x) as Ht end.
    destruct (IStream_TryToAssembleMessage _ _) as [[bytes out] s']. unfold istream_size in *. cbn in *. lia.
  - destruct (_ =? _); [use_loop; lia|]. unfold istream_size; cbn; lia.
Qed.

Lemma IStream_EraseTo_size n s : istream_size (IStream_EraseTo n s).2 = istream_size s - (IStream_EraseTo n s).1.1.
Proof.
  unfold IStream_EraseTo. destruct (Unwrap _ _ _ _) as [k u]. pose proof (lower_bound_concat (λ p, p.1 <=? k) (chunks_by_mid_ s)) as Hm.
  unfold erase_to. destruct (lower_bound _ _) as [removed kept]. cbn [fst snd] in Hm. cbv zeta.
  assert (istream_size s = imaps_size removed + sum_of (sum_of chunk_size) kept) as Hs.
  { unfold istream_size. rewrite <- Hm, imaps_size_sum. apply sum_of_app. }
  rewrite Hs. destruct (negb _); [|unfold istream_size; cbn; lia]. destruct (_ <=? k); use_loop; lia.
Qed.

Definition interleaved_held (t : InterleavedStreams) : Z := sum_of istream_size (iordered_ t) + sum_of istream_size (iunordered_ t).

Lemma with_stream_held {B} (h : B → Z) unordered id (f : IStream → B * IStream) t :
  (∀ v, istream_size (f v).2 = istream_size v + h (f v).1) →
  interleaved_held (with_stream unordered id f t).2 = interleaved_held t + h (with_stream unordered id f t).1.
Proof.
  intros Hf. unfold with_stream, interleaved_held. destruct unordered.
  - pose proof (map_update_sum istream_size h id (IStream_new true 0) f (iunordered_ t) eq_refl Hf) as Hu. destruct (map_update _ _ _ _) as [b m]. cbn in *. lia.
  - pose proof (map_update_sum istream_size h id (IStream_new false 0) f (iordered_ t) eq_refl Hf) as Hu. destruct (map_update _ _ _ _) as [b m]. cbn in *. lia.
Qed.

#[export] Program Instance InterleavedLaws : ReassemblyLaws InterleavedStreams :=
  { held := interleaved_held }.
Next Obligation.
  intros tsn d t. exact (with_stream_held (λ b : Z * assembled, b.1) _ _ _ t (IStream_Add_size tsn d)).
Qed.
Next Obligation.
  intros tsn skipped. cbn [rs_HandleForwardTsn Interleaved]. induction skipped as [|sk skipped IH]; intros t; cbn [Interleaved_HandleForwardTsn]; [cbn [fst snd]; lia|].
  pose proof (with_stream_held (λ b : Z * assembled, - b.1) (skipped_unordered sk) (skipped_stream_id sk) (IStream_EraseTo (skipped_mid sk)) t
    (IStream_EraseTo_size (skipped_mid sk))) as Hw. destruct (with_stream _ _ _ t) as [[bytes out] t1]. specialize (IH t1).
  destruct (Interleaved_HandleForwardTsn tsn skipped t1) as [[bytes' out'] t2]. cbn [fst snd] in *. lia.
Qed.
Next Obligation.
  intros ids t. cbn [rs_ResetStreams Interleaved]. unfold Interleaved_ResetStreams. destruct ids as [|id ids].
  { unfold interleaved_held. cbn [iordered_ iunordered_]. f_equal; by apply (sum_of_map istream_size). }
  revert t. generalize (id :: ids). intros l. induction l as [|x l IH]; intros t; [done|]. cbn [fold_left]. rewrite IH.
  pose proof (λ b, with_stream_held (λ _ : (), 0) b x (λ s, ((), IStream_Reset s))) as Hw. unfold reset_both.
  rewrite !Hw by (intros v; cbn [fst snd]; rewrite Z.add_0_r; done). lia.
Qed.
Next Obligation.
  intros t. unfold interleaved_held. assert (∀ v, 0 ≤ istream_size v) as Hs by (intros v; apply sum_of_nonneg; intros c; apply sum_of_nonneg; intros p; apply Nat2Z.is_nonneg).
  pose proof (sum_of_nonneg istream_size (iordered_ t) Hs). pose proof (sum_of_nonneg istream_size (iunordered_ t) Hs). lia.
Qed.

(** ** The accounts of the queue *)

Definition action_bytes (a : deferred_action) : Z := match a with defer_add _ data => data_size data | defer_forward _ _ => 0 end.
Definition actions_bytes (l : list deferred_action) : Z := fold_right (λ a s, action_bytes a + s) 0 l.

Section Accounts.
  Context {S : Type} `{ReassemblyLaws S}.
  Implicit Types q : ReassemblyQueue S.

Definition deferred_bytes q : Z := match deferred_reset_streams_ q with Some d => actions_bytes (deferred_actions d) | None => 0 end.

(** The counter is what the streams hold and what is deferred, and [extra]. *)
Definition accounted (extra : Z) q : Prop := queued_bytes_ q = wrap 64 (held (streams_ q) + deferred_bytes q + extra).

Lemma wrap_add x y : wrap 64 (wrap 64 x + y) = wrap 64 (x + y).
Proof using Type. unfold wrap. by rewrite Z.add_mod_idemp_l. Qed.

Lemma actions_bytes_app l a : actions_bytes (l ++ [a]) = actions_bytes l + action_bytes a.
Proof using Type. unfold actions_bytes. induction l as [|b l IH]; cbn; [lia|]. rewrite IH. lia. Qed.

Lemma actions_bytes_cons a l : actions_bytes (a :: l) = action_bytes a + actions_bytes l.
Proof using Type. done. Qed.
#[local] Arguments actions_bytes : simpl never.

(** A change of the streams and the counter that balance. *)
Lemma accounted_streams extra q bytes out streams :
  accounted extra q → held streams = held (streams_ q) + bytes →
  accounted extra (add_queued bytes (AddReassembledMessages out (q <| streams_ := streams |>))).
Proof using Type.
  unfold accounted. intros Hq Hs. cbn. rewrite Hq, wrap_add, Hs. f_equal. unfold deferred_bytes. cbn. lia.
Qed.

Lemma Queue_Add_accounted extra tsn data q : accounted extra q → accounted extra (Queue_Add tsn data q).
Proof using Type.
  intros Hq. unfold Queue_Add. destruct (Unwrap _ _ _ _) as [x u]. cbv zeta.
  pose proof (rs_Add_held x data (streams_ q)) as Ha.
  match goal with |- context [rs_Add x data ?s] => change s with (streams_ q) end. destruct (rs_Add x data (streams_ q)) as [[bytes out] streams].
  cbn [fst snd] in Ha. set (q1 := q <| queue_tsn_unwrapper_ := u |>).
  assert (accounted extra (add_queued bytes (AddReassembledMessages out (q1 <| streams_ := streams |>)))) as Hplain by (by apply accounted_streams).
  destruct (deferred_reset_streams_ q1) as [d|] eqn:Ed; [|exact Hplain]. destruct (_ && _); [|exact Hplain].
  unfold accounted in *. cbn. rewrite Hq, wrap_add. f_equal. unfold deferred_bytes. cbn in *. rewrite Ed, actions_bytes_app. cbn. lia.
Qed.

Lemma Queue_Forward_accounted extra tsn skipped q : accounted extra q → accounted extra (Queue_HandleForwardTsn tsn skipped q).
Proof using Type.
  intros Hq. unfold Queue_HandleForwardTsn. destruct (Unwrap _ _ _ _) as [x u]. cbv zeta.
  pose proof (rs_Forward_held x skipped (streams_ q)) as Ha.
  match goal with |- context [rs_HandleForwardTsn x skipped ?s] => change s with (streams_ q) end.
  destruct (rs_HandleForwardTsn x skipped (streams_ q)) as [[bytes out] streams]. cbn [fst snd] in Ha. set (q1 := q <| queue_tsn_unwrapper_ := u |>).
  assert (accounted extra (add_queued (- bytes) (AddReassembledMessages out (q1 <| streams_ := streams |>)))) as Hplain by (by apply accounted_streams).
  destruct (deferred_reset_streams_ q1) as [d|] eqn:Ed; [|exact Hplain]. destruct (_ <? _); [|exact Hplain].
  unfold accounted in *. cbn. rewrite Hq. f_equal. unfold deferred_bytes. cbn in *. rewrite Ed, actions_bytes_app. cbn. lia.
Qed.

Lemma run_actions_accounted l extra q : accounted (actions_bytes l + extra) q → accounted extra (fold_left run_action l q).
Proof using Type.
  revert q. induction l as [|a l IH]; intros q Hq; [done|]. cbn [fold_left]. apply IH. destruct a as [tsn data|tsn skipped]; cbn [run_action].
  - apply Queue_Add_accounted. unfold accounted in *. rewrite actions_bytes_cons in Hq. cbn in *. rewrite Hq, wrap_add. f_equal. unfold deferred_bytes. cbn. lia.
  - apply Queue_Forward_accounted. exact Hq.
Qed.

Lemma Queue_Leave_accounted extra ids q : accounted extra q → accounted extra (ResetStreamsAndLeaveDeferredReset ids q).
Proof using Type.
  intros Hq. unfold ResetStreamsAndLeaveDeferredReset. cbv zeta.
  destruct (deferred_reset_streams_ (q <| streams_ ::= rs_ResetStreams ids |>)) as [d|] eqn:Ed; cbn in Ed.
  - apply run_actions_accounted. unfold accounted in *. cbn. rewrite Hq, rs_Reset_held. f_equal. unfold deferred_bytes. cbn. rewrite Ed. lia.
  - unfold accounted in *. cbn. rewrite Hq, rs_Reset_held. f_equal.
Qed.

Lemma Queue_Enter_accounted extra tsn ids q : accounted extra q → accounted extra (EnterDeferredReset tsn ids q).
Proof using Type.
  intros Hq. unfold EnterDeferredReset. destruct (deferred_reset_streams_ q) as [d|] eqn:Ed; [done|]. destruct (Unwrap _ _ _ _) as [x u].
  unfold accounted in *. cbn. rewrite Hq. f_equal. unfold deferred_bytes. cbn. by rewrite Ed.
Qed.

(** The calls of the socket. *)
Inductive queue_event :=
  | ev_add (tsn : Z) (data : Data)
  | ev_forward (tsn : Z) (skipped : list SkippedStream)
  | ev_enter (tsn : Z) (ids : list Z)
  | ev_leave (ids : list Z)
  | ev_flush.
Definition queue_step q (e : queue_event) : ReassemblyQueue S :=
  match e with
  | ev_add tsn data => Queue_Add tsn data q
  | ev_forward tsn skipped => Queue_HandleForwardTsn tsn skipped q
  | ev_enter tsn ids => EnterDeferredReset tsn ids q
  | ev_leave ids => ResetStreamsAndLeaveDeferredReset ids q
  | ev_flush => (FlushMessages q).2
  end.

Lemma queue_run_accounted es q : accounted 0 q → accounted 0 (fold_left queue_step es q).
Proof using Type.
  revert q. induction es as [|e es IH]; intros q Hq; [done|]. cbn [fold_left]. apply IH. destruct e; cbn [queue_step];
    [by apply Queue_Add_accounted | by apply Queue_Forward_accounted | by apply Queue_Enter_accounted | by apply Queue_Leave_accounted | exact Hq].
Qed.

(** C17: Whatever a peer sends, in any order, the counter of queued bytes is exactly the payload
    bytes that the streams hold and those that wait for a stream reset: for every
    implementation of the streams that keeps its part of the interface, as both do. *)
Theorem queued_bytes_accounted max watermark (streams : S) es :
  held streams = 0 →
  let q := fold_left queue_step es (Queue_new max watermark streams) in
  queued_bytes_ q = wrap 64 (held (streams_ q) + deferred_bytes q).
Proof using Type.
  intros Hs q. assert (accounted 0 (Queue_new max watermark streams)) as Hnew.
  { unfold accounted. cbn. by rewrite Hs. }
  pose proof (queue_run_accounted es _ Hnew) as Hq. unfold accounted in Hq. by rewrite Z.add_0_r in Hq.
Qed.
End Accounts.

Definition sample_data (sid n tsn_in_message count : Z) (bytes : list Z) : Data :=
  mkData sid n n tsn_in_message 51 bytes (tsn_in_message =? 0) (tsn_in_message =? count - 1) false.

Lemma queued_bytes_accounted_witness :
  let es := [ev_add 5 (sample_data 1 1 0 2 [1; 2; 3]); ev_add 6 (sample_data 1 1 1 2 [4]); ev_enter 6 [1];
             ev_add 9 (sample_data 1 2 0 1 [7]); ev_add 4 (sample_data 1 0 0 1 [9]); ev_leave [1]; ev_flush] in
  let q := fold_left queue_step es (Queue_new 100 90 TraditionalStreams_new) in
  queued_bytes_ q = wrap 64 (held (streams_ q) + deferred_bytes q).
Proof.
  apply (queued_bytes_accounted 100 90 TraditionalStreams_new
    [ev_add 5 (sample_data 1 1 0 2 [1; 2; 3]); ev_add 6 (sample_data 1 1 1 2 [4]); ev_enter 6 [1];
     ev_add 9 (sample_data 1 2 0 1 [7]); ev_add 4 (sample_data 1 0 0 1 [9]); ev_leave [1]; ev_flush]). reflexivity.
Defined.

(** An acknowledgement sent while the queue is past its watermark announces a receiver window
    of almost four gigabytes instead of none: the room left is computed in [size_t]. *)
Theorem window_wraps_past_watermark {S} `{ReassemblyStreams S} (r : Receiver S) :
  let q := reassembly_queue_ r in
  0 < queued_bytes_ q - watermark_bytes_ q < 2 ^ 32 → ack_state_ (data_tracker_ r) = kImmediate →
  a_rwnd_ <$> (MaybeSendSack r).1 = Some (2 ^ 32 - (queued_bytes_ q - watermark_bytes_ q)).
Proof.
  intros q Hq Hack. unfold MaybeSendSack, ShouldSendAck. rewrite Hack, bool_decide_eq_true_2 by done.
  cbn -[remaining_bytes CreateGapAckBlocks]. f_equal. unfold remaining_bytes. cbn [reassembly_queue_ set_field Receiver_eta]. fold q.
  set (x := queued_bytes_ q - watermark_bytes_ q) in *. replace (watermark_bytes_ q - queued_bytes_ q) with (- x) by lia.
  unfold wrap. rewrite Z.mod_mod_divide by (by exists (2 ^ 32)). symmetry. apply Z.mod_unique with (-1); lia.
Qed.

(** Two fragments of a message that is not complete fill the queue past its watermark. *)
Definition sample_receiver : Receiver TraditionalStreams :=
  (HandleDataCommon (mkChunk 2 (sample_data 1 0 1 3 [4; 5; 6]) false)
    (HandleDataCommon (mkChunk 1 (sample_data 1 0 0 3 [1; 2; 3]) false)
      (mkReceiver (DataTracker_new 1) (Queue_new 10 4 TraditionalStreams_new))).2).2.

Lemma window_wraps_past_watermark_witness :
  (let q := reassembly_queue_ sample_receiver in
   a_rwnd_ <$> (MaybeSendSack sample_receiver).1 = Some (2 ^ 32 - (queued_bytes_ q - watermark_bytes_ q)))
  ∧ queued_bytes_ (reassembly_queue_ sample_receiver) = 6.
Proof. split; [apply (window_wraps_past_watermark sample_receiver); [vm_compute; by split | reflexivity] | reflexivity]. Defined.

(** ** The loops end *)

Lemma try_removes s : (Ordered_TryToAssembleMessage s).1.1 ≠ 0 →
  length (chunks_by_ssn_ s) = S (length (chunks_by_ssn_ (Ordered_TryToAssembleMessage s).2)).
Proof.
  unfold Ordered_TryToAssembleMessage. destruct (chunks_by_ssn_ s) as [|[n chunks] rest]; [done|].
  destruct (negb _); [done|]. destruct (negb _); [done|]. by destruct (AssembleMessage chunks).
Qed.

Lemma itry_removes n s : (IStream_TryToAssembleMessage n s).1.1 ≠ 0 →
  length (chunks_by_mid_ s) = S (length (chunks_by_mid_ (IStream_TryToAssembleMessage n s).2)).
Proof.
  unfold IStream_TryToAssembleMessage. destruct (map_find n (chunks_by_mid_ s)) as [chunks|] eqn:E; [|done].
  destruct (negb _); [done|]. destruct (AssembleMessage _) as [bytes out]. intros _. cbn. revert E.
  induction (chunks_by_mid_ s) as [|[k v] m IH]; cbn; [done|]. destruct (k =? n); [done|]. intros E. cbn. by rewrite (IH E).
Qed.

Lemma assemble_loop_stable fuel fuel' s :
  (length (chunks_by_ssn_ s) < fuel)%nat → (length (chunks_by_ssn_ s) < fuel')%nat → assemble_loop fuel s = assemble_loop fuel' s.
Proof.
  revert fuel' s. induction fuel as [|fuel IH]; intros [|fuel'] s Hf Hf'; try lia. cbn [assemble_loop]. pose proof (try_removes s) as Hr.
  destruct (Ordered_TryToAssembleMessage s) as [[bytes out] s1]. cbn [fst snd] in Hr. destruct (Z.eqb_spec bytes 0) as [|Hb]; [done|].
  specialize (Hr Hb). by rewrite (IH fuel' s1) by lia.
Qed.

Lemma iassemble_loop_stable fuel fuel' s :
  (length (chunks_by_mid_ s) < fuel)%nat → (length (chunks_by_mid_ s) < fuel')%nat → iassemble_loop fuel s = iassemble_loop fuel' s.
Proof.
  revert fuel' s. induction fuel as [|fuel IH]; intros [|fuel'] s Hf Hf'; try lia. cbn [iassemble_loop]. pose proof (itry_removes (next_mid_ s) s) as Hr.
  destruct (IStream_TryToAssembleMessage _ s) as [[bytes out] s1]. cbn [fst snd] in Hr. destruct (Z.eqb_spec bytes 0) as [|Hb]; [done|].
  specialize (Hr Hb). rewrite (IH fuel' (s1 <| next_mid_ ::= next_value |>)); [done| |]; cbn; lia.
Qed.

(** C40: The loops that assemble messages of either kind of ordered stream end after at most one
    round more than there are messages in the stream, whatever chunks it holds: more rounds
    give the same result. *)
Theorem assembly_loops_end s si extra :
  assemble_loop (S (length (chunks_by_ssn_ s)) + extra) s = TryToAssembleMessages s
  ∧ iassemble_loop (S (length (chunks_by_mid_ si)) + extra) si = IStream_TryToAssembleMessages si.
Proof. split; [apply assemble_loop_stable | apply iassemble_loop_stable]; lia. Qed.
