(* ===== verification/Receiver.v ===== *)
(** * From the network to the application

    The data tracker, the reassembly queue and an ordered stream together: what
    [HandleDataCommon] of the SCTP socket delivers when the network reorders, repeats and
    loses the chunks of a sender. *)

From S2P Require Import Prelude SeqNum SctpWire DataTracker Reassembly ReassemblyQueue.
Open Scope Z_scope.

Section EndToEnd.
  Context (sid : Z) (messages : nat → sent_message) (total : nat) (immediate : nat * nat → bool).
  Context (Hmessages : ∀ i, (i < total)%nat → sent_ok (messages i)).

Definition tsn_of (p : nat * nat) : Z := fragment_tsn (messages p.1) p.2.
Definition chunk_of (p : nat * nat) : AnyDataChunk :=
  mkChunk (wrap 32 (tsn_of p)) (fragment sid false p.1 (messages p.1) p.2) (immediate p).

(** What the application gets while the chunks [l] arrive. *)
Fixpoint received (l : list (nat * nat)) (r : Receiver TraditionalStreams) : list DcSctpMessage :=
  match l with
  | [] => []
  | p :: l' =>
    let '(reaction, r) := HandleDataCommon (chunk_of p) r in
    match reaction with OnMessagesReceived out => out | _ => [] end ++ received l' r
  end.

(** Each chunk arrives within the window of the tracker and below the watermark. *)
Fixpoint flows (l : list (nat * nat)) (r : Receiver TraditionalStreams) : Prop :=
  match l with
  | [] => True
  | p :: l' =>
    Z.abs (tsn_of p - last_cumulative_acked_tsn_ (data_tracker_ r)) ≤ kMaxAcceptedOutstandingFragments
    ∧ is_full (reassembly_queue_ r) = false ∧ is_above_watermark (reassembly_queue_ r) = false
    ∧ flows l' (HandleDataCommon (chunk_of p) r).2
  end.

(** The queue counts TSNs from where it first saw one, a multiple of [2 ^ 32] away. *)
Context (shift : Z) (Hshift : ∃ n, shift = n * 2 ^ 32).
Definition seen_by_queue (i : nat) : sent_message :=
  mkSent (sent_tsn (messages i) - shift) (sent_ppid (messages i)) (sent_fragments (messages i)).

Lemma seen_by_queue_ok i : (i < total)%nat → sent_ok (seen_by_queue i).
Proof using Hmessages. intros Hi. exact (Hmessages i Hi). Qed.

(** The unwrapper of the queue finds [x - shift]: it is near [y], or [x] is its first. *)
Definition queue_finds (u : SeqNumUnwrapper) (cum : Z) : Prop :=
  ∃ y, u = mkUnwrapper (y - shift) (Some (wrap 32 y)) ∧ Z.abs (y - cum) ≤ 2 * kMaxAcceptedOutstandingFragments.

Lemma wrap_shift_32 x : wrap 32 (x - shift) = wrap 32 x.
Proof using Hshift. destruct Hshift as [n ->]. unfold wrap. rewrite <- Zminus_mod_idemp_r, Z.mod_mul, Z.sub_0_r by lia. done. Qed.

Lemma queue_unwraps u cum x :
  queue_finds u cum ∨ (u = SeqNumUnwrapper_new ∧ shift = x - wrap 32 x) →
  Z.abs (x - cum) ≤ kMaxAcceptedOutstandingFragments →
  Unwrap 32 0 (wrap 32 x) u = (x - shift, mkUnwrapper (x - shift) (Some (wrap 32 x))).
Proof using Hshift.
  unfold kMaxAcceptedOutstandingFragments. intros [(y & -> & Hy)|[-> Hs]] Hx; unfold Unwrap; cbn [last_value_ last_unwrapped_ SeqNumUnwrapper_new].
  - rewrite <- (wrap_shift_32 y), <- (wrap_shift_32 x), Delta_exact by (unfold kMaxAcceptedOutstandingFragments in *; cbn; lia).
    by replace (y - shift + (x - shift - (y - shift))) with (x - shift) by lia.
  - by replace (x - shift) with (wrap 32 x) by lia.
Qed.

(** The queue below the socket, holding one ordered stream. *)
Definition queue_holds (s : OrderedStream) (u : SeqNumUnwrapper) (q : ReassemblyQueue TraditionalStreams) : Prop :=
  queue_tsn_unwrapper_ q = u ∧ reassembled_messages_ q = [] ∧ deferred_reset_streams_ q = None
  ∧ unordered_streams_ (streams_ q) = []
  ∧ (ordered_streams_ (streams_ q) = [(sid, s)] ∨ (ordered_streams_ (streams_ q) = [] ∧ s = OrderedStream_new 0)).

Lemma queue_adds s u q x d bytes out s' u' :
  queue_holds s u q → stream_id d = sid → is_unordered d = false →
  Unwrap 32 0 (wrap 32 x) u = (x - shift, u') → Ordered_Add (x - shift) d s = (bytes, out, s') →
  reassembled_messages_ (Queue_Add (wrap 32 x) d q) = map snd out
  ∧ queue_holds s' u' (FlushMessages (Queue_Add (wrap 32 x) d q)).2.
Proof.
  intros (Hu & Hm & Hd & Hun & Ho) Hsid Hord Hunw Hadd. unfold Queue_Add. rewrite Hu, Hunw. cbv zeta.
  match goal with |- context [deferred_reset_streams_ ?x] => change (deferred_reset_streams_ x) with (deferred_reset_streams_ q) end.
  rewrite Hd. cbn [rs_Add Traditional]. unfold Traditional_Add. rewrite Hord, Hsid.
  match goal with |- context [ordered_streams_ (streams_ ?x)] => change (streams_ x) with (streams_ q) end.
  assert (map_update sid (OrderedStream_new 0) (Ordered_Add (x - shift) d) (ordered_streams_ (streams_ q)) = ((bytes, out), [(sid, s')])) as ->.
  { destruct Ho as [-> | [-> ->]]; cbn [map_update]; rewrite ?Z.ltb_irrefl, ?Z.eqb_refl; by rewrite Hadd. }
  split; [cbn; by rewrite Hm|]. unfold queue_holds. cbn. split_and!; try done. by left.
Qed.
(** The sender gives out TSNs in increasing order. *)
Context (Hsorted : ∀ i i', (i < i' < total)%nat →
  sent_tsn (messages i) + Z.of_nat (fragment_count (messages i)) ≤ sent_tsn (messages i')).

Lemma tsn_of_inj p p' : is_fragment messages total p → is_fragment messages total p' → tsn_of p = tsn_of p' → p = p'.
Proof using Hsorted.
  destruct p as [i j], p' as [i' j']. intros [Hi Hj] [Hi' Hj'] Ht. cbn in *. unfold tsn_of, fragment_tsn in Ht. cbn in Ht.
  destruct (Nat.lt_total i i') as [Hlt|[->|Hlt]].
  - specialize (Hsorted i i' ltac:(lia)). lia.
  - f_equal. lia.
  - specialize (Hsorted i' i ltac:(lia)). lia.
Qed.

(** The arrivals that are not repetitions. *)
Fixpoint fresh (have : nat → nat → bool) (l : list (nat * nat)) : list (nat * nat) :=
  match l with
  | [] => []
  | (i, j) :: l' => if have i j then fresh have l' else (i, j) :: fresh (arrive i j have) l'
  end.

(** The receiver when the fragments [have] have arrived and [k] messages been delivered. *)
Definition receiver_at (next : list (nat * nat)) (have : nat → nat → bool) (k : nat) (v : Z) (r : Receiver TraditionalStreams) : Prop :=
  waiting seen_by_queue total have k ∧ tracker_inv (data_tracker_ r)
  ∧ (∀ p, is_fragment messages total p → seen (data_tracker_ r) (tsn_of p) = have p.1 p.2)
  ∧ ∃ u, queue_holds (ordered_state sid seen_by_queue total have k (mkUnwrapper v (Some (wrap 16 v)))) u (reassembly_queue_ r)
    ∧ (queue_finds u (last_cumulative_acked_tsn_ (data_tracker_ r))
       ∨ (u = SeqNumUnwrapper_new ∧ (∀ i j, have i j = false) ∧ ∀ p l, next = p :: l → shift = tsn_of p - wrap 32 (tsn_of p))).

Lemma same_seen_same_cum d d' :
  tracker_ok d → tracker_ok d' → last_cumulative_acked_tsn_ d ≤ last_cumulative_acked_tsn_ d' → (∀ t, seen d' t = seen d t) →
  last_cumulative_acked_tsn_ d' = last_cumulative_acked_tsn_ d.
Proof using Type.
  intros Hok Hok' Hle Hs. destruct (decide (last_cumulative_acked_tsn_ d = last_cumulative_acked_tsn_ d')) as [|Hne]; [done|]. exfalso.
  pose proof (next_not_seen d Hok) as Hn. rewrite <- Hs in Hn. unfold seen in Hn. lia.
Qed.

Lemma valid_in_window d x :
  tracker_inv d → Z.abs (x - last_cumulative_acked_tsn_ d) ≤ kMaxAcceptedOutstandingFragments → IsTSNValid (wrap 32 x) d = true.
Proof using Type.
  intros Hinv Hx. unfold IsTSNValid. rewrite (peek_in_window d x Hinv Hx). unfold Difference, kMaxAcceptedOutstandingFragments in *.
  apply negb_true_iff, Z.ltb_ge. destruct (Z.ltb_spec (last_cumulative_acked_tsn_ d) x); rewrite wrap_small; unfold uint; lia.
Qed.

Lemma fragment_payload i j : (i < total)%nat → (j < fragment_count (messages i))%nat →
  bool_decide (payload (fragment sid false i (messages i) j) = []) = false.
Proof using Hmessages.
  intros Hi Hj. apply bool_decide_eq_false. cbn. destruct (Hmessages i Hi) as (_ & Hf & _). rewrite Forall_forall in Hf.
  apply Hf, list_elem_of_In, nth_In. exact Hj.
Qed.

Lemma tsn_arrives i j have p : is_fragment messages total (i, j) → is_fragment messages total p →
  (tsn_of p =? tsn_of (i, j)) || have p.1 p.2 = arrive i j have p.1 p.2.
Proof using Hsorted.
  intros Hfrag Hp. unfold arrive. f_equal. destruct (Z.eqb_spec (tsn_of p) (tsn_of (i, j))) as [He|Hne].
  - apply (tsn_of_inj p (i, j) Hp Hfrag) in He as ->. cbn. by rewrite !Nat.eqb_refl.
  - symmetry. apply not_true_iff_false. rewrite andb_true_iff, !Nat.eqb_eq. intros [E1 E2]. apply Hne. by destruct p; cbn in *; subst.
Qed.

(** One chunk: a repetition changes nothing that matters, a new one may complete messages. *)
Lemma receiver_step i j l have k v r :
  receiver_at ((i, j) :: l) have k v r → is_fragment messages total (i, j) → flows ((i, j) :: l) r →
  (have i j = false → Z.abs (Z.of_nat i - v) < 2 ^ 15) →
  let '(reaction, r') := HandleDataCommon (chunk_of (i, j)) r in
  if have i j then reaction = no_reaction ∧ receiver_at l have k v r'
  else ∃ k', (k ≤ k')%nat ∧ reaction = OnMessagesReceived (map snd ((delivery sid ∘ seen_by_queue) <$> seq k (k' - k)))
    ∧ receiver_at l (arrive i j have) k' (Z.of_nat i) r'.
Proof using Hmessages Hshift Hsorted.
  intros (Hw & Hinv & Hseen & u & Hq & Hu) Hfrag (Hwin & Hfull & Habove & _) Hssn. pose proof Hfrag as [Hi Hj]. cbn [fst snd] in Hi, Hj.
  unfold HandleDataCommon. cbn [tsn_ data_ immediate_ack_ chunk_of fst snd]. rewrite fragment_payload, Hfull, Habove, valid_in_window by done. cbn [andb negb].
  pose proof (receive_step (Arrive (tsn_of (i, j)) (immediate (i, j))) (data_tracker_ r) Hinv Hwin) as Hrec. cbn [receive] in Hrec.
  pose proof (Observe_spec (wrap 32 (tsn_of (i, j))) (immediate (i, j)) (data_tracker_ r) (proj1 Hinv)) as Hobs. cbv zeta in Hobs.
  destruct (Observe _ _ _) as [is_new d']. destruct Hrec as (Hinv' & Hle & Hnew & Hseen'). destruct Hobs as (Hok' & _ & _ & _ & Hunw).
  rewrite (peek_in_window _ _ Hinv Hwin) in Hunw. rewrite (Hseen _ Hfrag) in Hnew. cbn [fst snd] in Hnew. subst is_new.
  destruct (have i j) eqn:Hh; cbn [negb].
  - split; [done|]. destruct Hu as [Hu|(_ & Hno & _)]; [|by rewrite Hno in Hh].
    assert (∀ t, seen d' t = seen (data_tracker_ r) t) as Hsame.
    { intros t. rewrite Hseen'. destruct (Z.eqb_spec t (tsn_of (i, j))) as [->|]; [|done]. rewrite (Hseen _ Hfrag). by cbn. }
    split_and!; [done|done|intros p Hp; cbn; by rewrite Hsame, Hseen|]. exists u. split; [exact Hq|]. left. cbn.
    by rewrite (same_seen_same_cum (data_tracker_ r) d' (proj1 Hinv) Hok' Hle Hsame).
  - assert (Unwrap 32 0 (wrap 32 (tsn_of (i, j))) u = (tsn_of (i, j) - shift, mkUnwrapper (tsn_of (i, j) - shift) (Some (wrap 32 (tsn_of (i, j)))))) as Hux.
    { apply (queue_unwraps u (last_cumulative_acked_tsn_ (data_tracker_ r))); [|exact Hwin]. destruct Hu as [Hu|(Hu & _ & Hs)]; [by left|right]. split; [done|by apply (Hs (i, j) l)]. }
    destruct (Ordered_Add_step sid seen_by_queue total seen_by_queue_ok have k (mkUnwrapper v (Some (wrap 16 v))) _ i j Hw Hi Hj Hh (unwrap_near v _ (Hssn eq_refl)))
      as (k' & bytes & Hk' & Hw' & Hadd).
    replace (fragment_tsn (seen_by_queue i) j) with (tsn_of (i, j) - shift) in Hadd by (unfold tsn_of, fragment_tsn; cbn; lia).
    change (fragment sid false i (seen_by_queue i) j) with (fragment sid false i (messages i) j) in Hadd.
    destruct (queue_adds _ _ _ _ (fragment sid false i (messages i) j) _ _ _ _ Hq eq_refl eq_refl Hux Hadd) as [Hout Hq'].
    exists k'. split; [done|]. unfold MaybeDeliverMessages. cbn [reassembly_queue_ set_field Receiver_eta FlushMessages]. rewrite Hout. split; [done|].
    split_and!; [done|done| |].
    + intros p Hp. cbn. rewrite Hseen', (Hseen p Hp). by apply tsn_arrives.
    + eexists. split; [exact Hq'|]. left. exists (tsn_of (i, j)). split; [done|]. cbn.
      destruct Hinv' as (_ & _ & y & Hy & Hd). rewrite Hunw in Hy. injection Hy as Hy _. by rewrite Hy.
Qed.

Lemma receiver_run l have k v r :
  receiver_at l have k v r → Forall (is_fragment messages total) l → flows l r → near v (fresh have l) →
  ∃ k' have', (k ≤ k')%nat ∧ waiting seen_by_queue total have' k' ∧ (∀ i j, have' i j = true ↔ (i, j) ∈ l ∨ have i j = true)
    ∧ received l r = map snd ((delivery sid ∘ seen_by_queue) <$> seq k (k' - k)).
Proof using Hmessages Hshift Hsorted.
  revert have k v r. induction l as [|[i j] l IH]; intros have k v r Hr Hf Hfl Hn.
  { exists k, have. split_and!; [done|apply Hr| |]; [|by rewrite Nat.sub_diag]. intros i j. split; [by right|]. by intros [?%not_elem_of_nil|?]. }
  apply list.Forall_cons in Hf as [Hp Hf]. pose proof (receiver_step i j l have k v r Hr Hp Hfl) as Hstep.
  destruct Hfl as (_ & _ & _ & Hfl). cbn [received fresh] in *. destruct (HandleDataCommon (chunk_of (i, j)) r) as [reaction r']. cbn [snd] in Hfl.
  destruct (have i j) eqn:Hh.
  - destruct (Hstep ltac:(done)) as [-> Hr']. destruct (IH have k v r' Hr' Hf Hfl Hn) as (k' & have' & H1 & H2 & H3 & H4).
    exists k', have'. split_and!; [done|done| |by rewrite H4]. intros a b. rewrite H3, elem_of_cons. split; [tauto|].
    intros [[E|?]|?]; [|tauto..]. injection E as -> ->. tauto.
  - destruct Hn as [Hv Hn]. destruct (Hstep (λ _, Hv)) as (k1 & Hk1 & -> & Hr').
    destruct (IH _ k1 _ r' Hr' Hf Hfl Hn) as (k' & have' & H1 & H2 & H3 & H4). exists k', have'. split_and!; [lia|done| |].
    + intros a b. rewrite H3, elem_of_cons. unfold arrive. rewrite orb_true_iff, andb_true_iff, !Nat.eqb_eq, pair_equal_spec. tauto.
    + rewrite H4, <- map_app, <- fmap_app. do 2 f_equal. replace (k' - k)%nat with ((k1 - k) + (k' - k1))%nat by lia. rewrite seq_app. do 2 f_equal. lia.
Qed.
End EndToEnd.

(** From a new receiver: what was delivered are the messages before the one waited for, and
    [shift] aligns the TSNs with those of the queue. *)
Lemma receiver_from_start sid messages total immediate first_tsn max watermark l :
  (∀ i, (i < total)%nat → sent_ok (messages i)) →
  (∀ i i', (i < i' < total)%nat → sent_tsn (messages i) + Z.of_nat (fragment_count (messages i)) ≤ sent_tsn (messages i')) →
  (∀ i, (i < total)%nat → wrap 32 (first_tsn - 1) < sent_tsn (messages i)) →
  let r := mkReceiver (DataTracker_new first_tsn) (Queue_new max watermark TraditionalStreams_new) in
  Forall (is_fragment messages total) l → flows sid messages immediate l r → near 0 (fresh (λ _ _, false) l) →
  ∃ k have shift, waiting (seen_by_queue messages shift) total have k ∧ (∀ i j, have i j = true ↔ (i, j) ∈ l)
    ∧ received sid messages immediate l r = (snd ∘ delivery sid ∘ seen_by_queue messages shift) <$> seq 0 k.
Proof.
  intros Hm Hs Hfirst r Hf Hfl Hn.
  set (shift := match l with p :: _ => tsn_of messages p - wrap 32 (tsn_of messages p) | [] => 0 end).
  assert (∃ n, shift = n * 2 ^ 32) as Hshift.
  { unfold shift. destruct l as [|p l]; [by exists 0|]. exists (tsn_of messages p / 2 ^ 32).
    pose proof (Z.div_mod (tsn_of messages p) (2 ^ 32) ltac:(lia)). unfold wrap. lia. }
  destruct (receiver_run sid messages total immediate Hm shift Hshift Hs l (λ _ _, false) 0 0 r) as (k & have & _ & Hw & Hhave & Hrec); try done.
  - split_and!.
    + by apply waiting_new, seen_by_queue_ok.
    + apply DataTracker_new_inv.
    + intros [i j] [Hi Hj]. cbn in *. rewrite (proj2 (DataTracker_new_inv first_tsn)). apply Z.leb_gt.
      specialize (Hfirst i Hi). unfold tsn_of, fragment_tsn. cbn. lia.
    + exists SeqNumUnwrapper_new. split; [|right].
      * unfold queue_holds. split_and!; try done. right. split; [done|]. by rewrite <- ordered_state_new.
      * split_and!; [done|done|]. by intros p l' ->.
  - exists k, have, shift. rewrite Nat.sub_0_r in Hrec. split; [done|]. split.
    + intros i j. rewrite Hhave. split; [by intros [?|?]|by left].
    + rewrite Hrec. symmetry. apply (list_fmap_compose (delivery sid ∘ seen_by_queue messages shift) snd (seq 0 k)).
Qed.

(** The messages of an ordered stream reach the application in order and exactly once, when
    the network reorders their chunks, repeats and loses them.  While the chunks stay inside
    the receive window, the queue below its watermark, and the numbers of successive messages
    less than [2 ^ 15] apart, what the socket has delivered are the messages up to the first one that still
    misses a fragment, each put together from its fragments. *)
Theorem delivered_in_order sid messages total immediate first_tsn max watermark l :
  (∀ i, (i < total)%nat → sent_ok (messages i)) →
  (∀ i i', (i < i' < total)%nat → sent_tsn (messages i) + Z.of_nat (fragment_count (messages i)) ≤ sent_tsn (messages i')) →
  (∀ i, (i < total)%nat → wrap 32 (first_tsn - 1) < sent_tsn (messages i)) →
  let r := mkReceiver (DataTracker_new first_tsn) (Queue_new max watermark TraditionalStreams_new) in
  Forall (is_fragment messages total) l → flows sid messages immediate l r → near 0 (fresh (λ _ _, false) l) →
  ∃ k, received sid messages immediate l r
       = (λ i, mkMessage sid (sent_ppid (messages i)) (concat (sent_fragments (messages i)))) <$> seq 0 k
    ∧ (k ≤ total)%nat
    ∧ (∀ i j, (i < k)%nat → (j < fragment_count (messages i))%nat → (i, j) ∈ l)
    ∧ ((k < total)%nat → ∃ j, (j < fragment_count (messages k))%nat ∧ (k, j) ∉ l).
Proof.
  intros Hm Hs Hfirst r Hf Hfl Hn.
  destruct (receiver_from_start sid messages total immediate first_tsn max watermark l Hm Hs Hfirst Hf Hfl Hn) as (k & have & shift & Hw & Hhave & Hrec).
  exists k. split; [exact Hrec|]. exact (waiting_lists _ _ _ _ l Hw Hhave).
Qed.

Lemma delivered_in_order_witness :
  let l := [(1, 0); (2, 2); (0, 1); (2, 2); (0, 0); (1, 0); (2, 0)]%nat in
  let r := mkReceiver (DataTracker_new 10) (Queue_new 100 90 TraditionalStreams_new) in
  ∃ k, received 7 sample_messages (λ _, false) l r
       = (λ i, mkMessage 7 (sent_ppid (sample_messages i)) (concat (sent_fragments (sample_messages i)))) <$> seq 0 k
    ∧ (k ≤ 3)%nat
    ∧ (∀ i j, (i < k)%nat → (j < fragment_count (sample_messages i))%nat → (i, j) ∈ l)
    ∧ ((k < 3)%nat → ∃ j, (j < fragment_count (sample_messages k))%nat ∧ (k, j) ∉ l).
Proof.
  apply (delivered_in_order 7 sample_messages 3 (λ _, false) 10 100 90
    [(1, 0); (2, 2); (0, 1); (2, 2); (0, 0); (1, 0); (2, 0)]%nat).
  - exact sample_messages_ok.
  - intros i i' Hi. destruct i as [|[|[|]]], i' as [|[|[|]]]; cbn; lia.
  - intros i Hi. destruct i as [|[|[|]]]; vm_compute; done || lia.
  - repeat constructor; cbn; lia.
  - vm_compute. repeat split; discriminate.
  - cbn. lia.
Defined.
