(* ===== verification/SendQueue.v ===== *)
(** * The interface of the send queue (includes/webrtc/net/dcsctp/tx/send_queue.h)

    What the retransmission queue and the outstanding data ask of the queue of messages that
    are still to be sent.  [Produce] and [Discard] are the two methods through which chunks
    leave it. *)

From S2P Require Import Prelude SctpTimer SctpWire Reassembly.
Open Scope Z_scope.

(** [MaxRetransmits::NoLimit()] and [LifecycleId::NotSet()] of public/types.h. *)
Definition NoLimit : Z := 2 ^ 16 - 1.
Definition NotSet : Z := 0.
Definition IsSet (lifecycle_id : Z) : bool := negb (lifecycle_id =? 0).

Record DataToSend := mkToSend {
  to_send_message_id : Z;
  to_send_data : Data;
  to_send_max_retransmissions : Z;
  to_send_expires_at : Z;
  to_send_lifecycle_id : Z
}.
#[export] Instance DataToSend_eta : Eta DataToSend := λ d,
  mkToSend (to_send_message_id d) (to_send_data d) (to_send_max_retransmissions d) (to_send_expires_at d) (to_send_lifecycle_id d).

Definition DataToSend_new (message_id : Z) (data : Data) : DataToSend :=
  mkToSend message_id data NoLimit PlusInfinity NotSet.

Class SendQueue (Q : Type) := {
  queue_Produce : Z → Z → M Q (option DataToSend);
  queue_Discard : Z → Z → Q → bool * Q
}.

(** The methods for resetting streams, which the retransmission queue passes on. *)
Class StreamResets (Q : Type) := {
  queue_PrepareResetStream : Z → Q → Q;
  queue_HasStreamsReadyToBeReset : Q → bool;
  queue_GetStreamsReadyToBeReset : Q → list Z * Q;
  queue_CommitResetStreams : Q → Q;
  queue_RollbackResetStreams : Q → Q
}.

(** What the retransmission queue relies on: a chunk that is produced carries data and fits. *)
Class SendQueueLaws (Q : Type) `{!SendQueue Q} := {
  queue_ok : Q → Prop;
  produce_ok now max_size q : queue_ok q → 0 < max_size → wp (queue_Produce now max_size) (λ r q', queue_ok q'
    ∧ ∀ chunk, r = Some chunk → 0 < data_size (to_send_data chunk) ≤ max_size) q;
  discard_ok sid id q : queue_ok q → queue_ok (queue_Discard sid id q).2
}.
