(* ===== verification/OutstandingData.v ===== *)
(** * dcsctp::OutstandingData (includes/webrtc/net/dcsctp/tx/outstanding_data.h, .cc)

    The chunks that were sent and are not yet acknowledged by the cumulative TSN: acking,
    nacking, retransmitting and abandoning them.  The deque [outstanding_data_] holds the
    chunk of TSN [last_cumulative_tsn_ack_ + 1 + i] at index [i].  TSNs are unwrapped.  The
    callback [discard_from_send_queue_] is the method [Discard] of a send queue, whose state is
    the field [send_queue_].  [size_t] has 64 bits.  A [std::set] of TSNs is a strictly
    increasing list. *)

From S2P Require Import Prelude SeqNum SctpTimer SctpWire Reassembly SendQueue.
Open Scope Z_scope.

Definition kNumberOfNacksForRetransmission : Z := 3.

(** ** std::set of TSNs *)

Fixpoint set_insert (tsn : Z) (s : list Z) : list Z :=
  match s with
  | [] => [tsn]
  | t :: s' => if tsn <? t then tsn :: s else if tsn =? t then s else t :: set_insert tsn s'
  end.
Definition set_erase (tsn : Z) (s : list Z) : list Z := filter (λ t, t ≠ tsn) s.
Definition set_insert_all (tsns s : list Z) : list Z := foldl (λ s t, set_insert t s) s tsns.
(** [erase(begin(), upper_bound(tsn))]. *)
Definition set_erase_to (tsn : Z) (s : list Z) : list Z := filter (λ t, tsn < t) s.

(** ** Item *)

Inductive NackAction := kNothing | kRetransmit | kAbandon.
Inductive Lifecycle := kActive | kToBeRetransmitted | kAbandoned.
Inductive ItemAckState := kUnacked | kAcked | kNacked.
#[export] Instance Lifecycle_eq_dec : EqDecision Lifecycle.
Proof. solve_decision. Defined.
#[export] Instance ItemAckState_eq_dec : EqDecision ItemAckState.
Proof. solve_decision. Defined.

Record Item := mkItem {
  message_id_ : Z;
  time_sent_ : Z;
  max_retransmissions_ : Z;
  lifecycle_ : Lifecycle;
  item_ack_state_ : ItemAckState;
  nack_count_ : Z;
  num_retransmissions_ : Z;
  expires_at_ : Z;
  lifecycle_id_ : Z;
  item_data_ : Data
}.
#[export] Instance Item_eta : Eta Item := λ i,
  mkItem (message_id_ i) (time_sent_ i) (max_retransmissions_ i) (lifecycle_ i) (item_ack_state_ i) (nack_count_ i)
    (num_retransmissions_ i) (expires_at_ i) (lifecycle_id_ i) (item_data_ i).

Definition Item_new (message_id : Z) (data : Data) (time_sent max_retransmissions expires_at lifecycle_id : Z) : Item :=
  mkItem message_id time_sent max_retransmissions kActive kUnacked 0 0 expires_at lifecycle_id data.

Definition is_outstanding (i : Item) : bool := bool_decide (item_ack_state_ i = kUnacked).
Definition is_acked (i : Item) : bool := bool_decide (item_ack_state_ i = kAcked).
Definition is_nacked (i : Item) : bool := bool_decide (item_ack_state_ i = kNacked).
Definition is_abandoned (i : Item) : bool := bool_decide (lifecycle_ i = kAbandoned).
Definition should_be_retransmitted (i : Item) : bool := bool_decide (lifecycle_ i = kToBeRetransmitted).
Definition has_been_retransmitted (i : Item) : bool := 0 <? num_retransmissions_ i.
Definition has_expired (now : Z) (i : Item) : bool := expires_at_ i <=? now.

Definition Item_Ack (i : Item) : Item :=
  (if decide (lifecycle_ i = kAbandoned) then i else i <| lifecycle_ := kActive |>) <| item_ack_state_ := kAcked |>.

Definition Abandon (i : Item) : Item := i <| lifecycle_ := kAbandoned |>.

Definition Item_Nack (retransmit_now : bool) (i : Item) : NackAction * Item :=
  let i := i <| item_ack_state_ := kNacked |> <| nack_count_ := wrap 8 (nack_count_ i + 1) |> in
  if negb (should_be_retransmitted i) && negb (is_abandoned i) &&
     (retransmit_now || (kNumberOfNacksForRetransmission <=? nack_count_ i))
  then
    if num_retransmissions_ i <? max_retransmissions_ i
    then (kRetransmit, i <| lifecycle_ := kToBeRetransmitted |>)
    else (kAbandon, Abandon i)
  else (kNothing, i).

Definition MarkAsRetransmitted (i : Item) : Item :=
  i <| lifecycle_ := kActive |> <| item_ack_state_ := kUnacked |> <| nack_count_ := 0 |>
    <| num_retransmissions_ := wrap 16 (num_retransmissions_ i + 1) |>.

(** ** State *)

Record OutstandingData (Q : Type) := mkOutstanding {
  data_chunk_header_size_ : Z;
  last_cumulative_tsn_ack_ : Z;
  send_queue_ : Q;
  outstanding_data_ : list Item;
  unacked_bytes_ : Z;
  unacked_items_ : Z;
  to_be_fast_retransmitted_ : list Z;
  to_be_retransmitted_ : list Z;
  stream_reset_breakpoint_tsns_ : list Z
}.
Arguments mkOutstanding {Q}.
Arguments data_chunk_header_size_ {Q}.
Arguments last_cumulative_tsn_ack_ {Q}.
Arguments send_queue_ {Q}.
Arguments outstanding_data_ {Q}.
Arguments unacked_bytes_ {Q}.
Arguments unacked_items_ {Q}.
Arguments to_be_fast_retransmitted_ {Q}.
Arguments to_be_retransmitted_ {Q}.
Arguments stream_reset_breakpoint_tsns_ {Q}.
#[export] Instance OutstandingData_eta Q : Eta (OutstandingData Q) := λ d,
  mkOutstanding (data_chunk_header_size_ d) (last_cumulative_tsn_ack_ d) (send_queue_ d) (outstanding_data_ d)
    (unacked_bytes_ d) (unacked_items_ d) (to_be_fast_retransmitted_ d) (to_be_retransmitted_ d) (stream_reset_breakpoint_tsns_ d).

Record AckInfo := mkAckInfo {
  bytes_acked : Z;
  has_packet_loss : bool;
  highest_tsn_acked : Z;
  acked_lifecycle_ids : list Z;
  abandoned_lifecycle_ids : list Z
}.
#[export] Instance AckInfo_eta : Eta AckInfo := λ a,
  mkAckInfo (bytes_acked a) (has_packet_loss a) (highest_tsn_acked a) (acked_lifecycle_ids a) (abandoned_lifecycle_ids a).
Definition AckInfo_new (cumulative_tsn_ack : Z) : AckInfo := mkAckInfo 0 false cumulative_tsn_ack [] [].

(** ** Operations *)

Section Operations.
Context {Q : Type} `{!SendQueue Q}.
Implicit Types d : OutstandingData Q.

Definition OutstandingData_new (data_chunk_header_size last_cumulative_tsn_ack : Z) (q : Q) : OutstandingData Q :=
  mkOutstanding data_chunk_header_size last_cumulative_tsn_ack q [] 0 0 [] [] [].

Definition GetSerializedChunkSize d (data : Data) : Z :=
  RoundUpTo4 (data_chunk_header_size_ d + data_size data).

Definition highest_outstanding_tsn d : Z := AddTo (last_cumulative_tsn_ack_ d) (Z.of_nat (length (outstanding_data_ d))).
Definition next_tsn d : Z := next_value (highest_outstanding_tsn d).
Definition od_empty d : bool := match outstanding_data_ d with [] => true | _ => false end.
Definition has_data_to_be_fast_retransmitted d : bool := match to_be_fast_retransmitted_ d with [] => false | _ => true end.
Definition has_data_to_be_retransmitted d : bool :=
  match to_be_retransmitted_ d, to_be_fast_retransmitted_ d with [], [] => false | _, _ => true end.

(** The loop of [IsConsistent]: bytes, items and TSNs from [tsn] on. *)
Fixpoint consistent_loop d (tsn : Z) (items : list Item) : Z * Z * list Z :=
  match items with
  | [] => (0, 0, [])
  | item :: rest =>
    let tsn := next_value tsn in
    let '(bytes, count, tsns) := consistent_loop d tsn rest in
    (if is_outstanding item then wrap 64 (GetSerializedChunkSize d (item_data_ item) + bytes) else bytes,
     if is_outstanding item then wrap 64 (1 + count) else count,
     if should_be_retransmitted item then tsn :: tsns else tsns)
  end.
Definition IsConsistent d : bool :=
  let '(bytes, count, tsns) := consistent_loop d (last_cumulative_tsn_ack_ d) (outstanding_data_ d) in
  (bytes =? unacked_bytes_ d) && (count =? unacked_items_ d) &&
  bool_decide (tsns = set_insert_all (to_be_fast_retransmitted_ d) (set_insert_all (to_be_retransmitted_ d) [])).

(** [GetItem]: the index is an [int]; outside the deque it is undefined. *)
Definition item_index (tsn : Z) d : Z :=
  let index := wrap 32 (Difference 32 tsn (last_cumulative_tsn_ack_ d) - 1) in
  if index <? 2 ^ 31 then index else index - 2 ^ 32.
Definition GetItem (tsn : Z) : M (OutstandingData Q) Item :=
  let! index := gets (item_index tsn) in
  let! items := gets outstanding_data_ in
  in_bounds (if index <? 0 then None else items !! Z.to_nat index).
(** What is assigned to the item that the reference [GetItem(tsn)] names. *)
Definition set_item (tsn : Z) (item : Item) d : OutstandingData Q :=
  d <| outstanding_data_ ::= <[Z.to_nat (item_index tsn d) := item]> |>.

Definition remove_in_flight (size : Z) d : OutstandingData Q :=
  d <| unacked_bytes_ := wrap 64 (unacked_bytes_ d - size) |> <| unacked_items_ := wrap 64 (unacked_items_ d - 1) |>.
Definition add_in_flight (size : Z) d : OutstandingData Q :=
  d <| unacked_bytes_ := wrap 64 (unacked_bytes_ d + size) |> <| unacked_items_ := wrap 64 (unacked_items_ d + 1) |>.

Definition AckChunk (ack_info : AckInfo) (tsn : Z) (item : Item) d : AckInfo * OutstandingData Q :=
  if negb (is_acked item) then
    let serialized_size := GetSerializedChunkSize d (item_data_ item) in
    let d1 := if is_outstanding item then remove_in_flight serialized_size d else d in
    let d2 := if should_be_retransmitted item then d1 <| to_be_retransmitted_ ::= set_erase tsn |> else d1 in
    (ack_info <| bytes_acked := wrap 64 (bytes_acked ack_info + serialized_size) |>
              <| highest_tsn_acked ::= Z.max tsn |>,
     set_item tsn (Item_Ack item) d2)
  else (ack_info, d).

Definition note_lifecycle (item : Item) (ack_info : AckInfo) : AckInfo :=
  if IsSet (lifecycle_id_ item) then
    if is_abandoned item
    then ack_info <| abandoned_lifecycle_ids := abandoned_lifecycle_ids ack_info ++ [lifecycle_id_ item] |>
    else ack_info <| acked_lifecycle_ids := acked_lifecycle_ids ack_info ++ [lifecycle_id_ item] |>
  else ack_info.

(** Each round pops an item, so that as many rounds as there are items suffice. *)
Fixpoint remove_loop (fuel : nat) (cumulative_tsn_ack : Z) (ack_info : AckInfo) d : AckInfo * OutstandingData Q :=
  match fuel, outstanding_data_ d with
  | S n, item :: _ =>
    if last_cumulative_tsn_ack_ d <? cumulative_tsn_ack then
      let '(info, d1) := AckChunk ack_info (next_value (last_cumulative_tsn_ack_ d)) item d in
      remove_loop n cumulative_tsn_ack (note_lifecycle item info)
        (d1 <| outstanding_data_ ::= tail |> <| last_cumulative_tsn_ack_ ::= next_value |>)
    else (ack_info, d)
  | _, _ => (ack_info, d)
  end.
Definition RemoveAcked (cumulative_tsn_ack : Z) (ack_info : AckInfo) d : AckInfo * OutstandingData Q :=
  let '(info, d1) := remove_loop (length (outstanding_data_ d)) cumulative_tsn_ack ack_info d in
  (info, d1 <| stream_reset_breakpoint_tsns_ ::= set_erase_to (next_value cumulative_tsn_ack) |>).

(** The TSNs from [first] to [last], both included. *)
Definition tsn_range (first last : Z) : list Z := seqZ first (last - first + 1).

Definition ack_tsn (ack_info : AckInfo) (tsn : Z) : M (OutstandingData Q) AckInfo :=
  let! d := get in
  if (last_cumulative_tsn_ack_ d <? tsn) && (tsn <? next_tsn d) then
    let! item := GetItem tsn in
    let '(info, d') := AckChunk ack_info tsn item d in
    modify (λ _, d') ;; ret info
  else ret ack_info.
Definition AckGapBlocks (cumulative_tsn_ack : Z) (gap_ack_blocks : list GapAckBlock) (ack_info : AckInfo)
    : M (OutstandingData Q) AckInfo :=
  fold_m (λ info block, fold_m ack_tsn
    (tsn_range (AddTo cumulative_tsn_ack (gap_start block)) (AddTo cumulative_tsn_ack (gap_end block))) info)
    gap_ack_blocks ack_info.

Fixpoint abandon_loop (stream message tsn : Z) (items : list Item) (fast rtx : list Z) : list Item * list Z * list Z :=
  match items with
  | [] => ([], fast, rtx)
  | other :: rest =>
    let tsn := next_value tsn in
    if negb (is_abandoned other) && (stream_id (item_data_ other) =? stream) && (message_id_ other =? message) then
      let erase := λ s, if should_be_retransmitted other then set_erase tsn s else s in
      let '(rest', fast', rtx') := abandon_loop stream message tsn rest (erase fast) (erase rtx) in
      (Abandon other :: rest', fast', rtx')
    else
      let '(rest', fast', rtx') := abandon_loop stream message tsn rest fast rtx in (other :: rest', fast', rtx')
  end.

(** The end of a message that will never be sent, added as if it had been acked. *)
Definition message_end (item : Item) : Item :=
  let data := item_data_ item in
  Item_Ack (Item_new (message_id_ item)
    (mkData (stream_id data) (ssn data) (mid data) (fsn data) (ppid data) [] false true (is_unordered data)) 0 0 PlusInfinity NotSet).

Definition AbandonAllFor (item : Item) d : OutstandingData Q :=
  let '(discarded, q) := queue_Discard (stream_id (item_data_ item)) (message_id_ item) (send_queue_ d) in
  let d1 := d <| send_queue_ := q |> in
  let d2 := if discarded then d1 <| outstanding_data_ := outstanding_data_ d ++ [message_end item] |> else d1 in
  let '(items, fast, rtx) := abandon_loop (stream_id (item_data_ item)) (message_id_ item) (last_cumulative_tsn_ack_ d)
    (outstanding_data_ d2) (to_be_fast_retransmitted_ d) (to_be_retransmitted_ d) in
  d2 <| outstanding_data_ := items |> <| to_be_fast_retransmitted_ := fast |> <| to_be_retransmitted_ := rtx |>.

Definition NackItem (retransmit_now do_fast_retransmit : bool) (tsn : Z) : M (OutstandingData Q) bool :=
  let! item := GetItem tsn in
  let! d := get in
  when (is_outstanding item) (modify (remove_in_flight (GetSerializedChunkSize d (item_data_ item)))) ;;
  let '(action, item) := Item_Nack retransmit_now item in
  modify (set_item tsn item) ;;
  match action with
  | kNothing => ret false
  | kRetransmit =>
    modify (λ d, if do_fast_retransmit then d <| to_be_fast_retransmitted_ ::= set_insert tsn |>
                 else d <| to_be_retransmitted_ ::= set_insert tsn |>) ;; ret true
  | kAbandon => modify (AbandonAllFor item) ;; ret true
  end.

Definition nack_all_of (do_fast_retransmit : bool) (tsns : list Z) (ack_info : AckInfo) : M (OutstandingData Q) AckInfo :=
  fold_m (λ info tsn,
    let! loss := NackItem false do_fast_retransmit tsn in
    ret (info <| has_packet_loss := has_packet_loss info || loss |>)) tsns ack_info.

Definition last_block_end (gap_ack_blocks : list GapAckBlock) : Z :=
  match list.last gap_ack_blocks with Some block => gap_end block | None => 0 end.

(** One round of the loop over the blocks; the last acked TSN of the block before is threaded. *)
Definition nack_before (cumulative_tsn_ack max_tsn_to_nack : Z) (do_fast_retransmit : bool)
    (s : Z * AckInfo) (block : GapAckBlock) : M (OutstandingData Q) (Z * AckInfo) :=
  let '(prev_block_last_acked, ack_info) := s in
  let cur_block_first_acked := AddTo cumulative_tsn_ack (gap_start block) in
  let! info := nack_all_of do_fast_retransmit
    (tsn_range (next_value prev_block_last_acked) (Z.min (cur_block_first_acked - 1) max_tsn_to_nack)) ack_info in
  ret (AddTo cumulative_tsn_ack (gap_end block), info).

Definition NackBetweenAckBlocks (cumulative_tsn_ack : Z) (gap_ack_blocks : list GapAckBlock) (is_in_fast_recovery : bool)
    (ack_info : AckInfo) : M (OutstandingData Q) AckInfo :=
  let! d := get in
  let max_tsn_to_nack :=
    if is_in_fast_recovery && (last_cumulative_tsn_ack_ d <? cumulative_tsn_ack)
    then AddTo cumulative_tsn_ack (last_block_end gap_ack_blocks)
    else highest_tsn_acked ack_info in
  let! s := fold_m (nack_before cumulative_tsn_ack max_tsn_to_nack (negb is_in_fast_recovery)) gap_ack_blocks
    (cumulative_tsn_ack, ack_info) in
  ret s.2.

Definition HandleSack (cumulative_tsn_ack : Z) (gap_ack_blocks : list GapAckBlock) (is_in_fast_recovery : bool)
    : M (OutstandingData Q) AckInfo :=
  let! d := get in
  let '(info, d1) := RemoveAcked cumulative_tsn_ack (AckInfo_new cumulative_tsn_ack) d in
  modify (λ _, d1) ;;
  let! info := AckGapBlocks cumulative_tsn_ack gap_ack_blocks info in
  NackBetweenAckBlocks cumulative_tsn_ack gap_ack_blocks is_in_fast_recovery info.

(** The chunks taken, and the TSNs that stay in the set. *)
Fixpoint extract_loop (chunks : list Z) (max_size : Z) : M (OutstandingData Q) (list (Z * Data) * list Z) :=
  match chunks with
  | [] => ret ([], [])
  | tsn :: rest =>
    let! item := GetItem tsn in
    let! d := get in
    let serialized_size := GetSerializedChunkSize d (item_data_ item) in
    let fits := serialized_size <=? max_size in
    let left := if fits then max_size - serialized_size else max_size in
    when fits (modify (λ d, add_in_flight serialized_size (set_item tsn (MarkAsRetransmitted item) d))) ;;
    let! r := if left <=? data_chunk_header_size_ d then ret ([], rest) else extract_loop rest left in
    ret (if fits then ((Wrap 32 tsn, item_data_ item) :: r.1, r.2) else (r.1, tsn :: r.2))
  end.

Definition GetChunksToBeFastRetransmitted (max_size : Z) : M (OutstandingData Q) (list (Z * Data)) :=
  let! chunks := gets to_be_fast_retransmitted_ in
  let! r := extract_loop chunks max_size in
  modify (λ d, d <| to_be_retransmitted_ ::= set_insert_all r.2 |> <| to_be_fast_retransmitted_ := [] |>) ;;
  ret r.1.
Definition GetChunksToBeRetransmitted (max_size : Z) : M (OutstandingData Q) (list (Z * Data)) :=
  let! chunks := gets to_be_retransmitted_ in
  let! r := extract_loop chunks max_size in
  modify (λ d, d <| to_be_retransmitted_ := r.2 |>) ;;
  ret r.1.

(** The range-for of [ExpireOutstandingChunks].  Appending to a deque invalidates its
    iterators, also the one the loop goes on with. *)
Fixpoint expire_loop (now : Z) (todo index : nat) : M (OutstandingData Q) unit :=
  match todo with
  | O => ret tt
  | S n =>
    let! items := gets outstanding_data_ in
    let! item := in_bounds (items !! index) in
    if is_abandoned item then expire_loop now n (S index)
    else if is_nacked item && has_expired now item then
      modify (AbandonAllFor item) ;;
      let! items' := gets outstanding_data_ in
      if (length items' =? length items)%nat then expire_loop now n (S index) else undef IterInvalid
    else ret tt
  end.
Definition ExpireOutstandingChunks (now : Z) : M (OutstandingData Q) unit :=
  let! d := get in expire_loop now (length (outstanding_data_ d)) 0.

Definition Insert (message_id : Z) (data : Data) (time_sent max_retransmissions expires_at lifecycle_id : Z) d
    : option Z * OutstandingData Q :=
  let item := Item_new message_id data time_sent max_retransmissions expires_at lifecycle_id in
  let d1 := add_in_flight (GetSerializedChunkSize d data) d <| outstanding_data_ := outstanding_data_ d ++ [item] |> in
  if has_expired time_sent item then (None, AbandonAllFor item d1) else (Some (next_tsn d), d1).

(** The first pass: the TSNs of the items that are not acked. *)
Fixpoint tsns_to_nack (tsn : Z) (items : list Item) : list Z :=
  match items with
  | [] => []
  | item :: rest =>
    let tsn := next_value tsn in
    if is_acked item then tsns_to_nack tsn rest else tsn :: tsns_to_nack tsn rest
  end.
Definition NackAll : M (OutstandingData Q) unit :=
  let! d := get in
  for_each (λ tsn, NackItem true false tsn ;; ret tt) (tsns_to_nack (last_cumulative_tsn_ack_ d) (outstanding_data_ d)).

Definition MeasureRTT (now tsn : Z) : M (OutstandingData Q) Z :=
  let! d := get in
  if (last_cumulative_tsn_ack_ d <? tsn) && (tsn <? next_tsn d) then
    let! item := GetItem tsn in
    ret (if has_been_retransmitted item then PlusInfinity else now - time_sent_ item)
  else ret PlusInfinity.

Definition ShouldSendForwardTsn d : bool :=
  match outstanding_data_ d with item :: _ => is_abandoned item | [] => false end.

(** The loop of [CreateForwardTsn] and of [CreateIForwardTsn]: the abandoned chunks to skip,
    in order, and the new cumulative TSN. *)
Fixpoint skip_loop d (tsn new_cumulative_ack : Z) (items : list Item) : Z * list Item :=
  match items with
  | [] => (new_cumulative_ack, [])
  | item :: rest =>
    let tsn := next_value tsn in
    if bool_decide (tsn ∈ stream_reset_breakpoint_tsns_ d) || negb (tsn =? next_value new_cumulative_ack) || negb (is_abandoned item)
    then (new_cumulative_ack, [])
    else let '(cum, skipped) := skip_loop d tsn tsn rest in (cum, item :: skipped)
  end.
Definition raise_to (key n : Z) (m : cmap Z) : cmap Z := (map_update key 0 (λ v, (tt, if v <? n then n else v)) m).2.
Definition skip_ssn (m : cmap Z) (item : Item) : cmap Z :=
  if is_unordered (item_data_ item) then m else raise_to (stream_id (item_data_ item)) (ssn (item_data_ item)) m.
Definition CreateForwardTsn d : AnyForwardTsnChunk :=
  let '(cum, skipped) := skip_loop d (last_cumulative_tsn_ack_ d) (last_cumulative_tsn_ack_ d) (outstanding_data_ d) in
  mkForward (Wrap 32 cum) ((λ p, mkSkipped p.1 p.2 false 0) <$> (foldl skip_ssn [] skipped : list (Z * Z))).

(** The pair of the unordered flag and the 16-bit stream, in the order of the pairs. *)
Definition skip_key (data : Data) : Z := Z.shiftl (Z.b2z (is_unordered data)) 16 + stream_id data.
Definition skip_mid (m : cmap Z) (item : Item) : cmap Z := raise_to (skip_key (item_data_ item)) (mid (item_data_ item)) m.
Definition CreateIForwardTsn d : AnyForwardTsnChunk :=
  let '(cum, skipped) := skip_loop d (last_cumulative_tsn_ack_ d) (last_cumulative_tsn_ack_ d) (outstanding_data_ d) in
  mkForward (Wrap 32 cum)
    ((λ p, mkSkipped (wrap 16 p.1) 0 (negb (Z.shiftr p.1 16 =? 0)) p.2) <$> (foldl skip_mid [] skipped : list (Z * Z))).

Definition ResetSequenceNumbers (last_cumulative_tsn : Z) d : OutstandingData Q := d <| last_cumulative_tsn_ack_ := last_cumulative_tsn |>.
Definition BeginResetStreams d : OutstandingData Q := d <| stream_reset_breakpoint_tsns_ ::= set_insert (next_tsn d) |>.

(** What the tests see of a chunk. *)
Inductive State := InFlight | Nacked | ToBeRetransmitted | Acked | Abandoned.
Definition item_state (item : Item) : State :=
  if is_abandoned item then Abandoned else if should_be_retransmitted item then ToBeRetransmitted
  else if is_acked item then Acked else if is_outstanding item then InFlight else Nacked.
Definition GetChunkStatesForTesting d : list (Z * State) :=
  (Wrap 32 (last_cumulative_tsn_ack_ d), Acked)
    :: imap (λ i item, (Wrap 32 (last_cumulative_tsn_ack_ d + 1 + Z.of_nat i), item_state item)) (outstanding_data_ d).
End Operations.

(** ** Sets of TSNs *)

Abbreviation increasing := (StronglySorted Z.lt).

Lemma elem_of_set_insert tsn t s : t ∈ set_insert tsn s ↔ t = tsn ∨ t ∈ s.
Proof.
  induction s as [|u s IH]; cbn [set_insert]; [by rewrite elem_of_cons|].
  destruct (Z.ltb_spec tsn u); [by rewrite elem_of_cons|]. destruct (Z.eqb_spec tsn u) as [->|].
  - rewrite elem_of_cons. tauto.
  - rewrite !elem_of_cons, IH. tauto.
Qed.

Lemma set_insert_increasing tsn s : increasing s → increasing (set_insert tsn s).
Proof.
  induction 1 as [|u s Hs IH Hu]; cbn [set_insert]; [by repeat constructor|].
  destruct (Z.ltb_spec tsn u) as [Hlt|Hge].
  { constructor; [by constructor|]. constructor; [done|]. eapply Forall_impl; [exact Hu|]. cbn. lia. }
  destruct (Z.eqb_spec tsn u); [by constructor|]. constructor; [done|]. apply Forall_forall. intros t Ht.
  apply elem_of_set_insert in Ht as [->|Ht]; [lia|]. by eapply Forall_forall in Hu.
Qed.

Lemma elem_of_set_insert_all tsns s t : t ∈ set_insert_all tsns s ↔ t ∈ tsns ∨ t ∈ s.
Proof.
  unfold set_insert_all. revert s. induction tsns as [|u tsns IH]; intros s; cbn [foldl]; [rewrite elem_of_nil; tauto|].
  rewrite IH, elem_of_set_insert, elem_of_cons. tauto.
Qed.

Lemma set_insert_all_increasing tsns s : increasing s → increasing (set_insert_all tsns s).
Proof.
  unfold set_insert_all. revert s. induction tsns as [|u tsns IH]; intros s Hs; cbn [foldl]; [done|].
  by apply IH, set_insert_increasing.
Qed.

Lemma filter_increasing (P : Z → Prop) `{!∀ x, Decision (P x)} s : increasing s → increasing (filter P s).
Proof.
  induction 1 as [|u s Hs IH Hu]; [constructor|]. rewrite filter_cons. destruct (decide (P u)); [|done].
  constructor; [done|]. apply Forall_forall. intros t Ht. apply list_elem_of_filter in Ht as [_ Ht]. by eapply Forall_forall in Hu.
Qed.

Lemma elem_of_set_erase tsn t s : t ∈ set_erase tsn s ↔ t ≠ tsn ∧ t ∈ s.
Proof. unfold set_erase. by rewrite list_elem_of_filter. Qed.

Lemma increasing_ext s s' : increasing s → increasing s' → (∀ t, t ∈ s ↔ t ∈ s') → s = s'.
Proof.
  intros Hs. revert s'. induction Hs as [|u s Hs IH Hu]; intros s' Hs' Heq.
  { destruct s' as [|v s']; [done|]. specialize (Heq v). rewrite elem_of_nil, elem_of_cons in Heq. tauto. }
  destruct Hs' as [|v s' Hs' Hv]; [specialize (Heq u); rewrite elem_of_nil, elem_of_cons in Heq; tauto|].
  rewrite !Forall_forall in *. assert (u = v) as ->.
  { assert (u ∈ v :: s') as [|]%elem_of_cons by (apply Heq; left); [done|].
    assert (v ∈ u :: s) as [|]%elem_of_cons by (apply Heq; left); [done|].
    pose proof (Hu v ltac:(done)). pose proof (Hv u ltac:(done)). lia. }
  f_equal. apply IH; [done|]. intros t. specialize (Heq t). rewrite !elem_of_cons in Heq. split; intros Ht.
  - destruct (proj1 Heq (or_intror Ht)) as [->|]; [|done]. specialize (Hu v Ht). lia.
  - destruct (proj2 Heq (or_intror Ht)) as [->|]; [|done]. specialize (Hv v Ht). lia.
Qed.

Create HintDb outstanding.
#[export] Hint Resolve set_insert_increasing set_insert_all_increasing filter_increasing : outstanding.

(** ** Sums over the items *)

Fixpoint total_of {A} (f : A → Z) (l : list A) : Z := match l with [] => 0 | a :: l' => f a + total_of f l' end.

Lemma total_of_app {A} (f : A → Z) l k : total_of f (l ++ k) = total_of f l + total_of f k.
Proof. induction l as [|a l IH]; cbn; lia. Qed.

Lemma total_of_insert {A} (f : A → Z) l k a b : l !! k = Some a → total_of f (<[k:=b]> l) = total_of f l - f a + f b.
Proof.
  revert k. induction l as [|c l IH]; intros [|k]; cbn; [done..| |]; [intros [= ->]; lia|].
  intros Hk. transitivity (f c + (total_of f l - f a + f b)); [f_equal; exact (IH k Hk) | lia].
Qed.

Lemma total_of_fmap {A} (f : A → Z) (g : A → A) l : (∀ a, f (g a) = f a) → total_of f (g <$> l) = total_of f l.
Proof. intros Hg. induction l as [|a l IH]; cbn; [done|]. by rewrite Hg, IH. Qed.

Lemma total_of_le {A} (f : A → Z) (g : A → A) l : (∀ a, f (g a) ≤ f a) → total_of f (g <$> l) ≤ total_of f l.
Proof. intros Hg. induction l as [|a l IH]; cbn; [done|]. specialize (Hg a). lia. Qed.

Lemma total_of_nonneg {A} (f : A → Z) l : (∀ a, 0 ≤ f a) → 0 ≤ total_of f l.
Proof. intros Hf. induction l as [|a l IH]; cbn; [done|]. specialize (Hf a). lia. Qed.

(** ** The chunk of a TSN *)

Definition look (last : Z) (items : list Item) (tsn : Z) : option Item :=
  if last <? tsn then items !! Z.to_nat (tsn - last - 1) else None.

Lemma look_cons last item items tsn :
  look last (item :: items) tsn = if tsn =? last + 1 then Some item else look (last + 1) items tsn.
Proof.
  unfold look. destruct (Z.eqb_spec tsn (last + 1)) as [->|Hne].
  { rewrite (proj2 (Z.ltb_lt _ _)) by lia. by replace (last + 1 - last - 1) with 0 by lia. }
  destruct (Z.ltb_spec last tsn), (Z.ltb_spec (last + 1) tsn); try done; try lia.
  by replace (Z.to_nat (tsn - last - 1)) with (S (Z.to_nat (tsn - (last + 1) - 1))) by lia.
Qed.

Lemma look_Some last items tsn item : look last items tsn = Some item →
  last < tsn ≤ last + Z.of_nat (length items) ∧ items !! Z.to_nat (tsn - last - 1) = Some item.
Proof.
  unfold look. destruct (Z.ltb_spec last tsn); [|done]. intros Hl. split; [|done]. apply lookup_lt_Some in Hl. lia.
Qed.

Lemma look_is_Some last items tsn : last < tsn ≤ last + Z.of_nat (length items) → ∃ item, look last items tsn = Some item.
Proof.
  intros H. unfold look. rewrite (proj2 (Z.ltb_lt _ _)) by lia. apply lookup_lt_is_Some_2. lia.
Qed.

Lemma look_insert last items tsn item item' t : look last items tsn = Some item →
  look last (<[Z.to_nat (tsn - last - 1) := item']> items) t = if t =? tsn then Some item' else look last items t.
Proof.
  intros Hl. pose proof (look_Some _ _ _ _ Hl) as [? Hk]. unfold look. destruct (Z.eqb_spec t tsn) as [->|Hne].
  { rewrite (proj2 (Z.ltb_lt _ _)) by lia. apply list_lookup_insert_eq. by eapply lookup_lt_Some. }
  destruct (Z.ltb_spec last t); [|done]. apply list_lookup_insert_ne. lia.
Qed.

Lemma look_app last items more t :
  look last (items ++ more) t = if last + Z.of_nat (length items) <? t then look (last + Z.of_nat (length items)) more t else look last items t.
Proof.
  unfold look. destruct (Z.ltb_spec (last + Z.of_nat (length items)) t).
  - rewrite (proj2 (Z.ltb_lt last t)) by lia. rewrite lookup_app_r by lia. f_equal. lia.
  - destruct (Z.ltb_spec last t); [|done]. apply lookup_app_l. lia.
Qed.

Lemma look_fmap last items f t : look last (f <$> items) t = f <$> look last items t.
Proof. unfold look. destruct (last <? t); [apply list_lookup_fmap | done]. Qed.

(** ** The invariant *)

Section Invariant.
Context {Q : Type} `{!SendQueue Q}.
Implicit Types d : OutstandingData Q.

Definition chunk_at d (tsn : Z) : option Item := look (last_cumulative_tsn_ack_ d) (outstanding_data_ d) tsn.
Definition chunk_size (header : Z) (item : Item) : Z := RoundUpTo4 (header + data_size (item_data_ item)).
Definition flight_bytes (header : Z) (item : Item) : Z := if is_outstanding item then chunk_size header item else 0.
Definition flight_items (item : Item) : Z := if is_outstanding item then 1 else 0.

(** What the object promises between two calls: the counters are those of the chunks in
    flight, the two sets together hold the TSNs to be retransmitted, and those chunks are
    known to be missing. *)
Record od_wf d : Prop := mkWf {
  wf_bytes : unacked_bytes_ d = wrap 64 (total_of (flight_bytes (data_chunk_header_size_ d)) (outstanding_data_ d));
  wf_items : unacked_items_ d = wrap 64 (total_of flight_items (outstanding_data_ d));
  wf_fast : increasing (to_be_fast_retransmitted_ d);
  wf_rtx : increasing (to_be_retransmitted_ d);
  wf_disjoint : ∀ tsn, tsn ∈ to_be_fast_retransmitted_ d → tsn ∉ to_be_retransmitted_ d;
  wf_sets : ∀ tsn, tsn ∈ to_be_fast_retransmitted_ d ∨ tsn ∈ to_be_retransmitted_ d
    ↔ ∃ item, chunk_at d tsn = Some item ∧ should_be_retransmitted item = true;
  wf_nacked : ∀ tsn item, chunk_at d tsn = Some item → should_be_retransmitted item = true → is_nacked item = true
}.

(** Abandoning a message may append its end, once: the deque outgrows neither this measure
    nor the index type. *)
Definition room_of (item : Item) : Z := if is_abandoned item then 1 else 2.
Definition room d : Z := total_of room_of (outstanding_data_ d).

Lemma room_length d : Z.of_nat (length (outstanding_data_ d)) ≤ room d.
Proof using Type.
  unfold room. induction (outstanding_data_ d) as [|i l IH]; cbn [total_of length]; [done|].
  assert (1 ≤ room_of i) by (unfold room_of; destruct (is_abandoned i); lia). lia.
Qed.

Lemma item_index_exact d tsn i : room d < 2 ^ 31 → chunk_at d tsn = Some i →
  item_index tsn d = tsn - last_cumulative_tsn_ack_ d - 1 ∧ 0 ≤ item_index tsn d.
Proof using Type.
  intros Hr [? _]%look_Some. pose proof (room_length d). unfold item_index, Difference.
  rewrite (proj2 (Z.ltb_lt (last_cumulative_tsn_ack_ d) tsn)) by lia.
  rewrite (wrap_small 32 (tsn - last_cumulative_tsn_ack_ d)) by (unfold uint; lia). cbv zeta.
  rewrite wrap_small by (unfold uint; lia). destruct (Z.ltb_spec (tsn - last_cumulative_tsn_ack_ d - 1) (2 ^ 31)); lia.
Qed.

Lemma GetItem_found d tsn i : room d < 2 ^ 31 → chunk_at d tsn = Some i → GetItem tsn d = Ret i d.
Proof using Type.
  intros Hr Hi. destruct (item_index_exact d tsn i Hr Hi) as [E H0']. unfold GetItem. cbn [bind gets].
  destruct (Z.ltb_spec (item_index tsn d) 0); [lia|]. rewrite E. apply look_Some in Hi as [_ ->]. done.
Qed.

Lemma set_item_exact d tsn i j : room d < 2 ^ 31 → chunk_at d tsn = Some i →
  set_item tsn j d = d <| outstanding_data_ := <[Z.to_nat (tsn - last_cumulative_tsn_ack_ d - 1) := j]> (outstanding_data_ d) |>.
Proof using Type. intros Hr Hi. unfold set_item. by rewrite (proj1 (item_index_exact d tsn i Hr Hi)). Qed.

Lemma wrap_sub_add w a b c : 0 ≤ w → wrap w (wrap w a - b + c) = wrap w (a - b + c).
Proof using Type.
  intros. unfold wrap. replace (a mod 2 ^ w - b + c) with (a mod 2 ^ w + (c - b)) by lia.
  rewrite Z.add_mod_idemp_l by (pose proof (Z.pow_pos_nonneg 2 w); lia). f_equal. lia.
Qed.

(** One item changes, and with it the counters and its membership of the sets. *)
Lemma wf_update d tsn i j ub ui fast rtx :
  od_wf d → chunk_at d tsn = Some i → (should_be_retransmitted j = true → is_nacked j = true) →
  ub = wrap 64 (unacked_bytes_ d - flight_bytes (data_chunk_header_size_ d) i + flight_bytes (data_chunk_header_size_ d) j) →
  ui = wrap 64 (unacked_items_ d - flight_items i + flight_items j) → increasing fast → increasing rtx → (∀ t, t ∈ fast → t ∉ rtx) →
  (∀ t, t ∈ fast ∨ t ∈ rtx ↔ if t =? tsn then should_be_retransmitted j = true
                             else t ∈ to_be_fast_retransmitted_ d ∨ t ∈ to_be_retransmitted_ d) →
  od_wf (mkOutstanding (data_chunk_header_size_ d) (last_cumulative_tsn_ack_ d) (send_queue_ d)
    (<[Z.to_nat (tsn - last_cumulative_tsn_ack_ d - 1) := j]> (outstanding_data_ d)) ub ui fast rtx (stream_reset_breakpoint_tsns_ d)).
Proof using Type.
  intros [Hb Hi _ _ _ Hs Hn] Hc Hj -> -> Hf Hr Hdj Hm. pose proof (look_Some _ _ _ _ Hc) as [_ Hk]. split; cbn; try done.
  - by rewrite (total_of_insert _ _ _ i), Hb, wrap_sub_add by done.
  - by rewrite (total_of_insert _ _ _ i), Hi, wrap_sub_add by done.
  - intros t. rewrite Hm. unfold chunk_at. cbn. rewrite (look_insert _ _ _ i) by done. destruct (t =? tsn); [|apply Hs].
    split; [by eexists | intros (? & [= <-] & ?); done].
  - intros t k. unfold chunk_at. cbn. rewrite (look_insert _ _ _ i) by done.
    destruct (t =? tsn); [intros [= <-]; done | apply Hn].
Qed.

(** A call keeps the chunks it does not remove: their data, whether they are abandoned and,
    but for the TSNs it [touched], whether they are acked.  What it adds is abandoned. *)
Definition same_chunk (i j : Item) : Prop :=
  item_data_ j = item_data_ i ∧ message_id_ j = message_id_ i ∧ (is_abandoned i = true → is_abandoned j = true).
(** It is scheduled to be sent again, or will never be. *)
Definition settled (i : Item) : bool := should_be_retransmitted i || is_abandoned i.
Definition untouched (i j : Item) : Prop := item_ack_state_ j = item_ack_state_ i ∧ (settled i = true → settled j = true).
(** What it takes from the send queue are messages that it gives up. *)
Definition discards_from : Q → Q → Prop := rtc (λ q q', ∃ sid id, q' = (queue_Discard sid id q).2).
Definition has_abandoned d : Prop := ∃ t i, chunk_at d t = Some i ∧ is_abandoned i = true.
Record od_frame (touched : Z → Prop) d d' : Prop := mkFrame {
  fr_header : data_chunk_header_size_ d' = data_chunk_header_size_ d;
  fr_last : last_cumulative_tsn_ack_ d' = last_cumulative_tsn_ack_ d;
  fr_highest : highest_outstanding_tsn d ≤ highest_outstanding_tsn d';
  fr_old : ∀ t i, chunk_at d t = Some i → ∃ j, chunk_at d' t = Some j ∧ same_chunk i j
    ∧ (¬ touched t → untouched i j);
  fr_new : ∀ t j, highest_outstanding_tsn d < t → chunk_at d' t = Some j → is_abandoned j = true;
  fr_discards : discards_from (send_queue_ d) (send_queue_ d');
  fr_queue : send_queue_ d' = send_queue_ d ∨ has_abandoned d'
}.

Lemma same_chunk_refl i : same_chunk i i.
Proof using Type. done. Qed.

Lemma same_chunk_trans i j k : same_chunk i j → same_chunk j k → same_chunk i k.
Proof using Type. intros (? & ? & ?) (? & ? & ?). repeat split; [congruence..|auto]. Qed.

Lemma chunk_at_range d t i : chunk_at d t = Some i → last_cumulative_tsn_ack_ d < t ≤ highest_outstanding_tsn d.
Proof using Type. intros [? _]%look_Some. done. Qed.

Lemma chunk_at_found d t : last_cumulative_tsn_ack_ d < t ≤ highest_outstanding_tsn d → ∃ i, chunk_at d t = Some i.
Proof using Type. apply look_is_Some. Qed.

Lemma od_frame_refl touched d : od_frame touched d d.
Proof using Type.
  split; try done; [| |by left].
  - intros t i Hi. exists i. repeat split; auto.
  - intros t j ? Hj%chunk_at_range. lia.
Qed.

Lemma od_frame_trans (P P' : Z → Prop) d d1 d2 : (∀ t, P' t → P t) → od_frame P d d1 → od_frame P' d1 d2 → od_frame P d d2.
Proof using Type.
  intros HP [? ? ? Ho Hn Hq Hab] [? ? ? Ho' Hn' Hq' Hab']. split; try congruence; [lia|..].
  3: by etransitivity.
  3: { destruct Hab' as [E'|]; [|by right]. destruct Hab as [E|(t & i & Hi & Hai)]; [left; congruence|]. right.
       destruct (Ho' t i Hi) as (j & Hj & (_ & _ & Hs) & _). exists t, j. auto. }
  - intros t i Hi. destruct (Ho t i Hi) as (j & Hj & Hs & Ha). destruct (Ho' t j Hj) as (k & Hk & Hs' & Ha').
    exists k. split; [done|]. split; [by eapply same_chunk_trans|]. intros Hnt.
    destruct (Ha Hnt) as [E S], (Ha' ltac:(auto)) as [E' S']. split; [congruence|auto].
  - intros t k Ht Hk. destruct (Z.le_gt_cases t (highest_outstanding_tsn d1)) as [Hle|]; [|by apply (Hn' t k)].
    destruct (chunk_at_found d1 t) as [j Hj]; [pose proof (chunk_at_range _ _ _ Hk); lia|].
    destruct (Ho' t j Hj) as (k' & Hk' & (_ & _ & Hab0) & _). rewrite Hk in Hk'. injection Hk' as ->. by apply Hab0, (Hn t j).
Qed.

Lemma od_frame_weaken (P P' : Z → Prop) d d' : (∀ t, P' t → P t) → od_frame P' d d' → od_frame P d d'.
Proof using Type. intros HP. apply od_frame_trans; [done | apply od_frame_refl]. Qed.

(** The frame of an update of one item. *)
Lemma frame_update d tsn i j ub ui fast rtx : chunk_at d tsn = Some i → same_chunk i j →
  od_frame (λ t, t = tsn) d (mkOutstanding (data_chunk_header_size_ d) (last_cumulative_tsn_ack_ d) (send_queue_ d)
    (<[Z.to_nat (tsn - last_cumulative_tsn_ack_ d - 1) := j]> (outstanding_data_ d)) ub ui fast rtx (stream_reset_breakpoint_tsns_ d)).
Proof using Type.
  intros Hc Hs. set (d' := mkOutstanding _ _ _ _ _ _ _ _ _).
  assert (highest_outstanding_tsn d' = highest_outstanding_tsn d) as Hh by (unfold highest_outstanding_tsn; cbn; by rewrite length_insert).
  split; try done; [by rewrite Hh| | |by left].
  - intros t k Hk. unfold chunk_at. cbn. rewrite (look_insert _ _ _ i) by done. destruct (Z.eqb_spec t tsn) as [->|].
    + exists j. split; [done|]. replace k with i by (unfold chunk_at in *; congruence). by split.
    + exists k. by repeat split.
  - intros t k Ht Hk%chunk_at_range. lia.
Qed.

Lemma room_update d tsn i j ub ui fast rtx : chunk_at d tsn = Some i →
  room (mkOutstanding (data_chunk_header_size_ d) (last_cumulative_tsn_ack_ d) (send_queue_ d)
    (<[Z.to_nat (tsn - last_cumulative_tsn_ack_ d - 1) := j]> (outstanding_data_ d)) ub ui fast rtx (stream_reset_breakpoint_tsns_ d))
  = room d - room_of i + room_of j.
Proof using Type. intros [_ Hk]%look_Some. unfold room. cbn. by rewrite (total_of_insert _ _ _ i). Qed.

(** ** AbandonAllFor *)

Definition abandon_if (stream message : Z) (i : Item) : Item :=
  if negb (is_abandoned i) && (stream_id (item_data_ i) =? stream) && (message_id_ i =? message) then Abandon i else i.

(** The TSNs of the chunks whose retransmission is cancelled. *)
Definition cancelled (stream message last : Z) (items : list Item) (t : Z) : Prop :=
  ∃ i, look last items t = Some i ∧ should_be_retransmitted i = true ∧ is_abandoned (abandon_if stream message i) = true.

Lemma cancelled_cons stream message last i items t :
  cancelled stream message last (i :: items) t ↔
    (t = last + 1 ∧ should_be_retransmitted i = true ∧ is_abandoned (abandon_if stream message i) = true)
    ∨ cancelled stream message (last + 1) items t.
Proof using Type.
  unfold cancelled. setoid_rewrite look_cons. destruct (Z.eqb_spec t (last + 1)) as [->|Hne].
  - split.
    + intros (? & [= <-] & ? & ?). by left.
    + intros [(_ & ? & ?)|(? & [? _]%look_Some & _)]; [by eexists | lia].
  - split; [by right | by intros [(? & _)|]].
Qed.

Lemma retransmitted_not_abandoned i : should_be_retransmitted i = true → is_abandoned i = false.
Proof using Type.
  unfold should_be_retransmitted, is_abandoned. rewrite bool_decide_eq_true, bool_decide_eq_false. congruence.
Qed.

Lemma abandon_loop_spec stream message last items fast rtx :
  let '(items', fast', rtx') := abandon_loop stream message last items fast rtx in
  items' = abandon_if stream message <$> items
  ∧ (increasing fast → increasing fast') ∧ (increasing rtx → increasing rtx')
  ∧ (∀ t, t ∈ fast' → t ∈ fast) ∧ (∀ t, t ∈ rtx' → t ∈ rtx)
  ∧ ∀ t, (t ∈ fast' ∨ t ∈ rtx') ↔ (t ∈ fast ∨ t ∈ rtx) ∧ ¬ cancelled stream message last items t.
Proof using Type.
  revert last fast rtx. induction items as [|i items IH]; intros last fast rtx; cbn [abandon_loop].
  { repeat split; auto; [|tauto]. intros (? & [_ ?]%look_Some & _). done. }
  unfold next_value. destruct (negb (is_abandoned i) && (stream_id (item_data_ i) =? stream) && (message_id_ i =? message)) eqn:E;
    [destruct (should_be_retransmitted i) eqn:Es|].
  all: destruct (abandon_loop _ _ _ _ _ _) as [[items' fast'] rtx'] eqn:EL;
    match type of EL with abandon_loop _ _ _ _ ?f ?r = _ => specialize (IH (last + 1) f r) end; rewrite EL in IH;
    destruct IH as (-> & Hf & Hr & Hsf & Hsr & Hm); rewrite fmap_cons; unfold abandon_if at 2; rewrite E; split; [done|].
  - split; [intros; apply Hf; unfold set_erase; by apply filter_increasing|].
    split; [intros; apply Hr; unfold set_erase; by apply filter_increasing|].
    split; [intros t Ht; by apply Hsf, elem_of_set_erase in Ht as [_ ?]|].
    split; [intros t Ht; by apply Hsr, elem_of_set_erase in Ht as [_ ?]|].
    intros t. rewrite Hm, !elem_of_set_erase, cancelled_cons, Es. unfold abandon_if. rewrite E.
    change (is_abandoned (Abandon i)) with true. destruct (Z.eq_dec t (last + 1)); tauto.
  - repeat (split; [done|]). intros t. rewrite Hm, cancelled_cons, Es. intuition discriminate.
  - repeat (split; [done|]). intros t. rewrite Hm, cancelled_cons. unfold abandon_if. rewrite E.
    destruct (should_be_retransmitted i) eqn:Es; [rewrite (retransmitted_not_abandoned i Es)|]; intuition discriminate.
Qed.
Lemma abandon_if_same stream message i :
  same_chunk i (abandon_if stream message i) ∧ untouched i (abandon_if stream message i).
Proof using Type.
  unfold abandon_if, untouched, settled. destruct (_ && _); [|done]. split; [done|]. split; [done|]. intros _. by apply orb_true_r.
Qed.

Lemma abandon_if_flight stream message i :
  is_outstanding (abandon_if stream message i) = is_outstanding i ∧ item_data_ (abandon_if stream message i) = item_data_ i.
Proof using Type. unfold abandon_if. destruct (_ && _); done. Qed.

Lemma abandon_if_room stream message i : room_of (abandon_if stream message i) ≤ room_of i.
Proof using Type.
  unfold abandon_if. destruct (_ && _); [|done]. unfold room_of. change (is_abandoned (Abandon i)) with true.
  destruct (is_abandoned i); lia.
Qed.

Lemma abandon_if_end item : is_abandoned (abandon_if (stream_id (item_data_ item)) (message_id_ item) (message_end item)) = true.
Proof using Type. unfold abandon_if. cbn. by rewrite !Z.eqb_refl. Qed.

(** What [AbandonAllFor] does to the deque. *)
Definition discards d (item : Item) : bool := (queue_Discard (stream_id (item_data_ item)) (message_id_ item) (send_queue_ d)).1.
Definition ends d (item : Item) : list Item := if discards d item then [message_end item] else [].

Lemma AbandonAllFor_eq item d : ∃ q fast rtx,
  AbandonAllFor item d = mkOutstanding (data_chunk_header_size_ d) (last_cumulative_tsn_ack_ d) q
    (abandon_if (stream_id (item_data_ item)) (message_id_ item) <$> (outstanding_data_ d ++ ends d item))
    (unacked_bytes_ d) (unacked_items_ d) fast rtx (stream_reset_breakpoint_tsns_ d)
  ∧ (increasing (to_be_fast_retransmitted_ d) → increasing fast) ∧ (increasing (to_be_retransmitted_ d) → increasing rtx)
  ∧ (∀ t, t ∈ fast → t ∈ to_be_fast_retransmitted_ d) ∧ (∀ t, t ∈ rtx → t ∈ to_be_retransmitted_ d)
  ∧ ∀ t, (t ∈ fast ∨ t ∈ rtx) ↔ (t ∈ to_be_fast_retransmitted_ d ∨ t ∈ to_be_retransmitted_ d)
      ∧ ¬ cancelled (stream_id (item_data_ item)) (message_id_ item) (last_cumulative_tsn_ack_ d) (outstanding_data_ d ++ ends d item) t.
Proof using Type.
  unfold AbandonAllFor, ends, discards. destruct (queue_Discard _ _ _) as [discarded q]. cbn [fst].
  destruct discarded; cbn; rewrite ?app_nil_r;
    match goal with |- context [abandon_loop ?a ?b ?c ?x ?f ?r] => pose proof (abandon_loop_spec a b c x f r) as H;
      destruct (abandon_loop a b c x f r) as [[items fast] rtx] end; destruct H as (-> & ? & ? & ? & ? & ?); exists q, fast, rtx; auto 10.
Qed.

Lemma AbandonAllFor_queue item d :
  send_queue_ (AbandonAllFor item d) = (queue_Discard (stream_id (item_data_ item)) (message_id_ item) (send_queue_ d)).2.
Proof using Type.
  unfold AbandonAllFor. destruct (queue_Discard _ _ _) as [discarded q]. destruct (abandon_loop _ _ _ _ _ _) as [[items fast] rtx]. by destruct discarded.
Qed.

Lemma AbandonAllFor_abandons item d t : chunk_at d t = Some item → ∃ j, chunk_at (AbandonAllFor item d) t = Some j ∧ is_abandoned j = true.
Proof using Type.
  intros Hc. destruct (AbandonAllFor_eq item d) as (q & fast & rtx & -> & _). unfold chunk_at. cbn. rewrite look_fmap, look_app.
  pose proof (chunk_at_range _ _ _ Hc) as Hr. unfold highest_outstanding_tsn, AddTo in Hr.
  rewrite (proj2 (Z.ltb_ge _ _)) by lia. unfold chunk_at in Hc. rewrite Hc. eexists. split; [done|].
  unfold abandon_if. rewrite !Z.eqb_refl. destruct (is_abandoned item) eqn:E; [exact E|done].
Qed.

Lemma AbandonAllFor_frame item d t0 : chunk_at d t0 = Some item → od_frame (λ _, False) d (AbandonAllFor item d).
Proof using Type.
  intros H0. pose proof (AbandonAllFor_queue item d) as Hq. destruct (AbandonAllFor_abandons item d t0 H0) as (j0 & Hj0 & Ha0). split.
  6: { rewrite Hq. apply rtc_once. eauto. }
  6: { right. exists t0, j0. done. }
  all: clear Hq Hj0; destruct (AbandonAllFor_eq item d) as (q & fast & rtx & -> & _); try done.
  - unfold highest_outstanding_tsn, AddTo. cbn. rewrite length_fmap, length_app. lia.
  - intros t i Hc. unfold chunk_at. cbn. rewrite look_fmap, look_app.
    pose proof (chunk_at_range _ _ _ Hc) as Hr. unfold highest_outstanding_tsn, AddTo in Hr.
    rewrite (proj2 (Z.ltb_ge _ _)) by lia. unfold chunk_at in Hc. rewrite Hc. eexists. split; [done|].
    destruct (abandon_if_same (stream_id (item_data_ item)) (message_id_ item) i). auto.
  - intros t j Ht Hc. unfold chunk_at in Hc. cbn in Hc. rewrite look_fmap, look_app in Hc.
    unfold highest_outstanding_tsn, AddTo in Ht. rewrite (proj2 (Z.ltb_lt _ _)) in Hc by lia.
    apply fmap_Some in Hc as (k & [_ Hk]%look_Some & ->). unfold ends in Hk.
    destruct (discards d item); [|done]. apply list_elem_of_lookup_2, list_elem_of_singleton in Hk as ->. apply abandon_if_end.
Qed.

Lemma AbandonAllFor_room item d : room (AbandonAllFor item d) ≤ room d + Z.of_nat (length (ends d item)).
Proof using Type.
  destruct (AbandonAllFor_eq item d) as (q & fast & rtx & -> & _). unfold room. cbn. rewrite fmap_app, total_of_app.
  pose proof (total_of_le room_of _ (outstanding_data_ d) (abandon_if_room (stream_id (item_data_ item)) (message_id_ item))).
  unfold ends. destruct (discards d item); cbn [fmap list_fmap total_of length]; [|lia].
  unfold room_of at 2. rewrite abandon_if_end. lia.
Qed.

(** The end of a message counts for nothing. *)
Lemma total_of_ends d item f : (∀ i, f (abandon_if (stream_id (item_data_ item)) (message_id_ item) i) = f i) → f (message_end item) = 0 →
  total_of f (abandon_if (stream_id (item_data_ item)) (message_id_ item) <$> (outstanding_data_ d ++ ends d item)) = total_of f (outstanding_data_ d).
Proof using Type.
  intros Hf He. rewrite total_of_fmap, total_of_app by done. unfold ends. destruct (discards d item); cbn [total_of]; lia.
Qed.

Lemma look_ends d item t i : look (last_cumulative_tsn_ack_ d) (outstanding_data_ d ++ ends d item) t = Some i →
  should_be_retransmitted i = true → chunk_at d t = Some i.
Proof using Type.
  rewrite look_app. destruct (_ <? _); [|done]. intros [_ Hk]%look_Some. unfold ends in Hk. destruct (discards d item); [|done].
  by apply list_elem_of_lookup_2, list_elem_of_singleton in Hk as ->.
Qed.

Lemma abandon_if_retransmitted stream message i : should_be_retransmitted (abandon_if stream message i) = true →
  abandon_if stream message i = i ∧ is_abandoned i = false.
Proof using Type.
  unfold abandon_if. destruct (_ && _); [done|]. intros. split; [done|]. by apply retransmitted_not_abandoned.
Qed.

Lemma AbandonAllFor_wf item d : od_wf d → od_wf (AbandonAllFor item d).
Proof using Type.
  intros [Hb Hi Hf Hr Hdj Hs Hn]. destruct (AbandonAllFor_eq item d) as (q & fast & rtx & -> & Hif & Hir & Hsf & Hsx & Hm).
  set (g := abandon_if (stream_id (item_data_ item)) (message_id_ item)) in *. split; cbn; auto.
  - rewrite Hb. f_equal. symmetry. apply total_of_ends; [|done]. intros i. unfold flight_bytes, chunk_size.
    by destruct (abandon_if_flight (stream_id (item_data_ item)) (message_id_ item) i) as [-> ->].
  - rewrite Hi. f_equal. symmetry. apply total_of_ends; [|done]. intros i. unfold flight_items.
    by destruct (abandon_if_flight (stream_id (item_data_ item)) (message_id_ item) i) as [-> _].
  - intros t Ht Ht'. by apply (Hdj t); auto.
  - intros t. rewrite Hm, Hs. unfold chunk_at at 2, cancelled. cbn. rewrite look_fmap. split.
    + intros [(i & Hc & Hsr) Hnc]. exists i. split; [|done]. unfold chunk_at in Hc. rewrite look_app.
      pose proof (look_Some _ _ _ _ Hc) as [? _]. rewrite (proj2 (Z.ltb_ge _ _)) by lia. rewrite Hc. cbn. f_equal.
      unfold g, abandon_if. destruct (_ && _) eqn:E; [|done]. exfalso. apply Hnc. exists i. rewrite look_app.
      rewrite (proj2 (Z.ltb_ge _ _)) by lia. unfold abandon_if. by rewrite E.
    + intros (j & (i & Hc & ->)%fmap_Some & Hsr). destruct (abandon_if_retransmitted _ _ _ Hsr) as [Hg Ha].
      unfold g in Hsr. rewrite Hg in Hsr. split; [exists i; eauto using look_ends|].
      intros (i' & Hc' & _ & Hab). unfold g in *. congruence.
  - intros t j. unfold chunk_at. cbn. rewrite look_fmap. intros (i & Hc & ->)%fmap_Some Hsr.
    destruct (abandon_if_retransmitted _ _ _ Hsr) as [Hg _]. unfold g in *. rewrite Hg in *. eauto using look_ends.
Qed.
(** ** Acking one chunk *)

Lemma Item_Ack_facts i : is_acked (Item_Ack i) = true ∧ is_outstanding (Item_Ack i) = false
  ∧ should_be_retransmitted (Item_Ack i) = false ∧ same_chunk i (Item_Ack i) ∧ room_of (Item_Ack i) = room_of i
  ∧ item_ack_state_ (Item_Ack i) = kAcked.
Proof using Type.
  unfold Item_Ack, same_chunk, room_of, should_be_retransmitted, is_abandoned. destruct i as [? ? ? l ? ? ? ? ? ?]. by destruct l.
Qed.

Lemma counters_idle d : od_wf d → unacked_bytes_ d = wrap 64 (unacked_bytes_ d - 0 + 0) ∧ unacked_items_ d = wrap 64 (unacked_items_ d - 0 + 0).
Proof using Type.
  intros [Hb Hi _ _ _ _ _]. split; [rewrite Hb|rewrite Hi]; rewrite wrap_sub_add by done; f_equal; lia.
Qed.

(** A chunk is acked or nacked: the counters are those of one fewer in flight. *)
Definition out_of_flight (item : Item) d : OutstandingData Q :=
  if is_outstanding item then remove_in_flight (GetSerializedChunkSize d (item_data_ item)) d else d.

Lemma out_of_flight_eq item d : od_wf d →
  out_of_flight item d = mkOutstanding (data_chunk_header_size_ d) (last_cumulative_tsn_ack_ d) (send_queue_ d) (outstanding_data_ d)
    (wrap 64 (unacked_bytes_ d - flight_bytes (data_chunk_header_size_ d) item + 0)) (wrap 64 (unacked_items_ d - flight_items item + 0))
    (to_be_fast_retransmitted_ d) (to_be_retransmitted_ d) (stream_reset_breakpoint_tsns_ d).
Proof using Type.
  intros Hw. destruct (counters_idle d Hw) as [Hb Hi]. unfold out_of_flight, flight_bytes, flight_items. destruct (is_outstanding item).
  - unfold remove_in_flight, chunk_size, GetSerializedChunkSize. cbn. by rewrite !Z.add_0_r.
  - rewrite <- Hb, <- Hi. by destruct d.
Qed.

Lemma not_outstanding i : is_nacked i = true → is_outstanding i = false.
Proof using Type. unfold is_nacked, is_outstanding. rewrite bool_decide_eq_true, bool_decide_eq_false. congruence. Qed.

Lemma no_flight header i : is_outstanding i = false → flight_bytes header i = 0.
Proof using Type. unfold flight_bytes. by intros ->. Qed.

Lemma no_flight_item i : is_outstanding i = false → flight_items i = 0.
Proof using Type. unfold flight_items. by intros ->. Qed.

Lemma AckChunk_spec info tsn i d :
  od_wf d → room d < 2 ^ 31 → chunk_at d tsn = Some i → to_be_fast_retransmitted_ d = [] →
  let '(info', d') := AckChunk info tsn i d in
  od_wf d' ∧ room d' = room d ∧ od_frame (λ t, t = tsn) d d' ∧ (∃ j, chunk_at d' tsn = Some j ∧ is_acked j = true)
  ∧ to_be_fast_retransmitted_ d' = [] ∧ highest_outstanding_tsn d' = highest_outstanding_tsn d
  ∧ highest_tsn_acked info ≤ highest_tsn_acked info' ≤ Z.max tsn (highest_tsn_acked info)
  ∧ ∀ t, t ≠ tsn → chunk_at d' t = chunk_at d t.
Proof using Type.
  intros Hw Hr Hc Hf. unfold AckChunk. destruct (is_acked i) eqn:Ea; cbn [negb].
  { split; [done|]. split; [done|]. split; [apply od_frame_refl|]. split; [by exists i|]. split; [done|]. split; [done|]. split; [lia|done]. }
  destruct (Item_Ack_facts i) as (Ha & Ho & Hs & Hsame & Hroom & _).
  fold (out_of_flight i d). rewrite (out_of_flight_eq i d Hw).
  match goal with |- context [set_item tsn _ ?x] => rewrite (set_item_exact x tsn i) by (destruct (should_be_retransmitted i); done) end.
  set (d' := set_field _ _). assert (d' = mkOutstanding (data_chunk_header_size_ d) (last_cumulative_tsn_ack_ d) (send_queue_ d)
    (<[Z.to_nat (tsn - last_cumulative_tsn_ack_ d - 1) := Item_Ack i]> (outstanding_data_ d))
    (wrap 64 (unacked_bytes_ d - flight_bytes (data_chunk_header_size_ d) i + flight_bytes (data_chunk_header_size_ d) (Item_Ack i)))
    (wrap 64 (unacked_items_ d - flight_items i + flight_items (Item_Ack i))) []
    (if should_be_retransmitted i then set_erase tsn (to_be_retransmitted_ d) else to_be_retransmitted_ d) (stream_reset_breakpoint_tsns_ d)) as ->.
  { rewrite (no_flight _ _ Ho), (no_flight_item _ Ho). unfold d'. destruct (should_be_retransmitted i); cbn; by rewrite Hf. }
  split; [|split; [rewrite (room_update d tsn i) by done; lia|]].
  - apply (wf_update d tsn i); auto; [by rewrite Hs|constructor|destruct Hw; destruct (should_be_retransmitted i); by try apply filter_increasing|by intros ? ?%elem_of_nil|].
    intros t. pose proof (wf_sets d Hw) as Hset. rewrite Hf, Hs in *. destruct (Z.eqb_spec t tsn) as [->|Hne].
    + destruct (should_be_retransmitted i) eqn:Es; [rewrite elem_of_set_erase, elem_of_nil; intuition discriminate|].
      rewrite Hset. split; [|done]. intros (k & Hk & ?). rewrite Hc in Hk. congruence.
    + destruct (should_be_retransmitted i); [rewrite elem_of_set_erase|]; tauto.
  - split; [by apply (frame_update d tsn i)|]. split; [|split; [done|split; [|split]]].
    + exists (Item_Ack i). split; [|done]. unfold chunk_at. cbn. rewrite (look_insert _ _ _ i) by done. by rewrite Z.eqb_refl.
    + unfold highest_outstanding_tsn. cbn. by rewrite length_insert.
    + cbn. lia.
    + intros t Ht. unfold chunk_at. cbn. rewrite (look_insert _ _ _ i) by done. by rewrite (proj2 (Z.eqb_neq _ _)).
Qed.
(** ** Nacking one chunk *)

Lemma Item_Nack_facts rn i : let '(action, j) := Item_Nack rn i in
  is_nacked j = true ∧ same_chunk i j
  ∧ match action with
    | kNothing => should_be_retransmitted j = should_be_retransmitted i ∧ room_of j = room_of i
        ∧ (rn = true → should_be_retransmitted i = true ∨ is_abandoned i = true)
    | kRetransmit => should_be_retransmitted j = true ∧ should_be_retransmitted i = false ∧ room_of j = room_of i
    | kAbandon => should_be_retransmitted j = false ∧ should_be_retransmitted i = false ∧ is_abandoned j = true ∧ room_of j = room_of i - 1
    end.
Proof using Type.
  unfold Item_Nack, same_chunk, room_of, should_be_retransmitted, is_abandoned. destruct i as [? ? mx l ? nc nr ? ? ?].
  cbn -[Z.leb wrap]. destruct l; cbn -[Z.leb wrap].
  - destruct (rn || _) eqn:E; cbn -[Z.leb wrap]; [destruct (nr <? mx); cbn; done|].
    apply orb_false_iff in E as [-> _]. done.
  - repeat split; auto.
  - repeat split; auto.
Qed.

Lemma nacked_idle i : is_nacked i = true → flight_items i = 0 ∧ ∀ header, flight_bytes header i = 0.
Proof using Type. intros H%not_outstanding. split; [by apply no_flight_item | intros; by apply no_flight]. Qed.

(** The item of [tsn] is nacked to [j], and the two sets become [fast] and [rtx]. *)
Definition nacked_state d (tsn : Z) (i j : Item) (fast rtx : list Z) : OutstandingData Q :=
  mkOutstanding (data_chunk_header_size_ d) (last_cumulative_tsn_ack_ d) (send_queue_ d)
    (<[Z.to_nat (tsn - last_cumulative_tsn_ack_ d - 1) := j]> (outstanding_data_ d))
    (wrap 64 (unacked_bytes_ d - flight_bytes (data_chunk_header_size_ d) i + flight_bytes (data_chunk_header_size_ d) j))
    (wrap 64 (unacked_items_ d - flight_items i + flight_items j)) fast rtx (stream_reset_breakpoint_tsns_ d).

Lemma NackItem_eq rn df tsn i d : od_wf d → room d < 2 ^ 31 → chunk_at d tsn = Some i →
  let j := (Item_Nack rn i).2 in
  NackItem rn df tsn d = match (Item_Nack rn i).1 with
    | kNothing => Ret false (nacked_state d tsn i j (to_be_fast_retransmitted_ d) (to_be_retransmitted_ d))
    | kRetransmit => Ret true (nacked_state d tsn i j
        (if df then set_insert tsn (to_be_fast_retransmitted_ d) else to_be_fast_retransmitted_ d)
        (if df then to_be_retransmitted_ d else set_insert tsn (to_be_retransmitted_ d)))
    | kAbandon => Ret true (AbandonAllFor j (nacked_state d tsn i j (to_be_fast_retransmitted_ d) (to_be_retransmitted_ d)))
    end.
Proof using Type.
  intros Hw Hr Hc j. unfold NackItem. unfold bind at 1. rewrite (GetItem_found d tsn i Hr Hc). unfold bind at 1, get.
  unfold bind at 1. replace (when (is_outstanding i) (modify (remove_in_flight (GetSerializedChunkSize d (item_data_ i)))) d)
    with (Ret tt (out_of_flight i d) : outcome (OutstandingData Q) unit) by (unfold out_of_flight; by destruct (is_outstanding i)).
  pose proof (Item_Nack_facts rn i) as Hf. destruct (Item_Nack rn i) as [action j'] eqn:E. destruct Hf as [[Hz Hz']%nacked_idle _].
  subst j. cbn [fst snd]. unfold bind at 1, modify at 1. rewrite (out_of_flight_eq i d Hw).
  match goal with |- context [set_item tsn j' ?x] => rewrite (set_item_exact x tsn i) by done end.
  set (x := set_field _ _). assert (x = nacked_state d tsn i j' (to_be_fast_retransmitted_ d) (to_be_retransmitted_ d)) as ->.
  { unfold nacked_state. by rewrite Hz, Hz'. }
  destruct action; [done| |done]. by destruct df.
Qed.

Lemma nacked_state_spec d tsn i j fast rtx :
  od_wf d → chunk_at d tsn = Some i → is_nacked j = true → same_chunk i j → increasing fast → increasing rtx → (∀ t, t ∈ fast → t ∉ rtx) →
  (∀ t, t ∈ fast ∨ t ∈ rtx ↔ if t =? tsn then should_be_retransmitted j = true
                             else t ∈ to_be_fast_retransmitted_ d ∨ t ∈ to_be_retransmitted_ d) →
  od_wf (nacked_state d tsn i j fast rtx) ∧ od_frame (λ t, t = tsn) d (nacked_state d tsn i j fast rtx)
  ∧ chunk_at (nacked_state d tsn i j fast rtx) tsn = Some j ∧ room (nacked_state d tsn i j fast rtx) = room d - room_of i + room_of j.
Proof using Type.
  intros Hw Hc Hn Hs Hf Hr Hdj Hm. split; [by apply (wf_update d tsn i)|]. split; [by apply (frame_update d tsn i)|].
  split; [|by apply (room_update d tsn i)]. unfold chunk_at. cbn. rewrite (look_insert _ _ _ i) by done. by rewrite Z.eqb_refl.
Qed.

Lemma NackItem_spec rn df tsn i d :
  od_wf d → room d < 2 ^ 31 → chunk_at d tsn = Some i →
  wp (NackItem rn df tsn) (λ loss d', od_wf d' ∧ room d' ≤ room d ∧ od_frame (λ t, t = tsn) d d'
    ∧ chunk_at d' tsn = Some (Item_Nack rn i).2) d.
Proof using Type.
  intros Hw Hr Hc. unfold wp. rewrite (NackItem_eq rn df tsn i d Hw Hr Hc). cbv zeta. pose proof (Item_Nack_facts rn i) as Hf.
  destruct (Item_Nack rn i) as [action j]. cbn [fst snd]. destruct Hf as (Hn & Hs & Hact).
  pose proof (wf_sets d Hw tsn) as Hset. assert (∀ t, t ∈ to_be_fast_retransmitted_ d ∨ t ∈ to_be_retransmitted_ d
    ↔ if t =? tsn then should_be_retransmitted i = true else t ∈ to_be_fast_retransmitted_ d ∨ t ∈ to_be_retransmitted_ d) as Hsame.
  { intros t. destruct (Z.eqb_spec t tsn) as [->|]; [|done]. rewrite Hset, Hc. split; [intros (? & [= <-] & ?); done | by eexists]. }
  destruct action.
  - destruct Hact as (E & ? & _). destruct (nacked_state_spec d tsn i j _ _ Hw Hc Hn Hs (wf_fast d Hw) (wf_rtx d Hw) (wf_disjoint d Hw)) as (? & ? & ? & Hro); [by rewrite E|].
    rewrite Hro. repeat (split; [done || lia|]). done.
  - destruct Hact as (E & Ei & ?). edestruct (nacked_state_spec d tsn i j) as (? & ? & ? & Hro); [exact Hw|exact Hc|exact Hn|exact Hs| | | | |].
    5: { split; [done|]. rewrite Hro. split; [lia|]. done. }
    + destruct df; eauto using wf_fast, set_insert_increasing.
    + destruct df; eauto using wf_rtx, set_insert_increasing.
    + assert (∀ t, t = tsn → (t ∉ to_be_fast_retransmitted_ d) ∧ (t ∉ to_be_retransmitted_ d)) as Hnew.
      { intros t ->. specialize (Hsame tsn). rewrite Z.eqb_refl, Ei in Hsame. split; intros ?; intuition discriminate. }
      intros t. pose proof (wf_disjoint d Hw t). specialize (Hnew t). destruct df; rewrite elem_of_set_insert; tauto.
    + intros t. rewrite E. destruct df; rewrite elem_of_set_insert; destruct (Z.eqb_spec t tsn); tauto.
  - destruct Hact as (E & Ei & Ha & ?).
    destruct (nacked_state_spec d tsn i j _ _ Hw Hc Hn Hs (wf_fast d Hw) (wf_rtx d Hw) (wf_disjoint d Hw)) as (Hw' & Hfr & Hcj & Hro);
      [by rewrite E, <- Ei|]. set (x := nacked_state _ _ _ _ _ _) in *.
    split; [by apply AbandonAllFor_wf|]. split.
    { pose proof (AbandonAllFor_room j x). assert (length (ends x j) ≤ 1)%nat by (unfold ends; destruct (discards x j); cbn; lia). lia. }
    split; [eapply od_frame_trans; [|done|by apply (AbandonAllFor_frame j x tsn)]; done|].
    destruct (AbandonAllFor_eq j x) as (q & fast & rtx & -> & _). unfold chunk_at. cbn. rewrite look_fmap, look_app.
    pose proof (look_Some _ _ _ _ Hcj) as [? _]. rewrite (proj2 (Z.ltb_ge _ _)) by (cbn in *; lia).
    unfold chunk_at in Hcj. etransitivity; [apply f_equal; exact Hcj|]. cbn. unfold abandon_if. by rewrite Ha.
Qed.
(** ** Handling a SACK *)

Definition acked_at d (t : Z) : Prop := ∃ i, chunk_at d t = Some i ∧ is_acked i = true.

Lemma pop_wf d j : od_wf d → chunk_at d (last_cumulative_tsn_ack_ d + 1) = Some j → is_acked j = true →
  let d' := d <| outstanding_data_ ::= tail |> <| last_cumulative_tsn_ack_ ::= next_value |> in
  od_wf d' ∧ room d' ≤ room d ∧ highest_outstanding_tsn d' = highest_outstanding_tsn d
  ∧ (length (outstanding_data_ d') < length (outstanding_data_ d))%nat
  ∧ ∀ t, last_cumulative_tsn_ack_ d + 1 < t → chunk_at d' t = chunk_at d t.
Proof using Type.
  intros [Hb Hi Hf Hr Hdj Hs Hn] Hc Ha d'.
  destruct d as [h last q items ub ui fast rtx bp]. unfold chunk_at in *. cbn in *. pose proof (look_Some _ _ _ _ Hc) as [_ Hk].
  replace (last + 1 - last - 1) with 0 in Hk by lia. destruct items as [|i rest]; [done|]. injection Hk as ->. cbn in *.
  assert (is_outstanding j = false ∧ should_be_retransmitted j = false) as [Ho Hsr].
  { specialize (Hn _ _ Hc). revert Ha Hn. unfold is_acked, is_outstanding, is_nacked. destruct (should_be_retransmitted j);
      rewrite !bool_decide_eq_true, !bool_decide_eq_false; intros -> Hn; [by specialize (Hn eq_refl) | done]. }
  rewrite (no_flight _ _ Ho) in Hb. rewrite (no_flight_item _ Ho) in Hi.
  assert (∀ t, last + 1 < t → look last (j :: rest) t = look (last + 1) rest t) as Hl.
  { intros t Ht. rewrite look_cons. by rewrite (proj2 (Z.eqb_neq _ _)) by lia. }
  split; [split; cbn; try done|split; [|split; [|split; [lia|]]]].
  - intros t. rewrite Hs. unfold chunk_at. cbn. unfold next_value. split; intros (k & Hk & ?); exists k; split; try done.
    + rewrite look_cons in Hk. destruct (t =? last + 1); congruence.
    + pose proof (look_Some _ _ _ _ Hk). by rewrite Hl by lia.
  - intros t k Hk. unfold chunk_at in Hk. cbn in Hk. unfold next_value in Hk. pose proof (look_Some _ _ _ _ Hk).
    apply (Hn t). by rewrite Hl by lia.
  - unfold room. cbn. assert (0 ≤ room_of j) by (unfold room_of; destruct (is_abandoned j); lia). lia.
  - subst d'. unfold highest_outstanding_tsn, AddTo. cbn -[Z.of_nat]. unfold next_value. lia.
  - intros t Ht. symmetry. by apply Hl.
Qed.

Lemma AckChunk_queue info tsn i d : send_queue_ (AckChunk info tsn i d).2 = send_queue_ d.
Proof using Type. unfold AckChunk. destruct (negb _); [|done]. cbn [snd]. by destruct (is_outstanding i), (should_be_retransmitted i). Qed.

Lemma remove_loop_spec fuel cum info d :
  od_wf d → room d < 2 ^ 31 → to_be_fast_retransmitted_ d = [] → (length (outstanding_data_ d) ≤ fuel)%nat →
  last_cumulative_tsn_ack_ d ≤ cum ≤ highest_outstanding_tsn d → highest_tsn_acked info = cum →
  let '(info', d') := remove_loop fuel cum info d in
  od_wf d' ∧ room d' ≤ room d ∧ to_be_fast_retransmitted_ d' = [] ∧ data_chunk_header_size_ d' = data_chunk_header_size_ d
  ∧ last_cumulative_tsn_ack_ d' = cum ∧ highest_outstanding_tsn d' = highest_outstanding_tsn d ∧ highest_tsn_acked info' = cum
  ∧ send_queue_ d' = send_queue_ d ∧ ∀ t, cum < t → chunk_at d' t = chunk_at d t.
Proof using SendQueue0.
  revert info d. induction fuel as [|fuel IH]; intros info d Hw Hr Hf Hlen Hcum Hinfo; cbn [remove_loop].
  - assert (last_cumulative_tsn_ack_ d = cum) by (unfold highest_outstanding_tsn, AddTo in Hcum; lia). auto 12 using Z.le_refl.
  - destruct (outstanding_data_ d) as [|i rest] eqn:Ei.
    { assert (last_cumulative_tsn_ack_ d = cum) by (unfold highest_outstanding_tsn, AddTo in Hcum; rewrite Ei in Hcum; cbn in Hcum; lia). auto 12 using Z.le_refl. }
    destruct (Z.ltb_spec (last_cumulative_tsn_ack_ d) cum) as [Hlt|Hge]; [|assert (last_cumulative_tsn_ack_ d = cum) by lia; auto 12 using Z.le_refl].
    set (tsn := next_value (last_cumulative_tsn_ack_ d)).
    assert (chunk_at d tsn = Some i) as Hc by (unfold chunk_at, tsn, next_value; rewrite Ei, look_cons; by rewrite Z.eqb_refl).
    pose proof (AckChunk_spec info tsn i d Hw Hr Hc Hf) as Hack. pose proof (AckChunk_queue info tsn i d) as Hq1.
    destruct (AckChunk info tsn i d) as [info1 d1]. cbn [snd] in Hq1. destruct Hack as (Hw1 & Hr1 & Hfr & (j & Hj & Haj) & Hf1 & Hh1 & Hinfo1 & Hc1). pose proof (fr_last _ _ _ Hfr) as Hl1.
    assert (chunk_at d1 (last_cumulative_tsn_ack_ d1 + 1) = Some j) as Hj' by (unfold tsn, next_value in Hj; by rewrite Hl1).
    pose proof (pop_wf d1 j Hw1 Hj' Haj) as (Hw2 & Hr2 & Hh2 & Hlen2 & Hc2).
    pose proof (fr_header _ _ _ Hfr) as Hhd. set (d2 := d1 <| outstanding_data_ ::= tail |> <| last_cumulative_tsn_ack_ ::= next_value |>) in *.
    assert (last_cumulative_tsn_ack_ d2 = last_cumulative_tsn_ack_ d + 1) as Hl2 by (cbn; unfold next_value; lia).
    specialize (IH (note_lifecycle i info1) d2). destruct (remove_loop fuel cum _ d2) as [info' d'].
    destruct IH as (? & ? & ? & Hh' & ? & ? & ? & Hq' & Hc'); [done|lia|exact Hf1| |lia| |].
    + unfold highest_outstanding_tsn, AddTo in Hh1. rewrite Ei, Hl1 in Hh1. cbn [length] in *. lia.
    + unfold note_lifecycle. destruct (IsSet _), (is_abandoned i); cbn; unfold tsn, next_value in Hinfo1; lia.
    + split; [done|]. split; [lia|]. split; [done|]. split; [rewrite Hh'; exact Hhd|]. split; [done|]. split; [lia|]. split; [done|].
      split; [rewrite Hq'; exact Hq1|]. intros t Ht. rewrite Hc' by done. rewrite Hc2 by lia. apply Hc1. unfold tsn, next_value. lia.
Qed.
(** The TSNs that the gap ack blocks of a SACK report as received. *)
Definition gap_tsns (cum : Z) (gaps : list GapAckBlock) : list Z :=
  concat ((λ b, tsn_range (AddTo cum (gap_start b)) (AddTo cum (gap_end b))) <$> gaps).

Lemma elem_of_tsn_range t a b : t ∈ tsn_range a b ↔ a ≤ t ≤ b.
Proof using Type. unfold tsn_range. rewrite elem_of_seqZ. lia. Qed.

Lemma fold_m_app {A B} (f : B → A → M (OutstandingData Q) B) l k b d :
  fold_m f (l ++ k) b d = bind (fold_m f l b) (fold_m f k) d.
Proof using Type. revert b d. induction l as [|a l IH]; intros b d; cbn; [done|]. destruct (f b a d); cbn; [apply IH|done..]. Qed.

Lemma AckGapBlocks_flat cum gaps info d : AckGapBlocks cum gaps info d = fold_m ack_tsn (gap_tsns cum gaps) info d.
Proof using Type.
  unfold AckGapBlocks, gap_tsns. revert info d. induction gaps as [|b gaps IH]; intros info d; [done|].
  rewrite fmap_cons. cbn [concat fold_m]. rewrite fold_m_app. unfold bind. destruct (fold_m _ _ _ d); [apply IH|done..].
Qed.

(** The state after some of the TSNs were acked, the others ([left]) being still to come. *)
Record acking (d : OutstandingData Q) (all left : list Z) (info : AckInfo) (d' : OutstandingData Q) : Prop := mkAcking {
  ak_wf : od_wf d';
  ak_room : room d' = room d;
  ak_fast : to_be_fast_retransmitted_ d' = [];
  ak_frame : od_frame (λ t, t ∈ all) d d';
  ak_highest : highest_outstanding_tsn d' = highest_outstanding_tsn d;
  ak_info : last_cumulative_tsn_ack_ d ≤ highest_tsn_acked info ≤ highest_outstanding_tsn d;
  ak_left : ∀ t, t ∈ left → t ∈ all;
  ak_done : ∀ t, t ∈ all → last_cumulative_tsn_ack_ d < t ≤ highest_outstanding_tsn d → t ∈ left ∨ acked_at d' t
}.

Lemma ack_tsn_spec d all t left info d' : room d < 2 ^ 31 → acking d all (t :: left) info d' →
  wp (ack_tsn info t) (λ info', acking d all left info') d'.
Proof using Type.
  intros Hr [Hw Hro Hf Hfr Hh Hi Hl Hd]. pose proof (fr_last _ _ _ Hfr) as Hlast. unfold wp, ack_tsn. unfold bind at 1, get.
  assert (∀ t', t' ∈ left → t' ∈ all) as Hl' by (intros; apply Hl; by right).
  unfold next_tsn, next_value. destruct (Z.ltb_spec (last_cumulative_tsn_ack_ d') t), (Z.ltb_spec t (highest_outstanding_tsn d' + 1)); cbn [andb].
  2-4: split; auto; intros t' Ht' Hrange; destruct (Hd t' Ht' Hrange) as [[->|?]%elem_of_cons|?]; auto; lia.
  destruct (chunk_at_found d' t ltac:(lia)) as [i Hc]. unfold bind at 1. rewrite (GetItem_found d' t i) by (done || lia).
  pose proof (AckChunk_spec info t i d' Hw ltac:(lia) Hc Hf) as Hack. destruct (AckChunk info t i d') as [info1 d1].
  destruct Hack as (Hw1 & Hr1 & Hfr1 & Ha & Hf1 & Hh1 & Hi1 & Hc1). cbn. split; auto; try lia.
  - eapply od_frame_trans; [|exact Hfr|exact Hfr1]. intros ? ->. apply Hl. by left.
  - intros t' Ht' Hrange. destruct (Z.eq_dec t' t) as [->|Hne]; [by right|].
    destruct (Hd t' Ht' Hrange) as [[->|?]%elem_of_cons|?]; [done|by left|]. right. unfold acked_at. by rewrite Hc1.
Qed.

Lemma AckGapBlocks_spec cum gaps info d :
  od_wf d → room d < 2 ^ 31 → to_be_fast_retransmitted_ d = [] →
  last_cumulative_tsn_ack_ d ≤ highest_tsn_acked info ≤ highest_outstanding_tsn d →
  wp (AckGapBlocks cum gaps info) (λ info', acking d (gap_tsns cum gaps) [] info') d.
Proof using Type.
  intros Hw Hr Hf Hi. unfold wp. rewrite AckGapBlocks_flat.
  apply (wp_fold_m ack_tsn (acking d (gap_tsns cum gaps)) (gap_tsns cum gaps) info d).
  - split; auto using od_frame_refl.
  - intros t left info' d' Ha. by apply (ack_tsn_spec d (gap_tsns cum gaps)).
Qed.

(** The TSNs that a SACK reports as missing, up to [max]. *)
Fixpoint nack_tsns (cum max prev : Z) (gaps : list GapAckBlock) : list Z :=
  match gaps with
  | [] => []
  | b :: gaps' => tsn_range (next_value prev) (Z.min (AddTo cum (gap_start b) - 1) max) ++ nack_tsns cum max (AddTo cum (gap_end b)) gaps'
  end.

Lemma nack_before_flat cum max df gaps prev info d :
  (let! s := fold_m (nack_before cum max df) gaps (prev, info) in ret s.2) d = nack_all_of df (nack_tsns cum max prev gaps) info d.
Proof using Type.
  unfold nack_all_of. revert prev info d. induction gaps as [|b gaps IH]; intros prev info d; [done|]. cbn [fold_m nack_tsns].
  rewrite fold_m_app. unfold nack_before at 1. unfold bind, nack_all_of. destruct (fold_m _ _ _ d) as [info1 d1| | |]; [|done..].
  cbn. unfold bind in IH. apply IH.
Qed.

(** The state after some of the missing TSNs were nacked. *)
Record nacking (now : bool) (d : OutstandingData Q) (all left : list Z) (d' : OutstandingData Q) : Prop := mkNacking {
  nk_wf : od_wf d';
  nk_room : room d' ≤ room d;
  nk_frame : od_frame (λ t, t ∈ all) d d';
  nk_left : ∀ t, t ∈ left → t ∈ all ∧ last_cumulative_tsn_ack_ d < t ≤ highest_outstanding_tsn d;
  nk_done : ∀ t, t ∈ all → t ∈ left ∨ ∃ j, chunk_at d' t = Some j ∧ is_nacked j = true ∧ (now = true → settled j = true)
}.

Lemma frame_ack_state touched d d' t i : od_frame touched d d' → chunk_at d t = Some i → ¬ touched t →
  ∃ j, chunk_at d' t = Some j ∧ untouched i j.
Proof using Type. intros Hfr Hc Ht. destruct (fr_old _ _ _ Hfr t i Hc) as (j & ? & _ & Ha). eauto. Qed.

Lemma NackItem_nacking rn df d all t left d' : room d < 2 ^ 31 → nacking rn d all (t :: left) d' →
  wp (NackItem rn df t) (λ _, nacking rn d all left) d'.
Proof using Type.
  intros Hr [Hw Hro Hfr Hl Hd]. destruct (Hl t (list_elem_of_here _ _)) as [Ht Hrange].
  destruct (chunk_at_found d' t) as [i Hc]; [rewrite (fr_last _ _ _ Hfr); pose proof (fr_highest _ _ _ Hfr); lia|].
  eapply wp_mono; [|apply (NackItem_spec rn df t i d'); [done|lia|done]]. cbn. intros _ d1 (Hw1 & Hr1 & Hfr1 & Hc1).
  pose proof (Item_Nack_facts rn i) as Hf. destruct (Item_Nack rn i) as [action j]. destruct Hf as (Hn & _ & Ha).
  assert (rn = true → settled j = true) as Hset.
  { intros ->. unfold settled. destruct action; [|by destruct Ha as (-> & _)|by destruct Ha as (_ & _ & -> & _); rewrite orb_true_r].
    destruct Ha as (E & Er & [Hs|Hs]%(λ f, f eq_refl)); [by rewrite E, Hs|]. unfold room_of in Er. rewrite Hs in Er.
    destruct (is_abandoned j); [by apply orb_true_r | lia]. }
  split; [done|lia|..].
  - eapply od_frame_trans; [|exact Hfr|exact Hfr1]. by intros ? ->.
  - intros t' Ht'. apply Hl. by right.
  - intros t' Ht'. destruct (Z.eq_dec t' t) as [->|Hne]; [by right; eexists|].
    destruct (Hd t' Ht') as [[->|?]%elem_of_cons|(k & Hk & Hnk)]; [done|by left|]. right.
    destruct (frame_ack_state _ _ _ t' k Hfr1 Hk Hne) as (k' & ? & Hs & Hs'). exists k'. split; [done|].
    unfold is_nacked in *. rewrite Hs. destruct Hnk. auto.
Qed.

Lemma nack_all_of_spec df tsns info d :
  od_wf d → room d < 2 ^ 31 → (∀ t, t ∈ tsns → last_cumulative_tsn_ack_ d < t ≤ highest_outstanding_tsn d) →
  wp (nack_all_of df tsns info) (λ _, nacking false d tsns []) d.
Proof using Type.
  intros Hw Hr Hrange. unfold nack_all_of.
  apply (wp_fold_m _ (λ left _, nacking false d tsns left) tsns info d).
  - split; auto using od_frame_refl, Z.le_refl.
  - intros t left info' d' Hn. apply wp_bind. eapply wp_mono; [|by apply (NackItem_nacking false df d tsns t left d')]. done.
Qed.

Lemma nack_tsns_range cum max prev gaps t : cum ≤ prev → Forall (λ b, 0 ≤ gap_end b) gaps →
  t ∈ nack_tsns cum max prev gaps → cum < t ≤ max.
Proof using Type.
  revert prev. induction gaps as [|b gaps IH]; intros prev Hp Hg; cbn [nack_tsns]; [by intros ?%elem_of_nil|].
  apply list.Forall_cons in Hg as [Hb Hg]. rewrite elem_of_app, elem_of_tsn_range. unfold next_value.
  intros [?|H]; [lia|]. apply (IH (AddTo cum (gap_end b))); [unfold AddTo; lia|done..].
Qed.
(** Blocks in the order of their TSNs, as a data tracker reports them. *)
Fixpoint gaps_sorted (prev : Z) (gaps : list GapAckBlock) : Prop :=
  match gaps with [] => True | b :: gaps' => prev < gap_start b ≤ gap_end b ∧ gaps_sorted (gap_end b) gaps' end.

Lemma gap_tsns_after cum prev gaps t : gaps_sorted prev gaps → t ∈ gap_tsns cum gaps → cum + prev < t.
Proof using Type.
  revert prev. induction gaps as [|b gaps IH]; intros prev; cbn [gaps_sorted]; [by intros _ ?%elem_of_nil|].
  intros [Hb Hs]. unfold gap_tsns. rewrite fmap_cons. cbn [concat]. rewrite elem_of_app, elem_of_tsn_range. unfold AddTo.
  intros [?|H]; [lia|]. specialize (IH (gap_end b) Hs H). lia.
Qed.

Lemma nack_tsns_uncovered cum max prev gaps t : gaps_sorted prev gaps →
  t ∈ nack_tsns cum max (cum + prev) gaps → (t ∉ gap_tsns cum gaps) ∧ cum + prev < t.
Proof using Type.
  revert prev. induction gaps as [|b gaps IH]; intros prev; cbn [gaps_sorted nack_tsns]; [by intros _ ?%elem_of_nil|].
  intros [Hb Hs]. unfold gap_tsns. rewrite fmap_cons. cbn [concat]. rewrite !elem_of_app, !elem_of_tsn_range.
  unfold AddTo, next_value. intros [Ht|Ht].
  - split; [|lia]. intros [?|Hc]; [lia|]. apply (gap_tsns_after cum (gap_end b) gaps t Hs) in Hc. lia.
  - destruct (IH (gap_end b) Hs Ht) as [Hn ?]. split; [|lia]. intros [?|Hc]; [lia | by apply Hn].
Qed.

(** From one call to another chunks leave at the front, and the rest keep their data. *)
Record od_evolves d d' : Prop := mkEvolves {
  ev_header : data_chunk_header_size_ d' = data_chunk_header_size_ d;
  ev_last : last_cumulative_tsn_ack_ d ≤ last_cumulative_tsn_ack_ d';
  ev_highest : highest_outstanding_tsn d ≤ highest_outstanding_tsn d';
  ev_old : ∀ t i, chunk_at d t = Some i → last_cumulative_tsn_ack_ d' < t → ∃ j, chunk_at d' t = Some j ∧ same_chunk i j;
  ev_new : ∀ t j, highest_outstanding_tsn d < t → chunk_at d' t = Some j → is_abandoned j = true;
  ev_discards : discards_from (send_queue_ d) (send_queue_ d')
}.

Lemma frame_evolves touched d d' : od_frame touched d d' → od_evolves d d'.
Proof using Type.
  intros [? Hl ? Ho ? ? _]. split; auto; [by rewrite Hl|]. intros t i Hc _. destruct (Ho t i Hc) as (j & ? & ? & _). eauto.
Qed.

(** The cumulative TSN stays, and the queue unless a message is given up. *)
Definition od_moves d d' : Prop :=
  od_evolves d d' ∧ last_cumulative_tsn_ack_ d' = last_cumulative_tsn_ack_ d ∧ (send_queue_ d' = send_queue_ d ∨ has_abandoned d').

Lemma frame_moves touched d d' : od_frame touched d d' → od_moves d d'.
Proof using Type. intros H. split; [by eapply frame_evolves|]. split; apply H. Qed.

Lemma evolves_same d d1 d2 : data_chunk_header_size_ d2 = data_chunk_header_size_ d1 →
  last_cumulative_tsn_ack_ d2 = last_cumulative_tsn_ack_ d1 → outstanding_data_ d2 = outstanding_data_ d1 → send_queue_ d2 = send_queue_ d1 →
  od_evolves d d1 → od_evolves d d2.
Proof using Type.
  intros Hh Hl Hi Hq [? ? Hhi Ho Hn ?]. unfold highest_outstanding_tsn, chunk_at in *.
  split; unfold highest_outstanding_tsn, chunk_at; rewrite ?Hh, ?Hl, ?Hi, ?Hq; auto.
Qed.

(** What a SACK does: its cumulative TSN is the new one, what its blocks cover is acked if it
    was outstanding, nothing else becomes acked, and of what lies between the blocks nothing
    below the highest TSN newly acknowledged stays in flight. *)
Record sacked (cum : Z) (gaps : list GapAckBlock) d d' (info : AckInfo) : Prop := mkSacked {
  sk_wf : od_wf d';
  sk_room : room d' ≤ room d;
  sk_evolves : od_evolves d d';
  sk_last : last_cumulative_tsn_ack_ d' = cum;
  sk_queue : send_queue_ d' = send_queue_ d ∨ has_abandoned d';
  sk_sound : ∀ t, t ≤ highest_outstanding_tsn d → acked_at d' t → acked_at d t ∨ t ∈ gap_tsns cum gaps;
  sk_complete : gaps_sorted 0 gaps → ∀ t, t ∈ gap_tsns cum gaps → t ≤ highest_outstanding_tsn d → acked_at d' t
}.

Lemma acked_frame touched d d' t : od_frame touched d d' → last_cumulative_tsn_ack_ d < t ≤ highest_outstanding_tsn d →
  ¬ touched t → acked_at d' t ↔ acked_at d t.
Proof using Type.
  intros Hfr Hr Ht. destruct (chunk_at_found d t Hr) as [i Hi]. destruct (frame_ack_state _ _ _ t i Hfr Hi Ht) as (j & Hj & Hs & _).
  unfold acked_at. rewrite Hi, Hj. unfold is_acked. split; intros (? & [= <-] & ?); eexists; (split; [done|]); rewrite bool_decide_eq_true in *; congruence.
Qed.

Lemma nacking_sound d tsns d' t : nacking false d tsns [] d' → t ≤ highest_outstanding_tsn d → acked_at d' t → acked_at d t ∧ (t ∉ tsns).
Proof using Type.
  intros [_ _ Hfr _ Hd] Hh Ha. pose proof (fr_last _ _ _ Hfr). assert (t ∉ tsns) as Hn.
  { intros Ht. destruct (Hd t Ht) as [?%elem_of_nil|(j & Hj & Hnj & _)]; [done|]. destruct Ha as (k & Hk & Hka).
    rewrite Hj in Hk. injection Hk as <-. unfold is_acked, is_nacked in *. rewrite bool_decide_eq_true in *. congruence. }
  split; [|done]. apply (proj1 (acked_frame _ d d' t Hfr ltac:(destruct Ha as (k & Hk%chunk_at_range & _); lia) Hn) Ha).
Qed.

Lemma sacked_compose cum gaps tsns d d1 d2 d3 info info' :
  data_chunk_header_size_ d1 = data_chunk_header_size_ d → send_queue_ d1 = send_queue_ d → last_cumulative_tsn_ack_ d ≤ cum → last_cumulative_tsn_ack_ d1 = cum →
  highest_outstanding_tsn d1 = highest_outstanding_tsn d → room d1 ≤ room d → (∀ t, cum < t → chunk_at d1 t = chunk_at d t) →
  acking d1 (gap_tsns cum gaps) [] info d2 → nacking false d2 tsns [] d3 →
  (gaps_sorted 0 gaps → ∀ t, t ∈ tsns → t ∉ gap_tsns cum gaps) → sacked cum gaps d d3 info'.
Proof using Type.
  intros Hhd Hq1 Hcum Hl1 Hh1 Hr1 Hc1 [Hw2 Hr2 Hf2 Hfr2 Hh2 _ _ Hd2] Hnk Hsort. pose proof Hnk as [Hw3 Hr3 Hfr3 _ _].
  assert (od_frame (λ t, t ∈ gap_tsns cum gaps ∨ t ∈ tsns) d1 d3) as Hfr.
  { eapply od_frame_trans; [| |exact Hfr3]; [by right|]. destruct Hfr2 as [? ? ? Ho ? ? ?]. split; auto.
    intros t i Hi. destruct (Ho t i Hi) as (j & ? & ? & ?). exists j. tauto. }
  pose proof (fr_last _ _ _ Hfr2) as Hl2. pose proof (fr_last _ _ _ Hfr3) as Hl3. pose proof (fr_highest _ _ _ Hfr3).
  split; [done|lia| |congruence|rewrite <- Hq1; apply Hfr|..].
  - destruct (frame_evolves _ _ _ Hfr) as [? ? ? Ho Hn ?]. split; [congruence|lia|lia| | |by rewrite <- Hq1].
    + intros t i Hi Ht. apply Ho; [|lia]. rewrite Hc1 by lia. done.
    + intros t j Ht. apply Hn. lia.
  - intros t Ht Ha. assert (cum < t) by (destruct Ha as (k & Hk%chunk_at_range & _); lia).
    destruct (nacking_sound d2 tsns d3 t Hnk ltac:(lia) Ha) as [Ha2 _].
    destruct (decide (t ∈ gap_tsns cum gaps)) as [|Hn]; [by right|]. left.
    unfold acked_at. rewrite <- Hc1 by done. apply (acked_frame _ d1 d2 t Hfr2); [lia|done|done].
  - intros Hs t Ht Hle. pose proof (gap_tsns_after cum 0 gaps t Hs Ht). assert (t ∉ tsns) by (intros ?; by apply (Hsort Hs t)).
    apply (acked_frame _ d2 d3 t Hfr3); [lia|done|]. destruct (Hd2 t Ht) as [?%elem_of_nil|]; [lia|done..].
Qed.

Lemma HandleSack_spec cum gaps fr d :
  od_wf d → room d < 2 ^ 31 → to_be_fast_retransmitted_ d = [] → Forall (λ b, 0 ≤ gap_end b) gaps →
  last_cumulative_tsn_ack_ d ≤ cum ≤ highest_outstanding_tsn d →
  wp (HandleSack cum gaps fr) (λ info d', sacked cum gaps d d' info) d.
Proof using Type.
  intros Hw Hr Hf Hg Hcum. unfold HandleSack. apply wp_bind. unfold wp at 1, get. unfold RemoveAcked.
  pose proof (remove_loop_spec (length (outstanding_data_ d)) cum (AckInfo_new cum) d Hw Hr Hf (le_n _) Hcum eq_refl) as H1.
  destruct (remove_loop _ _ _ d) as [info d1]. destruct H1 as (Hw1 & Hr1 & Hf1 & Hhd1 & Hl1 & Hh1 & Hi1 & Hq1 & Hc1).
  set (d1' := d1 <| stream_reset_breakpoint_tsns_ ::= set_erase_to (next_value cum) |>).
  assert (od_wf d1') as Hw1' by (destruct Hw1; by split).
  apply wp_bind. unfold wp at 1, modify. apply wp_bind.
  eapply wp_mono; [|apply (AckGapBlocks_spec cum gaps info d1' Hw1')]; [|exact (Z.le_lt_trans _ _ _ Hr1 Hr)|exact Hf1|].
  2: { change (highest_outstanding_tsn d1') with (highest_outstanding_tsn d1). change (last_cumulative_tsn_ack_ d1') with (last_cumulative_tsn_ack_ d1). lia. }
  cbn beta. intros info2 d2 Hak. pose proof Hak as [Hw2 Hr2 Hf2 Hfr2 Hh2 Hi2 _ Hd2]. unfold NackBetweenAckBlocks. apply wp_bind. unfold wp at 1, get.
  assert (room d1' = room d1 ∧ chunk_at d1' = chunk_at d1 ∧ highest_outstanding_tsn d1' = highest_outstanding_tsn d1
    ∧ last_cumulative_tsn_ack_ d1' = cum) as (HR & HC & HH & HL) by (split; [done|]; split; [done|]; split; [done|exact Hl1]).
  rewrite (fr_last _ _ _ Hfr2), HL, Z.ltb_irrefl, andb_false_r. cbv zeta.
  unfold wp. rewrite nack_before_flat. set (tsns := nack_tsns cum (highest_tsn_acked info2) cum gaps).
  assert (∀ t, t ∈ tsns → last_cumulative_tsn_ack_ d2 < t ≤ highest_outstanding_tsn d2) as Hrange.
  { intros t Ht. rewrite (fr_last _ _ _ Hfr2), HL. unfold tsns in Ht. apply nack_tsns_range in Ht; [lia|lia|done]. }
  enough (wp (nack_all_of (negb fr) tsns info2) (λ info3 d3, sacked cum gaps d d3 info3) d2) as Hgoal by exact Hgoal.
  eapply wp_mono; [|apply (nack_all_of_spec (negb fr) tsns info2 d2 Hw2); [lia|done]].
  cbn beta. intros info3 d3 Hnk. apply (sacked_compose cum gaps tsns d d1' d2 d3 info2 info3); auto; try lia.
  - intros Hs t Ht. apply (nack_tsns_uncovered cum (highest_tsn_acked info2) 0 gaps t Hs). by rewrite Z.add_0_r.
Qed.
(** ** Retransmission *)

(** The set that [ExtractChunksThatCanFit] is called on. *)
Definition with_set (fast : bool) (s : list Z) d : OutstandingData Q :=
  if fast then d <| to_be_fast_retransmitted_ := s |> else d <| to_be_retransmitted_ := s |>.
Definition other_set (fast : bool) d : list Z := if fast then to_be_retransmitted_ d else to_be_fast_retransmitted_ d.

Lemma increasing_split pre t rest : increasing (pre ++ t :: rest) → increasing (pre ++ rest) ∧ t ∉ pre ++ rest.
Proof using Type.
  induction pre as [|u pre IH]; cbn [app]; intros Hs; inversion Hs as [|? ? Hs' Hf]; subst.
  - split; [done|]. intros Ht. eapply Forall_forall in Hf; [|exact Ht]. lia.
  - destruct (IH Hs') as [Hi Hn]. split.
    + constructor; [done|]. apply Forall_forall. intros v Hv. eapply Forall_forall in Hf; [exact Hf|].
      rewrite elem_of_app, elem_of_cons in *. tauto.
    + rewrite elem_of_cons. intros [->|?]; [|done]. eapply Forall_forall in Hf; [|apply elem_of_app; right; left]. lia.
Qed.

Lemma MarkAsRetransmitted_facts i : should_be_retransmitted i = true → is_outstanding (MarkAsRetransmitted i) = true
  ∧ should_be_retransmitted (MarkAsRetransmitted i) = false ∧ same_chunk i (MarkAsRetransmitted i) ∧ room_of (MarkAsRetransmitted i) = room_of i.
Proof using Type.
  intros Hs. pose proof (retransmitted_not_abandoned i Hs) as Ha. unfold same_chunk, room_of. rewrite Ha. done.
Qed.

(** One chunk is sent again and leaves the set. *)
Definition resent_state d (tsn : Z) (i : Item) : OutstandingData Q :=
  add_in_flight (GetSerializedChunkSize d (item_data_ i)) (set_item tsn (MarkAsRetransmitted i) d).

Lemma resent_state_spec fast pre rest tsn i d :
  od_wf (with_set fast (pre ++ tsn :: rest) d) → room d < 2 ^ 31 → chunk_at d tsn = Some i →
  let d' := resent_state d tsn i in
  od_wf (with_set fast (pre ++ rest) d') ∧ room d' = room d ∧ od_frame (λ t, t = tsn) d d'
  ∧ chunk_at d' tsn = Some (MarkAsRetransmitted i) ∧ (∀ t, t ≠ tsn → chunk_at d' t = chunk_at d t) ∧ other_set fast d' = other_set fast d
  ∧ should_be_retransmitted i = true.
Proof using Type.
  intros Hw Hr Hc d'. set (D := with_set fast (pre ++ tsn :: rest) d) in *.
  assert (chunk_at D = chunk_at d) as HC by (by destruct fast). assert (room D = room d) as HR by (by destruct fast).
  assert (should_be_retransmitted i = true) as Hs.
  { assert (tsn ∈ to_be_fast_retransmitted_ D ∨ tsn ∈ to_be_retransmitted_ D) as Hm.
    { destruct fast; [left|right]; cbn; apply elem_of_app; right; left. }
    apply (wf_sets D Hw) in Hm as (k & Hk & ?). rewrite HC, Hc in Hk. congruence. }
  destruct (MarkAsRetransmitted_facts i Hs) as (Ho & Hs' & Hsame & Hroom).
  pose proof (not_outstanding i (wf_nacked D Hw tsn i ltac:(by rewrite HC) Hs)) as Hoi.
  assert (d' = mkOutstanding (data_chunk_header_size_ d) (last_cumulative_tsn_ack_ d) (send_queue_ d)
    (<[Z.to_nat (tsn - last_cumulative_tsn_ack_ d - 1) := MarkAsRetransmitted i]> (outstanding_data_ d))
    (wrap 64 (unacked_bytes_ d - flight_bytes (data_chunk_header_size_ d) i + flight_bytes (data_chunk_header_size_ d) (MarkAsRetransmitted i)))
    (wrap 64 (unacked_items_ d - flight_items i + flight_items (MarkAsRetransmitted i)))
    (to_be_fast_retransmitted_ d) (to_be_retransmitted_ d) (stream_reset_breakpoint_tsns_ d)) as ->.
  { subst d'. unfold resent_state. rewrite (set_item_exact d tsn i) by done. rewrite (no_flight _ _ Hoi), (no_flight_item _ Hoi).
    unfold flight_bytes, flight_items, add_in_flight, GetSerializedChunkSize, chunk_size. rewrite Ho. cbn. by rewrite !Z.sub_0_r. }
  split; [|split; [rewrite (room_update d tsn i) by done; lia|]].
  - assert (increasing (pre ++ tsn :: rest)) as Hi by (destruct Hw; by destruct fast).
    destruct (increasing_split pre tsn rest Hi) as [Hi' Hnot].
    pose proof (wf_disjoint D Hw) as Hdj. subst D. destruct fast; cbn in Hdj |- *.
    + apply (wf_update (with_set true (pre ++ tsn :: rest) d) tsn i); auto; [exact (wf_rtx _ Hw)| |].
      * intros t Ht. cbn. apply Hdj. rewrite elem_of_app, elem_of_cons in *. tauto.
      * intros t. cbn. rewrite Hs'. destruct (Z.eqb_spec t tsn) as [->|]; [|rewrite !elem_of_app, elem_of_cons; tauto].
        specialize (Hdj tsn). rewrite !elem_of_app, elem_of_cons in *. intuition discriminate.
    + apply (wf_update (with_set false (pre ++ tsn :: rest) d) tsn i); auto; [exact (wf_fast _ Hw)| |].
      * intros t Ht Ht'. apply (Hdj t Ht). rewrite elem_of_app, elem_of_cons in *. tauto.
      * intros t. cbn. rewrite Hs'. destruct (Z.eqb_spec t tsn) as [->|]; [|rewrite !elem_of_app, elem_of_cons; tauto].
        specialize (Hdj tsn). rewrite !elem_of_app, elem_of_cons in *. intuition discriminate.
  - split; [by apply (frame_update d tsn i)|]. unfold chunk_at. cbn. setoid_rewrite (look_insert _ _ _ i); [|done..].
    rewrite Z.eqb_refl. split; [done|]. split; [|done]. intros t Ht. by rewrite (proj2 (Z.eqb_neq _ _)).
Qed.
Definition chunks_size d (l : list (Z * Data)) : Z := total_of (λ p, GetSerializedChunkSize d p.2) l.

(** What extraction from a set returns and leaves behind. *)
Record extracted (fast : bool) (pre chunks : list Z) (max_size : Z) d (r : list (Z * Data) * list Z) d' : Prop := mkExtracted {
  ex_wf : od_wf (with_set fast (pre ++ r.2) d');
  ex_room : room d' = room d;
  ex_frame : od_frame (λ t, t ∈ chunks) d d';
  ex_other : other_set fast d' = other_set fast d;
  ex_bytes : unacked_bytes_ d' = wrap 64 (unacked_bytes_ d + chunks_size d r.1);
  ex_queue : send_queue_ d' = send_queue_ d;
  ex_length : length (outstanding_data_ d') = length (outstanding_data_ d);
  ex_same : ∀ t, t ∉ chunks → chunk_at d' t = chunk_at d t;
  ex_size : 0 ≤ max_size → chunks_size d r.1 ≤ max_size;
  ex_chunk : ∀ p, p ∈ r.1 → ∃ t i, t ∈ chunks ∧ p = (Wrap 32 t, item_data_ i) ∧ chunk_at d t = Some i
    ∧ should_be_retransmitted i = true ∧ chunk_at d' t = Some (MarkAsRetransmitted i);
  ex_left : ∀ t, t ∈ r.2 → t ∈ chunks;
  ex_taken : ∀ t, t ∈ chunks → t ∈ r.2 ∨ ∃ i, chunk_at d t = Some i ∧ (Wrap 32 t, item_data_ i) ∈ r.1
}.

Lemma extract_nothing fast pre chunks max_size d : od_wf (with_set fast (pre ++ chunks) d) →
  extracted fast pre chunks max_size d ([], chunks) d.
Proof using Type.
  intros Hw. split; cbn; auto using od_frame_refl; [|by intros p ?%elem_of_nil]. rewrite Z.add_0_r. pose proof (wf_bytes _ Hw) as Hb.
  assert (unacked_bytes_ (with_set fast (pre ++ chunks) d) = unacked_bytes_ d) as E by (by destruct fast). rewrite E in Hb. by rewrite Hb, wrap_wrap.
Qed.

(** A chunk that does not fit stays in the set. *)
Lemma extract_skip fast pre t rest max_size d r d' : od_wf (with_set fast (pre ++ t :: rest) d) →
  extracted fast (pre ++ [t]) rest max_size d r d' → extracted fast pre (t :: rest) max_size d (r.1, t :: r.2) d'.
Proof using Type.
  intros Hw [Hw' Hr Hf Ho Hub Hq Hln Hsm Hs Hc Hl Ht]. split; cbn; auto.
  - by rewrite <- app_assoc in Hw'.
  - eapply od_frame_weaken; [|exact Hf]. by right.
  - intros u Hu. apply Hsm. intros ?. apply Hu. by right.
  - intros p Hp. destruct (Hc p Hp) as (u & i & ? & ?). exists u, i. split; [by right|done].
  - intros u. rewrite !elem_of_cons. intros [->|?]; auto.
  - intros u. rewrite !elem_of_cons. intros [->|Hu]; [auto|]. destruct (Ht u Hu); auto.
Qed.

(** A chunk that fits is sent, and extraction goes on with what is left. *)
Lemma extract_take fast pre t rest max_size i d r d' :
  let d1 := resent_state d t i in let size := GetSerializedChunkSize d (item_data_ i) in
  od_wf (with_set fast (pre ++ t :: rest) d) → room d < 2 ^ 31 → chunk_at d t = Some i → size ≤ max_size → t ∉ rest →
  extracted fast pre rest (max_size - size) d1 r d' →
  extracted fast pre (t :: rest) max_size d ((Wrap 32 t, item_data_ i) :: r.1, r.2) d'.
Proof using Type.
  intros d1 size Hw Hr Hi Hsz Hnot [Hw' Hr' Hf Ho Hub Hq Hln Hsm Hs Hc Hl Ht].
  destruct (resent_state_spec fast pre rest t i d Hw Hr Hi) as (Hw1 & Hr1 & Hf1 & Hc1 & Hc1' & Ho1 & Hsr). fold d1 in Hw1, Hr1, Hf1, Hc1, Hc1', Ho1.
  assert (∀ u, u ∈ rest → chunk_at d1 u = chunk_at d u) as Hsame by (intros u Hu; apply Hc1'; by intros ->).
  assert (chunks_size d1 r.1 = chunks_size d r.1) as Hcs by (unfold chunks_size, GetSerializedChunkSize; by rewrite (fr_header _ _ _ Hf1)).
  split; cbn; [done|congruence| |congruence|rewrite Hub, Hcs; cbn; rewrite wrap_plus, Z.add_assoc by done; done|done|rewrite Hln; apply length_insert|..].
  - eapply od_frame_trans with (d1 := d1); [| |exact Hf]; [by right|]. eapply od_frame_weaken; [|exact Hf1]. intros u ->. left.
  - intros u Hu. rewrite elem_of_cons in Hu. rewrite Hsm by tauto. apply Hc1'. tauto.
  - intros _. specialize (Hs ltac:(lia)). unfold chunks_size, GetSerializedChunkSize in *. rewrite (fr_header _ _ _ Hf1) in Hs. cbn. lia.
  - intros p. rewrite elem_of_cons. intros [->|Hp].
    + exists t, i. split; [left|]. repeat (split; [done|]). by rewrite Hsm.
    + destruct (Hc p Hp) as (u & j & Hu & -> & Hj & ? & ?). exists u, j. split; [by right|]. by rewrite <- Hsame.
  - intros u Hu. right. auto.
  - intros u. rewrite elem_of_cons. intros [->|Hu]; [right; exists i; split; [done|left]|].
    destruct (Ht u Hu) as [|(j & Hj & Hin)]; [by left|]. right. exists j. rewrite <- Hsame by done. split; [done|by right].
Qed.

Lemma extract_loop_spec fast pre chunks max_size d :
  od_wf (with_set fast (pre ++ chunks) d) → room d < 2 ^ 31 →
  wp (extract_loop chunks max_size) (λ r d', extracted fast pre chunks max_size d r d') d.
Proof using Type.
  revert pre max_size d. induction chunks as [|t rest IH]; intros pre max_size d Hw Hr; cbn [extract_loop]; [by apply extract_nothing|].
  assert (∃ i, chunk_at d t = Some i) as [i Hi].
  { assert (t ∈ to_be_fast_retransmitted_ (with_set fast (pre ++ t :: rest) d) ∨ t ∈ to_be_retransmitted_ (with_set fast (pre ++ t :: rest) d))
      as (i & Hi & _)%(wf_sets _ Hw) by (destruct fast; [left|right]; cbn; apply elem_of_app; right; left).
    exists i. by destruct fast. }
  assert (increasing (pre ++ t :: rest)) as Hinc by (destruct Hw; by destruct fast).
  destruct (increasing_split pre t rest Hinc) as [_ Hnot]. rewrite elem_of_app in Hnot.
  apply wp_bind. unfold wp at 1. rewrite (GetItem_found d t i Hr Hi). apply wp_bind. unfold wp at 1, get. cbv zeta. apply wp_bind.
  destruct (Z.leb_spec (GetSerializedChunkSize d (item_data_ i)) max_size) as [Hfit|Hbig]; unfold wp at 1; cbn [when modify].
  - fold (resent_state d t i). destruct (resent_state_spec fast pre rest t i d Hw Hr Hi) as (Hw1 & Hr1 & _). apply wp_bind.
    eapply wp_mono with (P := λ r d', extracted fast pre rest (max_size - GetSerializedChunkSize d (item_data_ i)) (resent_state d t i) r d').
    { intros r d' He. unfold wp. cbn [ret]. apply extract_take; auto. }
    destruct (_ <=? _); [by apply extract_nothing|]. apply IH; [done|lia].
  - apply wp_bind. eapply wp_mono with (P := λ r d', extracted fast (pre ++ [t]) rest max_size d r d').
    { intros r d' He. unfold wp. cbn [ret]. by apply extract_skip. }
    destruct (_ <=? _); [apply extract_nothing | apply IH; [|done]]; by rewrite <- app_assoc.
Qed.
(** Chunks that are handed out again were waiting for it, and fit. *)
Record resent (l : list (Z * Data)) (max_size : Z) d d' : Prop := mkResent {
  rs_wf : od_wf d';
  rs_room : room d' = room d;
  rs_evolves : od_evolves d d';
  rs_bytes : unacked_bytes_ d' = wrap 64 (unacked_bytes_ d + chunks_size d l);
  rs_queue : send_queue_ d' = send_queue_ d;
  rs_length : length (outstanding_data_ d') = length (outstanding_data_ d);
  rs_last : last_cumulative_tsn_ack_ d' = last_cumulative_tsn_ack_ d;
  rs_size : 0 ≤ max_size → chunks_size d l ≤ max_size;
  rs_chunk : ∀ p, p ∈ l → ∃ t i, p = (Wrap 32 t, item_data_ i) ∧ chunk_at d t = Some i ∧ should_be_retransmitted i = true
}.

Lemma GetChunksToBeRetransmitted_spec max_size d : od_wf d → room d < 2 ^ 31 →
  wp (GetChunksToBeRetransmitted max_size) (λ l d', resent l max_size d d') d.
Proof using Type.
  intros Hw Hr. unfold GetChunksToBeRetransmitted. apply wp_bind. unfold wp at 1, gets. apply wp_bind.
  eapply wp_mono; [|apply (extract_loop_spec false [] (to_be_retransmitted_ d) max_size d); [by destruct d|done]].
  cbn beta. intros r d' [Hw' Hr' Hf _ Hub Hq Hln _ Hs Hc _ _]. unfold wp. cbn [bind modify ret]. split; try done; [|apply Hf|].
  - apply (evolves_same d d'); try done. by eapply frame_evolves.
  - intros p Hp. destruct (Hc p Hp) as (t & i & _ & ? & ? & ? & _). eauto.
Qed.

Lemma GetChunksToBeFastRetransmitted_spec max_size d : od_wf d → room d < 2 ^ 31 →
  wp (GetChunksToBeFastRetransmitted max_size) (λ l d', resent l max_size d d' ∧ to_be_fast_retransmitted_ d' = []) d.
Proof using Type.
  intros Hw Hr. unfold GetChunksToBeFastRetransmitted. apply wp_bind. unfold wp at 1, gets. apply wp_bind.
  eapply wp_mono; [|apply (extract_loop_spec true [] (to_be_fast_retransmitted_ d) max_size d); [by destruct d|done]].
  cbn beta. intros r d' [[Hb Hi Hfi Hri _ Hsets Hn] Hr' Hf Ho Hub Hq Hln _ Hs Hc _ _]. unfold wp. cbn [bind modify ret].
  split; [|done]. cbn in *. split; try done; [| |apply Hf|].
  - split; cbn; try done; [constructor|by apply set_insert_all_increasing|by intros ? ?%elem_of_nil|].
    intros t. rewrite elem_of_set_insert_all, elem_of_nil. specialize (Hsets t). cbn in Hsets. rewrite <- Hsets. tauto.
  - apply (evolves_same d d'); try done. by eapply frame_evolves.
  - intros p Hp. destruct (Hc p Hp) as (t & i & _ & ? & ? & ? & _). eauto.
Qed.

Lemma elem_of_tsns_to_nack last items t : t ∈ tsns_to_nack last items ↔ ∃ i, look last items t = Some i ∧ is_acked i = false.
Proof using Type.
  revert last. induction items as [|i items IH]; intros last; cbn [tsns_to_nack].
  { rewrite elem_of_nil. split; [done|]. intros (? & [_ ?]%look_Some & _). done. }
  unfold next_value. setoid_rewrite look_cons. specialize (IH (last + 1)).
  destruct (is_acked i) eqn:E; rewrite ?elem_of_cons, IH; destruct (Z.eqb_spec t (last + 1)) as [->|Hne].
  1: split; [intros (? & [? _]%look_Some & _); lia | intros (? & [= <-] & ?); congruence].
  1: done.
  1: split; [intros _; by eexists | by left].
  split; [by intros [?|?] | by right].
Qed.

Lemma NackAll_spec d : od_wf d → room d < 2 ^ 31 →
  wp NackAll (λ _ d', od_wf d' ∧ room d' ≤ room d ∧ od_moves d d'
    ∧ ∀ t, last_cumulative_tsn_ack_ d < t ≤ highest_outstanding_tsn d → acked_at d t ∨ ∃ j, chunk_at d' t = Some j ∧ settled j = true) d.
Proof using Type.
  intros Hw Hr. unfold NackAll. apply wp_bind. unfold wp at 1, get. set (tsns := tsns_to_nack _ _).
  eapply wp_mono; [|apply (wp_for_each _ (nacking true d tsns) tsns d)].
  - cbn beta. intros _ d' [Hw' Hr' Hf _ Hd]. split; [done|]. split; [done|]. split; [by eapply frame_moves|]. intros t Ht.
    destruct (chunk_at_found d t Ht) as [i Hi]. destruct (is_acked i) eqn:E; [left; by exists i|]. right.
    destruct (Hd t) as [?%elem_of_nil|(j & ? & _ & ?)]; [|done|eauto]. apply elem_of_tsns_to_nack. eauto.
  - intros t left d' Hn. apply wp_bind. eapply wp_mono; [|by apply (NackItem_nacking true false d tsns t left d')]. done.
  - split; auto using od_frame_refl, Z.le_refl. intros t Ht. split; [done|].
    apply elem_of_tsns_to_nack in Ht as (i & Hi & _). by apply (chunk_at_range d t i).
Qed.

(** A chunk joins those in flight. *)
Lemma append_spec item d : od_wf d → is_outstanding item = true → lifecycle_ item = kActive →
  let d' := add_in_flight (GetSerializedChunkSize d (item_data_ item)) d <| outstanding_data_ := outstanding_data_ d ++ [item] |> in
  od_wf d' ∧ room d' = room d + 2 ∧ highest_outstanding_tsn d' = highest_outstanding_tsn d + 1
  ∧ chunk_at d' (highest_outstanding_tsn d + 1) = Some item ∧ ∀ t, t ≤ highest_outstanding_tsn d → chunk_at d' t = chunk_at d t.
Proof using Type.
  intros [Hb Hi Hf Hr Hdj Hs Hn] Ho Hl d'.
  assert (∀ t, chunk_at d' t = if highest_outstanding_tsn d <? t then look (highest_outstanding_tsn d) [item] t else chunk_at d t) as Hc.
  { intros t. unfold chunk_at, d'. cbn. by rewrite look_app. }
  assert (should_be_retransmitted item = false) as Hsr by (unfold should_be_retransmitted; by rewrite Hl).
  assert (∀ t i, chunk_at d' t = Some i → should_be_retransmitted i = true → chunk_at d t = Some i) as Hback.
  { intros t i. rewrite Hc. destruct (_ <? _); [|done]. intros [_ Hk]%look_Some. apply list_elem_of_lookup_2, list_elem_of_singleton in Hk as ->. congruence. }
  split; [split; cbn; try done|split; [|split; [|split]]].
  - rewrite Hb, total_of_app, wrap_plus by done. f_equal. cbn. unfold flight_bytes. rewrite Ho. unfold chunk_size, GetSerializedChunkSize. lia.
  - rewrite Hi, total_of_app, wrap_plus by done. f_equal. cbn. unfold flight_items. rewrite Ho. lia.
  - intros t. rewrite Hs. split; intros (i & Hi' & ?); exists i; (split; [|done]).
    + rewrite Hc. pose proof (chunk_at_range _ _ _ Hi'). by rewrite (proj2 (Z.ltb_ge _ _)) by lia.
    + by apply Hback.
  - intros t i Hi' Hsr'. eauto.
  - unfold room, d'. cbn. rewrite total_of_app. cbn [total_of]. replace (room_of item) with 2 by (unfold room_of, is_abandoned; by rewrite Hl). lia.
  - unfold highest_outstanding_tsn, AddTo, d'. cbn. rewrite length_app. cbn. lia.
  - rewrite Hc, (proj2 (Z.ltb_lt _ _)) by lia. rewrite look_cons. by rewrite Z.eqb_refl.
  - intros t Ht. rewrite Hc. by rewrite (proj2 (Z.ltb_ge _ _)) by lia.
Qed.

Lemma AbandonAllFor_new item d t j : chunk_at d (highest_outstanding_tsn d) = Some item → highest_outstanding_tsn d ≤ t →
  chunk_at (AbandonAllFor item d) t = Some j → is_abandoned j = true.
Proof using Type.
  intros Hc Ht Hj. destruct (Z.eq_dec t (highest_outstanding_tsn d)) as [->|].
  - destruct (AbandonAllFor_abandons item d _ Hc) as (k & Hk & ?). congruence.
  - apply (fr_new _ _ _ (AbandonAllFor_frame item d _ Hc) t j); [lia|done].
Qed.

Lemma Insert_spec message_id data time_sent mr expires_at lifecycle_id d : od_wf d →
  let '(r, d') := Insert message_id data time_sent mr expires_at lifecycle_id d in
  od_wf d' ∧ room d' ≤ room d + 3 ∧ data_chunk_header_size_ d' = data_chunk_header_size_ d
  ∧ last_cumulative_tsn_ack_ d' = last_cumulative_tsn_ack_ d ∧ highest_outstanding_tsn d < highest_outstanding_tsn d'
  ∧ (∀ t i, chunk_at d t = Some i → ∃ j, chunk_at d' t = Some j ∧ same_chunk i j ∧ item_ack_state_ j = item_ack_state_ i)
  ∧ unacked_bytes_ d' = wrap 64 (unacked_bytes_ d + GetSerializedChunkSize d data) ∧ discards_from (send_queue_ d) (send_queue_ d')
  ∧ match r with
    | Some tsn => tsn = highest_outstanding_tsn d + 1 ∧ highest_outstanding_tsn d' = tsn ∧ time_sent < expires_at ∧ send_queue_ d' = send_queue_ d
        ∧ chunk_at d' tsn = Some (Item_new message_id data time_sent mr expires_at lifecycle_id)
    | None => ∀ t j, highest_outstanding_tsn d < t → chunk_at d' t = Some j → is_abandoned j = true
    end.
Proof using Type.
  intros Hw. unfold Insert. set (item := Item_new _ _ _ _ _ _).
  destruct (append_spec item d Hw eq_refl eq_refl) as (Hw1 & Hr1 & Hh1 & Hc1 & Hs1). change (item_data_ item) with data in *.
  set (d1 := _ <| outstanding_data_ := _ |>) in *.
  assert (∀ t i, chunk_at d t = Some i → chunk_at d1 t = Some i) as Hold.
  { intros t i Hi. pose proof (chunk_at_range _ _ _ Hi). rewrite Hs1 by lia. done. }
  destruct (has_expired time_sent item) eqn:Hexp.
  - pose proof (AbandonAllFor_frame item d1 _ Hc1) as Hfr. pose proof (AbandonAllFor_room item d1) as Hroom.
    assert (length (ends d1 item) ≤ 1)%nat by (unfold ends; destruct (discards d1 item); cbn; lia).
    pose proof (fr_highest _ _ _ Hfr). split; [by apply AbandonAllFor_wf|]. split; [lia|]. split; [exact (fr_header _ _ _ Hfr)|].
    split; [exact (fr_last _ _ _ Hfr)|]. split; [lia|]. split.
    + intros t i Hi. destruct (fr_old _ _ _ Hfr t i (Hold t i Hi)) as (j & ? & ? & [? _]%(λ f, f (λ x, x))). eauto.
    + split; [by destruct (AbandonAllFor_eq item d1) as (q & fast & rtx & -> & _)|]. split; [exact (fr_discards _ _ _ Hfr)|].
      intros t j Ht. apply AbandonAllFor_new; [by rewrite Hh1 | lia].
  - split; [done|]. split; [lia|]. split; [done|]. split; [done|]. split; [lia|]. split.
    + intros t i Hi. exists i. split; [auto|]. by split.
    + split; [done|]. split; [done|]. split; [done|]. split; [exact Hh1|]. split; [by apply Z.leb_gt in Hexp|]. done.
Qed.
Lemma od_evolves_refl d : od_evolves d d.
Proof using Type. apply (frame_evolves (λ _, False)), od_frame_refl. Qed.

Lemma od_evolves_trans d d1 d2 : od_evolves d d1 → od_evolves d1 d2 → od_evolves d d2.
Proof using Type.
  intros [? ? ? Ho Hn ?] [? ? ? Ho' Hn' ?]. split; try congruence; [lia..| | |by etransitivity].
  - intros t i Hi Ht. destruct (Ho t i Hi ltac:(lia)) as (j & Hj & Hs). destruct (Ho' t j Hj Ht) as (k & Hk & Hs').
    exists k. split; [done|]. by eapply same_chunk_trans.
  - intros t k Ht Hk. destruct (Z.le_gt_cases t (highest_outstanding_tsn d1)) as [Hle|]; [|by apply (Hn' t k)].
    pose proof (chunk_at_range _ _ _ Hk). destruct (chunk_at_found d1 t) as [j Hj]; [lia|].
    destruct (Ho' t j Hj ltac:(lia)) as (k' & Hk' & _ & _ & Hab). rewrite Hk in Hk'. injection Hk' as ->. by apply Hab, (Hn t j).
Qed.

Lemma AbandonAllFor_length item d : length (outstanding_data_ (AbandonAllFor item d)) = (length (outstanding_data_ d) + length (ends d item))%nat.
Proof using Type. destruct (AbandonAllFor_eq item d) as (q & fast & rtx & -> & _). cbn. by rewrite length_fmap, length_app. Qed.

Lemma expire_loop_spec now todo index d : od_wf d → (index + todo ≤ length (outstanding_data_ d))%nat →
  match expire_loop now todo index d with
  | Ret _ d' => od_wf d' ∧ room d' ≤ room d ∧ od_frame (λ _, False) d d'
  | Undef f _ => f = IterInvalid
  | _ => False
  end.
Proof using Type.
  revert index d. induction todo as [|n IH]; intros index d Hw Hlen; cbn [expire_loop].
  { split; [done|]. split; [lia|]. apply od_frame_refl. }
  destruct (lookup_lt_is_Some_2 (outstanding_data_ d) index ltac:(lia)) as [i Hi].
  cbn [bind gets]. rewrite Hi. cbn [in_bounds ret]. destruct (is_abandoned i); [apply IH; [done|lia]|].
  destruct (is_nacked i && has_expired now i); [|split; [done|]; split; [lia|]; apply od_frame_refl].
  cbn [bind modify gets]. rewrite AbandonAllFor_length. destruct (Nat.eqb_spec (length (outstanding_data_ d) + length (ends d i)) (length (outstanding_data_ d))); [|done].
  specialize (IH (S index) (AbandonAllFor i d) (AbandonAllFor_wf i d Hw)). rewrite AbandonAllFor_length in IH.
  assert (chunk_at d (last_cumulative_tsn_ack_ d + 1 + Z.of_nat index) = Some i) as Hat.
  { unfold chunk_at, look. rewrite (proj2 (Z.ltb_lt _ _)) by lia. rewrite <- Hi. f_equal. lia. }
  pose proof (AbandonAllFor_room i d). pose proof (AbandonAllFor_frame i d _ Hat).
  destruct (expire_loop now n (S index) (AbandonAllFor i d)); try (apply IH; lia).
  destruct IH as (? & ? & ?); [lia|]. split; [done|]. split; [lia|]. eapply (od_frame_trans _ (λ _, False)); [done|eassumption|done].
Qed.

(** ** The code's own consistency check *)

Lemma consistent_loop_spec d tsn items : let '(bytes, count, tsns) := consistent_loop d tsn items in
  bytes = wrap 64 (total_of (flight_bytes (data_chunk_header_size_ d)) items) ∧ count = wrap 64 (total_of flight_items items)
  ∧ increasing tsns ∧ ∀ t, t ∈ tsns ↔ ∃ i, look tsn items t = Some i ∧ should_be_retransmitted i = true.
Proof using Type.
  revert tsn. induction items as [|i items IH]; intros tsn; cbn [consistent_loop total_of].
  { split; [done|]. split; [done|]. split; [constructor|]. intros t. rewrite elem_of_nil. split; [done|]. by intros (? & [_ ?]%look_Some & _). }
  unfold next_value. specialize (IH (tsn + 1)). destruct (consistent_loop d (tsn + 1) items) as [[bytes count] tsns].
  destruct IH as (-> & -> & Hinc & Hm). unfold flight_bytes at 3, flight_items at 3, chunk_size, GetSerializedChunkSize.
  assert (∀ a b, wrap 64 (a + wrap 64 b) = wrap 64 (a + b)) as Hwr by (intros; rewrite Z.add_comm, wrap_plus by done; f_equal; lia).
  split; [destruct (is_outstanding i); [apply Hwr|f_equal; lia]|]. split; [destruct (is_outstanding i); [apply Hwr|f_equal; lia]|].
  assert (Forall (Z.lt (tsn + 1)) tsns) as Hgt by (apply Forall_forall; intros t Ht; apply Hm in Ht as (? & [? _]%look_Some & _); lia).
  split; [destruct (should_be_retransmitted i); [by constructor|done]|]. intros t. setoid_rewrite look_cons.
  destruct (should_be_retransmitted i) eqn:E; rewrite ?elem_of_cons, Hm; destruct (Z.eqb_spec t (tsn + 1)) as [->|].
  1: split; [intros _; by exists i | by left].
  1: split; [by intros [?|?] | by right].
  1: split; [intros (? & [? _]%look_Some & _); lia | intros (? & [= <-] & ?); congruence].
  done.
Qed.

Lemma od_wf_consistent d : od_wf d → IsConsistent d = true.
Proof using Type.
  intros [Hb Hi Hf Hr _ Hs _]. unfold IsConsistent.
  pose proof (consistent_loop_spec d (last_cumulative_tsn_ack_ d) (outstanding_data_ d)) as H.
  destruct (consistent_loop _ _ _) as [[bytes count] tsns]. destruct H as (-> & -> & Hinc & Hm). rewrite Hb, Hi, !Z.eqb_refl. cbn [andb].
  apply bool_decide_eq_true, increasing_ext; [done|apply set_insert_all_increasing, set_insert_all_increasing; constructor|].
  intros t. rewrite Hm, !elem_of_set_insert_all, elem_of_nil. unfold chunk_at in Hs. rewrite <- Hs. tauto.
Qed.
End Invariant.

(** ** Histories

    The states that the operations reach, with the chunks that were sent: their unwrapped TSN
    and their data.  A SACK is handled when [IsSackValid] of the retransmission queue accepts
    it, and no fast retransmission is pending then; between the calls others use the send
    queue.  The sizes stay below the range of the deque's index. *)

Definition sack_valid {Q} (cum : Z) (d : OutstandingData Q) : Prop :=
  last_cumulative_tsn_ack_ d ≤ cum ≤ highest_outstanding_tsn d.

Inductive od_run {Q} `{!SendQueue Q} : OutstandingData Q → list (Z * Data) → Prop :=
| run_new header last q : od_run (OutstandingData_new header last q) []
| run_insert d sent message_id data time_sent mr expires_at lifecycle_id r d' :
    od_run d sent → room d + 3 < 2 ^ 31 →
    Insert message_id data time_sent mr expires_at lifecycle_id d = (r, d') →
    od_run d' (match r with Some tsn => (tsn, data) :: sent | None => sent end)
| run_sack d sent cum gaps fast_recovery info d' :
    od_run d sent → sack_valid cum d → to_be_fast_retransmitted_ d = [] → Forall (λ b, 0 ≤ gap_end b) gaps →
    HandleSack cum gaps fast_recovery d = Ret info d' → od_run d' sent
| run_fast d sent max_size l d' : od_run d sent → GetChunksToBeFastRetransmitted max_size d = Ret l d' → od_run d' sent
| run_retransmit d sent max_size l d' : od_run d sent → GetChunksToBeRetransmitted max_size d = Ret l d' → od_run d' sent
| run_nack_all d sent d' : od_run d sent → NackAll d = Ret tt d' → od_run d' sent
| run_expire d sent now d' : od_run d sent → ExpireOutstandingChunks now d = Ret tt d' → od_run d' sent
| run_begin_reset d sent : od_run d sent → od_run (BeginResetStreams d) sent
| run_queue d sent q : od_run d sent → od_run (d <| send_queue_ := q |>) sent.

Section Histories.
Context {Q : Type} `{!SendQueue Q}.
Implicit Types d : OutstandingData Q.

(** What a history guarantees: the invariant, and that every chunk that may still be sent
    was sent before under its TSN, with its data. *)
Record run_inv d (sent : list (Z * Data)) : Prop := mkRunInv {
  ri_wf : od_wf d;
  ri_room : room d < 2 ^ 31;
  ri_sent : ∀ t i, chunk_at d t = Some i → is_abandoned i = false → (t, item_data_ i) ∈ sent;
  ri_below : ∀ t x, (t, x) ∈ sent → t ≤ highest_outstanding_tsn d;
  ri_unique : NoDup sent.*1
}.

Lemma run_inv_evolves d d' sent : run_inv d sent → od_wf d' → room d' ≤ room d → od_evolves d d' → run_inv d' sent.
Proof using Type.
  intros [_ Hr Hs Hb Hu] Hw' Hr' [_ Hl Hh Ho Hn _]. split; [done|lia| | |done].
  - intros t j Hj Ha. pose proof (chunk_at_range _ _ _ Hj). destruct (Z.le_gt_cases t (highest_outstanding_tsn d)) as [Hle|Hgt].
    + destruct (chunk_at_found d t) as [i Hi]; [lia|]. destruct (Ho t i Hi) as (j' & Hj' & Hd & _ & Hab); [lia|].
      rewrite Hj in Hj'. injection Hj' as <-. rewrite Hd. apply (Hs t i Hi). destruct (is_abandoned i); [|done]. by rewrite Hab in Ha.
    + by rewrite (Hn t j) in Ha by done.
  - intros t x Ht. specialize (Hb t x Ht). lia.
Qed.

Lemma run_inv_insert message_id data time_sent mr expires_at lifecycle_id d sent : run_inv d sent → room d + 3 < 2 ^ 31 →
  let '(r, d') := Insert message_id data time_sent mr expires_at lifecycle_id d in
  run_inv d' (match r with Some tsn => (tsn, data) :: sent | None => sent end).
Proof using Type.
  intros [Hw Hr Hs Hb Hu] Hr3. pose proof (Insert_spec message_id data time_sent mr expires_at lifecycle_id d Hw) as H.
  destruct (Insert _ _ _ _ _ _ d) as [r d']. destruct H as (Hw' & Hr' & _ & Hl' & Hh' & Hold & _ & _ & Hnew).
  assert (∀ t j, chunk_at d' t = Some j → t ≤ highest_outstanding_tsn d → is_abandoned j = false → (t, item_data_ j) ∈ sent) as Hs'.
  { intros t j Hj Ht Ha. pose proof (chunk_at_range _ _ _ Hj). destruct (chunk_at_found d t) as [i Hi]; [lia|].
    destruct (Hold t i Hi) as (j' & Hj' & (Hd & _ & Hab) & _). rewrite Hj in Hj'. injection Hj' as <-. rewrite Hd.
    apply (Hs t i Hi). destruct (is_abandoned i); [|done]. by rewrite Hab in Ha. }
  split; [done|lia|..].
  - intros t j Hj Ha. destruct (Z.le_gt_cases t (highest_outstanding_tsn d)) as [Hle|Hgt].
    + destruct r; [right|]; by apply Hs'.
    + destruct r as [tsn|]; [|by rewrite (Hnew t j) in Ha by done]. destruct Hnew as (-> & Htsn & _ & _ & Hc).
      pose proof (chunk_at_range _ _ _ Hj). assert (t = highest_outstanding_tsn d + 1) as -> by lia.
      rewrite Hc in Hj. injection Hj as <-. left.
  - intros t x Ht. assert ((t, x) ∈ sent → t ≤ highest_outstanding_tsn d') by (intros Hx; specialize (Hb t x Hx); lia).
    destruct r as [tsn|]; [|auto]. apply elem_of_cons in Ht as [[= -> ->]|?]; [destruct Hnew as (-> & Htsn & _); lia|auto].
  - destruct r as [tsn|]; [|done]. rewrite fmap_cons. apply list.NoDup_cons. split; [|done]. intros ((t & x) & Hx & Hin)%list_elem_of_fmap.
    specialize (Hb t x Hin). destruct Hnew as (-> & _). cbn in Hx. lia.
Qed.

Lemma sacked_inv cum gaps fast_recovery d sent : run_inv d sent → sack_valid cum d → to_be_fast_retransmitted_ d = [] →
  Forall (λ b, 0 ≤ gap_end b) gaps → wp (HandleSack cum gaps fast_recovery) (λ info d', sacked cum gaps d d' info) d.
Proof using Type. intros [Hw Hr _ _ _] Hv Hf Hg. by apply HandleSack_spec. Qed.

Lemma od_run_inv d sent : od_run d sent → run_inv d sent.
Proof using Type.
  induction 1 as [header last q|d sent mi data ts mr ea li r d' _ IH Hr E|d sent cum gaps fr info d' _ IH Hv Hf Hg E
    |d sent mx l d' _ IH E|d sent mx l d' _ IH E|d sent d' _ IH E|d sent now d' _ IH E|d sent _ IH|d sent q _ IH].
  - split; try done; [|by intros t i [_ ?]%look_Some|by intros t x ?%elem_of_nil|constructor]. split; try done; try constructor.
    + by intros t ?%elem_of_nil.
    + by intros [?%elem_of_nil|?%elem_of_nil].
    + by intros (? & [_ ?]%look_Some & _).
    + by intros t i [_ ?]%look_Some.
  - pose proof (run_inv_insert mi data ts mr ea li d sent IH Hr) as H. by rewrite E in H.
  - destruct (wp_elim _ _ _ _ _ (sacked_inv cum gaps fr d sent IH Hv Hf Hg) E). by apply (run_inv_evolves d).
  - destruct (wp_elim _ _ _ _ _ (GetChunksToBeFastRetransmitted_spec mx d (ri_wf _ _ IH) (ri_room _ _ IH)) E) as [[] _].
    apply (run_inv_evolves d); auto. lia.
  - destruct (wp_elim _ _ _ _ _ (GetChunksToBeRetransmitted_spec mx d (ri_wf _ _ IH) (ri_room _ _ IH)) E) as [].
    apply (run_inv_evolves d); auto. lia.
  - destruct (wp_elim _ _ _ _ _ (NackAll_spec d (ri_wf _ _ IH) (ri_room _ _ IH)) E) as (? & ? & [? _] & _). by apply (run_inv_evolves d).
  - pose proof (expire_loop_spec now (length (outstanding_data_ d)) 0 d (ri_wf _ _ IH) (le_n _)) as H.
    unfold ExpireOutstandingChunks in E. cbn [bind get] in E. rewrite E in H. destruct H as (? & ? & ?%frame_evolves). by apply (run_inv_evolves d).
  - destruct IH as [[] ? ? ? ?]. split; [by split|done..].
  - destruct IH as [[] ? ? ? ?]. split; [by split|done..].
Qed.
End Histories.

(** ** Properties *)

(** A send queue that answers every [Discard] alike. *)
#[local] Instance fixed_queue : SendQueue bool := {| queue_Produce := λ _ _, ret None; queue_Discard := λ _ _ q, (q, q) |}.

Definition sample_data (fsn : Z) (bytes : list Z) : Data := mkData 1 7 7 fsn 53 bytes (fsn =? 0) (fsn =? 2) false.
Definition insert_sample (fsn mr : Z) (d : OutstandingData bool) : OutstandingData bool :=
  (Insert 5 (sample_data fsn [1; 2; fsn]) 100 mr PlusInfinity 0 d).2.
Definition sample_outstanding (mr : Z) (q : bool) : OutstandingData bool :=
  insert_sample 2 mr (insert_sample 1 mr (insert_sample 0 mr (OutstandingData_new 16 10 q))).
Definition sample_sent : list (Z * Data) :=
  [(13, sample_data 2 [1; 2; 2]); (12, sample_data 1 [1; 2; 1]); (11, sample_data 0 [1; 2; 0])].

Lemma insert_sample_run fsn mr tsn d sent : od_run d sent → room d + 3 < 2 ^ 31 → next_tsn d = tsn →
  od_run (insert_sample fsn mr d) ((tsn, sample_data fsn [1; 2; fsn]) :: sent).
Proof.
  intros Hd Hr <-. apply (run_insert d sent 5 (sample_data fsn [1; 2; fsn]) 100 mr PlusInfinity 0 (Some (next_tsn d))); [done..|].
  unfold insert_sample, Insert. by change (has_expired 100 _) with false.
Qed.

Lemma sample_run mr q : od_run (sample_outstanding mr q) sample_sent.
Proof.
  unfold sample_outstanding, sample_sent. apply insert_sample_run; [|vm_compute; done..].
  apply insert_sample_run; [|vm_compute; done..]. apply insert_sample_run; [apply run_new|vm_compute; done..].
Qed.

(** C21: The consistency that the code checks in debug builds holds in every history: the counters
    of bytes and chunks in flight and the two retransmission sets agree with the chunks; no
    TSN is used for two chunks. *)
Theorem outstanding_consistent Q `{!SendQueue Q} (d : OutstandingData Q) sent :
  od_run d sent → IsConsistent d = true ∧ NoDup sent.*1.
Proof. intros H%od_run_inv. split; [by apply od_wf_consistent, (ri_wf _ sent) | apply (ri_unique _ _ H)]. Qed.

Lemma outstanding_consistent_witness : IsConsistent (sample_outstanding 3 false) = true ∧ NoDup sample_sent.*1.
Proof. apply (outstanding_consistent bool). apply sample_run. Defined.

(** C24: A SACK with its blocks in order, handled in any history, never reads outside the deque;
    afterwards its cumulative TSN is the sender's, every outstanding chunk in its blocks is
    acked, and no chunk is acked that was not and that it does not report. *)
Theorem sack_acks_exactly Q `{!SendQueue Q} (d : OutstandingData Q) sent cum gaps fast_recovery :
  od_run d sent → sack_valid cum d → to_be_fast_retransmitted_ d = [] → Forall (λ b, 0 ≤ gap_end b) gaps → gaps_sorted 0 gaps →
  ∃ info d', HandleSack cum gaps fast_recovery d = Ret info d' ∧ last_cumulative_tsn_ack_ d' = cum ∧ IsConsistent d' = true
    ∧ ∀ t, t ≤ highest_outstanding_tsn d → (t ∈ gap_tsns cum gaps → acked_at d' t) ∧ (acked_at d' t → acked_at d t ∨ t ∈ gap_tsns cum gaps).
Proof.
  intros H%od_run_inv Hv Hf Hg Hs. pose proof (sacked_inv cum gaps fast_recovery d sent H Hv Hf Hg) as Hw. unfold wp in Hw.
  destruct (HandleSack _ _ _ d) as [info d'| | |]; [|done..]. destruct Hw as [? _ _ ? _ Hsound Hcomplete].
  exists info, d'. split; [done|]. split; [done|]. split; [by apply od_wf_consistent|]. auto.
Qed.

Lemma sack_acks_exactly_witness :
  ∃ info d', HandleSack 11 [mkGap 2 2] false (sample_outstanding 3 false) = Ret info d' ∧ last_cumulative_tsn_ack_ d' = 11 ∧ IsConsistent d' = true
    ∧ ∀ t, t ≤ 13 → (t ∈ gap_tsns 11 [mkGap 2 2] → acked_at d' t) ∧ (acked_at d' t → acked_at (sample_outstanding 3 false) t ∨ t ∈ gap_tsns 11 [mkGap 2 2]).
Proof.
  apply (sack_acks_exactly bool (sample_outstanding 3 false) sample_sent 11 [mkGap 2 2] false (sample_run 3 false)).
  - vm_compute. split; discriminate.
  - reflexivity.
  - repeat constructor. discriminate.
  - cbn. lia.
Defined.

(** C27: What is retransmitted, be it at once or with the next packets, fits the space given, was
    sent before under the same TSN with the same bytes, and is not acked. *)
Theorem retransmits_what_was_sent Q `{!SendQueue Q} (d : OutstandingData Q) sent fast max_size :
  od_run d sent → 0 ≤ max_size →
  ∃ l d', (if fast : bool then GetChunksToBeFastRetransmitted max_size else GetChunksToBeRetransmitted max_size) d = Ret l d'
    ∧ chunks_size d l ≤ max_size
    ∧ ∀ tsn data, (tsn, data) ∈ l → ∃ t, tsn = Wrap 32 t ∧ (t, data) ∈ sent ∧ last_cumulative_tsn_ack_ d < t ∧ ¬ acked_at d t.
Proof.
  intros [Hw Hr Hs _ _]%od_run_inv Hmax.
  assert (wp (if fast then GetChunksToBeFastRetransmitted max_size else GetChunksToBeRetransmitted max_size) (λ l d', resent l max_size d d') d) as H.
  { destruct fast; [|by apply GetChunksToBeRetransmitted_spec].
    eapply wp_mono; [|by apply GetChunksToBeFastRetransmitted_spec]. by intros ? ? []. }
  unfold wp in H. destruct (_ d) as [l d'| | |]; [|done..]. destruct H as [_ _ _ _ _ _ _ Hsz Hc]. exists l, d'. split; [done|]. split; [auto|].
  intros tsn data Hin. destruct (Hc _ Hin) as (t & i & [= -> ->] & Hi & Hsr). exists t. split; [done|].
  split; [by apply Hs, retransmitted_not_abandoned|]. split; [by apply chunk_at_range in Hi as [? _]|].
  intros (k & Hk & Ha). rewrite Hi in Hk. injection Hk as <-. pose proof (wf_nacked d Hw t i Hi Hsr) as Hn.
  unfold is_acked, is_nacked in *. rewrite bool_decide_eq_true in *. congruence.
Qed.

(** After a timeout all three chunks are sent again, as far as they fit. *)
Definition sample_timed_out : OutstandingData bool := match NackAll (sample_outstanding 3 false) with Ret _ d => d | _ => sample_outstanding 3 false end.
Lemma sample_timed_out_run : od_run sample_timed_out sample_sent.
Proof. eapply run_nack_all; [exact (sample_run 3 false)|]. vm_compute. reflexivity. Qed.

Lemma retransmits_what_was_sent_witness :
  ∃ l d', GetChunksToBeRetransmitted 41 sample_timed_out = Ret l d' ∧ l = [(11, sample_data 0 [1; 2; 0]); (12, sample_data 1 [1; 2; 1])]
    ∧ chunks_size sample_timed_out l ≤ 41
    ∧ ∀ tsn data, (tsn, data) ∈ l → ∃ t, tsn = Wrap 32 t ∧ (t, data) ∈ sample_sent ∧ 10 < t ∧ ¬ acked_at sample_timed_out t.
Proof.
  destruct (retransmits_what_was_sent bool sample_timed_out sample_sent false 41 sample_timed_out_run ltac:(lia)) as (l & d' & E & H).
  exists l, d'. split; [exact E|]. split; [|exact H]. clear H. vm_compute in E. injection E as <- _. reflexivity.
Defined.

(** When the retransmission timer fires no chunk is forgotten: every outstanding chunk was
    acked, is given up, or is in one of the sets of chunks to be sent again. *)
Theorem timeout_reschedules_all Q `{!SendQueue Q} (d : OutstandingData Q) sent :
  od_run d sent → ∃ d', NackAll d = Ret tt d' ∧ IsConsistent d' = true
    ∧ ∀ t, last_cumulative_tsn_ack_ d < t ≤ highest_outstanding_tsn d →
        acked_at d t ∨ (∃ j, chunk_at d' t = Some j ∧ is_abandoned j = true)
        ∨ t ∈ to_be_fast_retransmitted_ d' ∨ t ∈ to_be_retransmitted_ d'.
Proof.
  intros [Hw Hr _ _ _]%od_run_inv. pose proof (NackAll_spec d Hw Hr) as H. unfold wp in H.
  destruct (NackAll d) as [[] d'| | |]; [|done..]. destruct H as (Hw' & _ & _ & Ha). exists d'. split; [done|].
  split; [by apply od_wf_consistent|]. intros t Ht. destruct (Ha t Ht) as [|(j & Hj & [Hs|Hs]%orb_true_iff)]; [by left| |by right; left; eexists].
  right. right. apply (wf_sets d' Hw'). eauto.
Qed.

Lemma timeout_reschedules_all_witness : ∃ d', NackAll (sample_outstanding 3 false) = Ret tt d' ∧ IsConsistent d' = true
    ∧ ∀ t, 10 < t ≤ 13 → acked_at (sample_outstanding 3 false) t ∨ (∃ j, chunk_at d' t = Some j ∧ is_abandoned j = true)
        ∨ t ∈ to_be_fast_retransmitted_ d' ∨ t ∈ to_be_retransmitted_ d'.
Proof. apply (timeout_reschedules_all bool (sample_outstanding 3 false) sample_sent (sample_run 3 false)). Defined.

(** ** Forward TSN *)

Section ForwardTsn.
Context {Q : Type} `{!SendQueue Q}.
Implicit Types d : OutstandingData Q.







End ForwardTsn.


(** An expired chunk at the front of the queue whose message is still being sent: abandoning
    it appends to the deque that the loop is iterating over, and the loop goes on with an
    invalid iterator. *)
Theorem expire_invalidates_iterator Q `{!SendQueue Q} (d : OutstandingData Q) item rest now :
  outstanding_data_ d = item :: rest → is_abandoned item = false → is_nacked item = true → has_expired now item = true →
  (queue_Discard (stream_id (item_data_ item)) (message_id_ item) (send_queue_ d)).1 = true →
  ∃ d', ExpireOutstandingChunks now d = Undef IterInvalid d'.
Proof.
  intros Hi Ha Hn He Hd. exists (AbandonAllFor item d). unfold ExpireOutstandingChunks. cbn [bind get]. rewrite Hi. cbn [length expire_loop bind gets].
  rewrite Hi. cbn [lookup list_lookup in_bounds ret]. rewrite Ha, Hn, He. cbn [andb bind modify gets]. rewrite AbandonAllFor_length, Hi.
  unfold ends, discards. rewrite Hd. cbn [length]. rewrite Nat.add_1_r. destruct (Nat.eqb_spec (S (S (length rest))) (S (length rest))); [lia|done].
Qed.

(** The chunk of TSN 11 is reported missing, its message having more to send. *)
Definition expiring : OutstandingData bool :=
  let insert fsn d := (Insert 5 (sample_data fsn [1]) 100 NoLimit 200 0 d).2 in
  match HandleSack 10 [mkGap 2 2] false (insert 1 (insert 0 (OutstandingData_new 16 10 true))) with Ret _ d => d | _ => OutstandingData_new 16 10 true end.

Lemma expire_invalidates_iterator_witness : ∃ d', ExpireOutstandingChunks 300 expiring = Undef IterInvalid d'.
Proof. eapply (expire_invalidates_iterator bool expiring); vm_compute; reflexivity. Defined.

(** Stream sequence numbers wrap at 2^16, but the largest of those skipped is taken as a plain
    number: when the chunks of two messages, numbered 65535 and 0, are abandoned together, the
    FORWARD-TSN names 65535.  The receiver then waits for number 0 and does not deliver the
    next message, which it would had 0 been named. *)
Theorem forward_tsn_wrap_stalls :
  let abandoned ssn := Abandon (Item_new 5 (mkData 1 ssn 0 0 53 [1] true true false) 100 0 200 0) in
  let sender := OutstandingData_new 16 10 true <| outstanding_data_ := [abandoned 65535; abandoned 0] |> in
  let receiver := mkTraditional [] [(1, OrderedStream_new 65535)] in
  let next := mkData 1 1 0 0 53 [7] true true false in
  let delivered skipped := (Traditional_Add 13 next (Traditional_HandleForwardTsn 12 skipped receiver).2).1.2 in
  CreateForwardTsn sender = mkForward 12 [mkSkipped 1 65535 false 0]
  ∧ delivered (skipped_streams_ (CreateForwardTsn sender)) = []
  ∧ delivered [mkSkipped 1 0 false 0] = [([13], mkMessage 1 53 [7])].
Proof. vm_compute. done. Qed.
