(* ===== verification/RetransmissionQueue.v ===== *)
(** * dcsctp::RetransmissionQueue (includes/webrtc/net/dcsctp/tx/retransmission_queue.h, .cc)

    What may be sent and when: congestion control and the peer's window, the retransmission
    timer, SACKs.  The state holds the outstanding data, which holds the send queue; the timer
    [t3_rtx_] is the one of timer.cc.  The callbacks are the list [events_], the latest first.
    [size_t] has 64 bits. *)

From S2P Require Import Prelude SeqNum SctpTimer SctpWire Reassembly SendQueue OutstandingData.
Open Scope Z_scope.

(** ** State *)

(** The fields of [DcSctpOptions] that are used here. *)
Record RtxOptions := mkRtxOptions { rtx_mtu : Z; cwnd_mtus_initial : Z; cwnd_mtus_min : Z }.

Inductive RtxEvent :=
| OnNewRtt (rtt : Z)
| OnClearRetransmissionCounter
| OnMessageDelivered (lifecycle_id : Z)
| OnMessageExpired (lifecycle_id : Z) (maybe_delivered : bool)
| OnMessageFullySent (lifecycle_id : Z)
| OnMessageEnd (lifecycle_id : Z).

Record RetransmissionQueue (Q : Type) := mkRtxQueue {
  events_ : list RtxEvent;
  rtx_options_ : RtxOptions;
  partial_reliability_ : bool;
  rtx_header_size_ : Z;
  t3_rtx_ : Timer;
  tsn_unwrapper_ : SeqNumUnwrapper;
  cwnd_ : Z;
  rwnd_ : Z;
  ssthresh_ : Z;
  partial_bytes_acked_ : Z;
  rtx_packets_count_ : Z;
  rtx_bytes_count_ : Z;
  fast_recovery_exit_tsn_ : option Z;
  rtx_data_ : OutstandingData Q
}.
Arguments mkRtxQueue {Q}.
Arguments events_ {Q}.
Arguments rtx_options_ {Q}.
Arguments partial_reliability_ {Q}.
Arguments rtx_header_size_ {Q}.
Arguments t3_rtx_ {Q}.
Arguments tsn_unwrapper_ {Q}.
Arguments cwnd_ {Q}.
Arguments rwnd_ {Q}.
Arguments ssthresh_ {Q}.
Arguments partial_bytes_acked_ {Q}.
Arguments rtx_packets_count_ {Q}.
Arguments rtx_bytes_count_ {Q}.
Arguments fast_recovery_exit_tsn_ {Q}.
Arguments rtx_data_ {Q}.
#[export] Instance RetransmissionQueue_eta Q : Eta (RetransmissionQueue Q) := λ r,
  mkRtxQueue (events_ r) (rtx_options_ r) (partial_reliability_ r) (rtx_header_size_ r) (t3_rtx_ r) (tsn_unwrapper_ r) (cwnd_ r) (rwnd_ r)
    (ssthresh_ r) (partial_bytes_acked_ r) (rtx_packets_count_ r) (rtx_bytes_count_ r) (fast_recovery_exit_tsn_ r) (rtx_data_ r).

Inductive CongestionAlgorithmPhase := kSlowStart | kCongestionAvoidance.

(** An [int] from its value modulo [2 ^ 32]. *)
Definition int32 (x : Z) : Z := let u := wrap 32 x in if u <? 2 ^ 31 then u else u - 2 ^ 32.

Section Operations.
Context {Q : Type} `{!SendQueue Q} `{!StreamResets Q}.
Implicit Types r : RetransmissionQueue Q.

(** A step of the outstanding data, or of the send queue in it. *)
Definition on_data {A} (m : M (OutstandingData Q) A) : M (RetransmissionQueue Q) A := λ r,
  match m (rtx_data_ r) with
  | Ret a d => Ret a (r <| rtx_data_ := d |>)
  | Throw e d => Throw e (r <| rtx_data_ := d |>)
  | Terminate => Terminate
  | Undef f d => Undef f (r <| rtx_data_ := d |>)
  end.
Definition on_queue {A} (m : M Q A) : M (OutstandingData Q) A := λ d,
  match m (send_queue_ d) with
  | Ret a q => Ret a (d <| send_queue_ := q |>)
  | Throw e q => Throw e (d <| send_queue_ := q |>)
  | Terminate => Terminate
  | Undef f q => Undef f (d <| send_queue_ := q |>)
  end.
Definition fire_event (e : RtxEvent) r : RetransmissionQueue Q := r <| events_ ::= cons e |>.

(** [DataChunk::kHeaderSize] is 16 and [IDataChunk::kHeaderSize] 20. *)
Definition RetransmissionQueue_new (my_initial_tsn a_rwnd : Z) (q : Q) (t3_rtx : Timer) (options : RtxOptions)
    (supports_partial_reliability use_message_interleaving : bool) : RetransmissionQueue Q :=
  let header := if use_message_interleaving then 20 else 16 in
  let '(last, unwrapper) := Unwrap 32 0 (wrap 32 (my_initial_tsn - 1)) SeqNumUnwrapper_new in
  mkRtxQueue [] options supports_partial_reliability header t3_rtx unwrapper (wrap 64 (cwnd_mtus_initial options * rtx_mtu options)) a_rwnd a_rwnd 0 0 0 None
    (OutstandingData_new header last q).

Definition rtx_chunk_size r (data : Data) : Z := RoundUpTo4 (rtx_header_size_ r + data_size data).
Definition unacked_bytes r : Z := unacked_bytes_ (rtx_data_ r).
Definition is_in_fast_recovery r : bool := bool_decide (is_Some (fast_recovery_exit_tsn_ r)).
Definition phase r : CongestionAlgorithmPhase := if cwnd_ r <=? ssthresh_ r then kSlowStart else kCongestionAvoidance.

Definition MaybeExitFastRecovery (cumulative_tsn_ack : Z) r : RetransmissionQueue Q :=
  match fast_recovery_exit_tsn_ r with
  | Some exit_tsn => if exit_tsn <=? cumulative_tsn_ack then r <| fast_recovery_exit_tsn_ := None |> else r
  | None => r
  end.

Definition HandleIncreasedCumulativeTsnAck (unacked total_bytes_acked : Z) r : RetransmissionQueue Q :=
  let mtu := rtx_mtu (rtx_options_ r) in
  let is_fully_utilized := cwnd_ r <=? wrap 64 (unacked + mtu) in
  match phase r with
  | kSlowStart =>
    if is_fully_utilized && negb (is_in_fast_recovery r)
    then r <| cwnd_ := wrap 64 (cwnd_ r + Z.min total_bytes_acked mtu) |> else r
  | kCongestionAvoidance =>
    let r := r <| partial_bytes_acked_ := wrap 64 (partial_bytes_acked_ r + total_bytes_acked) |> in
    if (cwnd_ r <=? partial_bytes_acked_ r) && is_fully_utilized
    then r <| partial_bytes_acked_ := wrap 64 (partial_bytes_acked_ r - cwnd_ r) |> <| cwnd_ := wrap 64 (cwnd_ r + mtu) |>
    else r
  end.

Definition HandlePacketLoss r : RetransmissionQueue Q :=
  if is_in_fast_recovery r then r else
    let ssthresh := Z.max (cwnd_ r / 2) (wrap 64 (cwnd_mtus_min (rtx_options_ r) * rtx_mtu (rtx_options_ r))) in
    r <| ssthresh_ := ssthresh |> <| cwnd_ := ssthresh |> <| partial_bytes_acked_ := 0 |>
      <| fast_recovery_exit_tsn_ := Some (highest_outstanding_tsn (rtx_data_ r)) |>.

Definition UpdateReceiverWindow (a_rwnd : Z) r : RetransmissionQueue Q :=
  r <| rwnd_ := if a_rwnd <=? unacked_bytes r then 0 else a_rwnd - unacked_bytes r |>.

Definition start_t3_if_stopped r : RetransmissionQueue Q := if is_running_ (t3_rtx_ r) then r else r <| t3_rtx_ ::= Timer_Start |>.
Definition stop_t3 r : RetransmissionQueue Q := r <| t3_rtx_ ::= Timer_Stop |>.
Definition StartT3RtxTimerIfOutstandingData r : RetransmissionQueue Q :=
  if od_empty (rtx_data_ r) then r else start_t3_if_stopped r.

Definition IsSackValid (sack : SackChunk) r : bool :=
  let cumulative_tsn_ack := PeekUnwrap 32 0 (cumulative_tsn_ack_ sack) (tsn_unwrapper_ r) in
  negb (cumulative_tsn_ack <? last_cumulative_tsn_ack_ (rtx_data_ r))
  && negb (highest_outstanding_tsn (rtx_data_ r) <? cumulative_tsn_ack).

Definition UpdateRTT (now cumulative_tsn_ack : Z) : M (RetransmissionQueue Q) unit :=
  let! rtt := on_data (MeasureRTT now cumulative_tsn_ack) in
  when (negb (rtt =? PlusInfinity)) (modify (fire_event (OnNewRtt rtt))).

Definition ack_events (info : AckInfo) r : RetransmissionQueue Q :=
  let r := foldl (λ r id, fire_event (OnMessageEnd id) (fire_event (OnMessageDelivered id) r)) r (acked_lifecycle_ids info) in
  foldl (λ r id, fire_event (OnMessageEnd id) (fire_event (OnMessageExpired id true) r)) r (abandoned_lifecycle_ids info).

(** What follows the update of the outstanding data: congestion control and the timer. *)
Definition after_sack (a_rwnd : Z) (advanced : bool) (old_unacked_bytes : Z) (info : AckInfo) r : RetransmissionQueue Q :=
  let r := UpdateReceiverWindow a_rwnd (ack_events info r) in
  let r := if advanced then HandleIncreasedCumulativeTsnAck old_unacked_bytes (bytes_acked info) (stop_t3 r) else r in
  let r := if has_packet_loss info then HandlePacketLoss r else r in
  let r := if 0 <? bytes_acked info then fire_event OnClearRetransmissionCounter r else r in
  StartT3RtxTimerIfOutstandingData r.

Definition Rtx_HandleSack (now : Z) (sack : SackChunk) : M (RetransmissionQueue Q) bool :=
  let! r := get in
  if IsSackValid sack r then
    let old_last_cumulative_tsn_ack := last_cumulative_tsn_ack_ (rtx_data_ r) in
    let old_unacked_bytes := unacked_bytes r in
    let '(cumulative_tsn_ack, unwrapper) := Unwrap 32 0 (cumulative_tsn_ack_ sack) (tsn_unwrapper_ r) in
    modify (λ r, r <| tsn_unwrapper_ := unwrapper |>) ;;
    when (match gap_ack_blocks_ sack with [] => true | _ => false end) (UpdateRTT now cumulative_tsn_ack) ;;
    modify (MaybeExitFastRecovery cumulative_tsn_ack) ;;
    let! fast_recovery := gets is_in_fast_recovery in
    let! info := on_data (HandleSack cumulative_tsn_ack (gap_ack_blocks_ sack) fast_recovery) in
    modify (after_sack (a_rwnd_ sack) (old_last_cumulative_tsn_ack <? cumulative_tsn_ack) old_unacked_bytes info) ;;
    ret true
  else ret false.

Definition HandleT3RtxTimerExpiry : M (RetransmissionQueue Q) unit :=
  modify (λ r, let mtu := rtx_mtu (rtx_options_ r) in
    r <| ssthresh_ := Z.max (cwnd_ r / 2) (wrap 64 (4 * mtu)) |> <| cwnd_ := mtu |> <| partial_bytes_acked_ := 0 |>) ;;
  on_data NackAll.

(** [absl::c_accumulate] from the [int] zero. *)
Definition accumulate_sizes r (l : list (Z * Data)) : Z :=
  wrap 64 (foldl (λ n p, int32 (wrap 64 (wrap 64 n + rtx_chunk_size r p.2))) 0 l).
Definition count_retransmission (l : list (Z * Data)) r : RetransmissionQueue Q :=
  r <| rtx_packets_count_ := wrap 64 (rtx_packets_count_ r + 1) |>
    <| rtx_bytes_count_ := wrap 64 (rtx_bytes_count_ r + accumulate_sizes r l) |>.

(** [to_be_sent[0]] is undefined when nothing fits. *)
Definition GetChunksForFastRetransmit (bytes_in_packet : Z) : M (RetransmissionQueue Q) (list (Z * Data)) :=
  let! to_be_sent := on_data (GetChunksToBeFastRetransmitted bytes_in_packet) in
  let! first := in_bounds (head to_be_sent) in
  let! r := get in
  when (first.1 =? Wrap 32 (next_value (last_cumulative_tsn_ack_ (rtx_data_ r)))) (modify stop_t3) ;;
  modify start_t3_if_stopped ;;
  modify (count_retransmission to_be_sent) ;;
  ret to_be_sent.

Definition max_bytes_to_send r : Z :=
  let left := if cwnd_ r <=? unacked_bytes r then 0 else cwnd_ r - unacked_bytes r in
  if unacked_bytes r =? 0 then left else Z.min (rwnd_ r) left.

Definition insert_chunk (now : Z) (chunk : DataToSend) : M (RetransmissionQueue Q) (option Z) :=
  let! r := get in
  let '(tsn, d) := Insert (to_send_message_id chunk) (to_send_data chunk) now
    (if partial_reliability_ r then to_send_max_retransmissions chunk else NoLimit)
    (if partial_reliability_ r then to_send_expires_at chunk else PlusInfinity) (to_send_lifecycle_id chunk) (rtx_data_ r) in
  modify (λ r, r <| rtx_data_ := d |>) ;; ret tsn.

(** A round of the loop: what it adds to the packet, and the bytes left; nothing when the
    send queue is empty. *)
Definition send_round (now max_bytes : Z) : M (RetransmissionQueue Q) (option (list (Z * Data) * Z)) :=
  let! r := get in
  let! chunk_opt := on_data (on_queue (queue_Produce now (max_bytes - rtx_header_size_ r))) in
  match chunk_opt with
  | None => ret None
  | Some chunk =>
    let chunk_size := rtx_chunk_size r (to_send_data chunk) in
    modify (λ r, r <| rwnd_ := wrap 64 (rwnd_ r - chunk_size) |>) ;;
    let! tsn := insert_chunk now chunk in
    when (bool_decide (is_Some tsn) && IsSet (to_send_lifecycle_id chunk)) (modify (fire_event (OnMessageFullySent (to_send_lifecycle_id chunk)))) ;;
    ret (Some (match tsn with Some tsn => [(Wrap 32 tsn, to_send_data chunk)] | None => [] end, wrap 64 (max_bytes - chunk_size)))
  end.

(** Each round uses up bytes: there are as many rounds as bytes. *)
Fixpoint send_loop (rounds : nat) (now max_bytes : Z) : M (RetransmissionQueue Q) (list (Z * Data)) :=
  let! r := get in
  if rtx_header_size_ r <? max_bytes then
    match rounds with
    | O => undef NoProgress
    | S n =>
      let! sent := send_round now max_bytes in
      match sent with
      | None => ret []
      | Some (l, bytes) => let! rest := send_loop n now bytes in ret (l ++ rest)
      end
    end
  else ret [].

Definition GetChunksToSend (now bytes_remaining_in_packet : Z) : M (RetransmissionQueue Q) (list (Z * Data)) :=
  let! r := get in
  let max_bytes := RoundDownTo4 (Z.min (max_bytes_to_send r) bytes_remaining_in_packet) in
  let! again := on_data (GetChunksToBeRetransmitted max_bytes) in
  let! r := get in
  let max_bytes := wrap 64 (max_bytes - accumulate_sizes r again) in
  when (match again with [] => false | _ => true end) (modify (count_retransmission again)) ;;
  let! fresh := send_loop (Z.to_nat max_bytes) now max_bytes in
  let to_be_sent := again ++ fresh in
  when (match to_be_sent with [] => false | _ => true end) (modify start_t3_if_stopped) ;;
  ret to_be_sent.

Definition Rtx_ShouldSendForwardTsn (now : Z) : M (RetransmissionQueue Q) bool :=
  let! r := get in
  if partial_reliability_ r then
    on_data (ExpireOutstandingChunks now) ;;
    let! r := get in
    ret (ShouldSendForwardTsn (rtx_data_ r))
  else ret false.

Definition rtx_next_tsn r : Z := Wrap 32 (next_tsn (rtx_data_ r)).
Definition last_assigned_tsn r : Z := Wrap 32 (AddTo (next_tsn (rtx_data_ r)) (-1)).
Definition set_cwnd (cwnd : Z) r : RetransmissionQueue Q := r <| cwnd_ := cwnd |>.

(** Resetting streams. *)
Definition change_queue (f : Q → Q) r : RetransmissionQueue Q := r <| rtx_data_ := rtx_data_ r <| send_queue_ ::= f |> |>.
Definition Rtx_PrepareResetStream (stream_id : Z) : RetransmissionQueue Q → RetransmissionQueue Q := change_queue (queue_PrepareResetStream stream_id).
Definition Rtx_HasStreamsReadyToBeReset r : bool := queue_HasStreamsReadyToBeReset (send_queue_ (rtx_data_ r)).
Definition Rtx_BeginResetStreams r : list Z * RetransmissionQueue Q :=
  let d := BeginResetStreams (rtx_data_ r) in
  let '(streams, q) := queue_GetStreamsReadyToBeReset (send_queue_ d) in
  (streams, r <| rtx_data_ := d <| send_queue_ := q |> |>).
Definition Rtx_CommitResetStreams : RetransmissionQueue Q → RetransmissionQueue Q := change_queue queue_CommitResetStreams.
Definition Rtx_RollbackResetStreams : RetransmissionQueue Q → RetransmissionQueue Q := change_queue queue_RollbackResetStreams.

(** Handover; the fields have 32 bits. *)
Record RtxState := mkRtxState { tx_next_tsn : Z; tx_rwnd : Z; tx_cwnd : Z; tx_ssthresh : Z; tx_partial_bytes_acked : Z }.
Definition kRetransmissionQueueOutstandingData : Z := 512.
Definition kRetransmissionQueueFastRecovery : Z := 1024.
Definition kRetransmissionQueueNotEmpty : Z := 2048.
Definition Rtx_GetHandoverReadiness r : Z :=
  Z.lor (Z.lor (if od_empty (rtx_data_ r) then 0 else kRetransmissionQueueOutstandingData)
    (if is_in_fast_recovery r then kRetransmissionQueueFastRecovery else 0))
    (if has_data_to_be_retransmitted (rtx_data_ r) then kRetransmissionQueueNotEmpty else 0).
Definition Rtx_AddHandoverState r : RtxState := 
  mkRtxState (rtx_next_tsn r) (wrap 32 (rwnd_ r)) (wrap 32 (cwnd_ r)) (wrap 32 (ssthresh_ r)) (wrap 32 (partial_bytes_acked_ r)).
Definition Rtx_RestoreFromState (state : RtxState) r : RetransmissionQueue Q :=
  let '(last, unwrapper) := Unwrap 32 0 (wrap 32 (tx_next_tsn state - 1)) (tsn_unwrapper_ r) in
  r <| cwnd_ := tx_cwnd state |> <| rwnd_ := tx_rwnd state |> <| ssthresh_ := tx_ssthresh state |>
    <| partial_bytes_acked_ := tx_partial_bytes_acked state |> <| tsn_unwrapper_ := unwrapper |>
    <| rtx_data_ ::= ResetSequenceNumbers last |>.
End Operations.

(** ** Rules *)

Section Rules.
Context {Q : Type} `{!SendQueue Q}.
Implicit Types r : RetransmissionQueue Q.

Lemma wp_on_data {A} (m : M (OutstandingData Q) A) (P : A → RetransmissionQueue Q → Prop) r :
  wp m (λ a d, P a (r <| rtx_data_ := d |>)) (rtx_data_ r) → wp (on_data m) P r.
Proof using Type. unfold wp, on_data. by destruct (m (rtx_data_ r)). Qed.

Lemma wp_on_queue {A} (m : M Q A) (P : A → OutstandingData Q → Prop) d :
  wp m (λ a q, P a (d <| send_queue_ := q |>)) (send_queue_ d) → wp (on_queue m) P d.
Proof using Type. unfold wp, on_queue. by destruct (m (send_queue_ d)). Qed.

(** The loop that fills a packet: [I bytes l] holds with [bytes] left and [l] sent. *)
Lemma send_loop_rule now (I : Z → list (Z * Data) → RetransmissionQueue Q → Prop) :
  (∀ bytes l r, I bytes l r → rtx_header_size_ r < bytes → wp (send_round now bytes) (λ sent r', match sent with
    | None => I bytes l r'
    | Some (l', bytes') => bytes' < bytes ∧ I bytes' (l ++ l') r'
    end) r) →
  (∀ bytes l r, I bytes l r → 0 ≤ bytes ∧ 0 ≤ rtx_header_size_ r) →
  ∀ rounds bytes l r, bytes ≤ Z.of_nat rounds → I bytes l r → wp (send_loop rounds now bytes) (λ l' r', ∃ bytes', I bytes' (l ++ l') r') r.
Proof using Type.
  intros Hround Hpos. induction rounds as [|n IH]; intros bytes l r Hle HI; cbn [send_loop]; apply wp_bind; unfold wp at 1; cbn [get].
  - rewrite (proj2 (Z.ltb_ge _ _)) by (specialize (Hpos _ _ _ HI); lia). apply wp_ret. exists bytes. by rewrite app_nil_r.
  - destruct (Z.ltb_spec (rtx_header_size_ r) bytes); [|apply wp_ret; exists bytes; by rewrite app_nil_r].
    apply wp_bind. eapply wp_mono; [|by apply (Hround bytes l r HI)]. cbn beta. intros [[l' bytes']|] r'.
    + intros [Hlt HI']. apply wp_bind. eapply wp_mono; [|apply (IH bytes' (l ++ l') r'); [lia|done]].
      intros l'' r'' [bytes'' H']. apply wp_ret. exists bytes''. by rewrite app_assoc.
    + intros HI'. apply wp_ret. exists bytes. by rewrite app_nil_r.
Qed.
End Rules.

(** ** Sizes *)

Definition sizes (header : Z) (l : list (Z * Data)) : Z := total_of (λ p, RoundUpTo4 (header + data_size p.2)) l.

Lemma sizes_app header l l' : sizes header (l ++ l') = sizes header l + sizes header l'.
Proof. apply total_of_app. Qed.

Lemma sizes_nonneg header l : 0 ≤ header → 0 ≤ sizes header l.
Proof.
  intros Hh. induction l as [|p l IH]; cbn; [done|]. fold (sizes header l). assert (0 ≤ RoundUpTo4 (header + data_size p.2)); [|lia].
  unfold RoundUpTo4. rewrite land_m4. unfold data_size. pose proof (Z.mod_le (header + Z.of_nat (length (payload p.2)) + 3) 4). lia.
Qed.

(** The sum that the code forms in an [int] is right below [2 ^ 31]. *)
Lemma accumulate_sizes_exact {Q} (r : RetransmissionQueue Q) l : 0 ≤ rtx_header_size_ r → sizes (rtx_header_size_ r) l < 2 ^ 31 →
  accumulate_sizes r l = sizes (rtx_header_size_ r) l.
Proof.
  intros Hh Hs. unfold accumulate_sizes. pose proof (sizes_nonneg (rtx_header_size_ r) l Hh).
  enough (∀ n, 0 ≤ n → n + sizes (rtx_header_size_ r) l < 2 ^ 31 →
    foldl (λ n p, int32 (wrap 64 (wrap 64 n + rtx_chunk_size r p.2))) n l = n + sizes (rtx_header_size_ r) l) as Hacc.
  { rewrite Hacc, Z.add_0_l by lia. apply wrap_small. unfold uint. lia. }
  clear H Hs. induction l as [|p l IH]; intros n Hn Hs; cbn [foldl sizes total_of] in *; [lia|]. fold (sizes (rtx_header_size_ r) l) in *.
  pose proof (sizes_nonneg (rtx_header_size_ r) l Hh). fold (rtx_chunk_size r p.2) in *.
  assert (0 ≤ rtx_chunk_size r p.2) by (pose proof (sizes_nonneg (rtx_header_size_ r) [p] Hh) as H0; cbn in H0; unfold rtx_chunk_size; lia).
  rewrite (wrap_small 64 n), (wrap_small 64) by (unfold uint; lia). unfold int32. rewrite wrap_small by (unfold uint; lia).
  rewrite (proj2 (Z.ltb_lt _ _)) by lia. rewrite IH by lia. lia.
Qed.

(** ** The invariant *)

Section Invariant.
Context {Q : Type} `{!SendQueue Q} `{!SendQueueLaws Q}.
Implicit Types r : RetransmissionQueue Q.

(** There is a chunk that the peer should still get. *)
Definition awaits r : Prop := ∃ t i, chunk_at (rtx_data_ r) t = Some i ∧ is_abandoned i = false.

Record rtx_wf r : Prop := mkRtxWf {
  rw_data : od_wf (rtx_data_ r);
  rw_queue : queue_ok (send_queue_ (rtx_data_ r));
  rw_header : data_chunk_header_size_ (rtx_data_ r) = rtx_header_size_ r;
  rw_sizes : rtx_header_size_ r = 16 ∨ rtx_header_size_ r = 20;
  rw_cwnd : uint 64 (cwnd_ r);
  rw_rwnd : uint 64 (rwnd_ r);
  rw_timer : awaits r → is_running_ (t3_rtx_ r) = true
}.

Lemma discards_ok q q' : discards_from q q' → queue_ok q → queue_ok q'.
Proof using Type. induction 1 as [|q q1 q2 (sid & id & ->) _ IH]; intros Hq; [done|]. by apply IH, discard_ok. Qed.

(** Congestion control, the timer and the configuration. *)
Definition control r : RtxOptions * bool * Z * Timer * SeqNumUnwrapper * Z * Z * Z * option Z :=
  (rtx_options_ r, partial_reliability_ r, rtx_header_size_ r, t3_rtx_ r, tsn_unwrapper_ r, cwnd_ r, ssthresh_ r, partial_bytes_acked_ r,
   fast_recovery_exit_tsn_ r).

(** Rounds of the loop led from [r] to [r'], sent [l] and used [n] bytes. *)
Record sent_more r (l : list (Z * Data)) (n : Z) r' : Prop := mkSentMore {
  sm_data : od_wf (rtx_data_ r');
  sm_queue : queue_ok (send_queue_ (rtx_data_ r'));
  sm_control : control r' = control r;
  sm_header : data_chunk_header_size_ (rtx_data_ r') = data_chunk_header_size_ (rtx_data_ r);
  sm_last : last_cumulative_tsn_ack_ (rtx_data_ r') = last_cumulative_tsn_ack_ (rtx_data_ r);
  sm_highest : highest_outstanding_tsn (rtx_data_ r) ≤ highest_outstanding_tsn (rtx_data_ r');
  sm_unacked : unacked_bytes r' = wrap 64 (unacked_bytes r + n);
  sm_rwnd : rwnd_ r' = wrap 64 (rwnd_ r - n);
  sm_sizes : sizes (rtx_header_size_ r) l ≤ n;
  sm_room : room (rtx_data_ r') ≤ room (rtx_data_ r) + 3 * n;
  sm_old : ∀ t i, chunk_at (rtx_data_ r) t = Some i → ∃ j, chunk_at (rtx_data_ r') t = Some j ∧ same_chunk i j;
  sm_new : ∀ t j, highest_outstanding_tsn (rtx_data_ r) < t → chunk_at (rtx_data_ r') t = Some j → is_abandoned j = false → l ≠ []
}.

Lemma sent_more_trans r l n r1 l' n' r2 : sent_more r l n r1 → sent_more r1 l' n' r2 → sent_more r (l ++ l') (n + n') r2.
Proof using Type.
  intros [Hd Hq Hc Hh Hl Hhi Hu Hrw Hs Hr Ho Hn] [Hd' Hq' Hc' Hh' Hl' Hhi' Hu' Hrw' Hs' Hr' Ho' Hn'].
  split; try done; try congruence; try lia.
  - rewrite Hu', Hu, wrap_plus by done. f_equal. lia.
  - rewrite Hrw', Hrw. etransitivity; [exact (wrap_plus 64 (rwnd_ r - n) (- n') ltac:(done))|]. f_equal. lia.
  - rewrite sizes_app. assert (rtx_header_size_ r1 = rtx_header_size_ r) as E by (unfold control in Hc; congruence). rewrite E in Hs'. lia.
  - intros t i Hi. destruct (Ho t i Hi) as (j & Hj & Hs1). destruct (Ho' t j Hj) as (k & Hk & Hs2). exists k. split; [done|]. by eapply same_chunk_trans.
  - intros t j Ht Hj Ha. destruct (Z.le_gt_cases t (highest_outstanding_tsn (rtx_data_ r1))) as [Hle|Hgt].
    + destruct (chunk_at_found (rtx_data_ r1) t) as [i Hi]; [pose proof (chunk_at_range _ _ _ Hj); lia|].
      destruct (Ho' t i Hi) as (j' & Hj' & (_ & _ & Hab)). rewrite Hj in Hj'. injection Hj' as <-.
      assert (l ≠ []) by (apply (Hn t i Ht Hi); destruct (is_abandoned i); [by rewrite Hab in Ha|done]). by destruct l.
    + specialize (Hn' t j Hgt Hj Ha). by destruct l, l'.
Qed.

Lemma chunk_size_bounds r (data : Data) bytes : rtx_header_size_ r = 16 ∨ rtx_header_size_ r = 20 → 0 < data_size data ≤ bytes - rtx_header_size_ r →
  bytes mod 4 = 0 → 0 < rtx_chunk_size r data ≤ bytes ∧ (bytes - rtx_chunk_size r data) mod 4 = 0.
Proof using Type.
  intros Hh Hs Hb. unfold rtx_chunk_size. destruct (RoundUpTo4_bounds (rtx_header_size_ r + data_size data) bytes) as (Hr & Hm & _); [lia|done|].
  split; [destruct Hh; lia|]. rewrite Zminus_mod, Hb, Hm. done.
Qed.

(** The state after a chunk was put into the packet. *)
Lemma sent_more_insert now chunk r d tsn events : rtx_header_size_ r = data_chunk_header_size_ d → od_wf d → queue_ok (send_queue_ d) →
  (∀ t, chunk_at (rtx_data_ r) t = chunk_at d t) → highest_outstanding_tsn (rtx_data_ r) = highest_outstanding_tsn d →
  last_cumulative_tsn_ack_ (rtx_data_ r) = last_cumulative_tsn_ack_ d → room (rtx_data_ r) = room d → unacked_bytes r = unacked_bytes_ d →
  rtx_header_size_ r = data_chunk_header_size_ (rtx_data_ r) → let size := rtx_chunk_size r (to_send_data chunk) in 1 ≤ size →
  ∀ mr ex d', Insert (to_send_message_id chunk) (to_send_data chunk) now mr ex (to_send_lifecycle_id chunk) d = (tsn, d') →
  sent_more r (match tsn with Some t => [(Wrap 32 t, to_send_data chunk)] | None => [] end) size
    (r <| rwnd_ := wrap 64 (rwnd_ r - size) |> <| events_ := events |> <| rtx_data_ := d' |>).
Proof using Type.
  intros Hh Hw Hq Hc Hhi Hl Hro Hu Hh' size Hs mr ex d' HI.
  pose proof (Insert_spec (to_send_message_id chunk) (to_send_data chunk) now mr ex (to_send_lifecycle_id chunk) d Hw) as H. rewrite HI in H.
  destruct H as (Hw' & Hr' & Hhd & Hl' & Hhi' & Hold & Hub & Hdis & Hres).
  split; try done; cbn [rtx_data_ set_field RetransmissionQueue_eta].
  - by eapply discards_ok.
  - cbn. congruence.
  - cbn. congruence.
  - cbn. lia.
  - unfold unacked_bytes at 1. cbn. rewrite Hub, <- Hu. unfold GetSerializedChunkSize, size, rtx_chunk_size. by rewrite Hh.
  - subst size. unfold sizes. destruct tsn; cbn; unfold rtx_chunk_size in *; lia.
  - cbn. lia.
  - intros t i. rewrite Hc. intros Hi. destruct (Hold t i Hi) as (j & ? & ? & _). eauto.
  - intros t j. cbn. rewrite Hhi. intros Ht Hj Ha. destruct tsn; [done|]. by rewrite (Hres t j Ht Hj) in Ha.
Qed.

Lemma send_round_spec now bytes r : od_wf (rtx_data_ r) → queue_ok (send_queue_ (rtx_data_ r)) →
  data_chunk_header_size_ (rtx_data_ r) = rtx_header_size_ r → rtx_header_size_ r = 16 ∨ rtx_header_size_ r = 20 → rtx_header_size_ r < bytes < 2 ^ 64 →
  bytes mod 4 = 0 → uint 64 (unacked_bytes r) → uint 64 (rwnd_ r) → wp (send_round now bytes) (λ sent r', match sent with
    | None => sent_more r [] 0 r'
    | Some (l, bytes') => ∃ size, 0 < size ≤ bytes ∧ bytes' = bytes - size ∧ bytes' mod 4 = 0 ∧ sent_more r l size r'
    end) r.
Proof using Type.
  intros Hw Hq Hh Hsz Hb Hm Hu Hrw. unfold send_round. apply wp_bind. unfold wp at 1. cbn [get]. apply wp_bind, wp_on_data, wp_on_queue.
  eapply wp_mono; [|apply (produce_ok now (bytes - rtx_header_size_ r) _ Hq); lia]. cbn beta. intros [chunk|] q [Hq' Hc].
  - destruct (chunk_size_bounds r (to_send_data chunk) bytes Hsz (Hc chunk eq_refl) Hm) as [Hs1 Hs2]. set (size := rtx_chunk_size r (to_send_data chunk)) in *.
    apply wp_bind. unfold wp at 1. cbn [modify]. set (r1 := _ <| rwnd_ := _ |>). apply wp_bind. unfold insert_chunk.
    apply wp_bind. unfold wp at 1. cbn [get]. set (mr := if partial_reliability_ r1 then _ else NoLimit). set (ex := if partial_reliability_ r1 then _ else PlusInfinity).
    destruct (Insert _ _ now mr ex _ (rtx_data_ r1)) as [tsn d'] eqn:HI. unfold wp at 1. cbn [bind modify ret]. apply wp_bind.
    assert (∀ events, sent_more r (match tsn with Some t => [(Wrap 32 t, to_send_data chunk)] | None => [] end) size
      (r <| rwnd_ := wrap 64 (rwnd_ r - size) |> <| events_ := events |> <| rtx_data_ := d' |>)) as Hsm.
    { intros events. eapply (sent_more_insert now chunk r (rtx_data_ r1) tsn events); try done; [destruct Hw; by split|lia]. }
    eapply wp_mono with (P := λ _ r', ∃ events, r' = r <| rwnd_ := wrap 64 (rwnd_ r - size) |> <| events_ := events |> <| rtx_data_ := d' |>).
    + intros _ r' [events ->]. apply wp_ret. exists size. rewrite wrap_small by (unfold uint; lia). auto.
    + apply wp_when; intros _; [|by exists (events_ r)]. unfold wp. cbn [modify]. by eexists.
  - apply wp_ret. split; try done; cbn; try lia.
    + destruct Hw. by split.
    + by rewrite Z.add_0_r, wrap_small.
    + by rewrite Z.sub_0_r, wrap_small.
    + unfold room. lia.
    + intros t i Hi. by exists i.
    + intros t j Ht Hj%chunk_at_range. cbn in Hj. unfold highest_outstanding_tsn in *. cbn in *. lia.
Qed.

Lemma unacked_uint r : od_wf (rtx_data_ r) → uint 64 (unacked_bytes r).
Proof using Type. intros Hw. unfold unacked_bytes. rewrite (wf_bytes _ Hw). by apply wrap_uint. Qed.

Lemma sent_more_refl r : rtx_wf r → sent_more r [] 0 r.
Proof using Type.
  intros [Hw Hq _ _ _ Hrw _]. pose proof (unacked_uint r Hw). split; try done; try lia.
  - by rewrite Z.add_0_r, wrap_small.
  - by rewrite Z.sub_0_r, wrap_small.
  - intros t i Hi. by exists i.
  - intros t j Ht Hj%chunk_at_range. lia.
Qed.

(** What a client proves of the rounds, of the chunks sent and the outstanding data. *)
Definition kept_by_rounds (now : Z) (K : list (Z * Data) → OutstandingData Q → Prop) : Prop :=
  ∀ bytes l r, od_wf (rtx_data_ r) → queue_ok (send_queue_ (rtx_data_ r)) → rtx_header_size_ r < bytes → K l (rtx_data_ r) →
    ∀ sent r', send_round now bytes r = Ret sent r' → K (l ++ from_option fst [] sent) (rtx_data_ r').

Lemma send_loop_spec now K rounds bytes l0 r : kept_by_rounds now K → rtx_wf r → 0 ≤ bytes < 2 ^ 64 → bytes ≤ Z.of_nat rounds → bytes mod 4 = 0 →
  K l0 (rtx_data_ r) → wp (send_loop rounds now bytes) (λ l r', (∃ n, 0 ≤ n ≤ bytes ∧ sent_more r l n r') ∧ K (l0 ++ l) (rtx_data_ r')) r.
Proof using Type.
  intros HK Hr Hb Hle Hm HK0.
  set (I := λ left l r', (∃ n, 0 ≤ n ∧ 0 ≤ left ∧ left + n = bytes ∧ left mod 4 = 0 ∧ sent_more r l n r') ∧ K (l0 ++ l) (rtx_data_ r')).
  assert (∀ r' l n, sent_more r l n r' → rtx_header_size_ r' = rtx_header_size_ r) as Hhd.
  { intros r' l n H. pose proof (sm_control _ _ _ _ H) as E. unfold control in E. congruence. }
  eapply wp_mono; [|apply (send_loop_rule now I) with (l := []); [| |done|]].
  - intros l r' (left & (n & ? & ? & ? & _ & H) & HKl). split; [|done]. exists n. split; [lia|done].
  - intros left l r' [(n & Hn & Hl & Hsum & Hmod & Hsm) HKl] Hlt. pose proof (Hhd _ _ _ Hsm) as Eh. destruct Hr as [Hw Hq Hh Hsz _ Hrw _].
    eapply wp_mono; [|apply wp_and_ret; [apply (send_round_spec now left r')|apply (HK left (l0 ++ l) r')]]; try apply Hsm; try done.
    + intros [[l' left']|] r''; cbn beta; cbn [from_option fst]; rewrite <- app_assoc.
      * intros [(size & Hs & -> & Hm' & Hsm') HK']. split; [lia|]. split; [|done]. exists (n + size). repeat (split; [lia || done|]). by eapply sent_more_trans.
      * intros [Hsm' HK']. rewrite app_nil_r in HK'. split; [|done]. exists n. repeat (split; [lia || done|]).
        rewrite <- (app_nil_r l), <- (Z.add_0_r n). by eapply sent_more_trans.
    + rewrite (sm_header _ _ _ _ Hsm). congruence.
    + by rewrite Eh.
    + lia.
    + apply unacked_uint, Hsm.
    + rewrite (sm_rwnd _ _ _ _ Hsm). by apply wrap_uint.
  - intros left l r' [(n & ? & ? & ? & _ & Hsm) _]. rewrite (Hhd _ _ _ Hsm). destruct (rw_sizes _ Hr); lia.
  - split; [|by rewrite app_nil_r]. exists 0. repeat (split; [lia || done|]). by apply sent_more_refl.
Qed.

Lemma max_bytes_bounds r : rtx_wf r → 0 ≤ max_bytes_to_send r < 2 ^ 64 ∧ (0 < max_bytes_to_send r → max_bytes_to_send r + unacked_bytes r ≤ cwnd_ r)
  ∧ (unacked_bytes r ≠ 0 → max_bytes_to_send r ≤ rwnd_ r).
Proof using Type.
  intros Hr. pose proof (unacked_uint r (rw_data _ Hr)). pose proof (rw_cwnd _ Hr). pose proof (rw_rwnd _ Hr). unfold uint in *. unfold max_bytes_to_send.
  destruct (Z.leb_spec (cwnd_ r) (unacked_bytes r)), (Z.eqb_spec (unacked_bytes r) 0); lia.
Qed.

(** A packet with the chunks [l], which take [n] bytes of the window. *)
Record packet_built (bytes : Z) r (l : list (Z * Data)) (n : Z) r' : Prop := mkPacket {
  pb_wf : rtx_wf r';
  pb_fits : sizes (rtx_header_size_ r) l ≤ n ≤ bytes;
  pb_window : 0 ≤ n ≤ max_bytes_to_send r;
  pb_unacked : unacked_bytes r' = unacked_bytes r + n;
  pb_cwnd : cwnd_ r' = cwnd_ r;
  pb_options : rtx_options_ r' = rtx_options_ r;
  pb_running : l ≠ [] → is_running_ (t3_rtx_ r') = true;
  pb_room : room (rtx_data_ r') ≤ room (rtx_data_ r) + 3 * n
}.

Lemma resent_awaits l max r d' : resent l max (rtx_data_ r) d' → awaits (r <| rtx_data_ := d' |>) → awaits r.
Proof using Type.
  intros H (t & j & Hj & Ha). cbn in Hj. pose proof (rs_last _ _ _ _ H) as Hl. destruct (rs_evolves _ _ _ _ H) as [_ _ _ Ho Hn _].
  pose proof (chunk_at_range _ _ _ Hj). destruct (Z.le_gt_cases t (highest_outstanding_tsn (rtx_data_ r))) as [Hle|Hgt]; [|by rewrite (Hn t j Hgt Hj) in Ha].
  destruct (chunk_at_found (rtx_data_ r) t) as [i Hi]; [lia|]. destruct (Ho t i Hi) as (k & Hk & (_ & _ & Hab)); [lia|].
  rewrite Hj in Hk. injection Hk as <-. exists t, i. split; [done|]. destruct (is_abandoned i); [by rewrite Hab in Ha|done].
Qed.

Lemma sent_more_awaits r l n r' : sent_more r l n r' → awaits r' → awaits r ∨ l ≠ [].
Proof using Type.
  intros H (t & j & Hj & Ha). pose proof (chunk_at_range _ _ _ Hj). pose proof (sm_last _ _ _ _ H).
  destruct (Z.le_gt_cases t (highest_outstanding_tsn (rtx_data_ r))) as [Hle|Hgt]; [|right; by apply (sm_new _ _ _ _ H t j)].
  left. destruct (chunk_at_found (rtx_data_ r) t) as [i Hi]; [lia|]. destruct (sm_old _ _ _ _ H t i Hi) as (k & Hk & (_ & _ & Hab)).
  rewrite Hj in Hk. injection Hk as <-. exists t, i. split; [done|]. destruct (is_abandoned i); [by rewrite Hab in Ha|done].
Qed.

Lemma start_running r : is_running_ (t3_rtx_ (start_t3_if_stopped r)) = true.
Proof using Type. unfold start_t3_if_stopped. destruct (is_running_ (t3_rtx_ r)) eqn:E; [done|]. cbn. unfold Timer_Start. cbn. by rewrite E. Qed.

(** The end of [GetChunksToSend]. *)
Lemma packet_finish bytes max r l1 d1 n1 l2 n2 r1 r2 : rtx_wf r → max = RoundDownTo4 (Z.min (max_bytes_to_send r) bytes) → 0 ≤ bytes →
  resent l1 max (rtx_data_ r) d1 → n1 = sizes (rtx_header_size_ r) l1 → rtx_data_ r1 = d1 → control r1 = control r → rwnd_ r1 = rwnd_ r →
  sent_more r1 l2 n2 r2 → 0 ≤ n2 ≤ max - n1 →
  let running : bool := match l1 ++ l2 with [] => false | _ => true end in
  packet_built bytes r (l1 ++ l2) (n1 + n2) (if running then start_t3_if_stopped r2 else r2).
Proof using Type.
  intros Hr Hmax Hb Hrs Hn1 Hd1 Hc1 Hrw1 Hsm Hn2 running. set (r3 := if running then _ else r2).
  destruct (max_bytes_bounds r Hr) as (Hm1 & Hm2 & Hm3). destruct (RoundDownTo4_bounds (Z.min (max_bytes_to_send r) bytes)) as [Hrd _].
  pose proof (unacked_uint r (rw_data _ Hr)) as Hu. unfold uint in Hu. pose proof (rw_cwnd _ Hr) as Hcw. unfold uint in Hcw.
  assert (0 ≤ n1) by (subst n1; apply sizes_nonneg; destruct (rw_sizes _ Hr); lia).
  assert (rtx_data_ r3 = rtx_data_ r2 ∧ rwnd_ r3 = rwnd_ r2 ∧ cwnd_ r3 = cwnd_ r2 ∧ rtx_header_size_ r3 = rtx_header_size_ r2 ∧ rtx_options_ r3 = rtx_options_ r2) as (Ed & Erw & Ecw & Eh & Eo)
    by (unfold r3, start_t3_if_stopped; destruct running, (is_running_ (t3_rtx_ r2)); done).
  pose proof (sm_control _ _ _ _ Hsm) as Hc2. rewrite Hc1 in Hc2.
  assert (rtx_header_size_ r2 = rtx_header_size_ r ∧ cwnd_ r2 = cwnd_ r ∧ t3_rtx_ r2 = t3_rtx_ r) as (Eh2 & Ecw2 & Et2)
    by (unfold control in Hc2; repeat split; congruence).
  assert (rtx_options_ r3 = rtx_options_ r) as Eo3 by (rewrite Eo; unfold control in Hc2; congruence).
  assert (rtx_header_size_ r1 = rtx_header_size_ r ∧ t3_rtx_ r1 = t3_rtx_ r) as [Eh1 Et1] by (unfold control in Hc1; split; congruence).
  assert (unacked_bytes r3 = unacked_bytes r + (n1 + n2)) as Hun.
  { unfold unacked_bytes at 1. rewrite Ed. change (unacked_bytes_ (rtx_data_ r2)) with (unacked_bytes r2). rewrite (sm_unacked _ _ _ _ Hsm).
    unfold unacked_bytes at 1. rewrite Hd1, (rs_bytes _ _ _ _ Hrs), wrap_plus by done. fold (unacked_bytes r).
    replace (chunks_size (rtx_data_ r) l1) with n1 by (subst n1; unfold chunks_size, sizes, GetSerializedChunkSize; by rewrite (rw_header _ Hr)).
    rewrite wrap_small by (unfold uint; lia). lia. }
  assert (l1 ++ l2 ≠ [] → is_running_ (t3_rtx_ r3) = true) as Hrun.
  { intros Hne. unfold r3, running. destruct (l1 ++ l2); [done|apply start_running]. }
  split; try done; try lia.
  - split; rewrite ?Ed, ?Erw, ?Eh, ?Ecw, ?Eh2, ?Ecw2; try apply Hsm; try apply Hr.
    + rewrite (sm_header _ _ _ _ Hsm), Hd1, (ev_header _ _ (rs_evolves _ _ _ _ Hrs)). apply Hr.
    + rewrite (sm_rwnd _ _ _ _ Hsm). by apply wrap_uint.
    + intros Haw. assert (awaits r2) as Haw2 by (unfold awaits in *; by rewrite <- Ed). destruct (sent_more_awaits _ _ _ _ Hsm Haw2) as [Haw1|Hne].
      * assert (awaits r) as Ha by (apply (resent_awaits l1 max r d1 Hrs); unfold awaits in *; by rewrite <- Hd1).
        apply (rw_timer _ Hr) in Ha. unfold r3. destruct running; [apply start_running|congruence].
      * apply Hrun. by destruct l1, l2.
  - rewrite sizes_app, <- Hn1. pose proof (sm_sizes _ _ _ _ Hsm) as Hs. rewrite Eh1 in Hs. lia.
  - rewrite Ed. pose proof (sm_room _ _ _ _ Hsm) as Hroom. rewrite Hd1, (rs_room _ _ _ _ Hrs) in Hroom. lia.
Qed.

Lemma GetChunksToSend_rule now K bytes r : kept_by_rounds now K → rtx_wf r → 0 ≤ bytes < 2 ^ 31 → room (rtx_data_ r) < 2 ^ 31 →
  (∀ l max d, resent l max (rtx_data_ r) d → K l d) →
  wp (GetChunksToSend now bytes) (λ l r', (∃ n, packet_built bytes r l n r') ∧ K l (rtx_data_ r')) r.
Proof using Type.
  intros HK Hr Hb Hroom HKr. unfold GetChunksToSend. apply wp_bind. unfold wp at 1. cbn [get]. cbv zeta.
  set (max := RoundDownTo4 (Z.min (max_bytes_to_send r) bytes)). destruct (max_bytes_bounds r Hr) as (Hm1 & _ & _).
  destruct (RoundDownTo4_bounds (Z.min (max_bytes_to_send r) bytes)) as [Hrd Hmod]. fold max in Hrd, Hmod.
  assert (0 ≤ max) by (unfold max, RoundDownTo4 in *; rewrite land_m4; pose proof (Z.mod_le (Z.min (max_bytes_to_send r) bytes) 4); lia).
  apply wp_bind, wp_on_data. eapply wp_mono; [|by apply GetChunksToBeRetransmitted_spec; [apply Hr|]]. cbn beta. intros l1 d1 Hrs.
  assert (chunks_size (rtx_data_ r) l1 = sizes (rtx_header_size_ r) l1) as Ecs by (unfold chunks_size, sizes, GetSerializedChunkSize; by rewrite (rw_header _ Hr)).
  pose proof (rs_size _ _ _ _ Hrs ltac:(done)) as Hsz. rewrite Ecs in Hsz.
  assert (0 ≤ sizes (rtx_header_size_ r) l1) by (apply sizes_nonneg; destruct (rw_sizes _ Hr); lia).
  apply wp_bind. unfold wp at 1. cbn [get]. set (r1 := r <| rtx_data_ := d1 |>).
  rewrite (accumulate_sizes_exact r1) by (change (rtx_header_size_ r1) with (rtx_header_size_ r); destruct (rw_sizes _ Hr); lia).
  change (rtx_header_size_ r1) with (rtx_header_size_ r). set (n1 := sizes (rtx_header_size_ r) l1) in *. rewrite wrap_small by (unfold uint; lia).
  apply wp_bind. apply wp_mono with (P := λ _ r2, rtx_data_ r2 = d1 ∧ control r2 = control r ∧ rwnd_ r2 = rwnd_ r);
    [|by apply wp_when; intros _; unfold wp; cbn]. intros _ r2 (Hd2 & Hc2 & Hrw2).
  assert (rtx_header_size_ r2 = rtx_header_size_ r ∧ cwnd_ r2 = cwnd_ r ∧ t3_rtx_ r2 = t3_rtx_ r) as (Eh & Ecw & Et) by (unfold control in Hc2; repeat split; congruence).
  assert (rtx_wf r2) as Hr2.
  { split; rewrite ?Hd2, ?Eh, ?Ecw, ?Et, ?Hrw2; try apply Hr; [apply Hrs| | |].
    - rewrite (rs_queue _ _ _ _ Hrs). apply Hr.
    - rewrite (ev_header _ _ (rs_evolves _ _ _ _ Hrs)). apply Hr.
    - intros Ha. apply Hr, (resent_awaits l1 max r d1 Hrs). unfold awaits in *. cbn. by rewrite <- Hd2. }
  assert ((max - n1) mod 4 = 0) as Hmod'.
  { rewrite Zminus_mod, Hmod. enough (n1 mod 4 = 0) as -> by done. unfold n1, sizes. clear. induction l1 as [|p l IH]; [done|]. cbn [total_of].
    rewrite Zplus_mod, IH. unfold RoundUpTo4. rewrite land_m4. set (x := _ + 3). rewrite Z.add_0_r, Z.mod_mod by lia.
    replace (x - x mod 4) with (x / 4 * 4) by (pose proof (Z.div_mod x 4 ltac:(lia)); lia). apply Z.mod_mul. lia. }
  assert (K l1 (rtx_data_ r2)) as HK1 by (rewrite Hd2; by apply (HKr l1 max)).
  apply wp_bind. eapply wp_mono; [|apply (send_loop_spec now K _ (max - n1) l1 r2 HK Hr2); [lia|lia|done|done]]. cbn beta. intros l2 r3 [(n2 & Hn2 & Hsm) HK2].
  pose proof (packet_finish bytes max r l1 d1 n1 l2 n2 r2 r3 Hr eq_refl ltac:(lia) Hrs eq_refl Hd2 Hc2 Hrw2 Hsm ltac:(lia)) as Hp. cbv zeta in Hp.
  assert (rtx_data_ (start_t3_if_stopped r3) = rtx_data_ r3) as Ed by (unfold start_t3_if_stopped; by destruct (is_running_ _)).
  apply wp_bind. unfold wp at 1. destruct (l1 ++ l2); cbn [when modify ret]; apply wp_ret; rewrite ?Ed; eauto.
Qed.

Lemma GetChunksToSend_spec now bytes r : rtx_wf r → 0 ≤ bytes < 2 ^ 31 → room (rtx_data_ r) < 2 ^ 31 →
  wp (GetChunksToSend now bytes) (λ l r', ∃ n, packet_built bytes r l n r') r.
Proof using Type.
  intros Hr Hb Hroom. eapply wp_mono; [|apply (GetChunksToSend_rule now (λ _ _, True) bytes r); try done]; by intros l r' [? _].
Qed.

(** ** SACKs *)

Lemma Unwrap_peek value u : (Unwrap 32 0 value u).1 = PeekUnwrap 32 0 value u.
Proof using Type. unfold Unwrap, PeekUnwrap. by destruct (last_value_ u). Qed.

Lemma MeasureRTT_spec now tsn d : room d < 2 ^ 31 → wp (MeasureRTT now tsn) (λ _ d', d' = d) (d : OutstandingData Q).
Proof using Type.
  intros Hr. unfold MeasureRTT. apply wp_bind. unfold wp at 1. cbn [get]. unfold next_tsn, next_value.
  destruct (Z.ltb_spec (last_cumulative_tsn_ack_ d) tsn), (Z.ltb_spec tsn (highest_outstanding_tsn d + 1)); cbn [andb]; try by apply wp_ret.
  destruct (chunk_at_found d tsn) as [i Hi]; [lia|]. apply wp_bind. unfold wp at 1. by rewrite (GetItem_found d tsn i Hr Hi).
Qed.

(** What [after_sack] leaves alone, and what it guarantees. *)
Lemma ack_events_same info r : ∃ events, ack_events info r = r <| events_ := events |>.
Proof using Type.
  unfold ack_events. assert (∀ (f : Z → RtxEvent) l r0, (∃ events, r0 = r <| events_ := events |>) → ∃ events,
    foldl (λ r id, fire_event (OnMessageEnd id) (fire_event (f id) r)) r0 l = r <| events_ := events |>) as H.
  { intros f l. induction l as [|id l IH]; intros r0 [events ->]; cbn [foldl]; [by exists events|]. apply IH. by eexists. }
  apply (H (λ id, OnMessageExpired id true)), (H OnMessageDelivered). exists (events_ r). by destruct r.
Qed.

Record reacted (a_rwnd : Z) r r' : Prop := mkReacted {
  re_data : rtx_data_ r' = rtx_data_ r;
  re_header : rtx_header_size_ r' = rtx_header_size_ r;
  re_options : rtx_options_ r' = rtx_options_ r;
  re_partial : partial_reliability_ r' = partial_reliability_ r;
  re_unwrapper : tsn_unwrapper_ r' = tsn_unwrapper_ r;
  re_cwnd : uint 64 (cwnd_ r');
  re_floor : let mtu := rtx_mtu (rtx_options_ r) in 0 ≤ mtu ≤ wrap 64 (cwnd_mtus_min (rtx_options_ r) * mtu) →
    mtu ≤ cwnd_ r → cwnd_ r + mtu < 2 ^ 64 → mtu ≤ cwnd_ r';
  re_rwnd : rwnd_ r' = if a_rwnd <=? unacked_bytes r then 0 else a_rwnd - unacked_bytes r;
  re_timer : od_empty (rtx_data_ r) = false → is_running_ (t3_rtx_ r') = true
}.

Lemma increased_spec unacked total r : uint 64 (cwnd_ r) → 0 ≤ total → let r' := HandleIncreasedCumulativeTsnAck unacked total r in
  ∃ cwnd pba, r' = r <| cwnd_ := cwnd |> <| partial_bytes_acked_ := pba |> ∧ uint 64 cwnd
  ∧ (0 ≤ rtx_mtu (rtx_options_ r) → cwnd_ r + rtx_mtu (rtx_options_ r) < 2 ^ 64 → cwnd_ r ≤ cwnd).
Proof using Type.
  intros Hc Ht. unfold HandleIncreasedCumulativeTsnAck. set (mtu := rtx_mtu (rtx_options_ r)). destruct (phase r).
  - destruct (_ && _).
    + exists (wrap 64 (cwnd_ r + Z.min total mtu)), (partial_bytes_acked_ r). split; [done|]. split; [by apply wrap_uint|].
      intros Hm Hlt. unfold uint in Hc. rewrite wrap_small by (unfold uint; lia). lia.
    + exists (cwnd_ r), (partial_bytes_acked_ r). split; [by destruct r|]. done.
  - cbn. destruct (_ && _).
    + exists (wrap 64 (cwnd_ r + mtu)), (wrap 64 (wrap 64 (partial_bytes_acked_ r + total) - cwnd_ r)). split; [done|]. split; [by apply wrap_uint|].
      intros Hm Hlt. unfold uint in Hc. rewrite wrap_small by (unfold uint; lia). lia.
    + exists (cwnd_ r), (wrap 64 (partial_bytes_acked_ r + total)). done.
Qed.

(** The bytes acked are counted in a [size_t]. *)
Lemma fold_m_post {A B} (f : B → A → M (OutstandingData Q) B) (P : B → Prop) l : (∀ b a d b' d', P b → f b a d = Ret b' d' → P b') →
  ∀ b d b' d', P b → fold_m f l b d = Ret b' d' → P b'.
Proof using Type.
  intros Hf. induction l as [|a l IH]; intros b d b' d' Hb; cbn [fold_m ret]; [by intros [= <- <-]|]. unfold bind.
  destruct (f b a d) as [b1 d1| | |] eqn:E; [|done..]. apply IH. by eapply Hf.
Qed.

Lemma AckChunk_bytes info tsn item d : 0 ≤ bytes_acked info → 0 ≤ bytes_acked (AckChunk info tsn item d : AckInfo * OutstandingData Q).1.
Proof using Type. intros H. unfold AckChunk. destruct (negb _); [|done]. cbn. by apply (wrap_uint 64). Qed.

Lemma remove_loop_bytes fuel cum info d : 0 ≤ bytes_acked info → 0 ≤ bytes_acked (remove_loop fuel cum info d : AckInfo * OutstandingData Q).1.
Proof using Type.
  revert info d. induction fuel as [|n IH]; intros info d H; cbn [remove_loop]; [done|]. destruct (outstanding_data_ d) as [|item rest]; [done|].
  destruct (_ <? _); [|done]. pose proof (AckChunk_bytes info (next_value (last_cumulative_tsn_ack_ d)) item d H) as H1. destruct (AckChunk _ _ item d) as [info1 d1].
  apply IH. unfold note_lifecycle. by destruct (IsSet _), (is_abandoned item).
Qed.

Lemma HandleSack_bytes cum gaps fr d info d' : HandleSack cum gaps fr d = Ret info d' → 0 ≤ bytes_acked info.
Proof using Type.
  unfold HandleSack, RemoveAcked. unfold bind at 1. cbn [get]. pose proof (remove_loop_bytes (length (outstanding_data_ d)) cum (AckInfo_new cum) d ltac:(done)) as H1.
  destruct (remove_loop _ _ _ d) as [info1 d1]. cbn [fst] in H1. unfold bind at 1. cbn [modify]. unfold bind at 1.
  destruct (AckGapBlocks cum gaps info1 _) as [info2 d2| | |] eqn:E2; [|done..].
  assert (0 ≤ bytes_acked info2) as H2.
  { unfold AckGapBlocks in E2. revert E2. apply (fold_m_post _ (λ i, 0 ≤ bytes_acked i)); [|done]. clear. intros info b d info' d' H. apply (fold_m_post _ (λ i, 0 ≤ bytes_acked i)); [|done]. clear.
    intros info t d info' d' H. unfold ack_tsn, bind at 1. cbn [get]. destruct (_ && _); [|by intros [= <- <-]]. unfold bind at 1.
    destruct (GetItem t d) as [item d1| | |]; [|done..]. pose proof (AckChunk_bytes info t item d H) as H'. destruct (AckChunk info t item d). by intros [= <- <-]. }
  unfold NackBetweenAckBlocks, bind at 1. cbn [get]. unfold bind at 1. destruct (fold_m _ _ _ d2) as [[prev info3] d3| | |] eqn:E3; [|done..].
  intros [= <- <-]. cbn [snd]. change info3 with (prev, info3).2. revert E3. apply (fold_m_post _ (λ s, 0 ≤ bytes_acked s.2)); [|done]. clear.
  intros [p info] b d [p' info'] d' H. unfold nack_before, bind. destruct (nack_all_of _ _ _ d) as [info1 d1| | |] eqn:E; [|done..]. intros [= <- <- <-].
  revert E. unfold nack_all_of. apply (fold_m_post _ (λ i, 0 ≤ bytes_acked i)); [|done]. clear. intros info t d info' d' H. unfold bind.
  destruct (NackItem _ _ t d); [|done..]. by intros [= <- <-].
Qed.

Lemma after_sack_spec a_rwnd advanced unacked info r : uint 64 (cwnd_ r) → 0 ≤ bytes_acked info →
  reacted a_rwnd r (after_sack a_rwnd advanced unacked info r).
Proof using Type.
  intros Hc Hb. unfold after_sack. destruct (ack_events_same info r) as [events ->].
  set (r1 := UpdateReceiverWindow a_rwnd _). set (r2 := if advanced then _ else r1).
  assert (∃ cwnd pba t3, r2 = r1 <| t3_rtx_ := t3 |> <| cwnd_ := cwnd |> <| partial_bytes_acked_ := pba |> ∧ uint 64 cwnd
    ∧ (0 ≤ rtx_mtu (rtx_options_ r) → cwnd_ r + rtx_mtu (rtx_options_ r) < 2 ^ 64 → cwnd_ r ≤ cwnd)) as (cwnd & pba & t3 & E2 & Hc2 & Hfl).
  { unfold r2. destruct advanced.
    - destruct (increased_spec unacked (bytes_acked info) (stop_t3 r1) Hc Hb) as (cwnd & pba & E & ? & ?). exists cwnd, pba, (Timer_Stop (t3_rtx_ r1)). by rewrite E.
    - by exists (cwnd_ r1), (partial_bytes_acked_ r1), (t3_rtx_ r1). }
  set (r3 := if has_packet_loss info then HandlePacketLoss r2 else r2).
  assert (rtx_data_ r3 = rtx_data_ r ∧ rtx_header_size_ r3 = rtx_header_size_ r ∧ rtx_options_ r3 = rtx_options_ r
    ∧ partial_reliability_ r3 = partial_reliability_ r ∧ tsn_unwrapper_ r3 = tsn_unwrapper_ r ∧ rwnd_ r3 = rwnd_ r1 ∧ uint 64 (cwnd_ r3)
    ∧ (cwnd_ r3 = cwnd ∨ wrap 64 (cwnd_mtus_min (rtx_options_ r) * rtx_mtu (rtx_options_ r)) ≤ cwnd_ r3)) as (Ed & Eh & Eo & Ep & Eun & Erw & Hc3 & Hfl3).
  { unfold r3. rewrite E2. destruct (has_packet_loss info); [|repeat (split; [done|]); by left]. unfold HandlePacketLoss.
    destruct (is_in_fast_recovery _); repeat (split; [done|]); [by left|]. cbn. split; [|right; lia].
    pose proof (wrap_uint 64 (cwnd_mtus_min (rtx_options_ r) * rtx_mtu (rtx_options_ r)) ltac:(done)). unfold uint in *.
    assert (0 ≤ cwnd / 2 < 2 ^ 64) by (split; [apply Z.div_pos; lia|apply Z.div_lt_upper_bound; lia]). lia. }
  clear E2. clearbody r3. clear r2. set (r4 := if 0 <? bytes_acked info then _ else r3).
  assert (rtx_data_ r4 = rtx_data_ r3 ∧ rtx_header_size_ r4 = rtx_header_size_ r3 ∧ rtx_options_ r4 = rtx_options_ r3 ∧ partial_reliability_ r4 = partial_reliability_ r3
    ∧ tsn_unwrapper_ r4 = tsn_unwrapper_ r3 ∧ rwnd_ r4 = rwnd_ r3 ∧ cwnd_ r4 = cwnd_ r3) as (Ed4 & Eh4 & Eo4 & Ep4 & Eun4 & Erw4 & Ec4) by (unfold r4; by destruct (0 <? _)).
  unfold StartT3RtxTimerIfOutstandingData. rewrite Ed4, Ed.
  destruct (od_empty (rtx_data_ r)) eqn:Ee; [|pose proof (start_running r4); unfold start_t3_if_stopped in *; destruct (is_running_ (t3_rtx_ r4)) eqn:Er];
    (split; cbn; rewrite ?Ed4, ?Eh4, ?Eo4, ?Ep4, ?Eun4, ?Erw4, ?Ec4, ?Er; try done; rewrite ?Erw; try congruence; cbn zeta; intros; destruct Hfl3; lia).
Qed.

Definition sack_ok (sack : SackChunk) : Prop := uint 32 (a_rwnd_ sack) ∧ Forall (λ b, 0 ≤ gap_end b) (gap_ack_blocks_ sack).

(** A SACK that is not valid changes nothing; what a valid one does. *)
Definition sack_cum (sack : SackChunk) r : Z := PeekUnwrap 32 0 (cumulative_tsn_ack_ sack) (tsn_unwrapper_ r).
Record sack_handled (sack : SackChunk) r r' : Prop := mkSackHandled {
  sh_valid : sack_valid (sack_cum sack r) (rtx_data_ r);
  sh_sacked : ∃ info, sacked (sack_cum sack r) (gap_ack_blocks_ sack) (rtx_data_ r) (rtx_data_ r') info;
  sh_unwrapper : tsn_unwrapper_ r' = (Unwrap 32 0 (cumulative_tsn_ack_ sack) (tsn_unwrapper_ r)).2;
  sh_reacted : ∃ r1, rtx_data_ r1 = rtx_data_ r' ∧ rtx_header_size_ r1 = rtx_header_size_ r ∧ rtx_options_ r1 = rtx_options_ r ∧ cwnd_ r1 = cwnd_ r
    ∧ partial_reliability_ r1 = partial_reliability_ r ∧ reacted (a_rwnd_ sack) r1 r'
}.

Lemma IsSackValid_spec sack r : IsSackValid sack r = true ↔ sack_valid (sack_cum sack r) (rtx_data_ r).
Proof using Type.
  unfold IsSackValid, sack_valid, sack_cum. rewrite andb_true_iff, !negb_true_iff, !Z.ltb_ge. tauto.
Qed.

Lemma Rtx_HandleSack_spec now sack r : rtx_wf r → room (rtx_data_ r) < 2 ^ 31 → to_be_fast_retransmitted_ (rtx_data_ r) = [] → sack_ok sack →
  wp (Rtx_HandleSack now sack) (λ ok r', if ok : bool then sack_handled sack r r' else IsSackValid sack r = false ∧ r' = r) r.
Proof using Type.
  intros Hr Hroom Hfast [Hrwnd Hgaps]. unfold Rtx_HandleSack. apply wp_bind. unfold wp at 1. cbn [get].
  destruct (IsSackValid sack r) eqn:Hv; [|by apply wp_ret]. apply IsSackValid_spec in Hv. cbv zeta.
  pose proof (Unwrap_peek (cumulative_tsn_ack_ sack) (tsn_unwrapper_ r)) as Hcum. destruct (Unwrap 32 0 _ _) as [cum unwrapper] eqn:HU. cbn [fst] in Hcum.
  fold (sack_cum sack r) in Hcum. subst cum. set (cum := sack_cum sack r) in *. apply wp_bind. unfold wp at 1. cbn [modify]. apply wp_bind.
  set (core := λ r1, rtx_data_ r1 = rtx_data_ r ∧ rtx_header_size_ r1 = rtx_header_size_ r ∧ rtx_options_ r1 = rtx_options_ r ∧ cwnd_ r1 = cwnd_ r
    ∧ partial_reliability_ r1 = partial_reliability_ r ∧ tsn_unwrapper_ r1 = unwrapper).
  eapply wp_mono with (P := λ _, core).
  2: { apply wp_when; intros _; [|done]. unfold UpdateRTT. apply wp_bind, wp_on_data. eapply wp_mono; [|by apply MeasureRTT_spec]. cbn beta.
       intros rtt d ->. apply wp_when; intros _; done. }
  intros _ r1 (Hd1 & Hh1 & Ho1 & Hc1 & Hp1 & Hu1). apply wp_bind. unfold wp at 1. cbn [modify]. set (r2 := MaybeExitFastRecovery cum r1).
  assert (rtx_data_ r2 = rtx_data_ r1 ∧ rtx_header_size_ r2 = rtx_header_size_ r1 ∧ rtx_options_ r2 = rtx_options_ r1 ∧ cwnd_ r2 = cwnd_ r1
    ∧ partial_reliability_ r2 = partial_reliability_ r1 ∧ tsn_unwrapper_ r2 = tsn_unwrapper_ r1) as (Hd2 & Hh2 & Ho2 & Hc2 & Hp2 & Hu2).
  { unfold r2, MaybeExitFastRecovery. destruct (fast_recovery_exit_tsn_ r1) as [e|]; [destruct (_ <=? _)|]; done. }
  apply wp_bind. unfold wp at 1. cbn [gets]. apply wp_bind, wp_on_data. rewrite Hd2, Hd1.
  pose proof (HandleSack_spec cum (gap_ack_blocks_ sack) (is_in_fast_recovery r2) (rtx_data_ r) (rw_data _ Hr) Hroom Hfast Hgaps Hv) as Hs. unfold wp in Hs |- *.
  destruct (HandleSack cum _ _ (rtx_data_ r)) as [info d'| | |] eqn:EH; [|done..]. apply HandleSack_bytes in EH as Hb. cbn [bind modify ret].
  set (r3 := r2 <| rtx_data_ := d' |>). assert (uint 64 (cwnd_ r3)) as Hcw by (cbn; rewrite Hc2, Hc1; apply Hr).
  pose proof (after_sack_spec (a_rwnd_ sack) (last_cumulative_tsn_ack_ (rtx_data_ r) <? cum) (unacked_bytes r) info r3 Hcw Hb) as Hre. pose proof (re_data _ _ _ Hre) as Ed.
  split; [done| |rewrite (re_unwrapper _ _ _ Hre), HU; cbn; congruence|].
  - exists info. by rewrite Ed.
  - exists r3. rewrite Ed. cbn. rewrite Hh2, Hh1, Ho2, Ho1, Hc2, Hc1, Hp2, Hp1. done.
Qed.

Lemma sack_handled_wf sack r r' : rtx_wf r → sack_ok sack → sack_handled sack r r' → rtx_wf r' ∧ room (rtx_data_ r') ≤ room (rtx_data_ r).
Proof using Type.
  intros Hr [Hrw _] [Hv [info Hs] _ (r1 & Hd & Hh & _ & _ & _ & Hre)]. pose proof (sk_evolves _ _ _ _ _ Hs) as He. pose proof (sk_wf _ _ _ _ _ Hs) as Hw.
  split; [|apply Hs]. split; [done| | | |apply Hre| |].
  - eapply discards_ok; [apply He|apply Hr].
  - rewrite (ev_header _ _ He), (re_header _ _ _ Hre), Hh. apply Hr.
  - rewrite (re_header _ _ _ Hre), Hh. apply Hr.
  - rewrite (re_rwnd _ _ _ Hre). assert (od_wf (rtx_data_ r1)) as Hw1 by (by rewrite Hd). pose proof (unacked_uint r1 Hw1) as Hu. unfold uint in *.
    destruct (Z.leb_spec (a_rwnd_ sack) (unacked_bytes r1)); lia.
  - intros (t & i & Hi & _). apply (re_timer _ _ _ Hre). rewrite Hd. apply look_Some in Hi as [_ Hi]. unfold od_empty. by destruct (outstanding_data_ (rtx_data_ r')).
Qed.

(** ** The other operations *)

(** The data evolves and nothing else that the invariant speaks of changes, but the timer may start. *)
Lemma evolves_wf r r' : rtx_wf r → od_wf (rtx_data_ r') → od_evolves (rtx_data_ r) (rtx_data_ r') → rtx_header_size_ r' = rtx_header_size_ r →
  uint 64 (cwnd_ r') → rwnd_ r' = rwnd_ r → (is_running_ (t3_rtx_ r) = true → is_running_ (t3_rtx_ r') = true) → rtx_wf r'.
Proof using Type.
  intros Hr Hw He Hh Hc Hrw Ht. split; try done.
  - eapply discards_ok; [apply He|apply Hr].
  - rewrite (ev_header _ _ He), Hh. apply Hr.
  - rewrite Hh. apply Hr.
  - rewrite Hrw. apply Hr.
  - intros (t & j & Hj & Ha). apply Ht, (rw_timer _ Hr). pose proof (chunk_at_range _ _ _ Hj). pose proof (ev_last _ _ He).
    destruct (Z.le_gt_cases t (highest_outstanding_tsn (rtx_data_ r))) as [Hle|Hgt]; [|by rewrite (ev_new _ _ He t j Hgt Hj) in Ha].
    destruct (chunk_at_found (rtx_data_ r) t) as [i Hi]; [lia|]. destruct (ev_old _ _ He t i Hi) as (k & Hk & (_ & _ & Hab)); [lia|].
    rewrite Hj in Hk. injection Hk as <-. exists t, i. split; [done|]. destruct (is_abandoned i); [by rewrite Hab in Ha|done].
Qed.

Lemma HandleT3RtxTimerExpiry_spec r : rtx_wf r → room (rtx_data_ r) < 2 ^ 31 → uint 64 (rtx_mtu (rtx_options_ r)) →
  wp HandleT3RtxTimerExpiry (λ _ r', rtx_wf r' ∧ room (rtx_data_ r') ≤ room (rtx_data_ r) ∧ rtx_options_ r' = rtx_options_ r
    ∧ cwnd_ r' = rtx_mtu (rtx_options_ r) ∧ od_moves (rtx_data_ r) (rtx_data_ r')) r.
Proof using Type.
  intros Hr Hroom Hm. unfold HandleT3RtxTimerExpiry. apply wp_bind. unfold wp at 1. cbn [modify]. apply wp_on_data.
  eapply wp_mono; [|by apply NackAll_spec; [apply Hr|]]. cbn beta. intros _ d (Hw & Hro & Hmv & _). split; [|done]. apply (evolves_wf r); try done. apply Hmv.
Qed.

Lemma GetChunksForFastRetransmit_spec bytes r : rtx_wf r → room (rtx_data_ r) < 2 ^ 31 →
  match GetChunksForFastRetransmit bytes r with
  | Ret l r' => rtx_wf r' ∧ room (rtx_data_ r') = room (rtx_data_ r) ∧ rtx_options_ r' = rtx_options_ r ∧ cwnd_ r' = cwnd_ r
      ∧ ∃ d, resent l bytes (rtx_data_ r) (rtx_data_ r') ∧ GetChunksToBeFastRetransmitted bytes (rtx_data_ r) = Ret l d
  | Undef f _ => f = OutOfBounds ∧ ∃ d, GetChunksToBeFastRetransmitted bytes (rtx_data_ r) = Ret [] d
  | _ => False
  end.
Proof using Type.
  intros Hr Hroom. unfold GetChunksForFastRetransmit. unfold bind at 1, on_data at 1.
  pose proof (GetChunksToBeFastRetransmitted_spec bytes (rtx_data_ r) (rw_data _ Hr) Hroom) as Hs. unfold wp in Hs.
  destruct (GetChunksToBeFastRetransmitted bytes (rtx_data_ r)) as [l d| | |]; [|done..]. destruct Hs as [Hs _].
  destruct l as [|first l]; [cbn; eauto|]. unfold bind at 1. cbn [head in_bounds ret]. unfold bind at 1. cbn [get].
  set (r1 := r <| rtx_data_ := d |>). unfold bind at 1. set (again := first.1 =? _). clearbody again.
  replace (when again (modify stop_t3) r1) with (Ret tt (if again then stop_t3 r1 else r1)) by (by destruct again).
  set (r2 := if again then stop_t3 r1 else r1). cbn [bind modify ret]. pose proof (start_running r2) as Hrun.
  assert (rtx_data_ (start_t3_if_stopped r2) = d ∧ rtx_header_size_ (start_t3_if_stopped r2) = rtx_header_size_ r ∧ cwnd_ (start_t3_if_stopped r2) = cwnd_ r
    ∧ rwnd_ (start_t3_if_stopped r2) = rwnd_ r ∧ rtx_options_ (start_t3_if_stopped r2) = rtx_options_ r) as (Ed & Eh & Ec & Erw & Eo).
  { unfold r2, start_t3_if_stopped. destruct again; match goal with |- context [if ?b then _ else _] => by destruct b end. }
  set (r3 := start_t3_if_stopped r2) in *. clearbody r3. cbn. rewrite Ed, Ec, Eo. split; [|split; [exact (rs_room _ _ _ _ Hs)|repeat (split; [done|]); by exists d]].
  apply (evolves_wf r); cbn; try congruence; rewrite ?Ed; try apply Hs; try apply Hr. rewrite Ec. apply Hr.
Qed.

Lemma Rtx_ShouldSendForwardTsn_spec now r b r' : rtx_wf r → Rtx_ShouldSendForwardTsn now r = Ret b r' →
  rtx_wf r' ∧ room (rtx_data_ r') ≤ room (rtx_data_ r) ∧ rtx_options_ r' = rtx_options_ r ∧ cwnd_ r' = cwnd_ r
  ∧ (r' = r ∨ od_moves (rtx_data_ r) (rtx_data_ r')).
Proof using Type.
  intros Hr. unfold Rtx_ShouldSendForwardTsn. unfold bind at 1. cbn [get]. destruct (partial_reliability_ r); [|intros [= <- <-]; split; [done|]; split; [lia|auto]].
  pose proof (expire_loop_spec now (length (outstanding_data_ (rtx_data_ r))) 0 (rtx_data_ r) (rw_data _ Hr) (le_n _)) as H.
  unfold bind, on_data, ExpireOutstandingChunks. cbn [bind get]. destruct (expire_loop now _ 0 (rtx_data_ r)) as [[] d| | |]; [|done..].
  cbn [get ret]. intros [= <- <-]. destruct H as (Hw & Hro & Hf%frame_moves). split; [|auto]. apply (evolves_wf r); try done; [apply Hf|apply Hr].
Qed.
End Invariant.

(** ** Histories *)

Definition rtx_options_ok (o : RtxOptions) : Prop :=
  0 < rtx_mtu o ∧ 1 ≤ cwnd_mtus_initial o ∧ 1 ≤ cwnd_mtus_min o ∧ cwnd_mtus_initial o * rtx_mtu o < 2 ^ 64 ∧ cwnd_mtus_min o * rtx_mtu o < 2 ^ 64.

(** The states that the operations reach.  No fast retransmission is pending when a SACK
    arrives; between the calls others use the send queue, and the timer may be armed anew and
    get another duration.  The counters stay within their ranges. *)
Inductive rtx_run {Q} `{!SendQueue Q} `{!StreamResets Q} `{!SendQueueLaws Q} : RetransmissionQueue Q → Prop :=
| rtx_run_new tsn a_rwnd q t3 options pr mi : uint 64 a_rwnd → rtx_options_ok options → queue_ok q →
    rtx_run (RetransmissionQueue_new tsn a_rwnd q t3 options pr mi)
| rtx_run_send r now bytes l r' : rtx_run r → 0 ≤ bytes < 2 ^ 31 → GetChunksToSend now bytes r = Ret l r' → room (rtx_data_ r') < 2 ^ 31 → rtx_run r'
| rtx_run_sack r now sack ok r' : rtx_run r → sack_ok sack → to_be_fast_retransmitted_ (rtx_data_ r) = [] →
    cwnd_ r + rtx_mtu (rtx_options_ r) < 2 ^ 64 → Rtx_HandleSack now sack r = Ret ok r' → rtx_run r'
| rtx_run_t3 r r' : rtx_run r → HandleT3RtxTimerExpiry r = Ret tt r' → rtx_run r'
| rtx_run_fast r bytes l r' : rtx_run r → GetChunksForFastRetransmit bytes r = Ret l r' → rtx_run r'
| rtx_run_forward r now b r' : rtx_run r → Rtx_ShouldSendForwardTsn now r = Ret b r' → rtx_run r'
| rtx_run_queue r f : rtx_run r → (queue_ok (send_queue_ (rtx_data_ r)) → queue_ok (f (send_queue_ (rtx_data_ r)))) → rtx_run (change_queue f r)
| rtx_run_reset r : rtx_run r → (queue_ok (send_queue_ (rtx_data_ r)) → queue_ok (queue_GetStreamsReadyToBeReset (send_queue_ (rtx_data_ r))).2) →
    rtx_run (Rtx_BeginResetStreams r).2
| rtx_run_timer r t : rtx_run r → is_running_ t = is_running_ (t3_rtx_ r) → rtx_run (r <| t3_rtx_ := t |>).

Section Histories.
Context {Q : Type} `{!SendQueue Q} `{!StreamResets Q} `{!SendQueueLaws Q}.
Implicit Types r : RetransmissionQueue Q.

Record rtx_inv r : Prop := mkRtxInv {
  rv_wf : rtx_wf r;
  rv_room : room (rtx_data_ r) < 2 ^ 31;
  rv_options : rtx_options_ok (rtx_options_ r);
  rv_floor : rtx_mtu (rtx_options_ r) ≤ cwnd_ r
}.

Lemma rtx_new_inv tsn a_rwnd q t3 options pr mi : uint 64 a_rwnd → rtx_options_ok options → queue_ok q →
  rtx_inv (RetransmissionQueue_new tsn a_rwnd q t3 options pr mi).
Proof using Type.
  intros Hrw Ho Hq. pose proof Ho as (Hm & Hi & _ & Hlt & _). unfold RetransmissionQueue_new. destruct (Unwrap _ _ _ _) as [last u].
  assert (uint 64 (cwnd_mtus_initial options * rtx_mtu options)) as Hc by (unfold uint; nia).
  split; cbn; [split; cbn|done|done|rewrite wrap_small by done; nia]; try done.
  - split; try done; try constructor; [by intros t ?%elem_of_nil|by intros [?%elem_of_nil|?%elem_of_nil]|by intros (? & [_ ?]%look_Some & _)|].
    by intros t i [_ ?]%look_Some.
  - destruct mi; auto.
  - by rewrite wrap_small.
  - by intros (t & i & [_ ?]%look_Some & _).
Qed.

Lemma queue_change_inv r d' : rtx_inv r → od_wf d' → queue_ok (send_queue_ d') → room d' = room (rtx_data_ r) → chunk_at d' = chunk_at (rtx_data_ r) →
  data_chunk_header_size_ d' = data_chunk_header_size_ (rtx_data_ r) → rtx_inv (r <| rtx_data_ := d' |>).
Proof using Type.
  intros [[Hw Hq Hh Hs Hc Hrw Ht] Hro Ho Hf] Hw' Hq' Hr Hch Hhd. split; [split|..]; cbn; try done; try congruence.
  - intros (t & i & Hi & Ha). apply Ht. exists t, i. cbn in Hi. by rewrite Hch in Hi.
Qed.

Lemma rtx_run_inv r : rtx_run r → rtx_inv r.
Proof using Type.
  induction 1 as [tsn a_rwnd q t3 options pr mi Hrw Ho Hq|r now bytes l r' _ IH Hb E Hro|r now sack ok r' _ IH Hok Hf Hc E|r r' _ IH E
    |r bytes l r' _ IH E|r now b r' _ IH E|r f _ IH Hf|r _ IH Hf|r t _ IH Ht].
  - by apply rtx_new_inv.
  - pose proof (wp_elim _ _ _ _ _ (GetChunksToSend_spec now bytes r (rv_wf _ IH) Hb (rv_room _ IH)) E) as (n & [Hw _ _ _ Hc Ho _ _]).
    destruct IH. split; [done|done|congruence|congruence].
  - pose proof (wp_elim _ _ _ _ _ (Rtx_HandleSack_spec now sack r (rv_wf _ IH) (rv_room _ IH) Hf Hok) E) as H. destruct ok; [|by destruct H as [_ ->]].
    destruct (sack_handled_wf sack r r' (rv_wf _ IH) Hok H) as [Hw Hro]. destruct H as [_ _ _ (r1 & _ & _ & Ho1 & Hc1 & _ & Hre)].
    destruct IH as [_ Hroom Hopt Hfl]. pose proof (re_options _ _ _ Hre) as Eo. pose proof (re_floor _ _ _ Hre) as Hfloor. cbv zeta in Hfloor. rewrite Ho1, Hc1 in *.
    split; [done|lia|by rewrite Eo|]. rewrite Eo. apply Hfloor; [|done|done]. destruct Hopt as (? & _ & ? & _ & ?).
    rewrite wrap_small by (unfold uint; nia). nia.
  - assert (uint 64 (rtx_mtu (rtx_options_ r))) as Hm by (destruct (rv_options _ IH) as (? & ? & _ & ? & _); unfold uint; nia).
    pose proof (wp_elim _ _ _ _ _ (HandleT3RtxTimerExpiry_spec r (rv_wf _ IH) (rv_room _ IH) Hm) E) as (Hw & Hro & Ho & Hc & _). destruct IH.
    split; [done|lia|congruence|rewrite Ho, Hc; lia].
  - pose proof (GetChunksForFastRetransmit_spec bytes r (rv_wf _ IH) (rv_room _ IH)) as H. rewrite E in H. destruct H as (Hw & Hro & Ho & Hc & _), IH.
    split; [done|lia|congruence|congruence].
  - destruct (Rtx_ShouldSendForwardTsn_spec now r b r' (rv_wf _ IH) E) as (Hw & Hro & Ho & Hc & _), IH. split; [done|lia|congruence|congruence].
  - apply queue_change_inv; try done; [destruct (rw_data _ (rv_wf _ IH)); by split|]. cbn. apply Hf, IH.
  - unfold Rtx_BeginResetStreams. cbn. destruct (queue_GetStreamsReadyToBeReset _) as [streams q] eqn:E. cbn [snd] in *.
    apply queue_change_inv; try done; [destruct (rw_data _ (rv_wf _ IH)); by split|]. cbn. apply Hf, IH.
  - destruct IH as [[] ? ? ?]. split; [split|..]; cbn; try done. rewrite Ht. done.
Qed.
End Histories.

(** ** Properties *)

(** C22: Sending respects the windows the sender keeps: in every history, filling a packet never
    faults and ends; the chunks fit into the packet; the bytes in flight grow by at least the
    size of the chunks, and to the congestion window at most.  While anything is in flight they
    grow by at most [rwnd_]; so the first packet after a SACK, which sets [rwnd_] to what it
    announces less what is in flight, keeps within the window it announced.  That is all:
    [rwnd_] itself may wrap around, see [zero_window_wraps], and then bounds nothing.  When
    anything was sent the retransmission timer runs. *)
Theorem sends_within_window Q `{!SendQueue Q} `{!StreamResets Q} `{!SendQueueLaws Q} (r : RetransmissionQueue Q) now bytes :
  rtx_run r → 0 ≤ bytes < 2 ^ 31 →
  ∃ l r', GetChunksToSend now bytes r = Ret l r' ∧ sizes (rtx_header_size_ r) l ≤ unacked_bytes r' - unacked_bytes r ≤ bytes
    ∧ unacked_bytes r' ≤ Z.max (unacked_bytes r) (cwnd_ r)
    ∧ (unacked_bytes r ≠ 0 → unacked_bytes r' ≤ unacked_bytes r + rwnd_ r)
    ∧ (∀ a_rwnd, unacked_bytes r ≠ 0 → rwnd_ r = Z.max 0 (a_rwnd - unacked_bytes r) → unacked_bytes r' ≤ Z.max (unacked_bytes r) a_rwnd)
    ∧ (l ≠ [] → is_running_ (t3_rtx_ r') = true).
Proof.
  intros [Hw Hro _ _]%rtx_run_inv Hb. pose proof (GetChunksToSend_spec now bytes r Hw Hb Hro) as H. unfold wp in H.
  destruct (GetChunksToSend now bytes r) as [l r'| | |]; [|done..]. destruct H as (n & [_ Hf Hn Hu _ _ Hrun _]). exists l, r'.
  destruct (max_bytes_bounds r Hw) as (_ & H1 & H2). rewrite Hu. split; [done|]. split; [lia|]. split; [destruct (Z.eq_dec n 0); lia|].
  split; [intros Hne; specialize (H2 Hne); lia|]. split; [intros a_rwnd Hne Hr; specialize (H2 Hne); lia|done].
Qed.

(** C23: The sender does not stall: in every history the retransmission timer runs while the peer
    should still get a chunk, the congestion window holds at least one MTU, and when nothing
    is in flight a whole MTU may be sent, whatever window the peer announced. *)
Theorem sender_never_stalls Q `{!SendQueue Q} `{!StreamResets Q} `{!SendQueueLaws Q} (r : RetransmissionQueue Q) :
  rtx_run r → (awaits r → is_running_ (t3_rtx_ r) = true) ∧ rtx_mtu (rtx_options_ r) ≤ cwnd_ r
    ∧ (unacked_bytes r = 0 → rtx_mtu (rtx_options_ r) ≤ max_bytes_to_send r).
Proof.
  intros [Hw _ Ho Hf]%rtx_run_inv. split; [apply Hw|]. split; [done|]. intros E. unfold max_bytes_to_send. rewrite E. cbn.
  destruct Ho as [? _]. destruct (Z.leb_spec (cwnd_ r) 0); lia.
Qed.

(** C26: A SACK in any history is either dropped, because its cumulative TSN lies before the last
    one or beyond what was sent, and then nothing changes; or that TSN is the new cumulative
    one, the bookkeeping of the chunks stays consistent, the peer's window is what it
    announced less the bytes in flight, and the timer runs if chunks are outstanding. *)
Theorem sack_outcome Q `{!SendQueue Q} `{!StreamResets Q} `{!SendQueueLaws Q} (r : RetransmissionQueue Q) now sack :
  rtx_run r → to_be_fast_retransmitted_ (rtx_data_ r) = [] → sack_ok sack →
  let cum := sack_cum sack r in
  ∃ ok r', Rtx_HandleSack now sack r = Ret ok r' ∧ if ok : bool
    then last_cumulative_tsn_ack_ (rtx_data_ r) ≤ cum ≤ highest_outstanding_tsn (rtx_data_ r)
      ∧ last_cumulative_tsn_ack_ (rtx_data_ r') = cum ∧ IsConsistent (rtx_data_ r') = true
      ∧ rwnd_ r' = Z.max 0 (a_rwnd_ sack - unacked_bytes r')
      ∧ (od_empty (rtx_data_ r') = false → is_running_ (t3_rtx_ r') = true)
    else r' = r ∧ (cum < last_cumulative_tsn_ack_ (rtx_data_ r) ∨ highest_outstanding_tsn (rtx_data_ r) < cum).
Proof.
  intros [Hw Hro _ _]%rtx_run_inv Hf Hok cum. pose proof (Rtx_HandleSack_spec now sack r Hw Hro Hf Hok) as H. unfold wp in H.
  destruct (Rtx_HandleSack now sack r) as [ok r'| | |]; [|done..]. exists ok, r'. split; [done|]. destruct ok.
  - destruct H as [Hv [info Hs] _ (r1 & Hd & _ & _ & _ & _ & Hre)]. split; [exact Hv|]. split; [apply Hs|]. split; [apply od_wf_consistent, Hs|].
    split; [|rewrite <- Hd; apply Hre]. rewrite (re_rwnd _ _ _ Hre). unfold unacked_bytes. rewrite Hd.
    destruct (Z.leb_spec (a_rwnd_ sack) (unacked_bytes_ (rtx_data_ r'))); lia.
  - destruct H as [Hv ->]. split; [done|]. destruct (Z.lt_ge_cases cum (last_cumulative_tsn_ack_ (rtx_data_ r))); [by left|].
    destruct (Z.lt_ge_cases (highest_outstanding_tsn (rtx_data_ r)) cum); [by right|]. exfalso.
    assert (IsSackValid sack r = true) by (apply IsSackValid_spec; by split). congruence.
Qed.

(** ** A small queue *)

(** A send queue of [n] messages of three bytes. *)
Definition three_bytes : DataToSend := DataToSend_new 1 (mkData 1 0 0 0 53 [1; 2; 3] true true false).
#[local] Instance count_queue : SendQueue nat := {|
  queue_Produce _ max_size := λ n, match n with
    | O => Ret None O
    | S k => if 3 <=? max_size then Ret (Some three_bytes) k else Ret None n
    end;
  queue_Discard _ _ n := (false, n)
|}.
#[local] Instance count_resets : StreamResets nat := {|
  queue_PrepareResetStream _ n := n; queue_HasStreamsReadyToBeReset _ := false; queue_GetStreamsReadyToBeReset n := ([], n);
  queue_CommitResetStreams n := n; queue_RollbackResetStreams n := n
|}.
#[local] Instance count_laws : SendQueueLaws nat.
Proof.
  refine {| queue_ok _ := True |}; [|done]. intros now max_size [|n] _ Hmax; unfold wp; cbn; [done|].
  destruct (Z.leb_spec 3 max_size); (split; [done|]); [|done]. intros chunk [= <-]. change (0 < 3 ≤ max_size). lia.
Defined.

Definition sample_rtx (a_rwnd : Z) (n : nat) : RetransmissionQueue nat :=
  RetransmissionQueue_new 11 a_rwnd n (Timer_new 1 (mkTimerOptions 1000000 kExponential None PlusInfinity)) (mkRtxOptions 1200 10 4) true false.
Definition after_send (bytes : Z) (r : RetransmissionQueue nat) : RetransmissionQueue nat :=
  match GetChunksToSend 100 bytes r with Ret _ r' => r' | _ => r end.
Definition sample_sack : SackChunk := mkSack 11 5000 [mkGap 2 2] ∅.

Lemma sample_rtx_run a_rwnd n : uint 64 a_rwnd → rtx_run (sample_rtx a_rwnd n).
Proof. intros H. apply rtx_run_new; [done| |done]. unfold rtx_options_ok. cbn. lia. Qed.

Lemma after_send_run bytes r l r' : rtx_run r → 0 ≤ bytes < 2 ^ 31 → GetChunksToSend 100 bytes r = Ret l r' → room (rtx_data_ r') < 2 ^ 31 → rtx_run (after_send bytes r).
Proof. intros Hr Hb E Hro. unfold after_send. rewrite E. by eapply rtx_run_send. Qed.

Lemma sample_sent_run : rtx_run (after_send 1000 (sample_rtx 5000 3)).
Proof.
  eapply after_send_run; [by apply sample_rtx_run|lia|vm_compute; reflexivity|]. vm_compute. reflexivity.
Qed.

Lemma sends_within_window_witness : let r := after_send 1000 (sample_rtx 5000 3) in
  ∃ l r', GetChunksToSend 100 1000 r = Ret l r' ∧ sizes (rtx_header_size_ r) l ≤ unacked_bytes r' - unacked_bytes r ≤ 1000
    ∧ unacked_bytes r' ≤ Z.max (unacked_bytes r) (cwnd_ r)
    ∧ (unacked_bytes r ≠ 0 → unacked_bytes r' ≤ unacked_bytes r + rwnd_ r)
    ∧ (∀ a_rwnd, unacked_bytes r ≠ 0 → rwnd_ r = Z.max 0 (a_rwnd - unacked_bytes r) → unacked_bytes r' ≤ Z.max (unacked_bytes r) a_rwnd)
    ∧ (l ≠ [] → is_running_ (t3_rtx_ r') = true).
Proof. apply (sends_within_window nat (after_send 1000 (sample_rtx 5000 3)) 100 1000 sample_sent_run). lia. Defined.

Lemma sender_never_stalls_witness : let r := after_send 1000 (sample_rtx 5000 3) in
  (awaits r → is_running_ (t3_rtx_ r) = true) ∧ rtx_mtu (rtx_options_ r) ≤ cwnd_ r
    ∧ (unacked_bytes r = 0 → rtx_mtu (rtx_options_ r) ≤ max_bytes_to_send r).
Proof. apply (sender_never_stalls nat (after_send 1000 (sample_rtx 5000 3)) sample_sent_run). Defined.

Lemma sack_outcome_witness : let r := after_send 1000 (sample_rtx 5000 3) in let cum := sack_cum sample_sack r in
  ∃ ok r', Rtx_HandleSack 200 sample_sack r = Ret ok r' ∧ if ok : bool
    then last_cumulative_tsn_ack_ (rtx_data_ r) ≤ cum ≤ highest_outstanding_tsn (rtx_data_ r)
      ∧ last_cumulative_tsn_ack_ (rtx_data_ r') = cum ∧ IsConsistent (rtx_data_ r') = true
      ∧ rwnd_ r' = Z.max 0 (a_rwnd_ sample_sack - unacked_bytes r')
      ∧ (od_empty (rtx_data_ r') = false → is_running_ (t3_rtx_ r') = true)
    else r' = r ∧ (cum < last_cumulative_tsn_ack_ (rtx_data_ r) ∨ highest_outstanding_tsn (rtx_data_ r) < cum).
Proof.
  apply (sack_outcome nat (after_send 1000 (sample_rtx 5000 3)) 200 sample_sack sample_sent_run); [by vm_compute|].
  split; [by vm_compute|]. repeat constructor. cbn. lia.
Defined.

(** A peer whose window is zero is sent a full packet, as nothing is in flight; the window
    then wraps around to almost [2 ^ 64] and limits nothing any more. *)
Theorem zero_window_wraps :
  rwnd_ (sample_rtx 0 1000) = 0 ∧ rwnd_ (after_send 1000 (sample_rtx 0 1000)) = 2 ^ 64 - 1000
  ∧ sizes 16 (match GetChunksToSend 100 1000 (after_send 1000 (sample_rtx 0 1000)) with Ret l _ => l | _ => [] end) = 1000.
Proof. vm_compute. done. Qed.
