(* ===== verification/RRSendQueue.v ===== *)
(** * dcsctp::RRSendQueue and StreamScheduler (includes/webrtc/net/dcsctp/tx/rr_send_queue.h, .cc,
    stream_scheduler.h, .cc)

    The messages that wait to be sent, by stream; how they are cut into chunks; which stream
    sends next; pausing and resetting streams.  An [OutgoingStream] and its
    [StreamScheduler::Stream] are one record, and the pointers of the scheduler to its streams
    are stream numbers.  Virtual times are IEEE doubles ([spec_float] of 53 bits).  The calls
    to the socket's callbacks are the list [callbacks_], the latest first. *)

From Stdlib Require Import SpecFloat.
From S2P Require Import Prelude SctpTimer SctpWire Reassembly SendQueue.
Open Scope Z_scope.

(** ** Virtual time *)

Definition VirtualTime : Type := spec_float.
Definition vt (z : Z) : VirtualTime := binary_normalize 53 1024 z 0 false.
Definition vt_zero : VirtualTime := S754_zero false.
Definition vt_add : VirtualTime → VirtualTime → VirtualTime := SFadd 53 1024.
Definition vt_mul : VirtualTime → VirtualTime → VirtualTime := SFmul 53 1024.
(** The literal 0.000001. *)
Definition min_priority : VirtualTime := S754_finite false 4722366482869645 (-72).
Definition InverseWeight (priority : Z) : VirtualTime :=
  SFdiv 53 1024 (vt 1) (if SFltb (vt priority) min_priority then min_priority else vt priority).

(** ** Data *)

Inductive Callback :=
| OnBufferedAmountLow (stream_id : Z)
| OnTotalBufferedAmountLow
| OnLifecycleMessageExpired (lifecycle_id : Z) (maybe_delivered : bool)
| OnLifecycleEnd (lifecycle_id : Z).

Record ThresholdWatcher := mkWatcher { value_ : Z; low_threshold_ : Z }.
#[export] Instance ThresholdWatcher_eta : Eta ThresholdWatcher := λ w, mkWatcher (value_ w) (low_threshold_ w).

Definition Increase (bytes : Z) (w : ThresholdWatcher) : ThresholdWatcher := w <| value_ := wrap 64 (value_ w + bytes) |>.
(** Whether the callback is called, and the new state. *)
Definition Decrease (bytes : Z) (w : ThresholdWatcher) : bool * ThresholdWatcher :=
  let value := wrap 64 (value_ w - bytes) in
  ((low_threshold_ w <? value_ w) && (value <=? low_threshold_ w), w <| value_ := value |>).
Definition SetLowThreshold (low_threshold : Z) (w : ThresholdWatcher) : bool * ThresholdWatcher :=
  ((low_threshold_ w <? value_ w) && (value_ w <=? low_threshold), w <| low_threshold_ := low_threshold |>).

Record MessageAttributes := mkAttributes {
  attr_unordered : bool;
  attr_max_retransmissions : Z;
  attr_expires_at : Z;
  attr_lifecycle_id : Z
}.

(** An enqueued message, [OutgoingStream::Item]. *)
Record Message := mkQueued {
  message_id : Z;
  message : DcSctpMessage;
  attributes : MessageAttributes;
  remaining_offset : Z;
  remaining_size : Z;
  queued_mid : option Z;
  queued_ssn : option Z;
  current_fsn : Z
}.
#[export] Instance Message_eta : Eta Message := λ i,
  mkQueued (message_id i) (message i) (attributes i) (remaining_offset i) (remaining_size i) (queued_mid i) (queued_ssn i) (current_fsn i).
Definition message_size (m : DcSctpMessage) : Z := Z.of_nat (length (message_payload_ m)).
Definition Message_new (id : Z) (msg : DcSctpMessage) (attr : MessageAttributes) : Message :=
  mkQueued id msg attr 0 (message_size msg) None None 0.

Inductive PauseState := kNotPaused | kPending | kPaused | kResetting.
#[export] Instance PauseState_eq_dec : EqDecision PauseState.
Proof. solve_decision. Defined.

Record OutgoingStream := mkStream {
  pause_state_ : PauseState;
  next_unordered_mid_ : Z;
  next_ordered_mid_ : Z;
  next_ssn_ : Z;
  items_ : list Message;
  buffered_amount_ : ThresholdWatcher;
  priority_ : Z;
  inverse_weight_ : VirtualTime;
  current_virtual_time_ : VirtualTime;
  next_finish_time_ : VirtualTime
}.
#[export] Instance OutgoingStream_eta : Eta OutgoingStream := λ s,
  mkStream (pause_state_ s) (next_unordered_mid_ s) (next_ordered_mid_ s) (next_ssn_ s) (items_ s) (buffered_amount_ s)
    (priority_ s) (inverse_weight_ s) (current_virtual_time_ s) (next_finish_time_ s).

Definition OutgoingStream_new (priority : Z) : OutgoingStream :=
  mkStream kNotPaused 0 0 0 [] (mkWatcher 0 0) priority (InverseWeight priority) vt_zero vt_zero.

Record RRSendQueue := mkQueue {
  callbacks_ : list Callback;
  default_priority_ : Z;
  current_message_id : Z;
  total_buffered_amount_ : ThresholdWatcher;
  streams_ : cmap OutgoingStream;
  max_payload_bytes_ : Z;
  virtual_time_ : VirtualTime;
  current_stream_ : option Z;
  enable_message_interleaving_ : bool;
  currently_sending_a_message_ : bool;
  active_streams_ : list Z
}.
#[export] Instance RRSendQueue_eta : Eta RRSendQueue := λ q,
  mkQueue (callbacks_ q) (default_priority_ q) (current_message_id q) (total_buffered_amount_ q) (streams_ q)
    (max_payload_bytes_ q) (virtual_time_ q) (current_stream_ q) (enable_message_interleaving_ q)
    (currently_sending_a_message_ q) (active_streams_ q).

(** [SctpPacket::kHeaderSize] is 12 and [IDataChunk::kHeaderSize] 20. *)
Definition RRSendQueue_new (mtu default_priority total_buffered_amount_low_threshold : Z) : RRSendQueue :=
  mkQueue [] default_priority 0 (SetLowThreshold total_buffered_amount_low_threshold (mkWatcher 0 0)).2 []
    (wrap 64 (mtu - 12 - 20)) vt_zero None false false [].

(** ** The map of streams *)

Fixpoint map_put {A} (key : Z) (v : A) (m : cmap A) : cmap A :=
  match m with
  | [] => [(key, v)]
  | (k, w) :: m' => if key <? k then (key, v) :: m else if key =? k then (key, v) :: m' else (k, w) :: map_put key v m'
  end.
Definition stream_of (q : RRSendQueue) (sid : Z) : OutgoingStream :=
  default (OutgoingStream_new (default_priority_ q)) (map_find sid (streams_ q)).
Definition put_stream (sid : Z) (s : OutgoingStream) (q : RRSendQueue) : RRSendQueue := q <| streams_ ::= map_put sid s |>.
Definition GetOrCreateStreamInfo (sid : Z) (q : RRSendQueue) : RRSendQueue :=
  match map_find sid (streams_ q) with
  | Some _ => q
  | None => put_stream sid (OutgoingStream_new (default_priority_ q)) q
  end.

Definition call (c : Callback) (q : RRSendQueue) : RRSendQueue := q <| callbacks_ ::= cons c |>.

(** ** StreamScheduler *)

Definition bytes_to_send_in_next_message (s : OutgoingStream) : Z :=
  match pause_state_ s, items_ s with
  | kPaused, _ | kResetting, _ => 0
  | _, [] => 0
  | _, item :: _ => remaining_size item
  end.

Definition CalculateFinishTime (q : RRSendQueue) (s : OutgoingStream) (bytes : Z) : VirtualTime :=
  if enable_message_interleaving_ q
  then vt_add (current_virtual_time_ s) (vt_mul (vt bytes) (inverse_weight_ s))
  else vt_add (current_virtual_time_ s) (vt 1).

Definition ActiveStreamComparator (q : RRSendQueue) (a b : Z) : bool :=
  let a_vft := next_finish_time_ (stream_of q a) in
  let b_vft := next_finish_time_ (stream_of q b) in
  if SFeqb a_vft b_vft then a <? b else SFltb a_vft b_vft.

(** [flat_set::emplace]. *)
Fixpoint active_emplace (q : RRSendQueue) (sid : Z) (l : list Z) : list Z :=
  match l with
  | [] => [sid]
  | x :: l' =>
    if ActiveStreamComparator q x sid then x :: active_emplace q sid l'
    else if ActiveStreamComparator q sid x then sid :: l else l
  end.

Definition MakeActive (sid bytes_to_send_next : Z) (q : RRSendQueue) : RRSendQueue :=
  let s := stream_of q sid <| current_virtual_time_ := virtual_time_ q |> in
  let next_finish_time := CalculateFinishTime q s (Z.min bytes_to_send_next (max_payload_bytes_ q)) in
  let q := put_stream sid (s <| next_finish_time_ := next_finish_time |>) q in
  q <| active_streams_ ::= active_emplace q sid |>.
Definition MaybeMakeActive (sid : Z) (q : RRSendQueue) : RRSendQueue :=
  let bytes_to_send_next := bytes_to_send_in_next_message (stream_of q sid) in
  if bytes_to_send_next =? 0 then q else MakeActive sid bytes_to_send_next q.
Definition ForceMarkInactive (sid : Z) (q : RRSendQueue) : RRSendQueue :=
  put_stream sid (stream_of q sid <| next_finish_time_ := vt_zero |>) q.
Definition MakeInactive (sid : Z) (q : RRSendQueue) : RRSendQueue :=
  ForceMarkInactive sid q <| active_streams_ ::= filter (λ x, x ≠ sid) |>.
Definition ForceReschedule (q : RRSendQueue) : RRSendQueue := q <| currently_sending_a_message_ := false |>.
Definition SetPriority (priority : Z) (s : OutgoingStream) : OutgoingStream :=
  s <| priority_ := priority |> <| inverse_weight_ := InverseWeight priority |>.

(** ** OutgoingStream *)

(** [buffered_amount_.Decrease] of the stream and then of the whole queue. *)
Definition decrease_buffered (sid bytes : Z) (q : RRSendQueue) : RRSendQueue :=
  let s := stream_of q sid in
  let '(low, w) := Decrease bytes (buffered_amount_ s) in
  let q := put_stream sid (s <| buffered_amount_ := w |>) q in
  let q := if low then call (OnBufferedAmountLow sid) q else q in
  let '(low, w) := Decrease bytes (total_buffered_amount_ q) in
  let q := q <| total_buffered_amount_ := w |> in
  if low then call OnTotalBufferedAmountLow q else q.
Definition increase_buffered (sid bytes : Z) (q : RRSendQueue) : RRSendQueue :=
  put_stream sid (stream_of q sid <| buffered_amount_ ::= Increase bytes |>) q <| total_buffered_amount_ ::= Increase bytes |>.

Definition update_items (sid : Z) (f : list Message → list Message) (q : RRSendQueue) : RRSendQueue :=
  put_stream sid (stream_of q sid <| items_ ::= f |>) q.
Definition set_pause (sid : Z) (p : PauseState) (q : RRSendQueue) : RRSendQueue :=
  put_stream sid (stream_of q sid <| pause_state_ := p |>) q.

Definition HandleMessageExpired (sid : Z) (item : Message) (q : RRSendQueue) : RRSendQueue :=
  let q := decrease_buffered sid (remaining_size item) q in
  let id := attr_lifecycle_id (attributes item) in
  if IsSet id then call (OnLifecycleEnd id) (call (OnLifecycleMessageExpired id false) q) else q.

Definition Stream_Add (sid : Z) (msg : DcSctpMessage) (attr : MessageAttributes) (q : RRSendQueue) : RRSendQueue :=
  let was_active := 0 <? bytes_to_send_in_next_message (stream_of q sid) in
  let q := increase_buffered sid (message_size msg) q in
  let id := current_message_id q in
  let q := q <| current_message_id := wrap 32 (id + 1) |> in
  let q := update_items sid (λ items, items ++ [Message_new id msg attr]) q in
  if was_active then q else MaybeMakeActive sid q.

(** The numbers a message gets with its first fragment. *)
Definition allocate_numbers (item : Message) (s : OutgoingStream) : Message * OutgoingStream :=
  let unordered := attr_unordered (attributes item) in
  let '(item, s) := match queued_mid item with
    | Some _ => (item, s)
    | None =>
      if unordered
      then (item <| queued_mid := Some (next_unordered_mid_ s) |>, s <| next_unordered_mid_ := wrap 32 (next_unordered_mid_ s + 1) |>)
      else (item <| queued_mid := Some (next_ordered_mid_ s) |>, s <| next_ordered_mid_ := wrap 32 (next_ordered_mid_ s + 1) |>)
    end in
  match unordered, queued_ssn item with
  | false, None => (item <| queued_ssn := Some (next_ssn_ s) |>, s <| next_ssn_ := wrap 16 (next_ssn_ s + 1) |>)
  | _, _ => (item, s)
  end.

(** The part of [Produce] after the numbers: the next fragment and what is left of the message. *)
Definition next_fragment (max_size : Z) (item : Message) : DataToSend * option Message :=
  let payload := message_payload_ (message item) in
  let offset := remaining_offset item in
  let chunk_payload := take (Z.to_nat max_size) (drop (Z.to_nat offset) payload) in
  let size := Z.of_nat (length chunk_payload) in
  let is_beginning := offset =? 0 in
  let is_end := offset + size =? message_size (message item) in
  let attr := attributes item in
  let data := mkData (message_stream_id_ (message item)) (default 0 (queued_ssn item)) (default 0 (queued_mid item)) (current_fsn item)
    (message_ppid_ (message item)) chunk_payload is_beginning is_end (attr_unordered attr) in
  (mkToSend (message_id item) data (attr_max_retransmissions attr) (attr_expires_at attr)
     (if is_end then attr_lifecycle_id attr else NotSet),
   if is_end then None
   else Some (item <| current_fsn := wrap 32 (current_fsn item + 1) |> <| remaining_offset := offset + size |>
                   <| remaining_size := remaining_size item - size |>)).

Definition produce_front (sid max_size : Z) (item : Message) (q : RRSendQueue) : DataToSend * RRSendQueue :=
  let '(item, s) := allocate_numbers item (stream_of q sid) in
  let q := put_stream sid s q in
  let '(chunk, rest) := next_fragment max_size item in
  let q := decrease_buffered sid (data_size (to_send_data chunk)) q in
  match rest with
  | Some item' => (chunk, update_items sid (λ items, item' :: tail items) q)
  | None =>
    let q := update_items sid tail q in
    (chunk, if decide (pause_state_ (stream_of q sid) = kPending) then set_pause sid kPaused q else q)
  end.

(** Each round that does not return drops a message: one round per message is enough. *)
Fixpoint produce_loop (rounds : nat) (sid now max_size : Z) (q : RRSendQueue) : option DataToSend * RRSendQueue :=
  match rounds, items_ (stream_of q sid) with
  | S n, item :: _ =>
    if bool_decide (queued_mid item = None) && (attr_expires_at (attributes item) <=? now)
    then produce_loop n sid now max_size (update_items sid tail (HandleMessageExpired sid item q))
    else let '(chunk, q) := produce_front sid max_size item q in (Some chunk, q)
  | _, _ => (None, q)
  end.
Definition OutgoingStream_Produce (sid now max_size : Z) (q : RRSendQueue) : option DataToSend * RRSendQueue :=
  produce_loop (length (items_ (stream_of q sid))) sid now max_size q.

Definition Stream_Discard (sid id : Z) (q : RRSendQueue) : bool * RRSendQueue :=
  match items_ (stream_of q sid) with
  | item :: _ =>
    if message_id item =? id then
      let q := ForceReschedule (update_items sid tail (HandleMessageExpired sid item q)) in
      (true, if decide (pause_state_ (stream_of q sid) = kPending) then MakeInactive sid (set_pause sid kPaused q)
             else if bytes_to_send_in_next_message (stream_of q sid) =? 0 then MakeInactive sid q else q)
    else (false, q)
  | [] => (false, q)
  end.

(** The loop of [Pause]: messages that were not begun are dropped. *)
Fixpoint drop_unsent (sid : Z) (items : list Message) (q : RRSendQueue) : list Message * RRSendQueue :=
  match items with
  | [] => ([], q)
  | item :: rest =>
    if remaining_offset item =? 0 then drop_unsent sid rest (HandleMessageExpired sid item q)
    else let '(kept, q) := drop_unsent sid rest q in (item :: kept, q)
  end.
Definition Pause (sid : Z) (q : RRSendQueue) : RRSendQueue :=
  let s := stream_of q sid in
  if decide (pause_state_ s = kNotPaused) then
    let '(kept, q) := drop_unsent sid (items_ s) q in
    let q := update_items sid (λ _, kept) q in
    let p := match kept with [] => kPaused | item :: _ => if remaining_offset item =? 0 then kPaused else kPending end in
    let q := set_pause sid p q in
    if match items_ s with [] => false | _ => true end && bool_decide (p = kPaused) then MakeInactive sid q else q
  else q.
Definition Resume (sid : Z) (q : RRSendQueue) : RRSendQueue := MaybeMakeActive sid (set_pause sid kNotPaused q).

Definition Stream_Reset (sid : Z) (q : RRSendQueue) : RRSendQueue :=
  let old_pause_state := pause_state_ (stream_of q sid) in
  let q := put_stream sid (stream_of q sid <| pause_state_ := kNotPaused |> <| next_ordered_mid_ := 0 |>
    <| next_unordered_mid_ := 0 |> <| next_ssn_ := 0 |>) q in
  match items_ (stream_of q sid) with
  | [] => q
  | item :: rest =>
    let q := increase_buffered sid (message_size (message item) - remaining_size item) q in
    let q := update_items sid (λ _, Message_new (message_id item) (message item) (attributes item) :: rest) q in
    match old_pause_state with kPaused | kResetting => MaybeMakeActive sid q | _ => q end
  end.

(** ** RRSendQueue *)

Record SendOptions := mkSendOptions {
  opt_unordered : bool;
  opt_lifetime : option Z;
  opt_max_retransmissions : option Z;
  opt_lifecycle_id : Z
}.

(** [DurationMs::ToTimeDelta] and the sum of a time and a delta, either of which may be infinite. *)
Definition ToTimeDelta (ms : Z) : Z := if ms =? 2 ^ 31 - 1 then PlusInfinity else ms * 1000.
Definition plus_time (t delta : Z) : Z := if (t =? PlusInfinity) || (delta =? PlusInfinity) then PlusInfinity else t + delta.

Definition send_attributes (now : Z) (o : SendOptions) : MessageAttributes :=
  mkAttributes (opt_unordered o)
    (match opt_max_retransmissions o with Some n => wrap 16 n | None => NoLimit end)
    (match opt_lifetime o with Some ms => plus_time (plus_time now (ToTimeDelta ms)) 1000 | None => PlusInfinity end)
    (opt_lifecycle_id o).

Definition Queue_Add (now : Z) (msg : DcSctpMessage) (o : SendOptions) (q : RRSendQueue) : RRSendQueue :=
  let sid := message_stream_id_ msg in
  Stream_Add sid msg (send_attributes now o) (GetOrCreateStreamInfo sid q).

Definition IsEmpty (q : RRSendQueue) : bool := value_ (total_buffered_amount_ q) =? 0.

Definition Stream_Produce (sid now max_size : Z) (q : RRSendQueue) : option DataToSend * RRSendQueue :=
  let '(data, q) := OutgoingStream_Produce sid now max_size q in
  (data, match data with
    | Some chunk =>
      let s := stream_of q sid in
      put_stream sid (s <| current_virtual_time_ := CalculateFinishTime q s (data_size (to_send_data chunk)) |>) q
    | None => q
    end).

(** The loop of [StreamScheduler::Produce].  A round without data drops an active stream; in
    the middle of a message it would not, and the loop not end ([NoProgress]), which
    [Queue_Produce_spec] excludes. *)
Fixpoint schedule_loop (rounds : nat) (rescheduling : bool) (now max_size : Z) : M RRSendQueue (option DataToSend) :=
  match rounds with
  | O => let! active := gets active_streams_ in match active with [] => ret None | _ => undef NoProgress end
  | S n =>
    let! active := gets active_streams_ in
    match active with
    | [] => ret None
    | first :: rest =>
      when rescheduling (modify (λ q, ForceMarkInactive first (q <| current_stream_ := Some first |> <| active_streams_ := rest |>))) ;;
      let! current := gets current_stream_ in
      let! sid := deref current in
      let! q := get in
      let '(data, q) := Stream_Produce sid now max_size q in
      modify (λ _, q) ;;
      match data with Some _ => ret data | None => schedule_loop n rescheduling now max_size end
    end
  end.

Definition after_produce (rescheduling : bool) (sid : Z) (chunk : DataToSend) (q : RRSendQueue) : RRSendQueue :=
  let q := q <| currently_sending_a_message_ := negb (is_end (to_send_data chunk)) |>
             <| virtual_time_ := current_virtual_time_ (stream_of q sid) |> in
  let bytes_to_send_next := bytes_to_send_in_next_message (stream_of q sid) in
  if rescheduling && (0 <? bytes_to_send_next) then MakeActive sid bytes_to_send_next q
  else if negb rescheduling && (bytes_to_send_next =? 0) then MakeInactive sid q
  else q.

Definition Queue_Produce (now max_size : Z) : M RRSendQueue (option DataToSend) :=
  let! q := get in
  let rescheduling := enable_message_interleaving_ q || negb (currently_sending_a_message_ q) in
  let! data := schedule_loop (length (active_streams_ q)) rescheduling now max_size in
  match data with
  | None => ret None
  | Some chunk =>
    let! current := gets current_stream_ in
    let! sid := deref current in
    modify (after_produce rescheduling sid chunk) ;;
    ret (Some chunk)
  end.

Definition Queue_Discard (sid id : Z) (q : RRSendQueue) : bool * RRSendQueue := Stream_Discard sid id (GetOrCreateStreamInfo sid q).
Definition PrepareResetStream (sid : Z) (q : RRSendQueue) : RRSendQueue := Pause sid (GetOrCreateStreamInfo sid q).

Definition IsReadyToBeReset (s : OutgoingStream) : bool := bool_decide (pause_state_ s = kPaused).
Definition IsResetting (s : OutgoingStream) : bool := bool_decide (pause_state_ s = kResetting).
Definition stream_ids (P : OutgoingStream → bool) (q : RRSendQueue) : list Z :=
  map fst (filter (λ p, P p.2 = true) (streams_ q : list (Z * OutgoingStream))).

Definition HasStreamsReadyToBeReset (q : RRSendQueue) : bool := match stream_ids IsReadyToBeReset q with [] => false | _ => true end.
Definition GetStreamsReadyToBeReset (q : RRSendQueue) : list Z * RRSendQueue :=
  let ready := stream_ids IsReadyToBeReset q in
  (ready, foldl (λ q sid, set_pause sid kResetting q) q ready).
Definition CommitResetStreams (q : RRSendQueue) : RRSendQueue := foldl (λ q sid, Stream_Reset sid q) q (stream_ids IsResetting q).
Definition RollbackResetStreams (q : RRSendQueue) : RRSendQueue := foldl (λ q sid, Resume sid q) q (stream_ids IsResetting q).
Definition Queue_Reset (q : RRSendQueue) : RRSendQueue :=
  ForceReschedule (foldl (λ q sid, Stream_Reset sid q) q (stream_ids (λ _, true) q)).

Definition buffered_amount (sid : Z) (q : RRSendQueue) : Z :=
  match map_find sid (streams_ q) with Some s => value_ (buffered_amount_ s) | None => 0 end.
Definition buffered_amount_low_threshold (sid : Z) (q : RRSendQueue) : Z :=
  match map_find sid (streams_ q) with Some s => low_threshold_ (buffered_amount_ s) | None => 0 end.
Definition SetBufferedAmountLowThreshold (sid bytes : Z) (q : RRSendQueue) : RRSendQueue :=
  let q := GetOrCreateStreamInfo sid q in
  let s := stream_of q sid in
  let '(low, w) := SetLowThreshold bytes (buffered_amount_ s) in
  let q := put_stream sid (s <| buffered_amount_ := w |>) q in
  if low then call (OnBufferedAmountLow sid) q else q.
Definition EnableMessageInterleaving (enabled : bool) (q : RRSendQueue) : RRSendQueue := q <| enable_message_interleaving_ := enabled |>.
Definition SetStreamPriority (sid priority : Z) (q : RRSendQueue) : RRSendQueue :=
  let q := GetOrCreateStreamInfo sid q in put_stream sid (SetPriority priority (stream_of q sid)) q.
Definition GetStreamPriority (sid : Z) (q : RRSendQueue) : Z :=
  match map_find sid (streams_ q) with Some s => priority_ s | None => default_priority_ q end.

(** The checks of the debug build. *)
Definition Stream_IsConsistent (s : OutgoingStream) : bool :=
  fold_right (λ item bytes, wrap 64 (remaining_size item + bytes)) 0 (items_ s) =? value_ (buffered_amount_ s).
Definition Queue_IsConsistent (q : RRSendQueue) : bool :=
  bool_decide (stream_ids (λ s, 0 <? bytes_to_send_in_next_message s) q = merge_sort Z.le (active_streams_ q)) &&
  (fold_right (λ p bytes, wrap 64 (value_ (buffered_amount_ p.2) + bytes)) 0 (streams_ q) =? value_ (total_buffered_amount_ q)).

(** Handover: the numbers of the streams. *)
Record TxStream := mkTxStream { tx_id : Z; tx_next_ssn : Z; tx_next_unordered_mid : Z; tx_next_ordered_mid : Z; tx_priority : Z }.
Definition kSendQueueNotEmpty : Z := 2.
Definition Queue_GetHandoverReadiness (q : RRSendQueue) : Z := if IsEmpty q then 0 else kSendQueueNotEmpty.
Definition Queue_AddHandoverState (q : RRSendQueue) : list TxStream :=
  (λ p, mkTxStream p.1 (next_ssn_ p.2) (next_unordered_mid_ p.2) (next_ordered_mid_ p.2) (priority_ p.2)) <$> (streams_ q : list (Z * OutgoingStream)).
Definition Queue_RestoreFromState (state : list TxStream) (q : RRSendQueue) : RRSendQueue :=
  foldl (λ q t, match map_find (wrap 16 (tx_id t)) (streams_ q) with
    | Some _ => q
    | None => put_stream (wrap 16 (tx_id t)) (OutgoingStream_new (tx_priority t) <| next_unordered_mid_ := tx_next_unordered_mid t |>
        <| next_ordered_mid_ := tx_next_ordered_mid t |> <| next_ssn_ := wrap 16 (tx_next_ssn t) |>) q
    end) q state.

#[export] Instance RRSendQueue_SendQueue : SendQueue RRSendQueue := {| queue_Produce := Queue_Produce; queue_Discard := Queue_Discard |}.
#[export] Instance RRSendQueue_StreamResets : StreamResets RRSendQueue := {|
  queue_PrepareResetStream := PrepareResetStream;
  queue_HasStreamsReadyToBeReset := HasStreamsReadyToBeReset;
  queue_GetStreamsReadyToBeReset := GetStreamsReadyToBeReset;
  queue_CommitResetStreams := CommitResetStreams;
  queue_RollbackResetStreams := RollbackResetStreams
|}.

(** ** Maps of streams *)

Abbreviation ascending := (StronglySorted Z.lt).

Lemma map_find_put {A} key k (v : A) m : map_find key (map_put k v m) = if key =? k then Some v else map_find key m.
Proof.
  induction m as [|[k' w] m IH]; cbn [map_put map_find]; [by rewrite (Z.eqb_sym k key)|].
  destruct (Z.ltb_spec k k') as [?|?]; cbn [map_find]; [by rewrite (Z.eqb_sym k key)|].
  destruct (Z.eqb_spec k k') as [->|]; cbn [map_find]; [rewrite (Z.eqb_sym k' key); by destruct (key =? k')|].
  rewrite IH. destruct (Z.eqb_spec k' key) as [->|], (Z.eqb_spec key k) as [->|]; done.
Qed.

Lemma map_find_elem {A} key (v : A) m : map_find key m = Some v → (key, v) ∈ (m : list (Z * A)).
Proof.
  induction m as [|[k w] m IH]; cbn [map_find]; [done|]. destruct (Z.eqb_spec k key) as [->|]; [intros [= ->]; left | right; auto].
Qed.

Lemma elem_map_find {A} key (v : A) m : ascending (map fst m) → (key, v) ∈ (m : list (Z * A)) → map_find key m = Some v.
Proof.
  induction m as [|[k w] m IH]; cbn [map fst map_find]; [by intros _ ?%elem_of_nil|]. intros Hs. inversion Hs as [|? ? Hs' Hall]; subst.
  intros [[= -> ->]|H]%elem_of_cons; [by rewrite Z.eqb_refl|]. destruct (Z.eqb_spec k key) as [->|]; [|auto].
  eapply Forall_forall in Hall; [|apply list_elem_of_fmap_2; exact H]. cbn in Hall. lia.
Qed.

Lemma map_put_above {A} b key (v : A) m : b < key → Forall (Z.lt b) (map fst m) → Forall (Z.lt b) (map fst (map_put key v m)).
Proof.
  intros Hb. induction m as [|[k w] m IH]; cbn [map_put map fst]; [by repeat constructor|]. intros [? ?]%list.Forall_cons.
  destruct (key <? k); [by repeat constructor|]. destruct (key =? k); cbn [map fst]; constructor; auto.
Qed.

Lemma map_put_ascending {A} key (v : A) m : ascending (map fst m) → ascending (map fst (map_put key v m)).
Proof.
  induction m as [|[k w] m IH]; cbn [map_put map fst]; [by repeat constructor|]. intros Hs. inversion Hs as [|? ? Hs' Hall]; subst.
  destruct (Z.ltb_spec key k); [constructor; [done|]; constructor; [done|]; eapply Forall_impl; [exact Hall|]; cbn; lia|].
  destruct (Z.eqb_spec key k) as [->|]; cbn [map fst]; constructor; auto. apply map_put_above; [lia|done].
Qed.

Lemma map_find_absent {A} key (m : cmap A) : Forall (Z.lt key) (map fst m) → map_find key m = None.
Proof.
  induction m as [|[k v] m IH]; cbn; [done|]. intros [? ?]%list.Forall_cons. rewrite (proj2 (Z.eqb_neq _ _)) by lia. by apply IH.
Qed.

Lemma map_put_same {A} key (v : A) m : ascending (map fst m) → map_find key m = Some v → map_put key v m = m.
Proof.
  induction m as [|[k w] m IH]; cbn [map_put map fst map_find]; [done|]. intros Hs. inversion Hs as [|? ? Hs' Hall]; subst.
  destruct (Z.eqb_spec k key) as [->|]; [intros [= ->]; by rewrite Z.ltb_irrefl, Z.eqb_refl|]. intros Hf.
  destruct (Z.ltb_spec key k); [rewrite map_find_absent in Hf; [done|]; eapply Forall_impl; [exact Hall|]; cbn; lia|].
  rewrite (proj2 (Z.eqb_neq _ _)) by lia. f_equal. by apply IH.
Qed.

Lemma map_put_put {A} key (v w : A) m : map_put key v (map_put key w m) = map_put key v m.
Proof.
  induction m as [|[k u] m IH]; cbn [map_put]; [by rewrite Z.ltb_irrefl, Z.eqb_refl|].
  destruct (Z.ltb_spec key k); cbn [map_put]; [by rewrite Z.ltb_irrefl, Z.eqb_refl|].
  destruct (Z.eqb_spec key k) as [->|]; cbn [map_put]; [by rewrite Z.ltb_irrefl, Z.eqb_refl|].
  rewrite (proj2 (Z.ltb_ge _ _)), (proj2 (Z.eqb_neq _ _)) by lia. by rewrite IH.
Qed.

(** Sums over the entries. *)
Fixpoint entries_sum {A} (f : A → Z) (m : cmap A) : Z := match m with [] => 0 | (_, v) :: m' => f v + entries_sum f m' end.

Lemma entries_sum_put {A} (f : A → Z) key v m : ascending (map fst m) →
  entries_sum f (map_put key v m) = entries_sum f m - match map_find key m with Some w => f w | None => 0 end + f v.
Proof.
  induction m as [|[k w] m IH]; cbn [map_put map fst map_find entries_sum]; [intros _; lia|]. intros Hs. inversion Hs as [|? ? Hs' Hall]; subst.
  destruct (Z.ltb_spec key k); cbn [entries_sum].
  { rewrite (proj2 (Z.eqb_neq _ _)) by lia. rewrite map_find_absent; [lia|]. eapply Forall_impl; [exact Hall|]. cbn. lia. }
  rewrite (Z.eqb_sym k key). destruct (Z.eqb_spec key k) as [->|]; cbn [entries_sum]; [lia|]. rewrite IH by done. lia.
Qed.

(** ** Times that can be compared *)

Definition vt_ok (x : VirtualTime) : bool :=
  match x with S754_zero false | S754_infinity false | S754_finite false _ _ => true | _ => false end.

Lemma shr_1_nonneg mrs : 0 ≤ shr_m mrs → 0 ≤ shr_m (shr_1 mrs).
Proof. destruct mrs as [[|[p|p|]|p] r t]; cbn; lia. Qed.

Lemma iter_shr_nonneg p mrs : 0 ≤ shr_m mrs → 0 ≤ shr_m (SpecFloat.iter_pos shr_1 p mrs).
Proof. revert mrs. induction p as [p IH|p IH|]; intros mrs H; cbn; auto using shr_1_nonneg. Qed.

Lemma shr_fexp_nonneg m e l : 0 ≤ m → 0 ≤ shr_m (shr_fexp 53 1024 m e l).1.
Proof.
  intros Hm. unfold shr_fexp, shr. assert (0 ≤ shr_m (shr_record_of_loc m l)) by (by destruct l as [|[]]).
  destruct (_ - _); cbn [fst]; auto using iter_shr_nonneg.
Qed.

Lemma round_nonneg m l : 0 ≤ m → 0 ≤ round_nearest_even m l.
Proof. intros. unfold round_nearest_even. destruct l as [|[]]; try lia. destruct (Z.even m); lia. Qed.

Lemma binary_round_aux_ok m e l : 0 ≤ m → vt_ok (binary_round_aux 53 1024 false m e l) = true.
Proof.
  intros Hm. unfold binary_round_aux. pose proof (shr_fexp_nonneg m e l Hm) as H1. destruct (shr_fexp 53 1024 m e l) as [mrs e1]. cbn [fst] in H1.
  pose proof (shr_fexp_nonneg _ e1 loc_Exact (round_nonneg _ (loc_of_shr_record mrs) H1)) as H2.
  destruct (shr_fexp 53 1024 (round_nearest_even _ _) e1 loc_Exact) as [mrs' e2]. cbn [fst] in H2.
  destruct (shr_m mrs'); [done|by destruct (_ <=? _)|lia].
Qed.

Lemma vt_add_ok x y : vt_ok x = true → vt_ok y = true → vt_ok (vt_add x y) = true.
Proof.
  destruct x as [[]|[]| |[] mx ex]; try done; destruct y as [[]|[]| |[] my ey]; try done.
  intros _ _. unfold vt_add, SFadd. cbn [cond_Zopp]. rewrite <- Pos2Z.inj_add. cbn [binary_normalize].
  set (m := (_ + _)%positive). unfold binary_round. destruct (shl_align m _ _). by apply binary_round_aux_ok.
Qed.

Lemma SFcompare_swap x y : vt_ok x = true → vt_ok y = true → ∃ c, SFcompare x y = Some c ∧ SFcompare y x = Some (CompOpp c).
Proof.
  destruct x as [[]|[]| |[] mx ex]; try done; destruct y as [[]|[]| |[] my ey]; try done; intros _ _; cbn; eauto.
  eexists. split; [done|]. rewrite (Z.compare_antisym ex ey). destruct (ex ?= ey); cbn; try done.
  fold (Pos.compare mx my). fold (Pos.compare my mx). by rewrite Pos.compare_antisym.
Qed.

(** ** The invariant

    Messages are not interleaved, as is the default of [DcSctpOptions]. *)

Definition pending (s : OutgoingStream) : Z := fold_right (λ item n, remaining_size item + n) 0 (items_ s).

(** A message that was not begun. *)
Definition fresh_message (i : Message) : Prop := i = Message_new (message_id i) (message i) (attributes i).
Record message_wf (sid : Z) (i : Message) : Prop := mkMessageWf {
  mw_stream : message_stream_id_ (message i) = sid;
  mw_offset : 0 ≤ remaining_offset i;
  mw_size : 0 < remaining_size i;
  mw_split : remaining_offset i + remaining_size i = message_size (message i);
  mw_begun : queued_mid i = None ↔ remaining_offset i = 0
}.

(** Only the first message of a stream may have been begun, and not when it is paused. *)
Record stream_wf (sid : Z) (s : OutgoingStream) : Prop := mkStreamWf {
  sw_messages : Forall (message_wf sid) (items_ s);
  sw_head : ∀ i, head (items_ s) = Some i → queued_mid i = None → fresh_message i;
  sw_tail : Forall fresh_message (tail (items_ s));
  sw_buffered : value_ (buffered_amount_ s) = wrap 64 (pending s);
  sw_paused : pause_state_ s = kPaused ∨ pause_state_ s = kResetting → ∀ i, head (items_ s) = Some i → queued_mid i = None;
  sw_pending : pause_state_ s = kPending → ∃ i, head (items_ s) = Some i ∧ queued_mid i ≠ None;
  sw_current : vt_ok (current_virtual_time_ s) = true;
  sw_finish : vt_ok (next_finish_time_ s) = true
}.

Definition sending (q : RRSendQueue) : Prop := ∃ sid s i,
  current_stream_ q = Some sid ∧ map_find sid (streams_ q) = Some s ∧ head (items_ s) = Some i ∧ queued_mid i ≠ None.

(** The schedule is right about the streams of which [P] holds. *)
Record queue_inv (P : Z → Prop) (q : RRSendQueue) : Prop := mkQueueInv {
  qw_keys : ascending (map fst (streams_ q));
  qw_streams : ∀ sid s, map_find sid (streams_ q) = Some s → stream_wf sid s;
  qw_total : value_ (total_buffered_amount_ q) = wrap 64 (entries_sum pending (streams_ q));
  qw_unique : NoDup (active_streams_ q);
  qw_active : ∀ sid, P sid → sid ∈ active_streams_ q ↔ ∃ s, map_find sid (streams_ q) = Some s ∧ 0 < bytes_to_send_in_next_message s;
  qw_sending : currently_sending_a_message_ q = true → sending q;
  qw_time : vt_ok (virtual_time_ q) = true;
  qw_whole : enable_message_interleaving_ q = false
}.
Definition queue_wf : RRSendQueue → Prop := queue_inv (λ _, True).
Definition queue_wf_but (sid : Z) : RRSendQueue → Prop := queue_inv (λ x, x ≠ sid).

(** [q'] differs from [q] in the stream [sid], which is [s], by [delta] in the total, and in
    what is not scheduling. *)
Record focus (q : RRSendQueue) (sid : Z) (s : OutgoingStream) (delta : Z) (q' : RRSendQueue) : Prop := mkFocus {
  fo_streams : streams_ q' = map_put sid s (streams_ q);
  fo_total : value_ (total_buffered_amount_ q') = wrap 64 (value_ (total_buffered_amount_ q) + delta);
  fo_default : default_priority_ q' = default_priority_ q;
  fo_payload : max_payload_bytes_ q' = max_payload_bytes_ q;
  fo_time : virtual_time_ q' = virtual_time_ q;
  fo_current : current_stream_ q' = current_stream_ q;
  fo_interleaving : enable_message_interleaving_ q' = enable_message_interleaving_ q;
  fo_sending : currently_sending_a_message_ q' = currently_sending_a_message_ q;
  fo_active : active_streams_ q' = active_streams_ q
}.

Lemma focus_refl P q sid s : queue_inv P q → map_find sid (streams_ q) = Some s → focus q sid s 0 q.
Proof.
  intros Hq Hf. split; try done; [by rewrite map_put_same by (done || apply Hq)|].
  rewrite (qw_total P q Hq), Z.add_0_r. by rewrite wrap_wrap.
Qed.

Section Focus.
Context {q q1 : RRSendQueue} {sid : Z} {s : OutgoingStream} {delta : Z}.
Hypothesis Hfocus : focus q sid s delta q1.

Lemma focus_stream : stream_of q1 sid = s.
Proof using Hfocus. unfold stream_of. by rewrite (fo_streams _ _ _ _ _ Hfocus), map_find_put, Z.eqb_refl. Qed.

Lemma focus_found : map_find sid (streams_ q1) = Some s.
Proof using Hfocus. by rewrite (fo_streams _ _ _ _ _ Hfocus), map_find_put, Z.eqb_refl. Qed.

Lemma focus_put s' : focus q sid s' delta (put_stream sid s' q1).
Proof using Hfocus. destruct Hfocus as [E ? ? ? ? ? ? ? ?]. split; try done. cbn. by rewrite E, map_put_put. Qed.

Lemma focus_call c : focus q sid s delta (call c q1).
Proof using Hfocus. destruct Hfocus. by split. Qed.

Lemma focus_ext delta' : delta = delta' → focus q sid s delta' q1.
Proof using Hfocus. by intros <-. Qed.
End Focus.

Lemma focus_decrease q q1 sid s delta bytes : focus q sid s delta q1 →
  focus q sid (s <| buffered_amount_ := (Decrease bytes (buffered_amount_ s)).2 |>) (delta - bytes) (decrease_buffered sid bytes q1).
Proof.
  intros H. unfold decrease_buffered. rewrite (focus_stream H). destruct (Decrease bytes (buffered_amount_ s)) as [low w]. cbn [snd].
  set (q2 := if low then _ else _). assert (focus q sid (s <| buffered_amount_ := w |>) delta q2) as [] by
    (unfold q2; destruct low; [apply focus_call|]; by eapply focus_put).
  destruct (Decrease bytes (total_buffered_amount_ q2)) as [low' w'] eqn:E. unfold Decrease in E. injection E as _ <-.
  assert (focus q sid (s <| buffered_amount_ := w |>) (delta - bytes)
    (q2 <| total_buffered_amount_ := total_buffered_amount_ q2 <| value_ := wrap 64 (value_ (total_buffered_amount_ q2) - bytes) |> |>)) as H'.
  { split; try done. cbn. rewrite fo_total0. replace (wrap 64 _ - bytes) with (wrap 64 (value_ (total_buffered_amount_ q) + delta) + (- bytes)) by lia.
    rewrite wrap_plus by done. f_equal. lia. }
  destruct low'; [by apply focus_call | done].
Qed.

Lemma focus_increase q q1 sid s delta bytes : focus q sid s delta q1 →
  focus q sid (s <| buffered_amount_ ::= Increase bytes |>) (delta + bytes) (increase_buffered sid bytes q1).
Proof.
  intros H. unfold increase_buffered. rewrite (focus_stream H). destruct (focus_put H (s <| buffered_amount_ ::= Increase bytes |>)).
  split; try done. cbn in *. rewrite fo_total0, wrap_plus by done. f_equal. lia.
Qed.

Lemma focus_items q q1 sid s delta f : focus q sid s delta q1 → focus q sid (s <| items_ ::= f |>) delta (update_items sid f q1).
Proof. intros H. unfold update_items. rewrite (focus_stream H). by eapply focus_put. Qed.

Lemma focus_pause q q1 sid s delta p : focus q sid s delta q1 → focus q sid (s <| pause_state_ := p |>) delta (set_pause sid p q1).
Proof. intros H. unfold set_pause. rewrite (focus_stream H). by eapply focus_put. Qed.

Lemma focus_expired q q1 sid s delta item : focus q sid s delta q1 →
  focus q sid (s <| buffered_amount_ := (Decrease (remaining_size item) (buffered_amount_ s)).2 |>) (delta - remaining_size item)
    (HandleMessageExpired sid item q1).
Proof.
  intros H. unfold HandleMessageExpired. apply (focus_decrease q q1 sid s delta (remaining_size item)) in H.
  destruct (IsSet _); [by do 2 apply focus_call | done].
Qed.

(** ** Updating the invariant *)

(** Of the queue [q'] that is [q] with the stream [sid] replaced, all but its place in the
    schedule. *)
Lemma focus_but P q sid s0 s delta q' :
  queue_inv P q → (∀ x, x ≠ sid → P x) → map_find sid (streams_ q) = Some s0 → focus q sid s delta q' → stream_wf sid s →
  delta = pending s - pending s0 →
  (currently_sending_a_message_ q = true →
    ∀ i0, head (items_ s0) = Some i0 → queued_mid i0 ≠ None → ∃ i, head (items_ s) = Some i ∧ queued_mid i ≠ None) → queue_wf_but sid q'.
Proof.
  intros [Hk Hs Ht Hu Ha Hsd Hti Hwh] HP Hf [Hst Htot _ _ Htime Hcu Hin Hse Hac] Hw -> Hi. split.
  - rewrite Hst. by apply map_put_ascending.
  - intros x t. rewrite Hst, map_find_put. destruct (Z.eqb_spec x sid) as [->|]; [by intros [= <-] | apply Hs].
  - rewrite Htot, Ht, Hst, entries_sum_put, Hf by done. rewrite wrap_plus by done. f_equal. lia.
  - by rewrite Hac.
  - intros x Hx. rewrite Hac, Hst, (Ha x) by auto. setoid_rewrite map_find_put. by rewrite (proj2 (Z.eqb_neq _ _)).
  - rewrite Hse. intros Hflag. destruct (Hsd Hflag) as (x & t & i & Hx & Htx & Hh & Hm). unfold sending. rewrite Hcu, Hst.
    destruct (Z.eq_dec x sid) as [->|Hne].
    + rewrite Hf in Htx. injection Htx as <-. destruct (Hi Hflag i Hh Hm) as (i' & ? & ?). exists sid, s, i'. rewrite map_find_put, Z.eqb_refl. done.
    + exists x, t, i. rewrite map_find_put, (proj2 (Z.eqb_neq _ _)) by done. done.
  - by rewrite Htime.
  - by rewrite Hin.
Qed.

Lemma but_wf sid s q : queue_wf_but sid q → map_find sid (streams_ q) = Some s →
  (sid ∈ active_streams_ q ↔ 0 < bytes_to_send_in_next_message s) → queue_wf q.
Proof.
  intros [Hk Hs Ht Hu Ha Hse Hti Hwh] Hf Hb. split; try done. intros x _. destruct (Z.eq_dec x sid) as [->|]; [|by apply Ha].
  rewrite Hb, Hf. split; [by eexists | by intros (? & [= <-] & ?)].
Qed.

(** The stream keeps its place in the schedule. *)
Lemma focus_wf q sid s0 s delta q' :
  queue_wf q → map_find sid (streams_ q) = Some s0 → focus q sid s delta q' → stream_wf sid s → delta = pending s - pending s0 →
  (0 < bytes_to_send_in_next_message s ↔ 0 < bytes_to_send_in_next_message s0) →
  (∀ i0, head (items_ s0) = Some i0 → queued_mid i0 ≠ None → ∃ i, head (items_ s) = Some i ∧ queued_mid i ≠ None) → queue_wf q'.
Proof.
  intros Hq Hf Hfo Hw Hd Hb Hi. apply (but_wf sid s); [by eapply (focus_but (λ _, True) q sid s0); eauto|by eapply focus_found|].
  rewrite (fo_active _ _ _ _ _ Hfo), (qw_active _ q Hq), Hb, Hf by done. split; [by intros (? & [= <-] & ?) | by eexists].
Qed.

(** ** Scheduling *)

Lemma active_emplace_perm q sid l : (∀ x, vt_ok (next_finish_time_ (stream_of q x)) = true) → sid ∉ l → active_emplace q sid l ≡ₚ sid :: l.
Proof.
  intros Hv. induction l as [|x l IH]; intros Hn; [done|]. rewrite elem_of_cons in Hn. cbn [active_emplace].
  destruct (ActiveStreamComparator q x sid) eqn:E; [rewrite IH by tauto; apply Permutation_swap|].
  destruct (ActiveStreamComparator q sid x) eqn:E'; [done|]. exfalso. unfold ActiveStreamComparator, SFeqb, SFltb in *.
  destruct (SFcompare_swap _ _ (Hv x) (Hv sid)) as (c & Ec & Ec'). rewrite Ec, Ec' in *.
  destruct c; cbn in *; try done. apply Z.ltb_ge in E, E'. apply Hn. left. lia.
Qed.

Lemma stream_of_ok P q x : queue_inv P q → vt_ok (next_finish_time_ (stream_of q x)) = true ∧ vt_ok (current_virtual_time_ (stream_of q x)) = true.
Proof.
  intros Hq. unfold stream_of. destruct (map_find x (streams_ q)) as [s|] eqn:E; [|done]. destruct (qw_streams _ q Hq x s E). done.
Qed.

(** A stream whose times change. *)
Lemma stream_wf_times sid s c n : stream_wf sid s → vt_ok c = true → vt_ok n = true →
  stream_wf sid (s <| current_virtual_time_ := c |> <| next_finish_time_ := n |>).
Proof. intros [] Hc Hn. by split. Qed.

Lemma times_focus P q sid s c n : queue_inv P q → map_find sid (streams_ q) = Some s →
  focus q sid (s <| current_virtual_time_ := c |> <| next_finish_time_ := n |>) 0
    (put_stream sid (s <| current_virtual_time_ := c |> <| next_finish_time_ := n |>) q).
Proof. intros Hq Hf. eapply focus_put. by eapply (focus_refl P). Qed.

Lemma MakeActive_wf sid s bytes q : queue_wf_but sid q → map_find sid (streams_ q) = Some s → sid ∉ active_streams_ q →
  0 < bytes_to_send_in_next_message s → queue_wf (MakeActive sid bytes q).
Proof.
  intros Hq Hf Hn Hb. unfold MakeActive. assert (stream_of q sid = s) as -> by (unfold stream_of; by rewrite Hf).
  set (c := virtual_time_ q). set (n := CalculateFinishTime q _ _).
  assert (vt_ok n = true) as Hvn.
  { unfold n, CalculateFinishTime. rewrite (qw_whole _ q Hq). apply vt_add_ok; [apply Hq|done]. }
  set (s' := s <| current_virtual_time_ := c |> <| next_finish_time_ := n |>).
  assert (queue_wf_but sid (put_stream sid s' q)) as Hq'.
  { eapply (focus_but (λ x, x ≠ sid) q sid s); [done|auto|done|by eapply times_focus| |exact (eq_sym (Z.sub_diag (pending s)))|cbn; eauto].
    apply stream_wf_times; [by apply (qw_streams _ q Hq)|apply Hq|done]. }
  assert (active_emplace (put_stream sid s' q) sid (active_streams_ q) ≡ₚ sid :: active_streams_ q) as Hperm.
  { apply active_emplace_perm; [|done]. intros x. by eapply stream_of_ok. }
  change (put_stream sid (s <| current_virtual_time_ := c |> <| next_finish_time_ := n |>) q) with (put_stream sid s' q).
  apply (but_wf sid s').
  - destruct Hq' as [Hk Hs Ht Hu Ha Hse Hti Hwh]. split; try done; cbn [active_streams_ set_field RRSendQueue_eta].
    + cbn. rewrite Hperm. apply list.NoDup_cons. by split.
    + intros x Hx. rewrite <- (Ha x Hx). cbn. rewrite Hperm, elem_of_cons. cbn. tauto.
  - cbn. by rewrite map_find_put, Z.eqb_refl.
  - cbn. rewrite Hperm, elem_of_cons. cbn. tauto.
Qed.

Lemma MaybeMakeActive_wf sid s q : queue_wf_but sid q → map_find sid (streams_ q) = Some s → sid ∉ active_streams_ q → queue_wf (MaybeMakeActive sid q).
Proof.
  intros Hq Hf Hn. unfold MaybeMakeActive. assert (stream_of q sid = s) as -> by (unfold stream_of; by rewrite Hf).
  assert (0 ≤ bytes_to_send_in_next_message s).
  { unfold bytes_to_send_in_next_message. destruct (sw_messages _ _ (qw_streams _ q Hq sid s Hf)) as [|i l [] _]; destruct (pause_state_ s); lia. }
  destruct (Z.eqb_spec (bytes_to_send_in_next_message s) 0) as [E|]; [|apply (MakeActive_wf sid s); auto; lia].
  apply (but_wf sid s); auto. rewrite E. split; [done|lia].
Qed.

Lemma MakeInactive_wf sid s q : queue_wf_but sid q → map_find sid (streams_ q) = Some s →
  bytes_to_send_in_next_message s = 0 → queue_wf (MakeInactive sid q).
Proof.
  intros Hq Hf Hb. unfold MakeInactive, ForceMarkInactive. assert (stream_of q sid = s) as -> by (unfold stream_of; by rewrite Hf).
  set (s' := s <| next_finish_time_ := vt_zero |>).
  assert (queue_wf_but sid (put_stream sid s' q)) as [Hk Hs Ht Hu Ha Hse Hti Hwh].
  { eapply (focus_but (λ x, x ≠ sid) q sid s); [done|auto|done|eapply focus_put; by eapply focus_refl| |exact (eq_sym (Z.sub_diag (pending s)))|cbn; eauto].
    destruct (qw_streams _ q Hq sid s Hf). by split. }
  apply (but_wf sid s').
  - split; try done; cbn; [by apply NoDup_filter|]. intros x Hx. rewrite list_elem_of_filter. rewrite <- (Ha x Hx). cbn. tauto.
  - cbn. by rewrite map_find_put, Z.eqb_refl.
  - cbn. rewrite list_elem_of_filter. split; [tauto|]. change (bytes_to_send_in_next_message s') with (bytes_to_send_in_next_message s). lia.
Qed.

Lemma get_or_create_wf sid q : queue_wf q → let q' := GetOrCreateStreamInfo sid q in
  queue_wf q' ∧ (∃ s, map_find sid (streams_ q') = Some s) ∧ active_streams_ q' = active_streams_ q.
Proof.
  intros Hq. unfold GetOrCreateStreamInfo. destruct (map_find sid (streams_ q)) as [s|] eqn:Hf; [by eauto|].
  set (s := OutgoingStream_new (default_priority_ q)). destruct Hq as [Hk Hs Ht Hu Ha Hse Hti Hwh].
  split; [|split; [exists s; cbn; by rewrite map_find_put, Z.eqb_refl|done]]. split; cbn; try done.
  - by apply map_put_ascending.
  - intros x t. rewrite map_find_put. destruct (Z.eqb_spec x sid) as [->|]; [intros [= <-]|apply Hs].
    split; cbn; try done; try constructor.
  - rewrite entries_sum_put, Hf by done. rewrite Ht. f_equal. cbn. lia.
  - intros x _. rewrite (Ha x I). setoid_rewrite map_find_put. destruct (Z.eqb_spec x sid) as [->|]; [|done]. rewrite Hf.
    split; [by intros (? & ? & _) | by intros (? & [= <-] & ?)].
  - intros (x & t & i & ? & Hx & ?)%Hse. exists x, t, i. cbn. rewrite map_find_put. destruct (Z.eqb_spec x sid) as [->|]; [congruence|done].
Qed.

(** ** Adding a message *)

Lemma pending_app l k b : fold_right (λ item n, remaining_size item + n) b (l ++ k)
  = fold_right (λ item n, remaining_size item + n) 0 l + fold_right (λ item n, remaining_size item + n) b k.
Proof. induction l as [|i l IH]; cbn; [done|]. rewrite IH. lia. Qed.

Lemma Message_new_wf id msg attr : message_payload_ msg ≠ [] → message_wf (message_stream_id_ msg) (Message_new id msg attr) ∧ fresh_message (Message_new id msg attr).
Proof.
  intros Hm. split; [|done]. split; cbn; try done.
  unfold message_size. destruct (message_payload_ msg); [done|cbn; lia].
Qed.

Lemma tail_app_Forall {A} (P : A → Prop) l a : Forall P (tail l) → P a → Forall P (tail (l ++ [a])).
Proof. destruct l as [|b l]; cbn; [constructor|]. intros. apply Forall_app. auto. Qed.

(** A stream with one more message at its end. *)
Definition enqueued (s : OutgoingStream) (i : Message) : OutgoingStream :=
  s <| buffered_amount_ ::= Increase (message_size (message i)) |> <| items_ ::= (λ items, items ++ [i]) |>.

Lemma enqueued_wf sid s i : stream_wf sid s → message_wf sid i → fresh_message i → stream_wf sid (enqueued s i) ∧ pending (enqueued s i) = pending s + message_size (message i).
Proof.
  intros [Hm Hh Ht Hb Hp Hpe Hc Hf] Hi Hfr.
  assert (pending (enqueued s i) = pending s + message_size (message i)) as Hpend.
  { unfold pending, enqueued. cbn. rewrite pending_app. cbn. rewrite Hfr. cbn. lia. }
  assert (queued_mid i = None) as Hmid by (rewrite Hfr; done).
  assert (∀ j, head (items_ s ++ [i]) = Some j → head (items_ s) = Some j ∨ (items_ s = [] ∧ j = i)) as Hhead.
  { destruct (items_ s); cbn; [intros j [= <-]; auto | auto]. }
  split; [|done]. split; auto.
  - cbn. apply Forall_app. auto.
  - intros j Hj. destruct (Hhead j Hj) as [?|[_ ->]]; auto.
  - cbn. by apply tail_app_Forall.
  - rewrite Hpend. change (wrap 64 (value_ (buffered_amount_ s) + message_size (message i)) = wrap 64 (pending s + message_size (message i))).
    by rewrite Hb, wrap_plus.
  - intros Hpa j Hj. destruct (Hhead j Hj) as [?|[_ ->]]; [by apply Hp|done].
  - intros Hpa. destruct (Hpe Hpa) as (j & Hj & ?). exists j. split; [|done]. cbn. by destruct (items_ s).
Qed.

Lemma bytes_nonneg sid s : stream_wf sid s → 0 ≤ bytes_to_send_in_next_message s.
Proof. intros Hw. unfold bytes_to_send_in_next_message. destruct (sw_messages _ _ Hw) as [|i l [] _]; destruct (pause_state_ s); lia. Qed.

Lemma stream_of_found q sid s : map_find sid (streams_ q) = Some s → stream_of q sid = s.
Proof. unfold stream_of. by intros ->. Qed.

Lemma Queue_Add_wf now msg o q : queue_wf q → message_payload_ msg ≠ [] → queue_wf (Queue_Add now msg o q).
Proof.
  intros Hq0 Hm. unfold Queue_Add. set (sid := message_stream_id_ msg). destruct (get_or_create_wf sid q Hq0) as (Hq & [s Hf] & _).
  set (q0 := GetOrCreateStreamInfo sid q) in *. unfold Stream_Add. rewrite (stream_of_found q0 sid s Hf).
  set (i := Message_new (current_message_id (increase_buffered sid (message_size msg) q0)) msg (send_attributes now o)).
  destruct (Message_new_wf (current_message_id (increase_buffered sid (message_size msg) q0)) msg (send_attributes now o) Hm) as [Hi Hfr]. fold i in Hi, Hfr.
  set (q1 := update_items sid _ _).
  assert (focus q0 sid (enqueued s i) (message_size msg) q1) as Hfo.
  { unfold q1. apply (focus_items _ _ _ (s <| buffered_amount_ ::= Increase (message_size msg) |>)).
    destruct (focus_increase q0 q0 sid s 0 (message_size msg)); [by eapply focus_refl|]. by split. }
  destruct (enqueued_wf sid s i (qw_streams _ q0 Hq sid s Hf) Hi Hfr) as [Hw' Hpend].
  assert (∀ i0, head (items_ s) = Some i0 → head (items_ (enqueued s i)) = Some i0) as Hhead by (cbn; by destruct (items_ s)).
  destruct (Z.ltb_spec 0 (bytes_to_send_in_next_message s)) as [Hact|Hidle].
  - apply (focus_wf q0 sid s _ _ q1 Hq Hf Hfo Hw'); [rewrite Hpend; cbn; lia| |eauto].
    unfold bytes_to_send_in_next_message in *. cbn. by destruct (pause_state_ s), (items_ s).
  - apply (MaybeMakeActive_wf sid (enqueued s i)).
    + eapply (focus_but (λ _, True) q0 sid s); eauto. rewrite Hpend. cbn. lia.
    + by eapply focus_found.
    + rewrite (fo_active _ _ _ _ _ Hfo), (qw_active _ q0 Hq) by done. intros (? & E & ?). rewrite Hf in E. injection E as <-. lia.
Qed.

(** ** Producing a chunk *)

Lemma Forall_head {A} (P : A → Prop) l a : Forall P l → head l = Some a → P a.
Proof. intros [|b l' ? ?]; cbn; [done|]. by intros [= <-]. Qed.

(** What [Produce] makes of the stream whose first message is [i]. *)
Definition after_front (max_size : Z) (i : Message) (s : OutgoingStream) : OutgoingStream :=
  let '(i1, s1) := allocate_numbers i s in
  let '(chunk, remains) := next_fragment max_size i1 in
  let s2 := s1 <| buffered_amount_ := (Decrease (data_size (to_send_data chunk)) (buffered_amount_ s1)).2 |> in
  match remains with
  | Some i' => s2 <| items_ ::= (λ items, i' :: tail items) |>
  | None =>
    let s3 := s2 <| items_ ::= tail |> in
    if decide (pause_state_ s3 = kPending) then s3 <| pause_state_ := kPaused |> else s3
  end.
Definition front_chunk (max_size : Z) (i : Message) (s : OutgoingStream) : DataToSend := (next_fragment max_size (allocate_numbers i s).1).1.

Lemma produce_front_focus q q1 sid s delta max_size i : focus q sid s delta q1 →
  let '(chunk, q') := produce_front sid max_size i q1 in
  chunk = front_chunk max_size i s ∧ focus q sid (after_front max_size i s) (delta - data_size (to_send_data chunk)) q'.
Proof.
  intros Hfo. unfold produce_front, front_chunk, after_front. rewrite (focus_stream Hfo). destruct (allocate_numbers i s) as [i1 s1]. cbn [fst].
  destruct (next_fragment max_size i1) as [chunk remains]. cbn [fst].
  pose proof (focus_decrease _ _ _ _ _ (data_size (to_send_data chunk)) (focus_put Hfo s1)) as Hd.
  set (q2 := decrease_buffered _ _ _) in *. destruct remains as [i'|].
  - split; [done|]. by apply (focus_items q q2 sid _ _ (λ items, i' :: tail items)) in Hd.
  - apply (focus_items q q2 sid _ _ tail) in Hd. rewrite (focus_stream Hd). destruct (decide _); (split; [done|]); [|done].
    by apply (focus_pause q _ sid _ _ kPaused) in Hd.
Qed.

Lemma allocate_numbers_facts i s : let '(i1, s1) := allocate_numbers i s in
  queued_mid i1 ≠ None ∧ message i1 = message i ∧ attributes i1 = attributes i ∧ message_id i1 = message_id i
  ∧ remaining_offset i1 = remaining_offset i ∧ remaining_size i1 = remaining_size i ∧ current_fsn i1 = current_fsn i
  ∧ items_ s1 = items_ s ∧ buffered_amount_ s1 = buffered_amount_ s ∧ pause_state_ s1 = pause_state_ s
  ∧ current_virtual_time_ s1 = current_virtual_time_ s ∧ next_finish_time_ s1 = next_finish_time_ s.
Proof.
  unfold allocate_numbers. destruct (queued_mid i) eqn:Em, (attr_unordered (attributes i)) eqn:Eu; cbn; rewrite ?Eu; cbn;
    destruct (queued_ssn i); cbn; rewrite ?Em; repeat split; done.
Qed.

(** The size of a fragment, and what it leaves. *)
Lemma next_fragment_facts sid max_size i : message_wf sid i ∨ (queued_mid i ≠ None ∧ 0 ≤ remaining_offset i ∧ 0 < remaining_size i
    ∧ remaining_offset i + remaining_size i = message_size (message i)) → 0 < max_size →
  let '(chunk, remains) := next_fragment max_size i in
  let size := data_size (to_send_data chunk) in
  size = Z.min max_size (remaining_size i) ∧ is_end (to_send_data chunk) = (size =? remaining_size i)
  ∧ match remains with
    | Some i' => size < remaining_size i ∧ queued_mid i' = queued_mid i ∧ message i' = message i ∧ attributes i' = attributes i
        ∧ message_id i' = message_id i ∧ queued_ssn i' = queued_ssn i
        ∧ remaining_offset i' = remaining_offset i + size ∧ remaining_size i' = remaining_size i - size
    | None => size = remaining_size i
    end.
Proof.
  intros Hi Hmax. assert (0 ≤ remaining_offset i ∧ 0 < remaining_size i ∧ remaining_offset i + remaining_size i = message_size (message i)) as (Ho & Hr & Hs)
    by (destruct Hi as [[]|(_ & ? & ? & ?)]; done).
  unfold next_fragment. set (chunk := take _ _). assert (Z.of_nat (length chunk) = Z.min max_size (remaining_size i)) as Hlen.
  { unfold chunk. rewrite length_take, length_drop. unfold message_size in Hs. lia. }
  cbv zeta. unfold data_size. cbn [to_send_data payload]. rewrite Hlen.
  assert ((remaining_offset i + max_size `min` remaining_size i =? message_size (message i)) = (max_size `min` remaining_size i =? remaining_size i)) as E.
  { rewrite <- Hs. destruct (Z.eqb_spec (max_size `min` remaining_size i) (remaining_size i)) as [->|]; [apply Z.eqb_refl|apply Z.eqb_neq; lia]. }
  cbn [is_end]. rewrite E. split; [done|]. split; [done|]. destruct (Z.eqb_spec (max_size `min` remaining_size i) (remaining_size i)); [done|].
  cbn. repeat split; try done; lia.
Qed.

Lemma after_front_wf sid max_size i rest s : stream_wf sid s → items_ s = i :: rest → 0 < max_size →
  pause_state_ s ≠ kPaused → pause_state_ s ≠ kResetting →
  let size := data_size (to_send_data (front_chunk max_size i s)) in
  stream_wf sid (after_front max_size i s) ∧ pending (after_front max_size i s) = pending s - size
  ∧ (is_end (to_send_data (front_chunk max_size i s)) = false → ∃ i', items_ (after_front max_size i s) = i' :: rest ∧ queued_mid i' ≠ None)
  ∧ (is_end (to_send_data (front_chunk max_size i s)) = true → items_ (after_front max_size i s) = rest).
Proof.
  intros [Hm Hh Ht Hb Hp Hpe Hc Hf] Hi Hmax Hnp Hnr. unfold front_chunk, after_front. pose proof (allocate_numbers_facts i s) as Ha.
  destruct (allocate_numbers i s) as [i1 s1]. destruct Ha as (Hmid & Hmsg & Hattr & Hid & Hoff & Hrem & Hfsn & Hit & Hbu & Hpa & Hct & Hnt).
  rewrite Hi in *. cbn [tail] in Ht. apply list.Forall_cons in Hm as [Hmi Hrest]. destruct Hmi as [Hst Ho Hr Hs Hbeg].
  assert (pending s = remaining_size i + fold_right (λ item n, remaining_size item + n) 0 rest) as Hpend by (unfold pending; rewrite Hi; done).
  pose proof (next_fragment_facts sid max_size i1) as Hn. rewrite Hoff, Hrem, Hmsg in Hn. cbn [fst].
  destruct (next_fragment max_size i1) as [chunk remains]. cbn [fst snd]. destruct Hn as (Hsz & Hend & Hleft); [auto|done|].
  set (size := data_size (to_send_data chunk)) in *. assert (0 < size) by lia.
  assert (∀ p, p = pending s - size → wrap 64 (value_ (buffered_amount_ s1) - size) = wrap 64 p) as Hval.
  { intros p ->. rewrite Hbu, Hb. exact (wrap_plus 64 (pending s) (- size) ltac:(done)). }
  destruct remains as [i'|].
  - destruct Hleft as (Hlt & Hmid' & Hmsg' & _ & _ & _ & Hoff' & Hrem').
    assert (∀ s', s' = s1 <| buffered_amount_ := (Decrease size (buffered_amount_ s1)).2 |> <| items_ ::= (λ items, i' :: tail items) |> →
      pending s' = pending s - size) as Hpd.
    { intros s' ->. unfold pending at 1. cbn. rewrite Hit. cbn. lia. }
    split; [|split; [by apply Hpd|split]].
    + split; cbn; rewrite ?Hit, ?Hpa, ?Hct, ?Hnt; cbn; try done; [constructor; [|done]; split; rewrite ?Hmsg', ?Hmid'; try congruence; try lia| | | |].
      * split; [done|]. lia.
      * intros j [= <-]. by rewrite Hmid'.
      * apply Hval. lia.
      * by intros [?|?].
      * intros _. exists i'. by rewrite Hmid'.
    + intros _. exists i'. cbn. rewrite Hit. split; [done|]. by rewrite Hmid'.
    + rewrite Hend, Z.eqb_eq. lia.
  - set (s3 := s1 <| buffered_amount_ := (Decrease size (buffered_amount_ s1)).2 |> <| items_ ::= tail |>).
    assert (items_ s3 = rest) as Hit3 by (cbn; by rewrite Hit).
    assert (stream_wf sid (s3 <| pause_state_ := if decide (pause_state_ s3 = kPending) then kPaused else pause_state_ s3 |>)) as Hw3.
    { split; cbn; rewrite ?Hit, ?Hct, ?Hnt; cbn; try done.
      - intros j Hj _. by eapply Forall_head.
      - destruct rest; [constructor|]. by apply list.Forall_cons in Ht as [_ ?].
      - apply Hval. lia.
      - intros _ j Hj. by rewrite (Forall_head _ _ _ Ht Hj).
      - destruct (decide _); done. }
    assert (pending s3 = pending s - size) as Hp3 by (unfold pending at 1; rewrite Hit3; lia).
    assert (is_end (to_send_data chunk) = true) as He by (rewrite Hend; apply Z.eqb_eq; done).
    destruct (decide (pause_state_ s3 = kPending)) as [Hpd|_]; (split; [|split; [exact Hp3|rewrite He; split; [done|by intros _]]]).
    + exact Hw3.
    + by destruct s3.
Qed.

(** A stream without its first message, in a state in which none is being sent. *)
Definition without_head (i : Message) (p : PauseState) (s : OutgoingStream) : OutgoingStream :=
  s <| buffered_amount_ := (Decrease (remaining_size i) (buffered_amount_ s)).2 |> <| items_ ::= tail |> <| pause_state_ := p |>.

Lemma without_head_wf sid i rest p s : stream_wf sid s → items_ s = i :: rest → p ≠ kPending →
  stream_wf sid (without_head i p s) ∧ pending (without_head i p s) = pending s - remaining_size i.
Proof.
  intros [Hm Hh Ht Hb Hp Hpe Hc Hf] Hi Hpp. rewrite Hi in *. cbn [tail] in Ht. apply list.Forall_cons in Hm as [_ Hrest].
  assert (pending s = remaining_size i + fold_right (λ item n, remaining_size item + n) 0 rest) as Hpend by (unfold pending; rewrite Hi; done).
  assert (pending (without_head i p s) = pending s - remaining_size i) as Hpw by (unfold pending at 1; cbn; rewrite Hi; cbn; lia).
  split; [|done]. split; cbn; rewrite ?Hi; cbn; try done.
  - intros j Hj _. by eapply Forall_head.
  - destruct rest; [constructor|]. by apply list.Forall_cons in Ht as [_ ?].
  - rewrite Hb. replace (fold_right _ 0 rest) with (pending s + - remaining_size i) by lia. exact (wrap_plus 64 (pending s) (- remaining_size i) ltac:(done)).
  - intros _ j Hj. by rewrite (Forall_head _ _ _ Ht Hj).
Qed.

Lemma set_pause_same s : s <| pause_state_ := pause_state_ s |> = s.
Proof. by destruct s. Qed.

(** The counters of a stream. *)
Definition numbers (s : OutgoingStream) : Z * Z * Z := (next_unordered_mid_ s, next_ordered_mid_ s, next_ssn_ s).
Definition expired (now : Z) (i : Message) : bool := bool_decide (queued_mid i = None) && (attr_expires_at (attributes i) <=? now).

(** What a search for the next chunk of a stream finds: expired messages are passed over. *)
Inductive produced (now max_size : Z) (s : OutgoingStream) : DataToSend → OutgoingStream → Prop :=
| produced_intro skipped i rest s1 :
    items_ s = skipped ++ i :: rest → Forall (λ j, expired now j = true) skipped → expired now i = false →
    numbers s1 = numbers s → items_ s1 = i :: rest → stream_wf (message_stream_id_ (message i)) s1 →
    pause_state_ s1 = pause_state_ s → produced now max_size s (front_chunk max_size i s1) (after_front max_size i s1).

(** All messages of the stream expired. *)
Definition emptied (now : Z) (s s' : OutgoingStream) : Prop :=
  items_ s' = [] ∧ numbers s' = numbers s ∧ Forall (λ i, expired now i = true) (items_ s).

Lemma produce_loop_focus rounds q0 q1 sid s delta now max_size :
  focus q0 sid s delta q1 → stream_wf sid s → (length (items_ s) ≤ rounds)%nat →
  pause_state_ s ≠ kPaused → pause_state_ s ≠ kResetting → 0 < max_size →
  let '(r, q') := produce_loop rounds sid now max_size q1 in
  ∃ s' delta', focus q0 sid s' delta' q' ∧ stream_wf sid s' ∧ delta' - delta = pending s' - pending s
    ∧ match r with
      | None => emptied now s s'
      | Some chunk => produced now max_size s chunk s'
      end.
Proof.
  revert q1 s delta. induction rounds as [|n IH]; intros q1 s delta Hfo Hw Hlen Hnp Hnr Hmax; cbn [produce_loop].
  { destruct (items_ s) as [|? ?] eqn:Hi; [|cbn in Hlen; lia]. exists s, delta. unfold emptied. rewrite Hi. split; [done|]. split; [done|]. split; [lia|done]. }
  rewrite (focus_stream Hfo). destruct (items_ s) as [|i rest] eqn:Hi.
  { exists s, delta. unfold emptied. rewrite Hi. split; [done|]. split; [done|]. split; [lia|done]. }
  fold (expired now i). destruct (expired now i) eqn:Ex.
  - assert (pause_state_ s ≠ kPending) as Hnpe.
    { intros (j & Hj & Hmid)%(sw_pending _ _ Hw). rewrite Hi in Hj. injection Hj as <-. unfold expired in Ex.
      apply andb_true_iff in Ex as [Ex%bool_decide_eq_true _]. done. }
    destruct (without_head_wf sid i rest (pause_state_ s) s Hw Hi Hnpe) as [Hw' Hp'].
    assert (focus q0 sid (without_head i (pause_state_ s) s) (delta - remaining_size i) (update_items sid tail (HandleMessageExpired sid i q1))) as Hfo'.
    { apply (focus_expired _ _ _ _ _ i), (focus_items _ _ _ _ _ tail) in Hfo. exact Hfo. }
    assert (items_ (without_head i (pause_state_ s) s) = rest) as Hr by (cbn; by rewrite Hi).
    specialize (IH _ _ _ Hfo' Hw'). rewrite Hr in IH. specialize (IH ltac:(cbn in Hlen; lia) Hnp Hnr Hmax).
    destruct (produce_loop n sid now max_size _) as [r q']. destruct IH as (s' & delta' & Hfo2 & Hw2 & Hd & Hres).
    exists s', delta'. split; [done|]. split; [done|]. split; [lia|]. destruct r as [chunk|].
    + destruct Hres as [skipped j rest' s1 Hit Hall Hal Hnum Hi1 Hws Hps].
      apply (produced_intro now max_size s (i :: skipped) j rest' s1); auto. rewrite Hi. cbn. rewrite <- Hit. by rewrite Hr.
    + destruct Hres as (? & ? & Hall). split; [done|]. split; [done|]. rewrite Hi. rewrite Hr in Hall. by constructor.
  - pose proof (produce_front_focus _ _ _ _ _ max_size i Hfo) as Hpf. destruct (produce_front sid max_size i q1) as [chunk q'].
    destruct Hpf as [-> Hfo']. destruct (after_front_wf sid max_size i rest s Hw Hi Hmax Hnp Hnr) as (Hw' & Hp' & _).
    eexists _, _. split; [exact Hfo'|]. split; [done|]. split; [lia|].
    apply (produced_intro now max_size s [] i rest s); auto. pose proof (sw_messages _ _ Hw) as Hm. rewrite Hi in Hm.
    apply list.Forall_cons in Hm as [[-> _ _ _ _] _]. done.
Qed.

(** Two states of a stream that differ in scheduling and accounting only. *)
Definition same_core (s s' : OutgoingStream) : Prop := items_ s' = items_ s ∧ numbers s' = numbers s ∧ pause_state_ s' = pause_state_ s.

Lemma same_core_trans s s' s'' : same_core s s' → same_core s' s'' → same_core s s''.
Proof. intros (? & ? & ?) (? & ? & ?). repeat split; congruence. Qed.

Lemma produced_core now max_size s t chunk s' : same_core s t → produced now max_size t chunk s' → produced now max_size s chunk s'.
Proof.
  intros (Hi & Hn & Hp) [skipped i rest s1 Hit Hex Hal Hnum Hi1 Hw Hps].
  apply (produced_intro now max_size s skipped i rest s1); try done; congruence.
Qed.

Lemma Stream_Produce_focus q0 q1 sid s delta now max_size :
  focus q0 sid s delta q1 → stream_wf sid s → enable_message_interleaving_ q0 = false →
  pause_state_ s ≠ kPaused → pause_state_ s ≠ kResetting → 0 < max_size →
  let '(r, q') := Stream_Produce sid now max_size q1 in
  ∃ s' delta', focus q0 sid s' delta' q' ∧ stream_wf sid s' ∧ delta' - delta = pending s' - pending s
    ∧ match r with
      | None => emptied now s s'
      | Some chunk => ∃ s1, produced now max_size s chunk s1 ∧ same_core s1 s'
      end.
Proof.
  intros Hfo Hw Hin Hnp Hnr Hmax. unfold Stream_Produce, OutgoingStream_Produce. rewrite (focus_stream Hfo).
  pose proof (produce_loop_focus (length (items_ s)) q0 q1 sid s delta now max_size Hfo Hw (le_n _) Hnp Hnr Hmax) as H.
  destruct (produce_loop _ sid now max_size q1) as [[chunk|] q']; destruct H as (s' & delta' & Hfo' & Hw' & Hd & Hres); [|by exists s', delta'].
  rewrite (focus_stream Hfo'). set (t := CalculateFinishTime q' s' _).
  assert (vt_ok t = true) as Ht.
  { unfold t, CalculateFinishTime. rewrite (fo_interleaving _ _ _ _ _ Hfo'), Hin. apply vt_add_ok; [apply Hw'|done]. }
  exists (s' <| current_virtual_time_ := t |>), delta'. split; [by eapply focus_put|]. split; [destruct Hw'; by split|]. split; [exact Hd|].
  exists s'. by repeat split.
Qed.

(** What happened to a stream that did not produce: at most its messages expired, all of them. *)
Definition kept (now : Z) (t t' : option OutgoingStream) : Prop :=
  match t, t' with
  | None, None => True
  | Some t, Some t' => same_core t t' ∨ emptied now t t'
  | _, _ => False
  end.
Definition others_kept (now : Z) (sid : Z) (q q' : RRSendQueue) : Prop :=
  ∀ x, x ≠ sid → kept now (map_find x (streams_ q)) (map_find x (streams_ q')).

Lemma kept_refl now t : kept now t t.
Proof. destruct t; [left|]; done. Qed.

Lemma kept_trans now t t' t'' : kept now t t' → kept now t' t'' → kept now t t''.
Proof.
  destruct t as [t|], t' as [t'|], t'' as [t''|]; cbn; try done. intros [H|(He & Hn & Hf)] [H'|(He' & Hn' & Hf')].
  - left. by eapply same_core_trans.
  - right. destruct H as (E & En & _). split; [done|]. split; [congruence|]. by rewrite <- E.
  - right. destruct H' as (E & En & _). split; [congruence|]. split; [congruence|done].
  - right. split; [done|]. split; [congruence|done].
Qed.

(** The outcome of a search: the stream [sid] produced [chunk] and waits to be scheduled. *)
Record search_found (now max_size : Z) (q : RRSendQueue) (sid : Z) (chunk : DataToSend) (q' : RRSendQueue) : Prop := mkFound {
  sf_but : queue_wf_but sid q';
  sf_current : current_stream_ q' = Some sid;
  sf_flag : currently_sending_a_message_ q' = false;
  sf_others : others_kept now sid q q';
  sf_running : ∀ s, map_find sid (streams_ q) = Some s → pause_state_ s ≠ kPaused ∧ pause_state_ s ≠ kResetting;
  sf_stream : ∃ s s1 s', map_find sid (streams_ q) = Some s ∧ produced now max_size s chunk s1 ∧ same_core s1 s' ∧ map_find sid (streams_ q') = Some s'
}.

(** The first active stream leaves the set. *)
Lemma pop_active_wf q sid rest : queue_wf q → active_streams_ q = sid :: rest →
  ∃ s, map_find sid (streams_ q) = Some s ∧ 0 < bytes_to_send_in_next_message s
    ∧ let q1 := ForceMarkInactive sid (q <| current_stream_ := Some sid |> <| active_streams_ := rest |>) in
      (currently_sending_a_message_ q = false → queue_wf_but sid q1) ∧ (sid ∉ active_streams_ q1)
      ∧ map_find sid (streams_ q1) = Some (s <| next_finish_time_ := vt_zero |>) ∧ ∀ x, x ≠ sid → map_find x (streams_ q1) = map_find x (streams_ q).
Proof.
  intros Hq Hact. destruct (proj1 (qw_active _ q Hq sid I)) as (s & Hf & Hb); [rewrite Hact; left|]. exists s. split; [done|]. split; [done|].
  set (q0 := q <| current_stream_ := Some sid |> <| active_streams_ := rest |>). cbv zeta. unfold ForceMarkInactive.
  assert (stream_of q0 sid = s) as -> by (by apply stream_of_found). pose proof (qw_unique _ q Hq) as Hnd. rewrite Hact in Hnd.
  apply list.NoDup_cons in Hnd as [Hnot Hnd]. split; [|split; [done|split; [cbn; by rewrite map_find_put, Z.eqb_refl|]]].
  - intros Hflag. assert (queue_wf_but sid q0) as Hq0.
    { destruct Hq as [? ? ? ? Ha ? ? ?]. split; try done; [|cbn; congruence]. intros x Hx.
      etransitivity; [|exact (Ha x I)]. rewrite Hact, elem_of_cons. cbn. tauto. }
    eapply (focus_but (λ x, x ≠ sid) q0 sid s); [done|auto|done|eapply focus_put; by eapply focus_refl| |exact (eq_sym (Z.sub_diag (pending s)))|cbn; eauto].
    destruct (qw_streams _ q Hq sid s Hf). by split.
  - intros x Hx. cbn. by rewrite map_find_put, (proj2 (Z.eqb_neq _ _)).
Qed.

Lemma active_not_paused s : 0 < bytes_to_send_in_next_message s → pause_state_ s ≠ kPaused ∧ pause_state_ s ≠ kResetting ∧ items_ s ≠ [].
Proof. unfold bytes_to_send_in_next_message. destruct (pause_state_ s), (items_ s); done || lia. Qed.

(** A search that went on after the messages of a stream had expired. *)
Lemma search_found_drop now max_size q q2 sid s' sid' chunk q' : map_find sid (streams_ q2) = Some s' → items_ s' = [] →
  (∀ x, x ≠ sid → map_find x (streams_ q2) = map_find x (streams_ q)) → (∀ x, kept now (map_find x (streams_ q)) (map_find x (streams_ q2))) →
  search_found now max_size q2 sid' chunk q' → search_found now max_size q sid' chunk q'.
Proof.
  intros Hf He Ho Hk [Hb Hc Hfl Hok Hrun (s & s1 & t & Hs & Hp & Hcore & Ht)].
  assert (sid' ≠ sid) as Hne.
  { intros ->. rewrite Hf in Hs. injection Hs as ->. destruct Hp as [skipped i rest ? Hit]. rewrite He in Hit. by destruct skipped. }
  split; try done.
  - intros x Hx. eapply kept_trans; [apply Hk|by apply Hok].
  - intros u. rewrite <- Ho by done. apply Hrun.
  - exists s, s1, t. split; [|done]. by rewrite <- Ho.
Qed.

Lemma schedule_loop_search rounds now max_size q :
  queue_wf q → currently_sending_a_message_ q = false → (length (active_streams_ q) ≤ rounds)%nat → 0 < max_size →
  wp (schedule_loop rounds true now max_size) (λ r q', match r with
    | None => queue_wf q' ∧ active_streams_ q' = [] ∧ ∀ x, kept now (map_find x (streams_ q)) (map_find x (streams_ q'))
    | Some chunk => ∃ sid, search_found now max_size q sid chunk q' ∧ sid ∉ active_streams_ q'
    end) q.
Proof.
  revert q. induction rounds as [|n IH]; intros q Hq Hflag Hlen Hmax; cbn [schedule_loop].
  { apply wp_bind. unfold wp at 1. cbn [gets]. destruct (active_streams_ q) eqn:E; [|cbn in Hlen; lia]. apply wp_ret. split; [done|]. split; [done|].
    intros x. apply kept_refl. }
  apply wp_bind. unfold wp at 1. cbn [gets]. destruct (active_streams_ q) as [|sid rest] eqn:Hact.
  { unfold wp. cbn. split; [done|]. split; [done|]. intros x. apply kept_refl. }
  destruct (pop_active_wf q sid rest Hq Hact) as (s & Hf & Hb & Hpop). cbv zeta in Hpop. set (q1 := ForceMarkInactive sid _) in *.
  destruct Hpop as (Hq1 & Hn1 & Hf1 & Ho1). specialize (Hq1 Hflag). set (s1 := s <| next_finish_time_ := vt_zero |>) in *.
  apply wp_bind. unfold wp at 1. cbn [when modify]. fold q1. apply wp_bind. unfold wp at 1. cbn [gets]. apply wp_bind.
  change (current_stream_ q1) with (Some sid). unfold wp at 1. cbn [deref ret]. apply wp_bind. unfold wp at 1. cbn [get].
  destruct (active_not_paused s Hb) as (Hnp & Hnr & _).
  assert (stream_wf sid s1) as Hw1 by (by apply (qw_streams _ q1 Hq1)).
  pose proof (Stream_Produce_focus q1 q1 sid s1 0 now max_size (focus_refl _ q1 sid s1 Hq1 Hf1) Hw1 (qw_whole _ q1 Hq1) Hnp Hnr Hmax) as HP.
  destruct (Stream_Produce sid now max_size q1) as [r q2]. destruct HP as (s' & delta & Hfo & Hw' & Hd & Hres).
  apply wp_bind. unfold wp at 1. cbn [modify].
  assert (queue_wf_but sid q2) as Hq2.
  { eapply (focus_but (λ x, x ≠ sid) q1 sid s1); [done|auto|done|done|done|lia|]. change (currently_sending_a_message_ q1) with (currently_sending_a_message_ q).
    rewrite Hflag. done. }
  assert (sid ∉ active_streams_ q2) as Hn2 by (by rewrite (fo_active _ _ _ _ _ Hfo)).
  assert (∀ x, x ≠ sid → map_find x (streams_ q2) = map_find x (streams_ q)) as Ho2.
  { intros x Hx. rewrite (fo_streams _ _ _ _ _ Hfo), map_find_put, (proj2 (Z.eqb_neq _ _)) by done. auto. }
  assert (same_core s s1) as Hcore by done.
  destruct r as [chunk|].
  - unfold wp. cbn [ret]. exists sid. split; [|done]. destruct Hres as (s2 & Hp & Hc). split; [done| | | | |].
    + by rewrite (fo_current _ _ _ _ _ Hfo).
    + by rewrite (fo_sending _ _ _ _ _ Hfo).
    + intros x Hx. rewrite Ho2 by done. apply kept_refl.
    + intros u Hu. rewrite Hf in Hu. by injection Hu as <-.
    + exists s, s2, s'. split; [done|]. split; [by eapply produced_core|]. split; [done|]. by eapply focus_found.
  - pose proof Hres as (He & _ & _). assert (queue_wf q2) as Hwf2.
    { apply (but_wf sid s' q2 Hq2); [by eapply focus_found|]. split; [done|]. unfold bytes_to_send_in_next_message. rewrite He. destruct (pause_state_ s'); lia. }
    assert (∀ x, kept now (map_find x (streams_ q)) (map_find x (streams_ q2))) as Hk.
    { intros x. destruct (Z.eq_dec x sid) as [->|Hx]; [|rewrite Ho2 by done; apply kept_refl]. rewrite Hf, (focus_found Hfo). by right. }
    eapply wp_mono; [|apply (IH q2 Hwf2); [by rewrite (fo_sending _ _ _ _ _ Hfo)| |done]].
    2: { rewrite (fo_active _ _ _ _ _ Hfo). cbn in Hlen |- *. lia. }
    intros [chunk|] q'; [|intros (? & ? & ?); eauto using kept_trans].
    intros (sid' & Hsf & ?). exists sid'. split; [|done]. eapply search_found_drop; [exact (focus_found Hfo)|done|done|done|done].
Qed.

(** Scheduling does not touch the messages. *)
Definition same_streams (q q' : RRSendQueue) : Prop := ∀ x,
  match map_find x (streams_ q), map_find x (streams_ q') with Some t, Some t' => same_core t t' | None, None => True | _, _ => False end.

Lemma put_same_streams q sid s s' : map_find sid (streams_ q) = Some s → same_core s s' → same_streams q (put_stream sid s' q).
Proof.
  intros Hf Hc x. cbn. rewrite map_find_put. destruct (Z.eqb_spec x sid) as [->|]; [by rewrite Hf|]. by destruct (map_find x (streams_ q)).
Qed.

Lemma after_produce_streams rescheduling sid chunk q s : map_find sid (streams_ q) = Some s →
  let q' := after_produce rescheduling sid chunk q in
  same_streams q q' ∧ current_stream_ q' = current_stream_ q ∧ currently_sending_a_message_ q' = negb (is_end (to_send_data chunk)).
Proof.
  intros Hf. unfold after_produce. set (q0 := q <| currently_sending_a_message_ := _ |> <| virtual_time_ := _ |>).
  assert (stream_of q0 sid = s) as E by (by apply stream_of_found). assert (map_find sid (streams_ q0) = Some s) as Hf0 by done.
  rewrite E. destruct (rescheduling && _); [|destruct (negb rescheduling && _)]; (split; [|done]).
  - unfold MakeActive. rewrite E. by apply (put_same_streams q0 sid s).
  - unfold MakeInactive, ForceMarkInactive. rewrite E. by apply (put_same_streams q0 sid s).
  - intros x. cbn. by destruct (map_find x (streams_ q)).
Qed.

Lemma produced_head now max_size s chunk s1 sid : produced now max_size s chunk s1 → 0 < max_size → stream_wf sid s →
  pause_state_ s ≠ kPaused → pause_state_ s ≠ kResetting →
  (is_end (to_send_data chunk) = false → ∃ i, head (items_ s1) = Some i ∧ queued_mid i ≠ None).
Proof.
  intros [skipped i rest t Hit Hex Hal Hnum Hi Hw Hps] Hmax _ Hnp Hnr He. rewrite <- Hps in Hnp, Hnr.
  destruct (after_front_wf _ max_size i rest t Hw Hi Hmax Hnp Hnr) as (_ & _ & Hfalse & _).
  destruct (Hfalse He) as (i' & Hi' & ?). exists i'. by rewrite Hi'.
Qed.

Lemma after_produce_wf (rescheduling : bool) now max_size q sid chunk q2 : queue_wf q → 0 < max_size →
  search_found now max_size q sid chunk (ForceReschedule q2) →
  (if rescheduling then sid ∉ active_streams_ q2 else sid ∈ active_streams_ q2) →
  queue_wf (after_produce rescheduling sid chunk q2).
Proof.
  intros Hq Hmax [Hb Hcur Hfl Hok Hpause (s & s1 & s' & Hs & Hp & Hcore & Hs')] Hact. cbn in Hs'. destruct (Hpause s Hs) as [Hnp Hnr].
  set (q0 := q2 <| currently_sending_a_message_ := negb (is_end (to_send_data chunk)) |> <| virtual_time_ := current_virtual_time_ (stream_of q2 sid) |>).
  assert (queue_wf_but sid q0) as Hq0.
  { destruct (stream_of_ok _ _ sid Hb) as [_ Ht]. destruct Hb as [? ? ? ? ? ? ? ?]. split; try done.
    cbn. intros He%negb_true_iff. destruct (produced_head now max_size s chunk s1 sid Hp Hmax (qw_streams _ q Hq sid s Hs) Hnp Hnr He) as (i & Hi & Hm).
    unfold sending. exists sid, s', i. destruct Hcore as (Hc & _). rewrite Hc. done. }
  unfold after_produce. fold q0. assert (stream_of q0 sid = s') as -> by (by apply stream_of_found).
  pose proof (bytes_nonneg sid s' (qw_streams _ q0 Hq0 sid s' Hs')). destruct rescheduling; cbn [andb negb].
  - destruct (Z.ltb_spec 0 (bytes_to_send_in_next_message s')); [by apply (MakeActive_wf sid s')|].
    apply (but_wf sid s'); [done..|]. split; [done|lia].
  - destruct (Z.eqb_spec (bytes_to_send_in_next_message s') 0); [by apply (MakeInactive_wf sid s')|].
    apply (but_wf sid s'); [done..|]. split; [lia|done].
Qed.

Lemma ForceReschedule_wf q : queue_wf q → queue_wf (ForceReschedule q).
Proof. intros []. by split. Qed.

(** In the middle of a message its stream produces the next chunk. *)
Lemma schedule_loop_continue rounds now max_size q : queue_wf q → currently_sending_a_message_ q = true →
  (length (active_streams_ q) = rounds)%nat → 0 < max_size →
  wp (schedule_loop rounds false now max_size) (λ r q2, ∃ sid chunk, r = Some chunk ∧ current_stream_ q = Some sid
    ∧ search_found now max_size q sid chunk (ForceReschedule q2) ∧ sid ∈ active_streams_ q2) q.
Proof.
  intros Hq Hflag Hlen Hmax. destruct (qw_sending _ q Hq Hflag) as (sid & s & i & Hcur & Hf & Hh & Hm).
  pose proof (qw_streams _ q Hq sid s Hf) as Hw.
  assert (pause_state_ s ≠ kPaused ∧ pause_state_ s ≠ kResetting) as [Hnp Hnr] by (split; intros E; apply Hm, (sw_paused _ _ Hw); auto).
  assert (sid ∈ active_streams_ q) as Hact.
  { apply (qw_active _ q Hq sid I). exists s. split; [done|]. unfold bytes_to_send_in_next_message. pose proof (sw_messages _ _ Hw) as Hmw.
    destruct (items_ s); [done|]. injection Hh as ->. apply list.Forall_cons in Hmw as [[] _]. by destruct (pause_state_ s). }
  destruct rounds as [|n]; [destruct (active_streams_ q); [by apply elem_of_nil in Hact | done]|]. cbn [schedule_loop].
  apply wp_bind. unfold wp at 1. cbn [gets]. destruct (active_streams_ q) as [|first l] eqn:El; [done|]. apply wp_bind. unfold wp at 1. cbn [when ret].
  apply wp_bind. unfold wp at 1. cbn [gets]. apply wp_bind. rewrite Hcur. unfold wp at 1. cbn [deref ret]. apply wp_bind. unfold wp at 1. cbn [get].
  pose proof (Stream_Produce_focus q q sid s 0 now max_size (focus_refl _ q sid s Hq Hf) Hw (qw_whole _ q Hq) Hnp Hnr Hmax) as HP.
  destruct (Stream_Produce sid now max_size q) as [r q2]. destruct HP as (s' & delta & Hfo & Hw' & Hd & Hres).
  apply wp_bind. unfold wp at 1. cbn [modify]. destruct r as [chunk|].
  2: { exfalso. destruct Hres as (_ & _ & Hall). destruct (items_ s) as [|j ?]; [done|]. injection Hh as ->. apply list.Forall_cons in Hall as [Ha _].
       unfold expired in Ha. apply andb_true_iff in Ha as [Ha%bool_decide_eq_true _]. done. }
  unfold wp. cbn [ret]. exists sid, chunk. split; [done|]. split; [done|]. destruct Hres as (s1 & Hp & Hc). split.
  2: { by rewrite (fo_active _ _ _ _ _ Hfo), El. }
  assert (focus (ForceReschedule q) sid s' delta (ForceReschedule q2)) as Hfo' by (destruct Hfo; by split). split.
  - eapply (focus_but (λ _, True) (ForceReschedule q) sid s); [by apply ForceReschedule_wf|done|done|done|done|lia|done].
  - cbn. by rewrite (fo_current _ _ _ _ _ Hfo).
  - done.
  - intros x Hx. cbn. rewrite (fo_streams _ _ _ _ _ Hfo), map_find_put, (proj2 (Z.eqb_neq _ _)) by done. apply kept_refl.
  - intros u Hu. rewrite Hf in Hu. by injection Hu as <-.
  - exists s, s1, s'. cbn. split; [done|]. split; [done|]. split; [done|]. by eapply focus_found.
Qed.

(** A chunk was produced by the stream [sid], which is the one in the middle of a message if
    there is such a one. *)
Record chunk_from (now max_size : Z) (q : RRSendQueue) (sid : Z) (chunk : DataToSend) (q' : RRSendQueue) : Prop := mkChunkFrom {
  cf_wf : queue_wf q';
  cf_current : current_stream_ q' = Some sid;
  cf_flag : currently_sending_a_message_ q' = negb (is_end (to_send_data chunk));
  cf_same : currently_sending_a_message_ q = true → current_stream_ q = Some sid;
  cf_others : others_kept now sid q q';
  cf_stream : ∃ s s1 s', map_find sid (streams_ q) = Some s ∧ produced now max_size s chunk s1 ∧ same_core s1 s' ∧ map_find sid (streams_ q') = Some s'
}.

Lemma chunk_from_search (rescheduling : bool) now max_size q sid chunk q2 : queue_wf q → 0 < max_size →
  search_found now max_size q sid chunk (ForceReschedule q2) →
  (if rescheduling then sid ∉ active_streams_ q2 else sid ∈ active_streams_ q2) →
  (currently_sending_a_message_ q = true → current_stream_ q = Some sid) →
  chunk_from now max_size q sid chunk (after_produce rescheduling sid chunk q2).
Proof.
  intros Hq Hmax Hsf Hact Hsame. pose proof Hsf as [_ Hcur _ Hok _ (s & s1 & s' & Hs & Hp & Hcore & Hs')].
  destruct (after_produce_streams rescheduling sid chunk q2 s' Hs') as (Hst & Hcur' & Hflag). split; [by eapply after_produce_wf|..]; try done.
  - by rewrite Hcur'.
  - intros x Hx. eapply kept_trans; [by apply Hok|]. specialize (Hst x). cbn. destruct (map_find x (streams_ q2)), (map_find x _); try done. by left.
  - specialize (Hst sid). cbn in Hs'. rewrite Hs' in Hst. destruct (map_find sid (streams_ (after_produce _ _ _ _))) as [t|]; [|done].
    exists s, s1, t. repeat (split; [done|]). split; [by eapply same_core_trans|done].
Qed.

Lemma Queue_Produce_spec now max_size q : queue_wf q → 0 < max_size →
  wp (Queue_Produce now max_size) (λ r q', match r with
    | None => queue_wf q' ∧ active_streams_ q' = [] ∧ ∀ x, kept now (map_find x (streams_ q)) (map_find x (streams_ q'))
    | Some chunk => ∃ sid, chunk_from now max_size q sid chunk q'
    end) q.
Proof.
  intros Hq Hmax. unfold Queue_Produce. apply wp_bind. unfold wp at 1. cbn [get]. cbv zeta. rewrite (qw_whole _ q Hq). cbn [orb]. apply wp_bind.
  destruct (currently_sending_a_message_ q) eqn:Hflag; cbn [negb].
  - eapply wp_mono; [|by apply (schedule_loop_continue _ now max_size q Hq Hflag eq_refl)].
    intros r q2 (sid & chunk & -> & Hcur & Hsf & Hact). apply wp_bind. unfold wp at 1. cbn [gets]. apply wp_bind.
    pose proof (sf_current _ _ _ _ _ _ Hsf) as Hc2. cbn in Hc2. rewrite Hc2. unfold wp. cbn [deref ret bind modify]. exists sid.
    by apply chunk_from_search.
  - eapply wp_mono; [|by apply (schedule_loop_search _ now max_size q Hq Hflag (le_n _))].
    intros [chunk|] q2; [|done]. intros (sid & Hsf & Hact). apply wp_bind. unfold wp at 1. cbn [gets]. apply wp_bind.
    rewrite (sf_current _ _ _ _ _ _ Hsf). unfold wp. cbn [deref ret bind modify]. exists sid. apply chunk_from_search; auto; [|congruence].
    destruct Hsf as [Hb ? ? ? ? ?]. split; try done. destruct Hb. by split.
Qed.

(** ** Discarding, pausing and resetting *)

Lemma without_head_same i s : without_head i (pause_state_ s) s = s <| buffered_amount_ := (Decrease (remaining_size i) (buffered_amount_ s)).2 |> <| items_ ::= tail |>.
Proof. by destruct s. Qed.

Lemma bytes_without_head i rest s : items_ s = i :: rest → 0 < remaining_size i →
  0 < bytes_to_send_in_next_message (without_head i (pause_state_ s) s) → 0 < bytes_to_send_in_next_message s.
Proof. intros Hi Hr. unfold bytes_to_send_in_next_message. cbn. rewrite Hi. by destruct (pause_state_ s). Qed.

Lemma head_size sid s i rest : stream_wf sid s → items_ s = i :: rest → 0 < remaining_size i.
Proof. intros Hw Hi. pose proof (sw_messages _ _ Hw) as Hm. rewrite Hi in Hm. by apply list.Forall_cons in Hm as [[] _]. Qed.

Lemma Queue_Discard_wf sid id q : queue_wf q → queue_wf (Queue_Discard sid id q).2.
Proof.
  intros Hq0. unfold Queue_Discard. destruct (get_or_create_wf sid q Hq0) as (Hq & [s Hf] & _). set (q0 := GetOrCreateStreamInfo sid q) in *.
  unfold Stream_Discard. rewrite (stream_of_found q0 sid s Hf). pose proof (qw_streams _ q0 Hq sid s Hf) as Hw.
  destruct (items_ s) as [|i rest] eqn:Hi; [done|]. destruct (message_id i =? id); [|done]. cbn [snd].
  pose proof (focus_refl _ q0 sid s Hq Hf) as Hfo. apply (focus_expired _ _ _ _ _ i), (focus_items _ _ _ _ _ tail) in Hfo.
  set (q1 := update_items sid tail _) in *. rewrite <- without_head_same in Hfo.
  assert (focus (ForceReschedule q0) sid (without_head i (pause_state_ s) s) (0 - remaining_size i) (ForceReschedule q1)) as Hfo' by (destruct Hfo; by split).
  pose proof (ForceReschedule_wf q0 Hq) as Hq'. rewrite (focus_stream Hfo'). change (pause_state_ (without_head i (pause_state_ s) s)) with (pause_state_ s).
  destruct (decide (pause_state_ s = kPending)) as [Hp|Hp].
  - destruct (without_head_wf sid i rest kPaused s Hw Hi ltac:(done)) as [Hw' Hp'].
    pose proof (focus_pause _ _ _ _ _ kPaused Hfo') as Hfo2. change (without_head i (pause_state_ s) s <| pause_state_ := kPaused |>) with (without_head i kPaused s) in Hfo2.
    apply (MakeInactive_wf sid (without_head i kPaused s)); [|by eapply focus_found|done].
    eapply (focus_but (λ _, True) (ForceReschedule q0) sid s); [done|done|done|done|done|lia|done].
  - destruct (without_head_wf sid i rest (pause_state_ s) s Hw Hi Hp) as [Hw' Hp'].
    assert (queue_wf_but sid (ForceReschedule q1)) as Hb
      by (eapply (focus_but (λ _, True) (ForceReschedule q0) sid s); [done|done|done|done|done|lia|done]).
    destruct (Z.eqb_spec (bytes_to_send_in_next_message (without_head i (pause_state_ s) s)) 0) as [E|E];
      [by apply (MakeInactive_wf sid _ _ Hb (focus_found Hfo'))|].
    pose proof (bytes_nonneg sid _ Hw'). apply (but_wf sid _ _ Hb (focus_found Hfo')). split; [lia|]. intros Hpos.
    rewrite (fo_active _ _ _ _ _ Hfo'). apply (qw_active _ q0 Hq sid I). exists s. split; [done|].
    by apply (bytes_without_head i rest s Hi (head_size sid s i rest Hw Hi)).
Qed.

(** Dropping messages that were not begun. *)
Lemma drop_unsent_focus items q0 q1 sid s delta : focus q0 sid s delta q1 →
  let '(remains, q') := drop_unsent sid items q1 in
  let removed := fold_right (λ i n, (if remaining_offset i =? 0 then remaining_size i else 0) + n) 0 items in
  remains = filter (λ i, remaining_offset i ≠ 0) items
  ∧ ∃ w, value_ w = (if forallb (λ i, negb (remaining_offset i =? 0)) items then value_ (buffered_amount_ s) else wrap 64 (value_ (buffered_amount_ s) - removed))
    ∧ focus q0 sid (s <| buffered_amount_ := w |>) (delta - removed) q'.
Proof.
  revert q1 s delta. induction items as [|i items IH]; intros q1 s delta Hfo; cbn [drop_unsent fold_right].
  { split; [done|]. exists (buffered_amount_ s). split; [done|]. rewrite Z.sub_0_r. by destruct s. }
  rewrite filter_cons. cbn [forallb]. destruct (Z.eqb_spec (remaining_offset i) 0) as [E|E]; cbn [negb andb].
  - rewrite decide_False by auto. apply (focus_expired _ _ _ _ _ i) in Hfo. specialize (IH _ _ _ Hfo).
    destruct (drop_unsent sid items _) as [remains q']. destruct IH as (-> & w & Hv & Hfo'). split; [done|]. exists w. split.
    + rewrite Hv. cbn. destruct (forallb _ items) eqn:Eall.
      * f_equal. assert (fold_right (λ j n, (if remaining_offset j =? 0 then remaining_size j else 0) + n) 0 items = 0) as ->; [|lia].
        clear -Eall. induction items as [|j items IH]; cbn in *; [done|]. apply andb_true_iff in Eall as [Ej Eall].
        destruct (remaining_offset j =? 0); [done|]. rewrite (IH Eall). done.
      * set (removed := fold_right _ _ _). etransitivity; [exact (wrap_plus 64 (value_ (buffered_amount_ s) - remaining_size i) (- removed) ltac:(done))|].
        f_equal. lia.
    + eapply focus_ext; [exact Hfo'|]. lia.
  - rewrite decide_True by done. specialize (IH _ _ _ Hfo). destruct (drop_unsent sid items q1) as [remains q'].
    destruct IH as (-> & w & Hv & Hfo'). split; [done|]. exists w. rewrite Z.add_0_l. auto.
Qed.

(** What a stream drops and keeps when it is paused. *)
Definition pause_keeps (s : OutgoingStream) : list Message := filter (λ i, remaining_offset i ≠ 0) (items_ s).

Lemma pause_keeps_spec sid s : stream_wf sid s →
  fold_right (λ i n, (if remaining_offset i =? 0 then remaining_size i else 0) + n) 0 (items_ s)
    = pending s - fold_right (λ i n, remaining_size i + n) 0 (pause_keeps s)
  ∧ match items_ s with
    | i :: _ => if remaining_offset i =? 0 then pause_keeps s = [] else pause_keeps s = [i] ∧ queued_mid i ≠ None
    | [] => pause_keeps s = []
    end.
Proof.
  intros Hw. assert (∀ l, fold_right (λ i n, (if remaining_offset i =? 0 then remaining_size i else 0) + n) 0 l
    = fold_right (λ i n, remaining_size i + n) 0 l - fold_right (λ i n, remaining_size i + n) 0 (filter (λ i, remaining_offset i ≠ 0) l)) as Hsum.
  { induction l as [|i l IH]; [done|]. rewrite filter_cons. cbn [fold_right]. rewrite IH. destruct (Z.eqb_spec (remaining_offset i) 0);
      [rewrite decide_False by auto | rewrite decide_True by done; cbn [fold_right]]; lia. }
  split; [apply Hsum|]. unfold pause_keeps. pose proof (sw_messages _ _ Hw) as Hm. pose proof (sw_tail _ _ Hw) as Ht.
  destruct (items_ s) as [|i rest]; [done|]. cbn [tail] in Ht. apply list.Forall_cons in Hm as [[_ _ _ _ Hbeg] _].
  assert (filter (λ j, remaining_offset j ≠ 0) rest = []) as Hr.
  { clear -Ht. induction Ht as [|j rest Hj _ IH]; [done|]. rewrite filter_cons, decide_False; [done|]. rewrite Hj. auto. }
  rewrite filter_cons. destruct (Z.eqb_spec (remaining_offset i) 0); [rewrite decide_False by auto; done|]. rewrite decide_True, Hr by done.
  split; [done|]. intros E%Hbeg. done.
Qed.

Lemma paused_wf sid s w p : stream_wf sid s → value_ w = wrap 64 (fold_right (λ i n, remaining_size i + n) 0 (pause_keeps s)) →
  p = (match pause_keeps s with [] => kPaused | i :: _ => if remaining_offset i =? 0 then kPaused else kPending end) →
  stream_wf sid (s <| buffered_amount_ := w |> <| items_ ::= (λ _, pause_keeps s) |> <| pause_state_ := p |>).
Proof.
  intros Hw Hv ->. destruct (pause_keeps_spec sid s Hw) as [_ Hk]. pose proof (sw_messages _ _ Hw) as Hm. destruct Hw as [_ _ _ _ _ _ Hc Hn].
  destruct (items_ s) as [|i rest]; [rewrite Hk in *; by split; cbn; try constructor|]. apply list.Forall_cons in Hm as [Hi _].
  destruct (Z.eqb_spec (remaining_offset i) 0) as [Eo|Eo]; [rewrite Hk in *; by split; cbn; try constructor|].
  destruct Hk as [Ek Hmid]. rewrite Ek in *. rewrite (proj2 (Z.eqb_neq _ _)) by done. split; cbn; try done.
  - by constructor.
  - by intros j [= <-].
  - by intros [?|?].
  - intros _. by exists i.
Qed.

Lemma Pause_wf sid s q : queue_wf q → map_find sid (streams_ q) = Some s → queue_wf (Pause sid q).
Proof.
  intros Hq Hf. unfold Pause. rewrite (stream_of_found q sid s Hf). destruct (decide (pause_state_ s = kNotPaused)) as [Hnp|]; [|done].
  pose proof (qw_streams _ q Hq sid s Hf) as Hw. destruct (pause_keeps_spec sid s Hw) as [Hsum Hk].
  pose proof (drop_unsent_focus (items_ s) q q sid s 0 (focus_refl _ q sid s Hq Hf)) as Hdrop.
  destruct (drop_unsent sid (items_ s) q) as [remains q1]. destruct Hdrop as (-> & w & Hv & Hfo). fold (pause_keeps s). set (p := match pause_keeps s with [] => _ | _ => _ end).
  set (s' := s <| buffered_amount_ := w |> <| items_ ::= (λ _, pause_keeps s) |> <| pause_state_ := p |>).
  assert (stream_wf sid s') as Hw'.
  { apply paused_wf; [done| |done]. rewrite Hv, Hsum, (sw_buffered _ _ Hw). destruct (forallb _ (items_ s)) eqn:Eall.
    - f_equal. assert (pause_keeps s = items_ s) as ->; [|done]. unfold pause_keeps. clear -Eall. induction (items_ s) as [|i l IH]; [done|].
      cbn in Eall. apply andb_true_iff in Eall as [Ei El]. rewrite filter_cons, decide_True by (destruct (Z.eqb_spec (remaining_offset i) 0); done). f_equal. auto.
    - set (k := fold_right _ _ _). etransitivity; [exact (wrap_plus 64 (pending s) (- (pending s - k)) ltac:(done))|]. f_equal. lia. }
  apply (focus_items _ _ _ _ _ (λ _, pause_keeps s)), (focus_pause _ _ _ _ _ p) in Hfo. fold s' in Hfo. set (q' := set_pause sid p _) in *.
  assert (pending s' - pending s = 0 - fold_right (λ i n, (if remaining_offset i =? 0 then remaining_size i else 0) + n) 0 (items_ s)) as Hpend.
  { rewrite Hsum. unfold pending at 1. cbn. lia. }
  assert (∀ i0, head (items_ s) = Some i0 → queued_mid i0 ≠ None → ∃ i, head (items_ s') = Some i ∧ queued_mid i ≠ None) as Hhead.
  { pose proof (sw_messages _ _ Hw) as Hm. cbn. destruct (items_ s) as [|i rest]; [done|]. intros i0 [= <-] Hmid.
    apply list.Forall_cons in Hm as [[_ _ _ _ Hbeg] _]. destruct (Z.eqb_spec (remaining_offset i) 0) as [E|]; [by apply Hbeg in E|].
    destruct Hk as [-> _]. by exists i. }
  destruct (items_ s) as [|i rest] eqn:Hi; cbn [andb].
  - apply (focus_wf q sid s s' _ q' Hq Hf Hfo Hw'); [lia| |by rewrite Hi]. unfold bytes_to_send_in_next_message. cbn. rewrite Hk, Hi. destruct p, (pause_state_ s); lia.
  - destruct (bool_decide_reflect (p = kPaused)) as [Hp|Hp].
    + apply (MakeInactive_wf sid s'); [|by eapply focus_found|unfold bytes_to_send_in_next_message; cbn; by rewrite Hp].
      eapply (focus_but (λ _, True) q sid s); [done|done|done|done|done|lia|by rewrite Hi].
    + apply (focus_wf q sid s s' _ q' Hq Hf Hfo Hw'); [lia| |by rewrite Hi]. unfold bytes_to_send_in_next_message. cbn. rewrite Hi, Hnp.
      subst p. destruct (remaining_offset i =? 0) eqn:E; [by rewrite Hk in Hp|]. destruct Hk as [-> _]. by rewrite E.
Qed.

Lemma PrepareResetStream_wf sid q : queue_wf q → queue_wf (PrepareResetStream sid q).
Proof. intros Hq. destruct (get_or_create_wf sid q Hq) as (Hq' & [s Hf] & _). by apply (Pause_wf sid s). Qed.

(** ** Resetting streams *)

(** A loop over some of the streams. *)
Lemma fold_streams (I : RRSendQueue → Prop) (P : OutgoingStream → Prop) (f : Z → RRSendQueue → RRSendQueue) l q :
  (∀ sid s q, I q → map_find sid (streams_ q) = Some s → P s →
    I (f sid q) ∧ ∀ x, x ≠ sid → map_find x (streams_ (f sid q)) = map_find x (streams_ q)) →
  NoDup l → (∀ sid, sid ∈ l → ∃ s, map_find sid (streams_ q) = Some s ∧ P s) → I q → I (foldl (λ q sid, f sid q) q l).
Proof.
  intros Hstep Hnd. revert q. induction Hnd as [|sid l Hn Hnd IH]; intros q Hall Hq; [done|]. cbn [foldl].
  destruct (Hall sid) as (s & Hf & HP); [by left|]. destruct (Hstep sid s q Hq Hf HP) as [Hq' Hx]. apply IH; [|done].
  intros x Hin. rewrite Hx by (intros ->; done). apply Hall. by right.
Qed.

Lemma stream_ids_spec I P q : queue_inv I q →
  NoDup (stream_ids P q) ∧ StronglySorted Z.le (stream_ids P q)
  ∧ ∀ sid, sid ∈ stream_ids P q ↔ ∃ s, map_find sid (streams_ q) = Some s ∧ P s = true.
Proof.
  intros Hq. assert (ascending (stream_ids P q)) as Hasc.
  { pose proof (qw_keys _ q Hq) as Hk. unfold stream_ids. induction (streams_ q) as [|[k s] m IH]; [constructor|]. cbn [map fst] in Hk.
    inversion Hk as [|? ? Hk' Hall]; subst. rewrite filter_cons. case_decide; [|auto]. cbn [map fst]. constructor; [auto|].
    apply Forall_forall. intros x Hx. change (x ∈ fst <$> filter (λ p, P p.2 = true) (m : list (Z * OutgoingStream))) in Hx.
    apply list_elem_of_fmap in Hx as (p & -> & [_ Hp]%list_elem_of_filter). eapply Forall_forall in Hall; [exact Hall|]. by apply list_elem_of_fmap_2. }
  repeat split.
  - clear -Hasc. induction Hasc as [|x l _ IH Hall]; constructor; [|done]. intros Hx. eapply Forall_forall in Hall; [|exact Hx]. cbn in Hall. lia.
  - clear -Hasc. induction Hasc as [|x l _ IH Hall]; constructor; [done|]. eapply Forall_impl; [exact Hall|]. cbn. lia.
  - unfold stream_ids. intros (p & -> & [HP Hp]%list_elem_of_filter)%list_elem_of_fmap. exists p.2. split; [|done].
    apply elem_map_find; [apply Hq|]. by destruct p.
  - intros (s & Hf & HP). apply list_elem_of_fmap. exists (sid, s). split; [done|]. apply list_elem_of_filter. split; [done|]. by apply map_find_elem.
Qed.

Lemma put_others sid s q x : x ≠ sid → map_find x (streams_ (put_stream sid s q)) = map_find x (streams_ q).
Proof. intros Hx. cbn. by rewrite map_find_put, (proj2 (Z.eqb_neq _ _)). Qed.

Lemma maybe_active_others sid q x : x ≠ sid → map_find x (streams_ (MaybeMakeActive sid q)) = map_find x (streams_ q).
Proof. intros Hx. unfold MaybeMakeActive. destruct (_ =? 0); [done|]. exact (put_others sid _ q x Hx). Qed.

Lemma idle_not_active q sid s : queue_wf q → map_find sid (streams_ q) = Some s → pause_state_ s = kPaused ∨ pause_state_ s = kResetting → sid ∉ active_streams_ q.
Proof.
  intros Hq Hf Hp Hin. apply (qw_active _ q Hq sid I) in Hin as (s' & Hf' & Hb). rewrite Hf in Hf'. injection Hf' as <-.
  destruct (active_not_paused s Hb) as (? & ? & _). tauto.
Qed.

(** A stream in which nothing is begun may change its pause state. *)
Lemma set_pause_but sid s p q : queue_wf q → map_find sid (streams_ q) = Some s → pause_state_ s = kPaused ∨ pause_state_ s = kResetting →
  p ≠ kPending → let s' := s <| pause_state_ := p |> in
  queue_wf_but sid (set_pause sid p q) ∧ map_find sid (streams_ (set_pause sid p q)) = Some s' ∧ active_streams_ (set_pause sid p q) = active_streams_ q.
Proof.
  intros Hq Hf Hp Hn s'. pose proof (qw_streams _ q Hq sid s Hf) as Hw. pose proof (sw_paused _ _ Hw Hp) as Hh.
  pose proof (focus_pause _ _ _ _ _ p (focus_refl _ q sid s Hq Hf)) as Hfo. fold s' in Hfo.
  split; [|split; [by eapply focus_found|done]].
  eapply (focus_but (λ _, True) q sid s); [done|done|done|done| |exact (eq_sym (Z.sub_diag (pending s)))|].
  - destruct Hw. split; try done.
  - intros _ i0 Hi Hm. by apply Hh in Hi.
Qed.

Lemma GetStreamsReadyToBeReset_wf q : queue_wf q → queue_wf (GetStreamsReadyToBeReset q).2.
Proof.
  intros Hq. destruct (stream_ids_spec _ IsReadyToBeReset q Hq) as (Hnd & _ & Hin). cbn [GetStreamsReadyToBeReset snd].
  apply (fold_streams queue_wf (λ s, pause_state_ s = kPaused) (λ sid, set_pause sid kResetting)); [|done| |done].
  - intros sid s q1 Hq1 Hf Hp. split; [|intros x; apply put_others].
    destruct (set_pause_but sid s kResetting q1 Hq1 Hf (or_introl Hp) ltac:(done)) as (Hb & Hf' & Ha). apply (but_wf sid _ _ Hb Hf'). rewrite Ha.
    pose proof (idle_not_active q1 sid s Hq1 Hf (or_introl Hp)). by split.
  - intros sid (s & Hf & Hr)%Hin. exists s. split; [done|]. by apply bool_decide_eq_true_1 in Hr.
Qed.

Lemma RollbackResetStreams_wf q : queue_wf q → queue_wf (RollbackResetStreams q).
Proof.
  intros Hq. destruct (stream_ids_spec _ IsResetting q Hq) as (Hnd & _ & Hin).
  apply (fold_streams queue_wf (λ s, pause_state_ s = kResetting) Resume); [|done| |done].
  - intros sid s q1 Hq1 Hf Hp. split; [|intros x Hx; unfold Resume; rewrite maybe_active_others by done; by apply put_others].
    destruct (set_pause_but sid s kNotPaused q1 Hq1 Hf (or_intror Hp) ltac:(done)) as (Hb & Hf' & Ha). apply (MaybeMakeActive_wf sid _ _ Hb Hf'). rewrite Ha.
    by apply (idle_not_active q1 sid s Hq1 Hf); right.
  - intros sid (s & Hf & Hr)%Hin. exists s. split; [done|]. by apply bool_decide_eq_true_1 in Hr.
Qed.

(** The stream after a reset. *)
Definition reset_stream (s : OutgoingStream) : OutgoingStream :=
  let s := s <| pause_state_ := kNotPaused |> <| next_ordered_mid_ := 0 |> <| next_unordered_mid_ := 0 |> <| next_ssn_ := 0 |> in
  match items_ s with
  | [] => s
  | i :: rest => s <| buffered_amount_ ::= Increase (message_size (message i) - remaining_size i) |>
      <| items_ ::= (λ _, Message_new (message_id i) (message i) (attributes i) :: rest) |>
  end.
Definition reset_bytes (s : OutgoingStream) : Z := match items_ s with [] => 0 | i :: _ => message_size (message i) - remaining_size i end.

Lemma reset_stream_wf sid s : stream_wf sid s → stream_wf sid (reset_stream s) ∧ pending (reset_stream s) = pending s + reset_bytes s
  ∧ (0 < bytes_to_send_in_next_message (reset_stream s) ↔ items_ s ≠ []).
Proof.
  intros Hw. unfold reset_stream, reset_bytes, bytes_to_send_in_next_message, pending. destruct s as [p nu no ns items b pr iw c n]. cbn in *.
  destruct items as [|i rest]; cbn; [split; [destruct Hw; by split|by split]|].
  pose proof (sw_buffered _ _ Hw) as Hb. pose proof (Forall_inv (sw_messages _ _ Hw)) as Hm. cbn in Hm.
  assert (message_wf sid (Message_new (message_id i) (message i) (attributes i)) ∧ 0 < message_size (message i)) as [Hm' Hpos].
  { destruct Hm as [Hst ? ? ? ?]. assert (0 < message_size (message i)) by lia. split; [|done]. by split. }
  split; [|split; [lia|done]]. destruct Hw as [Hms _ Ht _ _ _ Hc Hn]. cbn in *. split; cbn; try done.
  - constructor; [done|]. by inversion Hms.
  - by intros j [= <-].
  - rewrite Hb, wrap_plus by done. unfold pending. cbn. f_equal. lia.
  - by intros [?|?].
Qed.

Lemma Stream_Reset_focus sid s q : queue_wf q → map_find sid (streams_ q) = Some s → ∃ q1,
  focus q sid (reset_stream s) (reset_bytes s) q1 ∧ Stream_Reset sid q = match items_ s, pause_state_ s with
    | _ :: _, (kPaused | kResetting) => MaybeMakeActive sid q1
    | _, _ => q1
    end.
Proof.
  intros Hq Hf. unfold Stream_Reset. rewrite (stream_of_found q sid s Hf). pose proof (focus_refl _ q sid s Hq Hf) as Hfo.
  apply (focus_put) with (s' := s <| pause_state_ := kNotPaused |> <| next_ordered_mid_ := 0 |> <| next_unordered_mid_ := 0 |> <| next_ssn_ := 0 |>) in Hfo.
  set (s1 := s <| pause_state_ := _ |> <| _ := _ |> <| _ := _ |> <| _ := _ |>) in *. rewrite (focus_stream Hfo).
  unfold reset_stream, reset_bytes. fold s1. change (items_ s1) with (items_ s). destruct (items_ s) as [|i rest]; [eauto|].
  eexists. split; [|done]. apply focus_items. eapply focus_ext; [by apply focus_increase|]. lia.
Qed.

Lemma Stream_Reset_wf sid s q : queue_wf q → map_find sid (streams_ q) = Some s →
  (currently_sending_a_message_ q = true → pause_state_ s = kResetting) →
  queue_wf (Stream_Reset sid q) ∧ currently_sending_a_message_ (Stream_Reset sid q) = currently_sending_a_message_ q
  ∧ ∀ x, x ≠ sid → map_find x (streams_ (Stream_Reset sid q)) = map_find x (streams_ q).
Proof.
  intros Hq Hf Hflag. destruct (Stream_Reset_focus sid s q Hq Hf) as (q1 & Hfo & ->). pose proof (qw_streams _ q Hq sid s Hf) as Hw.
  destruct (reset_stream_wf sid s Hw) as (Hw' & Hpend & Hbytes).
  assert (queue_wf_but sid q1) as Hb.
  { eapply (focus_but (λ _, True) q sid s); [done|done|done|done|done|lia|].
    intros Hc i0 Hi Hm. by apply (sw_paused _ _ Hw (or_intror (Hflag Hc))) in Hi. }
  assert (∀ x, x ≠ sid → map_find x (streams_ q1) = map_find x (streams_ q)) as Ho.
  { intros x Hx. by rewrite (fo_streams _ _ _ _ _ Hfo), map_find_put, (proj2 (Z.eqb_neq _ _)). }
  pose proof (fo_sending _ _ _ _ _ Hfo) as Hse. pose proof (focus_found Hfo) as Hf1.
  assert (∀ x, x ≠ sid → map_find x (streams_ (MaybeMakeActive sid q1)) = map_find x (streams_ q)) as Ho'
    by (intros x Hx; rewrite maybe_active_others; auto).
  assert (currently_sending_a_message_ (MaybeMakeActive sid q1) = currently_sending_a_message_ q) as Hse'
    by (unfold MaybeMakeActive; by destruct (_ =? 0)).
  assert (pause_state_ s = kPaused ∨ pause_state_ s = kResetting → sid ∉ active_streams_ q1) as Hidle.
  { intros Hp. rewrite (fo_active _ _ _ _ _ Hfo). by apply (idle_not_active q sid s). }
  assert (((sid ∈ active_streams_ q1) ↔ items_ s ≠ []) → queue_wf q1) as Hkeep by (intros H; apply (but_wf sid _ _ Hb Hf1); tauto).
  assert (pause_state_ s = kNotPaused ∨ pause_state_ s = kPending ∨ items_ s = [] → queue_wf q1) as Hkeep'.
  { intros Hp. apply Hkeep. rewrite (fo_active _ _ _ _ _ Hfo), (qw_active _ q Hq sid I). rewrite Hf. split.
    - intros (? & [= <-] & Hpos). by apply active_not_paused.
    - intros Hne. exists s. split; [done|]. unfold bytes_to_send_in_next_message. destruct (items_ s) as [|i rest] eqn:Hi; [done|].
      pose proof (head_size sid s i rest Hw Hi). destruct Hp as [->|[->|?]]; done. }
  destruct (items_ s) as [|i rest] eqn:Hi; [auto|]. destruct (pause_state_ s) eqn:Hp; [by auto|by auto| |];
    (split; [apply (MaybeMakeActive_wf sid _ _ Hb Hf1), Hidle; by auto|auto]).
Qed.

Lemma CommitResetStreams_wf q : queue_wf q → queue_wf (CommitResetStreams q).
Proof.
  intros Hq. destruct (stream_ids_spec _ IsResetting q Hq) as (Hnd & _ & Hin).
  apply (fold_streams queue_wf (λ s, pause_state_ s = kResetting) Stream_Reset); [|done| |done].
  - intros sid s q1 Hq1 Hf Hp. destruct (Stream_Reset_wf sid s q1 Hq1 Hf) as (? & _ & ?); auto.
  - intros sid (s & Hf & Hr)%Hin. exists s. split; [done|]. by apply bool_decide_eq_true_1 in Hr.
Qed.

(** Whether a message is being sent matters to none of the steps of a reset. *)
Lemma active_emplace_force q sid l : active_emplace (ForceReschedule q) sid l = active_emplace q sid l.
Proof. induction l as [|x l IH]; [done|]. cbn [active_emplace]. by rewrite IH. Qed.

Lemma MaybeMakeActive_force sid q : MaybeMakeActive sid (ForceReschedule q) = ForceReschedule (MaybeMakeActive sid q).
Proof.
  unfold MaybeMakeActive. change (stream_of (ForceReschedule q) sid) with (stream_of q sid). destruct (_ =? 0); [done|].
  unfold MakeActive. change (stream_of (ForceReschedule q) sid) with (stream_of q sid).
  set (s := _ <| current_virtual_time_ := _ |>). set (n := CalculateFinishTime q s _).
  pose proof (active_emplace_force (put_stream sid (s <| next_finish_time_ := n |>) q) sid (active_streams_ q)) as E.
  unfold ForceReschedule. cbn. unfold set_field. cbn. f_equal. exact E.
Qed.

Lemma Stream_Reset_force sid q : Stream_Reset sid (ForceReschedule q) = ForceReschedule (Stream_Reset sid q).
Proof.
  unfold Stream_Reset. change (stream_of (ForceReschedule q) sid) with (stream_of q sid).
  set (s := stream_of q sid <| pause_state_ := _ |> <| _ := _ |> <| _ := _ |> <| _ := _ |>).
  change (put_stream sid s (ForceReschedule q)) with (ForceReschedule (put_stream sid s q)).
  change (stream_of (ForceReschedule (put_stream sid s q)) sid) with (stream_of (put_stream sid s q) sid).
  destruct (items_ _) as [|i rest]; [done|]. set (q1 := put_stream sid s q). set (n := message_size _ - _). set (g := λ _, _ :: rest).
  change (update_items sid g (increase_buffered sid n (ForceReschedule q1))) with (ForceReschedule (update_items sid g (increase_buffered sid n q1))).
  destruct (pause_state_ _); [done|done|apply MaybeMakeActive_force|apply MaybeMakeActive_force].
Qed.

Lemma Queue_Reset_wf q : queue_wf q → queue_wf (Queue_Reset q).
Proof.
  intros Hq. unfold Queue_Reset. destruct (stream_ids_spec _ (λ _, true) q Hq) as (Hnd & _ & Hin).
  apply (fold_streams (λ q, queue_wf (ForceReschedule q)) (λ _, True) Stream_Reset); [|done| |by apply ForceReschedule_wf].
  - intros sid s q1 Hq1 Hf _. destruct (Stream_Reset_wf sid s (ForceReschedule q1) Hq1 Hf ltac:(done)) as (H1 & _ & H2).
    rewrite Stream_Reset_force in H1, H2. done.
  - intros sid (s & Hf & _)%Hin. by exists s.
Qed.

(** ** Every operation *)

Inductive Op :=
| OpAdd (now : Z) (msg : DcSctpMessage) (o : SendOptions)
| OpProduce (now max_size : Z)
| OpDiscard (sid id : Z)
| OpPrepareReset (sid : Z)
| OpGetReady
| OpCommit
| OpRollback
| OpReset
| OpLowThreshold (sid bytes : Z)
| OpPriority (sid priority : Z).

(** What the callers guarantee: [RTC_DCHECK(!message.payload().empty())], and room for a byte. *)
Definition op_ok (op : Op) : Prop :=
  match op with OpAdd _ msg _ => message_payload_ msg ≠ [] | OpProduce _ max_size => 0 < max_size | _ => True end.
#[export] Instance op_ok_dec op : Decision (op_ok op).
Proof. destruct op; cbn; apply _. Defined.

(** An operation, and the chunks that leave the queue. *)
Definition apply_op (op : Op) : M RRSendQueue (list DataToSend) :=
  match op with
  | OpProduce now max_size => let! r := Queue_Produce now max_size in ret (option_list r)
  | OpAdd now msg o => modify (Queue_Add now msg o) ;; ret []
  | OpDiscard sid id => modify (λ q, (Queue_Discard sid id q).2) ;; ret []
  | OpPrepareReset sid => modify (PrepareResetStream sid) ;; ret []
  | OpGetReady => modify (λ q, (GetStreamsReadyToBeReset q).2) ;; ret []
  | OpCommit => modify CommitResetStreams ;; ret []
  | OpRollback => modify RollbackResetStreams ;; ret []
  | OpReset => modify Queue_Reset ;; ret []
  | OpLowThreshold sid bytes => modify (SetBufferedAmountLowThreshold sid bytes) ;; ret []
  | OpPriority sid priority => modify (SetStreamPriority sid priority) ;; ret []
  end.
Fixpoint apply_ops (ops : list Op) : M RRSendQueue (list DataToSend) :=
  match ops with
  | [] => ret []
  | op :: ops' => let! l := apply_op op in let! l' := apply_ops ops' in ret (l ++ l')
  end.

Lemma put_wf sid s s' q : queue_wf q → map_find sid (streams_ q) = Some s → same_core s s' →
  value_ (buffered_amount_ s') = value_ (buffered_amount_ s) → current_virtual_time_ s' = current_virtual_time_ s → next_finish_time_ s' = next_finish_time_ s →
  queue_wf (put_stream sid s' q).
Proof.
  intros Hq Hf (Hi & Hn & Hp) Hb Hc Hx. pose proof (qw_streams _ q Hq sid s Hf) as Hw.
  apply (focus_wf q sid s s' 0 _ Hq Hf (focus_put (focus_refl _ q sid s Hq Hf) s')).
  - destruct Hw. split; unfold pending in *; rewrite ?Hi, ?Hp, ?Hb, ?Hc, ?Hx; done.
  - unfold pending. rewrite Hi. lia.
  - unfold bytes_to_send_in_next_message. by rewrite Hi, Hp.
  - rewrite Hi. eauto.
Qed.

Lemma SetBufferedAmountLowThreshold_wf sid bytes q : queue_wf q → queue_wf (SetBufferedAmountLowThreshold sid bytes q).
Proof.
  intros Hq. unfold SetBufferedAmountLowThreshold. destruct (get_or_create_wf sid q Hq) as (Hq' & [s Hf] & _).
  rewrite (stream_of_found _ sid s Hf). cbn [SetLowThreshold]. set (w := buffered_amount_ s <| low_threshold_ := bytes |>).
  assert (queue_wf (put_stream sid (s <| buffered_amount_ := w |>) (GetOrCreateStreamInfo sid q))) as Hw by (by apply (put_wf sid s)).
  destruct (_ && _); [|done]. destruct Hw. by split.
Qed.

Lemma SetStreamPriority_wf sid priority q : queue_wf q → queue_wf (SetStreamPriority sid priority q).
Proof.
  intros Hq. unfold SetStreamPriority. destruct (get_or_create_wf sid q Hq) as (Hq' & [s Hf] & _).
  rewrite (stream_of_found _ sid s Hf). by apply (put_wf sid s).
Qed.

Lemma wp_modify_ret (f : RRSendQueue → RRSendQueue) (Q : list DataToSend → RRSendQueue → Prop) q : Q [] (f q) → wp (modify f ;; ret []) Q q.
Proof. done. Qed.

Lemma apply_op_wf op q : queue_wf q → op_ok op → wp (apply_op op) (λ _, queue_wf) q.
Proof.
  intros Hq Hok. destruct op; cbn [apply_op op_ok] in *; try solve [apply wp_modify_ret;
    eauto using Queue_Add_wf, Queue_Discard_wf, PrepareResetStream_wf, GetStreamsReadyToBeReset_wf, CommitResetStreams_wf,
      RollbackResetStreams_wf, Queue_Reset_wf, SetBufferedAmountLowThreshold_wf, SetStreamPriority_wf].
  apply wp_bind. eapply wp_mono; [|by apply Queue_Produce_spec]. intros [chunk|] q'; [intros [sid H]; apply H|by intros (? & _)].
Qed.

Lemma RRSendQueue_new_wf mtu priority threshold : queue_wf (RRSendQueue_new mtu priority threshold).
Proof. split; try done; cbn; [constructor|constructor|]. intros sid _. rewrite elem_of_nil. split; [done|by intros (? & ? & _)]. Qed.

(** ** The checks of the debug build *)

Lemma wrapped_sum {A} (f g : A → Z) l : Forall (λ a, f a = wrap 64 (g a)) l →
  fold_right (λ a n, wrap 64 (f a + n)) 0 l = wrap 64 (fold_right (λ a n, g a + n) 0 l).
Proof.
  induction 1 as [|a l Ha _ IH]; [done|]. cbn [fold_right]. rewrite IH, Ha, wrap_plus, Z.add_comm, wrap_plus by done. f_equal. lia.
Qed.

Lemma Stream_IsConsistent_wf sid s : stream_wf sid s → Stream_IsConsistent s = true.
Proof.
  intros Hw. apply Z.eqb_eq. rewrite (sw_buffered _ _ Hw). unfold pending.
  assert (∀ l, Forall (message_wf sid) l → fold_right (λ i n, wrap 64 (remaining_size i + n)) 0 l = wrap 64 (fold_right (λ i n, remaining_size i + n) 0 l)) as H.
  { induction 1 as [|i l _ _ IH]; [done|]. cbn [fold_right]. rewrite IH, Z.add_comm, wrap_plus by done. f_equal. lia. }
  apply H, Hw.
Qed.

Lemma Queue_IsConsistent_wf q : queue_wf q → Queue_IsConsistent q = true.
Proof.
  intros Hq. apply andb_true_iff. split.
  - apply bool_decide_eq_true_2. destruct (stream_ids_spec _ (λ s, 0 <? bytes_to_send_in_next_message s) q Hq) as (Hnd & Hs & Hin).
    apply (StronglySorted_unique Z.le); [done|apply (StronglySorted_merge_sort Z.le)|].
    etransitivity; [|symmetry; apply merge_sort_Permutation]. apply NoDup_Permutation; [done|apply Hq|]. intros sid.
    rewrite Hin, (qw_active _ q Hq sid I). by setoid_rewrite Z.ltb_lt.
  - apply Z.eqb_eq. rewrite (qw_total _ q Hq), (wrapped_sum (λ p, value_ (buffered_amount_ p.2)) (λ p, pending p.2)).
    + f_equal. clear. induction (streams_ q) as [|[k s] m IH]; [done|]. cbn. by rewrite <- IH.
    + apply Forall_forall. intros [k s] Hin. apply (sw_buffered k). apply (qw_streams _ q Hq). apply elem_map_find; [apply Hq|done].
Qed.

(** C25: The bookkeeping of the send queue never goes wrong: after any sequence of its operations,
    none of which faults, every stream has counted the bytes that it still has to send, the
    queue has counted those of all streams, and the streams that the scheduler chooses from
    are exactly those that have something to send and may send it: what both [IsConsistent]
    check. *)
Theorem send_queue_consistent mtu priority threshold ops : Forall op_ok ops →
  wp (apply_ops ops) (λ _ q, Queue_IsConsistent q = true ∧ Forall (λ p, Stream_IsConsistent p.2 = true) (streams_ q : list (Z * OutgoingStream)))
    (RRSendQueue_new mtu priority threshold).
Proof.
  intros Hok. assert (∀ q, queue_wf q → wp (apply_ops ops) (λ _, queue_wf) q) as H.
  { clear mtu priority threshold. induction Hok as [|op ops Hop _ IH]; intros q Hq; cbn [apply_ops]; [by apply wp_ret|].
    apply wp_bind. eapply wp_mono; [|by apply apply_op_wf]. intros l q' Hq'. apply wp_bind. eapply wp_mono; [|by apply IH]. done. }
  eapply wp_mono; [|apply H, RRSendQueue_new_wf]. intros l q Hq. split; [by apply Queue_IsConsistent_wf|].
  apply Forall_forall. intros [k s] Hin. apply (Stream_IsConsistent_wf k), (qw_streams _ q Hq), elem_map_find; [apply Hq|done].
Qed.

(** A chunk that is produced carries data and fits. *)
Lemma chunk_from_size now max_size q sid chunk q' : queue_wf q → 0 < max_size → chunk_from now max_size q sid chunk q' →
  0 < data_size (to_send_data chunk) ≤ max_size.
Proof.
  intros Hq Hmax [_ _ _ _ _ (s & s1 & s' & Hf & Hp & _ & _)]. pose proof (qw_streams _ q Hq sid s Hf) as Hw.
  destruct Hp as [skipped i rest t Hi _ _ _ _ _ _]. pose proof (sw_messages _ _ Hw) as Hm. rewrite Hi in Hm.
  apply Forall_app in Hm as [_ [[_ Ho Hr Hs _] _]%list.Forall_cons]. unfold front_chunk. pose proof (allocate_numbers_facts i t) as Ha.
  destruct (allocate_numbers i t) as [i1 t1]. destruct Ha as (Hmid & Hmsg & _ & _ & Hoff & Hrem & _). cbn [fst].
  pose proof (next_fragment_facts sid max_size i1) as Hn. rewrite Hoff, Hrem, Hmsg in Hn. destruct (next_fragment max_size i1) as [chunk remains].
  destruct Hn as (Hsize & _); [auto|done|]. cbn [fst]. lia.
Qed.

#[export] Instance RRSendQueue_laws : SendQueueLaws RRSendQueue.
Proof.
  refine {| queue_ok := queue_wf |}; [|intros; by apply Queue_Discard_wf]. intros now max_size q Hq Hmax.
  eapply wp_mono; [|by apply Queue_Produce_spec]. intros [chunk|] q'; [|by intros (? & _)].
  intros [sid Hcf]. split; [apply Hcf|]. intros c [= <-]. by eapply chunk_from_size.
Defined.

Definition plain_options : SendOptions := mkSendOptions false None None NotSet.
Definition reset_ops : list Op :=
  [OpAdd 0 (mkMessage 1 53 [1; 2; 3; 4; 5]) plain_options; OpProduce 0 2; OpAdd 1 (mkMessage 1 53 [9; 8]) plain_options; OpPrepareReset 1;
   OpAdd 1 (mkMessage 2 53 [7]) plain_options; OpProduce 1 2; OpProduce 1 2; OpGetReady; OpLowThreshold 2 1; OpAdd 2 (mkMessage 1 53 [6; 6]) plain_options;
   OpCommit; OpProduce 3 1; OpReset; OpPriority 2 500; OpProduce 3 1; OpDiscard 1 3; OpPrepareReset 1; OpGetReady; OpRollback].

Lemma send_queue_consistent_witness :
  wp (apply_ops reset_ops) (λ _ q, Queue_IsConsistent q = true ∧ Forall (λ p, Stream_IsConsistent p.2 = true) (streams_ q : list (Z * OutgoingStream)))
    (RRSendQueue_new 1200 256 0).
Proof. apply (send_queue_consistent 1200 256 0 reset_ops), (bool_decide_eq_true_1 (Forall op_ok reset_ops)). vm_compute. reflexivity. Defined.
