(* ===== verification/Fragmentation.v ===== *)
(** * What leaves the send queue (includes/webrtc/net/dcsctp/tx/rr_send_queue.cc)

    The chunks that [RRSendQueue::Produce] returns over a whole run: which messages they
    belong to, in which order, how the messages are cut and numbered. *)

From S2P Require Import Prelude SctpTimer SctpWire Reassembly SendQueue RRSendQueue.
Open Scope Z_scope.

(** ** Messages in flight *)

(** A message with the numbers it got and the pieces its payload was cut into so far. *)
Record flight := mkFlight {
  fl_id : Z;
  fl_message : DcSctpMessage;
  fl_attributes : MessageAttributes;
  fl_mid : Z;
  fl_ssn : Z;
  fl_pieces : list (list Z)
}.

Definition piece_chunk (f : flight) (j : nat) (last : bool) (bytes : list Z) : DataToSend :=
  let a := fl_attributes f in
  mkToSend (fl_id f)
    (mkData (message_stream_id_ (fl_message f)) (fl_ssn f) (fl_mid f) (wrap 32 (Z.of_nat j)) (message_ppid_ (fl_message f)) bytes
       (j =? 0)%nat last (attr_unordered a))
    (attr_max_retransmissions a) (attr_expires_at a) (if last then attr_lifecycle_id a else NotSet).

(** The chunks of a message of which all, or only some, pieces were sent. *)
Definition whole_chunks (f : flight) : list DataToSend := imap (λ j, piece_chunk f j (S j =? length (fl_pieces f))%nat) (fl_pieces f).
Definition partial_chunks (f : flight) : list DataToSend := imap (λ j, piece_chunk f j false) (fl_pieces f).

Definition pieces_ok (pieces : list (list Z)) : Prop := pieces ≠ [] ∧ Forall (λ p, p ≠ []) pieces.
Definition flight_whole (f : flight) : Prop := pieces_ok (fl_pieces f) ∧ concat (fl_pieces f) = message_payload_ (fl_message f).
Definition flight_ordered (f : flight) : bool := negb (attr_unordered (fl_attributes f)).
Definition flight_stream (f : flight) : Z := message_stream_id_ (fl_message f).
Definition content : Type := DcSctpMessage * MessageAttributes.
Definition flight_content (f : flight) : content := (fl_message f, fl_attributes f).
Definition item_content (i : Message) : content := (message i, attributes i).

(** The message [f] is the queued message [i], which has its numbers. *)
Record numbered (f : flight) (i : Message) : Prop := mkNumbered {
  nu_id : fl_id f = message_id i;
  nu_message : fl_message f = message i;
  nu_attributes : fl_attributes f = attributes i;
  nu_mid : queued_mid i = Some (fl_mid f);
  nu_ssn : queued_ssn i = if attr_unordered (attributes i) then None else Some (fl_ssn f);
  nu_unordered : attr_unordered (attributes i) = true → fl_ssn f = 0;
  nu_fsn : current_fsn i = wrap 32 (Z.of_nat (length (fl_pieces f)));
  nu_pieces : Forall (λ p, p ≠ []) (fl_pieces f);
  nu_sent : concat (fl_pieces f) = take (Z.to_nat (remaining_offset i)) (message_payload_ (message i))
}.
Definition in_progress (f : flight) (i : Message) : Prop := numbered f i ∧ fl_pieces f ≠ [].

Definition add_piece (bytes : list Z) (f : flight) : flight :=
  mkFlight (fl_id f) (fl_message f) (fl_attributes f) (fl_mid f) (fl_ssn f) (fl_pieces f ++ [bytes]).

Lemma partial_chunks_add f bytes : partial_chunks (add_piece bytes f) = partial_chunks f ++ [piece_chunk f (length (fl_pieces f)) false bytes].
Proof. unfold partial_chunks. cbn [add_piece fl_pieces]. rewrite imap_app. cbn. by rewrite Nat.add_0_r. Qed.

Lemma whole_chunks_add f bytes : whole_chunks (add_piece bytes f) = partial_chunks f ++ [piece_chunk f (length (fl_pieces f)) true bytes].
Proof.
  unfold whole_chunks, partial_chunks. cbn [add_piece fl_pieces]. rewrite imap_app, length_app. cbn.
  rewrite Nat.add_0_r, Nat.add_1_r, Nat.eqb_refl. f_equal. apply imap_ext. intros j p Hj%lookup_lt_Some.
  rewrite (proj2 (Nat.eqb_neq _ _)) by lia. done.
Qed.

(** ** One chunk *)

(** The next piece of the message [i]. *)
Definition next_piece (max_size : Z) (i : Message) : list Z :=
  take (Z.to_nat max_size) (drop (Z.to_nat (remaining_offset i)) (message_payload_ (message i))).

(** The numbers that the stream gives to a message that is begun. *)
Definition number_flight (s : OutgoingStream) (i : Message) : flight :=
  let unordered := attr_unordered (attributes i) in
  mkFlight (message_id i) (message i) (attributes i)
    (if unordered then next_unordered_mid_ s else next_ordered_mid_ s) (if unordered then 0 else next_ssn_ s) [].

Lemma allocate_fresh s i : fresh_message i → let '(i1, s1) := allocate_numbers i s in
  numbered (number_flight s i) i1 ∧ next_ssn_ s1 = if attr_unordered (attributes i) then next_ssn_ s else wrap 16 (next_ssn_ s + 1).
Proof.
  destruct i as [id m a o r mid ssn fsn]. intros [= -> -> -> -> ->]. unfold allocate_numbers, number_flight. cbn.
  destruct (attr_unordered a) eqn:E; cbn; rewrite ?E; cbn; (split; [split|]); cbn; rewrite ?E; done.
Qed.

Lemma allocate_begun s f i : numbered f i → allocate_numbers i s = (i, s).
Proof. intros [_ _ _ Hm Hs _ _ _ _]. unfold allocate_numbers. rewrite Hm. destruct (attr_unordered (attributes i)); [done|]. by rewrite Hs. Qed.

Lemma numbered_beginning f i : numbered f i → 0 ≤ remaining_offset i → 0 < remaining_size i →
  remaining_offset i + remaining_size i = message_size (message i) → (remaining_offset i =? 0) = (length (fl_pieces f) =? 0)%nat.
Proof.
  intros [_ _ _ _ _ _ _ Hp Hs] Ho Hr Hm. unfold message_size in Hm. apply (f_equal length) in Hs. rewrite length_take in Hs.
  destruct (fl_pieces f) as [|p l]; cbn in *; [apply Z.eqb_eq; lia|]. apply Z.eqb_neq. apply list.Forall_cons in Hp as [Hp _].
  rewrite length_app in Hs. destruct p; [done|]. cbn in Hs. lia.
Qed.

(** The next piece of a message leaves. *)
Lemma fragment_numbered max_size f i : numbered f i → 0 ≤ remaining_offset i → 0 < remaining_size i →
  remaining_offset i + remaining_size i = message_size (message i) → 0 < max_size →
  let f' := add_piece (next_piece max_size i) f in
  ∃ last, (next_fragment max_size i).1 = piece_chunk f (length (fl_pieces f)) last (next_piece max_size i)
  ∧ match (next_fragment max_size i).2 with
    | None => last = true ∧ flight_whole f'
    | Some i' => last = false ∧ in_progress f' i' ∧ item_content i' = item_content i
    end.
Proof.
  intros Hn Ho Hr Hm Hmax f'. pose proof (numbered_beginning f i Hn Ho Hr Hm) as Hbeg. pose proof Hn as [Hid Hmsg Hattr Hmid Hssn Hu Hfsn Hp Hs].
  assert (length (next_piece max_size i) = Z.to_nat (Z.min max_size (remaining_size i))) as Hlen.
  { unfold next_piece. rewrite length_take, length_drop. unfold message_size in Hm. lia. }
  assert (default 0 (queued_ssn i) = fl_ssn f) as Hssn' by (rewrite Hssn; destruct (attr_unordered (attributes i)); [by rewrite Hu|done]).
  assert (Forall (λ p, p ≠ []) (fl_pieces f')) as Hp'.
  { cbn. apply Forall_app. split; [done|]. constructor; [|done]. intros E. rewrite E in Hlen. cbn in Hlen. lia. }
  assert (fl_pieces f' ≠ []) as Hne by (cbn; destruct (fl_pieces f); done).
  assert (concat (fl_pieces f') = take (Z.to_nat (remaining_offset i + Z.of_nat (length (next_piece max_size i)))) (message_payload_ (message i))) as Hs'.
  { cbn [f' add_piece fl_pieces]. rewrite concat_app, Hs. cbn. rewrite app_nil_r. rewrite Z2Nat.inj_add, Nat2Z.id, <- take_take_drop by lia. f_equal.
    unfold next_piece at 1. rewrite Hlen. rewrite (Z2Nat.inj_min max_size). symmetry. destruct (Z.le_ge_cases max_size (remaining_size i)).
    - by rewrite Nat.min_l by lia.
    - rewrite Nat.min_r, !take_ge; rewrite ?length_drop; unfold message_size in Hm; lia || done. }
  exists (remaining_offset i + Z.of_nat (length (next_piece max_size i)) =? message_size (message i)).
  unfold next_fragment. fold (next_piece max_size i). cbn [fst snd]. split.
  - unfold piece_chunk. rewrite Hbeg, Hid, Hmsg, Hattr, Hmid, Hssn', Hfsn. done.
  - destruct (Z.eqb_spec (remaining_offset i + Z.of_nat (length (next_piece max_size i))) (message_size (message i))) as [E|E].
    + split; [done|]. split; [done|]. rewrite Hs', E. cbn. rewrite Hmsg. unfold message_size. rewrite Nat2Z.id, take_ge; done.
    + split; [done|]. split; [|done]. split; [|done]. split; try done. cbn. rewrite length_app, Hfsn. cbn. rewrite wrap_plus by done. f_equal. lia.
Qed.

(** ** A run *)

Definition items_of (q : RRSendQueue) (sid : Z) : list Message := from_option items_ [] (map_find sid (streams_ q)).
Definition ssn_of (q : RRSendQueue) (sid : Z) : Z := from_option next_ssn_ 0 (map_find sid (streams_ q)).

Definition content_on (sid : Z) (l : list content) : list content := filter (λ c, message_stream_id_ c.1 = sid) l.
Definition flights_on (sid : Z) (l : list flight) : list flight := filter (λ f, flight_stream f = sid) l.
Definition unbegun (l : list Message) : list Message := filter (λ i, queued_mid i = None) l.

(** The messages begun and the messages waiting are those added, in this order; [reliable]
    says that none could expire. *)
Definition in_order (reliable : Prop) (begun : list flight) (items : list Message) (added : list content) : Prop :=
  let l := (flight_content <$> begun) ++ (item_content <$> unbegun items) in l `sublist_of` added ∧ (reliable → l = added).

(** The ordered messages of a stream count from zero, modulo [2 ^ 16]. *)
Definition counted (begun : list flight) (next_ssn : Z) : Prop :=
  let ordered := filter (λ f, flight_ordered f = true) begun in
  (fl_ssn <$> ordered = (λ k, wrap 16 (Z.of_nat k)) <$> seq 0 (length ordered)) ∧ next_ssn = wrap 16 (Z.of_nat (length ordered)).

Record log_inv (reliable : Prop) (sent : list DataToSend) (added : list content) (flights : list flight) (cur : option flight)
    (q : RRSendQueue) : Prop := mkLog {
  li_wf : queue_wf q;
  li_sent : sent = concat (whole_chunks <$> flights) ++ default [] (partial_chunks <$> cur);
  li_whole : Forall flight_whole flights;
  li_current : match cur with
    | None => currently_sending_a_message_ q = false
    | Some f => currently_sending_a_message_ q = true ∧ ∃ sid i, current_stream_ q = Some sid ∧ head (items_of q sid) = Some i ∧ in_progress f i
    end;
  li_begun : ∀ sid i, head (items_of q sid) = Some i → queued_mid i ≠ None → is_Some cur ∧ current_stream_ q = Some sid;
  li_reliable : reliable → Forall (λ c, attr_expires_at c.2 = PlusInfinity) added;
  li_order : ∀ sid, in_order reliable (flights_on sid (flights ++ option_list cur)) (items_of q sid) (content_on sid added);
  li_counted : ∀ sid, counted (flights_on sid (flights ++ option_list cur)) (ssn_of q sid)
}.

Lemma items_of_wf q sid s : queue_wf q → map_find sid (streams_ q) = Some s → stream_wf sid s ∧ items_of q sid = items_ s ∧ ssn_of q sid = next_ssn_ s.
Proof. intros Hq Hf. unfold items_of, ssn_of. rewrite Hf. split; [by apply (qw_streams _ q Hq)|done]. Qed.

Lemma unbegun_fresh l : Forall fresh_message l → unbegun l = l.
Proof.
  unfold unbegun. induction 1 as [|i l Hi _ IH]; [done|]. rewrite filter_cons, decide_True, IH; [done|]. by rewrite Hi.
Qed.

(** Expired messages are taken out. *)
Lemma in_order_drop (reliable : Prop) begun skipped items added : in_order reliable begun (skipped ++ items) added → (reliable → skipped = []) →
  in_order reliable begun items added.
Proof.
  unfold in_order, unbegun. cbv zeta. intros [H1 H2] Hs. split.
  - etransitivity; [|exact H1]. apply sublist_app; [done|]. rewrite filter_app, fmap_app. by apply sublist_inserts_l.
  - intros Hr. rewrite <- (H2 Hr), (Hs Hr). done.
Qed.

(** A message is begun. *)
Lemma in_order_begin reliable begun i items added f : in_order reliable begun (i :: items) added → queued_mid i = None →
  flight_content f = item_content i → in_order reliable (begun ++ [f]) items added.
Proof.
  unfold in_order, unbegun. rewrite filter_cons. cbv zeta. intros H Hi Hf. rewrite decide_True in H by done. cbn in H.
  rewrite fmap_app, <- app_assoc. cbn. by rewrite Hf.
Qed.

Lemma in_order_begun reliable begun i i' items added f f' : in_order reliable (begun ++ [f]) (i :: items) added → queued_mid i ≠ None → queued_mid i' ≠ None →
  flight_content f' = flight_content f → in_order reliable (begun ++ [f']) (i' :: items) added.
Proof.
  unfold in_order, unbegun. rewrite !filter_cons. cbv zeta. intros H Hi Hi' Hf. rewrite decide_False in H by done. rewrite decide_False by done.
  rewrite fmap_app in H |- *. cbn in *. by rewrite Hf.
Qed.

Lemma counted_begin begun n f : counted begun n → fl_ssn f = (if flight_ordered f then n else 0) →
  counted (begun ++ [f]) (if flight_ordered f then wrap 16 (n + 1) else n).
Proof.
  unfold counted. cbv zeta. intros [H1 H2] Hf. rewrite filter_app, filter_cons, filter_nil. destruct (flight_ordered f) eqn:E; cbn.
  - rewrite decide_True by done. rewrite fmap_app, length_app, seq_app, fmap_app, H1. cbn. rewrite Hf, H2. split; [done|].
    rewrite wrap_plus by done. f_equal. lia.
  - rewrite decide_False, app_nil_r by done. done.
Qed.

Lemma counted_last begun n f f' : counted (begun ++ [f]) n → fl_ssn f' = fl_ssn f → flight_ordered f' = flight_ordered f → counted (begun ++ [f']) n.
Proof.
  unfold counted. cbv zeta. intros H E E'. rewrite filter_app, filter_cons, filter_nil, E' in *. destruct (decide _); [|done].
  rewrite !fmap_app, !length_app in *. cbn in *. by rewrite E.
Qed.

Lemma after_front_state max_size i rest s : items_ s = i :: rest →
  items_ (after_front max_size i s) = option_list (next_fragment max_size (allocate_numbers i s).1).2 ++ rest
  ∧ next_ssn_ (after_front max_size i s) = next_ssn_ (allocate_numbers i s).2.
Proof.
  intros Hi. unfold after_front. pose proof (allocate_numbers_facts i s) as Ha. destruct (allocate_numbers i s) as [i1 s1]. cbn [fst snd].
  destruct Ha as (_ & _ & _ & _ & _ & _ & _ & Hit & _). destruct (next_fragment max_size i1) as [chunk [i'|]]; cbn [snd].
  - cbn. by rewrite Hit, Hi.
  - cbn. destruct (decide _); cbn; by rewrite Hit, Hi.
Qed.

(** What a step that returns [chunk] takes from the stream [sid]. *)
Record taken (now max_size : Z) (q : RRSendQueue) (sid : Z) (chunk : DataToSend) (q' : RRSendQueue)
    (skipped : list Message) (i : Message) (rest : list Message) (s : OutgoingStream) : Prop := mkTaken {
  tk_items : items_of q sid = skipped ++ i :: rest;
  tk_skipped : Forall (λ j, expired now j = true) skipped;
  tk_message : message_wf sid i;
  tk_rest : Forall fresh_message rest;
  tk_begun : fresh_message i ∨ (skipped = [] ∧ queued_mid i ≠ None);
  tk_ssn : next_ssn_ s = ssn_of q sid;
  tk_chunk : chunk = (next_fragment max_size (allocate_numbers i s).1).1;
  tk_items' : items_of q' sid = option_list (next_fragment max_size (allocate_numbers i s).1).2 ++ rest;
  tk_ssn' : ssn_of q' sid = next_ssn_ (allocate_numbers i s).2
}.

Lemma chunk_taken now max_size q sid chunk q' : queue_wf q → chunk_from now max_size q sid chunk q' →
  ∃ skipped i rest s, taken now max_size q sid chunk q' skipped i rest s.
Proof.
  intros Hq [Hq' _ _ _ _ (s & s1 & s' & Hf & Hp & (Ei & En & _) & Hf')]. destruct (items_of_wf q sid s Hq Hf) as (Hw & Hit & Hssn).
  destruct Hp as [skipped i rest t Hi Hsk Hal Hnum Hi1 _ _]. exists skipped, i, rest, t.
  destruct (after_front_state max_size i rest t Hi1) as [Ha Hb].
  destruct Hw as [Hm Hh Ht _ _ _ _ _]. rewrite Hi in *. apply Forall_app in Hm as [_ [Hmi _]%list.Forall_cons].
  assert (next_ssn_ s' = next_ssn_ (after_front max_size i t)) as Es by (unfold numbers in En; congruence).
  assert (next_ssn_ t = next_ssn_ s) as Et by (unfold numbers in Hnum; congruence).
  split; try done.
  - destruct skipped; [done|]. cbn in Ht. by apply Forall_app in Ht as [_ [_ ?]%list.Forall_cons].
  - destruct skipped as [|j skipped].
    + destruct (decide (queued_mid i = None)); [left; by apply Hh|by right].
    + left. cbn in Ht. by apply Forall_app in Ht as [_ [? _]%list.Forall_cons].
  - by rewrite Et, Hssn.
  - unfold items_of. rewrite Hf'. cbn. by rewrite Ei.
  - unfold ssn_of. rewrite Hf'. cbn. congruence.
Qed.

(** ** Producing *)

Section Step.
Context {reliable : Prop} {sent : list DataToSend} {added : list content} {flights : list flight} {cur : option flight} {q : RRSendQueue}.
Hypothesis Hlog : log_inv reliable sent added flights cur q.

Lemma log_alive now sid i : reliable → now < PlusInfinity → i ∈ items_of q sid → expired now i = false.
Proof using Hlog.
  intros Hr Hnow Hin. unfold expired. destruct (bool_decide_reflect (queued_mid i = None)) as [Hn|]; [|done]. cbn.
  destruct (li_order _ _ _ _ _ _ Hlog sid) as [_ Hall]. specialize (Hall Hr). pose proof (li_reliable _ _ _ _ _ _ Hlog Hr) as Hrel.
  rewrite Forall_forall in Hrel. assert (item_content i ∈ added) as Hadd.
  { assert (item_content i ∈ content_on sid added) as H; [|apply list_elem_of_filter in H; tauto]. rewrite <- Hall. apply elem_of_app. right.
    apply list_elem_of_fmap_2. by apply list_elem_of_filter. }
  specialize (Hrel _ Hadd). cbn in Hrel. rewrite Hrel. apply Z.leb_gt. done.
Qed.

Lemma log_skipped now sid skipped items : (reliable → now < PlusInfinity) → items_of q sid = skipped ++ items →
  Forall (λ j, expired now j = true) skipped → reliable → skipped = [].
Proof using Hlog.
  intros Hnow Hi Hsk Hr. destruct skipped as [|j l]; [done|]. apply list.Forall_cons in Hsk as [Hj _].
  rewrite (log_alive now sid j) in Hj; [done|done|auto|]. rewrite Hi. by left.
Qed.

(** The streams that did not produce. *)
Lemma log_others now sid q' x : (reliable → now < PlusInfinity) → kept now (map_find x (streams_ q)) (map_find x (streams_ q')) →
  in_order reliable (flights_on sid (flights ++ option_list cur)) (items_of q x) (content_on sid added) →
  in_order reliable (flights_on sid (flights ++ option_list cur)) (items_of q' x) (content_on sid added)
  ∧ ssn_of q' x = ssn_of q x ∧ (items_of q' x = items_of q x ∨ items_of q' x = []).
Proof using Hlog.
  intros Hnow Hk Ho. assert (items_of q' x = items_of q x ∨ (items_of q' x = [] ∧ Forall (λ j, expired now j = true) (items_of q x))) as Hi.
  { unfold items_of. destruct (map_find x (streams_ q)), (map_find x (streams_ q')); try done; cbn in *; [|by left].
    destruct Hk as [(? & _)|(? & _ & ?)]; [by left|by right]. }
  assert (ssn_of q' x = ssn_of q x) as Hs.
  { unfold ssn_of. destruct (map_find x (streams_ q)), (map_find x (streams_ q')); try done; cbn in *. unfold same_core, emptied, numbers in Hk.
    destruct Hk as [(_ & Hk & _)|(_ & Hk & _)]; by injection Hk. }
  split; [|split; [done|tauto]]. destruct Hi as [->|[-> Hex]]; [done|].
  apply (in_order_drop _ _ (items_of q x)); [by rewrite app_nil_r|].
  apply (log_skipped now x _ []); [done|by rewrite app_nil_r|done].
Qed.
End Step.

Lemma flights_on_last x f l : flights_on x (l ++ [f]) = if decide (flight_stream f = x) then flights_on x l ++ [f] else flights_on x l.
Proof. unfold flights_on. rewrite filter_app, filter_cons, filter_nil. destruct (decide _); [done|apply app_nil_r]. Qed.

Lemma unbegun_rest (remains : option Message) rest : Forall fresh_message rest → (∀ i', remains = Some i' → queued_mid i' ≠ None) →
  unbegun (option_list remains ++ rest) = rest.
Proof.
  intros Hr Hm. unfold unbegun. rewrite filter_app. fold (unbegun rest). rewrite (unbegun_fresh rest Hr). destruct remains as [i'|]; [|done].
  cbn. rewrite decide_False by auto. done.
Qed.

(** The message that the next chunk belongs to, before that chunk. *)
Record opened (reliable : Prop) (sent : list DataToSend) (added : list content) (flights : list flight) (cur : option flight)
    (sid : Z) (i1 : Message) (s2 : OutgoingStream) (rest : list Message) (f0 : flight) : Prop := mkOpened {
  op_numbered : numbered f0 i1;
  op_stream : flight_stream f0 = sid;
  op_sent : sent = concat (whole_chunks <$> flights) ++ partial_chunks f0;
  op_others : ∀ x, x ≠ sid → flights_on x (flights ++ option_list cur) = flights_on x flights;
  op_order : ∀ remains f', flight_content f' = flight_content f0 → (∀ i', remains = Some i' → queued_mid i' ≠ None) →
    in_order reliable (flights_on sid flights ++ [f']) (option_list remains ++ rest) (content_on sid added);
  op_counted : ∀ f', flight_content f' = flight_content f0 → fl_ssn f' = fl_ssn f0 → counted (flights_on sid flights ++ [f']) (next_ssn_ s2)
}.

Lemma flight_ordered_content f f' : flight_content f' = flight_content f → flight_ordered f' = flight_ordered f.
Proof. unfold flight_content, flight_ordered. by intros [= _ ->]. Qed.

(** A new message is begun. *)
Lemma open_fresh reliable sent added flights cur q now max_size sid chunk q' skipped i rest s : log_inv reliable sent added flights cur q →
  taken now max_size q sid chunk q' skipped i rest s → fresh_message i →
  (reliable → now < PlusInfinity) → (currently_sending_a_message_ q = true → current_stream_ q = Some sid) →
  opened reliable sent added flights cur sid (allocate_numbers i s).1 (allocate_numbers i s).2 rest (number_flight s i).
Proof.
  intros Hlog Ht Hfresh Hnow Hsame. pose proof Ht as [Hit Hsk Hm Hr _ Hssn _ _ _].
  assert (cur = None) as Hcur.
  { pose proof (li_current _ _ _ _ _ _ Hlog) as Hc. destruct cur as [f|]; [|done]. destruct Hc as (Hflag & sid' & i0 & Hs & Hh & Hip).
    rewrite (Hsame Hflag) in Hs. injection Hs as <-. rewrite Hit in Hh. destruct Hip as [[_ _ _ Hmid _ _ _ _ _] _]. exfalso.
    destruct skipped as [|j l]; cbn in Hh; injection Hh as ->; [by rewrite Hfresh in Hmid|]. apply list.Forall_cons in Hsk as [Hj _].
    unfold expired in Hj. apply andb_true_iff in Hj as [Hj%bool_decide_eq_true _]. by rewrite Hj in Hmid. }
  pose proof (allocate_fresh s i Hfresh) as Ha. destruct (allocate_numbers i s) as [i1 s2]. destruct Ha as [Hnum Hn]. cbn [fst snd].
  pose proof (li_order _ _ _ _ _ _ Hlog sid) as Hord. pose proof (li_counted _ _ _ _ _ _ Hlog sid) as Hcnt.
  pose proof (li_sent _ _ _ _ _ _ Hlog) as Hsent. subst cur. cbn [option_list default fmap option_fmap option_map] in *. rewrite app_nil_r in *.
  split; [done|exact (mw_stream _ _ Hm)|by rewrite Hsent; cbn; rewrite app_nil_r|by intros x _; rewrite app_nil_r| |].
  - intros remains f' Hf Hrem. rewrite Hit in Hord. apply in_order_drop in Hord; [|by eapply log_skipped].
    apply (in_order_begin _ _ _ _ _ f') in Hord; [|by rewrite Hfresh|exact Hf].
    unfold in_order in *. by rewrite unbegun_rest, <- (unbegun_fresh rest Hr) by done.
  - intros f' Hf Hs. rewrite Hn, Hssn. apply (counted_begin _ _ f') in Hcnt; rewrite (flight_ordered_content _ _ Hf) in *.
    + unfold flight_ordered in Hcnt. cbn in Hcnt. by destruct (attr_unordered (attributes i)).
    + rewrite Hs. unfold flight_ordered. cbn. by destruct (attr_unordered (attributes i)).
Qed.

(** The message in progress goes on. *)
Lemma open_begun reliable sent added flights cur q now max_size sid chunk q' i rest s : log_inv reliable sent added flights cur q →
  taken now max_size q sid chunk q' [] i rest s → queued_mid i ≠ None →
  ∃ f0, opened reliable sent added flights cur sid (allocate_numbers i s).1 (allocate_numbers i s).2 rest f0.
Proof.
  intros Hlog [Hit _ Hm Hr _ Hssn _ _ _] Hmid. cbn in Hit. destruct (li_begun _ _ _ _ _ _ Hlog sid i) as [[f Hcur] Hs]; [by rewrite Hit|done|].
  pose proof (li_current _ _ _ _ _ _ Hlog) as Hc. rewrite Hcur in Hc. destruct Hc as (_ & sid' & i0 & Hs' & Hh & [Hnum Hne]). rewrite Hs in Hs'.
  injection Hs' as <-. rewrite Hit in Hh. injection Hh as <-. exists f. rewrite (allocate_begun s f i Hnum). cbn [fst snd].
  assert (flight_stream f = sid) as Hst by (unfold flight_stream; rewrite (nu_message _ _ Hnum); apply Hm).
  pose proof (li_order _ _ _ _ _ _ Hlog sid) as Hord. pose proof (li_counted _ _ _ _ _ _ Hlog sid) as Hcnt.
  pose proof (li_sent _ _ _ _ _ _ Hlog) as Hsent. subst cur. cbn [option_list default fmap option_fmap option_map] in *.
  change (option_list (Some f)) with [f] in *. rewrite flights_on_last, decide_True in Hord, Hcnt by done. split; [done|done|done| | |].
  - intros x Hx. change (option_list (Some f)) with [f]. rewrite flights_on_last, decide_False by (intros E; apply Hx; congruence). done.
  - intros remains f' Hf Hrem. unfold in_order. rewrite unbegun_rest by done. rewrite Hit in Hord.
    assert (unbegun (i :: rest) = rest) as E by (apply (unbegun_rest (Some i)); [done|by intros ? [= <-]]).
    unfold in_order in Hord. rewrite E in Hord. rewrite fmap_app in *. cbn in *. by rewrite Hf.
  - intros f' Hf Hssn'. rewrite Hssn. eapply counted_last; [exact Hcnt|done|]. by apply flight_ordered_content.
Qed.

Lemma opened_exists reliable sent added flights cur q now max_size sid chunk q' skipped i rest s : log_inv reliable sent added flights cur q →
  taken now max_size q sid chunk q' skipped i rest s → (reliable → now < PlusInfinity) →
  (currently_sending_a_message_ q = true → current_stream_ q = Some sid) →
  ∃ f0, opened reliable sent added flights cur sid (allocate_numbers i s).1 (allocate_numbers i s).2 rest f0.
Proof.
  intros Hlog Ht Hnow Hsame. destruct (tk_begun _ _ _ _ _ _ _ _ _ _ Ht) as [Hf|[-> Hm]]; [|by eapply open_begun].
  eexists. by eapply open_fresh.
Qed.

Lemma items_head_fresh (remains : option Message) rest i : Forall fresh_message rest → head (option_list remains ++ rest) = Some i → queued_mid i ≠ None → remains = Some i.
Proof.
  intros Hr Hh Hm. destruct remains as [j|]; cbn in Hh; [congruence|]. by rewrite (Forall_head _ _ _ Hr Hh) in Hm.
Qed.

(** One more chunk, which ends its message or not. *)
Lemma extend_sent flights f bytes (last : bool) : let f' := add_piece bytes f in
  concat (whole_chunks <$> flights) ++ partial_chunks f ++ [piece_chunk f (length (fl_pieces f)) last bytes]
  = concat (whole_chunks <$> (if last then flights ++ [f'] else flights)) ++ default [] (partial_chunks <$> (if last then None else Some f')).
Proof.
  cbv zeta. destruct last; cbn [default fmap option_fmap option_map]; [|by rewrite <- partial_chunks_add].
  rewrite <- whole_chunks_add, fmap_app, concat_app, app_nil_r. cbn. by rewrite app_nil_r.
Qed.

Lemma log_produce reliable sent added flights cur q now max_size sid chunk q' : log_inv reliable sent added flights cur q →
  0 < max_size → (reliable → now < PlusInfinity) → chunk_from now max_size q sid chunk q' →
  ∃ flights' cur', log_inv reliable (sent ++ [chunk]) added flights' cur' q'.
Proof.
  intros Hlog Hmax Hnow Hcf. destruct (chunk_taken now max_size q sid chunk q' (li_wf _ _ _ _ _ _ Hlog) Hcf) as (skipped & i & rest & s & Ht).
  destruct (opened_exists _ _ _ _ _ _ _ _ _ _ _ _ _ _ _ Hlog Ht Hnow (cf_same _ _ _ _ _ _ Hcf)) as (f0 & [Hnum Hst Hsent Hoth Hord Hcnt]).
  destruct Ht as [_ _ Hm Hr _ _ Hch Hit Hssn]. destruct Hcf as [Hq' Hcur Hflag Hsame Hk _].
  pose proof (allocate_numbers_facts i s) as Ha. destruct (allocate_numbers i s) as [i1 s2]. cbn [fst snd] in *.
  destruct Ha as (_ & Hmsg & _ & _ & Ho & Hrs & _). destruct Hm as [_ Hm1 Hm2 Hm3 _]. rewrite <- Ho, <- Hrs, <- Hmsg in *.
  destruct (fragment_numbered max_size f0 i1 Hnum Hm1 Hm2 Hm3 Hmax) as (last & Hchunk & Hrem). set (f' := add_piece _ f0) in *.
  rewrite Hchunk in Hch. set (remains := (next_fragment max_size i1).2) in *.
  set (flights' := if last then flights ++ [f'] else flights). set (cur' := if last then None else Some f').
  assert (flights' ++ option_list cur' = flights ++ [f']) as Hall by (unfold flights', cur'; destruct last; [apply app_nil_r|done]).
  assert (sent ++ [chunk] = concat (whole_chunks <$> flights') ++ default [] (partial_chunks <$> cur')) as Hsent'.
  { rewrite Hsent, Hch, <- app_assoc. apply extend_sent. }
  assert (flight_stream f' = sid) as Hst' by exact Hst.
  assert (∀ i', remains = Some i' → queued_mid i' ≠ None) as Hmid.
  { intros i' E. rewrite E in Hrem. destruct Hrem as (_ & [Hnu _] & _). by rewrite (nu_mid _ _ Hnu). }
  assert (∀ x, x ≠ sid → _) as Hx by (intros x Hx; exact (log_others Hlog now x q' x Hnow (Hk x Hx) (li_order _ _ _ _ _ _ Hlog x))).
  exists flights', cur'. split; [done|done| | | |by apply (li_reliable _ _ _ _ _ _ Hlog)| |].
  - unfold flights'. destruct remains; destruct Hrem as [-> Hw]; [by apply Hlog|]. apply Forall_app. split; [by apply Hlog|]. by constructor.
  - rewrite Hflag, Hch. cbn [piece_chunk to_send_data is_end]. unfold cur'. destruct remains as [i'|]; destruct Hrem as [-> Hw]; [|done].
    split; [done|]. exists sid, i'. rewrite Hit. split; [done|]. split; [done|]. apply Hw.
  - intros x j Hh Hj. destruct (Z.eq_dec x sid) as [->|Hne].
    + rewrite Hit in Hh. rewrite (items_head_fresh _ _ _ Hr Hh Hj) in Hrem. unfold cur'. destruct Hrem as [-> _]. done.
    + exfalso. destruct (Hx x Hne) as (_ & _ & [E|E]); rewrite E in Hh; [|done].
      destruct (li_begun _ _ _ _ _ _ Hlog x j Hh Hj) as [[f Hc] Hcx]. pose proof (li_current _ _ _ _ _ _ Hlog) as Hfl. rewrite Hc in Hfl.
      destruct Hfl as [Hfl _]. rewrite (Hsame Hfl) in Hcx. congruence.
  - intros x. rewrite Hall, flights_on_last, Hst'. destruct (decide (sid = x)) as [<-|Hne].
    + rewrite Hit. by apply Hord.
    + rewrite <- Hoth by auto. by apply Hx.
  - intros x. rewrite Hall, flights_on_last, Hst'. destruct (decide (sid = x)) as [<-|Hne].
    + rewrite Hssn. by apply Hcnt.
    + rewrite <- Hoth by auto. destruct (Hx x) as (_ & -> & _); [auto|]. apply (li_counted _ _ _ _ _ _ Hlog).
Qed.

(** A message that has been begun keeps its stream scheduled. *)
Lemma begun_active q sid i : queue_wf q → head (items_of q sid) = Some i → queued_mid i ≠ None → sid ∈ active_streams_ q.
Proof.
  intros Hq Hh Hm. unfold items_of in Hh. destruct (map_find sid (streams_ q)) as [s|] eqn:Hf; [|done]. cbn in Hh.
  apply (qw_active _ q Hq sid I). exists s. split; [done|]. pose proof (qw_streams _ q Hq sid s Hf) as Hw.
  destruct (items_ s) as [|j rest] eqn:Hi; [done|]. injection Hh as ->. pose proof (head_size sid s i rest Hw Hi) as Hpos.
  unfold bytes_to_send_in_next_message. rewrite Hi. pose proof (sw_paused _ _ Hw) as Hp. rewrite Hi in Hp.
  destruct (pause_state_ s); try done; exfalso; apply Hm, Hp; auto.
Qed.

Lemma log_idle reliable sent added flights cur q now q' : log_inv reliable sent added flights cur q → (reliable → now < PlusInfinity) →
  queue_wf q' → active_streams_ q' = [] → (∀ x, kept now (map_find x (streams_ q)) (map_find x (streams_ q'))) →
  log_inv reliable sent added flights cur q'.
Proof.
  intros Hlog Hnow Hq' Hact Hk.
  assert (∀ sid i, head (items_of q' sid) = Some i → queued_mid i = None) as Hnone.
  { intros sid i Hh. destruct (decide (queued_mid i = None)) as [|Hm]; [done|]. pose proof (begun_active q' sid i Hq' Hh Hm) as Hin.
    rewrite Hact in Hin. by apply elem_of_nil in Hin. }
  assert (currently_sending_a_message_ q' = false) as Hflag.
  { destruct (currently_sending_a_message_ q') eqn:E; [|done]. destruct (qw_sending _ q' Hq' E) as (sid & s & i & _ & Hf & Hh & Hm). exfalso.
    apply Hm, (Hnone sid). unfold items_of. by rewrite Hf. }
  assert (∀ x, _) as Hx by (intros x; exact (log_others Hlog now x q' x Hnow (Hk x) (li_order _ _ _ _ _ _ Hlog x))).
  assert (cur = None) as Hcur.
  { pose proof (li_current _ _ _ _ _ _ Hlog) as Hc. destruct cur as [f|]; [|done]. destruct Hc as (_ & sid & i & _ & Hh & [Hnu _]). exfalso.
    specialize (Hk sid). assert (queued_mid i ≠ None) as Hm by (by rewrite (nu_mid _ _ Hnu)). specialize (Hnone sid i). unfold items_of in *.
    destruct (map_find sid (streams_ q)) as [t|], (map_find sid (streams_ q')) as [t'|]; try done. cbn in *.
    destruct Hk as [(E & _)|(_ & _ & Hall)]; [rewrite E in Hnone; auto|]. destruct (items_ t) as [|j l]; [done|]. injection Hh as ->.
    apply list.Forall_cons in Hall as [Hj _]. unfold expired in Hj. apply andb_true_iff in Hj as [Hj%bool_decide_eq_true _]. done. }
  split; [done|apply Hlog|apply Hlog|by rewrite Hcur| |apply Hlog|by apply Hx|].
  - intros sid i Hh Hm. by rewrite (Hnone sid i Hh) in Hm.
  - intros x. destruct (Hx x) as (_ & -> & _). apply (li_counted _ _ _ _ _ _ Hlog).
Qed.

(** ** Adding messages and settings *)

Lemma stream_of_view q sid : items_ (stream_of q sid) = items_of q sid ∧ next_ssn_ (stream_of q sid) = ssn_of q sid.
Proof. unfold stream_of, items_of, ssn_of. by destruct (map_find sid (streams_ q)). Qed.

Lemma put_view sid s q x : items_of (put_stream sid s q) x = (if x =? sid then items_ s else items_of q x)
  ∧ ssn_of (put_stream sid s q) x = (if x =? sid then next_ssn_ s else ssn_of q x).
Proof. unfold items_of, ssn_of. cbn. rewrite map_find_put. by destruct (x =? sid). Qed.

(** The messages, the numbers and what is being sent stay as they are. *)
Record same_view (q q' : RRSendQueue) : Prop := mkSameView {
  sv_items : ∀ x, items_of q' x = items_of q x;
  sv_ssn : ∀ x, ssn_of q' x = ssn_of q x;
  sv_current : current_stream_ q' = current_stream_ q;
  sv_flag : currently_sending_a_message_ q' = currently_sending_a_message_ q
}.

Lemma same_view_trans q q' q'' : same_view q q' → same_view q' q'' → same_view q q''.
Proof. intros [] []. split; congruence. Qed.

Lemma same_view_put sid s q : items_ s = items_of q sid → next_ssn_ s = ssn_of q sid → same_view q (put_stream sid s q).
Proof.
  intros Hi Hs. split; [| |done|done]; intros x; destruct (put_view sid s q x) as [E1 E2]; rewrite ?E1, ?E2; destruct (Z.eqb_spec x sid); congruence.
Qed.

(** The stream of [q] with a change that leaves its messages and numbers alone. *)
Lemma same_view_update sid (f : OutgoingStream → OutgoingStream) q : (∀ s, items_ (f s) = items_ s) → (∀ s, next_ssn_ (f s) = next_ssn_ s) →
  same_view q (put_stream sid (f (stream_of q sid)) q).
Proof. intros H1 H2. destruct (stream_of_view q sid) as [Hi Hs]. apply same_view_put; congruence. Qed.

Lemma same_view_create sid q : same_view q (GetOrCreateStreamInfo sid q).
Proof.
  unfold GetOrCreateStreamInfo. destruct (map_find sid (streams_ q)) eqn:E; [done|]. apply same_view_put; unfold items_of, ssn_of; by rewrite E.
Qed.

Lemma same_view_maybe sid q : same_view q (MaybeMakeActive sid q).
Proof.
  unfold MaybeMakeActive. destruct (_ =? 0); [done|]. destruct (stream_of_view q sid) as [Hi Hs]. unfold MakeActive.
  set (s := stream_of q sid <| current_virtual_time_ := _ |> <| next_finish_time_ := _ |>).
  destruct (same_view_put sid s q Hi Hs) as [H1 H2 H3 H4]. split; [exact H1|exact H2|done|done].
Qed.

Lemma log_same_view reliable sent added flights cur q q' : log_inv reliable sent added flights cur q → same_view q q' → queue_wf q' →
  log_inv reliable sent added flights cur q'.
Proof.
  intros [_ Hs Hw Hc Hb Hr Ho Hn] [Hi Hss Hcu Hf] Hq'. split; try done.
  - destruct cur as [f|]; [|congruence]. destruct Hc as (? & sid & i & ? & ? & ?). split; [congruence|]. exists sid, i. by rewrite Hi, Hcu.
  - intros sid i. rewrite Hi, Hcu. apply Hb.
  - intros sid. by rewrite Hi.
  - intros sid. by rewrite Hss.
Qed.

Lemma Queue_Add_view now msg o q : let q' := Queue_Add now msg o q in let sid := message_stream_id_ msg in
  ∃ id, (∀ x, items_of q' x = items_of q x ++ if x =? sid then [Message_new id msg (send_attributes now o)] else [])
    ∧ (∀ x, ssn_of q' x = ssn_of q x) ∧ current_stream_ q' = current_stream_ q ∧ currently_sending_a_message_ q' = currently_sending_a_message_ q.
Proof.
  cbv zeta. unfold Queue_Add, Stream_Add. set (sid := message_stream_id_ msg). set (attr := send_attributes now o).
  pose proof (same_view_create sid q) as H1. set (q1 := GetOrCreateStreamInfo sid q) in *.
  assert (same_view q1 (increase_buffered sid (message_size msg) q1)) as H2.
  { destruct (same_view_update sid (λ s, s <| buffered_amount_ ::= Increase (message_size msg) |>) q1) as [A B C D]; [done|done|].
    split; [exact A|exact B|done|done]. }
  set (q2 := increase_buffered _ _ q1) in *. set (id := current_message_id q2).
  set (q3 := q2 <| current_message_id := wrap 32 (id + 1) |>).
  assert (same_view q q3) as H3 by (apply (same_view_trans q q1 q3 H1); destruct H2 as [A B C D]; split; [exact A|exact B|done|done]).
  destruct H3 as [Hi Hs Hc Hf]. exists id. unfold update_items. destruct (stream_of_view q3 sid) as [Ei Es].
  set (s := stream_of q3 sid <| items_ ::= _ |>). set (q4 := put_stream sid s q3).
  assert ((∀ x, items_of q4 x = items_of q x ++ if x =? sid then [Message_new id msg attr] else []) ∧ (∀ x, ssn_of q4 x = ssn_of q x)) as [H4 H5].
  { split; intros x; destruct (put_view sid s q3 x) as [E1 E2]; unfold q4.
    - rewrite E1, <- Hi. destruct (Z.eqb_spec x sid) as [Ex|]; [|by rewrite app_nil_r]. by rewrite Ex, <- Ei.
    - rewrite E2, <- Hs. destruct (Z.eqb_spec x sid) as [Ex|]; [|done]. by rewrite Ex, <- Es. }
  destruct (0 <? _); [done|]. destruct (same_view_maybe sid q4) as [A B C D].
  split; [|split; [|split; [by rewrite C|by rewrite D]]]; intros x; rewrite ?A, ?B; auto.
Qed.

Lemma content_on_last x c l : content_on x (l ++ [c]) = content_on x l ++ if x =? message_stream_id_ c.1 then [c] else [].
Proof.
  unfold content_on. rewrite filter_app, filter_cons, filter_nil. destruct (decide _) as [->|]; [by rewrite Z.eqb_refl|].
  by rewrite (proj2 (Z.eqb_neq _ _)) by auto.
Qed.

Lemma in_order_add reliable begun items added c id : in_order reliable begun items added →
  in_order reliable begun (items ++ [Message_new id c.1 c.2]) (added ++ [c]).
Proof.
  unfold in_order, unbegun. cbv zeta. intros [H1 H2]. rewrite filter_app. cbn. rewrite fmap_app, app_assoc. cbn. destruct c as [m a]. cbn.
  split; [by apply sublist_app|]. intros Hr. by rewrite H2.
Qed.

Lemma log_add reliable sent added flights cur q now msg o : log_inv reliable sent added flights cur q →
  queue_wf (Queue_Add now msg o q) → (reliable → opt_lifetime o = None) →
  log_inv reliable sent (added ++ [(msg, send_attributes now o)]) flights cur (Queue_Add now msg o q).
Proof.
  intros [_ Hs Hw Hc Hb Hr Ho Hn] Hq' Hrel. destruct (Queue_Add_view now msg o q) as (id & Hi & Hss & Hcu & Hf). set (q' := Queue_Add now msg o q) in *.
  assert (∀ sid i, head (items_of q sid) = Some i → head (items_of q' sid) = Some i) as Hhead.
  { intros sid i Hh. rewrite Hi. by destruct (items_of q sid). }
  split; try done.
  - destruct cur as [f|]; [|congruence]. destruct Hc as (? & sid & i & ? & ? & ?). split; [congruence|]. exists sid, i. rewrite Hcu. auto.
  - intros sid i Hh Hm. rewrite Hcu. apply (Hb sid i); [|done]. rewrite Hi in Hh. destruct (items_of q sid) as [|j l]; [|done].
    destruct (sid =? _); [|done]. cbn in Hh. injection Hh as <-. done.
  - intros H. apply Forall_app. split; [by apply Hr|]. constructor; [|done]. cbn. by rewrite (Hrel H).
  - intros sid. rewrite Hi, content_on_last. cbn [fst]. destruct (sid =? message_stream_id_ msg); [|by rewrite !app_nil_r].
    apply (in_order_add _ _ _ _ (msg, send_attributes now o)), Ho.
  - intros sid. by rewrite Hss.
Qed.

(** ** Whole runs *)

(** Operations that neither discard a message nor take part in the reset of a stream. *)
Definition sending_op (op : Op) : Prop :=
  match op with OpAdd _ _ _ | OpProduce _ _ | OpLowThreshold _ _ | OpPriority _ _ => op_ok op | _ => False end.
#[export] Instance sending_op_dec op : Decision (sending_op op).
Proof. destruct op; cbn; apply _. Defined.
Definition added_by (op : Op) : list content := match op with OpAdd now msg o => [(msg, send_attributes now o)] | _ => [] end.
(** No message may expire. *)
Definition reliable_op (op : Op) : Prop :=
  match op with OpAdd _ _ o => opt_lifetime o = None | OpProduce now _ => now < PlusInfinity | _ => True end.

Lemma log_op reliable op sent added flights cur q : log_inv reliable sent added flights cur q → sending_op op → (reliable → reliable_op op) →
  wp (apply_op op) (λ l q', ∃ flights' cur', log_inv reliable (sent ++ l) (added ++ added_by op) flights' cur' q') q.
Proof.
  intros Hlog Hop Hrel. pose proof (li_wf _ _ _ _ _ _ Hlog) as Hq.
  destruct op as [now msg o|now max_size| | | | | | |sid bytes|sid priority]; try done; cbn [sending_op reliable_op op_ok added_by apply_op] in *.
  - apply wp_modify_ret. exists flights, cur. rewrite app_nil_r. apply log_add; [done|by apply Queue_Add_wf|done].
  - apply wp_bind. eapply wp_mono; [|by apply Queue_Produce_spec]. rewrite app_nil_r. intros [chunk|] q'; cbn.
    + intros [sid Hcf]. by eapply log_produce.
    + intros (Hq' & Hact & Hk). exists flights, cur. rewrite app_nil_r. by eapply log_idle.
  - apply wp_modify_ret. exists flights, cur. rewrite !app_nil_r. eapply log_same_view; [done| |by apply SetBufferedAmountLowThreshold_wf].
    eapply same_view_trans; [apply (same_view_create sid)|]. unfold SetBufferedAmountLowThreshold. set (q1 := GetOrCreateStreamInfo sid q).
    cbn [SetLowThreshold].
    destruct (same_view_update sid (λ s, s <| buffered_amount_ := buffered_amount_ s <| low_threshold_ := bytes |> |>) q1) as [A B C D]; [done|done|].
    by destruct (_ && _); split.
  - apply wp_modify_ret. exists flights, cur. rewrite !app_nil_r. eapply log_same_view; [done| |by apply SetStreamPriority_wf].
    eapply same_view_trans; [apply (same_view_create sid)|]. by apply (same_view_update sid (SetPriority priority)).
Qed.

Lemma log_run reliable ops sent added flights cur q : log_inv reliable sent added flights cur q → Forall sending_op ops → (reliable → Forall reliable_op ops) →
  wp (apply_ops ops) (λ l q', ∃ flights' cur', log_inv reliable (sent ++ l) (added ++ (ops ≫= added_by)) flights' cur' q') q.
Proof.
  revert sent added flights cur q. induction ops as [|op ops IH]; intros sent added flights cur q Hlog Hops Hrel; cbn [apply_ops mbind list_bind].
  { apply wp_ret. exists flights, cur. by rewrite !app_nil_r. }
  apply list.Forall_cons in Hops as [Hop Hops]. apply wp_bind. eapply wp_mono; [|apply (log_op reliable op _ _ _ _ _ Hlog Hop)].
  2: { intros Hr. by apply Hrel, list.Forall_cons in Hr as [? _]. }
  intros l q' (flights' & cur' & Hlog'). apply wp_bind. eapply wp_mono; [|apply (IH _ _ _ _ _ Hlog' Hops)].
  2: { intros Hr. by apply Hrel, list.Forall_cons in Hr as [_ ?]. }
  intros l' q'' (flights'' & cur'' & H). apply wp_ret. exists flights'', cur''. by rewrite !app_assoc.
Qed.

Lemma log_new reliable mtu priority threshold : log_inv reliable [] [] [] None (RRSendQueue_new mtu priority threshold).
Proof. split; try done. apply RRSendQueue_new_wf. Qed.

(** C20: Over any run that adds messages, asks for chunks of any sizes, and sets thresholds and
    priorities, but neither discards a message, which may cut it off in its middle, nor resets
    a stream, which starts its numbers again ([sending_op]), the chunks that leave the queue are those of whole messages, one after the other and never mixed, and then those of
    at most one message of which a part was sent: the pieces of a message put together are its
    payload, only the first has the beginning bit and only the last the end bit, and they count
    from fragment number zero.  The messages of a stream leave in the order in which they were
    added, without gaps when none may expire, and the ordered ones among them carry the stream
    sequence numbers 0, 1, 2 and so on. *)
Theorem sends_whole_messages mtu priority threshold ops : Forall sending_op ops →
  wp (apply_ops ops) (λ sent _, ∃ flights cur,
    sent = concat (whole_chunks <$> flights) ++ default [] (partial_chunks <$> cur)
    ∧ Forall flight_whole flights
    ∧ (∀ f, cur = Some f → pieces_ok (fl_pieces f) ∧ concat (fl_pieces f) `prefix_of` message_payload_ (fl_message f))
    ∧ ∀ sid, let begun := flights_on sid (flights ++ option_list cur) in
        let ordered := filter (λ f, flight_ordered f = true) begun in
        (flight_content <$> begun) `sublist_of` content_on sid (ops ≫= added_by)
        ∧ (Forall reliable_op ops → (flight_content <$> begun) `prefix_of` content_on sid (ops ≫= added_by))
        ∧ (fl_ssn <$> ordered) = (λ k, wrap 16 (Z.of_nat k)) <$> seq 0 (length ordered))
    (RRSendQueue_new mtu priority threshold).
Proof.
  intros Hops. eapply wp_mono; [|exact (log_run (Forall reliable_op ops) ops _ _ _ _ _ (log_new _ mtu priority threshold) Hops id)].
  intros sent q (flights & cur & [_ Hs Hw Hc _ _ Ho Hn]). exists flights, cur. split; [done|]. split; [done|]. split.
  - intros f ->. destruct Hc as (_ & sid & i & _ & _ & [Hnu Hne]). split; [by split; [|apply Hnu]|].
    rewrite (nu_sent _ _ Hnu), (nu_message _ _ Hnu). apply prefix_take.
  - intros sid. destruct (Ho sid) as [H1 H2]. destruct (Hn sid) as [H3 _]. cbv zeta in *. split; [|split; [|done]].
    + etransitivity; [|exact H1]. apply sublist_inserts_r. done.
    + intros Hr. specialize (H2 Hr). cbn [app] in H2. rewrite <- H2. by eexists.
Qed.

Definition sample_options (unordered : bool) (lifetime : option Z) : SendOptions := mkSendOptions unordered lifetime None NotSet.
Definition sample_ops : list Op :=
  [OpAdd 0 (mkMessage 1 53 [1; 2; 3; 4; 5]) (sample_options false None); OpProduce 0 2;
   OpAdd 1 (mkMessage 2 53 [9; 8]) (sample_options true None); OpPriority 2 500;
   OpProduce 1 2; OpProduce 1 2; OpAdd 5 (mkMessage 1 53 [6; 7; 8]) (sample_options false (Some 1)); OpProduce 2 2; OpProduce 9000 2; OpProduce 9000 2].

Lemma sends_whole_messages_witness :
  wp (apply_ops sample_ops) (λ sent _, ∃ flights cur,
    sent = concat (whole_chunks <$> flights) ++ default [] (partial_chunks <$> cur)
    ∧ Forall flight_whole flights
    ∧ (∀ f, cur = Some f → pieces_ok (fl_pieces f) ∧ concat (fl_pieces f) `prefix_of` message_payload_ (fl_message f))
    ∧ ∀ sid, let begun := flights_on sid (flights ++ option_list cur) in
        let ordered := filter (λ f, flight_ordered f = true) begun in
        (flight_content <$> begun) `sublist_of` content_on sid (sample_ops ≫= added_by)
        ∧ (Forall reliable_op sample_ops → (flight_content <$> begun) `prefix_of` content_on sid (sample_ops ≫= added_by))
        ∧ (fl_ssn <$> ordered) = (λ k, wrap 16 (Z.of_nat k)) <$> seq 0 (length ordered))
    (RRSendQueue_new 1200 256 0).
Proof. apply (sends_whole_messages 1200 256 0 sample_ops). apply (bool_decide_eq_true_1 (Forall sending_op sample_ops)). vm_compute. reflexivity. Defined.
