(* ===== verification/Association.v ===== *)
(** * From application to application

    The whole path of a message: the send queue and the retransmission queue of one end, a
    network that reorders, repeats and loses, and the data tracker and the reassembly queue of
    the other end.  The sender runs with acknowledgements, timeouts and retransmissions. *)

From S2P Require Import Prelude SeqNum SctpTimer SctpWire DataTracker Reassembly ReassemblyQueue Receiver.
From S2P Require Import SendQueue OutstandingData RetransmissionQueue RRSendQueue Fragmentation.
Open Scope Z_scope.

Abbreviation Sender := (RetransmissionQueue RRSendQueue).

(** What a DATA chunk carries of the data: message identifier and fragment number do not travel. *)
Definition on_wire (d : Data) : Data := mkData (stream_id d) (ssn d) 0 0 (ppid d) (payload d) (is_beginning d) (is_end d) (is_unordered d).

(** Nothing was given up. *)
Definition nothing_abandoned (r : Sender) : Prop := ¬ has_abandoned (rtx_data_ r).

(** A sender that uses one ordered stream and limits no message: its state, the chunks that
    left it, latest first, and the messages added, in order. *)
Inductive sends (sid first : Z) : Sender → list (Z * Data) → list content → Prop :=
| sends_new a_rwnd mtu priority threshold t3 options pr : uint 64 a_rwnd → rtx_options_ok options →
    sends sid first (RetransmissionQueue_new first a_rwnd (RRSendQueue_new mtu priority threshold) t3 options pr false) [] []
| sends_add r emitted added now payload ppid max lifecycle_id : sends sid first r emitted added → payload ≠ [] → Z.of_nat (length payload) < 2 ^ 32 →
    let o := mkSendOptions false None max lifecycle_id in let msg := mkMessage sid ppid payload in
    sends sid first (change_queue (RRSendQueue.Queue_Add now msg o) r) emitted (added ++ [(msg, send_attributes now o)])
| sends_packet r emitted added now bytes l r' : sends sid first r emitted added → 0 ≤ bytes < 2 ^ 31 → now < PlusInfinity →
    GetChunksToSend now bytes r = Ret l r' → room (rtx_data_ r') < 2 ^ 31 → nothing_abandoned r' → sends sid first r' (rev l ++ emitted) added
| sends_sack r emitted added now sack ok r' : sends sid first r emitted added → sack_ok sack → to_be_fast_retransmitted_ (rtx_data_ r) = [] →
    cwnd_ r + rtx_mtu (rtx_options_ r) < 2 ^ 64 → Rtx_HandleSack now sack r = Ret ok r' → nothing_abandoned r' → sends sid first r' emitted added
| sends_t3 r emitted added r' : sends sid first r emitted added → HandleT3RtxTimerExpiry r = Ret tt r' → nothing_abandoned r' → sends sid first r' emitted added
| sends_fast r emitted added bytes l r' : sends sid first r emitted added → GetChunksForFastRetransmit bytes r = Ret l r' → nothing_abandoned r' →
    sends sid first r' (rev l ++ emitted) added
| sends_forward r emitted added now b r' : sends sid first r emitted added → Rtx_ShouldSendForwardTsn now r = Ret b r' → nothing_abandoned r' →
    sends sid first r' emitted added
| sends_timer r emitted added t : sends sid first r emitted added → is_running_ t = is_running_ (t3_rtx_ r) →
    sends sid first (r <| t3_rtx_ := t |>) emitted added.

(** ** The chunks that were sent are those of the queue *)

Section Log.
Context (first : Z).
(** The last TSN before the first chunk; TSNs are unwrapped from here on. *)
Definition base : Z := wrap 32 (first - 1).

(** The chunk [n] of the log has the TSN [base + 1 + n]. *)
Definition in_log (log : list DataToSend) (tsn : Z) (data : Data) : Prop :=
  ∃ c, base < tsn ∧ log !! Z.to_nat (tsn - base - 1) = Some c ∧ data = to_send_data c.

Record data_log (log : list DataToSend) (d : OutstandingData RRSendQueue) : Prop := mkDataLog {
  dl_highest : highest_outstanding_tsn d = base + Z.of_nat (length log);
  dl_chunk : ∀ t i, chunk_at d t = Some i → in_log log t (item_data_ i);
  dl_kept : ¬ has_abandoned d
}.

Lemma in_log_app log c t data : in_log log t data → in_log (log ++ [c]) t data.
Proof using Type. intros (c' & Hb & Hl & Hd). exists c'. split; [done|]. split; [by apply lookup_app_l_Some|done]. Qed.

Lemma in_log_last log c : in_log (log ++ [c]) (base + Z.of_nat (length log) + 1) (to_send_data c).
Proof using Type.
  exists c. split; [lia|]. split; [|done]. replace (Z.to_nat _) with (length log) by lia. apply list_lookup_middle. done.
Qed.

(** A step that gives nothing up keeps the chunks. *)
Lemma data_log_evolves log d d' : data_log log d → od_evolves d d' → last_cumulative_tsn_ack_ d' ≤ highest_outstanding_tsn d → ¬ has_abandoned d' → data_log log d'.
Proof using Type.
  intros [Hh Hc _] [_ Hlast Hhi Ho Hn _] Hl Hna.
  assert (∀ t j, chunk_at d' t = Some j → t ≤ highest_outstanding_tsn d) as Hle.
  { intros t j Hj. destruct (Z.le_gt_cases t (highest_outstanding_tsn d)) as [|Hgt]; [done|]. exfalso. apply Hna. exists t, j. eauto. }
  split; [|intros t j Hj|done].
  - rewrite <- Hh. destruct (Z.le_gt_cases (highest_outstanding_tsn d') (highest_outstanding_tsn d)) as [|Hgt]; [lia|].
    destruct (chunk_at_found d' (highest_outstanding_tsn d')) as [j Hj]; [lia|]. specialize (Hle _ _ Hj). lia.
  - specialize (Hle t j Hj). pose proof (chunk_at_range _ _ _ Hj). destruct (chunk_at_found d t) as [i Hi]; [lia|].
    destruct (Ho t i Hi) as (k & Hk & (Hd & _)); [lia|]. rewrite Hj in Hk. injection Hk as <-. rewrite Hd. by apply Hc.
Qed.

(** A new chunk, which does not expire. *)
Lemma data_log_insert log d now (c : DataToSend) mr ex tsn d' : data_log log d → od_wf d → now < ex →
  Insert (to_send_message_id c) (to_send_data c) now mr ex (to_send_lifecycle_id c) d = (tsn, d') →
  tsn = Some (base + Z.of_nat (length log) + 1) ∧ data_log (log ++ [c]) d' ∧ send_queue_ d' = send_queue_ d.
Proof using Type.
  intros [Hh Hc Hna] Hw Hex HI. unfold Insert, has_expired in HI. cbn [expires_at_ Item_new] in HI. rewrite (proj2 (Z.leb_gt _ _)) in HI by lia.
  injection HI as <- <-. set (item := Item_new _ _ _ _ _ _).
  destruct (append_spec item d Hw eq_refl eq_refl) as (_ & _ & Hh1 & Hnew & Hold). cbv zeta in *. set (d1 := _ <| outstanding_data_ := _ |>) in *.
  assert (∀ t j, chunk_at d1 t = Some j → chunk_at d t = Some j ∨ (t = base + Z.of_nat (length log) + 1 ∧ j = item)) as Hcase.
  { intros t j Hj. pose proof (chunk_at_range _ _ _ Hj). destruct (Z.le_gt_cases t (highest_outstanding_tsn d)) as [Hle|Hgt].
    - left. by rewrite <- Hold.
    - right. assert (t = highest_outstanding_tsn d + 1) as -> by lia. rewrite Hnew in Hj. injection Hj as <-. split; [lia|done]. }
  split; [unfold next_tsn, next_value; by rewrite Hh|]. split; [|done]. split.
  - change (highest_outstanding_tsn d1 = base + Z.of_nat (length (log ++ [c]))). rewrite Hh1, Hh, length_app. cbn. lia.
  - intros t j Hj. destruct (Hcase t j Hj) as [Hi|[-> ->]]; [by apply in_log_app, Hc|]. apply in_log_last.
  - intros (t & j & Hj & Ha). destruct (Hcase t j Hj) as [Hi|[-> ->]]; [|done]. apply Hna. exists t, j. done.
Qed.
End Log.

(** ** The state of the sender *)

(** Chunks of messages that do not expire do not expire. *)
Lemma log_expires log added flights cur q c : log_inv True log added flights cur q → c ∈ log → to_send_expires_at c = PlusInfinity.
Proof.
  intros [_ Hs _ _ _ Hr Ho _] Hc. specialize (Hr I). rewrite Forall_forall in Hr.
  assert (∃ f, f ∈ flights ++ option_list cur ∧ to_send_expires_at c = attr_expires_at (fl_attributes f)) as (f & Hf & ->).
  { rewrite Hs in Hc. apply elem_of_app in Hc as [Hc|Hc].
    - apply list_elem_of_In, in_concat in Hc as (l & Hl & Hc). apply list_elem_of_In, list_elem_of_fmap in Hl as (f & -> & Hf).
      apply list_elem_of_In, elem_of_lookup_imap in Hc as (j & bytes & -> & _). exists f. split; [|done]. apply elem_of_app. by left.
    - destruct cur as [f|]; [|by apply elem_of_nil in Hc]. apply elem_of_lookup_imap in Hc as (j & bytes & -> & _). exists f. split; [|done].
      apply elem_of_app. right. by apply list_elem_of_singleton. }
  destruct (Ho (flight_stream f)) as [Hsub _]. cbv zeta in Hsub. apply (Hr (flight_content f)).
  enough (flight_content f ∈ content_on (flight_stream f) added) as [_ ?]%list_elem_of_filter by done.
  eapply elem_of_sublist; [|exact Hsub]. apply elem_of_app. left. apply list_elem_of_fmap. exists f. split; [done|]. by apply list_elem_of_filter.
Qed.

Section Sender.
Context (first : Z).

(** The chunks [emitted] are chunks that left the queue, with their TSNs. *)
Definition carried (added : list content) (emitted : list (Z * Data)) (d : OutstandingData RRSendQueue) : Prop :=
  ∃ log flights cur, log_inv True log added flights cur (send_queue_ d) ∧ data_log first log d
    ∧ ∀ p, p ∈ emitted → ∃ t data, p = (Wrap 32 t, data) ∧ in_log first log t data.

(** The state of the chunks moves on, the queue does not. *)
Lemma carried_evolves added emitted l d d' : carried added emitted d → od_evolves d d' → last_cumulative_tsn_ack_ d' ≤ highest_outstanding_tsn d →
  ¬ has_abandoned d' → send_queue_ d' = send_queue_ d →
  (∀ p, p ∈ l → p ∈ emitted ∨ ∃ t i, p = (Wrap 32 t, item_data_ i) ∧ chunk_at d t = Some i) → carried added l d'.
Proof using Type.
  intros (log & flights & cur & Hlog & Hd & He) Hev Hl Hna Hq Hp. exists log, flights, cur. rewrite Hq. split; [done|].
  split; [by eapply data_log_evolves|]. intros p Hpl. destruct (Hp p Hpl) as [?|(t & i & -> & Hi)]; [by apply He|].
  exists t, (item_data_ i). split; [done|]. by apply (dl_chunk _ _ _ Hd).
Qed.

Lemma carried_resent added emitted l max d d' : carried added emitted d → resent l max d d' → ¬ has_abandoned d' → carried added (l ++ emitted) d'.
Proof using Type.
  intros Hc [_ _ He _ Hq Hlen Hlast _ Hch] Hna. apply (carried_evolves added emitted _ d d' Hc He); try done.
  - rewrite Hlast. unfold highest_outstanding_tsn, AddTo. lia.
  - intros p [Hp|Hp]%elem_of_app; [|by left]. right. destruct (Hch p Hp) as (t & i & ? & ? & _). eauto.
Qed.

Lemma evolves_abandoned d d' : od_evolves d d' → last_cumulative_tsn_ack_ d' = last_cumulative_tsn_ack_ d → has_abandoned d → has_abandoned d'.
Proof using Type.
  intros He Hl (t & i & Hi & Ha). pose proof (chunk_at_range _ _ _ Hi). destruct (ev_old _ _ He t i Hi) as (j & Hj & (_ & _ & Hab)); [lia|].
  exists t, j. auto.
Qed.

(** A chunk leaves the queue and is sent. *)
Lemma carried_insert added emitted now max_size (d : OutstandingData RRSendQueue) sid chunk q mr ex tsn d' :
  carried added emitted d → od_wf d → 0 < max_size → now < PlusInfinity → chunk_from now max_size (send_queue_ d) sid chunk q →
  (∀ x, to_send_expires_at chunk = x → x = PlusInfinity → ex = PlusInfinity) →
  Insert (to_send_message_id chunk) (to_send_data chunk) now mr ex (to_send_lifecycle_id chunk) (d <| send_queue_ := q |>) = (tsn, d') →
  ∃ t, tsn = Some t ∧ carried added ((Wrap 32 t, to_send_data chunk) :: emitted) d'.
Proof using Type.
  intros (log & flights & cur & Hlog & Hd & He) Hw Hmax Hnow Hcf Hex HI.
  destruct (log_produce True log added flights cur _ now max_size sid chunk q Hlog Hmax (λ _, Hnow) Hcf) as (flights' & cur' & Hlog').
  assert (ex = PlusInfinity) as ->. { apply (Hex _ eq_refl), (log_expires _ _ _ _ _ _ Hlog'). apply elem_of_app. right. by apply list_elem_of_singleton. }
  assert (data_log first log (d <| send_queue_ := q |>)) as Hd1 by (destruct Hd; by split).
  assert (od_wf (d <| send_queue_ := q |>)) as Hw1 by (destruct Hw; by split).
  destruct (data_log_insert first log _ now chunk mr PlusInfinity tsn d' Hd1 Hw1 Hnow HI) as (-> & Hd' & Hq').
  eexists. split; [done|]. exists (log ++ [chunk]), flights', cur'. split; [by rewrite Hq'|]. split; [done|].
  intros p [->|Hp]%elem_of_cons; [do 2 eexists; split; [done|apply in_log_last]|]. destruct (He p Hp) as (t & data & -> & Hin).
  exists t, data. split; [done|]. by apply in_log_app.
Qed.

Lemma carried_subset added l l' d : carried added l d → (∀ p, p ∈ l' → p ∈ l) → carried added l' d.
Proof using Type. intros (log & flights & cur & H1 & H2 & H3) Hl. exists log, flights, cur. auto. Qed.

(** The rounds of a packet. *)
Lemma carried_rounds added emitted now : now < PlusInfinity →
  kept_by_rounds now (λ l d, ¬ has_abandoned d → carried added (l ++ emitted) d).
Proof using Type.
  intros Hnow bytes l r Hw Hq Hb HK sent r' E Hna. unfold send_round in E. unfold bind at 1 in E. cbn [get] in E.
  unfold bind at 1, on_data at 1, on_queue at 1 in E.
  pose proof (Queue_Produce_spec now (bytes - rtx_header_size_ r) _ Hq ltac:(lia)) as Hp. unfold wp in Hp.
  change (queue_Produce now) with (Queue_Produce now) in E.
  destruct (Queue_Produce now _ (send_queue_ (rtx_data_ r))) as [[chunk|] q| | |]; try done.
  - destruct Hp as [sid Hcf]. unfold bind at 1 in E. cbn [modify] in E. unfold bind at 1, insert_chunk in E. unfold bind at 1 in E. cbn [get] in E.
    destruct (Insert _ _ _ _ _ _ _) as [tsn d'] eqn:HI. cbn [bind modify ret] in E.
    assert (rtx_data_ r' = d' ∧ from_option fst [] sent = match tsn with Some t => [(Wrap 32 t, to_send_data chunk)] | None => [] end) as [Hd ->]
      by (unfold bind in E; destruct (bool_decide _ && _); cbn in E; injection E as <- <-; done).
    rewrite Hd in *. assert (¬ has_abandoned (rtx_data_ r)) as Hna0.
    { intros (t & i & Hi & Ha). apply Hna. assert (od_wf (rtx_data_ r <| send_queue_ := q |>)) as Hw1 by (destruct Hw; by split).
      pose proof (Insert_spec (to_send_message_id chunk) (to_send_data chunk) now (if partial_reliability_ r then to_send_max_retransmissions chunk else NoLimit)
        (if partial_reliability_ r then to_send_expires_at chunk else PlusInfinity) (to_send_lifecycle_id chunk) _ Hw1) as Hs.
      cbn in HI, Hs. rewrite HI in Hs. destruct Hs as (_ & _ & _ & _ & _ & Hold & _). destruct (Hold t i Hi) as (j & Hj & (_ & _ & Hab) & _).
      exists t, j. auto. }
    edestruct (carried_insert added (l ++ emitted) now (bytes - rtx_header_size_ r)) as (t & -> & Hc); [by apply HK|done|lia|done|exact Hcf| |exact HI|].
    { intros x <- Hx. cbn. by destruct (partial_reliability_ r). }
    eapply carried_subset; [exact Hc|]. intros p. rewrite !elem_of_app, !elem_of_cons, elem_of_nil, !elem_of_app. tauto.
  - destruct Hp as (Hq' & Hact & Hk). cbn in E. injection E as <- <-. cbn. rewrite app_nil_r. 
    destruct (HK Hna) as (log & flights & cur & Hlog & Hd & He). exists log, flights, cur. split; [|split; [by destruct Hd|done]].
    by eapply log_idle.
Qed.
Lemma carried_moves added emitted d d' : carried added emitted d → od_moves d d' → ¬ has_abandoned d' → carried added emitted d'.
Proof using Type.
  intros Hc (He & Hl & [Hq|?]) Hna; [|done]. apply (carried_evolves added emitted _ d d' Hc He); try done; [|by left].
  rewrite Hl. unfold highest_outstanding_tsn, AddTo. lia.
Qed.

Lemma sends_run sid r emitted added : sends sid first r emitted added → rtx_run r.
Proof using Type.
  induction 1; [apply rtx_run_new; try done; apply RRSendQueue_new_wf|apply rtx_run_queue; [done|]; intros; by apply Queue_Add_wf|by eapply rtx_run_send
    |by eapply rtx_run_sack|by eapply rtx_run_t3|by eapply rtx_run_fast|by eapply rtx_run_forward|by eapply rtx_run_timer].
Qed.

(** The messages that such a sender is given. *)
Definition ordinary (sid : Z) (c : content) : Prop :=
  message_stream_id_ c.1 = sid ∧ attr_unordered c.2 = false ∧ message_payload_ c.1 ≠ [] ∧ Z.of_nat (length (message_payload_ c.1)) < 2 ^ 32.

Lemma sends_ordinary sid r emitted added : sends sid first r emitted added → Forall (ordinary sid) added.
Proof using Type. induction 1; try done. apply Forall_app. by repeat constructor. Qed.

Lemma sends_carried sid r emitted added : sends sid first r emitted added → carried added emitted (rtx_data_ r).
Proof using Type.
  induction 1 as [a_rwnd mtu priority threshold t3 options pr|r emitted added now payload ppid max lifecycle_id Hr IH Hp Hl o msg
    |r emitted added now bytes l r' Hr IH Hb Hnow E Hro Hna|r emitted added now sack ok r' Hr IH Hok Hf Hc E Hna|r emitted added r' Hr IH E Hna
    |r emitted added bytes l r' Hr IH E Hna|r emitted added now b r' Hr IH E Hna|r emitted added t Hr IH Ht].
  - exists [], [], None. split; [apply log_new|]. split; [|by intros p ?%elem_of_nil]. split; cbn; [unfold highest_outstanding_tsn, AddTo, base; cbn; lia|by intros t i [_ ?]%look_Some|].
    by intros (t & i & [_ ?]%look_Some & _).
  - destruct IH as (log & flights & cur & Hlog & Hd & He). exists log, flights, cur. split; [|split; [by destruct Hd|done]]. apply log_add; [done| |done].
    apply Queue_Add_wf; [apply Hlog|done].
  - destruct (rtx_run_inv _ (sends_run _ _ _ _ Hr)) as [Hw Hroom _ _].
    assert (∀ l max d, resent l max (rtx_data_ r) d → ¬ has_abandoned d → carried added (l ++ emitted) d) as Hfirst by (intros; by eapply carried_resent).
    destruct (wp_elim _ _ _ _ _ (GetChunksToSend_rule now _ bytes r (carried_rounds added emitted now Hnow) Hw Hb Hroom Hfirst) E) as [_ Hc].
    eapply carried_subset; [by apply Hc|]. intros p. by rewrite !elem_of_app, list_elem_of_In, <- in_rev, <- list_elem_of_In.
  - destruct (rtx_run_inv _ (sends_run _ _ _ _ Hr)) as [Hw Hroom _ _].
    pose proof (wp_elim _ _ _ _ _ (Rtx_HandleSack_spec now sack r Hw Hroom Hf Hok) E) as H. destruct ok; [|by destruct H as [_ ->]].
    destruct H as [Hv [info Hs] _ _]. destruct (sk_queue _ _ _ _ _ Hs) as [Hq|]; [|done].
    apply (carried_evolves added emitted _ _ _ IH (sk_evolves _ _ _ _ _ Hs)); try done; [|by left]. rewrite (sk_last _ _ _ _ _ Hs). apply Hv.
  - pose proof (rtx_run_inv _ (sends_run _ _ _ _ Hr)) as [Hw Hroom Ho _].
    assert (uint 64 (rtx_mtu (rtx_options_ r))) as Hm by (destruct Ho as (? & ? & _ & ? & _); unfold uint; nia).
    destruct (wp_elim _ _ _ _ _ (HandleT3RtxTimerExpiry_spec r Hw Hroom Hm) E) as (_ & _ & _ & _ & Hmv). by eapply carried_moves.
  - destruct (rtx_run_inv _ (sends_run _ _ _ _ Hr)) as [Hw Hroom _ _]. pose proof (GetChunksForFastRetransmit_spec bytes r Hw Hroom) as H.
    rewrite E in H. destruct H as (_ & _ & _ & _ & _ & Hs & _). eapply carried_subset; [by eapply carried_resent|].
    intros p. by rewrite !elem_of_app, list_elem_of_In, <- in_rev, <- list_elem_of_In.
  - destruct (rtx_run_inv _ (sends_run _ _ _ _ Hr)) as [Hw _ _ _]. destruct (Rtx_ShouldSendForwardTsn_spec now r b r' Hw E) as (_ & _ & _ & _ & [->|Hmv]); [done|].
    by eapply carried_moves.
  - done.
Qed.
End Sender.

(** ** The messages that were sent *)

(** All the pieces of a message: those sent, and what is left of its payload. *)
Definition all_pieces (f : flight) : list (list Z) :=
  let rest := drop (length (concat (fl_pieces f))) (message_payload_ (fl_message f)) in
  fl_pieces f ++ (if bool_decide (rest = []) then [] else [rest]).
Definition sent_chunks (f : flight) : list DataToSend := imap (λ j, piece_chunk f j (S j =? length (all_pieces f))%nat) (fl_pieces f).

(** A message that was begun. *)
Record begun_flight (f : flight) : Prop := mkBegun {
  bf_pieces : pieces_ok (fl_pieces f);
  bf_prefix : concat (fl_pieces f) `prefix_of` message_payload_ (fl_message f)
}.

Lemma all_pieces_ok f : begun_flight f → pieces_ok (all_pieces f) ∧ concat (all_pieces f) = message_payload_ (fl_message f).
Proof.
  intros [[Hne Hp] [rest Hr]]. unfold all_pieces. rewrite Hr, drop_app_length. split.
  - split; [by destruct (fl_pieces f)|]. apply Forall_app. split; [done|]. destruct (bool_decide (rest = [])) eqn:E; [done|].
    apply bool_decide_eq_false in E. by constructor.
  - rewrite concat_app. destruct (bool_decide (rest = [])) eqn:E; [apply bool_decide_eq_true in E as ->; done|]. cbn. by rewrite app_nil_r.
Qed.

Lemma whole_flight_begun f : flight_whole f → begun_flight f ∧ all_pieces f = fl_pieces f ∧ whole_chunks f = sent_chunks f.
Proof.
  intros [Hp Hc]. split; [split; [done|by rewrite Hc]|]. assert (all_pieces f = fl_pieces f) as E.
  { unfold all_pieces. rewrite Hc, drop_all. apply app_nil_r. }
  split; [done|]. unfold whole_chunks, sent_chunks. by rewrite E.
Qed.

Lemma part_flight_begun f i sid : in_progress f i → message_wf sid i → begun_flight f ∧ partial_chunks f = sent_chunks f.
Proof.
  intros [[_ Hm _ _ _ _ _ Hp Hs] Hne] Hw. split; [split; [by split|rewrite Hs, Hm; apply prefix_take]|].
  unfold partial_chunks, sent_chunks. apply imap_ext. intros j p Hj%lookup_lt_Some. unfold all_pieces. rewrite Hs, Hm, length_app.
  rewrite bool_decide_eq_false_2; [rewrite (proj2 (Nat.eqb_neq _ _)); [done|cbn; lia]|].
  intros E%(f_equal length). rewrite length_drop, length_take in E. destruct Hw. unfold message_size in *. cbn in E. lia.
Qed.

(** The messages [all] that were begun, and the chunks of them that left. *)
Record begun_all (log : list DataToSend) (added : list content) (all : list flight) : Prop := mkBegunAll {
  ba_begun : Forall begun_flight all;
  ba_log : log = concat (sent_chunks <$> all);
  ba_whole : ∀ i f, all !! i = Some f → (S i < length all)%nat → all_pieces f = fl_pieces f;
  ba_added : (flight_content <$> all) `prefix_of` added;
  ba_ssn : ∀ i f, all !! i = Some f → fl_ssn f = wrap 16 (Z.of_nat i)
}.

Lemma log_head_wf reliable log added flights cur q sid i : log_inv reliable log added flights cur q → head (items_of q sid) = Some i → message_wf sid i.
Proof.
  intros [Hq _ _ _ _ _ _ _] Hh. unfold items_of in Hh. destruct (map_find sid (streams_ q)) as [s|] eqn:E; [|done].
  destruct (qw_streams _ q Hq sid s E) as [Hm _ _ _ _ _ _ _]. cbn in Hh. destruct (items_ s) as [|j l]; [done|].
  injection Hh as ->. by apply list.Forall_cons in Hm as [? _].
Qed.

(** On one ordered stream they are the first of those added, and numbered from zero. *)
Lemma one_stream log added flights cur q sid : log_inv True log added flights cur q → Forall (ordinary sid) added →
  let all := flights ++ option_list cur in
  (flight_content <$> all) `prefix_of` added ∧ ∀ i f, all !! i = Some f → fl_ssn f = wrap 16 (Z.of_nat i).
Proof.
  intros [_ _ _ _ _ _ Ho Hn] Hord all. rewrite Forall_forall in Hord.
  assert (∀ f, f ∈ all → ordinary sid (flight_content f)) as Hall.
  { intros f Hf. apply Hord. destruct (Ho (flight_stream f)) as [Hsub _].
    enough (flight_content f ∈ content_on (flight_stream f) added) as [_ ?]%list_elem_of_filter by done.
    eapply elem_of_sublist; [|exact Hsub]. apply elem_of_app. left. apply list_elem_of_fmap. exists f. split; [done|]. by apply list_elem_of_filter. }
  assert (flights_on sid all = all) as E1 by (apply list_filter_id; intros f Hf; by apply Hall).
  assert (content_on sid added = added) as E2 by (apply list_filter_id; intros c Hc; by apply Hord).
  assert (filter (λ f, flight_ordered f = true) all = all) as E3.
  { apply list_filter_id. intros f Hf. unfold flight_ordered. destruct (Hall f Hf) as (_ & E & _). cbn in E. by rewrite E. }
  split.
  - destruct (Ho sid) as [_ H]. specialize (H I). rewrite E2 in H. fold all in H. rewrite E1 in H. rewrite <- H. by eexists.
  - destruct (Hn sid) as [H _]. cbv zeta in H. fold all in H. rewrite E1, E3 in H. intros i f Hi.
    apply (f_equal (.!! i)) in H. rewrite !list_lookup_fmap, Hi, lookup_seq_lt in H by (by apply lookup_lt_Some in Hi). by injection H as ->.
Qed.

Lemma log_begun log added flights cur q sid : log_inv True log added flights cur q → Forall (ordinary sid) added →
  begun_all log added (flights ++ option_list cur).
Proof.
  intros Hlog Hord. destruct (one_stream _ _ _ _ _ _ Hlog Hord) as [Hadd Hssn]. pose proof Hlog as [_ Hs Hw Hc _ _ _ _].
  assert (concat (whole_chunks <$> flights) = concat (sent_chunks <$> flights)) as Ew.
  { f_equal. apply list_fmap_ext. intros i f Hi. rewrite Forall_forall in Hw. by apply whole_flight_begun, Hw, (list_elem_of_lookup_2 _ i). }
  assert (Forall begun_flight flights) as Hb by (eapply Forall_impl; [exact Hw|]; intros f Hf; by apply whole_flight_begun).
  assert (match cur with Some f => begun_flight f ∧ partial_chunks f = sent_chunks f | None => True end) as Hcur.
  { destruct cur as [f|]; [|done]. destruct Hc as (_ & x & i & _ & Hh & Hip). eapply part_flight_begun; [done|]. by eapply log_head_wf. }
  split; try done.
  - apply Forall_app. split; [done|]. destruct cur as [f|]; [|done]. change (option_list (Some f)) with [f]. constructor; [apply Hcur|done].
  - rewrite Hs, Ew, fmap_app, concat_app. f_equal. destruct cur as [f|]; [|done]. cbn. destruct Hcur as [_ ->]. by rewrite app_nil_r.
  - intros i f Hi Hlt. rewrite Forall_forall in Hw. apply whole_flight_begun, Hw, (list_elem_of_lookup_2 _ i).
    rewrite length_app in Hlt. rewrite lookup_app_l in Hi; [done|]. destruct cur; cbn in Hlt; lia.
Qed.

(** ** From the log to fragments *)

Section Fragments.
Context (first : Z) (log : list DataToSend) (added : list content) (all : list flight) (sid : Z).
Context (Hall : begun_all log added all) (Hadded : Forall (ordinary sid) added).

(** The message [i], with the TSN of its first chunk. *)
Definition message_sent (i : nat) : sent_message :=
  match all !! i with
  | Some f => mkSent (base first + 1 + Z.of_nat (length (concat (sent_chunks <$> take i all)))) (message_ppid_ (fl_message f)) (all_pieces f)
  | None => mkSent 0 0 []
  end.

Lemma message_at i : (i < length all)%nat → ∃ f, all !! i = Some f ∧ begun_flight f ∧ added !! i = Some (flight_content f) ∧ ordinary sid (flight_content f)
  ∧ message_sent i = mkSent (base first + 1 + Z.of_nat (length (concat (sent_chunks <$> take i all)))) (message_ppid_ (fl_message f)) (all_pieces f).
Proof using Hall Hadded.
  intros [f Hf]%lookup_lt_is_Some. exists f. destruct Hall as [Hb _ _ Ha _]. rewrite Forall_forall in Hb.
  assert (added !! i = Some (flight_content f)) as Hi by (eapply prefix_lookup_Some; [|exact Ha]; by rewrite list_lookup_fmap, Hf).
  split; [done|]. split; [by apply Hb, (list_elem_of_lookup_2 _ i)|]. split; [done|].
  split; [|unfold message_sent; by rewrite Hf]. rewrite Forall_forall in Hadded. by apply Hadded, (list_elem_of_lookup_2 _ i).
Qed.

Lemma pieces_count pieces : Forall (λ p : list Z, p ≠ []) pieces → (length pieces ≤ length (concat pieces))%nat.
Proof using Type. induction 1 as [|p l Hp _ IH]; [done|]. cbn. rewrite length_app. destruct p; [done|]. cbn. lia. Qed.

Lemma message_sent_ok i : (i < length all)%nat → sent_ok (message_sent i).
Proof using Hall Hadded.
  intros (f & _ & Hb & _ & (_ & _ & _ & Hlen) & ->)%message_at. destruct (all_pieces_ok f Hb) as [[Hne Hp] Hc]. split; [done|]. split; [done|].
  pose proof (pieces_count _ Hp) as Hn. rewrite Hc in Hn. unfold fragment_count. cbn in *. lia.
Qed.

Lemma message_sent_sorted i i' : (i < i' < length all)%nat →
  sent_tsn (message_sent i) + Z.of_nat (fragment_count (message_sent i)) ≤ sent_tsn (message_sent i').
Proof using Hall Hadded.
  intros Hi. destruct (message_at i ltac:(lia)) as (f & Hf & _ & _ & _ & ->). destruct (message_at i' ltac:(lia)) as (f' & _ & _ & _ & _ & ->).
  unfold fragment_count. cbn. rewrite (ba_whole _ _ _ Hall i f Hf ltac:(lia)), !fmap_take.
  pose proof (length_concat_take (sent_chunks <$> all) i i' (sent_chunks f)) as H. rewrite list_lookup_fmap, Hf in H. specialize (H eq_refl ltac:(lia)).
  unfold sent_chunks in H at 2. rewrite length_imap in H. lia.
Qed.

Lemma message_sent_first i : (i < length all)%nat → wrap 32 (first - 1) < sent_tsn (message_sent i).
Proof using Hall Hadded. intros (f & _ & _ & _ & _ & ->)%message_at. cbn. unfold base. lia. Qed.

(** A chunk of the log is a fragment of one of the messages. *)
Lemma log_fragment t data : in_log first log t data → ∃ p, is_fragment message_sent (length all) p ∧ t = tsn_of message_sent p
  ∧ on_wire data = fragment sid false p.1 (message_sent p.1) p.2.
Proof using Hall Hadded.
  intros (c & Ht & Hl & ->). rewrite (ba_log _ _ _ Hall) in Hl. apply lookup_concat in Hl as (i & j & l & Hi & Hj & E).
  rewrite list_lookup_fmap in Hi. destruct (all !! i) as [f|] eqn:Hf; [|done]. injection Hi as <-.
  apply list_lookup_imap_Some in Hj as (bytes & Hj & ->). pose proof (lookup_lt_Some _ _ _ Hf) as Hlt.
  destruct (message_at i Hlt) as (f' & Hf' & _ & _ & (Hsid & Hun & _) & Hm). assert (f' = f) as -> by congruence.
  assert (all_pieces f !! j = Some bytes) as Hp by (by apply lookup_app_l_Some). exists (i, j). cbn [fst snd]. split; [|split].
  - split; [done|]. cbn [fst snd]. rewrite Hm. by apply lookup_lt_Some in Hp.
  - unfold tsn_of, fragment_tsn. cbn [fst snd]. rewrite Hm. cbn [sent_tsn]. rewrite fmap_take. lia.
  - unfold on_wire, fragment. rewrite Hm. cbn [piece_chunk to_send_data stream_id ssn ppid payload is_beginning is_end is_unordered sent_ppid sent_fragments].
    cbn in Hsid, Hun. rewrite Hsid, Hun, (ba_ssn _ _ _ Hall i f Hf). f_equal. symmetry. by apply nth_lookup_Some.
Qed.
End Fragments.

(** ** The whole path *)

(** C2: Messages travel from one application to the other.  Take any history of a sender that uses
    one ordered stream and gives no message up: messages are added at any time, packets of any
    sizes are filled, SACKs of any contents arrive, chunks are sent again after timeouts and
    fast.  Then every chunk that left it, repeated ones included, is a fragment, under its TSN,
    of one of the first messages added, and the pieces of each of these make up its payload.
    Fragments may reach the other end out of order, repeated or not at all, within two limits:
    [flows] - the TSN of each is at most 100000 from the cumulative one of the receiver, whose
    queue is neither full nor above its watermark when it arrives; and [near] - successive
    fragments that are not repetitions belong to messages less than [2 ^ 15] apart, so that
    the 16 bits of a stream sequence number tell them, which holds for any order of up to
    [2 ^ 15] messages; beyond it messages are lost ([far_chunk_blocks]).  Then its application
    is given exactly the first messages that were added, in that order, up to the first that
    still misses a fragment. *)
Theorem messages_arrive sid first r emitted added : sends sid first r emitted added →
  ∃ messages total, (total ≤ length added)%nat
    ∧ (∀ i, (i < total)%nat → added.*1 !! i = Some (mkMessage sid (sent_ppid (messages i)) (concat (sent_fragments (messages i)))))
    ∧ (∀ p, p ∈ emitted → ∃ f, is_fragment messages total f ∧ p.1 = wrap 32 (tsn_of messages f)
        ∧ on_wire p.2 = fragment sid false f.1 (messages f.1) f.2)
    ∧ ∀ immediate max watermark l,
        let receiver := mkReceiver (DataTracker_new first) (Queue_new max watermark TraditionalStreams_new) in
        Forall (is_fragment messages total) l → flows sid messages immediate l receiver → near 0 (fresh (λ _ _, false) l) →
        ∃ k, received sid messages immediate l receiver = take k added.*1
          ∧ (k ≤ total)%nat ∧ (∀ i j, (i < k)%nat → (j < fragment_count (messages i))%nat → (i, j) ∈ l)
          ∧ ((k < total)%nat → ∃ j, (j < fragment_count (messages k))%nat ∧ (k, j) ∉ l).
Proof.
  intros H. pose proof (sends_ordinary first sid r emitted added H) as Hord. destruct (sends_carried first sid r emitted added H) as (log & flights & cur & Hlog & Hd & He).
  set (all := flights ++ option_list cur). pose proof (log_begun log added flights cur _ sid Hlog Hord : begun_all log added all) as Hb.
  assert (∀ i, (i < length all)%nat → let m := message_sent first all i in added.*1 !! i = Some (mkMessage sid (sent_ppid m) (concat (sent_fragments m)))) as Hm.
  { intros i Hi. destruct (message_at first log added all sid Hb Hord i Hi) as (f & _ & Hf & Ha & (Hs & _) & ->). cbn. rewrite list_lookup_fmap.
    destruct (all_pieces_ok f Hf) as [_ ->]. etransitivity; [exact (f_equal (fmap fst) Ha)|]. cbn in *. f_equal. destruct (fl_message f). cbn in Hs. by subst. }
  exists (message_sent first all), (length all). split; [|split; [done|split]].
  - pose proof (prefix_length _ _ (ba_added _ _ _ Hb)) as Hl. by rewrite length_fmap in Hl.
  - intros p Hp. destruct (He p Hp) as (t & data & -> & Hin). destruct (log_fragment first log added all sid Hb Hord t data Hin) as (f & Hf & -> & Hw). exists f. split; [done|]. split; [apply Wrap_mod; lia|done].
  - intros immediate max watermark l receiver Hf Hfl Hn.
    destruct (receiver_from_start sid _ _ immediate first max watermark l (message_sent_ok first log added all sid Hb Hord)
      (message_sent_sorted first log added all sid Hb Hord) (message_sent_first first log added all sid Hb Hord) Hf Hfl Hn) as (k & have & shift & Hw & Hhave & Hrec).
    destruct (waiting_lists _ _ _ _ l Hw Hhave) as [Hk Hrest]. exists k. split; [|done]. unfold receiver. rewrite Hrec. apply list_eq. intros i.
    rewrite list_lookup_fmap. destruct (Nat.lt_ge_cases i k) as [Hi|Hi].
    + rewrite lookup_seq_lt, lookup_take_lt by done. symmetry. apply Hm. lia.
    + by rewrite lookup_seq_ge, lookup_take_ge.
Qed.

(** A history: a message of five bytes and one of two, a packet with room for four bytes, a
    timeout, and a packet that repeats the chunk and sends the rest. *)
Definition sample_timer : Timer := Timer_new 1 (mkTimerOptions 1000000 kExponential None PlusInfinity).
Definition after {A} (m : M Sender A) (r : Sender) : Sender := match m r with Ret _ r' => r' | _ => r end.
Definition sent_by {A} (m : M Sender (list A)) (r : Sender) : list A := match m r with Ret l _ => l | _ => [] end.

Definition sample_new : Sender := RetransmissionQueue_new 11 5000 (RRSendQueue_new 1200 256 0) sample_timer (mkRtxOptions 1200 10 4) true false.
Definition sample_add (payload : list Z) : Sender → Sender := change_queue (Queue_Add 0 (mkMessage 7 53 payload) (mkSendOptions false None None NotSet)).
Definition sample_added : list content :=
  (λ payload, (mkMessage 7 53 payload, send_attributes 0 (mkSendOptions false None None NotSet))) <$> [[1; 2; 3; 4; 5]; [6; 7]].

Definition sample_two : Sender := sample_add [6; 7] (sample_add [1; 2; 3; 4; 5] sample_new).
Definition sample_first : Sender := after (GetChunksToSend 100 20) sample_two.
Definition sample_late : Sender := after HandleT3RtxTimerExpiry sample_first.
Definition sample_again : Sender := after (GetChunksToSend 2000 1000) sample_late.
Definition sample_emitted : list (Z * Data) := rev (sent_by (GetChunksToSend 2000 1000) sample_late) ++ rev (sent_by (GetChunksToSend 100 20) sample_two) ++ [].

Lemma no_abandoned_items (r : Sender) : forallb (λ i, negb (is_abandoned i)) (outstanding_data_ (rtx_data_ r)) = true → nothing_abandoned r.
Proof.
  intros H (t & i & [_ Hi]%look_Some & Ha). rewrite forallb_forall in H. specialize (H i (proj1 (list_elem_of_In _ _) (list_elem_of_lookup_2 _ _ _ Hi))).
  by rewrite Ha in H.
Qed.

Definition returns {A} (m : M Sender A) (r : Sender) : bool := match m r with Ret _ _ => true | _ => false end.
Lemma after_unit (m : M Sender unit) r : returns m r = true → m r = Ret tt (after m r).
Proof. unfold returns, after. by destruct (m r) as [[]| | |]. Qed.
Lemma after_list {A} (m : M Sender (list A)) r : returns m r = true → m r = Ret (sent_by m r) (after m r).
Proof. unfold returns, after, sent_by. by destruct (m r). Qed.

Lemma sample_sends : sends 7 11 sample_again sample_emitted sample_added.
Proof.
  assert (sends 7 11 sample_two [] sample_added) as H.
  { apply (sends_add 7 11 _ _ [_] 0 [6; 7] 53 None NotSet); [|done..]. apply (sends_add 7 11 _ _ [] 0 [1; 2; 3; 4; 5] 53 None NotSet); [|done..].
    apply sends_new; [by vm_compute|]. unfold rtx_options_ok. cbn. lia. }
  apply (sends_packet 7 11 sample_late (rev (sent_by (GetChunksToSend 100 20) sample_two) ++ []) sample_added 2000 1000
    (sent_by (GetChunksToSend 2000 1000) sample_late) sample_again);
    [|lia|done|refine (after_list (GetChunksToSend 2000 1000) sample_late _); by vm_compute|by vm_compute|by apply no_abandoned_items; vm_compute].
  apply (sends_t3 7 11 sample_first); [|refine (after_unit HandleT3RtxTimerExpiry sample_first _); by vm_compute|by apply no_abandoned_items; vm_compute].
  apply (sends_packet 7 11 sample_two [] sample_added 100 20 (sent_by (GetChunksToSend 100 20) sample_two) sample_first);
    [exact H|lia|done|refine (after_list (GetChunksToSend 100 20) sample_two _); by vm_compute|by vm_compute|by apply no_abandoned_items; vm_compute].
Qed.

Example sample_emitted_is : (λ p, (p.1, payload p.2, is_beginning p.2, is_end p.2)) <$> rev sample_emitted
  = [(11, [1; 2; 3; 4], true, false); (11, [1; 2; 3; 4], true, false); (12, [5], false, true); (13, [6; 7], true, true)].
Proof. vm_compute. reflexivity. Qed.

Lemma messages_arrive_witness : ∃ messages total, (total ≤ 2)%nat
    ∧ (∀ i, (i < total)%nat → sample_added.*1 !! i = Some (mkMessage 7 (sent_ppid (messages i)) (concat (sent_fragments (messages i)))))
    ∧ (∀ p, p ∈ sample_emitted → ∃ f, is_fragment messages total f ∧ p.1 = wrap 32 (tsn_of messages f)
        ∧ on_wire p.2 = fragment 7 false f.1 (messages f.1) f.2)
    ∧ ∀ immediate max watermark l,
        let receiver := mkReceiver (DataTracker_new 11) (Queue_new max watermark TraditionalStreams_new) in
        Forall (is_fragment messages total) l → flows 7 messages immediate l receiver → near 0 (fresh (λ _ _, false) l) →
        ∃ k, received 7 messages immediate l receiver = take k sample_added.*1
          ∧ (k ≤ total)%nat ∧ (∀ i j, (i < k)%nat → (j < fragment_count (messages i))%nat → (i, j) ∈ l)
          ∧ ((k < total)%nat → ∃ j, (j < fragment_count (messages k))%nat ∧ (k, j) ∉ l).
Proof. exact (messages_arrive 7 11 sample_again sample_emitted sample_added sample_sends). Defined.
