(* ===== verification/StreamReset.v ===== *)
(** * Resetting streams (includes/webrtc/net/dcsctp/socket/stream_reset_handler.h, .cc,
    tx/retransmission_error_counter.h, .cc)

    The handler asks the peer to reset the streams that the application closed, and answers the
    requests of the peer.  The queues and the tracker that it points to are part of its state
    here.  The callbacks and the RE-CONFIG chunks that are sent, each by its parameters, are the
    list [reset_events_], the latest first.  An optional without a value that the code dereferences is the
    fault of a null pointer.  The counter of errors is an [int] that one timeout raises by one. *)

From S2P Require Import Prelude SeqNum SctpTimer SctpWire SctpPacket ReConfig DataTracker Reassembly ReassemblyQueue.
From S2P Require Import SendQueue OutstandingData RetransmissionQueue RRSendQueue.
Open Scope Z_scope.

(** ** RetransmissionErrorCounter *)

Record RetransmissionErrorCounter := mkErrors { limit_ : option Z; counter_ : Z }.
Definition RetransmissionErrorCounter_new (max_retransmissions : option Z) : RetransmissionErrorCounter := mkErrors max_retransmissions 0.
Definition IsExhausted (c : RetransmissionErrorCounter) : bool := match limit_ c with Some limit => limit <? counter_ c | None => false end.
Definition Increment (c : RetransmissionErrorCounter) : bool * RetransmissionErrorCounter :=
  let c := mkErrors (limit_ c) (counter_ c + 1) in
  (match limit_ c with Some limit => negb (limit <? counter_ c) | None => true end, c).
Definition Clear (c : RetransmissionErrorCounter) : RetransmissionErrorCounter := if 0 <? counter_ c then mkErrors (limit_ c) 0 else c.

(** ** State *)

Record CurrentRequest := mkRequest { req_seq_nbr_ : option Z; req_sender_last_assigned_tsn : Z; req_streams : list Z }.
#[export] Instance CurrentRequest_eta : Eta CurrentRequest := λ r, mkRequest (req_seq_nbr_ r) (req_sender_last_assigned_tsn r) (req_streams r).
Definition CurrentRequest_new (sender_last_assigned_tsn : Z) (streams : list Z) : CurrentRequest := mkRequest None sender_last_assigned_tsn streams.
Definition req_seq_nbr (r : CurrentRequest) : Z := default 0 (req_seq_nbr_ r).
Definition has_been_sent (r : CurrentRequest) : bool := bool_decide (is_Some (req_seq_nbr_ r)).
Definition PrepareRetransmission (r : CurrentRequest) : CurrentRequest := r <| req_seq_nbr_ := None |>.
Definition PrepareToSend (new_req_seq_nbr : Z) (r : CurrentRequest) : CurrentRequest := r <| req_seq_nbr_ := Some new_req_seq_nbr |>.

(** The request as [MakeReconfigChunk] writes it. *)
Definition request_of (r : CurrentRequest) : OutgoingSSNResetRequestParameter :=
  mkOutgoing (req_seq_nbr r) (req_seq_nbr r) (req_sender_last_assigned_tsn r) (req_streams r).

Inductive ResetEvent :=
| OnParseFailed
| OnIncomingStreamsReset (streams : list Z)
| OnStreamsResetPerformed (streams : list Z)
| OnStreamsResetFailed (streams : list Z) (reason : Result)
| SendReConfig (parameters : list Z).

Record StreamResetHandler (S Q : Type) := mkHandler {
  reset_events_ : list ResetEvent;
  current_rto : Z;
  tx_error_counter_ : RetransmissionErrorCounter;
  reset_tracker_ : DataTracker;
  reset_reassembly_ : ReassemblyQueue S;
  reset_rtx_ : RetransmissionQueue Q;
  incoming_reconfig_request_sn_unwrapper_ : SeqNumUnwrapper;
  reconfig_timer_ : Timer;
  next_outgoing_req_seq_nbr_ : Z;
  current_request_ : option CurrentRequest;
  last_processed_req_seq_nbr_ : Z;
  last_processed_req_result_ : Result
}.
Arguments mkHandler {S Q}.
Arguments reset_events_ {S Q}.
Arguments current_rto {S Q}.
Arguments tx_error_counter_ {S Q}.
Arguments reset_tracker_ {S Q}.
Arguments reset_reassembly_ {S Q}.
Arguments reset_rtx_ {S Q}.
Arguments incoming_reconfig_request_sn_unwrapper_ {S Q}.
Arguments reconfig_timer_ {S Q}.
Arguments next_outgoing_req_seq_nbr_ {S Q}.
Arguments current_request_ {S Q}.
Arguments last_processed_req_seq_nbr_ {S Q}.
Arguments last_processed_req_result_ {S Q}.
#[export] Instance StreamResetHandler_eta S Q : Eta (StreamResetHandler S Q) := λ h,
  mkHandler (reset_events_ h) (current_rto h) (tx_error_counter_ h) (reset_tracker_ h) (reset_reassembly_ h) (reset_rtx_ h)
    (incoming_reconfig_request_sn_unwrapper_ h) (reconfig_timer_ h) (next_outgoing_req_seq_nbr_ h) (current_request_ h)
    (last_processed_req_seq_nbr_ h) (last_processed_req_result_ h).

(** What a handover carries of it. *)
Record ResetState := mkResetState { last_completed_reset_req_sn : Z; next_reset_req_sn : Z }.

Definition kPendingStreamResetRequest : Z := 4.
Definition kPendingStreamReset : Z := 16.

(** The option [TimerOptions(TimeDelta::Zero())]. *)
Definition reconfig_timer_options : TimerOptions := mkTimerOptions 0 kExponential None PlusInfinity.

Section Operations.
Context {S Q : Type} `{!ReassemblyStreams S} `{!SendQueue Q} `{!StreamResets Q}.
Abbreviation Handler := (StreamResetHandler S Q).
Implicit Types h : Handler.

Definition StreamResetHandler_new (my_initial_tsn peer_initial_tsn rto : Z) (max_retransmissions : option Z) (timer_id : Z)
    (tracker : DataTracker) (reassembly : ReassemblyQueue S) (rtx : RetransmissionQueue Q) (handover_state : option ResetState) : Handler :=
  let '(last, unwrapper) := Unwrap 32 0
    (match handover_state with Some state => last_completed_reset_req_sn state | None => wrap 32 (peer_initial_tsn - 1) end) SeqNumUnwrapper_new in
  mkHandler [] rto (RetransmissionErrorCounter_new max_retransmissions) tracker reassembly rtx unwrapper (Timer_new timer_id reconfig_timer_options)
    (match handover_state with Some state => next_reset_req_sn state | None => my_initial_tsn end) None last kSuccessNothingToDo.

(** A parser; the checks inside it abort. *)
Definition parsing {A} (p : parsed A) : M Handler (option A) :=
  match p with Parsed a => ret (Some a) | Rejected => ret None | CheckFailed => terminate end.
Definition notify (e : ResetEvent) : M Handler unit := modify (λ h, h <| reset_events_ ::= cons e |>).

Definition DescriptorsAre (c0 c1 : ParameterDescriptor) (e1 e2 : Z) : bool :=
  ((param_type c0 =? e1) && (param_type c1 =? e2)) || ((param_type c0 =? e2) && (param_type c1 =? e1)).
Definition Validate (descs : list ParameterDescriptor) : bool :=
  match descs with
  | [d] => (param_type d =? kType OutgoingResetConfig) || (param_type d =? kType IncomingResetConfig) || (param_type d =? kType SSNTSNResetConfig)
      || (param_type d =? kType AddOutgoingConfig) || (param_type d =? kType AddIncomingConfig) || (param_type d =? kType ResponseConfig)
  | [d0; d1] => DescriptorsAre d0 d1 (kType OutgoingResetConfig) (kType IncomingResetConfig)
      || DescriptorsAre d0 d1 (kType AddOutgoingConfig) (kType AddIncomingConfig)
      || DescriptorsAre d0 d1 (kType ResponseConfig) (kType OutgoingResetConfig)
      || DescriptorsAre d0 d1 (kType ResponseConfig) (kType ResponseConfig)
  | _ => false
  end.

Abbreviation Responses := (list ReconfigurationResponseParameter).

Definition ValidateReqSeqNbr (req_sn : Z) (responses : Responses) h : bool * Responses :=
  if req_sn =? last_processed_req_seq_nbr_ h then (false, responses ++ [Response_new (Wrap 32 req_sn) (last_processed_req_result_ h)])
  else if negb (req_sn =? next_value (last_processed_req_seq_nbr_ h)) then (false, responses ++ [Response_new (Wrap 32 req_sn) kErrorBadSequenceNumber])
  else (true, responses).

(** The number of a request, unwrapped. *)
Definition unwrap_request (sn : Z) : M Handler Z := λ h,
  let '(x, u) := Unwrap 32 0 sn (incoming_reconfig_request_sn_unwrapper_ h) in Ret x (h <| incoming_reconfig_request_sn_unwrapper_ := u |>).

Definition perform_outgoing (req : OutgoingSSNResetRequestParameter) h : Handler :=
  if IsLaterThanCumulativeAckedTsn (out_sender_last_assigned_tsn req) (reset_tracker_ h) then
    h <| reset_reassembly_ ::= EnterDeferredReset (out_sender_last_assigned_tsn req) (out_stream_ids req) |> <| last_processed_req_result_ := kInProgress |>
  else
    h <| reset_reassembly_ ::= ResetStreamsAndLeaveDeferredReset (out_stream_ids req) |>
      <| reset_events_ ::= cons (OnIncomingStreamsReset (out_stream_ids req)) |> <| last_processed_req_result_ := kSuccessPerformed |>.

Definition HandleResetOutgoing (data : list Z) (responses : Responses) : M Handler Responses :=
  let! parsed_req := parsing (OutgoingReset_Parse data) in
  match parsed_req with
  | None => notify OnParseFailed ;; ret responses
  | Some req =>
    let! request_sn := unwrap_request (out_request_sequence_number req) in
    let! v := gets (ValidateReqSeqNbr request_sn responses) in
    if v.1 then
      modify (λ h, perform_outgoing req (h <| last_processed_req_seq_nbr_ := request_sn |>)) ;;
      gets (λ h, v.2 ++ [Response_new (out_request_sequence_number req) (last_processed_req_result_ h)])
    else ret v.2
  end.

Definition HandleResetIncoming (data : list Z) (responses : Responses) : M Handler Responses :=
  let! parsed_req := parsing (IncomingReset_Parse data) in
  match parsed_req with
  | None => notify OnParseFailed ;; ret responses
  | Some req =>
    let! request_sn := unwrap_request (in_request_sequence_number req) in
    let! v := gets (ValidateReqSeqNbr request_sn responses) in
    if v.1 then
      modify (λ h, h <| last_processed_req_seq_nbr_ := request_sn |>) ;;
      ret (v.2 ++ [Response_new (in_request_sequence_number req) kSuccessNothingToDo])
    else ret v.2
  end.

Definition start_reconfig_timer h : Handler := h <| reconfig_timer_ ::= (λ t, Timer_Start (set_duration (current_rto h) t)) |>.

(** The answer to the request that is outstanding. *)
Definition react (req : CurrentRequest) (result : Result) h : Handler :=
  let h := h <| reconfig_timer_ ::= Timer_Stop |> in
  match result with
  | kSuccessNothingToDo | kSuccessPerformed =>
    h <| reset_events_ ::= cons (OnStreamsResetPerformed (req_streams req)) |> <| current_request_ := None |> <| reset_rtx_ ::= Rtx_CommitResetStreams |>
  | kInProgress => start_reconfig_timer (h <| current_request_ := Some (PrepareRetransmission req) |>)
  | kErrorRequestAlreadyInProgress | kDenied | kErrorWrongSSN | kErrorBadSequenceNumber =>
    h <| reset_events_ ::= cons (OnStreamsResetFailed (req_streams req) result) |> <| current_request_ := None |> <| reset_rtx_ ::= Rtx_RollbackResetStreams |>
  end.

Definition HandleResponse (data : list Z) : M Handler unit :=
  let! parsed_resp := parsing (Response_Parse data) in
  match parsed_resp with
  | None => notify OnParseFailed
  | Some resp =>
    modify (λ h, match current_request_ h with
      | Some req => if has_been_sent req && (response_sequence_number resp =? req_seq_nbr req) then react req (response_result resp) h else h
      | None => h
      end)
  end.

Definition process_one (responses : Responses) (desc : ParameterDescriptor) : M Handler Responses :=
  if param_type desc =? kType OutgoingResetConfig then HandleResetOutgoing (param_data desc) responses
  else if param_type desc =? kType IncomingResetConfig then HandleResetIncoming (param_data desc) responses
  else if param_type desc =? kType ResponseConfig then HandleResponse (param_data desc) ;; ret responses
  else ret responses.
Definition Process (descs : list ParameterDescriptor) : M Handler (option Responses) :=
  if negb (Validate descs) then ret None
  else let! responses := fold_m process_one descs [] in ret (Some responses).

(** The packet is built of one chunk with the parameters. *)
Definition send_parameters (ps : list AnyParameter) : M Handler unit :=
  let! data := parsing (build_parameters ps) in
  match data with Some data => notify (SendReConfig data) | None => terminate end.

Definition HandleReConfig (parameters : list Z) : M Handler unit :=
  let! descs := parsing (descriptors parameters) in
  match descs with
  | None => terminate
  | Some descs =>
    let! responses := Process descs in
    match responses with
    | None => notify OnParseFailed
    | Some [] => ret tt
    | Some responses => send_parameters (ResponseParam <$> responses)
    end
  end.

(** The numbers are [uint32_t]. *)
Definition MakeReconfigChunk : M Handler (list Z) :=
  let! h := get in
  let! req := deref (current_request_ h) in
  let '(req, h) := if has_been_sent req then (req, h) else
    let req := PrepareToSend (next_outgoing_req_seq_nbr_ h) req in
    (req, h <| current_request_ := Some req |> <| next_outgoing_req_seq_nbr_ := wrap 32 (next_outgoing_req_seq_nbr_ h + 1) |>) in
  modify (λ _, h) ;;
  let! data := parsing (build_parameters [OutgoingResetParam (request_of req)]) in
  match data with Some data => ret data | None => terminate end.

Definition MakeStreamResetRequest : M Handler (option (list Z)) :=
  let! h := get in
  if bool_decide (is_Some (current_request_ h)) || negb (Rtx_HasStreamsReadyToBeReset (reset_rtx_ h)) then ret None
  else
    let tsn := last_assigned_tsn (reset_rtx_ h) in
    let '(streams, rtx) := Rtx_BeginResetStreams (reset_rtx_ h) in
    modify (λ h, start_reconfig_timer (h <| reset_rtx_ := rtx |> <| current_request_ := Some (CurrentRequest_new tsn streams) |>)) ;;
    let! data := MakeReconfigChunk in ret (Some data).

(** [DcSctpSocket::MaybeSendResetStreamsRequest]. *)
Definition MaybeSendResetStreamsRequest : M Handler unit :=
  let! reconfig := MakeStreamResetRequest in
  match reconfig with Some data => notify (SendReConfig data) | None => ret tt end.

Definition ResetStreams (outgoing_streams : list Z) h : Handler :=
  h <| reset_rtx_ ::= (λ r, foldl (λ r sid, Rtx_PrepareResetStream sid r) r outgoing_streams) |>.

Definition OnReconfigTimerExpiry : M Handler Z :=
  let! h := get in
  let! req := deref (current_request_ h) in
  let '(go_on, errors) := if has_been_sent req then Increment (tx_error_counter_ h) else (true, tx_error_counter_ h) in
  modify (λ h, h <| tx_error_counter_ := errors |>) ;;
  if go_on then
    let! data := MakeReconfigChunk in
    notify (SendReConfig data) ;;
    gets current_rto
  else ret 0.

(** The timeout of [generation]: [Timer::Trigger], whose callback does not touch the timer. *)
Definition reconfig_timeout (generation : Z) : M Handler unit :=
  let! h := get in
  if is_running_ (reconfig_timer_ h) && (generation =? generation_ (reconfig_timer_ h)) then
    let! new_duration := OnReconfigTimerExpiry in
    modify (λ h, h <| reconfig_timer_ ::= (λ t, (Timer_Trigger (λ t, (new_duration, t)) generation t).2) |>)
  else ret tt.

Definition Reset_GetHandoverReadiness h : Z :=
  Z.lor (if Rtx_HasStreamsReadyToBeReset (reset_rtx_ h) then kPendingStreamReset else 0)
    (if bool_decide (is_Some (current_request_ h)) then kPendingStreamResetRequest else 0).
Definition Reset_AddHandoverState h : ResetState := mkResetState (Wrap 32 (last_processed_req_seq_nbr_ h)) (next_outgoing_req_seq_nbr_ h).
End Operations.

(** ** The bytes of one parameter *)

(** Requests and responses of the handler can always be written. *)
Definition outgoing_header (p : OutgoingSSNResetRequestParameter) : list Z :=
  tlv_header 0 (Z.of_nat (16 + length (out_stream_ids p) * 2)) 13 ++ be32 (out_request_sequence_number p) ++ be32 (out_response_sequence_number p)
    ++ be32 (out_sender_last_assigned_tsn p).
Definition outgoing_bytes (p : OutgoingSSNResetRequestParameter) : list Z := outgoing_header p ++ concat (be16 <$> out_stream_ids p).

Lemma outgoing_length p : length (outgoing_bytes p) = (16 + length (out_stream_ids p) * 2)%nat.
Proof. unfold outgoing_bytes. by rewrite length_app, streams_length. Qed.

Lemma outgoing_built p : build_parameters [OutgoingResetParam p] = Parsed (outgoing_bytes p).
Proof.
  assert (∀ out, OutgoingReset_SerializeTo p out = Parsed (out ++ outgoing_bytes p)) as H.
  - intros out. unfold OutgoingReset_SerializeTo. cbv zeta.
    match goal with |- context [write_records 16 2 _ 0 ?w] => change w with (outgoing_header p ++ replicate (length (out_stream_ids p) * 2) 0) end.
    by rewrite streams_written by done.
  - unfold build_parameters. cbn [build_loop Param_SerializeTo]. by rewrite (Parameters_Add_bytes _ _ _ H).
Qed.

Definition response_bytes (sn : Z) (r : Result) : list Z :=
  tlv_header 0 12 16 ++ be32 sn ++ be32 (result_number r).

Lemma response_built sn r : build_parameters [ResponseParam (Response_new sn r)] = Parsed (response_bytes sn r).
Proof. done. Qed.

(** A chunk with one parameter, as it is sent. *)
Definition chunk_of (p : AnyParameter) (ps : list Z) : Prop := param_wf p ∧ build_parameters [p] = Parsed ps ∧ Z.of_nat (4 + length ps) < 2 ^ 16.
(** The parameters as they are handled. *)
Definition carries (ps : list Z) (p : AnyParameter) : Prop := ∃ desc, descriptors ps = Parsed [desc] ∧ reads desc p.

Lemma chunk_carries p ps : chunk_of p ps → Parameters_Parse ps = Parsed ps ∧ carries ps p.
Proof.
  intros (Hwf & Hb & Hlen). destruct (parameters_written [p]) as (descs & Hpb & Hr & E); [by constructor|].
  rewrite Hb in E. injection E as ->. destruct (built_parameters descs Hpb) as [Hp' Hd].
  split; [done|]. apply list.Forall2_cons_inv_r in Hr as (desc & descs' & Hd1 & Hn & ->). apply Forall2_nil_inv_r in Hn as ->. by exists desc.
Qed.

Lemma chunk_received p ps pad ps' : chunk_of p ps → (length pad ≤ 3)%nat →
  ReConfigChunk_Parse (ReConfigChunk_SerializeTo ps [] ++ pad) = Parsed ps' → carries ps' p.
Proof.
  intros Hc Hpad. destruct (chunk_carries p ps Hc) as [Hp Hcar]. rewrite chunk_parsed; [by intros [= <-]| |done]. split; [done|apply Hc].
Qed.

Lemma response_chunk sn r : uint 32 sn → chunk_of (ResponseParam (Response_new sn r)) (response_bytes sn r).
Proof. intros H. split; [by split|]. split; [apply response_built|done]. Qed.

(** ** The handler never fails *)

Section Safety.
Context {S Q : Type} `{!ReassemblyStreams S} `{!SendQueue Q} `{!StreamResets Q}.
Abbreviation Handler := (StreamResetHandler S Q).
Implicit Types h : Handler.

Definition wire_streams (p : OutgoingSSNResetRequestParameter) : Prop := Forall (uint 16) (out_stream_ids p) ∧ Z.of_nat (length (out_stream_ids p)) ≤ 32000.

(** What the handler sends: the request that is outstanding, with a new number if it has none. *)
Definition numbered (r : CurrentRequest) h : CurrentRequest * Handler :=
  if has_been_sent r then (r, h) else
    let r := PrepareToSend (next_outgoing_req_seq_nbr_ h) r in
    (r, h <| current_request_ := Some r |> <| next_outgoing_req_seq_nbr_ := wrap 32 (next_outgoing_req_seq_nbr_ h + 1) |>).

Lemma MakeReconfigChunk_spec h r : current_request_ h = Some r →
  MakeReconfigChunk h = Ret (outgoing_bytes (request_of (numbered r h).1)) (numbered r h).2.
Proof using Type.
  intros E. unfold MakeReconfigChunk, numbered, bind, get. rewrite E. cbn [deref ret]. destruct (has_been_sent r); unfold modify, parsing.
  - by rewrite (outgoing_built (request_of r)).
  - by rewrite (outgoing_built (request_of (PrepareToSend (next_outgoing_req_seq_nbr_ h) r))).
Qed.

(** The timer runs exactly while a request is outstanding, and never gives up. *)
Definition reset_wf h : Prop :=
  is_running_ (reconfig_timer_ h) = bool_decide (is_Some (current_request_ h)) ∧ max_restarts (options_ (reconfig_timer_ h)) = None.

Lemma started t : is_running_ (Timer_Start t) = true ∧ options_ (Timer_Start t) = options_ t.
Proof using Type. unfold Timer_Start, arm. by destruct t as [? ? ? ? ? [] ?]. Qed.
Lemma stopped t : is_running_ (Timer_Stop t) = false ∧ options_ (Timer_Stop t) = options_ t.
Proof using Type. unfold Timer_Stop. by destruct t as [? ? ? ? ? [] ?]. Qed.

(** A timer without a limit of restarts runs on after it expired. *)
Lemma triggered new_duration generation t : max_restarts (options_ t) = None →
  let t' := (Timer_Trigger (λ t, (new_duration, t)) generation t).2 in is_running_ t' = is_running_ t ∧ options_ t' = options_ t.
Proof using Type.
  intros H. unfold Timer_Trigger, restarts_left. destruct t as [id o to d g r e]. cbn in H. destruct r; [|done]. cbn. destruct (_ =? _); [|done]. cbn. rewrite H.
  cbn. by destruct (_ && _).
Qed.

Lemma responses_built rs : ∃ data, build_parameters (ResponseParam <$> rs) = Parsed data.
Proof using Type.
  unfold build_parameters. generalize (@nil Z). induction rs as [|r rs IH]; intros data; [by eexists|]. cbn [fmap list_fmap build_loop Param_SerializeTo].
  assert (∃ b, ∀ out, Response_SerializeTo r out = Parsed (out ++ b)) as [b Hb] by (destruct r as [sn result [s|] receiver]; eexists; intros out; reflexivity).
  rewrite (Parameters_Add_bytes _ _ _ Hb). apply IH.
Qed.

Lemma parsing_rule {A} (p : parsed A) (P : option A → Handler → Prop) h : p ≠ CheckFailed → (∀ a, p = Parsed a → P (Some a) h) → P None h → wp (parsing p) P h.
Proof using Type. destruct p; intros H1 H2 H3; [by apply H2|done|done]. Qed.

Lemma notify_wf e h : reset_wf h → wp (notify e) (λ _, reset_wf) h.
Proof using Type. done. Qed.

Lemma react_wf r result h : reset_wf h → reset_wf (react r result h).
Proof using Type.
  intros [_ Ho]. destruct (stopped (reconfig_timer_ h)) as [Hr Ho'].
  destruct result; unfold react, reset_wf, start_reconfig_timer; cbn; rewrite ?Hr, ?Ho'; try done.
  match goal with |- context [Timer_Start ?t] => destruct (started t) as [-> ->] end. cbn. by rewrite Ho'.
Qed.

Lemma process_one_wf rs desc h : reset_wf h → wp (process_one rs desc) (λ _, reset_wf) h.
Proof using Type.
  intros H. destruct (parameter_parsers_safe (param_data desc)) as (H1 & H2 & H3). unfold process_one. repeat case_match; [| | |done].
  - unfold HandleResetOutgoing. apply wp_bind. apply parsing_rule; [done| |done]. intros req _. unfold unwrap_request. apply wp_bind. unfold wp. cbn.
    destruct (ValidateReqSeqNbr _ _ _) as [[] rs']; [|done]. cbn. unfold perform_outgoing. cbn. by destruct (IsLaterThanCumulativeAckedTsn _ _).
  - unfold HandleResetIncoming. apply wp_bind. apply parsing_rule; [done| |done]. intros req _. unfold unwrap_request. apply wp_bind. unfold wp. cbn.
    by destruct (ValidateReqSeqNbr _ _ _) as [[] rs'].
  - unfold HandleResponse. apply wp_bind. apply wp_bind. apply parsing_rule; [done| |done]. intros resp _. unfold wp. cbn.
    destruct (current_request_ h) as [r|] eqn:E; [|done]. destruct (_ && _); [|done]. by apply react_wf.
Qed.

Lemma HandleReConfig_wf ps h : (∃ descs, descriptors ps = Parsed descs) → reset_wf h → wp (HandleReConfig ps) (λ _, reset_wf) h.
Proof using Type.
  intros [descs E] H. unfold HandleReConfig. apply wp_bind. rewrite E. unfold wp at 1. cbn [parsing ret]. apply wp_bind. unfold Process.
  destruct (negb _); [done|]. apply wp_bind.
  eapply wp_mono; [|apply (wp_fold_m process_one (λ _ _, reset_wf) descs [] h); [done|intros; by apply process_one_wf]].
  intros rs h' H'. destruct rs as [|r rs]; [done|]. cbn. unfold send_parameters. apply wp_bind. destruct (responses_built (r :: rs)) as [data Hd]. 
  change (ResponseParam r :: (ResponseParam <$> rs)) with (ResponseParam <$> (r :: rs)). rewrite Hd. done.
Qed.

Lemma MakeReconfigChunk_wf h : reset_wf h → is_Some (current_request_ h) → wp MakeReconfigChunk (λ _, reset_wf) h.
Proof using Type.
  intros [H1 H2] [r E]. unfold wp. rewrite (MakeReconfigChunk_spec h r E). unfold numbered. destruct (has_been_sent r); [done|]. split; [|done]. cbn. by rewrite H1, E.
Qed.

Lemma MakeStreamResetRequest_wf h : reset_wf h → wp MakeStreamResetRequest (λ _, reset_wf) h.
Proof using Type.
  intros H. unfold MakeStreamResetRequest. apply wp_bind. unfold wp at 1. cbn [get]. destruct (_ || _); [done|]. destruct (Rtx_BeginResetStreams _) as [streams rtx].
  apply wp_bind. unfold wp at 1. cbn [modify]. apply wp_bind. eapply wp_mono; [|apply MakeReconfigChunk_wf]; [done| |by eexists]. unfold reset_wf, start_reconfig_timer. cbn.
  match goal with |- context [Timer_Start ?t] => destruct (started t) as [-> ->] end. split; [done|apply H].
Qed.

Lemma reconfig_timeout_wf g h : reset_wf h → wp (reconfig_timeout g) (λ _, reset_wf) h.
Proof using Type.
  intros H. unfold reconfig_timeout. apply wp_bind. unfold wp at 1. cbn [get]. destruct (is_running_ _) eqn:Er; [|done]. cbn [andb]. destruct (_ =? _); [|done].
  pose proof H as [Hr Ho]. rewrite Er in Hr. symmetry in Hr. apply bool_decide_eq_true_1 in Hr as [r E]. apply wp_bind. apply (wp_mono _ (λ _, reset_wf)).
  - intros d h' [H1 H2]. unfold wp, reset_wf. cbn. destruct (triggered d g (reconfig_timer_ h') H2) as [-> ->]. done.
  - unfold OnReconfigTimerExpiry. apply wp_bind. unfold wp at 1. cbn [get]. rewrite E. apply wp_bind. unfold wp at 1. cbn [deref ret].
    destruct (if has_been_sent r then _ else _) as [[] errors]; [|done]. apply wp_bind. unfold wp at 1. cbn [modify]. apply wp_bind.
    eapply wp_mono; [|apply MakeReconfigChunk_wf]; [|done|by exists r]. done.
Qed.
End Safety.

(** The histories of a handler: the other components change what it points to, and it receives
    any bytes that parse as a chunk. *)
Inductive reset_run {S Q} `{!ReassemblyStreams S} `{!SendQueue Q} `{!StreamResets Q} : StreamResetHandler S Q → Prop :=
| reset_start my_tsn peer_tsn rto limit id tracker reassembly rtx handover :
    reset_run (StreamResetHandler_new my_tsn peer_tsn rto limit id tracker reassembly rtx handover)
| reset_outside h rto errors tracker reassembly rtx : reset_run h →
    reset_run (h <| current_rto := rto |> <| tx_error_counter_ := errors |> <| reset_tracker_ := tracker |> <| reset_reassembly_ := reassembly |>
      <| reset_rtx_ := rtx |>)
| reset_streams h streams : reset_run h → reset_run (ResetStreams streams h)
| reset_receives h h' data ps : reset_run h → ReConfigChunk_Parse data = Parsed ps → HandleReConfig ps h = Ret tt h' → reset_run h'
| reset_asks h h' : reset_run h → MaybeSendResetStreamsRequest h = Ret tt h' → reset_run h'
| reset_expires h h' g : reset_run h → reconfig_timeout g h = Ret tt h' → reset_run h'.

Lemma reset_run_wf {S Q} `{!ReassemblyStreams S} `{!SendQueue Q} `{!StreamResets Q} (h : StreamResetHandler S Q) : reset_run h → reset_wf h.
Proof.
  induction 1 as [| | |h h' data ps _ IH Hp E|h h' _ IH E|h h' g _ IH E]; try done.
  - refine (wp_elim _ _ _ _ _ (HandleReConfig_wf ps h (chunk_descriptors data ps Hp) IH) E).
  - refine (wp_elim _ (λ _, reset_wf) _ _ _ _ E). unfold MaybeSendResetStreamsRequest. apply wp_bind. eapply wp_mono; [|by apply MakeStreamResetRequest_wf]. by intros [ps|].
  - refine (wp_elim _ (λ _, reset_wf) _ _ _ _ E). by apply reconfig_timeout_wf.
Qed.

(** C29: Whatever a peer sends and whenever the timer fires, the handler returns: the timer runs
    exactly while a request is outstanding, so that its expiry always finds one. *)
Theorem reset_handler_never_fails {S Q} `{!ReassemblyStreams S} `{!SendQueue Q} `{!StreamResets Q} (h : StreamResetHandler S Q) : reset_run h →
  is_running_ (reconfig_timer_ h) = bool_decide (is_Some (current_request_ h))
  ∧ (∀ data ps, ReConfigChunk_Parse data = Parsed ps → ∃ h', HandleReConfig ps h = Ret tt h')
  ∧ (∃ h', MaybeSendResetStreamsRequest h = Ret tt h') ∧ ∀ g, ∃ h', reconfig_timeout g h = Ret tt h'.
Proof.
  intros H%reset_run_wf. split; [apply H|]. split; [|split].
  - intros data ps Hp. apply (wp_returns _ (λ _, reset_wf)), HandleReConfig_wf; [|done]. by apply (chunk_descriptors data).
  - apply (wp_returns _ (λ _ _, True)). unfold MaybeSendResetStreamsRequest. apply wp_bind. eapply wp_mono; [|by apply MakeStreamResetRequest_wf]. by intros [ps|].
  - intros g. by apply (wp_returns _ (λ _, reset_wf)), reconfig_timeout_wf.
Qed.

(** ** Two ends

    The chunks that an end has sent are in its list of events; the network may deliver each of
    them any number of times, in any order, or never. *)

Definition reported (events : list ResetEvent) : list (list Z) :=
  omap (λ e, match e with OnStreamsResetPerformed streams => Some streams | _ => None end) (rev events).
Definition performed (events : list ResetEvent) : list (list Z) :=
  omap (λ e, match e with OnIncomingStreamsReset streams => Some streams | _ => None end) (rev events).
#[global] Arguments reported : simpl never.
#[global] Arguments performed : simpl never.
(** The failures that are not of the network. *)
Definition failure (e : ResetEvent) : bool := match e with OnParseFailed | OnStreamsResetFailed _ _ => true | _ => false end.

(** *** What two ends agree on

    Of one direction: the requests that were made, and the results of those that were
    processed, at most one fewer. *)

Abbreviation Request := OutgoingSSNResetRequestParameter.

(** The streams of the requests that were performed. *)
Definition succeeded (l : list (Request * Result)) : list (list Z) :=
  omap (λ q, if decide (q.2 = kSuccessPerformed) then Some (out_stream_ids q.1) else None) l.

(** The requests whose result the requester has seen. *)
Definition told (cur : option CurrentRequest) (R : list Request) : list Request :=
  match cur with Some r => if has_been_sent r then take (length R - 1) R else R | None => R end.

(** An answer that may be on its way. *)
Definition answer (base : Z) (U : list Result) (sn : Z) (r : Result) : Prop :=
  ∃ k : nat, sn = wrap 32 (base + 1 + Z.of_nat k) ∧ (U !! k = Some r ∨ (r = kErrorBadSequenceNumber ∧ (k + 1 < length U)%nat)).

Record direction (base : Z) (R : list Request) (U : list Result) (next : Z) (cur : option CurrentRequest) (rep : list (list Z))
    (unwrapper : SeqNumUnwrapper) (processed : Z) (result : Result) (perf : list (list Z)) : Prop := mkDirection {
  d_next : next = wrap 32 (base + 1 + Z.of_nat (length R));
  d_requests : ∀ k p, R !! k = Some p → out_request_sequence_number p = wrap 32 (base + 1 + Z.of_nat k);
  d_unwrapper : ∃ u, unwrapper = mkUnwrapper u (Some (wrap 32 u)) ∧ base ≤ u ≤ base + Z.of_nat (length R);
  d_processed : processed = base + Z.of_nat (length U);
  d_lengths : (length U ≤ length R ≤ length U + 1)%nat;
  d_results : Forall (λ r, r = kSuccessPerformed ∨ r = kInProgress) U;
  d_result : ∀ r, list.last U = Some r → result = r;
  d_idle : (∀ r, cur = Some r → has_been_sent r = false) → length U = length R;
  d_waits : ∀ r, cur = Some r → uint 32 (req_sender_last_assigned_tsn r) ∧ wire_streams (request_of r) ∧ (has_been_sent r = true → list.last R = Some (request_of r));
  d_performed : perf = succeeded (zip R U);
  d_reported : rep = succeeded (zip (told cur R) U)
}.

Lemma succeeded_app l l' : succeeded (l ++ l') = succeeded l ++ succeeded l'.
Proof. apply omap_app. Qed.

Lemma zip_longer {A B} (l l' : list A) (k : list B) : length l = length k → zip (l ++ l') k = zip l k.
Proof. revert k. induction l as [|a l IH]; intros [|b k] H; try done; [by destruct l'|]. cbn. f_equal. apply IH. by injection H. Qed.

Lemma zip_longer_r {A B} (l : list A) (k k' : list B) : length l = length k → zip l (k ++ k') = zip l k.
Proof. revert k. induction l as [|a l IH]; intros [|b k] H; try done. cbn. f_equal. apply IH. by injection H. Qed.

Lemma Unwrap_near u v : Z.abs (v - u) < 2 ^ 31 → Unwrap 32 0 (wrap 32 v) (mkUnwrapper u (Some (wrap 32 u))) = (v, mkUnwrapper v (Some (wrap 32 v))).
Proof. intros H. unfold Unwrap. cbn [last_value_ last_unwrapped_]. rewrite Delta_exact by lia. by replace (u + (v - u)) with v by lia. Qed.

Lemma answer_grows base U r' sn r : answer base U sn r → answer base (U ++ [r']) sn r.
Proof.
  intros (k & Hsn & [H|[H Hk]]); exists k; (split; [done|]); [left; by apply lookup_app_l_Some|right]. rewrite length_app. split; [done|lia].
Qed.

Section Direction.
Context (base : Z) (R : list Request) (U : list Result) (next : Z) (cur : option CurrentRequest) (rep : list (list Z)).
Context (unwrapper : SeqNumUnwrapper) (processed : Z) (result : Result) (perf : list (list Z)).
Hypothesis H : direction base R U next cur rep unwrapper processed result perf.
Hypothesis Hlen : Z.of_nat (length R) < 2 ^ 31.

(** The requester makes a request, or sends the one that was put off under a new number. *)
Lemma direction_request r : (∀ r, cur = Some r → has_been_sent r = false) → req_seq_nbr_ r = Some next →
  uint 32 (req_sender_last_assigned_tsn r) → wire_streams (request_of r) →
  direction base (R ++ [request_of r]) U (wrap 32 (next + 1)) (Some r) rep unwrapper processed result perf.
Proof using H.
  intros Hidle Hr Ht Hs. destruct H as [Hn Hq (u & Hu & Hub) Hp Hl Hres Hresult Hi Hw Hperf Hrep]. pose proof (Hi Hidle) as HUR.
  assert (has_been_sent r = true) as Hsent by (apply bool_decide_eq_true_2; rewrite Hr; by eexists).
  assert (told cur R = R) as Htold by (unfold told; destruct cur as [r0|]; [by rewrite Hidle|done]). rewrite Htold in Hrep.
  split; try done.
  - rewrite Hn, wrap_plus, length_app by done. f_equal. cbn. lia.
  - intros k p [Hk|[Hk1 Hk2]]%lookup_app_Some; [by apply Hq|]. apply list_lookup_singleton_Some in Hk2 as [Hk2 <-]. unfold request_of, req_seq_nbr. cbn. rewrite Hr. cbn.
    rewrite Hn. do 2 f_equal. lia.
  - exists u. split; [done|]. rewrite length_app. cbn. lia.
  - rewrite length_app. cbn. lia.
  - intros Hc. by rewrite (Hc r eq_refl) in Hsent.
  - intros r0 [= <-]. split; [done|]. split; [done|]. intros _. apply last_snoc.
  - by rewrite zip_longer.
  - rewrite Hrep. unfold told. rewrite Hsent, length_app. cbn [length]. replace (length R + 1 - 1)%nat with (length R) by lia. by rewrite take_app_length.
Qed.

(** A request arrives: its number is unwrapped. *)
Lemma direction_unwrap k p : R !! k = Some p → let u := base + 1 + Z.of_nat k in
  Unwrap 32 0 (out_request_sequence_number p) unwrapper = (u, mkUnwrapper u (Some (wrap 32 u)))
  ∧ direction base R U next cur rep (mkUnwrapper u (Some (wrap 32 u))) processed result perf.
Proof using H Hlen.
  intros Hk u. destruct H as [Hn Hq (u0 & -> & Hub) Hp Hl Hres Hresult Hi Hw Hperf Hrep]. pose proof (lookup_lt_Some _ _ _ Hk). split.
  - rewrite (Hq k p Hk). apply Unwrap_near. lia.
  - split; try done. exists u. split; [done|]. unfold u. lia.
Qed.

(** The next request is processed. *)
Lemma direction_process p r : R !! length U = Some p → r = kSuccessPerformed ∨ r = kInProgress →
  direction base R (U ++ [r]) next cur rep unwrapper (processed + 1) r (perf ++ succeeded [(p, r)]).
Proof using H.
  intros Hk Hr. destruct H as [Hn Hq Hu Hp Hl Hres Hresult Hi Hw Hperf Hrep]. pose proof (lookup_lt_Some _ _ _ Hk).
  assert (length R = length U + 1)%nat as HRU by lia.
  assert (∃ q, cur = Some q ∧ has_been_sent q = true) as (q & -> & Hq1).
  { destruct cur as [q|]; [|exfalso; assert (length U = length R) by (by apply Hi); lia]. destruct (has_been_sent q) eqn:E; [by exists q|].
    exfalso. assert (length U = length R); [|lia]. apply Hi. by intros ? [= <-]. }
  split; try done.
  - rewrite Hp, length_app. cbn. lia.
  - rewrite length_app. cbn. lia.
  - apply Forall_app. by split; [|constructor].
  - intros r0. rewrite last_snoc. by intros [= <-].
  - intros Hc. by rewrite (Hc q eq_refl) in Hq1.
  - rewrite Hperf. rewrite <- (take_drop_middle R (length U) p Hk), drop_ge by lia. rewrite (zip_longer (take _ R)) by (rewrite length_take; lia).
    rewrite zip_with_app by (rewrite length_take; lia). by rewrite succeeded_app.
  - rewrite Hrep. unfold told. rewrite Hq1. by rewrite zip_longer_r by (rewrite length_take; lia).
Qed.

(** The answer to the outstanding request arrives. *)
Lemma direction_answer req r : cur = Some req → has_been_sent req = true → answer base U (req_seq_nbr req) r →
  (r = kSuccessPerformed ∨ r = kInProgress)
  ∧ (r = kSuccessPerformed → direction base R U next None (rep ++ [req_streams req]) unwrapper processed result perf)
  ∧ (r = kInProgress → direction base R U next (Some (PrepareRetransmission req)) rep unwrapper processed result perf).
Proof using H Hlen.
  intros -> Hs (k & Hsn & Ha). destruct H as [Hn Hq Hu Hp Hl Hres Hresult Hi Hw Hperf Hrep]. destruct (Hw req eq_refl) as (Ht & Hwi & Hlast). specialize (Hlast Hs).
  rewrite last_lookup in Hlast. destruct R as [|p0 R0] eqn:ER; [done|]. rewrite <- ER in *. assert (0 < length R)%nat by (rewrite ER; cbn; lia).
  assert (req_seq_nbr req = wrap 32 (base + 1 + Z.of_nat (pred (length R)))) as Hsn' by (apply (Hq _ _ Hlast)).
  assert (k < length U)%nat as HkU by (destruct Ha as [Ha|[_ Ha]]; [by apply lookup_lt_Some in Ha|lia]).
  assert (k = pred (length R)) as ->.
  { rewrite Hsn in Hsn'. apply (wrap_shift 32) in Hsn' as [m Hm]; [|lia]. assert (m = 0) as -> by (change (2 ^ 32) with 4294967296 in Hm; change (2 ^ 31) with 2147483648 in Hlen; nia). lia. }
  assert (length U = length R) as HUR by lia. destruct Ha as [Ha|[_ Ha]]; [|lia]. pose proof (Forall_lookup_1 _ _ _ _ Hres Ha) as Hr. split; [done|].
  assert (told (Some req) R = take (pred (length R)) R) as Etold by (unfold told; rewrite Hs; f_equal; lia).
  assert (succeeded (zip R U) = rep ++ succeeded [(request_of req, r)]) as Esucc.
  { rewrite Hrep, Etold. rewrite <- (take_drop_middle R _ _ Hlast) at 1. rewrite <- (take_drop_middle U _ _ Ha). rewrite !drop_ge by lia.
    rewrite zip_with_app by (rewrite !length_take; lia). rewrite succeeded_app. f_equal. by rewrite zip_longer_r by (rewrite !length_take; lia). }
  split; intros ->; split; try done.
  - intros r0 [= <-]. split; [done|]. split; [done|]. done.
  - change (told _ R) with R. rewrite Esucc. cbn. by rewrite app_nil_r.
Qed.

(** What the requester was told, against what was done. *)
Lemma direction_reported : perf = rep ∨ ∃ r, cur = Some r ∧ perf = rep ++ [req_streams r].
Proof using H.
  clear Hlen. destruct H as [_ _ _ _ Hl _ _ Hi Hw -> ->]. unfold told. destruct cur as [r|]; [|by left]. destruct (has_been_sent r) eqn:Es; [|by left].
  destruct (Hw r eq_refl) as (_ & _ & Hlast). specialize (Hlast Es). apply last_Some in Hlast as [R0 ->]. rewrite length_app in *. cbn [length] in *.
  replace (length R0 + 1 - 1)%nat with (length R0) by lia. rewrite take_app_length. assert (length U = length R0 ∨ length U = length R0 + 1)%nat as [E|E] by lia.
  - left. by rewrite zip_longer.
  - destruct (list.last U) as [u|] eqn:Eu; [|apply last_None in Eu as ->; cbn in E; lia]. apply last_Some in Eu as [U0 ->]. rewrite length_app in E. cbn [length] in E.
    rewrite zip_with_app, zip_longer_r, succeeded_app by lia. unfold succeeded at 2. cbn. case_decide; [right; by exists r|left; by rewrite app_nil_r].
Qed.

(** The next request has the number that comes next. *)
Lemma direction_next : Z.of_nat (length R) < 2 ^ 31 - 1 → cur = None →
  Unwrap 32 0 next unwrapper = (processed + 1, mkUnwrapper (processed + 1) (Some (wrap 32 (processed + 1)))).
Proof using H.
  clear Hlen. intros HR Hc. destruct H as [-> _ (u & -> & Hub) -> _ _ _ Hi _ _ _]. rewrite <- (Hi ltac:(by rewrite Hc)) in *.
  replace (base + 1 + Z.of_nat (length U)) with (base + Z.of_nat (length U) + 1) by lia. apply Unwrap_near. lia.
Qed.
End Direction.

Section Talk.
Context {S Q : Type} `{!ReassemblyStreams S} `{!SendQueue Q} `{!StreamResets Q}.
Abbreviation Handler := (StreamResetHandler S Q).
Implicit Types x y : Handler.

(** The histories of [n] steps in which the ends of an association, whose initial numbers are
    [i] and [j], send requests of up to 32000 streams at a time. *)
Inductive talk : Z → Z → nat → Handler → Handler → Prop :=
| talk_start i j rto limit id tracker reassembly rtx rto' limit' id' tracker' reassembly' rtx' : uint 32 i → uint 32 j →
    talk i j 0 (StreamResetHandler_new i j rto limit id tracker reassembly rtx None) (StreamResetHandler_new j i rto' limit' id' tracker' reassembly' rtx' None)
| talk_other i j n x y : talk i j n x y → talk j i n y x
| talk_outside i j n x y rto errors tracker reassembly rtx : talk i j n x y →
    talk i j (Datatypes.S n) (x <| current_rto := rto |> <| tx_error_counter_ := errors |> <| reset_tracker_ := tracker |>
      <| reset_reassembly_ := reassembly |> <| reset_rtx_ := rtx |>) y
| talk_asks i j n x y x' : talk i j n x y → MaybeSendResetStreamsRequest x = Ret tt x' →
    (let streams := (Rtx_BeginResetStreams (reset_rtx_ x)).1 in Forall (uint 16) streams ∧ Z.of_nat (length streams) ≤ 32000) →
    talk i j (Datatypes.S n) x' y
| talk_expires i j n x y x' g : talk i j n x y → reconfig_timeout g x = Ret tt x' → talk i j (Datatypes.S n) x' y
| talk_receives i j n x y x' sent pad ps : talk i j n x y → SendReConfig sent ∈ reset_events_ y → (length pad ≤ 3)%nat →
    ReConfigChunk_Parse (ReConfigChunk_SerializeTo sent [] ++ pad) = Parsed ps → HandleReConfig ps x = Ret tt x' → talk i j (Datatypes.S n) x' y.

(** *** Handling one parameter *)

Definition sends (sn : Z) (r : Result) x : Handler := x <| reset_events_ ::= cons (SendReConfig (response_bytes sn r)) |>.

Definition after_request (p : Request) (u : Z) x : Handler :=
  if u =? last_processed_req_seq_nbr_ x then sends (Wrap 32 u) (last_processed_req_result_ x) x
  else if negb (u =? next_value (last_processed_req_seq_nbr_ x)) then sends (Wrap 32 u) kErrorBadSequenceNumber x
  else let x := perform_outgoing p (x <| last_processed_req_seq_nbr_ := u |>) in sends (out_request_sequence_number p) (last_processed_req_result_ x) x.

Lemma HandleReConfig_request ps p x u w : carries ps (OutgoingResetParam p) →
  Unwrap 32 0 (out_request_sequence_number p) (incoming_reconfig_request_sn_unwrapper_ x) = (u, w) →
  HandleReConfig ps x = Ret tt (after_request p u (x <| incoming_reconfig_request_sn_unwrapper_ := w |>)).
Proof using Type.
  intros (desc & Hd & Ht & Hp) Hu. unfold HandleReConfig. rewrite Hd. cbn [parsing ret bind]. unfold Process, Validate. rewrite Ht. cbn [kType OutgoingResetConfig Z.eqb Pos.eqb orb negb].
  cbn [fold_m bind]. unfold process_one. rewrite Ht. cbn [kType OutgoingResetConfig Z.eqb Pos.eqb]. unfold HandleResetOutgoing. rewrite Hp. cbn [parsing ret bind].
  unfold unwrap_request. rewrite Hu. cbn [gets]. unfold after_request, ValidateReqSeqNbr.
  destruct (u =? _); [done|]. destruct (negb (u =? _)); [done|]. cbn [fst snd modify gets bind app fmap list_fmap]. done.
Qed.

Lemma HandleReConfig_response ps resp x : carries ps (ResponseParam resp) →
  HandleReConfig ps x = Ret tt (match current_request_ x with
    | Some req => if has_been_sent req && (response_sequence_number resp =? req_seq_nbr req) then react req (response_result resp) x else x
    | None => x end).
Proof using Type.
  intros (desc & Hd & Ht & Hp). unfold HandleReConfig. rewrite Hd. cbn [parsing ret bind]. unfold Process, Validate. rewrite Ht. cbn [kType ResponseConfig Z.eqb Pos.eqb orb negb].
  cbn [fold_m bind]. unfold process_one. rewrite Ht. cbn. unfold HandleResponse. rewrite Hp. done.
Qed.

Lemma HandleReConfig_incoming ps p x u w : carries ps (IncomingResetParam p) →
  Unwrap 32 0 (in_request_sequence_number p) (incoming_reconfig_request_sn_unwrapper_ x) = (u, w) →
  HandleReConfig ps x = Ret tt (let x1 := x <| incoming_reconfig_request_sn_unwrapper_ := w |> in
    if u =? last_processed_req_seq_nbr_ x then sends (Wrap 32 u) (last_processed_req_result_ x) x1
    else if negb (u =? last_processed_req_seq_nbr_ x + 1) then sends (Wrap 32 u) kErrorBadSequenceNumber x1
    else sends (in_request_sequence_number p) kSuccessNothingToDo (x1 <| last_processed_req_seq_nbr_ := u |>)).
Proof using Type.
  intros (desc & Hd & Ht & Hp) Eu. unfold HandleReConfig. rewrite Hd. cbn [parsing ret bind]. unfold Process, Validate. rewrite Ht.
  cbn [kType IncomingResetConfig OutgoingResetConfig Z.eqb Pos.eqb orb negb].
  cbn [fold_m bind]. unfold process_one. rewrite Ht. cbn [kType IncomingResetConfig OutgoingResetConfig Z.eqb Pos.eqb]. unfold HandleResetIncoming. rewrite Hp. cbn [parsing ret bind].
  unfold unwrap_request. rewrite Eu. cbn [gets]. unfold ValidateReqSeqNbr, next_value. cbn. destruct (u =? _); [done|]. by destruct (negb _).
Qed.

(** *** The invariant *)

Definition dir (base : Z) (R : list Request) (U : list Result) x y : Prop :=
  direction base R U (next_outgoing_req_seq_nbr_ x) (current_request_ x) (reported (reset_events_ x))
    (incoming_reconfig_request_sn_unwrapper_ y) (last_processed_req_seq_nbr_ y) (last_processed_req_result_ y) (performed (reset_events_ y)).

(** Every chunk is a request that was made, or an answer. *)
Definition net (R : list Request) (base : Z) (U : list Result) (events : list ResetEvent) : Prop := ∀ ps, SendReConfig ps ∈ events →
  (∃ p, p ∈ R ∧ chunk_of (OutgoingResetParam p) ps) ∨ ∃ sn r, answer base U sn r ∧ chunk_of (ResponseParam (Response_new sn r)) ps.
Definition sound x : Prop := Forall (λ e, failure e = false) (reset_events_ x).

Record talk_inv (i j : Z) (n : nat) x y (R R' : list Request) (U U' : list Result) : Prop := mkTalk {
  t_dir : dir (wrap 32 (i - 1)) R U x y;
  t_dir' : dir (wrap 32 (j - 1)) R' U' y x;
  t_net : net R (wrap 32 (j - 1)) U' (reset_events_ x);
  t_net' : net R' (wrap 32 (i - 1)) U (reset_events_ y);
  t_sound : sound x;
  t_sound' : sound y;
  t_count : (length R ≤ n ∧ length R' ≤ n)%nat
}.

Lemma request_chunk r : uint 32 (req_seq_nbr r) → uint 32 (req_sender_last_assigned_tsn r) → wire_streams (request_of r) →
  chunk_of (OutgoingResetParam (request_of r)) (outgoing_bytes (request_of r)).
Proof using Type.
  intros H1 H2 [H3 H4]. split; [|split; [apply outgoing_built|rewrite outgoing_length; change (2 ^ 16) with 65536; lia]].
  split; [done|]. split; [done|]. split; [done|]. split; [done|]. change (2 ^ 16) with 65536. lia.
Qed.

(** What the handler knows of the requests it receives. *)
Definition responder x : SeqNumUnwrapper * Z * Result :=
  (incoming_reconfig_request_sn_unwrapper_ x, last_processed_req_seq_nbr_ x, last_processed_req_result_ x).
(** What it knows of those it makes. *)
Definition requester x : Z * option CurrentRequest := (next_outgoing_req_seq_nbr_ x, current_request_ x).

Lemma net_grows R R1 base U U1 events : net R base U events → (∀ p, p ∈ R → p ∈ R1) → (∀ sn r, answer base U sn r → answer base U1 sn r) → net R1 base U1 events.
Proof using Type. intros H HR HU ps [(p & Hp & Hc)|(sn & r & Ha & Hc)]%H; [left|right]; eauto 6. Qed.

Lemma net_cons R base U e events : net R base U events → (∀ ps, e = SendReConfig ps → 
  (∃ p, p ∈ R ∧ chunk_of (OutgoingResetParam p) ps) ∨ ∃ sn r, answer base U sn r ∧ chunk_of (ResponseParam (Response_new sn r)) ps) → net R base U (e :: events).
Proof using Type. intros H He ps [E|Hin]%elem_of_cons; [by apply He|by apply H]. Qed.

Lemma reported_cons e events : reported (e :: events) = reported events ++ match e with OnStreamsResetPerformed streams => [streams] | _ => [] end.
Proof using Type. unfold reported. cbn [rev]. rewrite omap_app. f_equal. by destruct e. Qed.
Lemma performed_cons e events : performed (e :: events) = performed events ++ match e with OnIncomingStreamsReset streams => [streams] | _ => [] end.
Proof using Type. unfold performed. cbn [rev]. rewrite omap_app. f_equal. by destruct e. Qed.

(** A step that only sends. *)
Lemma sent_again i j n x y R R' U U' x' ps : talk_inv i j n x y R R' U U' → requester x' = requester x → responder x' = responder x →
  reset_events_ x' = SendReConfig ps :: reset_events_ x →
  ((∃ p, p ∈ R ∧ chunk_of (OutgoingResetParam p) ps) ∨ ∃ sn r, answer (wrap 32 (j - 1)) U' sn r ∧ chunk_of (ResponseParam (Response_new sn r)) ps) →
  talk_inv i j (Datatypes.S n) x' y R R' U U'.
Proof using Type.
  intros [H1 H2 H3 H4 H5 H6 [H7 H8]] Hreq Hresp He Hps. injection Hreq as Hn Hc. injection Hresp as Hu Hl Hr. split; try done.
  - unfold dir. by rewrite Hn, Hc, He, reported_cons, app_nil_r.
  - unfold dir. by rewrite Hu, Hl, Hr, He, performed_cons, app_nil_r.
  - rewrite He. apply net_cons; [done|]. by intros ? [= <-].
  - unfold sound. rewrite He. by constructor.
  - lia.
Qed.

(** A step that makes a request, or sends the one that was put off. *)
Lemma sent_request i j n x y R R' U U' x' r : talk_inv i j n x y R R' U U' → (∀ r, current_request_ x = Some r → has_been_sent r = false) →
  req_seq_nbr_ r = Some (next_outgoing_req_seq_nbr_ x) → uint 32 (req_sender_last_assigned_tsn r) → wire_streams (request_of r) →
  requester x' = (wrap 32 (next_outgoing_req_seq_nbr_ x + 1), Some r) → responder x' = responder x →
  reset_events_ x' = SendReConfig (outgoing_bytes (request_of r)) :: reset_events_ x →
  talk_inv i j (Datatypes.S n) x' y (R ++ [request_of r]) R' U U'.
Proof using Type.
  intros [H1 H2 H3 H4 H5 H6 [H7 H8]] Hidle Hr Ht Hs Hreq Hresp He. injection Hreq as Hn Hc. injection Hresp as Hu Hl Hres. split; try done.
  - unfold dir. rewrite Hn, Hc, He, reported_cons, app_nil_r. by apply (direction_request _ _ _ _ (current_request_ x)).
  - unfold dir. by rewrite Hu, Hl, Hres, He, performed_cons, app_nil_r.
  - rewrite He. apply net_cons; [apply (net_grows _ _ _ _ _ _ H3); [|done]; intros; apply elem_of_app; by left|].
    intros ? [= <-]. left. eexists. split; [apply elem_of_app; right; by apply list_elem_of_singleton|]. apply request_chunk; [|done..].
    unfold req_seq_nbr. rewrite Hr, (d_next _ _ _ _ _ _ _ _ _ _ H1). by apply wrap_uint.
  - unfold sound. rewrite He. by constructor.
  - rewrite length_app. cbn. lia.
Qed.

Lemma last_tsn_uint (r : RetransmissionQueue Q) : uint 32 (last_assigned_tsn r).
Proof using Type. unfold last_assigned_tsn. rewrite Wrap_mod by done. by apply wrap_uint. Qed.

(** The handler after it made a request. *)
Definition made x : CurrentRequest := mkRequest (Some (next_outgoing_req_seq_nbr_ x)) (last_assigned_tsn (reset_rtx_ x)) (Rtx_BeginResetStreams (reset_rtx_ x)).1.
Definition asked x : Handler :=
  start_reconfig_timer x <| reset_rtx_ := (Rtx_BeginResetStreams (reset_rtx_ x)).2 |> <| current_request_ := Some (made x) |>
    <| next_outgoing_req_seq_nbr_ := wrap 32 (next_outgoing_req_seq_nbr_ x + 1) |> <| reset_events_ ::= cons (SendReConfig (outgoing_bytes (request_of (made x)))) |>.

Lemma MaybeSendResetStreamsRequest_spec x : MaybeSendResetStreamsRequest x =
  Ret tt (if bool_decide (is_Some (current_request_ x)) || negb (Rtx_HasStreamsReadyToBeReset (reset_rtx_ x)) then x else asked x).
Proof using Type.
  unfold MaybeSendResetStreamsRequest, MakeStreamResetRequest, asked, made. cbn [bind get]. destruct (_ || _); [done|].
  destruct (Rtx_BeginResetStreams (reset_rtx_ x)) as [streams rtx]. cbn [bind modify]. by erewrite MakeReconfigChunk_spec by reflexivity.
Qed.

Lemma talk_asks_inv i j n x y x' R R' U U' : talk_inv i j n x y R R' U U' → MaybeSendResetStreamsRequest x = Ret tt x' →
  (let streams := (Rtx_BeginResetStreams (reset_rtx_ x)).1 in Forall (uint 16) streams ∧ Z.of_nat (length streams) ≤ 32000) →
  ∃ R, talk_inv i j (Datatypes.S n) x' y R R' U U'.
Proof using Type.
  intros H E Hs. rewrite MaybeSendResetStreamsRequest_spec in E. destruct (_ || _) eqn:Eg in E; injection E as <-.
  - exists R. destruct H as [? ? ? ? ? ? []]. split; try done. lia.
  - apply orb_false_iff in Eg as [Ec _]. apply bool_decide_eq_false in Ec. eexists. refine (sent_request _ _ _ _ _ _ _ _ _ _ (made x) H _ _ _ _ _ _ _); try done.
    + intros r Hr. by destruct Ec; exists r.
    + apply last_tsn_uint.
Qed.

Lemma talk_expires_inv i j n x y x' g R R' U U' : talk_inv i j n x y R R' U U' → reconfig_timeout g x = Ret tt x' →
  ∃ R, talk_inv i j (Datatypes.S n) x' y R R' U U'.
Proof using Type.
  intros H E. assert (∀ x', requester x' = requester x → responder x' = responder x → reset_events_ x' = reset_events_ x →
    talk_inv i j (Datatypes.S n) x' y R R' U U') as Hsame.
  { intros z Hreq Hresp He. injection Hreq as Hn Hc. injection Hresp as Hu Hl Hr. destruct H as [? ? ? ? ? ? []].
    split; unfold dir, sound; rewrite ?Hn, ?Hc, ?Hu, ?Hl, ?Hr, ?He; try done. lia. }
  unfold reconfig_timeout in E. cbn [bind get] in E. destruct (_ && _); [|injection E as <-; exists R; by apply Hsame].
  unfold OnReconfigTimerExpiry in E. cbn [bind get] in E. destruct (current_request_ x) as [r|] eqn:Ec; [|done]. cbn [deref ret] in E.
  destruct (if has_been_sent r then _ else _) as [go_on errors]. cbn [bind modify] in E. destruct go_on; [|injection E as <-; exists R; by apply Hsame].
  cbn [bind] in E. rewrite (MakeReconfigChunk_spec _ r) in E by done. unfold numbered in E. destruct (has_been_sent r) eqn:Es; cbn in E; injection E as <-.
  - destruct (d_waits _ _ _ _ _ _ _ _ _ _ (t_dir _ _ _ _ _ _ _ _ _ H) r Ec) as (Ht & Hw & Hlast). exists R. eapply sent_again; try done. left. exists (request_of r).
    specialize (Hlast Es). apply last_Some_elem_of in Hlast. split; [done|]. apply request_chunk; [|done..].
    apply list_elem_of_lookup in Hlast as [k Hk]. pose proof (d_requests _ _ _ _ _ _ _ _ _ _ (t_dir _ _ _ _ _ _ _ _ _ H) _ _ Hk) as Hsn. cbn in Hsn. rewrite Hsn. by apply wrap_uint.
  - destruct (d_waits _ _ _ _ _ _ _ _ _ _ (t_dir _ _ _ _ _ _ _ _ _ H) r Ec) as (Ht & Hw & _). eexists.
    eapply (sent_request _ _ _ _ _ _ _ _ _ _ (PrepareToSend (next_outgoing_req_seq_nbr_ x) r)); try done. by intros r0; rewrite Ec; intros [= <-].
Qed.

Lemma response_ok base U sn r : answer base U sn r → chunk_of (ResponseParam (Response_new sn r)) (response_bytes sn r).
Proof using Type. intros (k & -> & _). apply response_chunk. by apply wrap_uint. Qed.

(** The next request is performed or put off, and answered. *)
Lemma request_processed i j n x y R R' U U' p x1 : talk_inv i j n x y R R' U U' → R' !! length U' = Some p →
  x1 = perform_outgoing p (x <| last_processed_req_seq_nbr_ := last_processed_req_seq_nbr_ x + 1 |>) →
  talk_inv i j (Datatypes.S n) (sends (out_request_sequence_number p) (last_processed_req_result_ x1) x1) y R R' U (U' ++ [last_processed_req_result_ x1]).
Proof using Type.
  intros [H1 H2 H3 H4 H5 H6 [H7 H8]] Hk Ex1. set (r := last_processed_req_result_ x1). set (x2 := sends _ r x1).
  set (sent := SendReConfig (response_bytes (out_request_sequence_number p) r)).
  assert (∃ es, reset_events_ x2 = sent :: es ++ reset_events_ x ∧ Forall (λ e, failure e = false) es ∧ requester x2 = requester x
    ∧ responder x2 = (incoming_reconfig_request_sn_unwrapper_ x, last_processed_req_seq_nbr_ x + 1, r)
    ∧ (r = kSuccessPerformed ∧ es = [OnIncomingStreamsReset (out_stream_ids p)] ∨ r = kInProgress ∧ es = [])) as (es & He & Hes & Hreq & Hresp & Hr).
  { unfold x2, sent, r. rewrite Ex1. unfold perform_outgoing. destruct (IsLaterThanCumulativeAckedTsn _ _); [exists []|eexists [_]]; (split; [done|]);
      (split; [by repeat constructor|]); (split; [done|]); (split; [done|]); [by right|by left]. }
  clearbody x2. injection Hreq as Hn Hc. injection Hresp as Hu Hl Hr2. assert (answer (wrap 32 (j - 1)) (U' ++ [r]) (out_request_sequence_number p) r) as Ha.
  { exists (length U'). split; [by apply (d_requests _ _ _ _ _ _ _ _ _ _ H2)|]. left. by apply list_lookup_middle. }
  split; try done.
  - unfold dir. rewrite Hn, Hc, He, reported_cons, app_nil_r. destruct Hr as [[_ ->]|[_ ->]]; [cbn [app]; rewrite reported_cons, app_nil_r|]; done.
  - unfold dir. rewrite Hu, Hl, Hr2, He, performed_cons, app_nil_r.
    assert (performed (es ++ reset_events_ x) = performed (reset_events_ x) ++ succeeded [(p, r)]) as ->.
    { destruct Hr as [[-> ->]|[-> ->]]; cbn [app]; [by rewrite performed_cons|by rewrite app_nil_r]. }
    apply (direction_process _ _ _ _ _ _ _ _ _ _ H2); [done|]. by destruct Hr as [[-> _]|[-> _]]; auto.
  - rewrite He. apply net_cons; [|intros ? [= <-]; right; do 2 eexists; split; [exact Ha|by eapply response_ok]].
    apply (net_grows _ R _ _ (U' ++ [r])) in H3; [|done|by intros; apply answer_grows]. destruct Hr as [[_ ->]|[_ ->]]; [by apply net_cons|done].
  - unfold sound. rewrite He. constructor; [done|]. by apply Forall_app.
  - lia.
Qed.

Lemma talk_request_inv i j n x y x' R R' U U' p ps : talk_inv i j n x y R R' U U' → Z.of_nat n < 2 ^ 31 → p ∈ R' → carries ps (OutgoingResetParam p) →
  HandleReConfig ps x = Ret tt x' → ∃ U', talk_inv i j (Datatypes.S n) x' y R R' U U'.
Proof using Type.
  intros H Hn Hp Hc E. apply list_elem_of_lookup in Hp as [k Hk]. set (base := wrap 32 (j - 1)) in *. set (u := base + 1 + Z.of_nat k).
  destruct (direction_unwrap _ _ _ _ _ _ _ _ _ _ (t_dir' _ _ _ _ _ _ _ _ _ H) ltac:(destruct (t_count _ _ _ _ _ _ _ _ _ H); lia) k p Hk) as [Eu Hd]. fold base u in Eu, Hd.
  rewrite (HandleReConfig_request ps p x _ _ Hc Eu) in E. injection E as <-. set (x1 := x <| _ := _ |>).
  assert (talk_inv i j n x1 y R R' U U') as H1 by (destruct H; by split). pose proof (t_dir' _ _ _ _ _ _ _ _ _ H1) as [_ _ _ Hl Hlens _ Hres _ _ _ _]. fold base in Hl.
  pose proof (lookup_lt_Some _ _ _ Hk). assert (Wrap 32 u = wrap 32 (base + 1 + Z.of_nat k)) as Ew by (by rewrite Wrap_mod).
  assert (∀ r, answer base U' (Wrap 32 u) r → talk_inv i j (Datatypes.S n) (sends (Wrap 32 u) r x1) y R R' U U') as Hsend.
  { intros r Ha. eapply (sent_again _ _ _ x1); try done. right. do 2 eexists. split; [exact Ha|by eapply response_ok]. }
  unfold after_request, next_value. destruct (Z.eqb_spec u (last_processed_req_seq_nbr_ x1)) as [E|E].
  { exists U'. apply Hsend. exists k. split; [done|]. left. assert (length U' = k + 1)%nat as El by (unfold u in E; lia). destruct (lookup_lt_is_Some_2 U' k) as [r Hr]; [lia|].
    rewrite Hr. f_equal. symmetry. apply Hres. rewrite last_lookup, El. by replace (pred (k + 1)) with k by lia. }
  destruct (Z.eqb_spec u (last_processed_req_seq_nbr_ x1 + 1)) as [E'|E']; cbn [negb].
  - rewrite E'. eexists. eapply (request_processed _ _ _ x1); [done| |done]. by replace (length U') with k by (unfold u in E'; lia).
  - exists U'. apply Hsend. exists k. split; [done|]. right. split; [done|]. unfold u in E, E'. lia.
Qed.

Lemma talk_answer_inv i j n x y x' R R' U U' sn r ps : talk_inv i j n x y R R' U U' → Z.of_nat n < 2 ^ 31 → answer (wrap 32 (i - 1)) U sn r →
  carries ps (ResponseParam (Response_new sn r)) → HandleReConfig ps x = Ret tt x' → talk_inv i j (Datatypes.S n) x' y R R' U U'.
Proof using Type.
  intros H Hn Ha Hc E. rewrite (HandleReConfig_response ps _ x Hc) in E. injection E as <-. cbn [response_sequence_number response_result Response_new].
  assert (talk_inv i j (Datatypes.S n) x y R R' U U') as Hsame by (destruct H as [? ? ? ? ? ? []]; split; try done; lia).
  destruct (current_request_ x) as [req|] eqn:Ec; [|done]. destruct (has_been_sent req) eqn:Es; [|done]. cbn [andb]. destruct (Z.eqb_spec sn (req_seq_nbr req)) as [->|]; [|done].
  destruct Hsame as [H1 H2 H3 H4 H5 H6 H7].
  destruct (direction_answer _ _ _ _ _ _ _ _ _ _ H1 ltac:(destruct (t_count _ _ _ _ _ _ _ _ _ H); lia) req r Ec Es Ha) as (Hr & Hperf & Hprog).
  destruct Hr as [-> | ->]; unfold react.
  - specialize (Hperf eq_refl). split; try done; unfold dir, sound; cbn; [by rewrite reported_cons|by rewrite performed_cons, app_nil_r|by apply net_cons|by constructor].
  - specialize (Hprog eq_refl). by split.
Qed.

Lemma direction_start i : uint 32 i → let base := wrap 32 (i - 1) in
  direction base [] [] i None (reported []) (mkUnwrapper base (Some base)) base kSuccessNothingToDo (performed []).
Proof using Type.
  intros Hi base. split; try done; try (cbn; lia).
  - cbn [length Z.of_nat]. unfold base. rewrite Z.add_0_r, wrap_plus, Z.sub_add by done. symmetry. by apply wrap_small.
  - exists base. split; [unfold base; by rewrite wrap_wrap|cbn; lia].
Qed.

Lemma talk_keeps i j n x y : talk i j n x y → Z.of_nat n < 2 ^ 31 → ∃ R R' U U', talk_inv i j n x y R R' U U'.
Proof using Type.
  induction 1 as [i j rto limit id tracker reassembly rtx rto' limit' id' tracker' reassembly' rtx' Hi Hj|i j n x y _ IH|i j n x y rto errors tracker reassembly rtx _ IH
    |i j n x y x' _ IH E Hs|i j n x y x' g _ IH E|i j n x y x' sent pad ps _ IH Hin Hpad Hp E]; intros Hn.
  2: { destruct (IH Hn) as (R & R' & U & U' & [H1 H2 H3 H4 H5 H6 [H7 H8]]). exists R', R, U', U. by split. }
  1: { exists [], [], [], []. split; try done; try (by intros ? ?%not_elem_of_nil); try (by constructor); unfold dir, StreamResetHandler_new; cbn; by apply direction_start. }
  all: destruct IH as (R & R' & U & U' & H); [lia|].
  - exists R, R', U, U'. destruct H as [? ? ? ? ? ? []]. split; try done. lia.
  - destruct (talk_asks_inv _ _ _ _ _ _ _ _ _ _ H E Hs) as [R1 ?]. eauto.
  - destruct (talk_expires_inv _ _ _ _ _ _ _ _ _ _ _ H E) as [R1 ?]. eauto.
  - destruct (t_net' _ _ _ _ _ _ _ _ _ H sent Hin) as [(p & HpR & Hc)|(sn & r & Ha & Hc)]; pose proof (chunk_received _ _ _ _ Hc Hpad Hp) as Hcar.
    + destruct (talk_request_inv _ _ _ _ _ _ _ _ _ _ _ _ H ltac:(lia) HpR Hcar E) as [U1 ?]. eauto.
    + pose proof (talk_answer_inv _ _ _ _ _ _ _ _ _ _ _ _ _ H ltac:(lia) Ha Hcar E). eauto 6.
Qed.
End Talk.

(** ** Properties *)

(** C12: Resetting streams happens exactly once, whatever the network does with the chunks: the lists
    of streams that an end is told were reset are, in order, those that the other end reset,
    but for the one it still waits to hear of; and no reset is reported as failed. *)
Theorem resets_exactly_once {S Q} `{!ReassemblyStreams S} `{!SendQueue Q} `{!StreamResets Q} i j n (x y : StreamResetHandler S Q) :
  talk i j n x y → Z.of_nat n < 2 ^ 31 →
  Forall (λ e, failure e = false) (reset_events_ x)
  ∧ (performed (reset_events_ y) = reported (reset_events_ x)
     ∨ ∃ r, current_request_ x = Some r ∧ performed (reset_events_ y) = reported (reset_events_ x) ++ [req_streams r]).
Proof.
  intros H Hn. destruct (talk_keeps i j n x y H Hn) as (R & R' & U & U' & [H1 _ _ _ Hs _ _]). split; [exact Hs|].
  exact (direction_reported _ _ _ _ _ _ _ _ _ _ H1).
Qed.

(** C19: When the peer has received all that was sent, one exchange resets the streams: the request
    makes the peer reset them, and its answer makes the requester commit. *)
Theorem reset_completes {S Q} `{!ReassemblyStreams S} `{!SendQueue Q} `{!StreamResets Q} i j n (x y : StreamResetHandler S Q) :
  talk i j n x y → Z.of_nat n < 2 ^ 31 - 1 → current_request_ x = None → Rtx_HasStreamsReadyToBeReset (reset_rtx_ x) = true →
  let streams := (Rtx_BeginResetStreams (reset_rtx_ x)).1 in Forall (uint 16) streams → Z.of_nat (length streams) ≤ 32000 →
  IsLaterThanCumulativeAckedTsn (last_assigned_tsn (reset_rtx_ x)) (reset_tracker_ y) = false →
  ∃ request response x1 y1 x2,
    MaybeSendResetStreamsRequest x = Ret tt x1 ∧ reset_events_ x1 = SendReConfig request :: reset_events_ x
    ∧ HandleReConfig request y = Ret tt y1 ∧ reset_events_ y1 = SendReConfig response :: OnIncomingStreamsReset streams :: reset_events_ y
    ∧ reset_reassembly_ y1 = ResetStreamsAndLeaveDeferredReset streams (reset_reassembly_ y)
    ∧ HandleReConfig response x1 = Ret tt x2 ∧ reset_events_ x2 = OnStreamsResetPerformed streams :: reset_events_ x1
    ∧ current_request_ x2 = None ∧ reset_rtx_ x2 = Rtx_CommitResetStreams (Rtx_BeginResetStreams (reset_rtx_ x)).2.
Proof.
  intros H Hn Hc Hready streams Hs1 Hs2 Hlater. destruct (talk_keeps i j n x y H ltac:(lia)) as (R & R' & U & U' & [H1 _ _ _ _ _ [Hcount _]]).
  set (r := made x). assert (uint 32 (req_seq_nbr r)) as Hsn by (cbn; rewrite (d_next _ _ _ _ _ _ _ _ _ _ H1); by apply wrap_uint).
  exists (outgoing_bytes (request_of r)), (response_bytes (req_seq_nbr r) kSuccessPerformed), (asked x). do 2 eexists.
  split; [by rewrite MaybeSendResetStreamsRequest_spec, Hc, Hready|]. split; [done|]. split.
  { apply (HandleReConfig_request _ (request_of r)); [by apply chunk_carries, request_chunk; [|apply last_tsn_uint|]|].
    apply (direction_next _ _ _ _ _ _ _ _ _ _ H1); [lia|done]. }
  unfold after_request, next_value. cbn. destruct (Z.eqb_spec (last_processed_req_seq_nbr_ y + 1) (last_processed_req_seq_nbr_ y)); [lia|]. rewrite Z.eqb_refl. cbn.
  unfold perform_outgoing. cbn. rewrite Hlater. cbn. split; [done|]. split; [done|]. split.
  { rewrite (HandleReConfig_response _ (Response_new (req_seq_nbr r) kSuccessPerformed)) by (by apply chunk_carries, response_chunk).
    cbn. rewrite Z.eqb_refl. cbn. reflexivity. }
  done.
Qed.

Lemma Unwrap_again sn unwrapper u w : Unwrap 32 0 sn unwrapper = (u, w) → Unwrap 32 0 sn w = (u, w).
Proof.
  unfold Unwrap. intros [= <- <-]. cbn [last_value_ last_unwrapped_]. assert (Delta 32 0 sn sn = 0) as ->; [|by rewrite Z.add_0_r].
  unfold Delta, AheadOrAt, ForwardDiff, promoted_sub. cbn [Z.ltb Z.compare]. rewrite Z.sub_diag. done.
Qed.

Lemma Unwrap_wraps sn u0 u w : uint 32 sn → Unwrap 32 0 sn (mkUnwrapper u0 (Some (wrap 32 u0))) = (u, w) → Wrap 32 u = sn.
Proof. intros H [= <- <-]. rewrite Wrap_mod by done. by apply Delta_wraps. Qed.

(** A request that arrives again is answered as it was, and nothing else happens: not even
    when it was put off, or refused. *)
Theorem repeated_request_answered_alike {S Q} `{!ReassemblyStreams S} `{!SendQueue Q} `{!StreamResets Q} (h h1 : StreamResetHandler S Q) ps p u :
  carries ps (OutgoingResetParam p) → uint 32 (out_request_sequence_number p) →
  incoming_reconfig_request_sn_unwrapper_ h = mkUnwrapper u (Some (wrap 32 u)) → HandleReConfig ps h = Ret tt h1 →
  ∃ sent rest, reset_events_ h1 = SendReConfig sent :: rest
    ∧ HandleReConfig ps h1 = Ret tt (h1 <| reset_events_ ::= cons (SendReConfig sent) |>).
Proof.
  intros Hc Hsn Hu E. destruct (Unwrap 32 0 (out_request_sequence_number p) (incoming_reconfig_request_sn_unwrapper_ h)) as [v w] eqn:Ev.
  rewrite (HandleReConfig_request ps p h v w Hc Ev) in E. injection E as <-. rewrite Hu in Ev. pose proof (Unwrap_wraps _ _ _ _ Hsn Ev) as Hv. apply Unwrap_again in Ev.
  erewrite (HandleReConfig_request ps p _ v w Hc) by (rewrite <- Ev; f_equal; unfold after_request, perform_outgoing; cbn; by repeat case_match).
  unfold after_request, next_value. cbn. destruct (Z.eqb_spec v (last_processed_req_seq_nbr_ h)) as [->|Hne].
  { cbn. rewrite Z.eqb_refl. by do 2 eexists. }
  destruct (Z.eqb_spec v (last_processed_req_seq_nbr_ h + 1)) as [->|Hne']; cbn.
  - unfold perform_outgoing. cbn. destruct (IsLaterThanCumulativeAckedTsn _ _); cbn; rewrite Z.eqb_refl, Hv; by do 2 eexists.
  - rewrite (proj2 (Z.eqb_neq _ _) Hne), (proj2 (Z.eqb_neq _ _) Hne'). by do 2 eexists.
Qed.

(** Not so for a request to reset incoming streams: the first time it is answered that there
    was nothing to do, the second time with the result of an earlier request. *)
Theorem repeated_incoming_request_answered_otherwise {S Q} `{!ReassemblyStreams S} `{!SendQueue Q} `{!StreamResets Q} (h h1 : StreamResetHandler S Q) ps p u :
  carries ps (IncomingResetParam p) → uint 32 (in_request_sequence_number p) →
  incoming_reconfig_request_sn_unwrapper_ h = mkUnwrapper u (Some (wrap 32 u)) →
  PeekUnwrap 32 0 (in_request_sequence_number p) (incoming_reconfig_request_sn_unwrapper_ h) = last_processed_req_seq_nbr_ h + 1 →
  HandleReConfig ps h = Ret tt h1 →
  reset_events_ h1 = SendReConfig (response_bytes (in_request_sequence_number p) kSuccessNothingToDo) :: reset_events_ h
  ∧ ∃ h2, HandleReConfig ps h1 = Ret tt h2
    ∧ reset_events_ h2 = SendReConfig (response_bytes (in_request_sequence_number p) (last_processed_req_result_ h)) :: reset_events_ h1.
Proof.
  intros Hc Hsn Hu Hnext E. set (sn := in_request_sequence_number p) in *.
  destruct (Unwrap 32 0 sn (incoming_reconfig_request_sn_unwrapper_ h)) as [v w] eqn:Ev. rewrite (HandleReConfig_incoming ps p h v w Hc Ev) in E.
  assert (v = last_processed_req_seq_nbr_ h + 1) as Hv by (rewrite <- Hnext; apply (f_equal fst) in Ev; symmetry; exact Ev).
  rewrite Hu in Ev. pose proof (Unwrap_wraps _ _ _ _ Hsn Ev) as Hw. apply Unwrap_again in Ev. cbv zeta in E.
  rewrite (proj2 (Z.eqb_neq v _)), (proj2 (Z.eqb_eq v _)) in E by lia. injection E as <-. split; [done|].
  erewrite (HandleReConfig_incoming ps p _ v w Hc) by exact Ev. cbn. rewrite Z.eqb_refl, Hw. by eexists.
Qed.

(** ** A run

    Two ends with 11 and 501 as their first numbers. *)

Abbreviation SampleHandler := (StreamResetHandler TraditionalStreams RRSendQueue).

(** [TransmissionControlBlock] makes the handler without a state to restore. *)
Definition TCB_stream_reset_handler {S Q} (my_initial_tsn peer_initial_tsn rto : Z) (max_retransmissions : option Z) (timer_id : Z)
    (tracker : DataTracker) (reassembly : ReassemblyQueue S) (rtx : RetransmissionQueue Q) : StreamResetHandler S Q :=
  StreamResetHandler_new my_initial_tsn peer_initial_tsn rto max_retransmissions timer_id tracker reassembly rtx None.

Definition reset_sample_rtx (my_tsn : Z) : RetransmissionQueue RRSendQueue :=
  RetransmissionQueue_new my_tsn 5000 (RRSendQueue_new 1200 256 0) (Timer_new 1 (mkTimerOptions 1000000 kExponential None PlusInfinity))
    (mkRtxOptions 1200 10 4) true false.
Definition sample_end (my_tsn peer_tsn : Z) : SampleHandler :=
  TCB_stream_reset_handler my_tsn peer_tsn 1000000 (Some 10) 3 (DataTracker_new peer_tsn) (Queue_new 5000 4000 TraditionalStreams_new) (reset_sample_rtx my_tsn).
Definition run {A} (m : M SampleHandler A) (h : SampleHandler) : SampleHandler := match m h with Ret _ h' => h' | _ => h end.
Definition latest (h : SampleHandler) : list Z := match reset_events_ h with SendReConfig ps :: _ => ps | _ => [] end.

Definition left0 : SampleHandler := sample_end 11 501 <| reset_rtx_ ::= Rtx_PrepareResetStream 1 |>.
Definition right0 : SampleHandler := sample_end 501 11.
Definition left1 : SampleHandler := run MaybeSendResetStreamsRequest left0.
Definition right1 : SampleHandler := run (HandleReConfig (latest left1)) right0.
Definition left2 : SampleHandler := run (HandleReConfig (latest right1)) left1.

Definition returned {A} (m : M SampleHandler A) (h : SampleHandler) : bool := match m h with Ret _ _ => true | _ => false end.
Lemma run_returns (m : M SampleHandler unit) h : returned m h = true → m h = Ret tt (run m h).
Proof. unfold returned, run. by destruct (m h) as [[]| | |]. Qed.

Definition parses (ps : list Z) : bool := match ReConfigChunk_Parse (ReConfigChunk_SerializeTo ps [] ++ []) with Parsed qs => bool_decide (qs = ps) | _ => false end.
Lemma parses_spec ps : parses ps = true → ReConfigChunk_Parse (ReConfigChunk_SerializeTo ps [] ++ []) = Parsed ps.
Proof. unfold parses. destruct (ReConfigChunk_Parse _); [|done..]. by intros ->%bool_decide_eq_true_1. Qed.

(** One step of delivery. *)
Lemma talk_delivery i j n (x y : SampleHandler) rest : talk i j n x y → reset_events_ y = SendReConfig (latest y) :: rest → parses (latest y) = true →
  returned (HandleReConfig (latest y)) x = true → talk i j (S n) (run (HandleReConfig (latest y)) x) y.
Proof.
  intros H Hin Hp Hr. refine (talk_receives i j n x y _ (latest y) [] (latest y) H _ _ (parses_spec _ Hp) (run_returns _ x Hr)); [|cbn; lia].
  rewrite Hin. apply elem_of_cons. by left.
Qed.

Lemma sample_reset_ready : talk 11 501 1 left0 right0.
Proof.
  refine (talk_outside 11 501 0 (sample_end 11 501) right0 _ _ _ _ (Rtx_PrepareResetStream 1 (reset_sample_rtx 11)) _).
  apply talk_start; unfold uint; lia.
Qed.

Lemma sample_asked : talk 11 501 2 left1 right0.
Proof.
  refine (talk_asks 11 501 1 left0 right0 left1 sample_reset_ready (run_returns MaybeSendResetStreamsRequest left0 _) _); [by vm_compute|].
  assert ((Rtx_BeginResetStreams (reset_rtx_ left0)).1 = [1]) as -> by (by vm_compute). cbv zeta. split; [by repeat constructor|cbn; lia].
Qed.

Lemma sample_answered : talk 11 501 3 left1 right1.
Proof.
  apply talk_other. refine (talk_delivery 501 11 2 right0 left1 [] (talk_other _ _ _ _ _ sample_asked) _ _ _); by vm_compute.
Qed.

Lemma sample_done : talk 11 501 4 left2 right1.
Proof. refine (talk_delivery 11 501 3 left1 right1 [OnIncomingStreamsReset [1]] sample_answered _ _ _); by vm_compute. Qed.

Lemma resets_exactly_once_witness : reported (reset_events_ left2) = [[1]] ∧ performed (reset_events_ right1) = [[1]]
  ∧ Forall (λ e, failure e = false) (reset_events_ left1)
  ∧ (performed (reset_events_ right1) = reported (reset_events_ left1)
     ∨ ∃ r, current_request_ left1 = Some r ∧ performed (reset_events_ right1) = reported (reset_events_ left1) ++ [req_streams r]).
Proof.
  split; [by vm_compute|]. split; [by vm_compute|]. refine (resets_exactly_once 11 501 3 left1 right1 sample_answered _). vm_compute. reflexivity.
Defined.

Lemma reset_completes_witness : ∃ request response x1 y1 x2,
    MaybeSendResetStreamsRequest left0 = Ret tt x1 ∧ reset_events_ x1 = SendReConfig request :: reset_events_ left0
    ∧ HandleReConfig request right0 = Ret tt y1
    ∧ reset_events_ y1 = SendReConfig response :: OnIncomingStreamsReset (Rtx_BeginResetStreams (reset_rtx_ left0)).1 :: reset_events_ right0
    ∧ reset_reassembly_ y1 = ResetStreamsAndLeaveDeferredReset (Rtx_BeginResetStreams (reset_rtx_ left0)).1 (reset_reassembly_ right0)
    ∧ HandleReConfig response x1 = Ret tt x2 ∧ reset_events_ x2 = OnStreamsResetPerformed (Rtx_BeginResetStreams (reset_rtx_ left0)).1 :: reset_events_ x1
    ∧ current_request_ x2 = None ∧ reset_rtx_ x2 = Rtx_CommitResetStreams (Rtx_BeginResetStreams (reset_rtx_ left0)).2.
Proof.
  refine (reset_completes 11 501 1 left0 right0 sample_reset_ready _ _ _ _ _ _); [vm_compute; reflexivity..| |vm_compute; discriminate|vm_compute; reflexivity].
  apply (bool_decide_eq_true_1 (Forall (λ z, 0 ≤ z < 2 ^ 16) _)). vm_compute. reflexivity.
Defined.

Lemma reset_handler_never_fails_witness : is_running_ (reconfig_timer_ left1) = bool_decide (is_Some (current_request_ left1))
  ∧ (∀ data ps, ReConfigChunk_Parse data = Parsed ps → ∃ h', HandleReConfig ps left1 = Ret tt h')
  ∧ (∃ h', MaybeSendResetStreamsRequest left1 = Ret tt h') ∧ ∀ g, ∃ h', reconfig_timeout g left1 = Ret tt h'.
Proof.
  refine (reset_handler_never_fails left1 (reset_asks left0 left1 _ (run_returns MaybeSendResetStreamsRequest left0 _))); [|vm_compute; reflexivity].
  exact (reset_outside (sample_end 11 501) 1000000 _ _ _ _ (reset_start 11 501 1000000 (Some 10) 3 _ _ _ None)).
Defined.

Definition some_request : OutgoingSSNResetRequestParameter := mkOutgoing 501 501 600 [4; 5].
Lemma some_request_carried : carries (outgoing_bytes some_request) (OutgoingResetParam some_request).
Proof. exists (mkParam 13 (outgoing_bytes some_request)). split; [by vm_compute|split; by vm_compute]. Qed.

Lemma repeated_request_answered_alike_witness :
  let h1 := run (HandleReConfig (outgoing_bytes some_request)) left0 in
  ∃ sent rest, reset_events_ h1 = SendReConfig sent :: rest
    ∧ HandleReConfig (outgoing_bytes some_request) h1 = Ret tt (h1 <| reset_events_ ::= cons (SendReConfig sent) |>).
Proof.
  refine (repeated_request_answered_alike left0 _ (outgoing_bytes some_request) some_request 500 some_request_carried _ _ (run_returns _ left0 _)); [unfold uint; cbn; lia|..]; by vm_compute.
Defined.

(** Asked to reset streams 4 and 5 before the data arrived, it puts that off; then it is asked
    twice to have the incoming streams reset. *)
Definition deferred : SampleHandler := run (HandleReConfig (outgoing_bytes some_request)) left0.
Definition incoming_bytes : list Z := match build_parameters [IncomingResetParam (mkIncoming 502 [4])] with Parsed ps => ps | _ => [] end.
Lemma incoming_carried : carries incoming_bytes (IncomingResetParam (mkIncoming 502 [4])).
Proof. exists (mkParam 14 incoming_bytes). split; [by vm_compute|split; by vm_compute]. Qed.

Lemma repeated_incoming_request_answered_otherwise_witness : last_processed_req_result_ deferred = kInProgress
  ∧ reset_events_ (run (HandleReConfig incoming_bytes) deferred) = SendReConfig (response_bytes 502 kSuccessNothingToDo) :: reset_events_ deferred
  ∧ ∃ h2, HandleReConfig incoming_bytes (run (HandleReConfig incoming_bytes) deferred) = Ret tt h2
    ∧ reset_events_ h2 = SendReConfig (response_bytes 502 (last_processed_req_result_ deferred)) :: reset_events_ (run (HandleReConfig incoming_bytes) deferred).
Proof.
  split; [by vm_compute|].
  refine (repeated_incoming_request_answered_otherwise deferred _ incoming_bytes (mkIncoming 502 [4]) 501 incoming_carried _ _ _ (run_returns _ deferred _));
    [unfold uint; cbn; lia|..]; by vm_compute.
Defined.

(** ** Handover

    The end that made the first request moves to another process: it saves its numbers, and
    the new one asks for another reset. *)
Definition moved (state : option ResetState) : SampleHandler :=
  StreamResetHandler_new 11 501 1000000 (Some 10) 3 (reset_tracker_ left2) (reset_reassembly_ left2) (Rtx_PrepareResetStream 2 (reset_sample_rtx 11)) state.
Definition asks_again (x : SampleHandler) : SampleHandler * SampleHandler :=
  let x1 := run MaybeSendResetStreamsRequest x in
  let y1 := run (HandleReConfig (latest x1)) right1 in (run (HandleReConfig (latest y1)) x1, y1).

(** With the numbers that were saved the peer resets the stream.  But the new control block
    makes the handler without them: its request repeats the number of the first, and the
    application is told of a reset that the peer never did. *)
Theorem handover_loses_a_reset :
  (let '(x, y) := asks_again (moved (Some (Reset_AddHandoverState left2))) in reported (reset_events_ x) = [[2]] ∧ performed (reset_events_ y) = [[1]; [2]])
  ∧ let '(x, y) := asks_again (TCB_stream_reset_handler 11 501 1000000 (Some 10) 3 (reset_tracker_ left2) (reset_reassembly_ left2)
      (Rtx_PrepareResetStream 2 (reset_sample_rtx 11))) in
    reported (reset_events_ x) = [[2]] ∧ performed (reset_events_ y) = [[1]].
Proof. vm_compute. repeat split. Qed.
