(* ===== verification/ControlWire.v ===== *)
(** * Control chunks (includes/webrtc/net/dcsctp/packet/chunk, packet/parameter,
    packet/error_cause, socket/state_cookie.h, .cc, socket/capabilities.h)

    The chunks that set up, watch over and end an association, their parameters and error
    causes, and the state cookie.  Most of them have one of four shapes: raw bytes, nothing,
    a number, or a list of parameters behind the header. *)

From S2P Require Import Prelude SctpWire SctpPacket ReConfig.
Open Scope Z_scope.
Open Scope parse_scope.

(** ** The shapes *)

Definition Raw_Parse (cfg : TlvConfig) (data : list Z) : parsed (list Z) :=
  let* reader := ParseTLV cfg data in Parsed (variable_data 4 reader).
Definition Raw_SerializeTo (cfg : TlvConfig) (bytes out : list Z) : list Z :=
  out ++ CopyToVariableData 4 bytes (AllocateTLV cfg (length bytes)).

Definition Empty_Parse (cfg : TlvConfig) (data : list Z) : parsed unit := let* _ := ParseTLV cfg data in Parsed tt.
Definition Empty_SerializeTo (cfg : TlvConfig) (out : list Z) : list Z := out ++ AllocateTLV cfg 0.

Definition Word_Parse (cfg : TlvConfig) (data : list Z) : parsed Z := let* reader := ParseTLV cfg data in Parsed (Load32 4 reader).
Definition Word_SerializeTo (cfg : TlvConfig) (v : Z) (out : list Z) : list Z := out ++ Store32 4 v (AllocateTLV cfg 0).

Definition Params_Parse (cfg : TlvConfig) (data : list Z) : parsed (list Z) :=
  let* reader := ParseTLV cfg data in Parameters_Parse (variable_data 4 reader).

(** ** Chunks *)

(** *** init_chunk.cc, init_ack_chunk.cc: the two have the same fields *)
Definition InitChunkConfig : TlvConfig := mkTlv 1 1 20 1.
Definition InitAckChunkConfig : TlvConfig := mkTlv 2 1 20 1.
Record InitChunk := mkInit {
  initiate_tag : Z;
  init_a_rwnd : Z;
  nbr_outbound_streams : Z;
  nbr_inbound_streams : Z;
  initial_tsn : Z;
  init_parameters : list Z
}.
Definition AnyInit_Parse (cfg : TlvConfig) (data : list Z) : parsed InitChunk :=
  let* reader := ParseTLV cfg data in
  let initiate_tag := Load32 4 reader in
  let a_rwnd := Load32 8 reader in
  let nbr_outbound_streams := Load16 12 reader in
  let nbr_inbound_streams := Load16 14 reader in
  let initial_tsn := Load32 16 reader in
  let* parameters := Parameters_Parse (variable_data 20 reader) in
  Parsed (mkInit initiate_tag a_rwnd nbr_outbound_streams nbr_inbound_streams initial_tsn parameters).
Definition AnyInit_SerializeTo (cfg : TlvConfig) (c : InitChunk) (out : list Z) : list Z :=
  let writer := AllocateTLV cfg (length (init_parameters c)) in
  let writer := Store32 4 (initiate_tag c) writer in
  let writer := Store32 8 (init_a_rwnd c) writer in
  let writer := Store16 12 (nbr_outbound_streams c) writer in
  let writer := Store16 14 (nbr_inbound_streams c) writer in
  let writer := Store32 16 (initial_tsn c) writer in
  out ++ CopyToVariableData 20 (init_parameters c) writer.
Definition InitChunk_Parse : list Z → parsed InitChunk := AnyInit_Parse InitChunkConfig.
Definition InitChunk_SerializeTo : InitChunk → list Z → list Z := AnyInit_SerializeTo InitChunkConfig.
Definition InitAckChunk_Parse : list Z → parsed InitChunk := AnyInit_Parse InitAckChunkConfig.
Definition InitAckChunk_SerializeTo : InitChunk → list Z → list Z := AnyInit_SerializeTo InitAckChunkConfig.

Definition CookieEchoChunkConfig : TlvConfig := mkTlv 10 1 4 1.
Definition CookieEchoChunk_Parse : list Z → parsed (list Z) := Raw_Parse CookieEchoChunkConfig.
Definition CookieEchoChunk_SerializeTo : list Z → list Z → list Z := Raw_SerializeTo CookieEchoChunkConfig.

Definition CookieAckChunkConfig : TlvConfig := mkTlv 11 1 4 0.
Definition CookieAckChunk_Parse : list Z → parsed unit := Empty_Parse CookieAckChunkConfig.
Definition CookieAckChunk_SerializeTo : list Z → list Z := Empty_SerializeTo CookieAckChunkConfig.

Definition HeartbeatRequestChunkConfig : TlvConfig := mkTlv 4 1 4 1.
Definition HeartbeatRequestChunk_Parse : list Z → parsed (list Z) := Params_Parse HeartbeatRequestChunkConfig.
Definition HeartbeatRequestChunk_SerializeTo : list Z → list Z → list Z := Raw_SerializeTo HeartbeatRequestChunkConfig.

Definition HeartbeatAckChunkConfig : TlvConfig := mkTlv 5 1 4 1.
Definition HeartbeatAckChunk_Parse : list Z → parsed (list Z) := Params_Parse HeartbeatAckChunkConfig.
Definition HeartbeatAckChunk_SerializeTo : list Z → list Z → list Z := Raw_SerializeTo HeartbeatAckChunkConfig.

Definition kFlagsBitT : Z := 0.

Definition AbortChunkConfig : TlvConfig := mkTlv 6 1 4 1.
Record AbortChunk := mkAbort { filled_in_verification_tag : bool; abort_causes : list Z }.
Definition AbortChunk_Parse (data : list Z) : parsed AbortChunk :=
  let* reader := ParseTLV AbortChunkConfig data in
  let* error_causes := Parameters_Parse (variable_data 4 reader) in
  let flags := Load8 1 reader in
  Parsed (mkAbort (Z.land flags (Z.shiftl 1 kFlagsBitT) =? 0) error_causes).
Definition AbortChunk_SerializeTo (c : AbortChunk) (out : list Z) : list Z :=
  let writer := AllocateTLV AbortChunkConfig (length (abort_causes c)) in
  let writer := Store8 1 (if filled_in_verification_tag c then 0 else Z.shiftl 1 kFlagsBitT) writer in
  out ++ CopyToVariableData 4 (abort_causes c) writer.

Definition ErrorChunkConfig : TlvConfig := mkTlv 9 1 4 4.
Definition ErrorChunk_Parse : list Z → parsed (list Z) := Params_Parse ErrorChunkConfig.
Definition ErrorChunk_SerializeTo : list Z → list Z → list Z := Raw_SerializeTo ErrorChunkConfig.

Definition ShutdownChunkConfig : TlvConfig := mkTlv 7 1 8 0.
Definition ShutdownChunk_Parse : list Z → parsed Z := Word_Parse ShutdownChunkConfig.
Definition ShutdownChunk_SerializeTo : Z → list Z → list Z := Word_SerializeTo ShutdownChunkConfig.

Definition ShutdownAckChunkConfig : TlvConfig := mkTlv 8 1 4 0.
Definition ShutdownAckChunk_Parse : list Z → parsed unit := Empty_Parse ShutdownAckChunkConfig.
Definition ShutdownAckChunk_SerializeTo : list Z → list Z := Empty_SerializeTo ShutdownAckChunkConfig.

Definition ShutdownCompleteChunkConfig : TlvConfig := mkTlv 14 1 4 0.
Definition ShutdownCompleteChunk_Parse (data : list Z) : parsed bool :=
  let* reader := ParseTLV ShutdownCompleteChunkConfig data in
  let flags := Load8 1 reader in
  Parsed (negb (Z.land flags (Z.shiftl 1 kFlagsBitT) =? 0)).
Definition ShutdownCompleteChunk_SerializeTo (tag_reflected : bool) (out : list Z) : list Z :=
  out ++ Store8 1 (if tag_reflected then Z.shiftl 1 kFlagsBitT else 0) (AllocateTLV ShutdownCompleteChunkConfig 0).

(** ** Parameters *)

Definition ForwardTsnSupportedConfig : TlvConfig := mkTlv 49152 2 4 0.
Definition ForwardTsnSupported_Parse : list Z → parsed unit := Empty_Parse ForwardTsnSupportedConfig.
Definition ForwardTsnSupported_SerializeTo : list Z → list Z := Empty_SerializeTo ForwardTsnSupportedConfig.

Definition SupportedExtensionsConfig : TlvConfig := mkTlv 0x8008 2 4 1.
Definition SupportedExtensions_Parse : list Z → parsed (list Z) := Raw_Parse SupportedExtensionsConfig.
Definition SupportedExtensions_SerializeTo : list Z → list Z → list Z := Raw_SerializeTo SupportedExtensionsConfig.
Definition supports (chunk_types : list Z) (chunk_type : Z) : bool := bool_decide (chunk_type ∈ chunk_types).

Definition StateCookieConfig : TlvConfig := mkTlv 7 2 4 1.
Definition StateCookieParameter_Parse : list Z → parsed (list Z) := Raw_Parse StateCookieConfig.
Definition StateCookieParameter_SerializeTo : list Z → list Z → list Z := Raw_SerializeTo StateCookieConfig.

(** [ZeroChecksumAlternateErrorDetectionMethod::None()]. *)
Definition NoMethod : Z := 0.
Definition ZeroChecksumConfig : TlvConfig := mkTlv 0x8001 2 8 0.
Definition ZeroChecksum_Parse (data : list Z) : parsed Z :=
  let* reader := ParseTLV ZeroChecksumConfig data in
  let method := Load32 4 reader in
  if method =? NoMethod then Rejected else Parsed method.
Definition ZeroChecksum_SerializeTo : Z → list Z → list Z := Word_SerializeTo ZeroChecksumConfig.

Definition HeartbeatInfoConfig : TlvConfig := mkTlv 1 2 4 1.
Definition HeartbeatInfo_Parse : list Z → parsed (list Z) := Raw_Parse HeartbeatInfoConfig.
Definition HeartbeatInfo_SerializeTo : list Z → list Z → list Z := Raw_SerializeTo HeartbeatInfoConfig.

(** [Parameters::get]: the first parameter of the type. *)
Fixpoint find_parameter {A} (cfg : TlvConfig) (parse : list Z → parsed A) (descs : list ParameterDescriptor) : parsed A :=
  match descs with
  | [] => Rejected
  | d :: descs' => if param_type d =? kType cfg then parse (param_data d) else find_parameter cfg parse descs'
  end.
Definition Parameters_get {A} (cfg : TlvConfig) (parse : list Z → parsed A) (data : list Z) : parsed A :=
  let* descs := descriptors data in find_parameter cfg parse descs.

(** ** Error causes *)

Definition InvalidStreamIdentifierConfig : TlvConfig := mkTlv 1 2 8 0.
Definition InvalidStreamIdentifier_Parse (data : list Z) : parsed Z :=
  let* reader := ParseTLV InvalidStreamIdentifierConfig data in Parsed (Load16 4 reader).
Definition InvalidStreamIdentifier_SerializeTo (stream_id : Z) (out : list Z) : list Z :=
  out ++ Store16 4 stream_id (AllocateTLV InvalidStreamIdentifierConfig 0).

Definition MissingMandatoryParameterConfig : TlvConfig := mkTlv 2 2 8 2.
Definition MissingMandatoryParameter_Parse (data : list Z) : parsed (list Z) :=
  let* reader := ParseTLV MissingMandatoryParameterConfig data in
  let count := Load32 4 reader in
  let held := (length (variable_data 8 reader) / 2)%nat in
  if negb (Z.of_nat held =? count) then Rejected else read_records 8 2 (Load16 0) held 0 reader.
Definition MissingMandatoryParameter_SerializeTo (types : list Z) (out : list Z) : parsed (list Z) :=
  let writer := AllocateTLV MissingMandatoryParameterConfig (length types * 2) in
  let writer := Store32 4 (Z.of_nat (length types)) writer in
  let* writer := write_records 8 2 (be16 <$> types) 0 writer in
  Parsed (out ++ writer).

Definition StaleCookieErrorConfig : TlvConfig := mkTlv 3 2 8 0.
Definition StaleCookieError_Parse : list Z → parsed Z := Word_Parse StaleCookieErrorConfig.
Definition StaleCookieError_SerializeTo : Z → list Z → list Z := Word_SerializeTo StaleCookieErrorConfig.

Definition OutOfResourceErrorConfig : TlvConfig := mkTlv 4 2 4 0.
Definition OutOfResourceError_Parse : list Z → parsed unit := Empty_Parse OutOfResourceErrorConfig.
Definition OutOfResourceError_SerializeTo : list Z → list Z := Empty_SerializeTo OutOfResourceErrorConfig.

Definition UnresolvableAddressConfig : TlvConfig := mkTlv 5 2 4 1.
Definition UnresolvableAddress_Parse : list Z → parsed (list Z) := Raw_Parse UnresolvableAddressConfig.
Definition UnresolvableAddress_SerializeTo : list Z → list Z → list Z := Raw_SerializeTo UnresolvableAddressConfig.

Definition UnrecognizedChunkTypeConfig : TlvConfig := mkTlv 6 2 4 1.
Definition UnrecognizedChunkType_Parse : list Z → parsed (list Z) := Raw_Parse UnrecognizedChunkTypeConfig.
Definition UnrecognizedChunkType_SerializeTo : list Z → list Z → list Z := Raw_SerializeTo UnrecognizedChunkTypeConfig.

Definition InvalidMandatoryParameterConfig : TlvConfig := mkTlv 7 2 4 0.
Definition InvalidMandatoryParameter_Parse : list Z → parsed unit := Empty_Parse InvalidMandatoryParameterConfig.
Definition InvalidMandatoryParameter_SerializeTo : list Z → list Z := Empty_SerializeTo InvalidMandatoryParameterConfig.

Definition UnrecognizedParametersConfig : TlvConfig := mkTlv 8 2 4 1.
Definition UnrecognizedParameters_Parse : list Z → parsed (list Z) := Raw_Parse UnrecognizedParametersConfig.
Definition UnrecognizedParameters_SerializeTo : list Z → list Z → list Z := Raw_SerializeTo UnrecognizedParametersConfig.

Definition NoUserDataConfig : TlvConfig := mkTlv 9 2 8 0.
Definition NoUserData_Parse : list Z → parsed Z := Word_Parse NoUserDataConfig.
Definition NoUserData_SerializeTo : Z → list Z → list Z := Word_SerializeTo NoUserDataConfig.

Definition CookieReceivedWhileShuttingDownConfig : TlvConfig := mkTlv 10 2 4 0.
Definition CookieReceivedWhileShuttingDown_Parse : list Z → parsed unit := Empty_Parse CookieReceivedWhileShuttingDownConfig.
Definition CookieReceivedWhileShuttingDown_SerializeTo : list Z → list Z := Empty_SerializeTo CookieReceivedWhileShuttingDownConfig.

Definition RestartWithNewAddressesConfig : TlvConfig := mkTlv 11 2 4 1.
Definition RestartWithNewAddresses_Parse : list Z → parsed (list Z) := Raw_Parse RestartWithNewAddressesConfig.
Definition RestartWithNewAddresses_SerializeTo : list Z → list Z → list Z := Raw_SerializeTo RestartWithNewAddressesConfig.

(** The reasons are texts, byte for byte. *)
Definition UserInitiatedAbortConfig : TlvConfig := mkTlv 12 2 4 1.
Definition UserInitiatedAbort_Parse : list Z → parsed (list Z) := Raw_Parse UserInitiatedAbortConfig.
Definition UserInitiatedAbort_SerializeTo : list Z → list Z → list Z := Raw_SerializeTo UserInitiatedAbortConfig.

Definition ProtocolViolationConfig : TlvConfig := mkTlv 13 2 4 1.
Definition ProtocolViolation_Parse : list Z → parsed (list Z) := Raw_Parse ProtocolViolationConfig.
Definition ProtocolViolation_SerializeTo : list Z → list Z → list Z := Raw_SerializeTo ProtocolViolationConfig.

(** What [ErrorCausesToString] writes about one cause: the line of a cause that was parsed,
    that it could not be, or that its type is unknown. *)
Inductive CauseLine :=
| InvalidStreamIdentifierCause (stream_id : Z)
| MissingMandatoryParameterCause (types : list Z)
| StaleCookieErrorCause (staleness_us : Z)
| OutOfResourceErrorCause
| UnresolvableAddressCause
| UnrecognizedChunkTypeCause (chunk_type : option Z)
| InvalidMandatoryParameterCause
| UnrecognizedParametersCause
| NoUserDataCause (tsn : Z)
| CookieReceivedWhileShuttingDownCause
| RestartOfAnAssociationWithNewAddressesCause
| UserInitiatedAbortCause (reason : list Z)
| ProtocolViolationCause (additional_information : list Z)
| FailedToParseCause (type : Z)
| UnhandledParameter (type : Z).

Definition ParseAndPrint {A} (cfg : TlvConfig) (parse : list Z → parsed A) (print : A → CauseLine) (d : ParameterDescriptor)
    : option (parsed CauseLine) :=
  if param_type d =? kType cfg then
    Some (match parse (param_data d) with Parsed a => Parsed (print a) | Rejected => Parsed (FailedToParseCause (kType cfg)) | CheckFailed => CheckFailed end)
  else None.

Definition print_cause (d : ParameterDescriptor) : parsed CauseLine :=
  default (Parsed (UnhandledParameter (param_type d))) (
    ParseAndPrint InvalidStreamIdentifierConfig InvalidStreamIdentifier_Parse InvalidStreamIdentifierCause d
    ∪ ParseAndPrint MissingMandatoryParameterConfig MissingMandatoryParameter_Parse MissingMandatoryParameterCause d
    ∪ ParseAndPrint StaleCookieErrorConfig StaleCookieError_Parse StaleCookieErrorCause d
    ∪ ParseAndPrint OutOfResourceErrorConfig OutOfResourceError_Parse (λ _, OutOfResourceErrorCause) d
    ∪ ParseAndPrint UnresolvableAddressConfig UnresolvableAddress_Parse (λ _, UnresolvableAddressCause) d
    ∪ ParseAndPrint UnrecognizedChunkTypeConfig UnrecognizedChunkType_Parse (λ c, UnrecognizedChunkTypeCause (head c)) d
    ∪ ParseAndPrint InvalidMandatoryParameterConfig InvalidMandatoryParameter_Parse (λ _, InvalidMandatoryParameterCause) d
    ∪ ParseAndPrint UnrecognizedParametersConfig UnrecognizedParameters_Parse (λ _, UnrecognizedParametersCause) d
    ∪ ParseAndPrint NoUserDataConfig NoUserData_Parse NoUserDataCause d
    ∪ ParseAndPrint CookieReceivedWhileShuttingDownConfig CookieReceivedWhileShuttingDown_Parse (λ _, CookieReceivedWhileShuttingDownCause) d
    ∪ ParseAndPrint RestartWithNewAddressesConfig RestartWithNewAddresses_Parse (λ _, RestartOfAnAssociationWithNewAddressesCause) d
    ∪ ParseAndPrint UserInitiatedAbortConfig UserInitiatedAbort_Parse UserInitiatedAbortCause d
    ∪ ParseAndPrint ProtocolViolationConfig ProtocolViolation_Parse ProtocolViolationCause d).
Fixpoint print_causes (descs : list ParameterDescriptor) : parsed (list CauseLine) :=
  match descs with
  | [] => Parsed []
  | d :: descs' => let* line := print_cause d in let* rest := print_causes descs' in Parsed (line :: rest)
  end.
Definition ErrorCausesToString (parameters : list Z) : parsed (list CauseLine) :=
  let* descs := descriptors parameters in print_causes descs.

(** ** state_cookie.cc *)

Record Capabilities := mkCapabilities {
  partial_reliability : bool;
  message_interleaving : bool;
  reconfig : bool;
  zero_checksum : bool;
  negotiated_maximum_incoming_streams : Z;
  negotiated_maximum_outgoing_streams : Z
}.
Record StateCookie := mkCookie {
  cookie_peer_tag : Z;
  cookie_my_tag : Z;
  cookie_peer_initial_tsn : Z;
  cookie_my_initial_tsn : Z;
  cookie_a_rwnd : Z;
  cookie_tie_tag : Z;
  cookie_capabilities : Capabilities
}.

Definition kMagic1 : Z := 1684230979.
Definition kMagic2 : Z := 1414541360.
Definition kCookieSize : nat := 44.

Definition Cookie_Serialize (c : StateCookie) : list Z :=
  let cap := cookie_capabilities c in
  let buffer := replicate kCookieSize 0 in
  let buffer := Store32 0 kMagic1 buffer in
  let buffer := Store32 4 kMagic2 buffer in
  let buffer := Store32 8 (cookie_peer_tag c) buffer in
  let buffer := Store32 12 (cookie_my_tag c) buffer in
  let buffer := Store32 16 (cookie_peer_initial_tsn c) buffer in
  let buffer := Store32 20 (cookie_my_initial_tsn c) buffer in
  let buffer := Store32 24 (cookie_a_rwnd c) buffer in
  let buffer := Store32 28 (wrap 32 (Z.shiftr (cookie_tie_tag c) 32)) buffer in
  let buffer := Store32 32 (wrap 32 (cookie_tie_tag c)) buffer in
  let buffer := Store8 36 (Z.b2z (partial_reliability cap)) buffer in
  let buffer := Store8 37 (Z.b2z (message_interleaving cap)) buffer in
  let buffer := Store8 38 (Z.b2z (reconfig cap)) buffer in
  let buffer := Store8 39 (Z.b2z (zero_checksum cap)) buffer in
  let buffer := Store16 40 (negotiated_maximum_incoming_streams cap) buffer in
  Store16 42 (negotiated_maximum_outgoing_streams cap) buffer.

Definition Cookie_Deserialize (cookie : list Z) : option StateCookie :=
  if negb (length cookie =? kCookieSize)%nat then None
  else if negb (Load32 0 cookie =? kMagic1) || negb (Load32 4 cookie =? kMagic2) then None
  else
    let tie_tag_upper := Load32 28 cookie in
    let tie_tag_lower := Load32 32 cookie in
    Some (mkCookie (Load32 8 cookie) (Load32 12 cookie) (Load32 16 cookie) (Load32 20 cookie) (Load32 24 cookie)
      (Z.lor (Z.shiftl tie_tag_upper 32) tie_tag_lower)
      (mkCapabilities (negb (Load8 36 cookie =? 0)) (negb (Load8 37 cookie =? 0)) (negb (Load8 38 cookie =? 0)) (negb (Load8 39 cookie =? 0))
        (Load16 40 cookie) (Load16 42 cookie))).

(** [DeterminePeerImplementation] of dcsctp_socket.cc: the first eight bytes of the cookie. *)
Definition text (s : string) : list Z := (λ a, Z.of_nat (Ascii.nat_of_ascii a)) <$> String.list_ascii_of_string s.
Inductive SctpImplementation := kUnknown | kDcsctp | kUsrSctp | kOther.
Definition DeterminePeerImplementation (cookie : list Z) : SctpImplementation :=
  if (8 <? length cookie)%nat then
    let magic := take 8 cookie in
    if bool_decide (magic = text "dcSCTP00") then kDcsctp
    else if bool_decide (magic = text "KAME-BSD") then kUsrSctp else kOther
  else kOther.

(** ** Headers *)

Definition cfg_wf (cfg : TlvConfig) : Prop :=
  (kTypeSizeInBytes cfg = 1 ∧ uint 8 (kType cfg)) ∨ (kTypeSizeInBytes cfg = 2 ∧ uint 16 (kType cfg)).
Definition header_of (cfg : TlvConfig) (size flags : Z) : list Z :=
  if kTypeSizeInBytes cfg =? 1 then tlv_header (kType cfg) size flags else param_tlv (kType cfg) size.

Lemma header_shape cfg size flags : ∃ type fl, header_of cfg size flags = tlv_header type size fl
  ∧ (cfg_wf cfg → (if kTypeSizeInBytes cfg =? 1 then wrap 8 type else wrap 8 type * 2 ^ 8 + wrap 8 fl) = kType cfg)
  ∧ (kTypeSizeInBytes cfg = 1 → type = kType cfg ∧ fl = flags).
Proof.
  unfold header_of. destruct (kTypeSizeInBytes cfg =? 1) eqn:E.
  - exists (kType cfg), flags. split; [done|]. split; [|done]. intros [[_ H]|[H2 _]]; [by apply wrap_small|]. rewrite H2 in E. done.
  - exists (Z.shiftr (kType cfg) 8), (kType cfg). split; [done|]. apply Z.eqb_neq in E. split; [|done]. intros [[H _]|[_ H]]; [done|].
    rewrite <- (lor_shiftl _ _ 8) by (try apply wrap_8; lia). rewrite join16. by apply wrap_small.
Qed.

Lemma length_header cfg size flags : length (header_of cfg size flags) = 4%nat.
Proof. unfold header_of. by destruct (_ =? 1). Qed.

(** What a writer starts from. *)
Lemma AllocateTLV_header cfg k n : kHeaderSize cfg = (4 + k)%nat → AllocateTLV cfg n = header_of cfg (Z.of_nat (4 + k + n)) 0 ++ replicate (k + n) 0.
Proof. intros H. unfold AllocateTLV, header_of. rewrite H. by destruct (_ =? 1). Qed.

Lemma ParseTLV_variable cfg flags body pad : cfg_wf cfg → kVariableLengthAlignment cfg ≠ 0 → (4 ≤ kHeaderSize cfg)%nat →
  (kHeaderSize cfg ≤ 4 + length body)%nat → Z.of_nat (4 + length body) < 2 ^ 16 → (length pad ≤ 3)%nat →
  ValidateLengthAlignment (Z.of_nat (4 + length body)) (kVariableLengthAlignment cfg) = true →
  let bytes := header_of cfg (Z.of_nat (4 + length body)) flags ++ body in ParseTLV cfg (bytes ++ pad) = Parsed bytes.
Proof.
  intros Hc H1 H2 H3 H4 H5 H6. destruct (header_shape cfg (Z.of_nat (4 + length body)) flags) as (type & fl & -> & Ht & _).
  apply ParseTLV_read; try done. by apply Ht.
Qed.

(** A TLV without variable data has exactly the size of its header. *)
Lemma ParseTLV_fixed cfg flags body : cfg_wf cfg → kVariableLengthAlignment cfg = 0 → kHeaderSize cfg = (4 + length body)%nat →
  Z.of_nat (4 + length body) < 2 ^ 16 →
  let bytes := header_of cfg (Z.of_nat (4 + length body)) flags ++ body in ParseTLV cfg bytes = Parsed bytes.
Proof.
  intros Hc H1 H2 H3 bytes. destruct (header_shape cfg (Z.of_nat (4 + length body)) flags) as (type & fl & E & Ht & _).
  assert (length bytes = kHeaderSize cfg) as Hlen by (unfold bytes; rewrite length_app, length_header; lia).
  assert ((if kTypeSizeInBytes cfg =? 1 then Load8 0 bytes else Load16 0 bytes) = kType cfg) as Hty.
  { rewrite <- (Ht Hc). unfold bytes. rewrite E. destruct (_ =? 1); [done|]. apply (lor_shiftl (wrap 8 type) (wrap 8 fl)); [lia|apply wrap_8]. }
  assert (Load16 2 bytes = Z.of_nat (kHeaderSize cfg)) as Hl16.
  { unfold bytes, tlv_header. rewrite E. unfold tlv_header. rewrite <- !app_assoc, (app_assoc (be8 _) (be8 _)), Load16_app, Load16_be16 by done.
    rewrite H2. apply wrap_small. split; lia. }
  unfold ParseTLV. rewrite (proj2 (Nat.ltb_ge _ _)) by lia. unfold BoundedByteReader at 1. rewrite (proj2 (Nat.leb_le 4 _)) by lia. cbn [pbind].
  rewrite Hty, Hl16, Z.eqb_refl, H1, Hlen, Nat.eqb_refl. cbn [negb Z.eqb]. rewrite Z.eqb_refl. cbn [negb orb]. rewrite Nat2Z.id, take_ge by lia.
  unfold BoundedByteReader. by rewrite (proj2 (Nat.leb_le _ _)) by lia.
Qed.

Lemma Raw_written cfg bytes out : kHeaderSize cfg = 4%nat →
  Raw_SerializeTo cfg bytes out = out ++ header_of cfg (Z.of_nat (4 + length bytes)) 0 ++ bytes.
Proof.
  intros H. unfold Raw_SerializeTo. f_equal. rewrite (AllocateTLV_header cfg 0) by done. change (4 + 0 + length bytes)%nat with (4 + length bytes)%nat.
  change (0 + length bytes)%nat with (length bytes). rewrite <- (length_header cfg (Z.of_nat (4 + length bytes)) 0) at 1. apply copy_all.
Qed.

Lemma Word_written cfg v out : kHeaderSize cfg = 8%nat → Word_SerializeTo cfg v out = out ++ header_of cfg 8 0 ++ be32 v.
Proof.
  intros H. unfold Word_SerializeTo. f_equal. rewrite (AllocateTLV_header cfg 4) by done. unfold header_of. by destruct (_ =? 1).
Qed.

Lemma Empty_written cfg out : kHeaderSize cfg = 4%nat → Empty_SerializeTo cfg out = out ++ header_of cfg 4 0.
Proof. intros H. unfold Empty_SerializeTo. f_equal. rewrite (AllocateTLV_header cfg 0) by done. apply app_nil_r. Qed.

Lemma word_read cfg flags v rest : uint 32 v → Load32 4 (header_of cfg 8 flags ++ be32 v ++ rest) = v.
Proof. intros H. rewrite Load32_app by (by rewrite length_header). rewrite Load32_be32. by apply wrap_small. Qed.

(** ** The chunks round trip *)

Definition RawFormat (cfg : TlvConfig) : WireFormat (list Z) :=
  mkFormat _ (λ b out, Parsed (Raw_SerializeTo cfg b out)) (Raw_Parse cfg) (λ b, Z.of_nat (4 + length b) < 2 ^ 16).
Definition EmptyFormat (cfg : TlvConfig) : WireFormat unit :=
  mkFormat _ (λ _ out, Parsed (Empty_SerializeTo cfg out)) (Empty_Parse cfg) (λ _, True).
Definition WordFormat (cfg : TlvConfig) : WireFormat Z :=
  mkFormat _ (λ v out, Parsed (Word_SerializeTo cfg v out)) (Word_Parse cfg) (uint 32).
Definition ParamsFormat (cfg : TlvConfig) : WireFormat (list Z) :=
  mkFormat _ (λ ps out, Parsed (Raw_SerializeTo cfg ps out)) (Params_Parse cfg)
    (λ ps, Parameters_Parse ps = Parsed ps ∧ Z.of_nat (4 + length ps) < 2 ^ 16
           ∧ ValidateLengthAlignment (Z.of_nat (4 + length ps)) (kVariableLengthAlignment cfg) = true).

(** A chunk: its type has one byte. *)
Definition chunk_cfg (cfg : TlvConfig) : Prop := kTypeSizeInBytes cfg = 1 ∧ uint 8 (kType cfg).

Lemma chunk_header cfg size flags : chunk_cfg cfg → header_of cfg size flags = tlv_header (kType cfg) size flags.
Proof. intros [H _]. unfold header_of. by rewrite H. Qed.

Lemma Raw_round_trips cfg : chunk_cfg cfg → kHeaderSize cfg = 4%nat → kVariableLengthAlignment cfg = 1 → RoundTrips (RawFormat cfg).
Proof.
  intros Hc H4 H1 b Hb. cbn in Hb. exists (kType cfg), 0, b. cbv zeta. rewrite <- (chunk_header cfg _ 0) by done. split; [done|]. split.
  - intros out. cbn. by rewrite Raw_written.
  - intros pad Hpad _. cbn [fmt_parse RawFormat]. unfold Raw_Parse. rewrite ParseTLV_variable; try done; [|by left|lia|lia|lia|rewrite H1; apply aligned_1].
    cbn [pbind]. unfold variable_data. by rewrite drop_app_length' by (by rewrite length_header).
Qed.

Lemma Params_round_trips cfg : chunk_cfg cfg → kHeaderSize cfg = 4%nat → kVariableLengthAlignment cfg ≠ 0 → RoundTrips (ParamsFormat cfg).
Proof.
  intros Hc H4 H1 ps (Hp & Hb & Hal). exists (kType cfg), 0, ps. cbv zeta. rewrite <- (chunk_header cfg _ 0) by done. split; [done|]. split.
  - intros out. cbn. by rewrite Raw_written.
  - intros pad Hpad _. cbn [fmt_parse ParamsFormat]. unfold Params_Parse. rewrite ParseTLV_variable; try done; [|by left|lia|lia].
    cbn [pbind]. unfold variable_data. by rewrite drop_app_length' by (by rewrite length_header).
Qed.

Lemma Empty_round_trips cfg : chunk_cfg cfg → kHeaderSize cfg = 4%nat → kVariableLengthAlignment cfg = 0 → RoundTrips (EmptyFormat cfg).
Proof.
  intros Hc H4 H0 [] _. exists (kType cfg), 0, []. cbv zeta. rewrite <- (chunk_header cfg _ 0) by done. split; [done|]. split.
  - intros out. cbn. by rewrite Empty_written, app_nil_r.
  - intros pad Hpad Hn. rewrite Hn, !app_nil_r by done. cbn [fmt_parse EmptyFormat]. unfold Empty_Parse.
    pose proof (ParseTLV_fixed cfg 0 [] (or_introl Hc) H0 H4 ltac:(done)) as Hf. cbv zeta in Hf. rewrite app_nil_r in Hf. by rewrite Hf.
Qed.

Lemma Word_round_trips cfg : chunk_cfg cfg → kHeaderSize cfg = 8%nat → kVariableLengthAlignment cfg = 0 → RoundTrips (WordFormat cfg).
Proof.
  intros Hc H8 H0 v Hv. exists (kType cfg), 0, (be32 v). cbv zeta. rewrite <- (chunk_header cfg _ 0) by done. split; [done|]. split.
  - intros out. cbn. by rewrite Word_written.
  - intros pad Hpad Hn. rewrite Hn, app_nil_r by done. cbn [fmt_parse WordFormat]. unfold Word_Parse.
    rewrite (ParseTLV_fixed cfg 0 (be32 v) (or_introl Hc) H0 H8 ltac:(done)). cbn [pbind]. f_equal.
    pose proof (word_read cfg 0 v [] Hv) as Hw. by rewrite app_nil_r in Hw.
Qed.

Definition CookieEcho : WireFormat (list Z) := RawFormat CookieEchoChunkConfig.
Definition CookieAck : WireFormat unit := EmptyFormat CookieAckChunkConfig.
Definition HeartbeatRequest : WireFormat (list Z) := ParamsFormat HeartbeatRequestChunkConfig.
Definition HeartbeatAck : WireFormat (list Z) := ParamsFormat HeartbeatAckChunkConfig.
Definition Error : WireFormat (list Z) := ParamsFormat ErrorChunkConfig.
Definition Shutdown : WireFormat Z := WordFormat ShutdownChunkConfig.
Definition ShutdownAck : WireFormat unit := EmptyFormat ShutdownAckChunkConfig.
#[export] Instance CookieEcho_round_trips : RoundTrips CookieEcho.
Proof. by apply Raw_round_trips. Qed.
#[export] Instance CookieAck_round_trips : RoundTrips CookieAck.
Proof. by apply Empty_round_trips. Qed.
#[export] Instance HeartbeatRequest_round_trips : RoundTrips HeartbeatRequest.
Proof. by apply Params_round_trips. Qed.
#[export] Instance HeartbeatAck_round_trips : RoundTrips HeartbeatAck.
Proof. by apply Params_round_trips. Qed.
#[export] Instance Error_round_trips : RoundTrips Error.
Proof. by apply Params_round_trips. Qed.
#[export] Instance Shutdown_round_trips : RoundTrips Shutdown.
Proof. by apply Word_round_trips. Qed.
#[export] Instance ShutdownAck_round_trips : RoundTrips ShutdownAck.
Proof. by apply Empty_round_trips. Qed.

(** *** The chunks with flags or more fields *)

Definition ShutdownComplete : WireFormat bool :=
  mkFormat _ (λ t out, Parsed (ShutdownCompleteChunk_SerializeTo t out)) ShutdownCompleteChunk_Parse (λ _, True).
#[export] Instance ShutdownComplete_round_trips : RoundTrips ShutdownComplete.
Proof.
  intros t _. exists 14, (if t then 1 else 0), []. cbv zeta. split; [done|]. split; [by destruct t|].
  intros pad Hpad Hn. rewrite Hn by done. by destruct t.
Qed.

Definition params_wf (header : nat) (ps : list Z) : Prop := Parameters_Parse ps = Parsed ps ∧ Z.of_nat (header + length ps) < 2 ^ 16.

Definition Abort_wf (c : AbortChunk) : Prop := params_wf 4 (abort_causes c).
Definition AbortFormat : WireFormat AbortChunk := mkFormat _ (λ c out, Parsed (AbortChunk_SerializeTo c out)) AbortChunk_Parse Abort_wf.
#[export] Instance Abort_round_trips : RoundTrips AbortFormat.
Proof.
  intros [t ps] [Hp Hlen]. cbn in Hp, Hlen. set (fl := if t then 0 else 1). exists (kType AbortChunkConfig), fl, ps. cbv zeta. split; [done|]. split.
  - intros out. cbn [fmt_serialize AbortFormat]. unfold AbortChunk_SerializeTo. do 2 f_equal. etrans; [|exact (copy_all (tlv_header (kType AbortChunkConfig) (Z.of_nat (4 + length ps)) fl) ps)].
    by destruct t.
  - intros pad Hpad _. cbn [fmt_parse AbortFormat]. unfold AbortChunk_Parse.
    rewrite (ParseTLV_found AbortChunkConfig fl ps pad); try done; [|cbn [kHeaderSize AbortChunkConfig]; lia|apply aligned_1]. cbn [pbind].
    change (variable_data 4 _) with ps. rewrite Hp. by destruct t.
Qed.

Definition Init_wf (c : InitChunk) : Prop :=
  uint 32 (initiate_tag c) ∧ uint 32 (init_a_rwnd c) ∧ uint 16 (nbr_outbound_streams c) ∧ uint 16 (nbr_inbound_streams c)
  ∧ uint 32 (initial_tsn c) ∧ params_wf 20 (init_parameters c).
Definition InitFormat (cfg : TlvConfig) : WireFormat InitChunk := mkFormat _ (λ c out, Parsed (AnyInit_SerializeTo cfg c out)) (AnyInit_Parse cfg) Init_wf.
Definition Init : WireFormat InitChunk := InitFormat InitChunkConfig.
Definition InitAck : WireFormat InitChunk := InitFormat InitAckChunkConfig.

Definition init_fields (c : InitChunk) : list Z :=
  be32 (initiate_tag c) ++ be32 (init_a_rwnd c) ++ be16 (nbr_outbound_streams c) ++ be16 (nbr_inbound_streams c) ++ be32 (initial_tsn c).
Lemma Init_written cfg c out : cfg = InitChunkConfig ∨ cfg = InitAckChunkConfig →
  AnyInit_SerializeTo cfg c out = out ++ tlv_header (kType cfg) (Z.of_nat (20 + length (init_parameters c))) 0 ++ init_fields c ++ init_parameters c.
Proof.
  intros Hcfg. unfold AnyInit_SerializeTo. cbv zeta. f_equal. rewrite (app_assoc (tlv_header _ _ _)).
  etrans; [|exact (copy_all (tlv_header (kType cfg) (Z.of_nat (20 + length (init_parameters c))) 0 ++ init_fields c) (init_parameters c))].
  by destruct Hcfg as [-> | ->].
Qed.

Lemma Init_any_round_trips cfg : cfg = InitChunkConfig ∨ cfg = InitAckChunkConfig → RoundTrips (InitFormat cfg).
Proof.
  intros Hcfg [tag rwnd os mis tsn ps] (H1 & H2 & H3 & H4 & H5 & Hp & Hlen). cbn in H1, H2, H3, H4, H5, Hp, Hlen.
  set (fixed := be32 tag ++ be32 rwnd ++ be16 os ++ be16 mis ++ be32 tsn). set (body := fixed ++ ps).
  assert (4 + length body = 20 + length ps)%nat as Hb by done. exists (kType cfg), 0, body. cbv zeta. rewrite Hb. split; [lia|]. split.
  - intros out. cbn [fmt_serialize InitFormat]. by rewrite Init_written.
  - intros pad Hpad _. cbn [fmt_parse InitFormat]. unfold AnyInit_Parse. rewrite <- Hb.
    assert (ParseTLV cfg ((tlv_header (kType cfg) (Z.of_nat (4 + length body)) 0 ++ body) ++ pad) = Parsed (tlv_header (kType cfg) (Z.of_nat (4 + length body)) 0 ++ body)) as ->.
    { destruct Hcfg as [-> | ->]; apply ParseTLV_found; try done; cbn [kHeaderSize InitChunkConfig InitAckChunkConfig]; (lia || apply aligned_1). }
    cbn [pbind]. set (reader := tlv_header _ _ _ ++ body). change (variable_data 20 reader) with ps. rewrite Hp. cbn [pbind].
    do 2 f_equal; [field32 tag|field32 rwnd|field16 os|field16 mis|field32 tsn].
Qed.
#[export] Instance Init_round_trips : RoundTrips Init.
Proof. apply Init_any_round_trips. by left. Qed.
#[export] Instance InitAck_round_trips : RoundTrips InitAck.
Proof. apply Init_any_round_trips. by right. Qed.

(** ** Parameters are read back *)

Definition param_cfg (cfg : TlvConfig) : Prop := kTypeSizeInBytes cfg = 2 ∧ uint 16 (kType cfg).
(** A parameter with a value, as a descriptor finds it. *)
Definition desc_of (cfg : TlvConfig) (body : list Z) : ParameterDescriptor :=
  mkParam (kType cfg) (param_tlv (kType cfg) (Z.of_nat (4 + length body)) ++ body).

Lemma desc_of_bytes cfg body : param_cfg cfg → Z.of_nat (4 + length body) < 2 ^ 16 → param_bytes (desc_of cfg body).
Proof. intros [_ H] Hb. by exists body. Qed.

Lemma param_header_of cfg size flags : param_cfg cfg → header_of cfg size flags = param_tlv (kType cfg) size.
Proof. intros [H _]. unfold header_of. by rewrite H. Qed.

Lemma raw_param cfg body : param_cfg cfg → kHeaderSize cfg = 4%nat → kVariableLengthAlignment cfg = 1 → Z.of_nat (4 + length body) < 2 ^ 16 →
  (∀ out, Raw_SerializeTo cfg body out = out ++ param_data (desc_of cfg body)) ∧ Raw_Parse cfg (param_data (desc_of cfg body)) = Parsed body.
Proof.
  intros Hc H4 H1 Hb. cbn [desc_of param_data]. rewrite <- (param_header_of cfg _ 0) by done. split; [intros out; by apply Raw_written|].
  unfold Raw_Parse. pose proof (ParseTLV_variable cfg 0 body []) as Hp. cbv zeta in Hp. rewrite app_nil_r in Hp.
  rewrite Hp; try done; [|by right|lia|lia|lia|cbn; lia|rewrite H1; apply aligned_1]. cbn [pbind]. unfold variable_data.
  by rewrite drop_app_length' by (by rewrite length_header).
Qed.

Lemma word_param cfg v : param_cfg cfg → kHeaderSize cfg = 8%nat → kVariableLengthAlignment cfg = 0 → uint 32 v →
  (∀ out, Word_SerializeTo cfg v out = out ++ param_data (desc_of cfg (be32 v)))
  ∧ ParseTLV cfg (param_data (desc_of cfg (be32 v))) = Parsed (param_data (desc_of cfg (be32 v)))
  ∧ Load32 4 (param_data (desc_of cfg (be32 v))) = v.
Proof.
  intros Hc H8 H0 Hv. cbn [desc_of param_data]. rewrite <- (param_header_of cfg _ 0) by done. split; [intros out; by apply Word_written|].
  split; [by apply ParseTLV_fixed; [right|..]|]. pose proof (word_read cfg 0 v [] Hv) as Hw. by rewrite app_nil_r in Hw.
Qed.

Lemma empty_param cfg : param_cfg cfg → kHeaderSize cfg = 4%nat → kVariableLengthAlignment cfg = 0 →
  (∀ out, Empty_SerializeTo cfg out = out ++ param_data (desc_of cfg [])) ∧ Empty_Parse cfg (param_data (desc_of cfg [])) = Parsed tt.
Proof.
  intros Hc H4 H0. cbn [desc_of param_data]. rewrite <- (param_header_of cfg _ 0) by done. split; [intros out; rewrite app_nil_r; by apply Empty_written|].
  unfold Empty_Parse. rewrite (ParseTLV_fixed cfg 0 []); [done|by right|done|done|done].
Qed.

(** A parameter is found behind others of different types. *)
Lemma find_parameter_app {A} cfg (parse : list Z → parsed A) before d after :
  Forall (λ x, param_type x ≠ kType cfg) before → param_type d = kType cfg → find_parameter cfg parse (before ++ d :: after) = parse (param_data d).
Proof.
  intros H Hd. induction H as [|x before Hx H IH]; cbn [app find_parameter]; [by rewrite Hd, Z.eqb_refl|]. by rewrite (proj2 (Z.eqb_neq _ _)).
Qed.
Lemma find_parameter_none {A} cfg (parse : list Z → parsed A) descs : Forall (λ x, param_type x ≠ kType cfg) descs → find_parameter cfg parse descs = Rejected.
Proof. intros H. induction H as [|x before Hx H IH]; cbn [app find_parameter]; [done|]. by rewrite (proj2 (Z.eqb_neq _ _)). Qed.

(** ** The state cookie *)

Definition capabilities_wf (c : Capabilities) : Prop :=
  uint 16 (negotiated_maximum_incoming_streams c) ∧ uint 16 (negotiated_maximum_outgoing_streams c).
Definition cookie_wf (c : StateCookie) : Prop :=
  uint 32 (cookie_peer_tag c) ∧ uint 32 (cookie_my_tag c) ∧ uint 32 (cookie_peer_initial_tsn c) ∧ uint 32 (cookie_my_initial_tsn c)
  ∧ uint 32 (cookie_a_rwnd c) ∧ uint 64 (cookie_tie_tag c) ∧ capabilities_wf (cookie_capabilities c).

Lemma halves_64 v : uint 64 v → Z.lor (Z.shiftl (wrap 32 (Z.shiftr v 32)) 32) (wrap 32 v) = v.
Proof.
  intros H. rewrite lor_shiftl by (try apply wrap_uint; lia). rewrite Z.shiftr_div_pow2 by lia. unfold uint, wrap in *. 
  rewrite (Z.mod_small (v / 2 ^ 32)) by (split; [apply Z.div_pos; lia|apply Z.div_lt_upper_bound; lia]). pose proof (Z.div_mod v (2 ^ 32)). lia.
Qed.

Lemma length_cookie c : length (Cookie_Serialize c) = kCookieSize.
Proof. done. Qed.

Lemma cookie_read c : cookie_wf c → Cookie_Deserialize (Cookie_Serialize c) = Some c.
Proof.
  destruct c as [pt mt ptsn mtsn rwnd tie [pr il rc zc mis os]]. intros (H1 & H2 & H3 & H4 & H5 & H6 & H7 & H8). cbn in H1, H2, H3, H4, H5, H6, H7, H8.
  unfold Cookie_Deserialize. set (b := Cookie_Serialize _). change (length b =? kCookieSize)%nat with true. cbn [negb].
  change (Load32 0 b) with kMagic1. change (Load32 4 b) with kMagic2. rewrite !Z.eqb_refl. cbn [negb orb].
  assert (Load32 28 b = wrap 32 (Z.shiftr tie 32)) as -> by (etrans; [exact (join32 _)|by apply wrap_wrap]).
  assert (Load32 32 b = wrap 32 tie) as -> by (etrans; [exact (join32 _)|by apply wrap_wrap]).
  rewrite halves_64 by done. f_equal. f_equal; [field32 pt|field32 mt|field32 ptsn|field32 mtsn|field32 rwnd|]. f_equal;
    [by destruct pr|by destruct il|by destruct rc|by destruct zc|field16 mis|field16 os].
Qed.

(** ** No bytes make a parser fail *)

Lemma Parameters_safe data : Parameters_Parse data ≠ CheckFailed
  ∧ ∀ ps, Parameters_Parse data = Parsed ps → ∃ descs, descriptors ps = Parsed descs.
Proof.
  unfold Parameters_Parse. pose proof (validate_safe (length data) data (le_n _)) as H. split; [by destruct (validate_loop _ _)|].
  intros ps E. destruct (validate_loop _ _) as [[]| |] eqn:V; [|done..]. injection E as <-. by apply validated_descriptors.
Qed.

Lemma TLV_safe {A} cfg (k : list Z → parsed A) data : (4 ≤ kHeaderSize cfg)%nat →
  (∀ r, (kHeaderSize cfg ≤ length r)%nat → k r ≠ CheckFailed) → pbind (ParseTLV cfg data) k ≠ CheckFailed.
Proof. intros H4 Hk. destruct (ParseTLV_safe cfg data H4) as [-> | (r & -> & Hr)]; [done|]. by apply Hk. Qed.

Lemma Params_safe cfg data : (4 ≤ kHeaderSize cfg)%nat → Params_Parse cfg data ≠ CheckFailed.
Proof. intros H. apply TLV_safe; [done|]. intros r _. apply Parameters_safe. Qed.
Lemma Raw_safe cfg data : (4 ≤ kHeaderSize cfg)%nat → Raw_Parse cfg data ≠ CheckFailed.
Proof. intros H. by apply TLV_safe. Qed.
Lemma Empty_safe cfg data : (4 ≤ kHeaderSize cfg)%nat → Empty_Parse cfg data ≠ CheckFailed.
Proof. intros H. by apply TLV_safe. Qed.
Lemma Word_safe cfg data : (4 ≤ kHeaderSize cfg)%nat → Word_Parse cfg data ≠ CheckFailed.
Proof. intros H. by apply TLV_safe. Qed.
Lemma AnyInit_safe cfg data : (4 ≤ kHeaderSize cfg)%nat → AnyInit_Parse cfg data ≠ CheckFailed.
Proof. intros H. apply TLV_safe; [done|]. intros r _. destruct (Parameters_safe (variable_data 20 r)) as [H1 _]. by destruct (Parameters_Parse _). Qed.
Lemma Abort_safe data : AbortChunk_Parse data ≠ CheckFailed.
Proof. apply TLV_safe; [cbn; lia|]. intros r _. destruct (Parameters_safe (variable_data 4 r)) as [H1 _]. by destruct (Parameters_Parse _). Qed.
Lemma ShutdownComplete_safe data : ShutdownCompleteChunk_Parse data ≠ CheckFailed.
Proof. by apply TLV_safe; [cbn; lia|]. Qed.
Lemma ZeroChecksum_safe data : ZeroChecksum_Parse data ≠ CheckFailed.
Proof. apply TLV_safe; [cbn; lia|]. intros r _. cbv beta zeta. by destruct (Load32 4 r =? NoMethod). Qed.
Lemma MissingMandatory_safe data : MissingMandatoryParameter_Parse data ≠ CheckFailed.
Proof.
  apply TLV_safe; [cbn; lia|]. intros r Hr. cbn in Hr. cbv beta zeta. destruct (negb _); [done|].
  destruct (read_records_in_bounds 8 2 (Load16 0) (length (variable_data 8 r) / 2) 0 r) as [g ->]; [|done]. by apply stream_list_in_bounds.
Qed.

Lemma print_one {A} cfg (parse : list Z → parsed A) print d : (∀ data, parse data ≠ CheckFailed) → ParseAndPrint cfg parse print d ≠ Some CheckFailed.
Proof. intros H. unfold ParseAndPrint. destruct (_ =? _); [|done]. specialize (H (param_data d)). by destruct (parse _). Qed.

(** A choice between lines that are safe. *)
Lemma union_safe (x y : option (parsed CauseLine)) : x ≠ Some CheckFailed → y ≠ Some CheckFailed → x ∪ y ≠ Some CheckFailed.
Proof. by destruct x, y. Qed.

Lemma default_safe (o : option (parsed CauseLine)) l : o ≠ Some CheckFailed → default (Parsed l) o ≠ CheckFailed.
Proof. by destruct o as [[]|]. Qed.

Lemma print_cause_safe d : print_cause d ≠ CheckFailed.
Proof.
  unfold print_cause. apply default_safe. repeat apply union_safe; apply print_one; intros data;
    first [by apply Raw_safe; cbn; lia | by apply Empty_safe; cbn; lia | by apply Word_safe; cbn; lia | apply MissingMandatory_safe | by apply TLV_safe; cbn; [lia|]].
Qed.

Lemma causes_printed ps descs : descriptors ps = Parsed descs → ∃ lines, ErrorCausesToString ps = Parsed lines.
Proof.
  intros E. unfold ErrorCausesToString. rewrite E. cbn [pbind]. clear E. induction descs as [|d descs [lines IH]]; [by exists []|]. cbn [print_causes].
  pose proof (print_cause_safe d) as Hd. destruct (print_cause d) as [l| |] eqn:E; [| |done].
  - rewrite IH. by eexists.
  - exfalso. revert E. change (print_cause d ≠ Rejected). unfold print_cause.
    assert (∀ A cfg (parse : list Z → parsed A) print, ParseAndPrint cfg parse print d ≠ Some Rejected) as Hr.
    { intros A cfg parse print. unfold ParseAndPrint. destruct (_ =? _); [|done]. by destruct (parse _). }
    assert (∀ x y : option (parsed CauseLine), x ≠ Some Rejected → y ≠ Some Rejected → x ∪ y ≠ Some Rejected) as Hu by (by intros [] []).
    assert (∀ (o : option (parsed CauseLine)) l, o ≠ Some Rejected → default (Parsed l) o ≠ Rejected) as Hdef by (by intros [[]|]).
    apply Hdef. repeat apply Hu; apply Hr.
Qed.

(** ** Theorems *)

(** C11: Control chunks survive the wire: each of the eleven kinds of chunk that set up, watch over
    or end an association is appended as bytes that its parser turns back into the chunk, with
    the padding a packet adds. *)
Theorem control_chunks_roundtrip :
  RoundTrips Init ∧ RoundTrips InitAck ∧ RoundTrips CookieEcho ∧ RoundTrips CookieAck ∧ RoundTrips HeartbeatRequest ∧ RoundTrips HeartbeatAck
  ∧ RoundTrips AbortFormat ∧ RoundTrips Error ∧ RoundTrips Shutdown ∧ RoundTrips ShutdownAck ∧ RoundTrips ShutdownComplete.
Proof. split_and!; apply _. Qed.

(** The state cookie is all the responder needs to remember: its 44 bytes give back every field
    of the cookie, they are recognized as those of this implementation, and bytes of another
    length or with another magic number are not taken for a cookie. *)
Theorem state_cookie_roundtrip c : cookie_wf c →
  Cookie_Deserialize (Cookie_Serialize c) = Some c ∧ length (Cookie_Serialize c) = 44%nat
  ∧ DeterminePeerImplementation (Cookie_Serialize c) = kDcsctp
  ∧ ∀ bytes, is_Some (Cookie_Deserialize bytes) ↔ length bytes = 44%nat ∧ Load32 0 bytes = kMagic1 ∧ Load32 4 bytes = kMagic2.
Proof.
  intros H. split; [by apply cookie_read|]. split; [done|]. split; [done|]. intros bytes. unfold Cookie_Deserialize, kCookieSize.
  destruct (Nat.eqb_spec (length bytes) 44); cbn [negb]; [|split; [by intros [? ?]|by intros [? _]]].
  destruct (Z.eqb_spec (Load32 0 bytes) kMagic1); cbn [negb orb]; [|split; [by intros [? ?]|by intros (_ & ? & _)]].
  destruct (Z.eqb_spec (Load32 4 bytes) kMagic2); cbn [negb orb]; [|split; [by intros [? ?]|by intros (_ & _ & ?)]]. split; [done|by eexists].
Qed.

Lemma state_cookie_roundtrip_witness : let c := mkCookie 7 8 100 200 5000 (2 ^ 40 + 3) (mkCapabilities true false true false 16 32) in
  Cookie_Deserialize (Cookie_Serialize c) = Some c ∧ length (Cookie_Serialize c) = 44%nat
  ∧ DeterminePeerImplementation (Cookie_Serialize c) = kDcsctp
  ∧ ∀ bytes, is_Some (Cookie_Deserialize bytes) ↔ length bytes = 44%nat ∧ Load32 0 bytes = kMagic1 ∧ Load32 4 bytes = kMagic2.
Proof. apply (state_cookie_roundtrip (mkCookie 7 8 100 200 5000 (2 ^ 40 + 3) (mkCapabilities true false true false 16 32))). by vm_compute. Defined.

Lemma abort_causes_printed data c : AbortChunk_Parse data = Parsed c → ∃ lines, ErrorCausesToString (abort_causes c) = Parsed lines.
Proof.
  unfold AbortChunk_Parse. destruct (ParseTLV _ data) as [r| |]; [|done..]. cbn [pbind].
  destruct (Parameters_safe (variable_data 4 r)) as [_ Hd]. destruct (Parameters_Parse _) as [ps| |]; [|done..]. intros [= <-]. cbn.
  destruct (Hd ps eq_refl) as [descs E]. by apply (causes_printed ps descs).
Qed.

(** No bytes of a control chunk make the program fail a check or loop: each parser returns or
    rejects, and what an ABORT or ERROR says can be printed. *)
Theorem control_parsers_never_fail data :
  (InitChunk_Parse data ≠ CheckFailed ∧ InitAckChunk_Parse data ≠ CheckFailed ∧ CookieEchoChunk_Parse data ≠ CheckFailed
   ∧ CookieAckChunk_Parse data ≠ CheckFailed ∧ HeartbeatRequestChunk_Parse data ≠ CheckFailed ∧ HeartbeatAckChunk_Parse data ≠ CheckFailed
   ∧ AbortChunk_Parse data ≠ CheckFailed ∧ ErrorChunk_Parse data ≠ CheckFailed ∧ ShutdownChunk_Parse data ≠ CheckFailed
   ∧ ShutdownAckChunk_Parse data ≠ CheckFailed ∧ ShutdownCompleteChunk_Parse data ≠ CheckFailed)
  ∧ (∀ c, AbortChunk_Parse data = Parsed c → ∃ lines, ErrorCausesToString (abort_causes c) = Parsed lines)
  ∧ (∀ ps, ErrorChunk_Parse data = Parsed ps → ∃ lines, ErrorCausesToString ps = Parsed lines).
Proof.
  split; [split_and!; first [by apply AnyInit_safe; cbn; lia | by apply Raw_safe; cbn; lia | by apply Empty_safe; cbn; lia | by apply Word_safe; cbn; lia
    | by apply Params_safe; cbn; lia | apply Abort_safe | apply ShutdownComplete_safe]|]. split.
  - apply abort_causes_printed.
  - intros ps. unfold ErrorChunk_Parse, Params_Parse. destruct (ParseTLV _ data) as [r| |]; [|done..]. cbn [pbind]. intros E.
    destruct (proj2 (Parameters_safe (variable_data 4 r)) ps E) as [descs Ed]. by apply (causes_printed ps descs).
Qed.
