(* ===== verification/ControlBlock.v ===== *)
(** * The transmission control block (includes/webrtc/net/dcsctp/socket/transmission_control_block.h,
    .cc, heartbeat_handler.h, .cc, packet_sender.cc, public/dcsctp_options.h)

    What an association keeps while it is up: the data tracker, the reassembly queue, the
    retransmission queue, the handlers of stream resets and heartbeats, and the timers.  They
    are the components of the other files; the block holds the handler of stream resets, which
    holds the queues and the tracker it points to.

    The environment is an [Endpoint]: the options, and for the calls to the application, which
    are numbered, the time, the random numbers and whether a packet could be sent.  The calls
    that return nothing are the list [trace_], the latest first, with the packets.  The components keep such lists
    of their own, which are moved there after each of their operations ([flush]): within a list
    the order is that of the calls.  A reference to the connection's state is the flag
    [established_]. *)

From Stdlib Require Import SpecFloat.
From S2P Require Import Prelude SeqNum SctpTimer SctpWire SctpPacket ReConfig DataTracker Reassembly ReassemblyQueue.
From S2P Require Import SendQueue OutstandingData RetransmissionQueue RRSendQueue StreamReset ControlWire.
Open Scope Z_scope.

(** ** dcsctp_options.h; durations in milliseconds *)

Record SctpOptions := mkSctpOptions {
  opt_local_port : Z;
  opt_remote_port : Z;
  announced_maximum_incoming_streams : Z;
  announced_maximum_outgoing_streams : Z;
  opt_mtu : Z;
  default_stream_priority : Z;
  max_receiver_window_buffer_size : Z;
  max_send_buffer_size : Z;
  per_stream_send_queue_limit : Z;
  total_buffered_amount_low_threshold : Z;
  opt_rtt_max : Z;
  opt_rto_initial : Z;
  opt_rto_max : Z;
  opt_rto_min : Z;
  t1_init_timeout : Z;
  t1_cookie_timeout : Z;
  t2_shutdown_timeout : Z;
  max_timer_backoff_duration : option Z;
  heartbeat_interval : Z;
  delayed_ack_max_timeout : Z;
  opt_min_rtt_variance : Z;
  opt_cwnd_mtus_initial : Z;
  opt_cwnd_mtus_min : Z;
  max_burst : Z;
  max_retransmissions : option Z;
  max_init_retransmits : option Z;
  enable_partial_reliability : bool;
  enable_message_interleaving : bool;
  heartbeat_interval_include_rtt : bool;
  opt_disable_checksum_verification : bool;
  zero_checksum_alternate_error_detection_method : Z
}.

Inductive SendPacketStatus := kSuccess | kTemporaryFailure | kError.
#[export] Instance SendPacketStatus_eq_dec : EqDecision SendPacketStatus.
Proof. solve_decision. Defined.

(** The application's callbacks that return a value; the CRC is that of a library. *)
Class Endpoint := {
  options : SctpOptions;
  env_crc : list Z → Z;
  env_now : nat → Z;
  env_random : nat → Z → Z → Z;
  env_send : nat → list Z → SendPacketStatus
}.

Inductive ErrorKind := kNoError | kTooManyRetries | kNotConnected | kParseFailed | kWrongSequence | kPeerReported
  | kProtocolViolation | kResourceExhaustion | kUnsupportedOperation.
#[export] Instance ErrorKind_eq_dec : EqDecision ErrorKind.
Proof. solve_decision. Defined.

(** The texts of errors are left out, but for what the peer reports. *)
Inductive SocketEvent :=
| SentPacket (data : list Z) (status : SendPacketStatus)
| OnMessageReceived (message : DcSctpMessage)
| OnError (error : ErrorKind) (causes : list CauseLine)
| OnAborted (error : ErrorKind) (causes : list CauseLine)
| OnConnected
| OnClosed
| OnConnectionRestarted
| OnQueueCallback (c : Callback)
| OnLifecycle (e : RtxEvent)
| OnReset (e : ResetEvent).

Record Io := mkIo { calls_ : nat; trace_ : list SocketEvent; tx_packets_count_ : Z }.
#[export] Instance Io_eta : Eta Io := λ i, mkIo (calls_ i) (trace_ i) (tx_packets_count_ i).

Definition packet_options (o : SctpOptions) : DcSctpOptions :=
  mkOptions (opt_local_port o) (opt_remote_port o) (opt_mtu o) (opt_disable_checksum_verification o)
    (negb (zero_checksum_alternate_error_detection_method o =? NoMethod)).

Section Io.
Context `{!Endpoint}.

Definition Now : M Io Z := λ i, Ret (env_now (calls_ i)) (i <| calls_ ::= S |>).
Definition GetRandomInt (low high : Z) : M Io Z := λ i, Ret (env_random (calls_ i) low high) (i <| calls_ ::= S |>).
Definition callback (e : SocketEvent) : M Io unit := modify (λ i, i <| trace_ ::= cons e |>).

(** *** packet_sender.cc, and [OnSentPacket] of the socket *)
Definition PacketSender_Send (b : Builder) (write_checksum : bool) : M Io bool :=
  match out_ b with
  | [] => ret false
  | _ =>
    let payload := (Builder_Build env_crc write_checksum b).1 in
    λ i, let status := env_send (calls_ i) payload in
      Ret (bool_decide (status = kSuccess))
        (i <| calls_ ::= S |> <| trace_ ::= cons (SentPacket payload status) |>
           <| tx_packets_count_ := if decide (status = kSuccess) then wrap 64 (tx_packets_count_ i + 1) else tx_packets_count_ i |>)
  end.

Definition NewBuilder (verification_tag : Z) : Builder := Builder_new verification_tag (packet_options options).
End Io.

(** A chunk is added to a packet; the checks of a writer abort. *)
Definition add_chunk {S} (SerializeTo : list Z → parsed (list Z)) (b : Builder) : M S Builder :=
  match Builder_Add SerializeTo b with Parsed b' => ret b' | _ => terminate end.
Definition total (f : list Z → list Z) (out : list Z) : parsed (list Z) := Parsed (f out).
Definition checked {S A} (p : parsed A) : M S A := match p with Parsed a => ret a | _ => terminate end.

(** ** Timers whose callbacks change more than the timer *)

(** [Timer::Trigger] up to the callback, of a timer whose timeout [timeout_id] expired: nothing
    when the timeout is not the current one. *)
Definition Trigger_before (timeout_id : Z) (t : Timer) : option Timer :=
  let generation := wrap 32 timeout_id in
  let t := match timeout_ t with
           | Some (_, armed) => if armed =? timeout_id then t <| timeout_ := None |> else t
           | None => t end in
  if is_running_ t && (generation =? generation_ t) then
    let t := t <| expiration_count_ ::= S |> <| is_running_ := false |> in
    Some (if restarts_left t
          then arm (GetBackoffDuration (options_ t) (duration_ t) (expiration_count_ t)) (t <| is_running_ := true |>)
          else t)
  else None.
(** And from there on. *)
Definition Trigger_after (new_duration : Z) (t : Timer) : Timer :=
  if (0 <? new_duration) && negb (new_duration =? duration_ t) then
    let t := t <| duration_ := new_duration |> in
    if is_running_ t
    then arm (GetBackoffDuration (options_ t) (duration_ t) (expiration_count_ t)) (t <| timeout_ := None |>)
    else t
  else t.
Definition expire {S} (timer : S → Timer) (set_timer : Timer → S → S) (timeout_id : Z) (on_expired : M S Z) : M S unit :=
  let! s := get in
  match Trigger_before timeout_id (timer s) with
  | None => ret tt
  | Some t =>
    modify (set_timer t) ;;
    let! new_duration := on_expired in
    modify (λ s, set_timer (Trigger_after new_duration (timer s)) s)
  end.

(** ** Streams of either kind ([ReassemblyQueue]'s [CreateStreams]) *)

Inductive AnyStreams := TraditionalKind (t : TraditionalStreams) | InterleavedKind (t : InterleavedStreams).
Definition CreateStreams (use_message_interleaving : bool) : AnyStreams :=
  if use_message_interleaving then InterleavedKind InterleavedStreams_new else TraditionalKind TraditionalStreams_new.
Definition on_streams {A} (f : ∀ S `{ReassemblyStreams S}, S → A * S) (s : AnyStreams) : A * AnyStreams :=
  match s with
  | TraditionalKind t => let '(a, t) := f _ t in (a, TraditionalKind t)
  | InterleavedKind t => let '(a, t) := f _ t in (a, InterleavedKind t)
  end.
Definition of_streams {A} (f : ∀ S `{ReassemblyStreams S}, S → A) (s : AnyStreams) : A :=
  match s with TraditionalKind t => f _ t | InterleavedKind t => f _ t end.
#[export] Instance AnyStreams_streams : ReassemblyStreams AnyStreams := {
  rs_Add tsn data := on_streams (λ S _, rs_Add tsn data);
  rs_HandleForwardTsn tsn skipped := on_streams (λ S _, rs_HandleForwardTsn tsn skipped);
  rs_ResetStreams ids s := (on_streams (λ S _ t, (tt, rs_ResetStreams ids t)) s).2;
  rs_GetHandoverReadiness := of_streams (λ S _, rs_GetHandoverReadiness);
  rs_AddHandoverState := of_streams (λ S _, rs_AddHandoverState);
  rs_RestoreFromState state s := (on_streams (λ S _ t, (tt, rs_RestoreFromState state t)) s).2
}.

(** The product with the [float] 0.9, cut to an integer. *)
Definition kHighWatermarkLimit : spec_float := S754_finite false 15099494 (-24).
Definition truncate (f : spec_float) : Z := match f with S754_finite s m e => (if s then -1 else 1) * Z.shiftl (Zpos m) e | _ => 0 end.
Definition watermark_of (max_size_bytes : Z) : Z := truncate (SFmul 24 128 (binary_normalize 24 128 max_size_bytes 0 false) kHighWatermarkLimit).

(** ** State *)

(** The durations of the heartbeat handler are those of the options. *)
Record HeartbeatHandler := mkHeartbeat { interval_timer_ : Timer; timeout_timer_ : Timer }.
#[export] Instance HeartbeatHandler_eta : Eta HeartbeatHandler := λ h, mkHeartbeat (interval_timer_ h) (timeout_timer_ h).

Abbreviation Handler := (StreamResetHandler AnyStreams RRSendQueue).

(** [reset_] holds the data tracker, the queues, the counter of errors and the current timeout. *)
Record TransmissionControlBlock := mkTcb {
  capabilities_ : Capabilities;
  delayed_ack_ : Timer;
  my_verification_tag_ : Z;
  my_initial_tsn_ : Z;
  peer_verification_tag_ : Z;
  peer_initial_tsn_ : Z;
  tie_tag_ : Z;
  limit_forward_tsn_until_ : Z;
  tcb_rto_ : RetransmissionTimeout;
  reset_ : Handler;
  heartbeat_ : HeartbeatHandler;
  cookie_echo_chunk_ : option (list Z)
}.
#[export] Instance TransmissionControlBlock_eta : Eta TransmissionControlBlock := λ t,
  mkTcb (capabilities_ t) (delayed_ack_ t) (my_verification_tag_ t) (my_initial_tsn_ t) (peer_verification_tag_ t) (peer_initial_tsn_ t)
    (tie_tag_ t) (limit_forward_tsn_until_ t) (tcb_rto_ t) (reset_ t) (heartbeat_ t) (cookie_echo_chunk_ t).

Abbreviation TCB := TransmissionControlBlock.
Definition tracker (t : TCB) : DataTracker := reset_tracker_ (reset_ t).
Definition reassembly (t : TCB) : ReassemblyQueue AnyStreams := reset_reassembly_ (reset_ t).
Definition rtx (t : TCB) : RetransmissionQueue RRSendQueue := reset_rtx_ (reset_ t).
Definition tcb_queue (t : TCB) : RRSendQueue := send_queue_ (rtx_data_ (rtx t)).
Definition set_tracker (d : DataTracker) (t : TCB) : TCB := t <| reset_ ::= (λ h, h <| reset_tracker_ := d |>) |>.
Definition set_reassembly (q : ReassemblyQueue AnyStreams) (t : TCB) : TCB := t <| reset_ ::= (λ h, h <| reset_reassembly_ := q |>) |>.
Definition set_rtx (r : RetransmissionQueue RRSendQueue) (t : TCB) : TCB := t <| reset_ ::= (λ h, h <| reset_rtx_ := r |>) |>.
Definition set_errors (c : RetransmissionErrorCounter) (t : TCB) : TCB := t <| reset_ ::= (λ h, h <| tx_error_counter_ := c |>) |>.
Definition set_queue (q : RRSendQueue) (t : TCB) : TCB := set_rtx (change_queue (λ _, q) (rtx t)) t.
Definition tcb_current_rto (t : TCB) : Z := rto_ (tcb_rto_ t).
Definition HasTooManyTxErrors (t : TCB) : bool := IsExhausted (tx_error_counter_ (reset_ t)).
Definition has_cookie_echo_chunk (t : TCB) : bool := bool_decide (is_Some (cookie_echo_chunk_ t)).

(** The block with what it refers to. *)
Record Block := mkBlock { io_ : Io; established_ : bool; tcb : TCB }.
#[export] Instance Block_eta : Eta Block := λ b, mkBlock (io_ b) (established_ b) (tcb b).

Definition on_io {A} : M Io A → M Block A := lift io_ (λ i b, b <| io_ := i |>).
Definition on_reset {A} : M Handler A → M Block A := lift (reset_ ∘ tcb) (λ h b, b <| tcb ::= (λ t, t <| reset_ := h |>) |>).
Definition on_rtx {A} : M (RetransmissionQueue RRSendQueue) A → M Block A := lift (rtx ∘ tcb) (λ r b, b <| tcb ::= set_rtx r |>).
Definition on_tcb (f : TCB → TCB) : M Block unit := modify (λ b, b <| tcb ::= f |>).

(** An operation of the tracker, which starts the timer of delayed acknowledgements when it
    enters [kDelayed] and stops it when it leaves; [ForceImmediateSack] does neither. *)
Definition sync_delayed_ack (before after : AckState) (timer : Timer) : Timer :=
  if decide (before = after) then timer
  else if decide (before = kDelayed) then Timer_Stop timer
  else if decide (after = kDelayed) then Timer_Start timer else timer.
Definition on_tracker {A} (f : DataTracker → A * DataTracker) : M Block A := λ b,
  let t := tcb b in
  let '(a, d) := f (tracker t) in
  Ret a (b <| tcb := set_tracker d t <| delayed_ack_ ::= sync_delayed_ack (ack_state_ (tracker t)) (ack_state_ d) |> |>).

Section Block.
Context `{!Endpoint}.

(** *** Construction *)

Definition t3_options : TimerOptions :=
  mkTimerOptions (ToTimeDelta (opt_rto_initial options)) kExponential None
    (match max_timer_backoff_duration options with Some d => ToTimeDelta d | None => PlusInfinity end).
Definition delayed_ack_options : TimerOptions :=
  mkTimerOptions (ToTimeDelta (delayed_ack_max_timeout options)) kExponential (Some 0) PlusInfinity.
Definition interval_options : TimerOptions := mkTimerOptions (ToTimeDelta (heartbeat_interval options)) kFixed None PlusInfinity.
Definition timeout_options : TimerOptions := mkTimerOptions (ToTimeDelta (opt_rto_initial options)) kExponential (Some 0) PlusInfinity.

Definition Heartbeat_RestartTimer (rto : Z) (h : HeartbeatHandler) : HeartbeatHandler :=
  let interval_duration := ToTimeDelta (heartbeat_interval options) in
  if interval_duration =? 0 then h
  else
    h <| interval_timer_ ::= (λ t, Timer_Start (set_duration
      (if heartbeat_interval_include_rtt options then plus_time interval_duration rto else interval_duration) t)) |>.
Definition HeartbeatHandler_new (rto interval_id timeout_id : Z) : HeartbeatHandler :=
  Heartbeat_RestartTimer rto (mkHeartbeat (Timer_new interval_id interval_options) (Timer_new timeout_id timeout_options)).

(** The timers get [id] and the identifiers after it. *)
Definition TransmissionControlBlock_new (id : Z) (capabilities : Capabilities) (q : RRSendQueue) (my_verification_tag my_initial_tsn
    peer_verification_tag peer_initial_tsn a_rwnd tie_tag : Z) : TCB :=
  let rto := RetransmissionTimeout_new (opt_rto_min options) (opt_rto_max options) (opt_rtt_max options) (opt_min_rtt_variance options) (opt_rto_initial options) in
  let window := max_receiver_window_buffer_size options in
  let r := RetransmissionQueue_new my_initial_tsn a_rwnd q (Timer_new id t3_options)
    (mkRtxOptions (opt_mtu options) (opt_cwnd_mtus_initial options) (opt_cwnd_mtus_min options)) (partial_reliability capabilities) (message_interleaving capabilities) in
  let handler := StreamResetHandler_new my_initial_tsn peer_initial_tsn (rto_ rto) (max_retransmissions options) (id + 2) (DataTracker_new peer_initial_tsn)
    (ReassemblyQueue.Queue_new window (watermark_of window) (CreateStreams (message_interleaving capabilities))) r None in
  let t := mkTcb capabilities (Timer_new (id + 1) delayed_ack_options) my_verification_tag my_initial_tsn peer_verification_tag peer_initial_tsn tie_tag 0 rto
    handler (HeartbeatHandler_new (rto_ rto) (id + 3) (id + 4)) None in
  set_queue (EnableMessageInterleaving (message_interleaving capabilities) q) t.

(** *** Logs of the components *)

Definition is_lifecycle (e : RtxEvent) : bool := match e with OnNewRtt _ | OnClearRetransmissionCounter => false | _ => true end.
Definition is_clear (e : RtxEvent) : bool := match e with OnClearRetransmissionCounter => true | _ => false end.
(** The calls of the components reach the application, or the counter of errors; the latest is
    the head.  [OnNewRtt] was seen to before ([observed_rtt]). *)
Definition flush_logs (b : Block) : Block :=
  let r := rtx (tcb b) in
  let q := tcb_queue (tcb b) in
  let t := set_queue (q <| RRSendQueue.callbacks_ := [] |>) (set_rtx (r <| events_ := [] |>) (tcb b)) in
  let t := if existsb is_clear (events_ r) then set_errors (Clear (tx_error_counter_ (reset_ t))) t else t in
  b <| tcb := t |> <| io_ ::= (λ i, i <| trace_ ::= app ((OnLifecycle <$> List.filter is_lifecycle (events_ r)) ++ (OnQueueCallback <$> RRSendQueue.callbacks_ q)) |>) |>.
Definition flush : M Block unit := modify flush_logs.

(** *** Sending *)

Definition PacketBuilder (t : TCB) : Builder := NewBuilder (peer_verification_tag_ t).
(** [TransmissionControlBlock::Send]. *)
Definition tcb_Send (builder : Builder) : M Block unit :=
  let! t := gets tcb in
  on_io (PacketSender_Send builder (negb (zero_checksum (capabilities_ t)))) ;; ret tt.

(** What the handler of stream resets sends and calls. *)
Definition reset_event (e : ResetEvent) : M Block unit :=
  match e with
  | SendReConfig parameters =>
    let! t := gets tcb in
    let! builder := add_chunk (total (ReConfigChunk_SerializeTo parameters)) (PacketBuilder t) in
    tcb_Send builder
  | OnParseFailed => on_io (callback (OnError kParseFailed []))
  | _ => on_io (callback (OnReset e))
  end.
Definition flush_reset : M Block unit :=
  let! b := get in
  let events := reset_events_ (reset_ (tcb b)) in
  on_tcb (λ t, t <| reset_ ::= (λ h, h <| reset_events_ := [] |>) |>) ;;
  for_each reset_event (rev events).

(** *** Round-trip times *)

(** [ObserveRTT]; the handler of stream resets asks for the timeout. *)
Definition tcb_ObserveRTT (rtt : Z) (t : TCB) : TCB :=
  let rto := ObserveRTT rtt (tcb_rto_ t) in
  let delayed_ack_tmo := Z.min (llround_div (rto_ rto) 2) (ToTimeDelta (delayed_ack_max_timeout options)) in
  let t := set_rtx (rtx t <| t3_rtx_ ::= set_duration (rto_ rto) |>) t in
  t <| tcb_rto_ := rto |> <| reset_ ::= (λ h, h <| current_rto := rto_ rto |>) |> <| delayed_ack_ ::= set_duration delayed_ack_tmo |>.

(** The round trip that [RetransmissionQueue::HandleSack] reports first of all; the report only
    sets the durations of timers, which it reads later. *)
Definition observed_rtt (now : Z) (sack : SackChunk) (r : RetransmissionQueue RRSendQueue) : option Z :=
  match gap_ack_blocks_ sack with
  | [] =>
    if IsSackValid sack r then
      match MeasureRTT now (Unwrap 32 0 (cumulative_tsn_ack_ sack) (RetransmissionQueue.tsn_unwrapper_ r)).1 (rtx_data_ r) with
      | Ret rtt _ => if rtt =? PlusInfinity then None else Some rtt
      | _ => None
      end
    else None
  | _ => None
  end.
(** [retransmission_queue().HandleSack]. *)
Definition tcb_HandleSack (now : Z) (sack : SackChunk) : M Block bool :=
  on_tcb (λ t, match observed_rtt now sack (rtx t) with Some rtt => tcb_ObserveRTT rtt t | None => t end) ;;
  let! ok := on_rtx (Rtx_HandleSack now sack) in
  flush ;; ret ok.

(** *** Heartbeats *)

Definition HeartbeatInfo_Serialize (created_at : Z) : list Z :=
  be32 (wrap 32 (Z.shiftr (to_ms created_at) 32)) ++ be32 (wrap 32 (to_ms created_at)).
(** [Timestamp::Millis] multiplies in 64 bits. *)
Definition int64 (x : Z) : Z := let u := wrap 64 x in if u <? 2 ^ 63 then u else u - 2 ^ 64.
Definition HeartbeatInfo_Deserialize (data : list Z) : option Z :=
  if negb (length data =? 8)%nat then None
  else Some (int64 (Z.lor (Z.shiftl (Load32 0 data) 32) (Load32 4 data) * 1000)).

Definition HandleHeartbeatRequest (parameters : list Z) : M Block unit :=
  let! t := gets tcb in
  let! builder := add_chunk (total (HeartbeatAckChunk_SerializeTo parameters)) (PacketBuilder t) in
  tcb_Send builder.

Definition ClearTxErrorCounter (t : TCB) : TCB := set_errors (Clear (tx_error_counter_ (reset_ t))) t.
Definition IncrementTxErrorCounter : M Block bool :=
  let! t := gets tcb in
  let '(go_on, errors) := Increment (tx_error_counter_ (reset_ t)) in
  on_tcb (set_errors errors) ;; ret go_on.

Definition HandleHeartbeatAck (parameters : list Z) : M Block unit :=
  on_tcb (λ t, t <| heartbeat_ ::= (λ h, h <| timeout_timer_ ::= Timer_Stop |>) |>) ;;
  match Parameters_get HeartbeatInfoConfig HeartbeatInfo_Parse parameters with
  | CheckFailed => terminate
  | Rejected => on_io (callback (OnError kParseFailed []))
  | Parsed info_param =>
    match HeartbeatInfo_Deserialize info_param with
    | None => on_io (callback (OnError kParseFailed []))
    | Some created_at =>
      let! now := on_io Now in
      when ((0 <? created_at) && (created_at <=? now)) (on_tcb (tcb_ObserveRTT (now - created_at))) ;;
      on_tcb ClearTxErrorCounter
    end
  end.

Definition OnIntervalTimerExpiry : M Block Z :=
  let! b := get in
  if established_ b then
    let! now := on_io Now in
    on_tcb (λ t, t <| heartbeat_ ::= (λ h, h <| timeout_timer_ ::= (λ x, Timer_Start (set_duration (tcb_current_rto t) x)) |>) |>) ;;
    let! parameters := checked (Parameters_Add (total (HeartbeatInfo_SerializeTo (HeartbeatInfo_Serialize now))) []) in
    let! builder := add_chunk (total (HeartbeatRequestChunk_SerializeTo parameters)) (PacketBuilder (tcb b)) in
    tcb_Send builder ;; ret 0
  else ret 0.
Definition OnTimeoutTimerExpiry : M Block Z := IncrementTxErrorCounter ;; ret 0.

(** *** Acknowledgements *)

Definition tcb_MaybeSendSack : M Block unit :=
  let! send := on_tracker (ShouldSendAck false) in
  when send (
    let! t := gets tcb in
    let! sack := on_tracker (CreateSelectiveAck (remaining_bytes (reassembly t))) in
    let! builder := add_chunk (SackChunk_SerializeTo sack) (PacketBuilder t) in
    tcb_Send builder).
Definition OnDelayedAckTimerExpiry : M Block Z :=
  on_tracker (λ d, (tt, HandleDelayedAckTimerExpiry d)) ;;
  tcb_MaybeSendSack ;; ret 0.

Definition MaybeSendForwardTsn (builder : Builder) (now : Z) : M Block Builder :=
  let! b := get in
  if limit_forward_tsn_until_ (tcb b) <=? now then
    let! should := on_rtx (Rtx_ShouldSendForwardTsn now) in
    flush ;;
    if should then
      let! t := gets tcb in
      let! builder := if message_interleaving (capabilities_ t)
        then add_chunk (IForwardTsnChunk_SerializeTo (CreateIForwardTsn (rtx_data_ (rtx t)))) builder
        else add_chunk (ForwardTsnChunk_SerializeTo (CreateForwardTsn (rtx_data_ (rtx t)))) builder in
      on_tcb (λ t, t <| limit_forward_tsn_until_ := now + Z.min 200000 (srtt_ (tcb_rto_ t)) |>) ;;
      ret builder
    else ret builder
  else ret builder.

(** *** Data *)

Fixpoint add_data (interleaving : bool) (chunks : list (Z * Data)) (builder : Builder) : M Block Builder :=
  match chunks with
  | [] => ret builder
  | (tsn, data) :: chunks' =>
    let! builder := add_chunk (total ((if interleaving then IDataChunk_SerializeTo else DataChunk_SerializeTo) (mkChunk tsn data false))) builder in
    add_data interleaving chunks' builder
  end.

Definition MaybeSendFastRetransmit : M Block unit :=
  let! t := gets tcb in
  if negb (has_data_to_be_fast_retransmitted (rtx_data_ (rtx t))) then ret tt
  else
    let builder := PacketBuilder t in
    let! chunks := on_rtx (GetChunksForFastRetransmit (bytes_remaining builder)) in
    flush ;;
    let! builder := add_data (message_interleaving (capabilities_ t)) chunks builder in
    tcb_Send builder.

(** The control chunks of the first packet. *)
Definition add_control_chunks (builder : Builder) (now : Z) : M Block Builder :=
  let! t := gets tcb in
  let! builder := match cookie_echo_chunk_ t with Some cookie => add_chunk (total (CookieEchoChunk_SerializeTo cookie)) builder | None => ret builder end in
  let! send := on_tracker (ShouldSendAck true) in
  let! builder := (if send then
    let! sack := on_tracker (CreateSelectiveAck (remaining_bytes (reassembly t))) in add_chunk (SackChunk_SerializeTo sack) builder
    else ret builder) in
  let! builder := MaybeSendForwardTsn builder now in
  let! reconfig := on_reset MakeStreamResetRequest in
  match reconfig with Some parameters => add_chunk (total (ReConfigChunk_SerializeTo parameters)) builder | None => ret builder end.

(** The loop, with the number of packets that may follow. *)
Fixpoint send_packets (packets : nat) (first : bool) (builder : Builder) (now : Z) : M Block unit :=
  match packets with
  | O => ret tt
  | S packets' =>
    let! builder := if first then add_control_chunks builder now else ret builder in
    let! chunks := on_rtx (GetChunksToSend now (bytes_remaining builder)) in
    flush ;;
    when (match chunks with [] => false | _ => true end) (on_tcb (λ t, t <| heartbeat_ ::= Heartbeat_RestartTimer (tcb_current_rto t) |>)) ;;
    let! t := gets tcb in
    let! builder := add_data (message_interleaving (capabilities_ t)) chunks builder in
    let write_checksum := negb (zero_checksum (capabilities_ t)) || has_cookie_echo_chunk t in
    let! sent := on_io (PacketSender_Send builder write_checksum) in
    if negb sent then ret tt
    else if has_cookie_echo_chunk t then ret tt
    else send_packets packets' false (builder <| out_ := [] |>) now
  end.
Definition SendBufferedPacketsWith (builder : Builder) (now : Z) : M Block unit := send_packets (Z.to_nat (max_burst options)) true builder now.
Definition SendBufferedPackets (now : Z) : M Block unit := let! t := gets tcb in SendBufferedPacketsWith (PacketBuilder t) now.

Definition OnRtxTimerExpiry : M Block Z :=
  let! now := on_io Now in
  let! t := gets tcb in
  if has_cookie_echo_chunk t then ret 0
  else
    let! go_on := IncrementTxErrorCounter in
    when go_on (on_rtx HandleT3RtxTimerExpiry ;; flush ;; SendBufferedPackets now) ;;
    ret 0.

(** *** Handover *)

Definition kWrongConnectionState : Z := 1.
Definition kDataTrackerTsnBlocksPending : Z := 8.
Definition tcb_GetHandoverReadiness (t : TCB) : Z :=
  Z.lor (Z.lor (Z.lor (if ReadyForHandover (tracker t) then 0 else kDataTrackerTsnBlocksPending) (Reset_GetHandoverReadiness (reset_ t)))
    (ReassemblyQueue.Queue_GetHandoverReadiness (reassembly t))) (Rtx_GetHandoverReadiness (rtx t)).

Record HandoverState := mkHandover {
  ho_connected : bool;
  ho_capabilities : Capabilities;
  ho_my_verification_tag : Z;
  ho_peer_verification_tag : Z;
  ho_my_initial_tsn : Z;
  ho_peer_initial_tsn : Z;
  ho_tie_tag : Z;
  ho_rx : HandoverRx;
  ho_reset : ResetState;
  ho_streams : RxStreams;
  ho_rtx : RtxState;
  ho_tx_streams : list TxStream
}.
(** [AddHandoverState] of the block and then of the send queue. *)
Definition tcb_AddHandoverState (t : TCB) : HandoverState :=
  mkHandover true (capabilities_ t) (my_verification_tag_ t) (peer_verification_tag_ t) (my_initial_tsn_ t) (peer_initial_tsn_ t) (tie_tag_ t)
    (AddHandoverState (tracker t)) (Reset_AddHandoverState (reset_ t)) (ReassemblyQueue.Queue_AddHandoverState (reassembly t)) (Rtx_AddHandoverState (rtx t))
    (RRSendQueue.Queue_AddHandoverState (tcb_queue t)).
Definition tcb_RestoreFromState (state : HandoverState) (t : TCB) : TCB :=
  let t := set_tracker (RestoreFromState (ho_rx state) (tracker t)) t in
  let t := set_rtx (Rtx_RestoreFromState (ho_rtx state) (rtx t)) t in
  set_reassembly (ReassemblyQueue.Queue_RestoreFromState (ho_streams state) (reassembly t)) t.
End Block.
