(* ===== verification/Socket.v ===== *)
(** * The SCTP socket (includes/webrtc/net/dcsctp/socket/dcsctp_socket.h, .cc)

    The state machine of an association: connecting with a handshake of four messages, closing
    with a handshake of three, the packets that arrive, the timers, and the calls of the
    application.  The send queue belongs to the socket, and to the block while there is one.
    A use of [tcb_] while it is null is the fault of a null pointer. *)

From S2P Require Import Prelude SeqNum SctpTimer SctpWire SctpPacket ReConfig DataTracker Reassembly ReassemblyQueue.
From S2P Require Import SendQueue OutstandingData RetransmissionQueue RRSendQueue StreamReset ControlWire ControlBlock.
Open Scope Z_scope.

(** ** State *)

Inductive State := kClosed | kCookieWait | kCookieEchoed | kEstablished | kShutdownPending | kShutdownSent | kShutdownReceived | kShutdownAckSent.
#[export] Instance State_eq_dec : EqDecision State.
Proof. solve_decision. Defined.

(** The counters and facts of [Metrics] that the socket itself writes. *)
Record Metrics := mkMetrics {
  rx_packets_count : Z;
  tx_messages_count : Z;
  rx_messages_count : Z;
  peer_implementation : SctpImplementation;
  uses_message_interleaving : bool;
  uses_zero_checksum : bool;
  metrics_incoming_streams : Z;
  metrics_outgoing_streams : Z
}.
#[export] Instance Metrics_eta : Eta Metrics := λ m,
  mkMetrics (rx_packets_count m) (tx_messages_count m) (rx_messages_count m) (peer_implementation m) (uses_message_interleaving m)
    (uses_zero_checksum m) (metrics_incoming_streams m) (metrics_outgoing_streams m).

Record ConnectParameters := mkConnect { connect_initial_tsn : Z; connect_verification_tag : Z }.

Record Socket := mkSocket {
  sock_io_ : Io;
  max_message_size_ : Z;
  metrics_ : Metrics;
  next_timer_id_ : Z;
  t1_init_ : Timer;
  t1_cookie_ : Timer;
  t2_shutdown_ : Timer;
  idle_queue_ : RRSendQueue;
  connect_params_ : ConnectParameters;
  state_ : State;
  tcb_ : option TCB
}.
#[export] Instance Socket_eta : Eta Socket := λ s,
  mkSocket (sock_io_ s) (max_message_size_ s) (metrics_ s) (next_timer_id_ s) (t1_init_ s) (t1_cookie_ s) (t2_shutdown_ s) (idle_queue_ s)
    (connect_params_ s) (state_ s) (tcb_ s).

(** The send queue, wherever it is. *)
Definition send_queue (s : Socket) : RRSendQueue := match tcb_ s with Some t => tcb_queue t | None => idle_queue_ s end.
Definition put_queue (q : RRSendQueue) (s : Socket) : Socket :=
  match tcb_ s with Some t => s <| tcb_ := Some (set_queue q t) |> | None => s <| idle_queue_ := q |> end.
(** [tcb_ = nullptr]. *)
Definition drop_tcb (s : Socket) : Socket := s <| idle_queue_ := send_queue s |> <| tcb_ := None |>.

Definition kMinVerificationTag : Z := 1.
Definition kMaxVerificationTag : Z := 2 ^ 32 - 1.
Definition kMinInitialTsn : Z := 0.
Definition kMaxInitialTsn : Z := 2 ^ 32 - 1.

Definition sock_io {A} : M Io A → M Socket A := lift sock_io_ (λ i s, s <| sock_io_ := i |>).

(** [*tcb_], and an operation of it. *)
Definition the_tcb : M Socket TCB := let! s := get in deref (tcb_ s).
Definition on_block {A} (m : M Block A) : M Socket A := λ s,
  match tcb_ s with
  | None => Undef NullDeref s
  | Some t =>
    let back b := s <| sock_io_ := io_ b |> <| tcb_ := Some (tcb b) |> in
    match m (mkBlock (sock_io_ s) (bool_decide (state_ s = kEstablished)) t) with
    | Ret a b => Ret a (back b)
    | Throw e b => Throw e (back b)
    | Terminate => Terminate
    | Undef f b => Undef f (back b)
    end
  end.
Definition SetState (state : State) : M Socket unit := modify (λ s, s <| state_ := state |>).
Definition report (error : ErrorKind) : M Socket unit := sock_io (callback (OnError error [])).

(** ** Capabilities *)

Section Socket.
Context `{!Endpoint}.

(** A parameter that is missing or cannot be parsed is not there; the parsers fail no check
    ([Raw_safe], [Empty_safe], [ZeroChecksum_safe]). *)
Definition ComputeCapabilities (o : SctpOptions) (peer_nbr_outbound_streams peer_nbr_inbound_streams : Z) (parameters : list Z) : parsed Capabilities :=
  let* descs := descriptors parameters in
  let has {A} (p : parsed A) := match p with Parsed _ => true | _ => false end in
  let supported_extensions := find_parameter SupportedExtensionsConfig SupportedExtensions_Parse descs in
  let supports_type type := match supported_extensions with Parsed types => supports types type | _ => false end in
  let method := zero_checksum_alternate_error_detection_method o in
  Parsed (mkCapabilities
    (enable_partial_reliability o && (has (find_parameter ForwardTsnSupportedConfig ForwardTsnSupported_Parse descs) || supports_type (kType ForwardTsnChunkConfig)))
    (enable_message_interleaving o && (supports_type (kType IDataChunkConfig) && supports_type (kType IForwardTsnChunkConfig)))
    (supports_type (kType ReConfigChunkConfig))
    (negb (method =? NoMethod) && match find_parameter ZeroChecksumConfig ZeroChecksum_Parse descs with Parsed m => m =? method | _ => false end)
    (Z.min (announced_maximum_incoming_streams o) peer_nbr_outbound_streams)
    (Z.min (announced_maximum_outgoing_streams o) peer_nbr_inbound_streams)).

Definition AddCapabilityParameters (o : SctpOptions) (support_zero_checksum : bool) (data : list Z) : parsed (list Z) :=
  let chunk_types := [kType ReConfigChunkConfig] ++ (if enable_partial_reliability o then [kType ForwardTsnChunkConfig] else [])
    ++ (if enable_message_interleaving o then [kType IDataChunkConfig; kType IForwardTsnChunkConfig] else []) in
  let* data := if enable_partial_reliability o then Parameters_Add (total ForwardTsnSupported_SerializeTo) data else Parsed data in
  let* data := if support_zero_checksum
    then Parameters_Add (total (ZeroChecksum_SerializeTo (zero_checksum_alternate_error_detection_method o))) data else Parsed data in
  Parameters_Add (total (SupportedExtensions_SerializeTo chunk_types)) data.

Definition MakeTieTag : M Socket Z :=
  let! tie_tag_upper := sock_io (GetRandomInt 0 (2 ^ 32 - 1)) in
  let! tie_tag_lower := sock_io (GetRandomInt 1 (2 ^ 32 - 1)) in
  ret (Z.lor (Z.shiftl tie_tag_upper 32) tie_tag_lower).

(** ** Construction *)

Definition t1_init_options : TimerOptions := mkTimerOptions (ToTimeDelta (t1_init_timeout options)) kExponential (max_init_retransmits options) PlusInfinity.
Definition t1_cookie_options : TimerOptions := mkTimerOptions (ToTimeDelta (t1_cookie_timeout options)) kExponential (max_init_retransmits options) PlusInfinity.
Definition t2_shutdown_options : TimerOptions := mkTimerOptions (ToTimeDelta (t2_shutdown_timeout options)) kExponential (max_retransmissions options) PlusInfinity.

Definition DcSctpSocket_new (max_message_size : Z) : Socket :=
  mkSocket (mkIo 0 [] 0) max_message_size (mkMetrics 0 0 0 kUnknown false false 0 0) 3
    (Timer_new 1 t1_init_options) (Timer_new 2 t1_cookie_options) (Timer_new 3 t2_shutdown_options)
    (RRSendQueue_new (opt_mtu options) (default_stream_priority options) (total_buffered_amount_low_threshold options))
    (mkConnect 0 0) kClosed None.

Definition IsConsistent (s : Socket) : bool :=
  let running := (is_running_ (t1_init_ s), is_running_ (t1_cookie_ s), is_running_ (t2_shutdown_ s)) in
  let has_tcb := bool_decide (is_Some (tcb_ s)) in
  match tcb_ s with Some t => negb (HasMessages (reassembly t)) | None => true end
  && match state_ s with
     | kClosed => negb has_tcb && bool_decide (running = (false, false, false))
     | kCookieWait => negb has_tcb && bool_decide (running = (true, false, false))
     | kCookieEchoed => match tcb_ s with Some t => has_cookie_echo_chunk t | None => false end && bool_decide (running = (false, true, false))
     | kEstablished | kShutdownPending | kShutdownReceived => has_tcb && bool_decide (running = (false, false, false))
     | kShutdownSent | kShutdownAckSent => has_tcb && bool_decide (running = (false, false, true))
     end.

(** The block has five timers. *)
Definition CreateTransmissionControlBlock (capabilities : Capabilities) (my_verification_tag my_initial_tsn peer_verification_tag peer_initial_tsn
    a_rwnd tie_tag : Z) : M Socket unit :=
  let! s := get in
  if 2 ^ 32 - 1 <=? next_timer_id_ s + 5 then terminate
  else
    modify (λ s, s
      <| metrics_ ::= (λ m, m <| uses_message_interleaving := message_interleaving capabilities |> <| uses_zero_checksum := zero_checksum capabilities |>
           <| metrics_incoming_streams := negotiated_maximum_incoming_streams capabilities |>
           <| metrics_outgoing_streams := negotiated_maximum_outgoing_streams capabilities |>) |>
      <| next_timer_id_ := next_timer_id_ s + 5 |>
      <| tcb_ := Some (TransmissionControlBlock_new (next_timer_id_ s + 1) capabilities (send_queue s) my_verification_tag my_initial_tsn
           peer_verification_tag peer_initial_tsn a_rwnd tie_tag) |>).

(** ** Sending *)

(** [packet_sender_.Send], with a checksum unless told otherwise. *)
Definition send_with (write_checksum : bool) (b : Builder) : M Socket unit := sock_io (PacketSender_Send b write_checksum) ;; ret tt.
Definition send : Builder → M Socket unit := send_with true.
(** A packet of one chunk. *)
Definition send_chunk (tag : Z) (SerializeTo : list Z → parsed (list Z)) : M Socket unit :=
  let! b := add_chunk SerializeTo (NewBuilder tag) in send b.
(** A chunk of one error cause. *)
Definition send_abort (tag : Z) (filled : bool) (cause : list Z → list Z) : M Socket unit :=
  let! causes := checked (Parameters_Add (total cause) []) in
  send_chunk tag (total (AbortChunk_SerializeTo (mkAbort filled causes))).
Definition send_error (tag : Z) (cause : list Z → list Z) : M Socket unit :=
  let! causes := checked (Parameters_Add (total cause) []) in
  send_chunk tag (total (ErrorChunk_SerializeTo causes)).

Definition SendInit : M Socket unit :=
  let! s := get in
  let! parameters := checked (AddCapabilityParameters options (negb (zero_checksum_alternate_error_detection_method options =? NoMethod)) []) in
  send_chunk 0 (total (InitChunk_SerializeTo (mkInit (connect_verification_tag (connect_params_ s)) (wrap 32 (max_receiver_window_buffer_size options))
    (announced_maximum_outgoing_streams options) (announced_maximum_incoming_streams options) (connect_initial_tsn (connect_params_ s)) parameters))).
Definition SendShutdown : M Socket unit :=
  let! t := the_tcb in
  send_chunk (peer_verification_tag_ t) (total (ShutdownChunk_SerializeTo (last_cumulative_acked_tsn (tracker t)))).
Definition start_t2 : M Socket unit :=
  let! t := the_tcb in modify (λ s, s <| t2_shutdown_ ::= (λ x, Timer_Start (set_duration (tcb_current_rto t) x)) |>).
Definition SendShutdownAck : M Socket unit :=
  let! t := the_tcb in
  send_chunk (peer_verification_tag_ t) (total ShutdownAckChunk_SerializeTo) ;; start_t2.

(** ** Closing *)

Definition stop_t1_init (s : Socket) : Socket := s <| t1_init_ ::= Timer_Stop |>.
Definition stop_t1_cookie (s : Socket) : Socket := s <| t1_cookie_ ::= Timer_Stop |>.
Definition stop_t2 (s : Socket) : Socket := s <| t2_shutdown_ ::= Timer_Stop |>.
Definition InternalClose (error : ErrorKind) (causes : list CauseLine) : M Socket unit :=
  let! s := get in
  when (negb (bool_decide (state_ s = kClosed))) (
    modify (λ s, drop_tcb (stop_t2 (stop_t1_cookie (stop_t1_init s)))) ;;
    sock_io (callback (if decide (error = kNoError) then OnClosed else OnAborted error causes)) ;;
    SetState kClosed).

Definition CloseConnectionBecauseOfTooManyTransmissionErrors : M Socket unit :=
  let! t := the_tcb in
  send_abort (peer_verification_tag_ t) true (UserInitiatedAbort_SerializeTo (text "Too many retransmissions")) ;;
  InternalClose kTooManyRetries [].

Definition MaybeSendShutdownOrAck : M Socket unit :=
  let! t := the_tcb in
  if negb (unacked_bytes (rtx t) =? 0) then ret tt
  else
    let! s := get in
    match state_ s with
    | kShutdownPending => SendShutdown ;; start_t2 ;; SetState kShutdownSent
    | kShutdownReceived => SendShutdownAck ;; SetState kShutdownAckSent
    | _ => ret tt
    end.

(** ** Calls of the application *)

Definition Connect : M Socket unit :=
  let! s := get in
  when (bool_decide (state_ s = kClosed)) (
    let! initial_tsn := sock_io (GetRandomInt kMinInitialTsn kMaxInitialTsn) in
    let! verification_tag := sock_io (GetRandomInt kMinVerificationTag kMaxVerificationTag) in
    modify (λ s, s <| connect_params_ := mkConnect initial_tsn verification_tag |>) ;;
    SendInit ;;
    modify (λ s, s <| t1_init_ ::= Timer_Start |>) ;;
    SetState kCookieWait).

Definition Shutdown : M Socket unit :=
  let! s := get in
  match tcb_ s with
  | Some _ =>
    when (negb (bool_decide (state_ s = kShutdownSent)) && negb (bool_decide (state_ s = kShutdownAckSent))) (
      SetState kShutdownPending ;;
      modify stop_t1_init ;;
      modify stop_t1_cookie ;;
      MaybeSendShutdownOrAck)
  | None => InternalClose kNoError []
  end.

Definition Close : M Socket unit :=
  let! s := get in
  when (negb (bool_decide (state_ s = kClosed))) (
    match tcb_ s with
    | Some t => send_abort (peer_verification_tag_ t) true (UserInitiatedAbort_SerializeTo (text "Close called"))
    | None => ret tt
    end ;;
    InternalClose kNoError []).

(** An operation of the send queue; its calls go to the application. *)
Definition on_send_queue (f : RRSendQueue → RRSendQueue) : M Socket unit :=
  modify (λ s, let q := f (send_queue s) in
    put_queue (q <| RRSendQueue.callbacks_ := [] |>) s <| sock_io_ ::= (λ i, i <| trace_ ::= app (OnQueueCallback <$> RRSendQueue.callbacks_ q) |>) |>).

Inductive SendStatus := kSendSuccess | kErrorMessageEmpty | kErrorMessageTooLarge | kErrorResourceExhaustion | kErrorShuttingDown.
#[export] Instance SendStatus_eq_dec : EqDecision SendStatus.
Proof using Type. solve_decision. Defined.

Definition shutting_down (state : State) : bool :=
  match state with kShutdownPending | kShutdownSent | kShutdownReceived | kShutdownAckSent => true | _ => false end.

Definition refuse (lifecycle_id : Z) (error : ErrorKind) (status : SendStatus) : M Socket SendStatus :=
  when (IsSet lifecycle_id) (sock_io (callback (OnQueueCallback (OnLifecycleEnd lifecycle_id)))) ;;
  report error ;; ret status.
Definition InternalSend (message : DcSctpMessage) (o : SendOptions) : M Socket SendStatus :=
  let! s := get in
  let id := opt_lifecycle_id o in
  if bool_decide (message_payload_ message = []) then refuse id kProtocolViolation kErrorMessageEmpty
  else if max_message_size_ s <? message_size message then refuse id kProtocolViolation kErrorMessageTooLarge
  else if shutting_down (state_ s) then refuse id kWrongSequence kErrorShuttingDown
  else if (max_send_buffer_size options <=? value_ (total_buffered_amount_ (send_queue s)))
          || (per_stream_send_queue_limit options <=? RRSendQueue.buffered_amount (message_stream_id_ message) (send_queue s))
  then refuse id kResourceExhaustion kErrorResourceExhaustion
  else ret kSendSuccess.

Definition enqueue (now : Z) (message : DcSctpMessage) (o : SendOptions) : M Socket unit :=
  modify (λ s, s <| metrics_ ::= (λ m, m <| tx_messages_count := wrap 64 (tx_messages_count m + 1) |>) |>) ;;
  on_send_queue (RRSendQueue.Queue_Add now message o).
(** [if (tcb_ != nullptr) tcb_->SendBufferedPackets(now)]. *)
Definition MaybeSendBufferedPackets (now : Z) : M Socket unit :=
  let! s := get in match tcb_ s with Some _ => on_block (SendBufferedPackets now) | None => ret tt end.

Definition Send (message : DcSctpMessage) (o : SendOptions) : M Socket SendStatus :=
  let! send_status := InternalSend message o in
  if bool_decide (send_status = kSendSuccess) then
    let! now := sock_io Now in
    enqueue now message o ;;
    MaybeSendBufferedPackets now ;;
    ret kSendSuccess
  else ret send_status.

Definition SendMany (messages : list DcSctpMessage) (o : SendOptions) : M Socket (list SendStatus) :=
  let! now := sock_io Now in
  let! send_statuses := fold_m (λ statuses message,
    let! send_status := InternalSend message o in
    when (bool_decide (send_status = kSendSuccess)) (enqueue now message o) ;;
    ret (statuses ++ [send_status])) messages [] in
  MaybeSendBufferedPackets now ;;
  ret send_statuses.

Definition MaybeSendResetStreamsRequest : M Socket unit :=
  let! reconfig := on_block (on_reset MakeStreamResetRequest) in
  match reconfig with
  | Some parameters => let! t := the_tcb in send_chunk (peer_verification_tag_ t) (total (ReConfigChunk_SerializeTo parameters))
  | None => ret tt
  end.

Inductive ResetStreamsStatus := kResetNotConnected | kResetPerformed | kResetNotSupported.
Definition ResetStreams (outgoing_streams : list Z) : M Socket ResetStreamsStatus :=
  let! s := get in
  match tcb_ s with
  | None => report kWrongSequence ;; ret kResetNotConnected
  | Some t =>
    if negb (reconfig (capabilities_ t)) then report kUnsupportedOperation ;; ret kResetNotSupported
    else
      on_block (on_reset (modify (StreamReset.ResetStreams outgoing_streams)) ;; flush) ;;
      MaybeSendResetStreamsRequest ;;
      ret kResetPerformed
  end.

Definition SetMaxMessageSize (max_message_size : Z) : M Socket unit := modify (λ s, s <| max_message_size_ := max_message_size |>).
Definition socket_SetStreamPriority (stream_id priority : Z) : M Socket unit := on_send_queue (SetStreamPriority stream_id priority).
Definition socket_SetBufferedAmountLowThreshold (stream_id bytes : Z) : M Socket unit := on_send_queue (SetBufferedAmountLowThreshold stream_id bytes).

Inductive SocketState := kPublicClosed | kConnecting | kConnected | kShuttingDown.
Definition public_state (s : Socket) : SocketState :=
  match state_ s with
  | kClosed => kPublicClosed
  | kCookieWait | kCookieEchoed => kConnecting
  | kEstablished => kConnected
  | kShutdownPending | kShutdownSent | kShutdownReceived | kShutdownAckSent => kShuttingDown
  end.
Definition socket_verification_tag (s : Socket) : Z := match tcb_ s with Some t => my_verification_tag_ t | None => 0 end.

(** The metrics that [GetMetrics] adds, for packets with room for payload. *)
Record AllMetrics := mkAllMetrics {
  own_metrics : Metrics;
  tx_packets : Z;
  cwnd_bytes : Z;
  srtt_ms : Z;
  unack_data_count : Z;
  peer_rwnd_bytes : Z;
  rtx_packets : Z;
  rtx_bytes : Z
}.
Definition GetMetrics (s : Socket) : option AllMetrics :=
  match tcb_ s with
  | None => None
  | Some t =>
    let packet_payload_size := wrap 64 (opt_mtu options - 12 - 16) in
    let r := rtx t in
    Some (mkAllMetrics (metrics_ s <| metrics_incoming_streams := negotiated_maximum_incoming_streams (capabilities_ t) |>) (tx_packets_count_ (sock_io_ s))
      (cwnd_ r) (to_ms (srtt_ (tcb_rto_ t)))
      (wrap 64 (unacked_items_ (rtx_data_ r) + wrap 64 (value_ (total_buffered_amount_ (send_queue s)) + packet_payload_size - 1) / packet_payload_size))
      (rwnd_ r) (rtx_packets_count_ r) (rtx_bytes_count_ r))
  end.

(** ** Packets that arrive *)

Definition MaybeSendShutdownOnPacketReceived (packet : SctpPacket) : M Socket unit :=
  let! s := get in
  when (bool_decide (state_ s = kShutdownSent) && existsb (λ d, desc_type d =? kType DataChunkConfig) (descriptors_ packet)) (
    SendShutdown ;; start_t2).

(** The T bit of the chunk's flags. *)
Definition t_bit (d : ChunkDescriptor) : bool := negb (Z.land (desc_flags d) 1 =? 0).
(** Whether the tag is the own one, or with the T bit that of the peer. *)
Definition tag_matches (header_tag : Z) (d : ChunkDescriptor) : M Socket bool :=
  let! s := get in
  if t_bit d && negb (bool_decide (is_Some (tcb_ s))) then ret true
  else if negb (t_bit d) && (header_tag =? socket_verification_tag s) then ret true
  else if t_bit d then let! t := the_tcb in ret (header_tag =? peer_verification_tag_ t)
  else ret false.

Definition accept_if (ok : bool) : M Socket bool := if ok then ret true else report kParseFailed ;; ret false.
Definition ValidatePacket (packet : SctpPacket) : M Socket bool :=
  let! s := get in
  let header_tag := verification_tag (common_header_ packet) in
  let only type := match descriptors_ packet with [d] => desc_type d =? type | _ => false end in
  if header_tag =? 0 then accept_if (only (kType InitChunkConfig))
  else
    let! first := in_bounds (head (descriptors_ packet)) in
    if only (kType AbortChunkConfig) then let! ok := tag_matches header_tag first in accept_if ok
    else if desc_type first =? kType InitAckChunkConfig then accept_if (header_tag =? connect_verification_tag (connect_params_ s))
    else if desc_type first =? kType CookieEchoChunkConfig then ret true
    else if only (kType ShutdownCompleteChunkConfig) then let! ok := tag_matches header_tag first in accept_if ok
    else accept_if (header_tag =? socket_verification_tag s).

Definition ValidateHasTCB : M Socket bool :=
  let! s := get in
  match tcb_ s with Some _ => ret true | None => report kNotConnected ;; ret false end.
(** [ValidateParseSuccess], and what is done with the chunk. *)
Definition with_chunk {A} (c : parsed A) (handle : A → M Socket unit) : M Socket unit :=
  match c with Parsed a => handle a | Rejected => report kParseFailed | CheckFailed => terminate end.
Definition with_chunk_and_tcb {A} (c : parsed A) (handle : A → M Socket unit) : M Socket unit :=
  with_chunk c (λ a, let! has_tcb := ValidateHasTCB in when has_tcb (handle a)).

Definition MaybeDeliverMessages : M Socket unit :=
  let! t := the_tcb in
  let '(messages, q) := FlushMessages (reassembly t) in
  on_block (on_tcb (set_reassembly q)) ;;
  for_each (λ message,
    modify (λ s, s <| metrics_ ::= (λ m, m <| rx_messages_count := wrap 64 (rx_messages_count m + 1) |>) |>) ;;
    sock_io (callback (OnMessageReceived message))) messages.

Definition HandleDataCommon (chunk : AnyDataChunk) : M Socket unit :=
  let tsn := tsn_ chunk in
  let data := data_ chunk in
  let! t := the_tcb in
  if bool_decide (payload data = []) then send_error (peer_verification_tag_ t) (NoUserData_SerializeTo tsn) ;; report kProtocolViolation
  else if is_full (reassembly t) then send_abort (peer_verification_tag_ t) true OutOfResourceError_SerializeTo ;; InternalClose kResourceExhaustion []
  else if is_above_watermark (reassembly t) && negb (will_increase_cum_ack_tsn tsn (tracker t))
  then on_block (on_tcb (λ t, set_tracker (ForceImmediateSack (tracker t)) t))
  else if negb (IsTSNValid tsn (tracker t)) then ret tt
  else
    let! is_new := on_block (on_tracker (Observe tsn (immediate_ack_ chunk))) in
    when is_new (on_block (on_tcb (λ t, set_reassembly (ReassemblyQueue.Queue_Add tsn data (reassembly t)) t)) ;; MaybeDeliverMessages).

Definition HandleForwardTsnCommon (chunk : AnyForwardTsnChunk) : M Socket unit :=
  let! t := the_tcb in
  if negb (partial_reliability (capabilities_ t)) then
    send_abort (peer_verification_tag_ t) true
      (ProtocolViolation_SerializeTo (text "I-FORWARD-TSN received, but not indicated during connection establishment")) ;;
    report kProtocolViolation
  else
    let! effect := on_block (on_tracker (HandleForwardTsn (new_cumulative_tsn_ chunk))) in
    when effect (on_block (on_tcb (λ t, set_reassembly (Queue_HandleForwardTsn (new_cumulative_tsn_ chunk) (skipped_streams_ chunk) (reassembly t)) t))) ;;
    MaybeDeliverMessages.

(** A verification tag other than the present one, if ten tries find one. *)
Fixpoint new_verification_tag (tries : nat) (mine tag : Z) : M Socket Z :=
  match tries with
  | O => ret tag
  | S tries' =>
    let! tag := sock_io (GetRandomInt kMinVerificationTag kMaxVerificationTag) in
    if tag =? mine then new_verification_tag tries' mine tag else ret tag
  end.

(** The tag, the first TSN and the tie tag of an INIT ACK. *)
Definition choose_parameters : M Socket (Z * Z * Z) :=
  let! s := get in
  match state_ s with
  | kClosed =>
    let! tag := sock_io (GetRandomInt kMinVerificationTag kMaxVerificationTag) in
    let! tsn := sock_io (GetRandomInt kMinInitialTsn kMaxInitialTsn) in
    ret (tag, tsn, 0)
  | kCookieWait | kCookieEchoed => ret (connect_verification_tag (connect_params_ s), connect_initial_tsn (connect_params_ s), 0)
  | _ =>
    let! t := the_tcb in
    let! tag := new_verification_tag 10 (my_verification_tag_ t) 0 in
    ret (tag, wrap 32 (rtx_next_tsn (rtx t) + 1000000), tie_tag_ t)
  end.

Definition HandleInit (data : list Z) : M Socket unit :=
  with_chunk (InitChunk_Parse data) (λ chunk,
    if (initiate_tag chunk =? 0) || (nbr_outbound_streams chunk =? 0) || (nbr_inbound_streams chunk =? 0) then
      send_abort 0 false (ProtocolViolation_SerializeTo (text "INIT malformed")) ;;
      InternalClose kProtocolViolation []
    else
      let! s := get in
      if decide (state_ s = kShutdownAckSent) then SendShutdownAck
      else
        let! mine := choose_parameters in
        let '(my_verification_tag, my_initial_tsn, tie_tag) := mine in
        let! capabilities := checked (ComputeCapabilities options (nbr_outbound_streams chunk) (nbr_inbound_streams chunk) (init_parameters chunk)) in
        let cookie := mkCookie (initiate_tag chunk) my_verification_tag (initial_tsn chunk) my_initial_tsn (init_a_rwnd chunk) tie_tag capabilities in
        let! parameters := checked (Parameters_Add (total (StateCookieParameter_SerializeTo (Cookie_Serialize cookie))) []) in
        let! parameters := checked (AddCapabilityParameters options (zero_checksum capabilities) parameters) in
        let! b := add_chunk (total (InitAckChunk_SerializeTo (mkInit my_verification_tag (wrap 32 (max_receiver_window_buffer_size options))
          (announced_maximum_outgoing_streams options) (announced_maximum_incoming_streams options) my_initial_tsn parameters))) (NewBuilder (initiate_tag chunk)) in
        send_with (negb (zero_checksum capabilities)) b).

Definition HandleInitAck (data : list Z) : M Socket unit :=
  with_chunk (InitAckChunk_Parse data) (λ chunk,
    let! s := get in
    if negb (bool_decide (state_ s = kCookieWait)) then ret tt
    else
      match Parameters_get StateCookieConfig StateCookieParameter_Parse (init_parameters chunk) with
      | CheckFailed => terminate
      | Rejected =>
        send_abort (connect_verification_tag (connect_params_ s)) false (ProtocolViolation_SerializeTo (text "INIT-ACK malformed")) ;;
        InternalClose kProtocolViolation []
      | Parsed cookie =>
        let! capabilities := checked (ComputeCapabilities options (nbr_outbound_streams chunk) (nbr_inbound_streams chunk) (init_parameters chunk)) in
        modify stop_t1_init ;;
        modify (λ s, s <| metrics_ ::= (λ m, m <| peer_implementation := DeterminePeerImplementation cookie |>) |>) ;;
        on_send_queue Queue_Reset ;;
        let! tie_tag := MakeTieTag in
        CreateTransmissionControlBlock capabilities (connect_verification_tag (connect_params_ s)) (connect_initial_tsn (connect_params_ s))
          (initiate_tag chunk) (initial_tsn chunk) (init_a_rwnd chunk) tie_tag ;;
        SetState kCookieEchoed ;;
        on_block (on_tcb (λ t, t <| cookie_echo_chunk_ := Some cookie |>)) ;;
        let! now := sock_io Now in
        on_block (SendBufferedPackets now) ;;
        modify (λ s, s <| t1_cookie_ ::= Timer_Start |>)
      end).

Definition HandleCookieEchoWithTCB (header : CommonHeader) (cookie : StateCookie) : M Socket bool :=
  let! s := get in
  let! t := the_tcb in
  let my_tag_matches := verification_tag header =? my_verification_tag_ t in
  let peer_tag_matches := peer_verification_tag_ t =? cookie_peer_tag cookie in
  if negb my_tag_matches && negb peer_tag_matches && (cookie_tie_tag cookie =? tie_tag_ t) then
    if decide (state_ s = kShutdownAckSent) then
      let! b := add_chunk (total ShutdownAckChunk_SerializeTo) (NewBuilder (cookie_peer_tag cookie)) in
      let! causes := checked (Parameters_Add (total CookieReceivedWhileShuttingDown_SerializeTo) []) in
      let! b := add_chunk (total (ErrorChunk_SerializeTo causes)) b in
      send b ;;
      report kWrongSequence ;;
      ret false
    else
      modify drop_tcb ;;
      sock_io (callback OnConnectionRestarted) ;;
      ret true
  else if my_tag_matches && negb peer_tag_matches then modify drop_tcb ;; ret true
  else if negb my_tag_matches && peer_tag_matches && (cookie_tie_tag cookie =? 0) then ret false
  else ret true.

(** The association comes up, or stays so, with the block there is or a new one. *)
Definition establish (cookie : StateCookie) : M Socket unit :=
  modify stop_t1_init ;;
  modify stop_t1_cookie ;;
  let! s := get in
  when (negb (bool_decide (state_ s = kEstablished))) (
    match tcb_ s with Some _ => on_block (on_tcb (λ t, t <| cookie_echo_chunk_ := None |>)) | None => ret tt end ;;
    SetState kEstablished ;;
    sock_io (callback OnConnected)) ;;
  match tcb_ s with
  | Some _ => ret tt
  | None =>
    on_send_queue Queue_Reset ;;
    let! tie_tag := MakeTieTag in
    CreateTransmissionControlBlock (cookie_capabilities cookie) (cookie_my_tag cookie) (cookie_my_initial_tsn cookie) (cookie_peer_tag cookie)
      (cookie_peer_initial_tsn cookie) (cookie_a_rwnd cookie) tie_tag
  end ;;
  let! t := the_tcb in
  let! b := add_chunk (total CookieAckChunk_SerializeTo) (NewBuilder (peer_verification_tag_ t)) in
  let! now := sock_io Now in
  on_block (SendBufferedPacketsWith b now).

Definition HandleCookieEcho (header : CommonHeader) (data : list Z) : M Socket unit :=
  with_chunk (CookieEchoChunk_Parse data) (λ chunk,
    match Cookie_Deserialize chunk with
    | None => report kParseFailed
    | Some cookie =>
      let! s := get in
      let! go_on := match tcb_ s with
        | Some _ => HandleCookieEchoWithTCB header cookie
        | None => accept_if (verification_tag header =? cookie_my_tag cookie)
        end in
      when go_on (establish cookie)
    end).

Definition HandleCookieAck (data : list Z) : M Socket unit :=
  with_chunk (CookieAckChunk_Parse data) (λ _,
    let! s := get in
    when (bool_decide (state_ s = kCookieEchoed)) (
      modify stop_t1_cookie ;;
      on_block (on_tcb (λ t, t <| cookie_echo_chunk_ := None |>)) ;;
      SetState kEstablished ;;
      let! now := sock_io Now in
      on_block (SendBufferedPackets now) ;;
      sock_io (callback OnConnected))).

Definition HandleSack (data : list Z) : M Socket unit :=
  with_chunk_and_tcb (SackChunk_Parse data) (λ chunk,
    let! now := sock_io Now in
    let! ok := on_block (tcb_HandleSack now (Clean chunk)) in
    when ok (MaybeSendShutdownOrAck ;; on_block MaybeSendFastRetransmit ;; on_block (SendBufferedPackets now))).

Definition HandleAbort (data : list Z) : M Socket unit :=
  with_chunk (AbortChunk_Parse data) (λ chunk,
    let! causes := checked (ErrorCausesToString (abort_causes chunk)) in
    let! s := get in
    match tcb_ s with None => ret tt | Some _ => InternalClose kPeerReported causes end).
Definition HandleError (data : list Z) : M Socket unit :=
  with_chunk (ErrorChunk_Parse data) (λ error_causes,
    let! causes := checked (ErrorCausesToString error_causes) in
    let! s := get in
    match tcb_ s with None => ret tt | Some _ => sock_io (callback (OnError kPeerReported causes)) end).

Definition HandleReconfig (data : list Z) : M Socket unit :=
  let! now := sock_io Now in
  with_chunk_and_tcb (ReConfigChunk_Parse data) (λ parameters,
    on_block (on_reset (HandleReConfig parameters) ;; flush_reset ;; flush) ;;
    MaybeSendResetStreamsRequest ;;
    on_block (SendBufferedPackets now) ;;
    MaybeDeliverMessages).

Definition HandleShutdown (data : list Z) : M Socket unit :=
  with_chunk (ShutdownChunk_Parse data) (λ _,
    let! s := get in
    match state_ s with
    | kClosed | kCookieWait | kCookieEchoed => ret tt
    | kShutdownSent => SendShutdownAck ;; SetState kShutdownAckSent
    | kShutdownAckSent | kShutdownReceived => ret tt
    | kEstablished | kShutdownPending => SetState kShutdownReceived ;; MaybeSendShutdownOrAck
    end).

Definition HandleShutdownAck (header : CommonHeader) (data : list Z) : M Socket unit :=
  with_chunk (ShutdownAckChunk_Parse data) (λ _,
    let! s := get in
    match state_ s with
    | kShutdownSent | kShutdownAckSent =>
      let! t := the_tcb in
      send_chunk (peer_verification_tag_ t) (total (ShutdownCompleteChunk_SerializeTo false)) ;;
      InternalClose kNoError []
    | _ => send_chunk (verification_tag header) (total (ShutdownCompleteChunk_SerializeTo true))
    end).

Definition HandleShutdownComplete (data : list Z) : M Socket unit :=
  with_chunk (ShutdownCompleteChunk_Parse data) (λ _,
    let! s := get in
    when (bool_decide (state_ s = kShutdownAckSent)) (InternalClose kNoError [])).

Definition HandleUnrecognizedChunk (d : ChunkDescriptor) : M Socket bool :=
  let report_as_error := negb (Z.land (desc_type d) 64 =? 0) in
  let continue_processing := negb (Z.land (desc_type d) 128 =? 0) in
  when report_as_error (
    report kParseFailed ;;
    let! s := get in
    match tcb_ s with
    | Some t => send_error (peer_verification_tag_ t) (UnrecognizedChunkType_SerializeTo (desc_data d))
    | None => ret tt
    end) ;;
  ret continue_processing.

Definition Dispatch (header : CommonHeader) (d : ChunkDescriptor) : M Socket bool :=
  let data := desc_data d in
  match desc_type d with
  | 0 => with_chunk_and_tcb (DataChunk_Parse data) HandleDataCommon ;; ret true
  | 1 => HandleInit data ;; ret true
  | 2 => HandleInitAck data ;; ret true
  | 3 => HandleSack data ;; ret true
  | 4 => with_chunk_and_tcb (HeartbeatRequestChunk_Parse data) (λ ps, on_block (HandleHeartbeatRequest ps)) ;; ret true
  | 5 => with_chunk_and_tcb (HeartbeatAckChunk_Parse data) (λ ps, on_block (HandleHeartbeatAck ps)) ;; ret true
  | 6 => HandleAbort data ;; ret true
  | 7 => HandleShutdown data ;; ret true
  | 8 => HandleShutdownAck header data ;; ret true
  | 9 => HandleError data ;; ret true
  | 10 => HandleCookieEcho header data ;; ret true
  | 11 => HandleCookieAck data ;; ret true
  | 14 => HandleShutdownComplete data ;; ret true
  | 64 => with_chunk_and_tcb (IDataChunk_Parse data) HandleDataCommon ;; ret true
  | 130 => HandleReconfig data ;; ret true
  | 192 => with_chunk_and_tcb (ForwardTsnChunk_Parse data) HandleForwardTsnCommon ;; ret true
  | 194 => with_chunk_and_tcb (IForwardTsnChunk_Parse data) HandleForwardTsnCommon ;; ret true
  | _ => HandleUnrecognizedChunk d
  end.
Fixpoint dispatch_all (header : CommonHeader) (descs : list ChunkDescriptor) : M Socket unit :=
  match descs with
  | [] => ret tt
  | d :: descs' => let! go_on := Dispatch header d in when go_on (dispatch_all header descs')
  end.

Definition ReceivePacket (data : list Z) : M Socket unit :=
  modify (λ s, s <| metrics_ ::= (λ m, m <| rx_packets_count := wrap 64 (rx_packets_count m + 1) |>) |>) ;;
  match SctpPacket_Parse env_crc data (packet_options options) with
  | CheckFailed => terminate
  | Rejected => report kParseFailed
  | Parsed packet =>
    let! ok := ValidatePacket packet in
    when ok (
      MaybeSendShutdownOnPacketReceived packet ;;
      dispatch_all (common_header_ packet) (descriptors_ packet) ;;
      let! s := get in
      match tcb_ s with
      | Some _ => on_block (on_tracker (λ d, (tt, ObservePacketEnd d)) ;; tcb_MaybeSendSack)
      | None => ret tt
      end)
  end.

(** ** Timers *)

Definition OnInitTimerExpiry : M Socket Z :=
  let! s := get in
  (if is_running_ (t1_init_ s) then SendInit else InternalClose kTooManyRetries []) ;; ret 0.
Definition OnCookieTimerExpiry : M Socket Z :=
  let! s := get in
  (if is_running_ (t1_cookie_ s) then let! now := sock_io Now in on_block (SendBufferedPackets now) else InternalClose kTooManyRetries []) ;; ret 0.
Definition OnShutdownTimerExpiry : M Socket Z :=
  let! s := get in
  let! t := the_tcb in
  if negb (is_running_ (t2_shutdown_ s)) then
    send_abort (peer_verification_tag_ t) true (UserInitiatedAbort_SerializeTo (text "Too many retransmissions of SHUTDOWN")) ;;
    InternalClose kTooManyRetries [] ;;
    ret 0
  else SendShutdown ;; ret (tcb_current_rto t).

(** The timer that a timeout belongs to; a timer of a block that is gone is not found. *)
Definition trigger (timeout_id : Z) : M Socket unit :=
  let! s := get in
  let timer_id := Z.shiftr timeout_id 32 in
  let has_id t := id_ t =? timer_id in
  if has_id (t1_init_ s) then expire t1_init_ (λ x s, s <| t1_init_ := x |>) timeout_id OnInitTimerExpiry
  else if has_id (t1_cookie_ s) then expire t1_cookie_ (λ x s, s <| t1_cookie_ := x |>) timeout_id OnCookieTimerExpiry
  else if has_id (t2_shutdown_ s) then expire t2_shutdown_ (λ x s, s <| t2_shutdown_ := x |>) timeout_id OnShutdownTimerExpiry
  else
    match tcb_ s with
    | None => ret tt
    | Some t =>
      if has_id (t3_rtx_ (rtx t)) then
        on_block (expire (λ b, t3_rtx_ (rtx (tcb b))) (λ x b, b <| tcb ::= (λ t, set_rtx (rtx t <| t3_rtx_ := x |>) t) |>) timeout_id OnRtxTimerExpiry)
      else if has_id (delayed_ack_ t) then
        on_block (expire (λ b, delayed_ack_ (tcb b)) (λ x b, b <| tcb ::= (λ t, t <| delayed_ack_ := x |>) |>) timeout_id OnDelayedAckTimerExpiry)
      else if has_id (reconfig_timer_ (reset_ t)) then
        on_block (expire (λ b, reconfig_timer_ (reset_ (tcb b))) (λ x b, b <| tcb ::= (λ t, t <| reset_ ::= (λ h, h <| reconfig_timer_ := x |>) |>) |>) timeout_id
          (let! d := on_reset OnReconfigTimerExpiry in flush_reset ;; ret d))
      else if has_id (interval_timer_ (heartbeat_ t)) then
        on_block (expire (λ b, interval_timer_ (heartbeat_ (tcb b))) (λ x b, b <| tcb ::= (λ t, t <| heartbeat_ ::= (λ h, h <| interval_timer_ := x |>) |>) |>) timeout_id
          OnIntervalTimerExpiry)
      else if has_id (timeout_timer_ (heartbeat_ t)) then
        on_block (expire (λ b, timeout_timer_ (heartbeat_ (tcb b))) (λ x b, b <| tcb ::= (λ t, t <| heartbeat_ ::= (λ h, h <| timeout_timer_ := x |>) |>) |>) timeout_id
          OnTimeoutTimerExpiry)
      else ret tt
    end.
Definition socket_HandleTimeout (timeout_id : Z) : M Socket unit :=
  trigger timeout_id ;;
  let! s := get in
  match tcb_ s with
  | Some t => when (HasTooManyTxErrors t) CloseConnectionBecauseOfTooManyTransmissionErrors
  | None => ret tt
  end.

(** ** Handover *)

Definition GetHandoverReadiness (s : Socket) : Z :=
  Z.lor (Z.lor (if negb (bool_decide (state_ s = kClosed)) && negb (bool_decide (state_ s = kEstablished)) then kWrongConnectionState else 0)
    (RRSendQueue.Queue_GetHandoverReadiness (send_queue s)))
    (match tcb_ s with Some t => tcb_GetHandoverReadiness t | None => 0 end).

(** [None] inside is the state of a closed socket. *)
Definition GetHandoverStateAndClose : M Socket (option (option HandoverState)) :=
  let! s := get in
  if negb (GetHandoverReadiness s =? 0) then ret None
  else
    match state_ s with
    | kEstablished =>
      let! t := the_tcb in
      let state := tcb_AddHandoverState t in
      InternalClose kNoError [] ;; ret (Some (Some state))
    | _ => ret (Some None)
    end.

Definition socket_RestoreFromState (state : option HandoverState) : M Socket unit :=
  let! s := get in
  if negb (bool_decide (state_ s = kClosed)) then report kUnsupportedOperation
  else
    match state with
    | None => ret tt
    | Some state =>
      modify (λ s, s <| connect_params_ := mkConnect (connect_initial_tsn (connect_params_ s)) (ho_my_verification_tag state) |>) ;;
      on_send_queue (RRSendQueue.Queue_RestoreFromState (ho_tx_streams state)) ;;
      CreateTransmissionControlBlock (ho_capabilities state) (ho_my_verification_tag state) (ho_my_initial_tsn state) (ho_peer_verification_tag state)
        (ho_peer_initial_tsn state) 0 (ho_tie_tag state) ;;
      on_block (on_tcb (tcb_RestoreFromState state)) ;;
      SetState kEstablished ;;
      sock_io (callback OnConnected)
    end.
End Socket.
