(* ===== verification/SocketInvariant.v ===== *)
(** * The invariant of the SCTP socket

    In which states there is a control block and which timers run, over all histories of calls,
    packets and timeouts; and that [tcb_] is never dereferenced while it is null. *)

From S2P Require Import Prelude SeqNum SctpTimer SctpWire SctpPacket ReConfig DataTracker Reassembly ReassemblyQueue.
From S2P Require Import SendQueue OutstandingData RetransmissionQueue RRSendQueue StreamReset ControlWire ControlBlock Socket.
Open Scope Z_scope.

(** ** Partial correctness that knows of [tcb_]

    The call may fail inside a component, but it does not follow a null [tcb_]: a null pointer
    is followed only while there is a block, that is inside of it. *)
Definition safely {A} (m : M Socket A) (Q : A → Socket → Prop) (s : Socket) : Prop :=
  match m s with
  | Ret a s' => Q a s'
  | Undef NullDeref s' => is_Some (tcb_ s')
  | _ => True
  end.

Lemma safely_ret {A} (a : A) Q s : Q a s → safely (ret a) Q s.
Proof. done. Qed.
Lemma safely_bind {A B} (m : M Socket A) (k : A → M Socket B) Q s : safely m (λ a, safely (k a) Q) s → safely (bind m k) Q s.
Proof. unfold safely. cbn. by destruct (m s) as [| | |[] ?]. Qed.
Lemma safely_mono {A} (m : M Socket A) (P Q : A → Socket → Prop) s : (∀ a s', P a s' → Q a s') → safely m P s → safely m Q s.
Proof. unfold safely. intros H. destruct (m s) as [| | |[] ?]; auto. Qed.
Lemma safely_get Q s : Q s s → safely get Q s.
Proof. done. Qed.
Lemma safely_modify f Q s : Q tt (f s) → safely (modify f) Q s.
Proof. done. Qed.
Lemma safely_when (b : bool) m Q s : (b = true → safely m Q s) → (b = false → Q tt s) → safely (when b m) Q s.
Proof. destruct b; cbn; auto. Qed.
Lemma safely_terminate {A} (Q : A → Socket → Prop) s : safely terminate Q s.
Proof. done. Qed.

(** A call that returns, and what follows. *)
Lemma bind_ret {S A B} (m : M S A) (k : A → M S B) s a s' : m s = Ret a s' → bind m k s = k a s'.
Proof. unfold bind. by intros ->. Qed.

(** What the state machine is about: the state, the running timers, and of the block whether
    there is one, its cookie, and the messages waiting to be delivered. *)
Record Control := mkControl {
  c_state : State;
  c_init : bool;
  c_cookie : bool;
  c_shutdown : bool;
  c_tcb : option (option (list Z) * list DcSctpMessage)
}.
#[export] Instance Control_eta : Eta Control := λ c, mkControl (c_state c) (c_init c) (c_cookie c) (c_shutdown c) (c_tcb c).
Definition block_view (t : TCB) : option (list Z) * list DcSctpMessage := (cookie_echo_chunk_ t, reassembled_messages_ (reassembly t)).
Definition control (s : Socket) : Control :=
  mkControl (state_ s) (is_running_ (t1_init_ s)) (is_running_ (t1_cookie_ s)) (is_running_ (t2_shutdown_ s)) (block_view <$> tcb_ s).

(** A call that does not touch it. *)
Definition quiet {A} (m : M Socket A) : Prop := ∀ s, safely m (λ _ s', control s' = control s) s.

Lemma quiet_ret {A} (a : A) : quiet (ret a).
Proof. by intros s. Qed.
Lemma quiet_bind {A B} (m : M Socket A) (k : A → M Socket B) : quiet m → (∀ a, quiet (k a)) → quiet (bind m k).
Proof. intros Hm Hk s. apply safely_bind. eapply safely_mono; [|apply Hm]. cbn. intros a s' E. eapply safely_mono; [|apply Hk]. cbn. congruence. Qed.
Lemma quiet_when b (m : M Socket unit) : quiet m → quiet (when b m).
Proof. intros H. destruct b; [done|by intros s]. Qed.
Lemma quiet_io {A} (m : M Io A) : (∀ i f i', m i ≠ Undef f i') → quiet (sock_io m).
Proof. intros H s. unfold safely, sock_io, lift. destruct (m (sock_io_ s)) eqn:E; try done. by apply H in E. Qed.
Lemma quiet_terminate {A} : quiet (terminate : M Socket A).
Proof. by intros s. Qed.
Lemma quiet_for_each {A} (f : A → M Socket unit) l : (∀ a, quiet (f a)) → quiet (for_each f l).
Proof. intros H. induction l as [|a l IH]; [apply quiet_ret|]. apply quiet_bind; [apply H|intros _; exact IH]. Qed.

Create HintDb quiet.
#[export] Hint Resolve quiet_ret quiet_terminate : quiet.

Section Quiet.
Context {E : Endpoint}.

Lemma quiet_callback e : quiet (sock_io (callback e)).
Proof using Type. by apply quiet_io. Qed.
Lemma quiet_Now : quiet (sock_io Now).
Proof using Type. by apply quiet_io. Qed.
Lemma quiet_random low high : quiet (sock_io (GetRandomInt low high)).
Proof using Type. by apply quiet_io. Qed.
Lemma quiet_report e : quiet (report e).
Proof using Type. apply quiet_callback. Qed.
Lemma quiet_send w b : quiet (send_with w b).
Proof using Type. apply quiet_bind; [|intros; apply quiet_ret]. apply quiet_io. intros i f i'. unfold PacketSender_Send. by destruct (out_ b). Qed.
Lemma quiet_send_one b : quiet (send b).
Proof using Type. apply quiet_send. Qed.
Lemma quiet_add f b : quiet (add_chunk f b).
Proof using Type. unfold add_chunk. destruct (Builder_Add f b); auto with quiet. Qed.
Lemma quiet_checked {A} (p : parsed A) : quiet (checked p).
Proof using Type. unfold checked. destruct p; auto with quiet. Qed.
Lemma quiet_chunk tag f : quiet (send_chunk tag f).
Proof using Type. apply quiet_bind; [apply quiet_add|intros b; apply quiet_send]. Qed.
Lemma quiet_abort tag filled cause : quiet (send_abort tag filled cause).
Proof using Type. apply quiet_bind; [apply quiet_checked|intros b; apply quiet_chunk]. Qed.
Lemma quiet_error tag cause : quiet (send_error tag cause).
Proof using Type. apply quiet_bind; [apply quiet_checked|intros b; apply quiet_chunk]. Qed.
Lemma quiet_accept ok : quiet (accept_if ok).
Proof using Type. destruct ok; [apply quiet_ret|]. apply quiet_bind; [apply quiet_report|intros; apply quiet_ret]. Qed.
Lemma quiet_get {A} (k : Socket → M Socket A) : (∀ s, safely (k s) (λ _ s', control s' = control s) s) → quiet (bind get k).
Proof using Type. intros H s. apply safely_bind, safely_get, H. Qed.
Lemma quiet_modify f : (∀ s, control (f s) = control s) → quiet (modify f).
Proof using Type. intros H s. apply safely_modify, H. Qed.
Lemma quiet_on_send_queue f : quiet (on_send_queue f).
Proof using Type. apply quiet_modify. intros [? ? ? ? ? ? ? ? ? ? [t|]]; done. Qed.
Lemma quiet_refuse id error status : quiet (refuse id error status).
Proof using Type. apply quiet_bind; [apply quiet_when, quiet_callback|]. intros _. apply quiet_bind; [apply quiet_report|]. intros _. apply quiet_ret. Qed.
Lemma quiet_tie_tag : quiet MakeTieTag.
Proof using Type. apply quiet_bind; [apply quiet_random|]. intros x. apply quiet_bind; [apply quiet_random|]. intros y. apply quiet_ret. Qed.
Lemma quiet_new_tag tries mine tag : quiet (new_verification_tag tries mine tag).
Proof using Type.
  revert tag. induction tries as [|n IH]; intros tag; [apply quiet_ret|]. apply quiet_bind; [apply quiet_random|]. intros v. destruct (_ =? _); [apply IH|apply quiet_ret].
Qed.
End Quiet.
#[export] Hint Resolve quiet_callback quiet_Now quiet_random quiet_report quiet_send quiet_send_one quiet_add quiet_checked quiet_chunk quiet_abort quiet_error quiet_accept
  quiet_on_send_queue quiet_refuse quiet_tie_tag quiet_new_tag quiet_when : quiet.

(** ** Operations of the block *)

(** An operation of the block that keeps its cookie and its messages. *)
Definition calm {A} (m : M Block A) : Prop := ∀ b a b', m b = Ret a b' → block_view (tcb b') = block_view (tcb b).

Lemma calm_ret {A} (a : A) : calm (ret a).
Proof. by intros b a' b' [= _ ->]. Qed.
Lemma calm_bind {A B} (m : M Block A) (k : A → M Block B) : calm m → (∀ a, calm (k a)) → calm (bind m k).
Proof. intros Hm Hk b a b' E. cbn in E. destruct (m b) as [x b1| | |] eqn:E1; try done. rewrite (Hk _ _ _ _ E). by eapply Hm. Qed.
Lemma calm_get {A} (k : Block → M Block A) : (∀ b, calm (k b)) → calm (bind get k).
Proof. intros Hk b a b' E. exact (Hk b b a b' E). Qed.
Lemma calm_gets {A B} (f : Block → B) (k : B → M Block A) : (∀ b, calm (k b)) → calm (bind (gets f) k).
Proof. intros Hk b a b' E. exact (Hk (f b) b a b' E). Qed.
Lemma calm_when c (m : M Block unit) : calm m → calm (when c m).
Proof. intros H. destruct c; [done|apply calm_ret]. Qed.
Lemma calm_terminate {A} : calm (terminate : M Block A).
Proof. by intros b a b'. Qed.
Lemma calm_io {A} (m : M Io A) : calm (on_io m).
Proof. intros b a b' E. unfold on_io, lift in E. destruct (m (io_ b)); try done. by injection E as _ <-. Qed.
Lemma calm_rtx {A} (m : M (RetransmissionQueue RRSendQueue) A) : calm (on_rtx m).
Proof. intros b a b' E. unfold on_rtx, lift in E. destruct (m _); try done. by injection E as _ <-. Qed.
Lemma calm_reset {A} (m : M Handler A) : (∀ h a h', m h = Ret a h' → reset_reassembly_ h' = reset_reassembly_ h) → calm (on_reset m).
Proof.
  intros H b a b' E. unfold on_reset, lift in E. destruct (m _) as [x h| | |] eqn:Em; try done. injection E as _ <-.
  unfold block_view, reassembly. cbn. by rewrite (H _ _ _ Em).
Qed.
Lemma calm_tcb f : (∀ t, block_view (f t) = block_view t) → calm (on_tcb f).
Proof. intros H b a b' E. injection E as _ <-. apply H. Qed.
Lemma calm_flush : calm flush.
Proof. intros b a b' E. injection E as _ <-. unfold block_view. cbn. by destruct (existsb _ _). Qed.
Lemma calm_add f b : calm (add_chunk f b).
Proof. unfold add_chunk. destruct (Builder_Add f b); [apply calm_ret|apply calm_terminate..]. Qed.
Lemma calm_checked {A} (p : parsed A) : calm (checked p).
Proof. unfold checked. destruct p; [apply calm_ret|apply calm_terminate..]. Qed.
Lemma calm_for_each {A} (f : A → M Block unit) l : (∀ a, calm (f a)) → calm (for_each f l).
Proof. intros H. induction l as [|a l IH]; [apply calm_ret|]. apply calm_bind; [apply H|intros _; exact IH]. Qed.
#[export] Hint Resolve calm_ret calm_terminate calm_io calm_rtx calm_flush calm_add calm_checked : quiet.

(** Take an operation apart. *)
Ltac calm_step := lazymatch goal with
  | |- calm (bind get _) => apply calm_get; intros ?
  | |- calm (bind (gets _) _) => apply calm_gets; intros ?
  | |- calm (bind _ _) => apply calm_bind; [|intros ?]
  | |- calm (when _ _) => apply calm_when
  | |- calm (match ?x with _ => _ end) => destruct x
  | |- calm (on_tcb _) => apply calm_tcb; intros ?; reflexivity
  | |- _ => solve [auto with quiet nocore]
  end.
Ltac calm := repeat calm_step.

Lemma calm_tracker {A} (f : DataTracker → A * DataTracker) : calm (on_tracker f).
Proof. intros b a b' E. unfold on_tracker in E. destruct (f _). by injection E as _ <-. Qed.
#[export] Hint Resolve calm_tracker : quiet.

Section Calm.
Context {E : Endpoint}.

Lemma calm_Send b : calm (tcb_Send b).
Proof using Type. unfold tcb_Send. calm. Qed.
Hint Resolve calm_Send : quiet.
Lemma calm_increment : calm IncrementTxErrorCounter.
Proof using Type. unfold IncrementTxErrorCounter. calm. Qed.
Hint Resolve calm_increment : quiet.
Lemma calm_add_data i chunks b : calm (add_data i chunks b).
Proof using Type. revert b. induction chunks as [|[tsn data] chunks IH]; intros b; cbn [add_data]; calm. Qed.
Hint Resolve calm_add_data : quiet.

Lemma calm_HandleSack now sack : calm (tcb_HandleSack now sack).
Proof using Type. unfold tcb_HandleSack. calm. apply calm_tcb. intros t. by destruct (observed_rtt _ _ _). Qed.
Lemma calm_HeartbeatRequest ps : calm (HandleHeartbeatRequest ps).
Proof using Type. unfold HandleHeartbeatRequest. calm. Qed.
Lemma calm_HeartbeatAck ps : calm (HandleHeartbeatAck ps).
Proof using Type. unfold HandleHeartbeatAck. calm. Qed.
Lemma calm_interval : calm OnIntervalTimerExpiry.
Proof using Type. unfold OnIntervalTimerExpiry. calm. Qed.
Lemma calm_timeout : calm OnTimeoutTimerExpiry.
Proof using Type. unfold OnTimeoutTimerExpiry. calm. Qed.
Hint Resolve calm_HandleSack calm_HeartbeatRequest calm_HeartbeatAck calm_interval calm_timeout : quiet.

Lemma calm_MaybeSendSack : calm tcb_MaybeSendSack.
Proof using Type. unfold tcb_MaybeSendSack. calm. Qed.
Hint Resolve calm_MaybeSendSack : quiet.
Lemma calm_delayed_ack : calm OnDelayedAckTimerExpiry.
Proof using Type. unfold OnDelayedAckTimerExpiry. calm. Qed.
Lemma calm_forward b now : calm (MaybeSendForwardTsn b now).
Proof using Type. unfold MaybeSendForwardTsn. calm. Qed.
Hint Resolve calm_forward : quiet.
Lemma calm_fast : calm MaybeSendFastRetransmit.
Proof using Type. unfold MaybeSendFastRetransmit. calm. Qed.

(** Asking for a reset does not touch what was received. *)
Lemma MakeReconfigChunk_keeps (h : Handler) a h' : MakeReconfigChunk h = Ret a h' → reset_reassembly_ h' = reset_reassembly_ h.
Proof using Type.
  destruct (current_request_ h) as [r|] eqn:Er.
  - rewrite (MakeReconfigChunk_spec h r Er). intros [= _ <-]. unfold numbered. by destruct (has_been_sent r).
  - unfold MakeReconfigChunk, bind, get. by rewrite Er.
Qed.
Lemma calm_MakeStreamResetRequest : calm (on_reset MakeStreamResetRequest).
Proof using Type.
  apply calm_reset. intros h a h'. unfold MakeStreamResetRequest, bind, get. destruct (_ || _); [by intros [= _ <-]|]. destruct (Rtx_BeginResetStreams _) as [streams r].
  unfold modify. destruct (MakeReconfigChunk _) as [data h1| | |] eqn:Em; try done. apply MakeReconfigChunk_keeps in Em. cbn. intros [= _ <-]. by rewrite Em.
Qed.
Hint Resolve calm_MakeStreamResetRequest : quiet.
Lemma calm_OnReconfigTimerExpiry : calm (on_reset OnReconfigTimerExpiry).
Proof using Type.
  apply calm_reset. intros h a h'. unfold OnReconfigTimerExpiry, bind, get. destruct (current_request_ h) as [r|]; [|done]. cbn [deref ret].
  destruct (if has_been_sent r then _ else _) as [[] errors]; cbn [modify ret]; [|by intros [= _ <-]].
  destruct (MakeReconfigChunk _) as [data h1| | |] eqn:Em; try done. apply MakeReconfigChunk_keeps in Em. cbn. intros [= _ <-]. cbn. exact Em.
Qed.
Hint Resolve calm_OnReconfigTimerExpiry : quiet.
Lemma calm_reset_event e : calm (reset_event e).
Proof using Type. unfold reset_event. calm. Qed.
Lemma calm_flush_reset : calm flush_reset.
Proof using Type. unfold flush_reset. calm. apply calm_for_each, calm_reset_event. Qed.
Hint Resolve calm_flush_reset : quiet.

Lemma calm_control_chunks b now : calm (add_control_chunks b now).
Proof using Type. unfold add_control_chunks. calm. Qed.
Hint Resolve calm_control_chunks : quiet.
Lemma calm_packets n first b now : calm (send_packets n first b now).
Proof using Type. revert first b. induction n as [|n IH]; intros first b; cbn [send_packets]; calm. Qed.
Lemma calm_SendBufferedWith b now : calm (SendBufferedPacketsWith b now).
Proof using Type. apply calm_packets. Qed.
Lemma calm_SendBuffered now : calm (SendBufferedPackets now).
Proof using Type. unfold SendBufferedPackets. calm. apply calm_packets. Qed.
Hint Resolve calm_SendBuffered : quiet.
Lemma calm_OnRtxTimerExpiry : calm OnRtxTimerExpiry.
Proof using Type. unfold OnRtxTimerExpiry. calm. Qed.

Lemma calm_expire (timer : Block → Timer) set_timer timeout_id (m : M Block Z) : (∀ x b, block_view (tcb (set_timer x b)) = block_view (tcb b)) → calm m →
  calm (expire timer set_timer timeout_id m).
Proof using Type.
  intros H Hm. unfold expire. apply calm_get. intros b. destruct (Trigger_before _ _) as [t|]; [|apply calm_ret].
  assert (∀ f : Block → Timer, calm (modify (λ b, set_timer (f b) b))) as Hs by (intros f x a x' Ex; injection Ex as _ <-; apply H).
  apply calm_bind; [apply (Hs (λ _, t))|intros _]. apply calm_bind; [done|intros d]. apply (Hs (λ b, Trigger_after d (timer b))).
Qed.
End Calm.
#[export] Hint Resolve calm_HandleSack calm_HeartbeatRequest calm_HeartbeatAck calm_interval calm_timeout calm_MaybeSendSack calm_delayed_ack calm_fast
  calm_MakeStreamResetRequest calm_OnReconfigTimerExpiry calm_flush_reset calm_SendBuffered calm_SendBufferedWith calm_OnRtxTimerExpiry : quiet.

(** ** The socket seen through [control]

    [runs c m Q]: from a state that looks like [c], the call ends well in a state that looks as
    [Q] says. *)
Definition runs {A} (c : Control) (m : M Socket A) (Q : A → Control → Prop) : Prop := ∀ s, control s = c → safely m (λ a s', Q a (control s')) s.

Lemma runs_ret {A} (a : A) c (Q : A → Control → Prop) : Q a c → runs c (ret a) Q.
Proof. by intros H s <-. Qed.
Lemma runs_mono {A} c (m : M Socket A) (P Q : A → Control → Prop) : runs c m P → (∀ a c', P a c' → Q a c') → runs c m Q.
Proof. intros H HQ s E. eapply safely_mono; [|by apply H]. cbn. auto. Qed.
Lemma runs_bind {A B} c (m : M Socket A) (k : A → M Socket B) P Q : runs c m P → (∀ a c', P a c' → runs c' (k a) Q) → runs c (bind m k) Q.
Proof. intros H Hk s E. apply safely_bind. eapply safely_mono; [|by apply H]. cbn. intros a s' HP. by apply (Hk a (control s')). Qed.
Lemma runs_quiet {A} c (m : M Socket A) (Q : A → Control → Prop) : quiet m → (∀ a, Q a c) → runs c m Q.
Proof. intros H HQ s E. eapply safely_mono; [|by apply H]. cbn. intros a s' E'. rewrite E', E. apply HQ. Qed.
Lemma runs_quiet_bind {A B} c (m : M Socket A) (k : A → M Socket B) Q : quiet m → (∀ a, runs c (k a) Q) → runs c (bind m k) Q.
Proof. intros H Hk. apply (runs_bind _ _ _ (λ _ c', c' = c)); [by apply runs_quiet|by intros a ? ->]. Qed.
Lemma runs_get {A} c (k : Socket → M Socket A) Q : (∀ s, control s = c → runs c (k s) Q) → runs c (bind get k) Q.
Proof. intros H s E. exact (H s E s E). Qed.
Lemma runs_modify c f c' (Q : unit → Control → Prop) : (∀ s, control s = c → control (f s) = c') → Q tt c' → runs c (modify f) Q.
Proof. intros H HQ s E. apply safely_modify. by rewrite (H s E). Qed.
Lemma runs_terminate {A} c (Q : A → Control → Prop) : runs c terminate Q.
Proof. by intros s _. Qed.

(** With a block. *)
Lemma runs_the_tcb {A} c v (k : TCB → M Socket A) Q : c_tcb c = Some v → (∀ t, runs c (k t) Q) → runs c (bind the_tcb k) Q.
Proof.
  intros Hv Hk s <-. cbn in Hv. destruct (tcb_ s) as [t|] eqn:Et; [|done]. apply safely_bind. unfold the_tcb. apply safely_bind, safely_get. rewrite Et.
  by apply safely_ret, (Hk t).
Qed.
Lemma runs_on_block {A} c v (m : M Block A) (R : option (list Z) * list DcSctpMessage → Prop) (Q : A → Control → Prop) : c_tcb c = Some v →
  (∀ b a b', m b = Ret a b' → block_view (tcb b) = v → R (block_view (tcb b'))) →
  (∀ a w, R w → Q a (c <| c_tcb := Some w |>)) → runs c (on_block m) Q.
Proof.
  intros Hv Hm HQ s <-. cbn in Hv. unfold safely, on_block. destruct (tcb_ s) as [t|] eqn:Et; [|done]. injection Hv as Hv.
  destruct (m _) as [a b'| | |[] b'] eqn:Em; try done.
  apply Hm in Em; [|done]. by apply (HQ a) in Em.
Qed.
Lemma runs_calm {A} c v (m : M Block A) (Q : A → Control → Prop) : c_tcb c = Some v → calm m → (∀ a, Q a c) → runs c (on_block m) Q.
Proof.
  intros Hv Hm HQ. apply (runs_on_block _ v _ (λ w, w = v)); [done|intros b a b' Em <-; by apply Hm in Em|].
  intros a w ->. replace (c <| c_tcb := Some v |>) with c; [done|]. destruct c; cbn in *. by rewrite Hv.
Qed.
Lemma runs_calm_bind {A B} c v (m : M Block A) (k : A → M Socket B) Q : c_tcb c = Some v → calm m → (∀ a, runs c (k a) Q) → runs c (bind (on_block m) k) Q.
Proof. intros Hv Hm Hk. apply (runs_bind _ _ _ (λ _ c', c' = c)); [by eapply runs_calm|by intros a ? ->]. Qed.

(** Whether there is a block is part of what is seen. *)
Lemma runs_if_tcb {A} c (s : Socket) (yes : TCB → M Socket A) (no : M Socket A) Q : control s = c → (∀ t, c_tcb c = Some (block_view t) → runs c (yes t) Q) →
  (c_tcb c = None → runs c no Q) → runs c (match tcb_ s with Some t => yes t | None => no end) Q.
Proof. intros <- Hy Hn. cbn in *. destruct (tcb_ s) as [t|]; [by apply Hy|by apply Hn]. Qed.

(** ** The invariant *)

Definition is_open (state : State) : bool := match state with kEstablished | kShutdownPending | kShutdownReceived => true | _ => false end.
Definition is_closing (state : State) : bool := match state with kShutdownSent | kShutdownAckSent => true | _ => false end.

(** What [IsConsistent] asks for, but that the timer of the shutdown may run in an open state. *)
Inductive socket_inv : Control → Prop :=
| inv_closed : socket_inv (mkControl kClosed false false false None)
| inv_cookie_wait : socket_inv (mkControl kCookieWait true false false None)
| inv_cookie_echoed cookie : socket_inv (mkControl kCookieEchoed false true false (Some (Some cookie, [])))
| inv_open state t2 cookie : is_open state = true → socket_inv (mkControl state false false t2 (Some (cookie, [])))
| inv_closing state cookie : is_closing state = true → socket_inv (mkControl state false false true (Some (cookie, []))).
#[export] Hint Constructors socket_inv : quiet.

Definition maintains {A} (m : M Socket A) : Prop := ∀ c, socket_inv c → runs c m (λ _, socket_inv).

Lemma maintains_quiet {A} (m : M Socket A) : quiet m → maintains m.
Proof. intros H c Hc. by apply runs_quiet. Qed.
Lemma maintains_bind {A B} (m : M Socket A) (k : A → M Socket B) : maintains m → (∀ a, maintains (k a)) → maintains (bind m k).
Proof. intros H Hk c Hc. eapply runs_bind; [by apply H|]. cbn. intros a c' Hc'. by apply Hk. Qed.
Lemma maintains_when b (m : M Socket unit) : maintains m → maintains (when b m).
Proof. intros H. destruct b; [done|apply maintains_quiet, quiet_ret]. Qed.
Lemma maintains_chunk {A} (p : parsed A) handle : (∀ a, maintains (handle a)) → maintains (with_chunk p handle).
Proof. intros H. destruct p; [apply H|apply maintains_quiet, quiet_report|apply maintains_quiet, quiet_terminate]. Qed.

(** There is a block unless the socket is closed or waits for a cookie. *)
Lemma inv_tcb c : socket_inv c → c_tcb c = None → c_state c = kClosed ∨ c_state c = kCookieWait.
Proof. intros []; cbn; auto; done. Qed.

(** A call that needs the block. *)
Definition maintains_with_tcb {A} (m : M Socket A) : Prop := ∀ c, socket_inv c → is_Some (c_tcb c) → runs c m (λ _, socket_inv).
Lemma maintains_chunk_and_tcb {A} (p : parsed A) handle : (∀ a, maintains_with_tcb (handle a)) → maintains (with_chunk_and_tcb p handle).
Proof.
  intros H. apply maintains_chunk. intros a c Hc. unfold ValidateHasTCB. destruct (c_tcb c) as [v|] eqn:Ev.
  - apply (runs_bind _ _ _ (λ b c', b = true ∧ c' = c)).
    + apply runs_get. intros s Es. apply runs_if_tcb; [done|by intros; apply runs_ret|congruence].
    + intros b c' [-> ->]. apply H; [done|by rewrite Ev].
  - apply (runs_bind _ _ _ (λ b c', b = false ∧ c' = c)).
    + apply runs_get. intros s Es. apply runs_if_tcb; [done|congruence|]. intros _. apply runs_quiet_bind; [auto with quiet|]. intros _. by apply runs_ret.
    + intros b c' [-> ->]. by apply runs_ret.
Qed.

Lemma timer_started t : is_running_ (Timer_Start t) = true.
Proof. unfold Timer_Start. cbn. by destruct (is_running_ t) eqn:E. Qed.
Lemma timer_stopped t : is_running_ (Timer_Stop t) = false.
Proof. unfold Timer_Stop. by destruct (is_running_ t) eqn:E. Qed.

(** Take a call apart; what is left are the changes of the state. *)
Ltac state_of Hs := lazymatch type of Hs with control ?s = _ =>
  let H := fresh "Hst" in pose proof (f_equal c_state Hs) as H; cbn in H; rewrite ?H end.
Ltac run_step := lazymatch goal with
  | |- runs _ (bind get _) _ => let s := fresh "s" in let Hs := fresh "Hs" in apply runs_get; intros s Hs; state_of Hs
  | |- runs _ (bind the_tcb _) _ => eapply runs_the_tcb; [reflexivity|intros ?]
  | |- runs _ (bind (on_block _) _) _ => eapply runs_calm_bind; [reflexivity|solve [auto with quiet nocore]|intros ?]
  | |- runs _ (on_block _) _ => eapply runs_calm; [reflexivity|solve [auto with quiet nocore]|intros ?]
  | |- runs _ (bind _ _) _ => apply runs_quiet_bind; [solve [auto with quiet nocore]|intros ?]
  | |- runs _ (ret _) _ => apply runs_ret
  | |- runs _ terminate _ => apply runs_terminate
  | |- runs _ (when (bool_decide _) _) _ => case_bool_decide; cbn [when]
  | |- runs _ (when ?b _) _ => destruct b; cbn [when]
  | |- runs _ (match ?b with _ => _ end) _ => lazymatch type of b with bool => destruct b end
  end.
Ltac run := repeat run_step.

Section Keeps.
Context {E : Endpoint}.

Lemma quiet_SendInit : quiet SendInit.
Proof using Type. apply quiet_get. intros s. apply (quiet_bind (checked _)); auto with quiet. Qed.
Hint Resolve quiet_SendInit : quiet.

(** The calls that need a block, and keep what is seen. *)
Lemma runs_SendShutdown c v (Q : unit → Control → Prop) : c_tcb c = Some v → Q tt c → runs c SendShutdown Q.
Proof using Type. intros Hv HQ. unfold SendShutdown. eapply runs_the_tcb; [done|]. intros t. apply runs_quiet; [auto with quiet|by intros []]. Qed.
Lemma runs_start_t2 c v (Q : unit → Control → Prop) : c_tcb c = Some v → Q tt (c <| c_shutdown := true |>) → runs c start_t2 Q.
Proof using Type. intros Hv HQ. unfold start_t2. eapply runs_the_tcb; [done|]. intros t. eapply runs_modify; [|exact HQ]. intros s <-. unfold control. cbn. by rewrite timer_started. Qed.
Lemma runs_SendShutdownAck c v (Q : unit → Control → Prop) : c_tcb c = Some v → Q tt (c <| c_shutdown := true |>) → runs c SendShutdownAck Q.
Proof using Type.
  intros Hv HQ. unfold SendShutdownAck. eapply runs_the_tcb; [done|]. intros t. apply runs_quiet_bind; [auto with quiet|]. intros _. by eapply runs_start_t2.
Qed.
Lemma runs_SetState c state (Q : unit → Control → Prop) : Q tt (c <| c_state := state |>) → runs c (SetState state) Q.
Proof using Type. intros HQ. eapply runs_modify; [|exact HQ]. by intros s <-. Qed.

(** Whatever it was, closing it closes it. *)
Lemma runs_InternalClose c error causes : runs c (InternalClose error causes) (λ _ c', c' = if decide (c_state c = kClosed) then c else mkControl kClosed false false false None).
Proof using Type.
  unfold InternalClose. apply runs_get. intros s Hs. state_of Hs. destruct (decide (c_state c = kClosed)) as [Ec|Ec].
  - rewrite bool_decide_true by done. by apply runs_ret.
  - rewrite bool_decide_false by done. cbn [negb when]. apply (runs_bind _ _ _ (λ _ c', c' = mkControl (c_state c) false false false None)); [eapply runs_modify; [|done]; intros s' <-; unfold control; cbn; by rewrite !timer_stopped|].
    intros _ c' ->. apply runs_quiet_bind; [auto with quiet|]. intros _. by apply runs_SetState.
Qed.
Lemma maintains_InternalClose error causes : maintains (InternalClose error causes).
Proof using Type. intros c Hc. eapply runs_mono; [apply runs_InternalClose|]. cbn. intros _ c' ->. destruct (decide _); auto with quiet. Qed.
Hint Resolve maintains_InternalClose : quiet.

(** The start of a shutdown that was asked for, by either side. *)
Lemma runs_MaybeSendShutdownOrAck state t2 cookie : is_open state = true →
  runs (mkControl state false false t2 (Some (cookie, []))) MaybeSendShutdownOrAck (λ _ c, socket_inv c ∧ is_Some (c_tcb c)).
Proof using Type.
  intros Ho. unfold MaybeSendShutdownOrAck. run; [by split; [constructor|]|]. destruct state; try done.
  - apply runs_ret. by split; [constructor|].
  - apply (runs_bind _ _ _ (λ _ c, c = mkControl kShutdownPending false false t2 (Some (cookie, [])))); [by eapply runs_SendShutdown|]. intros _ c ->.
    apply (runs_bind _ _ _ (λ _ c, c = mkControl kShutdownPending false false true (Some (cookie, [])))); [by eapply runs_start_t2|]. intros _ c ->.
    apply runs_SetState. by split; [constructor|].
  - apply (runs_bind _ _ _ (λ _ c, c = mkControl kShutdownReceived false false true (Some (cookie, [])))); [by eapply runs_SendShutdownAck|]. intros _ c ->.
    apply runs_SetState. by split; [constructor|].
Qed.
Lemma maintains_MaybeSendShutdownOrAck state t2 cookie : is_open state = true →
  runs (mkControl state false false t2 (Some (cookie, []))) MaybeSendShutdownOrAck (λ _, socket_inv).
Proof using Type. intros Ho. eapply runs_mono; [by apply runs_MaybeSendShutdownOrAck|]. by intros _ c []. Qed.
End Keeps.
#[export] Hint Resolve quiet_SendInit maintains_InternalClose : quiet.

(** ** Calls of the application *)

Lemma runs_then {B} c c1 (m : M Socket unit) (k : M Socket B) Q : runs c m (λ _ c', c' = c1) → runs c1 k Q → runs c (m ;; k) Q.
Proof. intros H Hk. eapply runs_bind; [exact H|]. by intros _ c' ->. Qed.
Lemma quiet_fold {A B} (f : B → A → M Socket B) l b : (∀ b a, quiet (f b a)) → quiet (fold_m f l b).
Proof. intros H. revert b. induction l as [|a l IH]; intros b; [apply quiet_ret|]. cbn [fold_m]. apply quiet_bind; [apply H|exact IH]. Qed.
#[export] Hint Extern 1 (quiet (modify _)) => apply quiet_modify; intros ?; reflexivity : quiet.

Section Calls.
Context {E : Endpoint}.

Lemma runs_stop_init c (Q : unit → Control → Prop) : Q tt (c <| c_init := false |>) → runs c (modify stop_t1_init) Q.
Proof using Type. intros HQ. eapply runs_modify; [|exact HQ]. intros s <-. unfold control. cbn. by rewrite timer_stopped. Qed.
Lemma runs_stop_cookie c (Q : unit → Control → Prop) : Q tt (c <| c_cookie := false |>) → runs c (modify stop_t1_cookie) Q.
Proof using Type. intros HQ. eapply runs_modify; [|exact HQ]. intros s <-. unfold control. cbn. by rewrite timer_stopped. Qed.

Lemma maintains_Connect : maintains Connect.
Proof using Type.
  intros c []; unfold Connect; run; auto with quiet; try congruence; try (by destruct state).
  eapply runs_then; [eapply (runs_modify _ _ (mkControl kClosed true false false None)); [|done]|by apply runs_SetState; constructor].
  intros s0 E0. unfold control in *. cbn. rewrite timer_started. congruence.
Qed.

Lemma maintains_Shutdown : maintains Shutdown.
Proof using Type.
  intros c Hc. unfold Shutdown. run. apply runs_if_tcb; [done| |by intros _; apply maintains_InternalClose].
  intros t Ht. destruct (negb _ && negb _) eqn:Es; [|by apply runs_ret]. cbn [when].
  assert (∃ t2 cookie, c <| c_state := kShutdownPending |> <| c_init := false |> <| c_cookie := false |>
            = mkControl kShutdownPending false false t2 (Some (cookie, []))) as (t2 & cookie & E1) by (destruct Hc; try done; by eexists _, _).
  eapply runs_then; [by apply runs_SetState|]. eapply runs_then; [by apply runs_stop_init|]. eapply runs_then; [by apply runs_stop_cookie|].
  by apply maintains_MaybeSendShutdownOrAck.
Qed.

Lemma maintains_Close : maintains Close.
Proof using Type.
  intros c Hc. unfold Close. run; [|by auto with quiet].
  apply (runs_then _ c); [|by apply maintains_InternalClose]. apply runs_if_tcb; [done| |by intros _; apply runs_ret].
  intros t Ht. apply runs_quiet; auto with quiet.
Qed.

Lemma quiet_InternalSend message o : quiet (InternalSend message o).
Proof using Type. apply quiet_get. intros s. cbv zeta. repeat case_match; apply quiet_refuse || apply quiet_ret. Qed.
Lemma quiet_enqueue now message o : quiet (enqueue now message o).
Proof using Type. apply quiet_bind; auto with quiet. Qed.
Hint Resolve quiet_InternalSend quiet_enqueue : quiet.

(** A call of the block, if there is one. *)
Lemma maintains_if_tcb {A} (m : M Socket A) (k : TCB → M Socket A) : quiet m → (∀ t, maintains_with_tcb (k t)) →
  maintains (let! s := get in match tcb_ s with Some t => k t | None => m end).
Proof using Type.
  intros Hm Hk c Hc. apply runs_get. intros s Hs. apply runs_if_tcb; [done| |intros _; by apply runs_quiet]. intros t Ht. apply Hk; [done|by rewrite Ht].
Qed.
Lemma maintains_calm {A} (m : M Block A) : calm m → maintains_with_tcb (on_block m).
Proof using Type. intros Hm c Hc [v Hv]. by eapply runs_calm. Qed.
Lemma maintains_MaybeSendBufferedPackets now : maintains (MaybeSendBufferedPackets now).
Proof using Type. apply maintains_if_tcb; [auto with quiet|]. intros _. apply maintains_calm. auto with quiet. Qed.

Lemma maintains_Send message o : maintains (Send message o).
Proof using Type.
  apply maintains_bind; [apply maintains_quiet; auto with quiet|]. intros status. destruct (bool_decide _); [|apply maintains_quiet, quiet_ret].
  apply maintains_bind; [apply maintains_quiet; auto with quiet|]. intros now. apply maintains_bind; [apply maintains_quiet; auto with quiet|]. intros _.
  apply maintains_bind; [apply maintains_MaybeSendBufferedPackets|]. intros _. apply maintains_quiet, quiet_ret.
Qed.
Lemma maintains_SendMany messages o : maintains (SendMany messages o).
Proof using Type.
  apply maintains_bind; [apply maintains_quiet; auto with quiet|]. intros now. apply maintains_bind.
  - apply maintains_quiet, quiet_fold. intros l m. apply quiet_bind; [auto with quiet|]. intros status. apply quiet_bind; auto with quiet.
  - intros statuses. apply maintains_bind; [apply maintains_MaybeSendBufferedPackets|]. intros _. apply maintains_quiet, quiet_ret.
Qed.

(** A call that needs a block and changes nothing that is seen. *)
Lemma runs_MaybeSendResetStreamsRequest c v (Q : unit → Control → Prop) : c_tcb c = Some v → Q tt c → runs c MaybeSendResetStreamsRequest Q.
Proof using Type.
  intros Hv HQ. unfold MaybeSendResetStreamsRequest. eapply runs_calm_bind; [done|auto with quiet|]. intros [parameters|]; [|by apply runs_ret].
  eapply runs_the_tcb; [done|]. intros t. apply runs_quiet; [auto with quiet|by intros []].
Qed.
Lemma calm_ResetStreams streams : calm (on_reset (modify (StreamReset.ResetStreams streams)) ;; flush).
Proof using Type. apply calm_bind; [|intros; apply calm_flush]. apply calm_reset. intros h a h' Eh. by injection Eh as _ <-. Qed.
Lemma maintains_ResetStreams streams : maintains (ResetStreams streams).
Proof using Type.
  apply maintains_if_tcb; [apply quiet_bind; auto with quiet|]. intros t. destruct (negb _).
  - intros c Hc _. apply runs_quiet; [apply quiet_bind; auto with quiet|done].
  - intros c Hc [v Hv]. eapply runs_calm_bind; [done|apply calm_ResetStreams|]. intros _.
    eapply runs_bind; [by eapply (runs_MaybeSendResetStreamsRequest _ _ (λ _ c', c' = c))|]. intros _ c' ->. by apply runs_ret.
Qed.
End Calls.

(** ** Packets that arrive *)

Lemma inv_some c : socket_inv c → is_Some (c_tcb c) → ∃ cookie, c_tcb c = Some (cookie, []).
Proof. intros [] [v Hv]; cbn in *; try done; by eexists. Qed.
Lemma same_tcb c v : c_tcb c = Some v → c <| c_tcb := Some v |> = c.
Proof. intros Hv. destruct c. cbn in *. by rewrite Hv. Qed.

Section Packets.
Context {E : Endpoint}.

(** Delivering leaves nothing to deliver. *)
Lemma runs_deliver c cookie messages (Q : unit → Control → Prop) : c_tcb c = Some (cookie, messages) → Q tt (c <| c_tcb := Some (cookie, []) |>) →
  runs c MaybeDeliverMessages Q.
Proof using Type.
  intros Hv HQ. unfold MaybeDeliverMessages. eapply runs_the_tcb; [done|]. intros t. cbn [FlushMessages].
  apply (runs_then _ (c <| c_tcb := Some (cookie, []) |>)).
  - apply (runs_on_block _ _ _ (λ w, w = (cookie, [])) _ Hv); [|by intros _ w ->]. intros b a b' Eb. injection Eb as _ <-. unfold block_view. cbn. congruence.
  - apply runs_quiet; [|by intros []]. apply quiet_for_each. intros m. apply quiet_bind; auto with quiet.
Qed.
(** Something arrives, and is delivered at the end. *)
Lemma runs_received {A} (m : M Block A) (k : M Socket unit) c cookie : c_tcb c = Some (cookie, []) →
  (∀ b a b', m b = Ret a b' → cookie_echo_chunk_ (tcb b') = cookie_echo_chunk_ (tcb b)) →
  (∀ messages, runs (c <| c_tcb := Some (cookie, messages) |>) k (λ _, socket_inv)) → runs c (on_block m ;; k) (λ _, socket_inv).
Proof using Type.
  intros Hv Hm Hk. eapply (runs_bind _ _ _ (λ _ c', ∃ messages, c' = c <| c_tcb := Some (cookie, messages) |>)).
  - eapply (runs_on_block _ _ _ (λ w, w.1 = cookie)); [exact Hv| |intros a [k' messages] <-; by eexists]. intros b a b' Eb Hb. cbn. rewrite (Hm _ _ _ Eb). by injection Hb.
  - intros _ c' [messages ->]. apply Hk.
Qed.
Lemma runs_deliver_all c cookie messages : socket_inv c → c_tcb c = Some (cookie, []) →
  runs (c <| c_tcb := Some (cookie, messages) |>) MaybeDeliverMessages (λ _, socket_inv).
Proof using Type.
  intros Hc Hv. eapply runs_deliver; [done|]. change (socket_inv (c <| c_tcb := Some (cookie, []) |>)). by rewrite same_tcb.
Qed.

Lemma maintains_HandleDataCommon chunk : maintains_with_tcb (HandleDataCommon chunk).
Proof using Type.
  intros c Hc Hs. destruct (inv_some c Hc Hs) as [cookie Hv]. unfold HandleDataCommon. eapply runs_the_tcb; [done|]. intros t.
  destruct (bool_decide _); [apply runs_quiet; [apply quiet_bind; auto with quiet|done]|].
  destruct (is_full _); [apply runs_quiet_bind; [auto with quiet|]; intros _; by apply maintains_InternalClose|].
  destruct (_ && _); [eapply runs_calm; [done| |done]; by apply calm_tcb|].
  destruct (negb _); [by apply runs_ret|]. eapply runs_calm_bind; [done|auto with quiet|]. intros []; [|by apply runs_ret]. cbn [when].
  apply (runs_received _ _ _ cookie Hv); [intros b a b' Eb; by injection Eb as _ <-|]. intros messages. by apply runs_deliver_all.
Qed.

Lemma maintains_HandleForwardTsnCommon chunk : maintains_with_tcb (HandleForwardTsnCommon chunk).
Proof using Type.
  intros c Hc Hs. destruct (inv_some c Hc Hs) as [cookie Hv]. unfold HandleForwardTsnCommon. eapply runs_the_tcb; [done|]. intros t.
  destruct (negb _); [apply runs_quiet; [apply quiet_bind; auto with quiet|done]|]. eapply runs_calm_bind; [done|auto with quiet|]. intros []; cbn [when].
  - apply (runs_received _ _ _ cookie Hv); [intros b a b' Eb; by injection Eb as _ <-|]. intros messages. by apply runs_deliver_all.
  - apply runs_quiet_bind; [auto with quiet|]. intros _. eapply runs_deliver; [exact Hv|]. by rewrite same_tcb.
Qed.

(** Handling a request for a reset does not touch the cookie. *)
Lemma cookie_kept {A} (m : M Handler A) b a b' : (on_reset m ;; flush_reset ;; flush) b = Ret a b' → cookie_echo_chunk_ (tcb b') = cookie_echo_chunk_ (tcb b).
Proof using Type.
  unfold bind at 1. unfold on_reset, lift. destruct (m _) as [x h| | |]; try done. intros Eb. assert (calm (flush_reset ;; flush)) as Hf by calm.
  apply Hf in Eb. by injection Eb.
Qed.
Lemma maintains_HandleReconfig data : maintains (HandleReconfig data).
Proof using Type.
  apply maintains_bind; [apply maintains_quiet; auto with quiet|]. intros now. apply maintains_chunk_and_tcb. intros parameters c Hc Hs. destruct (inv_some c Hc Hs) as [cookie Hv].
  apply (runs_received _ _ _ cookie Hv); [|intros messages; eapply runs_then; [by eapply runs_MaybeSendResetStreamsRequest|];
    eapply runs_calm_bind; [done|auto with quiet|]; intros _; by apply runs_deliver_all].
  apply cookie_kept.
Qed.
End Packets.

(** ** The handshakes *)

Section Handshakes.
Context {E : Endpoint}.

(** A new block is seen as a new one. *)
Lemma runs_create c capabilities my_tag my_tsn peer_tag peer_tsn a_rwnd tie_tag (Q : unit → Control → Prop) : Q tt (c <| c_tcb := Some (None, []) |>) →
  runs c (CreateTransmissionControlBlock capabilities my_tag my_tsn peer_tag peer_tsn a_rwnd tie_tag) Q.
Proof using Type.
  intros HQ. unfold CreateTransmissionControlBlock. apply runs_get. intros s0 _. destruct (_ <=? _); [apply runs_terminate|]. eapply runs_modify; [|exact HQ]. by intros s <-.
Qed.

Lemma runs_choose_parameters c : socket_inv c → runs c choose_parameters (λ _ c', c' = c).
Proof using Type.
  intros Hc. unfold choose_parameters. apply runs_get. intros s Hs. state_of Hs.
  assert (∀ state t2 cookie, let c := mkControl state false false t2 (Some (cookie, [])) in ∀ k : TCB → M Socket (Z * Z * Z), (∀ t, quiet (k t)) →
    runs c (bind the_tcb k) (λ _ c', c' = c)) as Hq by (intros; eapply runs_the_tcb; [done|]; intros t; by apply runs_quiet).
  destruct Hc; cbn [c_state]; try by apply runs_ret.
  - apply runs_quiet; [|done]. apply quiet_bind; [auto with quiet|]. intros tag. apply quiet_bind; auto with quiet.
  - destruct state; try done; apply Hq; intros t; apply quiet_bind; auto with quiet.
  - destruct state; try done; apply Hq; intros t; apply quiet_bind; auto with quiet.
Qed.

Lemma maintains_HandleInit data : maintains (HandleInit data).
Proof using Type.
  apply maintains_chunk. intros chunk. destruct (_ || _); [apply maintains_bind; [apply maintains_quiet|intros _]; auto with quiet|].
  intros c Hc. apply runs_get. intros s Hs. state_of Hs. destruct (decide _) as [Ea|Ea].
  - destruct Hc; try done; cbn in Ea; subst; try done. eapply runs_SendShutdownAck; [done|]. by constructor.
  - eapply runs_bind; [by apply runs_choose_parameters|]. cbn. intros [[tag tsn] tie] c' ->. apply runs_quiet; [|done].
    apply quiet_bind; [auto with quiet|]; intros capabilities. cbv zeta. apply quiet_bind; [auto with quiet|]; intros p1. apply quiet_bind; [auto with quiet|]; intros p2.
    apply quiet_bind; auto with quiet.
Qed.

Lemma runs_set_cookie c cookie messages new (Q : unit → Control → Prop) : c_tcb c = Some (cookie, messages) → Q tt (c <| c_tcb := Some (new, messages) |>) →
  runs c (on_block (on_tcb (λ t, t <| cookie_echo_chunk_ := new |>))) Q.
Proof using Type.
  intros Hv HQ. apply (runs_on_block _ _ _ (λ w, w = (new, messages)) _ Hv); [|by intros [] w ->].
  intros b a b' Eb Hb. injection Eb as _ <-. injection Hb as _ Hb. by rewrite <- Hb.
Qed.
Lemma runs_start_cookie c (Q : unit → Control → Prop) : Q tt (c <| c_cookie := true |>) → runs c (modify (λ s, s <| t1_cookie_ ::= Timer_Start |>)) Q.
Proof using Type. intros HQ. eapply runs_modify; [|exact HQ]. intros s <-. unfold control. cbn. by rewrite timer_started. Qed.

Lemma maintains_HandleInitAck data : maintains (HandleInitAck data).
Proof using Type.
  apply maintains_chunk. intros chunk c Hc. apply runs_get. intros s Hs. state_of Hs. case_bool_decide as Ew; [|by apply runs_ret]. cbn [negb].
  destruct Hc; cbn in Ew; subst; try done. clear Hst. destruct (Parameters_get _ _ _) as [cookie| |]; [| |apply runs_terminate].
  - apply runs_quiet_bind; [auto with quiet|]. intros capabilities. eapply runs_then; [by apply runs_stop_init|]. do 2 (apply runs_quiet_bind; [auto with quiet|]; intros _).
    apply runs_quiet_bind; [auto with quiet|]. intros tie. eapply runs_then; [by apply runs_create|]. eapply runs_then; [by apply runs_SetState|].
    eapply runs_then; [by eapply runs_set_cookie|]. apply runs_quiet_bind; [auto with quiet|]. intros now. eapply runs_calm_bind; [done|auto with quiet|]. intros _.
    apply runs_start_cookie. constructor.
  - apply runs_quiet_bind; [auto with quiet|]. intros _. apply maintains_InternalClose. constructor.
Qed.

(** What is seen when a COOKIE ECHO goes on: with the block or without it. *)
Lemma runs_CookieEchoWithTCB header cookie c : socket_inv c → is_Some (c_tcb c) →
  runs c (HandleCookieEchoWithTCB header cookie) (λ go_on c', c' = c ∨ go_on = true ∧ c' = c <| c_tcb := None |>).
Proof using Type.
  intros Hc Hs. destruct (inv_some c Hc Hs) as [k Hv]. unfold HandleCookieEchoWithTCB. apply runs_get. intros s Hs'. eapply runs_the_tcb; [done|]. intros t. cbv zeta.
  assert (∀ (m : M Socket bool) P, runs (c <| c_tcb := None |>) m P → runs c (modify drop_tcb ;; m) P) as Hdrop.
  { intros m P H. apply (runs_then _ (c <| c_tcb := None |>)); [eapply runs_modify; [|done]|exact H]. by intros ? <-. }
  destruct (_ && _ && (_ =? tie_tag_ t)); [|destruct (_ && negb _); [apply Hdrop; apply runs_ret; auto|destruct (_ && _); apply runs_ret; auto]].
  destruct (decide _).
  - apply runs_quiet; [|auto]. apply quiet_bind; [auto with quiet|]; intros b. apply quiet_bind; [auto with quiet|]; intros causes.
    apply quiet_bind; [auto with quiet|]; intros b'. apply quiet_bind; [auto with quiet|]; intros _. apply quiet_bind; auto with quiet.
  - apply Hdrop. apply runs_quiet_bind; [auto with quiet|]. intros _. apply runs_ret. auto.
Qed.

(** The association is up after it, whatever there was. *)
Lemma runs_establish_up (b : TCB → M Socket Builder) c v : c_tcb c = Some v → (∀ t, quiet (b t)) →
  runs c (let! t := the_tcb in let! b := b t in let! now := sock_io Now in on_block (SendBufferedPacketsWith b now)) (λ _ c', c' = c).
Proof using Type.
  intros Hv Hb. eapply runs_the_tcb; [done|]. intros t. apply runs_quiet_bind; [apply Hb|]. intros b'. apply runs_quiet_bind; [auto with quiet|]. intros now.
  eapply runs_calm; [done|auto with quiet|done].
Qed.
Lemma runs_establish_kept cookie state init timer t2 k : runs (mkControl state init timer t2 (Some (k, []))) (establish cookie)
  (λ _ c', ∃ k, c' = mkControl kEstablished false false t2 (Some (k, []))).
Proof using Type.
  unfold establish. eapply runs_then; [by apply runs_stop_init|]. eapply runs_then; [by apply runs_stop_cookie|].
  apply runs_get. intros s Hs. state_of Hs. pose proof (f_equal c_tcb Hs) as Ht. cbn [c_tcb control set_field Control_eta] in Ht. destruct (tcb_ s) as [t|]; [|done]. clear Ht.
  apply (runs_bind _ _ _ (λ _ c', ∃ k, c' = mkControl kEstablished false false t2 (Some (k, [])))).
  - case_bool_decide as Ee; cbn [negb when]; [apply runs_ret; exists k; by rewrite Ee|]. eapply runs_then; [by eapply runs_set_cookie|].
    eapply runs_then; [by apply runs_SetState|]. apply runs_quiet; [auto with quiet|]. intros _. by eexists.
  - intros _ c' [k' ->]. apply runs_quiet_bind; [auto with quiet|]. intros _. eapply runs_mono; [eapply runs_establish_up; [done|auto with quiet]|].
    intros _ c' ->. by eexists.
Qed.
Lemma runs_establish_new cookie state init timer t2 : runs (mkControl state init timer t2 None) (establish cookie)
  (λ _ c', c' = mkControl kEstablished false false t2 (Some (None, []))).
Proof using Type.
  unfold establish. eapply runs_then; [by apply runs_stop_init|]. eapply runs_then; [by apply runs_stop_cookie|].
  apply runs_get. intros s Hs. state_of Hs. pose proof (f_equal c_tcb Hs) as Ht. cbn [c_tcb control set_field Control_eta] in Ht. destruct (tcb_ s) as [t|]; [done|]. clear Ht.
  apply (runs_then _ (mkControl kEstablished false false t2 None)).
  - case_bool_decide as Ee; cbn [negb when]; [apply runs_ret; by rewrite Ee|]. apply runs_quiet_bind; [auto with quiet|]. intros _.
    eapply runs_then; [by apply runs_SetState|]. apply runs_quiet; auto with quiet.
  - apply (runs_then _ (mkControl kEstablished false false t2 (Some (None, [])))); [|by eapply runs_establish_up; auto with quiet].
    apply runs_quiet_bind; [auto with quiet|]. intros _. apply runs_quiet_bind; [auto with quiet|]. intros tie. by apply runs_create.
Qed.
Lemma runs_establish c cookie : c_tcb c = None ∨ (∃ k, c_tcb c = Some (k, [])) → runs c (establish cookie) (λ _, socket_inv).
Proof using Type.
  destruct c as [st i0 k0 t2 v]. cbn. intros [->|[k ->]]; eapply runs_mono; [apply runs_establish_new| |apply runs_establish_kept|].
  - intros _ c' ->. by constructor.
  - intros _ c' [k' ->]. by constructor.
Qed.

Lemma maintains_HandleCookieEcho header data : maintains (HandleCookieEcho header data).
Proof using Type.
  apply maintains_chunk. intros chunk. destruct (Cookie_Deserialize chunk) as [cookie|]; [|auto using maintains_quiet with quiet].
  intros c Hc. apply runs_get. intros s Hs. apply (runs_bind _ _ _ (λ go_on c', c' = c ∨ go_on = true ∧ c' = c <| c_tcb := None |>)).
  - apply runs_if_tcb; [done|intros t Ht; apply runs_CookieEchoWithTCB; [done|by rewrite Ht]|]. intros _. apply runs_quiet; auto with quiet.
  - intros [] c' [->|[Hg ->]]; try done; cbn [when]; [|apply runs_establish; by left|by apply runs_ret].
    apply runs_establish. destruct (c_tcb c) as [v|] eqn:Ev; [|by left]. right. rewrite <- Ev. apply inv_some; [done|by rewrite Ev].
Qed.

Lemma maintains_HandleCookieAck data : maintains (HandleCookieAck data).
Proof using Type.
  apply maintains_chunk. intros _ c Hc. apply runs_get. intros s Hs. state_of Hs. case_bool_decide as Ee; [|by apply runs_ret]. cbn [when].
  destruct Hc; cbn in Ee; subst; try done. eapply runs_then; [by apply runs_stop_cookie|]. eapply runs_then; [by eapply runs_set_cookie|].
  eapply runs_then; [by apply runs_SetState|]. apply runs_quiet_bind; [auto with quiet|]. intros now. eapply runs_calm_bind; [done|auto with quiet|]. intros _.
  apply runs_quiet; [auto with quiet|]. intros _. by constructor.
Qed.

Lemma runs_MaybeShutdown c : socket_inv c → is_Some (c_tcb c) → runs c MaybeSendShutdownOrAck (λ _ c', socket_inv c' ∧ is_Some (c_tcb c')).
Proof using Type.
  intros Hc [v Hv]. destruct Hc as [| |k|st t2 k Ho|st k Hk]; try done; [|by apply runs_MaybeSendShutdownOrAck|].
  all: unfold MaybeSendShutdownOrAck; run; try by split; [constructor|]. all: destruct st; try done; apply runs_ret; by split; [constructor|].
Qed.
End Handshakes.

(** ** The other chunks, and packets *)

Section Dispatch.
Context {E : Endpoint}.

Lemma maintains_HandleSack data : maintains (HandleSack data).
Proof using Type.
  apply maintains_chunk_and_tcb. intros chunk c Hc Hs. destruct (inv_some c Hc Hs) as [k Hv]. apply runs_quiet_bind; [auto with quiet|]. intros now.
  eapply runs_calm_bind; [done|auto with quiet|]. intros [|]; [|by apply runs_ret]. cbn [when].
  eapply runs_bind; [by apply runs_MaybeShutdown|]. cbn. intros _ c' [Hc' [v Hv']]. eapply runs_calm_bind; [done|auto with quiet|]. intros _.
  eapply runs_calm; [done|auto with quiet|done].
Qed.
Lemma maintains_HandleAbort data : maintains (HandleAbort data).
Proof using Type.
  apply maintains_chunk. intros chunk. apply maintains_bind; [auto using maintains_quiet with quiet|]. intros causes. apply maintains_if_tcb; [auto with quiet|].
  intros _ c Hc _. by apply maintains_InternalClose.
Qed.
Lemma maintains_HandleError data : maintains (HandleError data).
Proof using Type.
  apply maintains_chunk. intros chunk. apply maintains_bind; [auto using maintains_quiet with quiet|]. intros causes. apply maintains_if_tcb; [auto with quiet|].
  intros _ c Hc _. apply runs_quiet; auto with quiet.
Qed.

Lemma maintains_HandleShutdown data : maintains (HandleShutdown data).
Proof using Type.
  apply maintains_chunk. intros _ c Hc. apply runs_get. intros s Hs. state_of Hs.
  destruct Hc as [| |k|st t2 k Ho|st k Hk]; cbn [c_state]; try (apply runs_ret; by constructor); destruct st; try done; try (apply runs_ret; by constructor).
  - apply (runs_then _ (mkControl kShutdownReceived false false t2 (Some (k, [])))); [by apply runs_SetState|]. by apply maintains_MaybeSendShutdownOrAck.
  - apply (runs_then _ (mkControl kShutdownReceived false false t2 (Some (k, [])))); [by apply runs_SetState|]. by apply maintains_MaybeSendShutdownOrAck.
  - apply (runs_then _ (mkControl kShutdownSent false false true (Some (k, [])))); [by eapply runs_SendShutdownAck|]. apply runs_SetState. by constructor.
Qed.
Lemma maintains_HandleShutdownAck header data : maintains (HandleShutdownAck header data).
Proof using Type.
  apply maintains_chunk. intros _ c Hc. apply runs_get. intros s Hs. state_of Hs. assert (∀ tag b, runs c (send_chunk tag b) (λ _, socket_inv)) as Hq by (intros; by apply runs_quiet; auto with quiet).
  destruct Hc as [| |k|st t2 k Ho|st k Hk]; cbn [c_state]; try apply Hq; destruct st; try done; try apply Hq.
  all: run; apply maintains_InternalClose; by constructor.
Qed.
Lemma maintains_HandleShutdownComplete data : maintains (HandleShutdownComplete data).
Proof using Type. apply maintains_chunk. intros _ c Hc. apply runs_get. intros s Hs. destruct (bool_decide _); [by apply maintains_InternalClose|by apply runs_ret]. Qed.
Lemma quiet_Unrecognized d : quiet (HandleUnrecognizedChunk d).
Proof using Type.
  apply quiet_bind; [|auto with quiet]. apply quiet_when, quiet_bind; [auto with quiet|]. intros _. apply quiet_get. intros s. destruct (tcb_ s); [apply quiet_error|done].
Qed.

Lemma maintains_true (m : M Socket unit) : maintains m → maintains (m ;; ret true).
Proof using Type. intros H. apply maintains_bind; [done|]. intros _. apply maintains_quiet, quiet_ret. Qed.
Lemma maintains_Dispatch header d : maintains (Dispatch header d).
Proof using Type.
  unfold Dispatch. cbv zeta.
  repeat match goal with |- maintains (match ?x with _ => _ end) => destruct x end; try apply maintains_quiet, quiet_Unrecognized; apply maintains_true.
  all: try apply maintains_HandleSack; try apply maintains_chunk_and_tcb; intros.
  all: try (apply maintains_HandleDataCommon || apply maintains_HandleForwardTsnCommon || (apply maintains_calm; solve [auto with quiet])).
  all: auto using maintains_HandleInit, maintains_HandleInitAck, maintains_HandleSack, maintains_HandleAbort, maintains_HandleShutdown, maintains_HandleShutdownAck, maintains_HandleError,
    maintains_HandleCookieEcho, maintains_HandleCookieAck, maintains_HandleShutdownComplete, maintains_HandleReconfig.
Qed.
Lemma maintains_dispatch_all header descs : maintains (dispatch_all header descs).
Proof using Type.
  induction descs as [|d descs IH]; [apply maintains_quiet, quiet_ret|]. apply maintains_bind; [apply maintains_Dispatch|]. intros []; [apply IH|apply maintains_quiet, quiet_ret].
Qed.

Lemma quiet_tag_matches tag d : quiet (tag_matches tag d).
Proof using Type.
  apply quiet_get. intros s. destruct (t_bit d); cbn [andb negb]; [|by destruct (_ =? _)]. case_bool_decide as Ht; cbn [negb]; [|done].
  destruct Ht as [t Ht]. unfold safely, the_tcb. cbn. by rewrite Ht.
Qed.
Lemma quiet_in_bounds {A} (p : option A) : quiet (in_bounds p).
Proof using Type. by destruct p; intros s. Qed.
Hint Resolve quiet_tag_matches quiet_in_bounds : quiet.
Lemma quiet_ValidatePacket packet : quiet (ValidatePacket packet).
Proof using Type.
  apply quiet_get. intros s. cbv zeta. destruct (_ =? _); [by apply quiet_accept|]. match goal with |- safely ?m _ _ => assert (quiet m) as H; [|apply H] end.
  apply quiet_bind; [auto with quiet|]. intros first. repeat case_match; auto with quiet; apply quiet_bind; auto with quiet.
Qed.
Lemma maintains_MaybeSendShutdownOnPacketReceived packet : maintains (MaybeSendShutdownOnPacketReceived packet).
Proof using Type.
  intros c Hc. apply runs_get. intros s Hs. state_of Hs. case_bool_decide as Es; [|by apply runs_ret]. destruct (existsb _ _); [|by apply runs_ret]. cbn [andb when].
  destruct Hc as [| |k|st t2 k Ho|st k Hk]; cbn in Es; subst; try done. apply (runs_then _ (mkControl kShutdownSent false false true (Some (k, [])))); [by eapply runs_SendShutdown|]. eapply runs_start_t2; [done|]. by constructor.
Qed.
Lemma maintains_ReceivePacket data : maintains (ReceivePacket data).
Proof using Type.
  apply maintains_bind; [auto using maintains_quiet with quiet|]. intros _. destruct (SctpPacket_Parse _ _ _) as [packet| |]; try (auto using maintains_quiet with quiet; fail).
  apply maintains_bind; [apply maintains_quiet, quiet_ValidatePacket|]. intros ok. apply maintains_when, maintains_bind; [apply maintains_MaybeSendShutdownOnPacketReceived|]. intros _.
  apply maintains_bind; [apply maintains_dispatch_all|]. intros _. apply maintains_if_tcb; [auto with quiet|]. intros _. apply maintains_calm. calm.
Qed.
End Dispatch.

(** ** Timers *)

Lemma Trigger_before_running id t t' : Trigger_before id t = Some t' → is_running_ t = true.
Proof. unfold Trigger_before. destruct (timeout_ t) as [[d a]|]; [destruct (a =? id)|]; cbn; by destruct (is_running_ t). Qed.
Lemma Trigger_after_running d t : is_running_ (Trigger_after d t) = is_running_ t.
Proof. unfold Trigger_after. destruct (_ && _); [|done]. cbn. by destruct (is_running_ t) eqn:E. Qed.

(** A timer of the socket expires: its callback runs with the timer started again or not. *)
Lemma runs_expire (timer : Socket → Timer) set_timer running set_running id (m : M Socket Z) c (Q : Control → Prop) :
  (∀ s, running (control s) = is_running_ (timer s)) → (∀ x s, control (set_timer x s) = set_running (is_running_ x) (control s)) →
  (∀ c, set_running (running c) c = c) → Q c → (running c = true → ∀ r, runs (set_running r c) m (λ _, Q)) →
  runs c (expire timer set_timer id m) (λ _, Q).
Proof.
  intros Hr Hset Hid HQ Hm. unfold expire. apply runs_get. intros s Hs. destruct (Trigger_before id (timer s)) as [t|] eqn:Et; [|by apply runs_ret].
  apply Trigger_before_running in Et. rewrite <- Hr, Hs in Et.
  apply (runs_then _ (set_running (is_running_ t) c)); [eapply runs_modify; [|done]; intros s' <-; apply Hset|].
  eapply runs_bind; [by apply Hm|]. cbn. intros d c' HQ' s' <-. apply safely_modify. by rewrite Hset, Trigger_after_running, <- Hr, Hid.
Qed.

Section Timers.
Context {E : Endpoint}.

Lemma maintains_trigger_init id : maintains (expire t1_init_ (λ x s, s <| t1_init_ := x |>) id OnInitTimerExpiry).
Proof using Type.
  intros c Hc. apply (runs_expire _ _ c_init (λ r c, c <| c_init := r |>)); try done; [by intros []|]. intros Hr r. unfold OnInitTimerExpiry. apply runs_get. intros s Hs.
  apply (f_equal c_init) in Hs. cbn in Hs. rewrite Hs. eapply runs_bind; [|intros a c' H; exact (runs_ret 0 c' _ H)]. destruct Hc; cbn in Hr; try done.
  destruct r; [apply runs_quiet; auto with quiet; intros; constructor|].
  eapply runs_mono; [apply runs_InternalClose|]. cbn. intros _ c' ->. constructor.
Qed.
Lemma maintains_trigger_cookie id : maintains (expire t1_cookie_ (λ x s, s <| t1_cookie_ := x |>) id OnCookieTimerExpiry).
Proof using Type.
  intros c Hc. apply (runs_expire _ _ c_cookie (λ r c, c <| c_cookie := r |>)); try done; [by intros []|]. intros Hr r. unfold OnCookieTimerExpiry. apply runs_get. intros s Hs.
  apply (f_equal c_cookie) in Hs. cbn in Hs. rewrite Hs. eapply runs_bind; [|intros a c' H; exact (runs_ret 0 c' _ H)]. destruct Hc; cbn in Hr; try done.
  destruct r.
  - apply runs_quiet_bind; [auto with quiet|]. intros now. eapply runs_calm; [done|auto with quiet|constructor].
  - eapply runs_mono; [apply runs_InternalClose|]. cbn. intros _ c' ->. constructor.
Qed.
Lemma maintains_trigger_shutdown id : maintains (expire t2_shutdown_ (λ x s, s <| t2_shutdown_ := x |>) id OnShutdownTimerExpiry).
Proof using Type.
  intros c Hc. apply (runs_expire _ _ c_shutdown (λ r c, c <| c_shutdown := r |>)); try done; [by intros []|]. intros Hr r. unfold OnShutdownTimerExpiry. apply runs_get. intros s Hs.
  apply (f_equal c_shutdown) in Hs. cbn in Hs. rewrite Hs.
  assert (∃ state k, c = mkControl state false false true (Some (k, [])) ∧ state ≠ kClosed) as (state & k & -> & Hst)
    by (destruct Hc; cbn in Hr; subst; try done; destruct state; try done; by eexists _, _).
  eapply runs_the_tcb; [done|]. intros t. destruct r; cbn [negb].
  - eapply runs_bind; [by eapply (runs_SendShutdown _ _ (λ _ c', c' = _))|]. intros _ c' ->. by apply runs_ret.
  - apply runs_quiet_bind; [auto with quiet|]. intros _. eapply runs_bind; [apply runs_InternalClose|]. cbn. intros _ c' ->. apply runs_ret.
    rewrite decide_False by done. constructor.
Qed.

Lemma maintains_block_timer (timer : Block → Timer) set_timer id (m : M Block Z) : (∀ x b, block_view (tcb (set_timer x b)) = block_view (tcb b)) → calm m →
  maintains_with_tcb (on_block (expire timer set_timer id m)).
Proof using Type. intros H Hm. by apply maintains_calm, calm_expire. Qed.
Lemma maintains_trigger id : maintains (trigger id).
Proof using Type.
  intros c Hc. unfold trigger. apply runs_get. intros s Hs. cbv zeta.
  destruct (id_ (t1_init_ s) =? _); [by apply maintains_trigger_init|]. destruct (id_ (t1_cookie_ s) =? _); [by apply maintains_trigger_cookie|].
  destruct (id_ (t2_shutdown_ s) =? _); [by apply maintains_trigger_shutdown|]. apply runs_if_tcb; [done| |intros _; by apply runs_ret]. intros t Ht.
  assert (is_Some (c_tcb c)) as Hs' by (by rewrite Ht).
  repeat (destruct (_ =? _); [by (apply maintains_block_timer; auto with quiet; calm)|]). by apply runs_ret.
Qed.

Lemma maintains_TooManyErrors : maintains_with_tcb CloseConnectionBecauseOfTooManyTransmissionErrors.
Proof using Type.
  intros c Hc [v Hv]. eapply runs_the_tcb; [done|]. intros t. apply runs_quiet_bind; [auto with quiet|]. intros _. by apply maintains_InternalClose.
Qed.
Lemma maintains_HandleTimeout id : maintains (socket_HandleTimeout id).
Proof using Type.
  apply maintains_bind; [apply maintains_trigger|]. intros _. apply maintains_if_tcb; [auto with quiet|]. intros t. destruct (HasTooManyTxErrors t); [apply maintains_TooManyErrors|].
  intros c Hc _. by apply runs_ret.
Qed.

(** ** Handover *)

Lemma maintains_GetHandoverStateAndClose : maintains GetHandoverStateAndClose.
Proof using Type.
  intros c Hc. apply runs_get. intros s Hs. state_of Hs. destruct (negb _); [by apply runs_ret|].
  destruct (decide (c_state c = kEstablished)) as [Ee|Ee]; [rewrite Ee|destruct (c_state c); try done; by apply runs_ret].
  destruct Hc; cbn in Ee; subst; try done. eapply runs_the_tcb; [done|]. intros t. cbv zeta. eapply runs_bind; [apply maintains_InternalClose; by constructor|].
  cbn. intros a c' Hc'. by apply runs_ret.
Qed.
Lemma maintains_RestoreFromState state : maintains (socket_RestoreFromState state).
Proof using Type.
  intros c Hc. apply runs_get. intros s Hs. state_of Hs. case_bool_decide as Ec; cbn [negb]; [|apply runs_quiet; auto with quiet].
  destruct state as [state|]; [|by apply runs_ret]. destruct Hc; cbn in Ec; subst; try done.
  do 2 (apply runs_quiet_bind; [auto with quiet|]; intros _). eapply runs_then; [by apply runs_create|].
  apply (runs_then _ (mkControl kClosed false false false (Some (None, [])))).
  - eapply (runs_calm _ (None, [])); [done| |done]. by apply calm_tcb.
  - eapply runs_then; [by apply runs_SetState|]. apply runs_quiet; [auto with quiet|]. intros _. by constructor.
Qed.
End Timers.
