(* ===== verification/SocketHistory.v ===== *)
(** * Histories of an SCTP socket

    All the sequences of calls, packets and timeouts that a socket can see, and what holds
    throughout; and a connection of two sockets as an example. *)

From S2P Require Import Prelude SeqNum SctpTimer SctpWire SctpPacket ReConfig DataTracker Reassembly ReassemblyQueue.
From S2P Require Import SendQueue OutstandingData RetransmissionQueue RRSendQueue StreamReset ControlWire ControlBlock Socket SocketInvariant.
Open Scope Z_scope.

(** What the application and the network do to a socket. *)
Inductive SocketCall :=
| CallConnect
| CallShutdown
| CallClose
| CallSend (message : DcSctpMessage) (o : SendOptions)
| CallSendMany (messages : list DcSctpMessage) (o : SendOptions)
| CallResetStreams (streams : list Z)
| CallSetMaxMessageSize (bytes : Z)
| CallSetStreamPriority (stream_id priority : Z)
| CallSetBufferedAmountLowThreshold (stream_id bytes : Z)
| CallReceivePacket (data : list Z)
| CallHandleTimeout (timeout_id : Z)
| CallGetHandoverStateAndClose
| CallRestoreFromState (state : option HandoverState).

Section Histories.
Context {E : Endpoint}.

Definition perform (call : SocketCall) : M Socket unit :=
  match call with
  | CallConnect => Connect
  | CallShutdown => Shutdown
  | CallClose => Close
  | CallSend message o => Send message o ;; ret tt
  | CallSendMany messages o => SendMany messages o ;; ret tt
  | CallResetStreams streams => ResetStreams streams ;; ret tt
  | CallSetMaxMessageSize bytes => SetMaxMessageSize bytes
  | CallSetStreamPriority stream_id priority => socket_SetStreamPriority stream_id priority
  | CallSetBufferedAmountLowThreshold stream_id bytes => socket_SetBufferedAmountLowThreshold stream_id bytes
  | CallReceivePacket data => ReceivePacket data
  | CallHandleTimeout timeout_id => socket_HandleTimeout timeout_id
  | CallGetHandoverStateAndClose => GetHandoverStateAndClose ;; ret tt
  | CallRestoreFromState state => socket_RestoreFromState state
  end.

Inductive reachable : Socket → Prop :=
| reachable_new max_message_size : reachable (DcSctpSocket_new max_message_size)
| reachable_call s call s' : reachable s → perform call s = Ret tt s' → reachable s'.

Lemma maintains_perform call : maintains (perform call).
Proof using Type.
  destruct call; cbn [perform]; try (apply maintains_bind; [|intros; apply maintains_quiet, quiet_ret]).
  all: auto using maintains_Connect, maintains_Shutdown, maintains_Close, maintains_Send, maintains_SendMany, maintains_ResetStreams, maintains_ReceivePacket,
    maintains_HandleTimeout, maintains_GetHandoverStateAndClose, maintains_RestoreFromState.
  all: apply maintains_quiet; try apply quiet_on_send_queue. by apply quiet_modify.
Qed.
Lemma reachable_inv s : reachable s → socket_inv (control s).
Proof using Type.
  induction 1 as [|s call s' _ IH Ec]; [constructor|]. pose proof (maintains_perform call _ IH s eq_refl) as H. unfold safely in H. by rewrite Ec in H.
Qed.

(** The invariant says what [IsConsistent] checks. *)
Lemma inv_IsConsistent s : socket_inv (control s) → Socket.IsConsistent s = negb (is_open (state_ s) && is_running_ (t2_shutdown_ s)).
Proof using Type.
  unfold Socket.IsConsistent. generalize (eq_refl (control s)). generalize (control s) at 2 3. intros c Ec Hc. unfold control in Ec.
  destruct Hc as [| |cookie|st t2 cookie Ho|st cookie Ho]; injection Ec as Es Ei Ek E2 Et; destruct (tcb_ s) as [t|]; try done; rewrite Es, Ei, Ek, E2; try done.
  all: cbn in Et; injection Et as Ecookie Em; unfold HasMessages, has_cookie_echo_chunk; rewrite ?Ecookie, Em, (bool_decide_true ([] = [])) by done.
  all: clear Es; try destruct st; try done; by destruct t2.
Qed.

(** C5: What the state machine relies on, whatever the calls, the packets and the order of the
    timeouts are: the state is what [IsConsistent] checks, except that the timer of the shutdown
    may run in an open state; and no call follows [tcb_] while it is null. *)
Theorem socket_invariant s : reachable s →
  Socket.IsConsistent s = negb (is_open (state_ s) && is_running_ (t2_shutdown_ s))
  ∧ (is_Some (tcb_ s) ↔ state_ s ≠ kClosed ∧ state_ s ≠ kCookieWait)
  ∧ ∀ call s', perform call s = Undef NullDeref s' → is_Some (tcb_ s').
Proof using Type.
  intros Hr. apply reachable_inv in Hr as Hi. split_and!; [by apply inv_IsConsistent| |].
  - unfold control in Hi. inversion Hi as [E1|E1|k E1|st t2 k Ho E1|st k Ho E1]; destruct (tcb_ s); try done; split; try done; try (by intros []).
    all: intros _; split; by intros E0; rewrite E0 in *; subst.
  - intros call s' Ec. pose proof (maintains_perform call _ Hi s eq_refl) as H. unfold safely in H. by rewrite Ec in H.
Qed.

Lemma inv_closing_view c : socket_inv c → is_closing (c_state c) = true → ∃ k, c = mkControl (c_state c) false false true (Some (k, [])).
Proof using Type. intros [| |k|state t2 k Ho|state k Ho] Hc; try done; [by destruct state|by eexists]. Qed.

(** A COOKIE ECHO that fits both tags, as a duplicate of the one that set the association up
    does, while the shutdown is going on: the association is open again, with the timer of the
    shutdown still running, and [IsConsistent] fails. *)
Theorem cookie_echo_reopens header data chunk cookie s t s' : reachable s → is_closing (state_ s) = true → tcb_ s = Some t →
  CookieEchoChunk_Parse data = Parsed chunk → Cookie_Deserialize chunk = Some cookie →
  verification_tag header = my_verification_tag_ t → cookie_peer_tag cookie = peer_verification_tag_ t →
  HandleCookieEcho header data s = Ret tt s' →
  state_ s' = kEstablished ∧ is_running_ (t2_shutdown_ s') = true ∧ Socket.IsConsistent s' = false.
Proof using Type.
  intros Hr Hcl Ht Hp Hd Hmine Hpeer Hrun. apply reachable_inv in Hr.
  destruct (inv_closing_view _ Hr Hcl) as [k Hk]. cbn [c_state control] in Hk.
  pose proof (runs_establish_kept cookie (state_ s) false false true k s Hk) as He. unfold safely in He.
  assert (HandleCookieEcho header data s = establish cookie s) as Es.
  { unfold HandleCookieEcho, with_chunk. rewrite Hp, Hd. unfold bind, get. rewrite Ht. unfold HandleCookieEchoWithTCB, the_tcb, bind, get. rewrite Ht. cbn [deref ret].
    by rewrite Hmine, Hpeer, !Z.eqb_refl. }
  rewrite <- Es, Hrun in He. destruct He as [k' He].
  assert (state_ s' = kEstablished ∧ is_running_ (t2_shutdown_ s') = true) as [E1 E2] by (by injection He).
  split_and!; [done..|]. rewrite inv_IsConsistent, E1, E2; [done|]. rewrite He. by constructor.
Qed.

(** *** The verification tag *)

(** The packet is counted, and dropped with an error. *)
Definition dropped (s : Socket) : Socket :=
  s <| metrics_ ::= (λ m, m <| rx_packets_count := wrap 64 (rx_packets_count m + 1) |>) |>
    <| sock_io_ ::= (λ i, i <| trace_ ::= cons (OnError kParseFailed []) |>) |>.
(** The packets whose tag is not compared with the own one. *)
Definition special (packet : SctpPacket) : bool :=
  match descriptors_ packet with
  | d :: rest => (desc_type d =? kType InitAckChunkConfig) || (desc_type d =? kType CookieEchoChunkConfig)
      || bool_decide (rest = []) && ((desc_type d =? kType AbortChunkConfig) || (desc_type d =? kType ShutdownCompleteChunkConfig)) && t_bit d
  | [] => true
  end.

Lemma ValidatePacket_wrong packet s : verification_tag (common_header_ packet) ≠ 0 → verification_tag (common_header_ packet) ≠ socket_verification_tag s →
  special packet = false → ValidatePacket packet s = accept_if false s.
Proof using Type.
  intros H0 Htag%Z.eqb_neq Hsp. unfold special in Hsp. unfold ValidatePacket, bind, get. destruct (descriptors_ packet) as [|d rest]; [done|].
  apply orb_false_elim in Hsp as [[Hia Hce]%orb_false_elim Hb]. rewrite (proj2 (Z.eqb_neq _ _) H0). cbn [head in_bounds ret]. rewrite Hia, Hce, Htag.
  destruct rest as [|d' rest]; [|done]. rewrite bool_decide_true in Hb by done.  unfold tag_matches, bind, get.
  destruct (desc_type d =? kType AbortChunkConfig); [|destruct (desc_type d =? kType ShutdownCompleteChunkConfig); [|done]]; cbn in Hb; by rewrite Hb, Htag.
Qed.

(** C8: A packet with a tag that is neither zero nor the own one changes nothing, whatever its
    chunks are; the exceptions are those of RFC 4960: an INIT ACK, a COOKIE ECHO, and an ABORT
    or a SHUTDOWN COMPLETE with the T bit. *)
Theorem wrong_tag_ignored data packet s : SctpPacket_Parse env_crc data (packet_options options) = Parsed packet →
  verification_tag (common_header_ packet) ≠ 0 → verification_tag (common_header_ packet) ≠ socket_verification_tag s → special packet = false →
  ReceivePacket data s = Ret tt (dropped s).
Proof using Type.
  intros Hp H0 Htag Hsp. unfold ReceivePacket. rewrite Hp. unfold bind at 1, modify at 1. unfold bind at 1. by rewrite ValidatePacket_wrong.
Qed.

(** C9: But the tag of a packet is not compared either for the chunks after a COOKIE ECHO: a cookie
    that cannot be read, and then an ABORT, closes the association, with any tag but zero. *)
Theorem cookie_echo_bypasses_tag data packet echo abort chunk reason s t : SctpPacket_Parse env_crc data (packet_options options) = Parsed packet →
  descriptors_ packet = [echo; abort] → verification_tag (common_header_ packet) ≠ 0 → desc_type echo = kType CookieEchoChunkConfig →
  CookieEchoChunk_Parse (desc_data echo) = Parsed chunk → Cookie_Deserialize chunk = None → desc_type abort = kType AbortChunkConfig → AbortChunk_Parse (desc_data abort) = Parsed reason →
  tcb_ s = Some t → state_ s ≠ kClosed →
  ∃ s', ReceivePacket data s = Ret tt s' ∧ state_ s' = kClosed ∧ tcb_ s' = None.
Proof using Type.
  intros Hp Hd H0 He Hr Hc Ha Hab Ht Hs. destruct (abort_causes_printed _ _ Hab) as [causes Hcauses].
  unfold ReceivePacket. rewrite Hp. unfold bind at 1, modify at 1. set (s1 := s <| metrics_ ::= _ |>).
  assert (ValidatePacket packet s1 = Ret true s1) as Hv.
  { unfold ValidatePacket, bind, get. rewrite Hd, (proj2 (Z.eqb_neq _ _) H0). cbn [head in_bounds ret]. by rewrite He. }
  assert (MaybeSendShutdownOnPacketReceived packet s1 = Ret tt s1) as Hm.
  { unfold MaybeSendShutdownOnPacketReceived, bind, get. rewrite Hd. cbn [existsb]. rewrite He, Ha. by destruct (bool_decide _). }
  rewrite (bind_ret _ _ _ _ _ Hv). cbn [when]. rewrite (bind_ret _ _ _ _ _ Hm).
  assert (∃ s', dispatch_all (common_header_ packet) (descriptors_ packet) s1 = Ret tt s' ∧ state_ s' = kClosed ∧ tcb_ s' = None) as (s' & Hdis & Hs' & Ht').
  { rewrite Hd. cbn [dispatch_all]. unfold Dispatch. rewrite He, Ha. cbn [kType CookieEchoChunkConfig AbortChunkConfig].
    unfold HandleCookieEcho, HandleAbort, with_chunk. rewrite Hr, Hc, Hab. unfold checked. rewrite Hcauses. unfold bind, get, report, sock_io, callback, modify, lift, ret, when, s1. cbn.
    unfold InternalClose, bind, get. cbn. rewrite Ht. cbn. rewrite bool_decide_false by done. by eexists. }
  rewrite (bind_ret _ _ _ _ _ Hdis). unfold bind, get. rewrite Ht'. by eexists.
Qed.
End Histories.

(** ** Two sockets *)

Module Sample.
Definition sample_options : SctpOptions :=
  mkSctpOptions 5000 5000 65535 65535 1191 256 (5 * 1024 * 1024) 2000000 2000000 1800000 60000 500 60000 400 1000 1000 1000 None 30000 200 220 10 4 4
    (Some 10) (Some 8) true false true false 0.
#[export] Instance sample_endpoint : Endpoint := {|
  options := sample_options;
  env_crc := fold_right Z.add 0;
  env_now := λ n, 1000000 + 1000 * Z.of_nat n;
  env_random := λ n low high, Z.min (low + 17 + Z.of_nat n) high;
  env_send := λ _ _, kSuccess
|}.

(** A history from a new socket. *)
Fixpoint history (calls : list SocketCall) (s : Socket) : option Socket :=
  match calls with
  | [] => Some s
  | call :: calls' => match perform call s with Ret _ s' => history calls' s' | _ => None end
  end.
Definition socket_after (calls : list SocketCall) : Socket := default (DcSctpSocket_new 0) (history calls (DcSctpSocket_new 262144)).
(** The packet that was sent last. *)
Definition last_packet (s : Socket) : list Z :=
  default [] (head (omap (λ e, match e with SentPacket data _ => Some data | _ => None end) (trace_ (sock_io_ s)))).

Definition init_packet : list Z := last_packet (socket_after [CallConnect]).
Definition init_ack_packet : list Z := last_packet (socket_after [CallReceivePacket init_packet]).
Definition cookie_echo_packet : list Z := last_packet (socket_after [CallConnect; CallReceivePacket init_ack_packet]).
Definition server_up : list SocketCall := [CallReceivePacket init_packet; CallReceivePacket cookie_echo_packet].
(** The passive side, connected and then shutting down. *)
Definition server_down : Socket := socket_after (server_up ++ [CallShutdown]).

Lemma history_reachable calls s : reachable s → reachable (default s (history calls s)).
Proof.
  revert s. induction calls as [|call calls IH]; intros s Hs; [done|]. cbn [history]. destruct (perform call s) as [[] s'| | |] eqn:Ep; try done.
  assert (reachable s') as Hs' by (by econstructor). apply IH in Hs'. by destruct (history calls s').
Qed.
Lemma socket_after_reachable calls : reachable (socket_after calls).
Proof.
  unfold socket_after. destruct (history calls (DcSctpSocket_new 262144)) as [s|] eqn:Eh; [|constructor].
  change s with (default (DcSctpSocket_new 262144) (Some s)). rewrite <- Eh. apply history_reachable. constructor.
Qed.
End Sample.
Import Sample.

Lemma socket_invariant_witness : state_ server_down = kShutdownSent ∧ Socket.IsConsistent server_down = true.
Proof.
  split; [by vm_compute|]. destruct (socket_invariant server_down (socket_after_reachable _)) as [H _]. rewrite H. by vm_compute.
Defined.

Definition duplicate_cookie : list Z := match CookieEchoChunk_Parse (drop 12 cookie_echo_packet) with Parsed c => c | _ => [] end.
Definition duplicate_header : CommonHeader := mkCommon 5000 5000 (socket_verification_tag server_down) 0.
Definition reopened : Socket := match HandleCookieEcho duplicate_header (drop 12 cookie_echo_packet) server_down with Ret _ s => s | _ => server_down end.

Lemma cookie_echo_reopens_witness : state_ server_down = kShutdownSent ∧ state_ reopened = kEstablished ∧ Socket.IsConsistent reopened = false.
Proof.
  split; [by vm_compute|]. destruct (tcb_ server_down) as [t|] eqn:Et; [|exfalso; revert Et; by vm_compute].
  destruct (Cookie_Deserialize duplicate_cookie) as [cookie|] eqn:Ec; [|exfalso; revert Ec; by vm_compute].
  destruct (cookie_echo_reopens duplicate_header (drop 12 cookie_echo_packet) duplicate_cookie cookie server_down t reopened) as (H1 & _ & H2); [..|exact (conj H1 H2)].
  - apply socket_after_reachable.
  - by vm_compute.
  - exact Et.
  - by vm_compute.
  - exact Ec.
  - unfold duplicate_header, socket_verification_tag. rewrite Et. exact eq_refl.
  - assert (option_map cookie_peer_tag (Cookie_Deserialize duplicate_cookie) = option_map peer_verification_tag_ (tcb_ server_down)) as H by (by vm_compute).
    rewrite Ec, Et in H. by injection H.
  - by vm_compute.
Defined.

(** Packets of a third party, who does not know the tag. *)
Definition forge (tag : Z) (chunks : list (list Z → list Z)) : list Z :=
  match foldl (λ b c, b ≫= (λ b, match Builder_Add (total c) b with Parsed b' => Some b' | _ => None end)) (Some (NewBuilder tag)) chunks with
  | Some b => (Builder_Build env_crc true b).1
  | None => []
  end.
Definition forged_packet (data : list Z) : SctpPacket :=
  match SctpPacket_Parse env_crc data (packet_options options) with Parsed p => p | _ => SctpPacket.mkPacket (mkCommon 0 0 0 0) [] [] end.
Definition server : Socket := socket_after server_up.
Definition forged_shutdown : list Z := forge 99 [ShutdownChunk_SerializeTo 5].
Definition forged_abort : list Z := forge 99 [CookieEchoChunk_SerializeTo []; AbortChunk_SerializeTo (mkAbort true [])].

Lemma wrong_tag_ignored_witness : state_ server = kEstablished ∧ ReceivePacket forged_shutdown server = Ret tt (dropped server).
Proof. split; [by vm_compute|]. apply (wrong_tag_ignored forged_shutdown (forged_packet forged_shutdown)); by vm_compute. Defined.
Lemma cookie_echo_bypasses_tag_witness : state_ server = kEstablished ∧ socket_verification_tag server ≠ 99
  ∧ ∃ s', ReceivePacket forged_abort server = Ret tt s' ∧ state_ s' = kClosed ∧ tcb_ s' = None.
Proof.
  split; [by vm_compute|]. split; [by vm_compute|]. destruct (tcb_ server) as [t|] eqn:Et; [|exfalso; revert Et; by vm_compute].
  refine (cookie_echo_bypasses_tag forged_abort (forged_packet forged_abort) (mkDesc 10 0 [10; 0; 0; 4]) (mkDesc 6 0 [6; 0; 0; 4]) [] (mkAbort true []) server t _ _ _ _ _ _ _ _ Et _);
    by vm_compute.
Defined.
