(* ===== verification/Handshake.v ===== *)
(** * The handshake of an association

    Two sockets connect: the four packets that they exchange, byte by byte, take both from
    closed to established, with the tags, the sequence numbers and the capabilities of one the
    mirror image of those of the other. *)

From S2P Require Import Prelude SeqNum SctpTimer SctpWire SctpPacket ReConfig DataTracker Reassembly ReassemblyQueue.
From S2P Require Import SendQueue OutstandingData RetransmissionQueue RRSendQueue StreamReset ControlWire ControlBlock Socket SocketInvariant SocketHistory.
Open Scope Z_scope.

(** ** A packet of one chunk *)

(** The type and the flags that a packet gives for a chunk are those of its bytes. *)
Definition header_read (d : ChunkDescriptor) : Prop := desc_type d = Load8 0 (desc_data d) ∧ desc_flags d = Load8 1 (desc_data d).
Lemma descriptor_types fuel data ds : parse_descriptors fuel data = Parsed ds → Forall header_read ds.
Proof.
  revert data ds. induction fuel as [|fuel IH]; intros data ds E; [destruct data; cbn in E; [by injection E as <-|done]|].
  destruct data as [|x data]; [cbn in E; by injection E as <-|]. cbn [parse_descriptors] in E.
  destruct (_ <? 4)%nat; [done|]. destruct (BoundedByteReader _ _) as [h| |] eqn:Eh; [|done..]. cbn [pbind] in E.
  destruct (_ <? _); [done|]. destruct (_ <? 4) eqn:E4; [done|]. destruct (parse_descriptors fuel _) as [rest| |] eqn:Er; [|done..]. cbn [pbind] in E. injection E as <-.
  constructor; [|by eapply IH]. unfold header_read. cbn [desc_type desc_flags desc_data]. unfold BoundedByteReader in Eh. destruct (_ <=? _)%nat; [|done]. injection Eh as <-.
  apply Z.ltb_ge in E4. destruct (Z.to_nat (wrap 16 _)) as [|[|n]] eqn:En; [lia|lia|]. by destruct data.
Qed.
Lemma packet_types crc data o p : SctpPacket_Parse crc data o = Parsed p → Forall header_read (descriptors_ p).
Proof.
  unfold SctpPacket_Parse. destruct (_ || _); [done|]. destruct (BoundedByteReader _ _) as [h| |]; [|done..]. cbn [pbind]. destruct (negb _ && _); [done|].
  destruct (parse_descriptors _ _) as [ds| |] eqn:Ed; [|done..]. cbn [pbind]. intros [= <-]. by eapply descriptor_types.
Qed.

(** A format whose parser reads the TLV of a type of chunk. *)
Definition reads_type {A} (fmt : WireFormat A) (cfg : TlvConfig) : Prop :=
  chunk_cfg cfg ∧ (4 ≤ kHeaderSize cfg)%nat ∧ ∀ data c, fmt_parse fmt data = Parsed c → ∃ r, ParseTLV cfg data = Parsed r.
Lemma ParseTLV_type cfg data r : chunk_cfg cfg → ParseTLV cfg data = Parsed r → Load8 0 data = kType cfg.
Proof.
  intros [H1 _]. unfold ParseTLV. destruct (_ <? _)%nat; [done|]. unfold BoundedByteReader at 1. destruct (_ <=? _)%nat; [|done]. cbn [pbind]. rewrite H1. cbn [Z.eqb Pos.eqb].
  by destruct (Z.eqb_spec (Load8 0 data) (kType cfg)).
Qed.

Lemma length_Build crc write_checksum b out : (12 ≤ length out)%nat → length (Builder_Build crc write_checksum (b <| out_ := out |>)).1 = length out.
Proof.
  intros H. unfold Builder_Build. cbn [out_ set_field Builder_eta]. destruct write_checksum; [|by destruct out].
  destruct out as [|x out]; [done|]. cbn [fst]. unfold Store32, store. rewrite !length_app, length_take, length_drop. change (length (be32 _)) with 4%nat. lia.
Qed.

(** The packet that carries one chunk, as it is built and as it is read. *)
Definition carries {A} (fmt : WireFormat A) (cfg : TlvConfig) (c : A) (tag : Z) (p : SctpPacket) : Prop :=
  ∃ d, descriptors_ p = [d] ∧ verification_tag (common_header_ p) = tag ∧ (desc_type d = kType cfg ∧ desc_flags d = Load8 1 (desc_data d))
    ∧ fmt_parse fmt (desc_data d) = Parsed c.
Lemma one_chunk {A} (fmt : WireFormat A) (cfg : TlvConfig) c tag o bytes : RoundTrips fmt → reads_type fmt cfg → fmt_wf fmt c →
  uint 16 (local_port o) → uint 16 (remote_port o) → uint 32 tag → fmt_serialize fmt c [] = Parsed bytes → Z.of_nat (length bytes) ≤ 65500 →
  ∃ b, Builder_Add (fmt_serialize fmt c) (Builder_new tag o) = Parsed b ∧ out_ b ≠ [] ∧
    ∀ crc write_checksum o', write_checksum = true ∨ zero_checksum_acceptable o' = true →
      ∃ p, SctpPacket_Parse crc (Builder_Build crc write_checksum b).1 o' = Parsed p ∧ carries fmt cfg c tag p.
Proof.
  intros Hrt (Hcfg & _ & Hread) Hwf Hlp Hrp Htag Hser Hlen.
  destruct (Hrt c Hwf) as (type & flags & body & Hsize & Hw & _). cbv zeta in *. set (bs := tlv_header _ _ _ ++ body) in *.
  rewrite Hw in Hser. cbn in Hser. injection Hser as Ebytes. assert (length bytes = length bs) as El by (by rewrite <- Ebytes).
  pose proof (Builder_Add_out (Builder_new tag o) bs _ Hw eq_refl) as Hadd. eexists. split; [exact Hadd|]. split; [done|].
  intros crc wc o' Hsum. destruct (packet_read_back crc [AnyChunk A fmt c] tag o o' wc) as (b & Hb & Hp); try done; [by repeat constructor|destruct Hsum; auto|].
  cbn [add_all ac_type ac_format ac_chunk] in Hb. rewrite Hadd in Hb. cbn [pbind] in Hb. injection Hb as <-. destruct Hp as (p & Ep & _ & _ & Et & Hf).
  { rewrite length_Build by (cbn; lia). cbn [length]. rewrite length_padded, <- El. pose proof (padding_bound (length bytes)). lia. }
  exists p. split; [done|]. apply packet_types in Ep. destruct (Forall2_cons_inv_l _ _ _ _ Hf) as (d & ds & Hd & ->%Forall2_nil_inv_l & Eds).
  exists d. rewrite Eds in Ep. apply list.Forall_cons in Ep as [[Ety Efl] _]. split; [done|]. split; [done|]. cbn in Hd. split; [split; [|done]|done].
  destruct (Hread _ _ Hd) as [r Hr]. rewrite Ety. by eapply ParseTLV_type.
Qed.

(** ** Capabilities *)

Definition chunk_types (o : SctpOptions) : list Z := [kType ReConfigChunkConfig] ++ (if enable_partial_reliability o then [kType ForwardTsnChunkConfig] else [])
  ++ (if enable_message_interleaving o then [kType IDataChunkConfig; kType IForwardTsnChunkConfig] else []).
(** The parameters by which a side announces what it supports. *)
Definition cap_descs (o : SctpOptions) (zero : bool) : list ParameterDescriptor :=
  (if enable_partial_reliability o then [desc_of ForwardTsnSupportedConfig []] else [])
  ++ (if zero then [desc_of ZeroChecksumConfig (be32 (zero_checksum_alternate_error_detection_method o))] else [])
  ++ [desc_of SupportedExtensionsConfig (chunk_types o)].

Lemma length_chunk_types o : (length (chunk_types o) ≤ 4)%nat.
Proof. unfold chunk_types. destruct (enable_partial_reliability o), (enable_message_interleaving o); cbn; lia. Qed.
Lemma cap_descs_bytes o zero : Forall param_bytes (cap_descs o zero).
Proof.
  pose proof (length_chunk_types o). unfold cap_descs. rewrite !list.Forall_app. split_and!.
  - destruct (enable_partial_reliability o); repeat constructor. by apply desc_of_bytes.
  - destruct zero; repeat constructor. by apply desc_of_bytes.
  - repeat constructor. apply desc_of_bytes; [done|]. lia.
Qed.
Lemma joined_snoc bs b : joined (bs ++ [b]) = padded (joined bs) ++ b.
Proof. unfold joined. by rewrite foldl_snoc. Qed.
Lemma add_param descs d SerializeTo : (∀ out, SerializeTo out = Parsed (out ++ param_data d)) →
  Parameters_Add SerializeTo (joined (param_data <$> descs)) = Parsed (joined (param_data <$> descs ++ [d])).
Proof. intros H. rewrite (Parameters_Add_bytes _ _ _ H), fmap_app. cbn [fmap list_fmap]. by rewrite joined_snoc. Qed.

Lemma AddCapabilityParameters_written o zero before : uint 32 (zero_checksum_alternate_error_detection_method o) →
  AddCapabilityParameters o zero (joined (param_data <$> before)) = Parsed (joined (param_data <$> before ++ cap_descs o zero)).
Proof.
  intros Hm. pose proof (length_chunk_types o). unfold AddCapabilityParameters, cap_descs. cbv zeta.
  assert ((if enable_partial_reliability o then Parameters_Add (total ForwardTsnSupported_SerializeTo) (joined (param_data <$> before)) else Parsed (joined (param_data <$> before)))
    = Parsed (joined (param_data <$> before ++ (if enable_partial_reliability o then [desc_of ForwardTsnSupportedConfig []] else [])))) as ->.
  { destruct (enable_partial_reliability o); [|by rewrite app_nil_r]. by apply add_param. }
  cbn [pbind]. rewrite (app_assoc before). set (b1 := before ++ _).
  assert ((if zero then Parameters_Add (total (ZeroChecksum_SerializeTo (zero_checksum_alternate_error_detection_method o))) (joined (param_data <$> b1)) else Parsed (joined (param_data <$> b1)))
    = Parsed (joined (param_data <$> b1 ++ (if zero then [desc_of ZeroChecksumConfig (be32 (zero_checksum_alternate_error_detection_method o))] else [])))) as ->.
  { destruct zero; [|by rewrite app_nil_r]. by apply add_param. }
  cbn [pbind]. rewrite (app_assoc b1). apply add_param. intros out. unfold total. f_equal. apply (raw_param SupportedExtensionsConfig); try done. lia.
Qed.

(** What both sides have in common, as the one sees it. *)
Definition negotiated (mine peer : SctpOptions) : Capabilities :=
  let method := zero_checksum_alternate_error_detection_method in
  mkCapabilities (enable_partial_reliability mine && enable_partial_reliability peer) (enable_message_interleaving mine && enable_message_interleaving peer) true
    (negb (method mine =? NoMethod) && (method mine =? method peer))
    (Z.min (announced_maximum_incoming_streams mine) (announced_maximum_outgoing_streams peer))
    (Z.min (announced_maximum_outgoing_streams mine) (announced_maximum_incoming_streams peer)).

Definition cap_types : list Z := [kType ForwardTsnSupportedConfig; kType ZeroChecksumConfig; kType SupportedExtensionsConfig].
Lemma ComputeCapabilities_read mine peer zero before :
  let o := zero_checksum_alternate_error_detection_method in
  uint 32 (o peer) → Forall (λ d, param_type d ∉ cap_types) before → Forall param_bytes before →
  zero = negb (o peer =? NoMethod) ∨ zero = negb (o peer =? NoMethod) && (o peer =? o mine) →
  ComputeCapabilities mine (announced_maximum_outgoing_streams peer) (announced_maximum_incoming_streams peer) (joined (param_data <$> before ++ cap_descs peer zero))
  = Parsed (negotiated mine peer).
Proof.
  intros o Hm Hb Hbb Hz. unfold ComputeCapabilities.
  destruct (built_parameters (before ++ cap_descs peer zero)) as [_ ->]; [apply list.Forall_app; split; [done|apply cap_descs_bytes]|]. cbn [pbind].
  pose proof (length_chunk_types peer) as Hlt.
  assert (∀ (b : bool) (d : ParameterDescriptor) t, param_type d ≠ t → Forall (λ x, param_type x ≠ t) (if b then [d] else [])) as Hone by (intros [] d t Hd; by repeat constructor).
  assert (∀ t, bool_decide (t ∈ cap_types) = true → Forall (λ x, param_type x ≠ t) before) as Hbefore by (intros t Ht%bool_decide_eq_true; eapply Forall_impl; [exact Hb|]; cbn; intros x Hx <-; done).
  assert (find_parameter SupportedExtensionsConfig SupportedExtensions_Parse (before ++ cap_descs peer zero) = Parsed (chunk_types peer)) as ->.
  { unfold cap_descs. rewrite !app_assoc. rewrite find_parameter_app; [|rewrite !list.Forall_app; split_and!; [by apply Hbefore|by apply Hone..]|done].
    apply (raw_param SupportedExtensionsConfig); try done. lia. }
  assert (find_parameter ForwardTsnSupportedConfig ForwardTsnSupported_Parse (before ++ cap_descs peer zero) = if enable_partial_reliability peer then Parsed tt else Rejected) as ->.
  { unfold cap_descs. destruct (enable_partial_reliability peer).
    - cbn [app]. rewrite find_parameter_app; [|by apply Hbefore|done]. done.
    - apply find_parameter_none. cbn [app]. rewrite !list.Forall_app. split_and!; [by apply Hbefore|by apply Hone|by repeat constructor]. }
  assert (find_parameter ZeroChecksumConfig ZeroChecksum_Parse (before ++ cap_descs peer zero) = if zero && negb (o peer =? NoMethod) then Parsed (o peer) else Rejected) as ->.
  { unfold cap_descs. destruct zero.
    - rewrite app_assoc. cbn [app]. rewrite find_parameter_app; [|rewrite list.Forall_app; split; [by apply Hbefore|by apply Hone]|done].
      destruct (word_param ZeroChecksumConfig (o peer)) as (_ & Hp & Hl); try done. unfold ZeroChecksum_Parse. unfold o in *. rewrite Hp. cbn [pbind]. rewrite Hl. by destruct (_ =? NoMethod).
    - apply find_parameter_none. cbn [app]. rewrite !list.Forall_app. split_and!; [by apply Hbefore|by apply Hone|by repeat constructor]. }
  assert (supports (chunk_types peer) (kType ReConfigChunkConfig) = true
    ∧ supports (chunk_types peer) (kType ForwardTsnChunkConfig) = enable_partial_reliability peer
    ∧ supports (chunk_types peer) (kType IDataChunkConfig) = enable_message_interleaving peer
    ∧ supports (chunk_types peer) (kType IForwardTsnChunkConfig) = enable_message_interleaving peer) as (-> & -> & -> & ->).
  { unfold chunk_types. by destruct (enable_partial_reliability peer), (enable_message_interleaving peer); vm_compute. }
  unfold negotiated. fold o. f_equal. f_equal; [by destruct (enable_partial_reliability mine), (enable_partial_reliability peer)|by destruct (enable_message_interleaving mine), (enable_message_interleaving peer)|].
  destruct (Z.eqb_spec (o mine) NoMethod) as [E0|E0]; cbn [negb andb]; [done|].
  destruct Hz as [-> | ->]; destruct (Z.eqb_spec (o peer) NoMethod) as [E1|E1]; cbn [negb andb].
  - symmetry. apply Z.eqb_neq. congruence.
  - apply Z.eqb_sym.
  - symmetry. apply Z.eqb_neq. congruence.
  - destruct (Z.eqb_spec (o peer) (o mine)) as [E2|E2]; cbn [andb]; [by rewrite E2, !Z.eqb_refl|]. symmetry. apply Z.eqb_neq. congruence.
Qed.

(** ** A block with nothing to send *)

Definition empty_queue (q : RRSendQueue) : Prop := RRSendQueue.streams_ q = [] ∧ active_streams_ q = [] ∧ RRSendQueue.callbacks_ q = [].
Record idle_rtx (r : RetransmissionQueue RRSendQueue) : Prop := mkIdleRtx {
  idle_outstanding : outstanding_data_ (rtx_data_ r) = [];
  idle_again : to_be_retransmitted_ (rtx_data_ r) = [];
  idle_queue : empty_queue (send_queue_ (rtx_data_ r));
  idle_events : events_ r = [];
  idle_header : 0 ≤ rtx_header_size_ r;
  idle_unacked : unacked_bytes r = 0
}.
Record idle (t : TCB) : Prop := mkIdle {
  idle_acks : ack_state_ (tracker t) = kIdle;
  idle_data : idle_rtx (rtx t);
  idle_reset : current_request_ (reset_ t) = None
}.

Section Idle.
Context {E : Endpoint}.

Lemma idle_GetChunksToSend now n (r : RetransmissionQueue RRSendQueue) : idle_rtx r → GetChunksToSend now n r = Ret [] r.
Proof using Type.
  intros [Ho Ha (Hs & Hact & _) _ Hh _]. unfold GetChunksToSend. unfold bind at 1, get. set (max := RoundDownTo4 _).
  assert (on_data (GetChunksToBeRetransmitted max) r = Ret [] r) as Hagain.
  { unfold on_data, lift, GetChunksToBeRetransmitted, bind, gets. rewrite Ha. cbn. destruct r as [? ? ? ? ? ? ? ? ? ? ? ? ? []]; cbn in *. by subst. }
  rewrite (bind_ret _ _ _ _ _ Hagain). unfold bind at 1, get. cbn [when]. rewrite (bind_ret (ret tt) _ _ tt r) by done.
  set (max2 := wrap 64 _). assert (send_loop (Z.to_nat max2) now max2 r = Ret [] r) as Hloop.
  { destruct (Z.to_nat max2) as [|k] eqn:Ek; cbn [send_loop]; unfold bind at 1, get; destruct (Z.ltb_spec (rtx_header_size_ r) max2) as [Hlt|]; try done.
    - exfalso. lia.
    - assert (send_round now max2 r = Ret None r) as Hround; [|by rewrite (bind_ret _ _ _ _ _ Hround)].
      unfold send_round. unfold bind at 1, get.
      assert (∀ m, on_data (on_queue (queue_Produce now m)) r = Ret None r) as Hp; [|by rewrite (bind_ret _ _ _ _ _ (Hp _))].
      intros m. assert (Queue_Produce now m (send_queue_ (rtx_data_ r)) = Ret None (send_queue_ (rtx_data_ r))) as Hq.
      { unfold Queue_Produce, bind, get. rewrite Hact. cbn [length schedule_loop]. unfold bind, gets. by rewrite Hact. }
      unfold on_data, on_queue, lift. cbn [queue_Produce RRSendQueue_SendQueue]. rewrite Hq. by destruct r as [? ? ? ? ? ? ? ? ? ? ? ? ? []]. }
  by rewrite (bind_ret _ _ _ _ _ Hloop).
Qed.

Lemma rtx_back b : b <| tcb ::= set_rtx (rtx (tcb b)) |> = b.
Proof using Type. by destruct b as [? ? [? ? ? ? ? ? ? ? ? [] ? ?]]. Qed.
Lemma idle_flush b : idle (tcb b) → flush b = Ret tt b.
Proof using Type.
  intros [_ [_ _ (_ & _ & Hc) He _ _] _]. unfold flush, modify, flush_logs. rewrite He. unfold tcb_queue in *. rewrite Hc. cbn [List.filter existsb fmap list_fmap app].
  f_equal. destruct b as [[calls trace n] est [? ? ? ? ? ? ? ? ? [] ? ?]]. unfold set_queue, change_queue, set_rtx, rtx in *. cbn in *.
  by destruct reset_rtx_, rtx_data_, send_queue_; cbn in *; subst.
Qed.
Lemma idle_chunks now n b : idle (tcb b) → on_rtx (GetChunksToSend now n) b = Ret [] b.
Proof using Type. intros [_ Hr _]. unfold on_rtx, lift. cbn [compose]. rewrite idle_GetChunksToSend by done. by rewrite rtx_back. Qed.
Lemma idle_forward builder now b : idle (tcb b) → MaybeSendForwardTsn builder now b = Ret builder b.
Proof using Type.
  intros Hi. unfold MaybeSendForwardTsn. unfold bind at 1, get. destruct (_ <=? _); [|done].
  assert (on_rtx (Rtx_ShouldSendForwardTsn now) b = Ret false b) as Hf.
  { destruct Hi as [_ [Ho _ _ _ _ _] _]. unfold on_rtx, lift, Rtx_ShouldSendForwardTsn, bind, get. cbn [compose]. destruct (partial_reliability_ _).
    - unfold on_data, lift, ExpireOutstandingChunks, bind, get. rewrite Ho. cbn [length expire_loop ret].
      assert (∀ r : RetransmissionQueue RRSendQueue, r <| rtx_data_ := rtx_data_ r |> = r) as Er by (by intros []). rewrite Er. unfold ShouldSendForwardTsn. rewrite Ho.
      cbn [ret]. by rewrite rtx_back.
    - cbn [ret]. by rewrite rtx_back. }
  rewrite (bind_ret _ _ _ _ _ Hf). by rewrite (bind_ret _ _ _ _ _ (idle_flush b Hi)).
Qed.
Lemma idle_reconfig b : idle (tcb b) → on_reset MakeStreamResetRequest b = Ret None b.
Proof using Type.
  intros [_ [_ _ (Hs & _) _ _ _] Hr]. unfold on_reset, lift, MakeStreamResetRequest, bind, get. cbn [compose]. rewrite Hr.
  unfold Rtx_HasStreamsReadyToBeReset. cbn [queue_HasStreamsReadyToBeReset RRSendQueue_StreamResets]. unfold HasStreamsReadyToBeReset, stream_ids.
  unfold rtx in Hs. rewrite Hs. cbn. destruct b as [? ? []]. done.
Qed.
Lemma idle_ack also b : idle (tcb b) → on_tracker (ShouldSendAck also) b = Ret false b.
Proof using Type.
  intros [Ha _ _]. assert (ShouldSendAck also (tracker (tcb b)) = (false, tracker (tcb b))) as Es by (unfold ShouldSendAck; rewrite Ha; by destruct also).
  unfold on_tracker. rewrite Es, Ha. by destruct b as [? ? [? ? ? ? ? ? ? ? ? [] ? ?]].
Qed.
Lemma idle_control builder now b : idle (tcb b) → add_control_chunks builder now b
  = match cookie_echo_chunk_ (tcb b) with Some cookie => add_chunk (total (CookieEchoChunk_SerializeTo cookie)) builder b | None => Ret builder b end.
Proof using Type.
  intros Hi. unfold add_control_chunks. unfold bind at 1, gets. assert (∀ builder, (let! send := on_tracker (ShouldSendAck true) in
    let! builder := (if send then let! sack := on_tracker (CreateSelectiveAck (remaining_bytes (reassembly (tcb b)))) in add_chunk (SackChunk_SerializeTo sack) builder else ret builder) in
    let! builder := MaybeSendForwardTsn builder now in let! reconfig := on_reset MakeStreamResetRequest in
    match reconfig with Some parameters => add_chunk (total (ReConfigChunk_SerializeTo parameters)) builder | None => ret builder end) b = Ret builder b) as Hrest.
  { intros bl. rewrite (bind_ret _ _ _ _ _ (idle_ack true b Hi)). rewrite (bind_ret (ret bl) _ _ bl b) by done. rewrite (bind_ret _ _ _ _ _ (idle_forward bl now b Hi)).
    by rewrite (bind_ret _ _ _ _ _ (idle_reconfig b Hi)). }
  destruct (cookie_echo_chunk_ (tcb b)) as [cookie|]; [|exact (Hrest builder)].
  unfold bind at 1. unfold add_chunk. destruct (Builder_Add _ builder) as [b'| |]; [exact (Hrest b')|done..].
Qed.

(** A packet leaves. *)
Definition departed (payload : list Z) (i : Io) : Io :=
  i <| calls_ ::= S |> <| trace_ ::= cons (SentPacket payload kSuccess) |> <| tx_packets_count_ := wrap 64 (tx_packets_count_ i + 1) |>.
Definition reliable : Prop := ∀ n payload, env_send n payload = kSuccess.
Definition payload_of (builder : Builder) (write_checksum : bool) : list Z := (Builder_Build env_crc write_checksum builder).1.

Lemma PacketSender_departs builder write_checksum i : reliable → out_ builder ≠ [] →
  PacketSender_Send builder write_checksum i = Ret true (departed (payload_of builder write_checksum) i).
Proof using Type. intros Hr Hne. unfold PacketSender_Send. destruct (out_ builder); [done|]. cbv zeta. by rewrite Hr. Qed.
Lemma PacketSender_nothing builder write_checksum i : out_ builder = [] → PacketSender_Send builder write_checksum i = Ret false i.
Proof using Type. intros H. unfold PacketSender_Send. by rewrite H. Qed.

(** The rounds of the loop but the first. *)
Lemma idle_round n builder now b : idle (tcb b) → out_ builder = [] → send_packets n false builder now b = Ret tt b.
Proof using Type.
  intros Hi Hn. destruct n as [|n]; [done|]. cbn [send_packets]. rewrite (bind_ret (ret builder) _ _ builder b) by done.
  rewrite (bind_ret _ _ _ _ _ (idle_chunks now _ b Hi)). rewrite (bind_ret _ _ _ _ _ (idle_flush b Hi)). cbn [when].
  rewrite (bind_ret (ret tt) _ _ tt b) by done. unfold bind at 1, gets. cbn [add_data]. rewrite (bind_ret (ret builder) _ _ builder b) by done. cbv zeta.
  rewrite (bind_ret (on_io _) _ _ false b); [done|]. unfold on_io, lift. rewrite PacketSender_nothing by done. by destruct b.
Qed.
(** The first. *)
Lemma idle_first n builder builder' now b : idle (tcb b) → reliable → add_control_chunks builder now b = Ret builder' b →
  send_packets (S n) true builder now b
  = Ret tt (if decide (out_ builder' = []) then b else b <| io_ ::= departed (payload_of builder' (negb (zero_checksum (capabilities_ (tcb b))) || has_cookie_echo_chunk (tcb b))) |>).
Proof using Type.
  intros Hi Hr Hc. cbn [send_packets]. rewrite (bind_ret _ _ _ _ _ Hc).
  rewrite (bind_ret _ _ _ _ _ (idle_chunks now _ b Hi)). rewrite (bind_ret _ _ _ _ _ (idle_flush b Hi)). cbn [when].
  rewrite (bind_ret (ret tt) _ _ tt b) by done. unfold bind at 1, gets. cbn [add_data]. rewrite (bind_ret (ret builder') _ _ builder' b) by done. cbv zeta.
  destruct (decide (out_ builder' = [])) as [He|He].
  - rewrite (bind_ret (on_io _) _ _ false b); [done|]. unfold on_io, lift. rewrite PacketSender_nothing by done. by destruct b.
  - set (wc := _ || _). rewrite (bind_ret (on_io _) _ b true (b <| io_ ::= departed (payload_of builder' wc) |>)).
    + cbn [negb]. destruct (has_cookie_echo_chunk (tcb b)); [done|]. by apply idle_round.
    + unfold on_io, lift. by rewrite PacketSender_departs.
Qed.
End Idle.

(** ** The two sockets *)

(** An endpoint whose random numbers are in range, whose network takes every packet, and whose
    options are in the range of their fields. *)
Record fair (E : Endpoint) : Prop := mkFair {
  fair_random : ∀ n low high, low ≤ high → low ≤ env_random n low high ≤ high;
  fair_send : reliable;
  fair_local : uint 16 (opt_local_port options);
  fair_remote : uint 16 (opt_remote_port options);
  fair_incoming : 1 ≤ announced_maximum_incoming_streams options < 2 ^ 16;
  fair_outgoing : 1 ≤ announced_maximum_outgoing_streams options < 2 ^ 16;
  fair_method : uint 32 (zero_checksum_alternate_error_detection_method options);
  fair_burst : 1 ≤ max_burst options
}.

(** A socket that has nothing to send, and room for the timers of a block. *)
Definition resting (s : Socket) : Prop := tcb_ s = None ∧ empty_queue (idle_queue_ s) ∧ next_timer_id_ s + 5 < 2 ^ 32 - 1.
Definition packets_of (i : Io) : list (list Z) := omap (λ e, match e with SentPacket data _ => Some data | _ => None end) (trace_ i).

Section Sending.
Context {E : Endpoint}.

(** Whoever reads the packet finds the chunk. *)
Definition announces {A} (fmt : WireFormat A) (cfg : TlvConfig) (c : A) (tag : Z) (write_checksum : bool) (payload : list Z) : Prop :=
  ∀ o', write_checksum = true ∨ zero_checksum_acceptable o' = true → ∃ p, SctpPacket_Parse env_crc payload o' = Parsed p ∧ carries fmt cfg c tag p.

Lemma built_one {A} (fmt : WireFormat A) cfg c tag bytes : fair E → RoundTrips fmt → reads_type fmt cfg → fmt_wf fmt c → uint 32 tag →
  fmt_serialize fmt c [] = Parsed bytes → Z.of_nat (length bytes) ≤ 65500 →
  ∃ b, Builder_Add (fmt_serialize fmt c) (NewBuilder tag) = Parsed b ∧ out_ b ≠ [] ∧ ∀ wc, announces fmt cfg c tag wc (payload_of b wc).
Proof using Type.
  intros [_ _ Hl Hr _ _ _ _] Hrt Hread Hwf Htag Hser Hlen.
  destruct (one_chunk fmt cfg c tag (packet_options options) bytes) as (b & Hb & Hne & Hp); try done.
  exists b. split; [done|]. split; [done|]. intros wc o' Ho. by apply Hp.
Qed.

Lemma send_one {A} (fmt : WireFormat A) cfg c tag bytes wc s : fair E → RoundTrips fmt → reads_type fmt cfg → fmt_wf fmt c → uint 32 tag →
  fmt_serialize fmt c [] = Parsed bytes → Z.of_nat (length bytes) ≤ 65500 →
  ∃ payload, (let! b := add_chunk (fmt_serialize fmt c) (NewBuilder tag) in send_with wc b) s = Ret tt (s <| sock_io_ ::= departed payload |>)
    ∧ announces fmt cfg c tag wc payload.
Proof using Type.
  intros Hf Hrt Hread Hwf Htag Hser Hlen. destruct (built_one fmt cfg c tag bytes) as (b & Hb & Hne & Hp); try done. exists (payload_of b wc). split; [|done].
  unfold add_chunk. rewrite Hb. unfold bind at 1. cbn [ret]. unfold send_with, bind, sock_io, lift. rewrite PacketSender_departs by (done || apply Hf). done.
Qed.
End Sending.

Lemma Init_reads cfg : cfg = InitChunkConfig ∨ cfg = InitAckChunkConfig → reads_type (InitFormat cfg) cfg.
Proof.
  intros Hc. split; [by destruct Hc as [-> | ->]|]. split; [destruct Hc as [-> | ->]; cbn; lia|]. intros data c. cbn [fmt_parse InitFormat]. unfold AnyInit_Parse.
  destruct (ParseTLV cfg data) as [r| |]; [by eexists|done..].
Qed.
Lemma CookieEcho_reads : reads_type CookieEcho CookieEchoChunkConfig.
Proof. split; [done|]. split; [cbn; lia|]. intros data c. cbn [fmt_parse CookieEcho RawFormat]. unfold Raw_Parse. destruct (ParseTLV _ data) as [r| |]; [by eexists|done..]. Qed.
Lemma CookieAck_reads : reads_type CookieAck CookieAckChunkConfig.
Proof. split; [done|]. split; [cbn; lia|]. intros data c. cbn [fmt_parse CookieAck EmptyFormat]. unfold Empty_Parse. destruct (ParseTLV _ data) as [r| |]; [by eexists|done..]. Qed.

Lemma fresh_idle {E : Endpoint} id caps q my_tag my_tsn peer_tag peer_tsn a_rwnd tie cookie : empty_queue q →
  idle (TransmissionControlBlock_new id caps q my_tag my_tsn peer_tag peer_tsn a_rwnd tie <| cookie_echo_chunk_ := cookie |>).
Proof.
  intros (Hs & Ha & Hc). split; [done| |done]. split; try done. unfold TransmissionControlBlock_new. cbn. by destruct (message_interleaving caps).
Qed.

Lemma joined_bound bs : (length (joined bs) ≤ foldr (λ b n, length b + 3 + n) 0 bs)%nat.
Proof.
  induction bs as [|b bs IH]; [done|]. rewrite joined_cons. cbn [foldr]. destruct bs as [|b' bs]; [lia|]. rewrite length_app, length_padded.
  pose proof (padding_bound (length b)). lia.
Qed.

Section Steps.
Context {E : Endpoint}.
Hypothesis Hfair : fair E.

(** The chunk that opens, and the one that answers: [before] holds the state cookie. *)
Definition opening (before : list ParameterDescriptor) (zero : bool) (tag tsn : Z) : InitChunk :=
  mkInit tag (wrap 32 (max_receiver_window_buffer_size options)) (announced_maximum_outgoing_streams options) (announced_maximum_incoming_streams options) tsn
    (joined (param_data <$> before ++ cap_descs options zero)).
Definition cookie_desc (cookie : StateCookie) : ParameterDescriptor := desc_of StateCookieConfig (Cookie_Serialize cookie).

Lemma opening_length before zero : before = [] ∨ (∃ cookie, before = [cookie_desc cookie]) →
  (length (joined (param_data <$> before ++ cap_descs options zero)) ≤ 200)%nat.
Proof using Type.
  intros Hb. etrans; [apply joined_bound|]. unfold cap_descs, chunk_types.
  destruct Hb as [->|[cookie ->]], (enable_partial_reliability options), zero, (enable_message_interleaving options); cbn; lia.
Qed.
Lemma opening_wf before zero tag tsn : before = [] ∨ (∃ cookie, before = [cookie_desc cookie]) → uint 32 tag → uint 32 tsn → Init_wf (opening before zero tag tsn).
Proof using Hfair.
  intros Hb Htag Htsn. pose proof (opening_length before zero Hb). destruct Hfair as [_ _ _ _ Hi Ho _ _]. split_and!; cbn [opening initiate_tag init_a_rwnd nbr_outbound_streams nbr_inbound_streams initial_tsn init_parameters]; try done.
  - by apply wrap_uint.
  - unfold uint. lia.
  - unfold uint. lia.
  - split; [|lia]. apply built_parameters, list.Forall_app. split; [|apply cap_descs_bytes]. destruct Hb as [->|[cookie ->]]; repeat constructor. by apply desc_of_bytes.
Qed.
Lemma opening_bytes cfg before zero tag tsn : cfg = InitChunkConfig ∨ cfg = InitAckChunkConfig → before = [] ∨ (∃ cookie, before = [cookie_desc cookie]) →
  ∃ bytes, fmt_serialize (InitFormat cfg) (opening before zero tag tsn) [] = Parsed bytes ∧ Z.of_nat (length bytes) ≤ 65500.
Proof using Type.
  intros Hcfg Hb. pose proof (opening_length before zero Hb). eexists. split; [done|]. rewrite Init_written by done. rewrite !length_app.
  change (length (tlv_header _ _ _)) with 4%nat. change (length (init_fields _)) with 16%nat. cbn [init_parameters opening length]. lia.
Qed.

Lemma random_tag n : let tag := env_random n kMinVerificationTag kMaxVerificationTag in uint 32 tag ∧ tag ≠ 0.
Proof using Hfair. cbv zeta. pose proof (fair_random _ Hfair n kMinVerificationTag kMaxVerificationTag) as H. unfold uint, kMinVerificationTag, kMaxVerificationTag in *. lia. Qed.
Lemma random_tsn n : uint 32 (env_random n kMinInitialTsn kMaxInitialTsn).
Proof using Hfair. pose proof (fair_random _ Hfair n kMinInitialTsn kMaxInitialTsn) as H. unfold uint, kMinInitialTsn, kMaxInitialTsn in *. lia. Qed.

Definition announces_zero : bool := negb (zero_checksum_alternate_error_detection_method options =? NoMethod).

(** The first packet. *)
Lemma Connect_sends s : resting s → state_ s = kClosed → ∃ tag tsn payload s', Connect s = Ret tt s' ∧ (uint 32 tag ∧ tag ≠ 0) ∧ uint 32 tsn
  ∧ resting s' ∧ state_ s' = kCookieWait ∧ connect_params_ s' = mkConnect tsn tag ∧ packets_of (sock_io_ s') = payload :: packets_of (sock_io_ s)
  ∧ announces Init InitChunkConfig (opening [] announces_zero tag tsn) 0 true payload.
Proof using Hfair.
  intros Hr Hs. set (n := calls_ (sock_io_ s)). set (tsn := env_random n kMinInitialTsn kMaxInitialTsn). set (tag := env_random (S n) kMinVerificationTag kMaxVerificationTag).
  pose proof (random_tag (S n)) as Htag. pose proof (random_tsn n) as Htsn. fold tag tsn in Htag, Htsn.
  set (s1 := s <| sock_io_ ::= (λ i, i <| calls_ ::= S |> <| calls_ ::= S |>) |> <| connect_params_ := mkConnect tsn tag |>).
  destruct (opening_bytes InitChunkConfig [] announces_zero tag tsn) as (bytes & Hb & Hl); [by left..|].
  destruct (send_one Init InitChunkConfig (opening [] announces_zero tag tsn) 0 bytes true s1 Hfair) as (payload & Hsend & Hp); try done;
    [apply _|apply Init_reads; by left|apply opening_wf; [by left|apply Htag|done]|].
  eexists tag, tsn, payload, _. split.
  - unfold Connect. unfold bind at 1, get. rewrite Hs. cbn [bool_decide decide when]. rewrite bool_decide_true by done. cbn [when].
    rewrite (bind_ret (sock_io _) _ _ tsn (s <| sock_io_ ::= (λ i, i <| calls_ ::= S |>) |>)) by done.
    rewrite (bind_ret (sock_io _) _ _ tag (s <| sock_io_ ::= (λ i, i <| calls_ ::= S |> <| calls_ ::= S |>) |>)) by done.
    rewrite (bind_ret (modify _) _ _ tt s1) by done. unfold SendInit at 1.
    rewrite (bind_ret _ _ s1 tt (s1 <| sock_io_ ::= departed payload |>)).
    + done.
    + unfold bind at 1, get. rewrite (bind_ret (checked _) _ s1 (joined (param_data <$> cap_descs options announces_zero)) s1).
      * exact Hsend.
      * unfold checked. fold announces_zero.
        assert (AddCapabilityParameters options announces_zero [] = Parsed (joined (param_data <$> cap_descs options announces_zero))) as Hw
          by exact (AddCapabilityParameters_written options announces_zero [] (fair_method _ Hfair)). by rewrite Hw.
  - destruct Hr as (H1 & H2 & H3), Htag. by split_and!.
Qed.

(** *** Receiving a packet of one chunk *)

Definition counted (s : Socket) : Socket := s <| metrics_ ::= (λ m, m <| rx_packets_count := wrap 64 (rx_packets_count m + 1) |>) |>.

Lemma idle_end b : idle (tcb b) → (on_tracker (λ d, (tt, ObservePacketEnd d)) ;; tcb_MaybeSendSack) b = Ret tt b.
Proof using Type.
  intros Hi. rewrite (bind_ret _ _ b tt b).
  - unfold tcb_MaybeSendSack. by rewrite (bind_ret _ _ _ _ _ (idle_ack false b Hi)).
  - destruct Hi as [Ha _ _]. assert (ObservePacketEnd (tracker (tcb b)) = tracker (tcb b)) as Eo by (unfold ObservePacketEnd; by rewrite Ha).
    unfold on_tracker. rewrite Eo, Ha. by destruct b as [? ? [? ? ? ? ? ? ? ? ? [] ? ?]].
Qed.
Lemma receive_one payload p d s go s' : SctpPacket_Parse env_crc payload (packet_options options) = Parsed p → descriptors_ p = [d] →
  ValidatePacket p (counted s) = Ret true (counted s) → desc_type d ≠ kType DataChunkConfig → Dispatch (common_header_ p) d (counted s) = Ret go s' →
  (∀ t, tcb_ s' = Some t → idle t) → ReceivePacket payload s = Ret tt s'.
Proof using Type.
  intros Hp Hd Hv Hs Hdis Hidle. unfold ReceivePacket. rewrite Hp. rewrite (bind_ret (modify _) _ _ tt (counted s)) by done. rewrite (bind_ret _ _ _ _ _ Hv). cbn [when].
  rewrite (bind_ret _ _ _ tt (counted s)).
  - rewrite (bind_ret _ _ _ tt s').
    + unfold bind at 1, get. destruct (tcb_ s') as [t|] eqn:Et; [|done]. unfold on_block. rewrite Et, idle_end by (by apply Hidle). cbn. by destruct s'; cbn in *; subst.
    + rewrite Hd. cbn [dispatch_all]. rewrite (bind_ret _ _ _ _ _ Hdis). by destruct go.
  - unfold MaybeSendShutdownOnPacketReceived, bind, get. rewrite Hd. cbn [existsb]. rewrite (proj2 (Z.eqb_neq _ _) Hs). by destruct (bool_decide _).
Qed.
End Steps.

(** *** The answer to an INIT *)

Section Peer.
Context (P : Endpoint) {E : Endpoint}.
Hypothesis Hfair : fair E.
Hypothesis Hpeer : fair P.
Hypothesis Hcrc : @env_crc P = @env_crc E.

Abbreviation peer_options := (@options P).
Abbreviation caps := (negotiated options peer_options).

Lemma negotiated_wf : capabilities_wf caps.
Proof using Hfair Hpeer. destruct Hfair, Hpeer. unfold capabilities_wf, negotiated, uint. cbn. lia. Qed.
(** The cookie that answers the INIT of the peer. *)
Definition cookie_for (peer_tag peer_tsn tag tsn : Z) : StateCookie :=
  mkCookie peer_tag tag peer_tsn tsn (wrap 32 (max_receiver_window_buffer_size peer_options)) 0 caps.
Lemma cookie_for_wf peer_tag peer_tsn tag tsn : uint 32 peer_tag → uint 32 peer_tsn → uint 32 tag → uint 32 tsn → cookie_wf (cookie_for peer_tag peer_tsn tag tsn).
Proof using Hfair Hpeer. intros. unfold cookie_wf, cookie_for. cbn [cookie_peer_tag cookie_my_tag cookie_peer_initial_tsn cookie_my_initial_tsn cookie_a_rwnd cookie_tie_tag cookie_capabilities].
  split_and!; try done; [by apply wrap_uint|apply negotiated_wf..]. Qed.

Definition answer (peer_tag peer_tsn tag tsn : Z) : InitChunk := opening [cookie_desc (cookie_for peer_tag peer_tsn tag tsn)] (zero_checksum caps) tag tsn.

Lemma HandleInit_answers s data peer_tag peer_tsn : resting s → state_ s = kClosed → uint 32 peer_tag → peer_tag ≠ 0 → uint 32 peer_tsn →
  InitChunk_Parse data = Parsed (@opening P [] (@announces_zero P) peer_tag peer_tsn) →
  ∃ tag tsn payload s', HandleInit data s = Ret tt s' ∧ (uint 32 tag ∧ tag ≠ 0) ∧ uint 32 tsn ∧ resting s' ∧ state_ s' = kClosed
    ∧ packets_of (sock_io_ s') = payload :: packets_of (sock_io_ s)
    ∧ announces InitAck InitAckChunkConfig (answer peer_tag peer_tsn tag tsn) peer_tag (negb (zero_checksum caps)) payload.
Proof using Hfair Hpeer.
  intros Hr Hs Hpt Hpt0 Hptsn Hparse. set (n := calls_ (sock_io_ s)).
  set (tag := env_random n kMinVerificationTag kMaxVerificationTag). set (tsn := env_random (S n) kMinInitialTsn kMaxInitialTsn).
  pose proof (random_tag Hfair n) as Htag. pose proof (random_tsn Hfair (S n)) as Htsn. fold tag tsn in Htag, Htsn.
  set (s1 := s <| sock_io_ ::= (λ i, i <| calls_ ::= S |> <| calls_ ::= S |>) |>).
  destruct (opening_bytes InitAckChunkConfig [cookie_desc (cookie_for peer_tag peer_tsn tag tsn)] (zero_checksum caps) tag tsn) as (bytes & Hb & Hl); [by right|right; by eexists|].
  destruct (send_one InitAck InitAckChunkConfig (answer peer_tag peer_tsn tag tsn) peer_tag bytes (negb (zero_checksum caps)) s1 Hfair) as (payload & Hsend & Hp); try done;
    [apply _|apply Init_reads; by right|apply (opening_wf Hfair); [right; by eexists|apply Htag|done]|].
  eexists tag, tsn, payload, _. split.
  - unfold HandleInit, with_chunk. rewrite Hparse. cbn [opening initiate_tag nbr_outbound_streams nbr_inbound_streams initial_tsn init_parameters init_a_rwnd].
    destruct Hpeer as [_ _ _ _ Hin Hout Hmethod _].
    rewrite (proj2 (Z.eqb_neq peer_tag 0)), (proj2 (Z.eqb_neq (announced_maximum_outgoing_streams _) 0)), (proj2 (Z.eqb_neq (announced_maximum_incoming_streams _) 0)) by (done || lia).
    cbn [orb]. unfold bind at 1, get. rewrite Hs. rewrite decide_False by done.
    rewrite (bind_ret choose_parameters _ s (tag, tsn, 0) s1) by (unfold choose_parameters, bind, get; by rewrite Hs).
    rewrite (bind_ret (checked _) _ s1 caps s1).
    + cbv zeta. rewrite (bind_ret (checked _) _ s1 (joined (param_data <$> [cookie_desc (cookie_for peer_tag peer_tsn tag tsn)])) s1) by done.
      rewrite (bind_ret (checked _) _ s1 (joined (param_data <$> [cookie_desc (cookie_for peer_tag peer_tsn tag tsn)] ++ cap_descs options (zero_checksum caps))) s1).
      * exact Hsend.
      * unfold checked. by rewrite (AddCapabilityParameters_written options (zero_checksum caps) [cookie_desc (cookie_for peer_tag peer_tsn tag tsn)] (fair_method _ Hfair)).
    + unfold checked. by rewrite (ComputeCapabilities_read options peer_options (@announces_zero P) []) by (done || by left || by constructor).
  - destruct Hr as (H1 & H2 & H3), Htag. by split_and!.
Qed.
End Peer.

(** *** The blocks *)

Definition belongs (t : TCB) (caps : Capabilities) (my_tag my_tsn peer_tag peer_tsn : Z) : Prop :=
  capabilities_ t = caps ∧ my_verification_tag_ t = my_tag ∧ my_initial_tsn_ t = my_tsn ∧ peer_verification_tag_ t = peer_tag ∧ peer_initial_tsn_ t = peer_tsn.
(** What a step that neither sends a packet nor touches the rest leaves alone. *)
Definition same_outside (s s' : Socket) : Prop :=
  state_ s' = state_ s ∧ connect_params_ s' = connect_params_ s ∧ packets_of (sock_io_ s') = packets_of (sock_io_ s).

Section Blocks.
Context {E : Endpoint}.
Hypothesis Hfair : fair E.

Lemma Queue_Reset_rests s : resting s → ∃ s', on_send_queue Queue_Reset s = Ret tt s' ∧ resting s' ∧ same_outside s s'.
Proof using Type.
  intros (Ht & (Hs & Ha & Hc) & Hn). unfold on_send_queue, modify, send_queue, put_queue. rewrite Ht. cbv zeta.
  assert (RRSendQueue.callbacks_ (Queue_Reset (idle_queue_ s)) = []) as -> by (unfold Queue_Reset, stream_ids; rewrite Hs; cbn; exact Hc). eexists. split; [done|].
  split; [split_and!|]; try done.
  - split_and!; [| |done]; unfold Queue_Reset, stream_ids; rewrite Hs; cbn; [exact Hs|exact Ha].
Qed.
Lemma MakeTieTag_rests s : resting s → ∃ tie s', MakeTieTag s = Ret tie s' ∧ resting s' ∧ same_outside s s'.
Proof using Type. intros Hr. eexists _, _. by split. Qed.
Lemma Create_block s caps my_tag my_tsn peer_tag peer_tsn a_rwnd tie : resting s →
  ∃ t s', CreateTransmissionControlBlock caps my_tag my_tsn peer_tag peer_tsn a_rwnd tie s = Ret tt s' ∧ tcb_ s' = Some t ∧ idle t ∧ cookie_echo_chunk_ t = None
    ∧ belongs t caps my_tag my_tsn peer_tag peer_tsn ∧ same_outside s s'.
Proof using Type.
  intros (Ht & Hq & Hn). unfold CreateTransmissionControlBlock, bind, get. rewrite (proj2 (Z.leb_gt _ _)) by done. eexists _, _. split; [done|]. split; [done|].
  split; [|by split_and!]. unfold send_queue. rewrite Ht. exact (fresh_idle _ caps (idle_queue_ s) my_tag my_tsn peer_tag peer_tsn a_rwnd tie None Hq).
Qed.

(** A block with nothing to send sends what it is given. *)
Lemma block_sends s t builder builder' now : tcb_ s = Some t → idle t →
  (∀ b, tcb b = t → add_control_chunks builder now b = Ret builder' b) →
  on_block (SendBufferedPacketsWith builder now) s
  = Ret tt (if decide (out_ builder' = []) then s
            else s <| sock_io_ ::= departed (payload_of builder' (negb (zero_checksum (capabilities_ t)) || has_cookie_echo_chunk t)) |>).
Proof using Hfair.
  intros Ht Hi Hc. unfold on_block, SendBufferedPacketsWith. rewrite Ht. destruct (Z.to_nat (max_burst options)) as [|n] eqn:En; [pose proof (fair_burst _ Hfair); lia|].
  rewrite (idle_first n builder builder'); [|done|apply Hfair|by apply Hc]. destruct (decide _); cbn; by destruct s; cbn in *; subst.
Qed.
(** Without a cookie. *)
Lemma block_sends_plain s t builder now : tcb_ s = Some t → idle t → cookie_echo_chunk_ t = None →
  on_block (SendBufferedPacketsWith builder now) s
  = Ret tt (if decide (out_ builder = []) then s else s <| sock_io_ ::= departed (payload_of builder (negb (zero_checksum (capabilities_ t)))) |>).
Proof using Hfair.
  intros Ht Hi Hc. rewrite (block_sends s t builder builder); try done.
  - unfold has_cookie_echo_chunk. rewrite Hc, bool_decide_false by (by intros []). by rewrite orb_false_r.
  - intros b <-. rewrite idle_control by done. by rewrite Hc.
Qed.
Lemma SendBuffered_with s t now : tcb_ s = Some t → on_block (SendBufferedPackets now) s = on_block (SendBufferedPacketsWith (NewBuilder (peer_verification_tag_ t)) now) s.
Proof using Type. intros Ht. unfold on_block. by rewrite Ht. Qed.
(** With a cookie. *)
Lemma block_sends_cookie s t cookie now : tcb_ s = Some t → idle t → cookie_echo_chunk_ t = Some cookie → uint 32 (peer_verification_tag_ t) →
  Z.of_nat (length cookie) ≤ 65000 →
  ∃ payload, on_block (SendBufferedPackets now) s = Ret tt (s <| sock_io_ ::= departed payload |>)
    ∧ announces CookieEcho CookieEchoChunkConfig cookie (peer_verification_tag_ t) true payload.
Proof using Hfair.
  intros Ht Hi Hc Htag Hl. destruct (built_one CookieEcho CookieEchoChunkConfig cookie (peer_verification_tag_ t) (CookieEchoChunk_SerializeTo cookie [])) as (b & Hb & Hne & Hp);
    try done; [apply _|apply CookieEcho_reads|cbn; lia|unfold CookieEchoChunk_SerializeTo; rewrite Raw_written by done; rewrite !length_app, length_header; cbn; lia|].
  exists (payload_of b true). split; [|done]. rewrite (SendBuffered_with s t) by done. rewrite (block_sends s t _ b); try done.
  - rewrite decide_False by done. unfold has_cookie_echo_chunk. rewrite Hc, bool_decide_true by done. by rewrite orb_true_r.
  - intros bl <-. rewrite idle_control by done. rewrite Hc. unfold add_chunk. change (total (CookieEchoChunk_SerializeTo cookie)) with (fmt_serialize CookieEcho cookie). by rewrite Hb.
Qed.
End Blocks.

(** *** The COOKIE ECHO, and its COOKIE ACK *)

Section Cookie.
Context (P : Endpoint) {E : Endpoint}.
Hypothesis Hfair : fair E.
Hypothesis Hpeer : fair P.

(** A block that waits for the COOKIE ACK, and one that is up. *)
Definition echoing (s : Socket) (cookie : list Z) (my_tag my_tsn peer_tag peer_tsn : Z) : Prop :=
  state_ s = kCookieEchoed ∧ ∃ t, tcb_ s = Some t ∧ idle t ∧ cookie_echo_chunk_ t = Some cookie
    ∧ belongs t (negotiated options (@options P)) my_tag my_tsn peer_tag peer_tsn.
Definition established (s : Socket) (my_tag my_tsn peer_tag peer_tsn : Z) : Prop :=
  state_ s = kEstablished ∧ ∃ t, tcb_ s = Some t ∧ idle t ∧ cookie_echo_chunk_ t = None
    ∧ belongs t (negotiated options (@options P)) my_tag my_tsn peer_tag peer_tsn.

Lemma answer_cookie my_tag my_tsn peer_tag peer_tsn :
  Parameters_get StateCookieConfig StateCookieParameter_Parse (init_parameters (@answer E P my_tag my_tsn peer_tag peer_tsn))
  = Parsed (Cookie_Serialize (@cookie_for E P my_tag my_tsn peer_tag peer_tsn)).
Proof using Type.
  unfold Parameters_get. cbn [init_parameters answer opening].
  match goal with |- context [joined (param_data <$> ?l)] => destruct (built_parameters l) as [_ ->] end.
  - apply list.Forall_app. split; [repeat constructor; by apply desc_of_bytes|apply cap_descs_bytes].
  - etrans; [by apply (find_parameter_app StateCookieConfig StateCookieParameter_Parse [])|]. by apply (raw_param StateCookieConfig).
Qed.
Lemma answer_capabilities my_tag my_tsn peer_tag peer_tsn : let c := @answer E P my_tag my_tsn peer_tag peer_tsn in
  ComputeCapabilities options (nbr_outbound_streams c) (nbr_inbound_streams c) (init_parameters c) = Parsed (negotiated options (@options P)).
Proof using Hpeer.
  cbv zeta. cbn [nbr_outbound_streams nbr_inbound_streams init_parameters answer opening].
  apply (ComputeCapabilities_read options (@options P) _ [cookie_desc _]); [apply Hpeer| |apply list.Forall_singleton; by apply desc_of_bytes|by right].
  apply list.Forall_singleton. cbn [param_type cookie_desc desc_of kType StateCookieConfig]. apply (bool_decide_unpack _). by vm_compute.
Qed.

Lemma HandleInitAck_echoes s data my_tag my_tsn peer_tag peer_tsn : resting s → state_ s = kCookieWait → connect_params_ s = mkConnect my_tsn my_tag →
  uint 32 peer_tag → InitAckChunk_Parse data = Parsed (@answer E P my_tag my_tsn peer_tag peer_tsn) →
  let cookie := Cookie_Serialize (@cookie_for E P my_tag my_tsn peer_tag peer_tsn) in
  ∃ payload s', HandleInitAck data s = Ret tt s' ∧ echoing s' cookie my_tag my_tsn peer_tag peer_tsn
    ∧ packets_of (sock_io_ s') = payload :: packets_of (sock_io_ s) ∧ announces CookieEcho CookieEchoChunkConfig cookie peer_tag true payload.
Proof using Hfair Hpeer.
  intros Hr Hs Hc Hpt Hparse cookie. unfold HandleInitAck, with_chunk. rewrite Hparse. rewrite (bind_ret get _ s s s) by done. rewrite Hs, bool_decide_true by done. cbn [negb].
  rewrite answer_cookie. fold cookie. rewrite (bind_ret (checked _) _ s (negotiated options (@options P)) s) by (unfold checked; by rewrite answer_capabilities).
  rewrite (bind_ret (modify _) _ s tt (stop_t1_init s)) by done.
  match goal with |- context [bind (modify ?f) _ (stop_t1_init s)] => set (s1 := f (stop_t1_init s)); rewrite (bind_ret (modify f) _ _ tt s1) by done end.
  destruct (Queue_Reset_rests s1) as (s2 & E2 & Hr2 & O2); [done|]. rewrite (bind_ret _ _ _ _ _ E2).
  destruct (MakeTieTag_rests s2 Hr2) as (tie & s3 & E3 & Hr3 & O3). rewrite (bind_ret _ _ _ _ _ E3). rewrite Hc. cbn [connect_verification_tag connect_initial_tsn].
  match goal with |- context [CreateTransmissionControlBlock ?c ?a ?b ?d ?e ?f ?g] => destruct (Create_block s3 c a b d e f g Hr3) as (t & s4 & E4 & Ht4 & Hi4 & _ & Hb4 & O4) end.
  rewrite (bind_ret _ _ _ _ _ E4). set (s5 := s4 <| state_ := kCookieEchoed |>). rewrite (bind_ret (SetState _) _ s4 tt s5) by done.
  set (t6 := t <| cookie_echo_chunk_ := Some cookie |>). set (s6 := s5 <| tcb_ := Some t6 |>).
  rewrite (bind_ret (on_block _) _ s5 tt s6) by (unfold on_block; cbn [tcb_ s5 set_field]; by rewrite Ht4).
  set (s7 := s6 <| sock_io_ ::= (λ i, i <| calls_ ::= S |>) |>). rewrite (bind_ret (sock_io Now) _ s6 (env_now (calls_ (sock_io_ s6))) s7) by done.
  destruct Hb4 as (B1 & B2 & B3 & B4 & B5). assert (idle t6) as Hi6 by (destruct Hi4; by split).
  assert (uint 32 (peer_verification_tag_ t6)) as Hpt6 by (unfold t6; cbn; by rewrite B4).
  destruct (block_sends_cookie Hfair s7 t6 cookie (env_now (calls_ (sock_io_ s6))) eq_refl Hi6 eq_refl Hpt6 ltac:(done)) as (payload & E8 & Hp).
  rewrite (bind_ret _ _ _ _ _ E8). eexists payload, _. split; [done|]. split; [split; [done|]; exists t6; by split_and!|]. split.
  - destruct O2 as (_ & _ & O2), O3 as (_ & _ & O3), O4 as (_ & _ & O4). change (packets_of (sock_io_ s)) with (packets_of (sock_io_ s1)).
    rewrite <- O2, <- O3, <- O4. done.
  - replace peer_tag with (peer_verification_tag_ t6) by (exact B4). done.
Qed.

Lemma HandleCookieEcho_establishes s header data my_tag my_tsn peer_tag peer_tsn : resting s → state_ s = kClosed → verification_tag header = my_tag →
  uint 32 peer_tag → uint 32 peer_tsn → uint 32 my_tag → uint 32 my_tsn →
  CookieEchoChunk_Parse data = Parsed (Cookie_Serialize (@cookie_for P E peer_tag peer_tsn my_tag my_tsn)) →
  ∃ payload s', HandleCookieEcho header data s = Ret tt s' ∧ established s' my_tag my_tsn peer_tag peer_tsn
    ∧ packets_of (sock_io_ s') = payload :: packets_of (sock_io_ s)
    ∧ announces CookieAck CookieAckChunkConfig tt peer_tag (negb (zero_checksum (negotiated options (@options P)))) payload.
Proof using Hfair Hpeer.
  intros Hr Hs Hh Hpt Hptsn Hmt Hmtsn Hparse. assert (Hr' := Hr). destruct Hr' as (Htn & _ & _).
  unfold HandleCookieEcho, with_chunk. rewrite Hparse, cookie_read by (by apply cookie_for_wf). rewrite (bind_ret get _ s s s) by done. rewrite Htn.
  rewrite (bind_ret _ _ s true s) by (by rewrite Hh; cbn [cookie_for cookie_my_tag]; rewrite Z.eqb_refl). cbn [when]. unfold establish.
  set (s1 := stop_t1_cookie (stop_t1_init s)). rewrite (bind_ret (modify _) _ s tt (stop_t1_init s)) by done. rewrite (bind_ret (modify _) _ _ tt s1) by done.
  rewrite (bind_ret get _ s1 s1 s1) by done. change (state_ s1) with (state_ s). change (tcb_ s1) with (tcb_ s). rewrite Hs, Htn.
  set (s2 := s1 <| state_ := kEstablished |> <| sock_io_ ::= (λ i, i <| trace_ ::= cons OnConnected |>) |>). rewrite (bind_ret (when _ _) _ s1 tt s2) by done.
  destruct (Queue_Reset_rests s2) as (s3 & E3 & Hr3 & O3); [done|]. destruct (MakeTieTag_rests s3 Hr3) as (tie & s4 & E4 & Hr4 & O4).
  set (c := cookie_for P peer_tag peer_tsn my_tag my_tsn).
  destruct (Create_block s4 (cookie_capabilities c) (cookie_my_tag c) (cookie_my_initial_tsn c) (cookie_peer_tag c) (cookie_peer_initial_tsn c) (cookie_a_rwnd c) tie Hr4)
    as (t & s5 & E5 & Ht5 & Hi5 & Hc5 & Hb5 & O5).
  rewrite (bind_ret _ _ s2 tt s5); [|rewrite (bind_ret _ _ _ _ _ E3), (bind_ret _ _ _ _ _ E4); exact E5].
  rewrite (bind_ret the_tcb _ s5 t s5) by (unfold the_tcb, bind, get; by rewrite Ht5).
  destruct Hb5 as (B1 & B2 & B3 & B4 & B5). cbn [c cookie_for cookie_capabilities cookie_my_tag cookie_my_initial_tsn cookie_peer_tag cookie_peer_initial_tsn] in *.
  destruct (built_one CookieAck CookieAckChunkConfig tt peer_tag (CookieAckChunk_SerializeTo [])) as (b & Hb & Hne & Hp); try done; [apply _|apply CookieAck_reads|].
  rewrite (bind_ret (add_chunk _ _) _ s5 b s5) by (unfold add_chunk; rewrite B4; change (total CookieAckChunk_SerializeTo) with (fmt_serialize CookieAck tt); by rewrite Hb).
  set (s6 := s5 <| sock_io_ ::= (λ i, i <| calls_ ::= S |>) |>). rewrite (bind_ret (sock_io Now) _ s5 (env_now (calls_ (sock_io_ s5))) s6) by done.
  rewrite (block_sends_plain Hfair s6 t) by done. rewrite decide_False by done. rewrite B1. eexists _, _. split; [done|].
  destruct O3 as (O31 & _ & O33), O4 as (O41 & _ & O43), O5 as (O51 & _ & O53). split; [split; [|exists t; by split_and!]|split; [|apply Hp]].
  - change (state_ s5 = kEstablished). rewrite O51, O41, O31. done.
  - change (packets_of (sock_io_ s)) with (packets_of (sock_io_ s2)). rewrite <- O33, <- O43, <- O53. done.
Qed.

Lemma HandleCookieAck_establishes s cookie data my_tag my_tsn peer_tag peer_tsn : echoing s cookie my_tag my_tsn peer_tag peer_tsn →
  CookieAckChunk_Parse data = Parsed tt →
  ∃ s', HandleCookieAck data s = Ret tt s' ∧ established s' my_tag my_tsn peer_tag peer_tsn ∧ packets_of (sock_io_ s') = packets_of (sock_io_ s).
Proof using Hfair.
  intros (Hs & t & Ht & Hi & Hc & Hb) Hparse. unfold HandleCookieAck, with_chunk. rewrite Hparse. rewrite (bind_ret get _ s s s) by done. rewrite Hs, bool_decide_true by done. cbn [when].
  set (s1 := stop_t1_cookie s). rewrite (bind_ret (modify _) _ s tt s1) by done. set (t2 := t <| cookie_echo_chunk_ := None |>). set (s2 := s1 <| tcb_ := Some t2 |>).
  rewrite (bind_ret (on_block _) _ s1 tt s2) by (unfold on_block; change (tcb_ s1) with (tcb_ s); by rewrite Ht).
  set (s3 := s2 <| state_ := kEstablished |>). rewrite (bind_ret (SetState _) _ s2 tt s3) by done.
  set (s4 := s3 <| sock_io_ ::= (λ i, i <| calls_ ::= S |>) |>). rewrite (bind_ret (sock_io Now) _ s3 (env_now (calls_ (sock_io_ s3))) s4) by done.
  assert (idle t2) as Hi2 by (destruct Hi; by split).
  rewrite (bind_ret (on_block _) _ s4 tt s4) by (rewrite (SendBuffered_with s4 t2), (block_sends_plain Hfair s4 t2) by done; by rewrite decide_True).
  eexists. split; [done|]. split; [split; [done|]; exists t2; by split_and!|done].
Qed.
End Cookie.

(** ** The four packets *)

(** A call that sends one packet. *)
Definition sends (m : M Socket unit) (s : Socket) (payload : list Z) (s' : Socket) : Prop :=
  m s = Ret tt s' ∧ packets_of (sock_io_ s') = payload :: packets_of (sock_io_ s).

Section Exchange.
Context (P : Endpoint) {E : Endpoint}.
Hypothesis Hfair : fair E.
Hypothesis Hpeer : fair P.
Hypothesis Hcrc : @env_crc P = @env_crc E.

(** Both sides agree on packets without a checksum. *)
Lemma checksum_agreed : negb (zero_checksum (@negotiated (@options P) options)) = true ∨ zero_checksum_acceptable (packet_options options) = true.
Proof using Type.
  unfold negotiated, packet_options. cbn. destruct (Z.eqb_spec (zero_checksum_alternate_error_detection_method (@options P)) NoMethod) as [|Hm]; [by left|]. cbn.
  destruct (Z.eqb_spec (zero_checksum_alternate_error_detection_method (@options P)) (zero_checksum_alternate_error_detection_method options)) as [Hz|]; [|by left].
  right. rewrite <- Hz. by apply negb_true_iff, Z.eqb_neq.
Qed.

Lemma receive_announced {A} (fmt : WireFormat A) cfg c tag wc payload s (handle : CommonHeader → list Z → M Socket unit) (Q : Socket → Prop) :
  @announces P A fmt cfg c tag wc payload → wc = true ∨ zero_checksum_acceptable (packet_options options) = true → kType cfg ≠ kType DataChunkConfig →
  (∀ p d, descriptors_ p = [d] → verification_tag (common_header_ p) = tag → desc_type d = kType cfg → desc_flags d = Load8 1 (desc_data d) → fmt_parse fmt (desc_data d) = Parsed c → ValidatePacket p (counted s) = Ret true (counted s)) →
  (∀ header d, desc_type d = kType cfg → Dispatch header d = (handle header (desc_data d) ;; ret true)) →
  (∀ header data, verification_tag header = tag → fmt_parse fmt data = Parsed c → ∃ s', handle header data (counted s) = Ret tt s' ∧ Q s') →
  (∀ s' t, Q s' → tcb_ s' = Some t → idle t) → ∃ s', ReceivePacket payload s = Ret tt s' ∧ Q s'.
Proof using Hcrc.
  intros Ha Hwc Hs Hv Hd Hh Hi. destruct (Ha _ Hwc) as (p & Hp & d & Hds & Htag & [Hty Hfl] & Hparse). rewrite Hcrc in Hp.
  destruct (Hh (common_header_ p) (desc_data d) Htag Hparse) as (s' & Es & HQ). exists s'. split; [|done].
  apply (receive_one payload p d s true); try done; [by apply (Hv p d)|by rewrite Hty| |intros t; by apply Hi]. rewrite Hd by done. by rewrite (bind_ret _ _ _ _ _ Es).
Qed.

(** The packets one by one, in the view of who receives them. *)
Lemma receive_init s payload peer_tag peer_tsn : resting s → state_ s = kClosed → uint 32 peer_tag → peer_tag ≠ 0 → uint 32 peer_tsn →
  @announces P _ Init InitChunkConfig (@opening P [] (@announces_zero P) peer_tag peer_tsn) 0 true payload →
  ∃ tag tsn answered s', sends (ReceivePacket payload) s answered s' ∧ (uint 32 tag ∧ tag ≠ 0) ∧ uint 32 tsn ∧ resting s' ∧ state_ s' = kClosed
    ∧ announces InitAck InitAckChunkConfig (answer P peer_tag peer_tsn tag tsn) peer_tag (negb (zero_checksum (negotiated options (@options P)))) answered.
Proof using Hfair Hpeer Hcrc.
  intros Hr Hs Ht H0 Hn Ha.
  destruct (receive_announced Init InitChunkConfig _ 0 true payload s (λ _, HandleInit) (λ s', ∃ tag tsn answered, (uint 32 tag ∧ tag ≠ 0) ∧ uint 32 tsn ∧ resting s' ∧ state_ s' = kClosed
    ∧ packets_of (sock_io_ s') = answered :: packets_of (sock_io_ s)
    ∧ announces InitAck InitAckChunkConfig (answer P peer_tag peer_tsn tag tsn) peer_tag (negb (zero_checksum (negotiated options (@options P)))) answered) Ha)
    as (s' & E1 & tag & tsn & answered & HQ); [by left|done|..].
  - intros p d Hd Htag Hty _ _. unfold ValidatePacket, bind, get. rewrite Hd, Htag. cbn [Z.eqb]. by rewrite Hty.
  - intros header d Hty. unfold Dispatch. by rewrite Hty.
  - intros header data _ Hparse. destruct (HandleInit_answers P Hfair Hpeer (counted s) data peer_tag peer_tsn) as (tag & tsn & answered & s' & E1 & HQ); try done.
    exists s'. split; [done|]. by exists tag, tsn, answered.
  - intros s' t (tag & tsn & answered & _ & _ & (Hn' & _) & _) Ht'. congruence.
  - destruct HQ as (H1 & H2 & H3 & H4 & H5 & H6). by exists tag, tsn, answered, s'.
Qed.

Lemma receive_init_ack s payload my_tag my_tsn peer_tag peer_tsn : resting s → state_ s = kCookieWait → connect_params_ s = mkConnect my_tsn my_tag →
  my_tag ≠ 0 → uint 32 peer_tag →
  @announces P _ InitAck InitAckChunkConfig (@answer E P my_tag my_tsn peer_tag peer_tsn) my_tag (negb (zero_checksum (negotiated (@options P) options))) payload →
  let cookie := Cookie_Serialize (@cookie_for E P my_tag my_tsn peer_tag peer_tsn) in
  ∃ echoed s', sends (ReceivePacket payload) s echoed s' ∧ @echoing P E s' cookie my_tag my_tsn peer_tag peer_tsn ∧ announces CookieEcho CookieEchoChunkConfig cookie peer_tag true echoed.
Proof using Hfair Hpeer Hcrc.
  intros Hr Hs Hc H0 Hpt Ha cookie.
  destruct (receive_announced InitAck InitAckChunkConfig _ my_tag _ payload s (λ _, HandleInitAck) (λ s', ∃ echoed, echoing P s' cookie my_tag my_tsn peer_tag peer_tsn
    ∧ packets_of (sock_io_ s') = echoed :: packets_of (sock_io_ s) ∧ announces CookieEcho CookieEchoChunkConfig cookie peer_tag true echoed) Ha)
    as (s' & E1 & echoed & HQ); [apply checksum_agreed|done|..].
  - intros p d Hd Htag Hty _ _. unfold ValidatePacket, bind, get. rewrite Hd, Htag, (proj2 (Z.eqb_neq _ _) H0). cbn [head in_bounds ret]. rewrite Hty. cbn.
    change (connect_params_ (counted s)) with (connect_params_ s). rewrite Hc. cbn. by rewrite Z.eqb_refl.
  - intros header d Hty. unfold Dispatch. by rewrite Hty.
  - intros header data _ Hparse. destruct (HandleInitAck_echoes P Hfair Hpeer (counted s) data my_tag my_tsn peer_tag peer_tsn) as (echoed & s' & E1 & HQ); try done.
    exists s'. split; [done|]. by exists echoed.
  - intros s' t (echoed & (_ & t' & Ht' & Hi & _) & _) Ht. congruence.
  - destruct HQ as (H1 & H2 & H3). by exists echoed, s'.
Qed.

Lemma receive_cookie_echo s payload my_tag my_tsn peer_tag peer_tsn : resting s → state_ s = kClosed → uint 32 peer_tag → uint 32 peer_tsn → uint 32 my_tag → my_tag ≠ 0 → uint 32 my_tsn →
  @announces P _ CookieEcho CookieEchoChunkConfig (Cookie_Serialize (@cookie_for P E peer_tag peer_tsn my_tag my_tsn)) my_tag true payload →
  ∃ acked s', sends (ReceivePacket payload) s acked s' ∧ @established P E s' my_tag my_tsn peer_tag peer_tsn
    ∧ announces CookieAck CookieAckChunkConfig tt peer_tag (negb (zero_checksum (negotiated options (@options P)))) acked.
Proof using Hfair Hpeer Hcrc.
  intros Hr Hs Hpt Hptsn Hmt H0 Hmtsn Ha.
  destruct (receive_announced CookieEcho CookieEchoChunkConfig _ my_tag true payload s HandleCookieEcho (λ s', ∃ acked, established P s' my_tag my_tsn peer_tag peer_tsn
    ∧ packets_of (sock_io_ s') = acked :: packets_of (sock_io_ s)
    ∧ announces CookieAck CookieAckChunkConfig tt peer_tag (negb (zero_checksum (negotiated options (@options P)))) acked) Ha) as (s' & E1 & acked & HQ); [by left|done|..].
  - intros p d Hd Htag Hty _ _. unfold ValidatePacket, bind, get. rewrite Hd, Htag, (proj2 (Z.eqb_neq _ _) H0). cbn [head in_bounds ret]. by rewrite Hty.
  - intros header d Hty. unfold Dispatch. by rewrite Hty.
  - intros header data Htag Hparse. destruct (HandleCookieEcho_establishes P Hfair Hpeer (counted s) header data my_tag my_tsn peer_tag peer_tsn) as (acked & s' & E1 & HQ); try done.
    exists s'. split; [done|]. by exists acked.
  - intros s' t (acked & (_ & t' & Ht' & Hi & _) & _) Ht. congruence.
  - destruct HQ as (H1 & H2 & H3). by exists acked, s'.
Qed.

Lemma receive_cookie_ack s cookie payload my_tag my_tsn peer_tag peer_tsn : @echoing P E s cookie my_tag my_tsn peer_tag peer_tsn → my_tag ≠ 0 →
  @announces P _ CookieAck CookieAckChunkConfig tt my_tag (negb (zero_checksum (negotiated (@options P) options))) payload →
  ∃ s', ReceivePacket payload s = Ret tt s' ∧ @established P E s' my_tag my_tsn peer_tag peer_tsn ∧ packets_of (sock_io_ s') = packets_of (sock_io_ s).
Proof using Hfair Hcrc.
  intros He H0 Ha. assert (He' := He). destruct He' as (Hs & t & Ht & _ & _ & _ & Hmine & _).
  apply (receive_announced CookieAck CookieAckChunkConfig tt my_tag _ payload s (λ _, HandleCookieAck)
    (λ s', established P s' my_tag my_tsn peer_tag peer_tsn ∧ packets_of (sock_io_ s') = packets_of (sock_io_ s)) Ha); [apply checksum_agreed|done|..].
  - intros p d Hd Htag Hty _ _. unfold ValidatePacket, bind, get. rewrite Hd, Htag, (proj2 (Z.eqb_neq _ _) H0). cbn [head in_bounds ret]. rewrite Hty. cbn.
    unfold socket_verification_tag. change (tcb_ (counted s)) with (tcb_ s). by rewrite Ht, Hmine, Z.eqb_refl.
  - intros header d Hty. unfold Dispatch. by rewrite Hty.
  - intros header data _ Hparse. by apply (HandleCookieAck_establishes P Hfair (counted s) cookie).
  - intros s' t' ((_ & t'' & Ht'' & Hi & _) & _) Ht'. congruence.
Qed.
End Exchange.

(** C3: Two endpoints that have nothing to send yet: one connects to the other, and the four
    packets they then send take both to [kEstablished].  The verification tag and the first
    TSN of each are what the other takes for its peer's, both have settled on the same
    features and the least numbers of streams, and neither sends anything else. *)
Theorem handshake_establishes (A B : Endpoint) (sa sz : Socket) : fair A → fair B → @env_crc A = @env_crc B →
  resting sa → state_ sa = kClosed → resting sz → state_ sz = kClosed →
  ∃ init init_ack cookie_echo cookie_ack sa1 sz1 sa2 sz2 sa3 tag_a tsn_a tag_z tsn_z,
    sends (@Connect A) sa init sa1 ∧ sends (@ReceivePacket B init) sz init_ack sz1 ∧ sends (@ReceivePacket A init_ack) sa1 cookie_echo sa2
    ∧ sends (@ReceivePacket B cookie_echo) sz1 cookie_ack sz2
    ∧ @ReceivePacket A cookie_ack sa2 = Ret tt sa3 ∧ packets_of (sock_io_ sa3) = packets_of (sock_io_ sa2)
    ∧ @established B A sa3 tag_a tsn_a tag_z tsn_z ∧ @established A B sz2 tag_z tsn_z tag_a tsn_a.
Proof.
  intros HA HB Hcrc Hra Hsa Hrz Hsz.
  destruct (@Connect_sends A HA sa Hra Hsa) as (ta & na & init & sa1 & E1 & [Ha1 Ha0] & Hna & Hra1 & Hsa1 & Hca1 & Hp1 & An1).
  destruct (@receive_init A B HB HA Hcrc sz init ta na Hrz Hsz Ha1 Ha0 Hna An1) as (tz & nz & init_ack & sz1 & S2 & [Hz1 Hz0] & Hnz & Hrz1 & Hsz1 & An2).
  destruct (@receive_init_ack B A HA HB (eq_sym Hcrc) sa1 init_ack ta na tz nz Hra1 Hsa1 Hca1 Ha0 Hz1 An2) as (cookie_echo & sa2 & S3 & He & An3).
  destruct (@receive_cookie_echo A B HB HA Hcrc sz1 cookie_echo tz nz ta na Hrz1 Hsz1 Ha1 Hna Hz1 Hz0 Hnz An3) as (cookie_ack & sz2 & S4 & Hz & An4).
  destruct (@receive_cookie_ack B A HA (eq_sym Hcrc) sa2 _ cookie_ack ta na tz nz He Ha0 An4) as (sa3 & E5 & Hest & Hp5).
  by exists init, init_ack, cookie_echo, cookie_ack, sa1, sz1, sa2, sz2, sa3, ta, na, tz, nz.
Qed.

(** A socket that was just created rests. *)
Lemma new_rests {E : Endpoint} max_message_size : resting (DcSctpSocket_new max_message_size) ∧ state_ (DcSctpSocket_new max_message_size) = kClosed.
Proof. by split. Qed.

Import Sample.
Lemma sample_fair : fair sample_endpoint.
Proof. split; try done. intros n low high H. cbn. lia. Qed.
Lemma handshake_establishes_witness : ∃ init init_ack cookie_echo cookie_ack sa1 sz1 sa2 sz2 sa3, let s := DcSctpSocket_new 262144 in
  sends Connect s init sa1 ∧ sends (ReceivePacket init) s init_ack sz1 ∧ sends (ReceivePacket init_ack) sa1 cookie_echo sa2
  ∧ sends (ReceivePacket cookie_echo) sz1 cookie_ack sz2 ∧ ReceivePacket cookie_ack sa2 = Ret tt sa3 ∧ state_ sa3 = kEstablished ∧ state_ sz2 = kEstablished.
Proof.
  destruct (new_rests 262144) as [Hr Hs].
  destruct (handshake_establishes sample_endpoint sample_endpoint (DcSctpSocket_new 262144) (DcSctpSocket_new 262144) sample_fair sample_fair eq_refl Hr Hs Hr Hs)
    as (p1 & p2 & p3 & p4 & sa1 & sz1 & sa2 & sz2 & sa3 & ta & na & tz & nz & H1 & H2 & H3 & H4 & H5 & _ & [H6 _] & [H7 _]).
  exists p1, p2, p3, p4, sa1, sz1, sa2, sz2, sa3. cbv zeta. exact (conj H1 (conj H2 (conj H3 (conj H4 (conj H5 (conj H6 H7)))))).
Defined.
