(* ===== verification/Delivery.v ===== *)
(** * What a socket gives to the application

    The socket of [Socket] on top of the receiving side of [Receiver]: packets of DATA chunks
    go through the validation of the tag, the dispatch of the chunks, the control block and the
    acknowledgement at the end of the packet, and come out as calls of [OnMessageReceived]. *)

From S2P Require Import Prelude SeqNum SctpTimer SctpWire SctpPacket ReConfig DataTracker Reassembly ReassemblyQueue Receiver.
From S2P Require Import SendQueue OutstandingData RetransmissionQueue RRSendQueue StreamReset ControlWire ControlBlock Socket SocketInvariant SocketHistory Handshake.
Open Scope Z_scope.

(** ** The queue of a block without interleaving *)

Definition embed (q : ReassemblyQueue TraditionalStreams) : ReassemblyQueue AnyStreams :=
  ReassemblyQueue.mkQueue (max_size_bytes_ q) (watermark_bytes_ q) (queue_tsn_unwrapper_ q) (reassembled_messages_ q) (deferred_reset_streams_ q) (queued_bytes_ q)
    (TraditionalKind (ReassemblyQueue.streams_ q)).

Lemma embed_Add tsn d q : ReassemblyQueue.Queue_Add tsn d (embed q) = embed (ReassemblyQueue.Queue_Add tsn d q).
Proof.
  unfold ReassemblyQueue.Queue_Add. cbn [queue_tsn_unwrapper_ embed]. destruct (Unwrap _ _ _ _) as [x u]. destruct q as [mx wm u0 ms [df|] n st]; cbn -[Traditional_Add].
  - destruct (_ && _); [done|]. by destruct (Traditional_Add x d st) as [[bytes out] st'].
  - by destruct (Traditional_Add x d st) as [[bytes out] st'].
Qed.

(** Trackers that differ in the schedule of acknowledgements take the same chunks for new. *)
#[export] Instance same_data_sym : Symmetric same_data.
Proof. by intros d d' (? & ? & ?). Qed.
(** A tracker whose data are those of [d] but for the outcome of [f]. *)
Lemma data_through f g d d' : (∀ d, same_data d (f d)) → (∀ d, same_data d (g d)) → same_data d d' → same_data (f d) (g d').
Proof. intros Hf Hg H. transitivity d; [symmetry; apply Hf|]. by transitivity d'. Qed.

Lemma advance_cum_ack_data d d' : same_data d d' → same_data (advance_cum_ack d) (advance_cum_ack d').
Proof.
  intros (H1 & H2 & H3). unfold advance_cum_ack. rewrite H1, H2. destruct (additional_tsn_blocks_ d) as [|r l] eqn:El; [by split_and!; congruence|].
  destruct (_ =? _); split_and!; cbn; congruence.
Qed.
Lemma observe_tsn_data x d d' : same_data d d' → (observe_tsn x d').1 = (observe_tsn x d).1 ∧ same_data (observe_tsn x d).2 (observe_tsn x d').2.
Proof.
  intros H. pose proof H as (H1 & H2 & H3). unfold observe_tsn. rewrite H1, H2. destruct (_ <=? _).
  - split; [done|]. apply (data_through (UpdateAckState _ ∘ note_duplicate x) (UpdateAckState _ ∘ note_duplicate x)); [intros e..|done];
      (transitivity (note_duplicate x e); [apply note_duplicate_data|apply UpdateAckState_data]).
  - destruct (_ =? _); [split; [done|]; by apply advance_cum_ack_data|]. destruct (Add _ _) as [[] blocks]; (split; [done|]); [done|].
    by apply data_through; [apply note_duplicate_data..|].
Qed.
Lemma Observe_data tsn immediate d d' : same_data d d' →
  (Observe tsn immediate d').1 = (Observe tsn immediate d).1 ∧ same_data (Observe tsn immediate d).2 (Observe tsn immediate d').2.
Proof.
  intros H. pose proof H as (H1 & H2 & H3). unfold Observe. rewrite H3. destruct (Unwrap _ _ _ _) as [x u].
  destruct (observe_tsn_data x (d <| DataTracker.tsn_unwrapper_ := u |>) (d' <| DataTracker.tsn_unwrapper_ := u |>)) as [E1 E2]; [done|].
  destruct (observe_tsn x _) as [n e], (observe_tsn x _) as [n' e']. cbn in *. split; [done|]. by apply data_through; [apply schedule_ack_data..|].
Qed.

(** ** A socket that follows a receiver *)

Definition message_in (e : SocketEvent) : option DcSctpMessage := match e with OnMessageReceived m => Some m | _ => None end.
(** The messages the application was given, in order. *)
Definition delivered (s : Socket) : list DcSctpMessage :=
  reverse (omap message_in (trace_ (sock_io_ s))).
Definition follows (r : Receiver TraditionalStreams) (s : Socket) : Prop :=
  ∃ t, tcb_ s = Some t ∧ same_data (data_tracker_ r) (tracker t) ∧ reassembly t = embed (reassembly_queue_ r).
(** [s'] follows [r] with [out] delivered since [s], in the same state and with the same tags. *)
Definition advanced (r : Receiver TraditionalStreams) (out : list DcSctpMessage) (s s' : Socket) : Prop :=
  follows r s' ∧ delivered s' = delivered s ++ out ∧ state_ s' = state_ s ∧ socket_verification_tag s' = socket_verification_tag s.

Lemma advanced_trans r r' out out' s s1 s2 : advanced r out s s1 → advanced r' out' s1 s2 → advanced r' (out ++ out') s s2.
Proof. intros (_ & D1 & S1 & T1) (F2 & D2 & S2 & T2). split_and!; [done| |congruence..]. by rewrite D2, D1, <- app_assoc. Qed.
Lemma follows_advanced r s : follows r s → advanced r [] s s.
Proof. intros Hf. split_and!; [done|by rewrite app_nil_r|done..]. Qed.

Definition outcome_of (re : reaction) : list DcSctpMessage := match re with OnMessagesReceived out => out | _ => [] end.

Section Delivery.
Context `{!Endpoint}.

Definition count_message (m : Metrics) : Metrics := m <| rx_messages_count := wrap 64 (rx_messages_count m + 1) |>.
Lemma hand_over r s ms : follows r s → ∃ s', for_each (λ message, modify (λ s, s <| metrics_ ::= count_message |>) ;; sock_io (callback (OnMessageReceived message))) ms s = Ret tt s'
  ∧ advanced r ms s s'.
Proof using Type.
  revert s. induction ms as [|m ms IH]; intros s Hf; [exists s; split; [done|by apply follows_advanced]|].
  set (s1 := s <| metrics_ ::= count_message |> <| sock_io_ ::= (λ i, i <| trace_ ::= cons (OnMessageReceived m) |>) |>).
  assert (advanced r [m] s s1) as H1.
  { split_and!; [done| |done..]. unfold delivered. change (trace_ (sock_io_ s1)) with (OnMessageReceived m :: trace_ (sock_io_ s)). cbn [omap list_omap message_in]. by rewrite reverse_cons. }
  destruct (IH s1 (proj1 H1)) as (s' & E & Hs'). exists s'. split; [by cbn [for_each]|]. by apply (advanced_trans r r [m]) with s1.
Qed.

Lemma deliver r s : follows r s → let '(re, r') := ReassemblyQueue.MaybeDeliverMessages r in
  ∃ s', Socket.MaybeDeliverMessages s = Ret tt s' ∧ advanced r' (outcome_of re) s s'.
Proof using Type.
  intros (t & Ht & Hd & Hq). unfold ReassemblyQueue.MaybeDeliverMessages, FlushMessages.
  set (r' := r <| reassembly_queue_ := _ |>). set (s1 := s <| tcb_ := Some (set_reassembly (embed (reassembly_queue_ r')) t) |>).
  assert (follows r' s1) as Hf by (by eexists).
  destruct (hand_over r' s1 (reassembled_messages_ (reassembly_queue_ r)) Hf) as (s' & E & F' & D' & S' & T'). exists s'. split.
  - unfold Socket.MaybeDeliverMessages. rewrite (bind_ret the_tcb _ s t s) by (unfold the_tcb, bind, get; by rewrite Ht). rewrite Hq. cbn [FlushMessages reassembled_messages_ embed].
    rewrite (bind_ret (on_block _) _ s tt s1); [exact E|]. unfold on_block. rewrite Ht. by destruct s.
  - split_and!; [done|done|done|]. rewrite T'. unfold socket_verification_tag. by rewrite Ht.
Qed.

Lemma follows_set r s t : same_data (data_tracker_ r) (tracker t) → reassembly t = embed (reassembly_queue_ r) → follows r (s <| tcb_ := Some t |>).
Proof using Type. intros Hd Hq. by exists t. Qed.
(** An operation of the block that leaves its data. *)
Lemma block_advances {A} (m : M Block A) a r' s t t' i' : tcb_ s = Some t → m (mkBlock (sock_io_ s) (bool_decide (state_ s = kEstablished)) t) = Ret a (mkBlock i' (bool_decide (state_ s = kEstablished)) t') →
  follows r' (s <| tcb_ := Some t' |>) → my_verification_tag_ t' = my_verification_tag_ t →
  omap message_in (trace_ i') = omap message_in (trace_ (sock_io_ s)) →
  ∃ s', on_block m s = Ret a s' ∧ advanced r' [] s s'.
Proof using Type.
  intros Ht Hm Hf Htag Htr. eexists. split; [unfold on_block; rewrite Ht, Hm; reflexivity|].
  split_and!; [done| |done|].
  - unfold delivered. cbn [sock_io_ set_field Socket_eta io_]. by rewrite Htr, app_nil_r.
  - unfold socket_verification_tag. cbn. by rewrite Ht.
Qed.

(** A chunk: the socket does with its block what the receiver does. *)
Lemma handle_data r s c : follows r s → payload (data_ c) ≠ [] → is_full (reassembly_queue_ r) = false →
  let '(re, r') := ReassemblyQueue.HandleDataCommon c r in ∃ s', Socket.HandleDataCommon c s = Ret tt s' ∧ advanced r' (outcome_of re) s s'.
Proof using Type.
  intros Hf Hp Hfull. pose proof Hf as (t & Ht & Hd & Hq). unfold ReassemblyQueue.HandleDataCommon, Socket.HandleDataCommon.
  rewrite bool_decide_false, Hfull by done. rewrite (bind_ret the_tcb _ s t s) by (unfold the_tcb, bind, get; by rewrite Ht).
  rewrite Hq. change (is_full (embed _)) with (is_full (reassembly_queue_ r)). rewrite Hfull.
  change (is_above_watermark (embed _)) with (is_above_watermark (reassembly_queue_ r)).
  pose proof Hd as (D1 & D2 & D3). unfold will_increase_cum_ack_tsn, IsTSNValid. rewrite D1, D3.
  destruct (_ && _).
  { apply (block_advances _ tt _ s t (set_tracker (ForceImmediateSack (tracker t)) t) (sock_io_ s)); [done..| |done|done]. by apply follows_set. }
  destruct (negb _); [exists s; split; [done|by apply follows_advanced]|].
  destruct (Observe_data (tsn_ c) (immediate_ack_ c) (data_tracker_ r) (tracker t) Hd) as [E1 E2].
  destruct (Observe (tsn_ c) (immediate_ack_ c) (data_tracker_ r)) as [n d] eqn:Ed.
  destruct (Observe (tsn_ c) (immediate_ack_ c) (tracker t)) as [n' d'] eqn:Ed'. cbn in E1, E2. subst n'.
  set (t1 := set_tracker d' t <| delayed_ack_ ::= sync_delayed_ack (ack_state_ (tracker t)) (ack_state_ d') |>).
  destruct (block_advances (on_tracker (Observe (tsn_ c) (immediate_ack_ c))) n (r <| data_tracker_ := d |>) s t t1 (sock_io_ s)) as (s1 & Eb & A1); [done| |by apply follows_set|done|done|].
  { unfold on_tracker. cbn [tcb]. by rewrite Ed'. }
  rewrite (bind_ret _ _ _ _ _ Eb). destruct n; [|exists s1; by split]. cbn [when].
  pose proof A1 as ((t2 & Ht2 & Hd2 & Hq2) & _).
  destruct (block_advances (on_tcb (λ t, set_reassembly (ReassemblyQueue.Queue_Add (tsn_ c) (data_ c) (reassembly t)) t)) tt
    (r <| data_tracker_ := d |> <| reassembly_queue_ ::= ReassemblyQueue.Queue_Add (tsn_ c) (data_ c) |>) s1 t2
    (set_reassembly (ReassemblyQueue.Queue_Add (tsn_ c) (data_ c) (reassembly t2)) t2) (sock_io_ s1)) as (s2 & E2' & A2); [done|done| |done|done|].
  { apply follows_set; [done|]. change (ReassemblyQueue.Queue_Add (tsn_ c) (data_ c) (reassembly t2) = embed (ReassemblyQueue.Queue_Add (tsn_ c) (data_ c) (reassembly_queue_ r))).
    by rewrite <- embed_Add, Hq2. }
  rewrite (bind_ret _ _ _ _ _ E2'). pose proof (deliver _ s2 (proj1 A2)) as Hdel. destruct (ReassemblyQueue.MaybeDeliverMessages _) as [re r'].
  destruct Hdel as (s3 & E3 & A3). exists s3. split; [done|]. exact (advanced_trans _ _ [] _ _ _ _ A1 (advanced_trans _ _ [] _ _ _ _ A2 A3)).
Qed.

(** *** The end of a packet *)

Lemma ObservePacketEnd_data d : same_data d (ObservePacketEnd d).
Proof using Type. unfold ObservePacketEnd. destruct (ack_state_ d); try done; apply UpdateAckState_data. Qed.
Lemma ShouldSendAck_data also d : same_data d (ShouldSendAck also d).2.
Proof using Type. unfold ShouldSendAck. destruct (_ || _); [apply UpdateAckState_data|done]. Qed.

(** What the operations of the tracker leave of a block. *)
Definition same_block (t t' : TCB) : Prop :=
  same_data (tracker t) (tracker t') ∧ reassembly t' = reassembly t ∧ my_verification_tag_ t' = my_verification_tag_ t.
#[local] Instance same_block_trans : Transitive same_block.
Proof using Type. intros a b c (? & ? & ?) (? & ? & ?). split_and!; [by transitivity (tracker b)|congruence..]. Qed.
Lemma tracker_block {A} (f : DataTracker → A * DataTracker) b : (∀ d, same_data d (f d).2) →
  ∃ t', on_tracker f b = Ret (f (tracker (tcb b))).1 (b <| tcb := t' |>) ∧ same_block (tcb b) t'.
Proof using Type.
  intros Hf. unfold on_tracker. specialize (Hf (tracker (tcb b))). destruct (f _) as [a d]. eexists. split; [reflexivity|]. by split_and!.
Qed.

Lemma ack_added sack b : ∃ b', Builder_Add (SackChunk_SerializeTo sack) b = Parsed b'.
Proof using Type. unfold Builder_Add. rewrite SackChunk_bytes. by eexists. Qed.
Lemma sent_quietly builder write_checksum i : ∃ ok i', PacketSender_Send builder write_checksum i = Ret ok i' ∧ omap message_in (trace_ i') = omap message_in (trace_ i).
Proof using Type. unfold PacketSender_Send. destruct (out_ builder); eexists _, _; by split. Qed.

(** The packet ends with an acknowledgement or not; nothing is delivered. *)
Lemma end_of_packet b : ∃ t' i', (on_tracker (λ d, (tt, ObservePacketEnd d)) ;; tcb_MaybeSendSack) b = Ret tt (b <| tcb := t' |> <| io_ := i' |>) ∧ same_block (tcb b) t'
  ∧ omap message_in (trace_ i') = omap message_in (trace_ (io_ b)).
Proof using Type.
  destruct (tracker_block (λ d, (tt, ObservePacketEnd d)) b ObservePacketEnd_data) as (t1 & E1 & B1). rewrite (bind_ret _ _ _ _ _ E1). clear E1.
  unfold tcb_MaybeSendSack. destruct (tracker_block (ShouldSendAck false) (b <| tcb := t1 |>) (ShouldSendAck_data false)) as (t2 & E2 & B2).
  rewrite (bind_ret _ _ _ _ _ E2). clear E2. destruct (ShouldSendAck _ _).1; cbn [when]; [|exists t2, (io_ b); split_and!; [by destruct b|by transitivity t1|done]].
  set (b2 := b <| tcb := t1 |> <| tcb := t2 |>). rewrite (bind_ret (gets tcb) _ b2 t2 b2) by done.
  destruct (tracker_block (CreateSelectiveAck (remaining_bytes (reassembly t2))) b2) as (t3 & E3 & B3); [by intros d|].
  rewrite (bind_ret _ _ _ _ _ E3). clear E3.
  destruct (ack_added (CreateSelectiveAck (remaining_bytes (reassembly t2)) (tracker (tcb b2))).1 (PacketBuilder t2)) as [builder Eb].
  rewrite (bind_ret _ _ _ builder (b2 <| tcb := t3 |>)) by (unfold add_chunk; by rewrite Eb).
  unfold tcb_Send. rewrite (bind_ret (gets tcb) _ _ t3 (b2 <| tcb := t3 |>)) by done.
  destruct (sent_quietly builder (negb (zero_checksum (capabilities_ t3))) (io_ b)) as (ok & i' & Es & Hi).
  exists t3, i'. split_and!; [unfold on_io, lift, bind; change (io_ (b2 <| tcb := t3 |>)) with (io_ b); by rewrite Es| |exact Hi].
  transitivity t1; [exact B1|]. transitivity t2; [exact B2|exact B3].
Qed.

(** *** Packets *)

(** What a receiver makes of chunks that arrive one after the other. *)
Fixpoint given (chunks : list AnyDataChunk) (r : Receiver TraditionalStreams) : list DcSctpMessage :=
  match chunks with
  | [] => []
  | c :: chunks' => let '(re, r') := ReassemblyQueue.HandleDataCommon c r in outcome_of re ++ given chunks' r'
  end.
Definition after (chunks : list AnyDataChunk) (r : Receiver TraditionalStreams) : Receiver TraditionalStreams :=
  foldl (λ r c, (ReassemblyQueue.HandleDataCommon c r).2) r chunks.
(** Each has a payload and finds room. *)
Fixpoint finds_room (chunks : list AnyDataChunk) (r : Receiver TraditionalStreams) : Prop :=
  match chunks with
  | [] => True
  | c :: chunks' => payload (data_ c) ≠ [] ∧ is_full (reassembly_queue_ r) = false ∧ finds_room chunks' (ReassemblyQueue.HandleDataCommon c r).2
  end.
Lemma given_app cs cs' r : given (cs ++ cs') r = given cs r ++ given cs' (after cs r).
Proof using Type.
  revert r. induction cs as [|c cs IH]; intros r; [done|]. cbn [app given after foldl]. destruct (ReassemblyQueue.HandleDataCommon c r) as [re r'].
  by rewrite IH, app_assoc.
Qed.
Lemma finds_room_app cs cs' r : finds_room (cs ++ cs') r → finds_room cs r ∧ finds_room cs' (after cs r).
Proof using Type. revert r. induction cs as [|c cs IH]; intros r; [done|]. cbn [app finds_room]. intros (Hp & Hf & Hr). by destruct (IH _ Hr). Qed.

(** The bytes that the builder of a packet makes of DATA chunks. *)
Definition packet_of (tag : Z) (o : DcSctpOptions) (chunks : list AnyDataChunk) (data : list Z) : Prop :=
  ∃ b, add_all (AnyChunk _ DataChunk <$> chunks) (Builder_new tag o) = Parsed b ∧ data = (Builder_Build env_crc true b).1 ∧ Z.of_nat (length data) ≤ 65535.
Definition reads_as (d : ChunkDescriptor) (c : AnyDataChunk) : Prop := desc_type d = kType DataChunkConfig ∧ DataChunk_Parse (desc_data d) = Parsed c.

Lemma Data_reads : reads_type DataChunk DataChunkConfig.
Proof using Type. split; [done|]. split; [cbn; lia|]. intros data c. cbn [fmt_parse DataChunk]. unfold DataChunk_Parse. destruct (ParseTLV _ data) as [r| |]; [by eexists|done..]. Qed.
Lemma packet_of_read tag o chunks data : packet_of tag o chunks data → Forall DataChunk_wf chunks → chunks ≠ [] → uint 16 (local_port o) → uint 16 (remote_port o) → uint 32 tag →
  ∃ p, SctpPacket_Parse env_crc data (packet_options options) = Parsed p ∧ verification_tag (common_header_ p) = tag ∧ Forall2 reads_as (descriptors_ p) chunks.
Proof using Type.
  intros (b & Hb & -> & Hlen) Hwf Hne Hlp Hrp Htag.
  destruct (packet_read_back env_crc (AnyChunk _ DataChunk <$> chunks) tag o (packet_options options) true) as (b' & Hb' & Hp); try done; [|by destruct chunks|by left|].
  { apply Forall_fmap. eapply Forall_impl; [exact Hwf|]. intros c Hc. by split; [apply DataChunk_round_trips|]. }
  rewrite Hb in Hb'. injection Hb' as <-. destruct (Hp Hlen) as (p & Ep & _ & _ & Et & Hf). exists p. split_and!; [done|done|].
  apply packet_types in Ep. rewrite Forall2_fmap_l in Hf. clear -Ep Hf. revert Ep. induction Hf as [|c d cs ds Hd Hf IH]; intros Ep; [constructor|].
  apply list.Forall_cons in Ep as [[Ety _] Ep]. constructor; [|by apply IH]. split; [|exact Hd].
  destruct Data_reads as (Hcfg & _ & Hread). destruct (Hread _ _ Hd) as [r Hr]. rewrite Ety. by eapply ParseTLV_type.
Qed.

Lemma dispatch_data header ds chunks r s : Forall2 reads_as ds chunks → follows r s → finds_room chunks r →
  ∃ s', dispatch_all header ds s = Ret tt s' ∧ advanced (after chunks r) (given chunks r) s s'.
Proof using Type.
  intros Hds. revert r s. induction Hds as [|d c ds cs [Hty Hparse] _ IH]; intros r s Hf Hroom; [exists s; split; [done|by apply follows_advanced]|].
  destruct Hroom as (Hp & Hfull & Hroom). pose proof (handle_data r s c Hf Hp Hfull) as Hc. cbn [given after foldl] in *.
  destruct (ReassemblyQueue.HandleDataCommon c r) as [re r'] eqn:Ec. destruct Hc as (s1 & E1 & A1). cbn [snd] in *.
  destruct (IH r' s1 (proj1 A1) Hroom) as (s2 & E2 & A2). exists s2. split; [|by eapply advanced_trans].
  cbn [dispatch_all]. rewrite (bind_ret _ _ s true s1); [exact E2|]. unfold Dispatch. rewrite Hty. cbn [kType DataChunkConfig].
  rewrite (bind_ret _ _ s tt s1); [done|]. unfold with_chunk_and_tcb, with_chunk. rewrite Hparse.
  destruct Hf as (t & Ht & _). rewrite (bind_ret ValidateHasTCB _ s true s); [exact E1|]. unfold ValidateHasTCB, bind, get. by rewrite Ht.
Qed.

Lemma receive_data data p chunks r s : SctpPacket_Parse env_crc data (packet_options options) = Parsed p → Forall2 reads_as (descriptors_ p) chunks → chunks ≠ [] →
  verification_tag (common_header_ p) = socket_verification_tag s → socket_verification_tag s ≠ 0 → state_ s ≠ kShutdownSent → follows r s → finds_room chunks r →
  ∃ s', ReceivePacket data s = Ret tt s' ∧ advanced (after chunks r) (given chunks r) s s'.
Proof using Type.
  intros Hp Hds Hne Htag H0 Hst Hf Hroom. unfold ReceivePacket. rewrite Hp. rewrite (bind_ret (modify _) _ _ tt (counted s)) by done.
  assert (ValidatePacket p (counted s) = Ret true (counted s)) as Hv.
  { unfold ValidatePacket, bind, get. rewrite Htag, (proj2 (Z.eqb_neq _ _) H0). destruct Hds as [|d c ds cs [Hty _] _]; [done|]. cbn [head in_bounds ret]. rewrite Hty.
    change (socket_verification_tag (counted s)) with (socket_verification_tag s). rewrite Z.eqb_refl. by destruct ds. }
  rewrite (bind_ret _ _ _ _ _ Hv). cbn [when].
  rewrite (bind_ret (MaybeSendShutdownOnPacketReceived p) _ _ tt (counted s)).
  2:{ unfold MaybeSendShutdownOnPacketReceived, bind, get. change (state_ (counted s)) with (state_ s). by rewrite bool_decide_false. }
  destruct (dispatch_data (common_header_ p) (descriptors_ p) chunks r (counted s) Hds Hf Hroom) as (s1 & E1 & A1). rewrite (bind_ret _ _ _ _ _ E1).
  rewrite (bind_ret get _ s1 s1 s1) by done. pose proof A1 as ((t & Ht & Hd & Hq) & _). rewrite Ht.
  destruct (end_of_packet (mkBlock (sock_io_ s1) (bool_decide (state_ s1 = kEstablished)) t)) as (t' & i' & Ee & (B1 & B2 & B3) & Htr).
  destruct (block_advances (on_tracker (λ d, (tt, ObservePacketEnd d)) ;; tcb_MaybeSendSack) tt (after chunks r) s1 t t' i') as (s2 & E2 & A2); [done|exact Ee| |done|exact Htr|].
  { apply follows_set; [by transitivity (tracker t)|by rewrite B2]. }
  exists s2. split; [exact E2|]. pose proof (advanced_trans _ _ _ [] _ _ _ A1 A2) as A3. by rewrite app_nil_r in A3.
Qed.

(** *** A run of packets *)

Lemma receive_packets tag o lss packets r s : socket_verification_tag s = tag → uint 32 tag → tag ≠ 0 → uint 16 (local_port o) → uint 16 (remote_port o) → state_ s ≠ kShutdownSent →
  Forall2 (λ cs data, cs ≠ [] ∧ packet_of tag o cs data) lss packets → Forall DataChunk_wf (concat lss) → follows r s → finds_room (concat lss) r →
  ∃ s', for_each ReceivePacket packets s = Ret tt s' ∧ advanced (after (concat lss) r) (given (concat lss) r) s s'.
Proof using Type.
  intros Htag Ht H0 Hlp Hrp Hst Hps. revert r s Htag Hst. induction Hps as [|cs data lss packets [Hne Hp] _ IH]; intros r s Htag Hst Hwf Hf Hroom.
  { exists s. split; [done|by apply follows_advanced]. }
  cbn [concat] in *. apply Forall_app in Hwf as [Hwf1 Hwf2]. apply finds_room_app in Hroom as [Hroom1 Hroom2].
  destruct (packet_of_read tag o cs data Hp Hwf1 Hne Hlp Hrp Ht) as (p & Ep & Hh & Hds).
  destruct (receive_data data p cs r s Ep Hds Hne) as (s1 & E1 & A1); [congruence|congruence|done..|]. pose proof A1 as (F1 & _ & S1 & T1).
  destruct (IH (after cs r) s1) as (s2 & E2 & A2); [congruence|congruence|done..|]. exists s2. split; [cbn [for_each]; by rewrite (bind_ret _ _ _ _ _ E1)|].
  rewrite given_app. unfold after. rewrite foldl_app. by apply (advanced_trans _ _ _ _ _ _ _ A1).
Qed.

Lemma received_given sid messages immediate l r : received sid messages immediate l r = given (Receiver.chunk_of sid messages immediate <$> l) r.
Proof using Type. revert r. induction l as [|p l IH]; intros r; [done|]. cbn. destruct (ReassemblyQueue.HandleDataCommon _ r). by rewrite IH. Qed.
Lemma flows_room sid messages total immediate l r : (∀ i, (i < total)%nat → sent_ok (messages i)) → Forall (is_fragment messages total) l →
  flows sid messages immediate l r → finds_room (Receiver.chunk_of sid messages immediate <$> l) r.
Proof using Type.
  intros Hm Hl. revert r. induction Hl as [|[i j] l [Hi Hj] _ IH]; intros r; [done|]. cbn [flows]. intros (_ & Hfull & _ & Hfl). split_and!; [|done|by apply IH].
  exact (proj1 (bool_decide_eq_false _) (fragment_payload sid messages total Hm i j Hi Hj)).
Qed.

(** The values of the fields fit their places in a DATA chunk. *)
Definition fits (m : sent_message) : Prop := uint 32 (sent_ppid m) ∧ Forall (λ f : list Z, Z.of_nat (16 + length f) < 2 ^ 16) (sent_fragments m).
Lemma fits_wf sid messages total immediate l : uint 16 sid → (∀ i, (i < total)%nat → fits (messages i)) → Forall (is_fragment messages total) l →
  Forall DataChunk_wf (Receiver.chunk_of sid messages immediate <$> l).
Proof using Type.
  intros Hsid Hm Hl. apply Forall_fmap. eapply Forall_impl; [exact Hl|]. intros [i j] [Hi Hj]. destruct (Hm i Hi) as [Hppid Hlen].
  unfold DataChunk_wf. cbn. split_and!; [by apply wrap_uint|done|by apply wrap_uint|done|done|done|]. rewrite Forall_forall in Hlen. apply Hlen, list_elem_of_In, nth_In. exact Hj.
Qed.

(** C6: A socket whose block is new, and which has not sent SHUTDOWN, gets packets of DATA chunks
    with its verification tag, built from the fragments of the messages of an ordered stream,
    whose TSNs ascend.  The fragments may be out of order, repeated and missing, within two
    limits: [flows] - the TSN of each is at most 100000 from the cumulative one, and the queue
    is neither full, which aborts the association, nor above its watermark; and [near] -
    successive new fragments belong to messages less than [2 ^ 15] apart, as stream sequence
    numbers have 16 bits.  Then the packets are received without a fault, the state stays, and
    the application is given the messages before the first that misses a fragment, each once,
    in the order of the sender, and complete. *)
Theorem socket_delivers_in_order sid messages total immediate first_tsn max watermark o groups packets s t :
  uint 16 sid → (∀ i, (i < total)%nat → sent_ok (messages i) ∧ fits (messages i)) → uint 16 (local_port o) → uint 16 (remote_port o) →
  (∀ i i', (i < i' < total)%nat → sent_tsn (messages i) + Z.of_nat (fragment_count (messages i)) ≤ sent_tsn (messages i')) →
  (∀ i, (i < total)%nat → wrap 32 (first_tsn - 1) < sent_tsn (messages i)) →
  tcb_ s = Some t → tracker t = DataTracker_new first_tsn → reassembly t = ReassemblyQueue.Queue_new max watermark (TraditionalKind TraditionalStreams_new) →
  state_ s ≠ kShutdownSent → uint 32 (my_verification_tag_ t) → my_verification_tag_ t ≠ 0 →
  Forall (is_fragment messages total) (concat groups) → near 0 (fresh (λ _ _, false) (concat groups)) →
  flows sid messages immediate (concat groups) (mkReceiver (DataTracker_new first_tsn) (ReassemblyQueue.Queue_new max watermark TraditionalStreams_new)) →
  Forall2 (λ l data, l ≠ [] ∧ packet_of (my_verification_tag_ t) o (Receiver.chunk_of sid messages immediate <$> l) data) groups packets →
  ∃ s' k, for_each ReceivePacket packets s = Ret tt s' ∧ state_ s' = state_ s
    ∧ delivered s' = delivered s ++ ((λ i, mkMessage sid (sent_ppid (messages i)) (concat (sent_fragments (messages i)))) <$> seq 0 k)
    ∧ (k ≤ total)%nat
    ∧ (∀ i j, (i < k)%nat → (j < fragment_count (messages i))%nat → (i, j) ∈ concat groups)
    ∧ ((k < total)%nat → ∃ j, (j < fragment_count (messages k))%nat ∧ (k, j) ∉ concat groups).
Proof using Type.
  intros Hsid Hm Hlp Hrp Hsorted Hfirst Ht Htr Hq Hst Htag H0 Hl Hnear Hfl Hps. set (r := mkReceiver _ _) in Hfl.
  assert (∀ i, (i < total)%nat → sent_ok (messages i)) as Hok by (intros i Hi; by apply Hm).
  destruct (receiver_from_start sid messages total immediate first_tsn max watermark (concat groups) Hok Hsorted Hfirst Hl Hfl Hnear) as (k & have & shift & Hw & Hhave & Hrec).
  assert (concat ((λ l : list (nat * nat), Receiver.chunk_of sid messages immediate <$> l) <$> groups) = Receiver.chunk_of sid messages immediate <$> concat groups) as Ec.
  { clear. induction groups as [|l groups' IH]; [done|]. cbn [concat fmap list_fmap]. by rewrite fmap_app, IH. }
  destruct (receive_packets (my_verification_tag_ t) o ((λ l : list (nat * nat), Receiver.chunk_of sid messages immediate <$> l) <$> groups) packets r s) as (s' & E & (_ & D & S & _)); try done.
  - unfold socket_verification_tag. by rewrite Ht.
  - apply Forall2_fmap_l. eapply Forall2_impl; [exact Hps|]. intros l data [Hne Hp]. split; [by destruct l|exact Hp].
  - rewrite Ec. apply (fits_wf sid messages total); [done|intros i Hi; by apply Hm|done].
  - exists t. split_and!; [done|by rewrite Htr|by rewrite Hq].
  - rewrite Ec. by apply (flows_room sid messages total).
  - exists s', k. fold r in Hrec. rewrite Ec, <- received_given, Hrec in D. do 3 (split; [done|]). exact (waiting_lists _ _ _ _ _ Hw Hhave).
Qed.
End Delivery.

(** The connected socket of [Sample], and three messages from its peer, of which the last is
    not complete. *)
Import Sample.
Definition talk (i : nat) : sent_message :=
  match i with 0%nat => mkSent 17 51 [[1; 2]; [3]] | 1%nat => mkSent 19 51 [[4]] | _ => mkSent 20 53 [[5]; [6]; [7; 8]] end.
Definition talk_groups : list (list (nat * nat)) := [[(1, 0); (2, 2)]; [(0, 1)]; [(1, 0); (0, 0); (0, 1)]; [(2, 0)]]%nat.
Definition peer_options : DcSctpOptions := packet_options sample_options.
Definition talk_packet (l : list (nat * nat)) : list Z :=
  match add_all (AnyChunk _ DataChunk <$> (Receiver.chunk_of 7 talk (λ _, false) <$> l)) (Builder_new 18 peer_options) with
  | Parsed b => (Builder_Build env_crc true b).1
  | _ => []
  end.

Lemma talk_fits i : (i < 3)%nat → sent_ok (talk i) ∧ fits (talk i).
Proof. intros Hi. destruct i as [|[|[|]]]; [| | |lia]; (split; [unfold sent_ok, fragment_count|unfold fits]); cbn; split_and!; try done; by repeat constructor. Qed.

Lemma talk_numbers : uint 16 7 ∧ uint 32 18 ∧ uint 16 (local_port peer_options) ∧ uint 16 (remote_port peer_options).
Proof. by vm_compute. Qed.
Lemma talk_sorted i i' : (i < i' < 3)%nat → sent_tsn (talk i) + Z.of_nat (fragment_count (talk i)) ≤ sent_tsn (talk i').
Proof. intros Hi. destruct i as [|[|[|]]], i' as [|[|[|]]]; cbn; lia. Qed.
Lemma talk_first i : (i < 3)%nat → wrap 32 (17 - 1) < sent_tsn (talk i).
Proof. intros Hi. destruct i as [|[|[|]]]; vm_compute; done || lia. Qed.
Lemma talk_fragments : Forall (is_fragment talk 3) (concat talk_groups).
Proof. repeat constructor; cbn; lia. Qed.
Lemma talk_packets : Forall2 (λ l data, l ≠ [] ∧ packet_of 18 peer_options (Receiver.chunk_of 7 talk (λ _, false) <$> l) data) talk_groups (talk_packet <$> talk_groups).
Proof. repeat constructor; try done; (eexists; split; [by vm_compute|split; by vm_compute]). Qed.

Lemma socket_delivers_in_order_witness : state_ server = kEstablished
  ∧ ∃ s' k, for_each ReceivePacket (talk_packet <$> talk_groups) server = Ret tt s' ∧ state_ s' = kEstablished
      ∧ delivered s' = delivered server ++ ((λ i, mkMessage 7 (sent_ppid (talk i)) (concat (sent_fragments (talk i)))) <$> seq 0 k)
      ∧ (k ≤ 3)%nat.
Proof.
  assert (state_ server = kEstablished) as Hs by (by vm_compute). split; [exact Hs|].
  destruct (tcb_ server) as [t|] eqn:Et; [|exfalso; revert Et; by vm_compute].
  assert (my_verification_tag_ t = 18 ∧ tracker t = DataTracker_new 17 ∧ reassembly t = ReassemblyQueue.Queue_new 5242880 4718592 (TraditionalKind TraditionalStreams_new)) as (Htag & Htr & Hq).
  { assert (option_map (λ t, (my_verification_tag_ t, tracker t, reassembly t)) (tcb_ server)
      = Some (18, DataTracker_new 17, ReassemblyQueue.Queue_new 5242880 4718592 (TraditionalKind TraditionalStreams_new))) as E by (by vm_compute).
    rewrite Et in E. apply (inj Some) in E. exact (conj (f_equal (λ p, p.1.1) E) (conj (f_equal (λ p, p.1.2) E) (f_equal snd E))). }
  destruct (socket_delivers_in_order 7 talk 3 (λ _, false) 17 5242880 4718592 peer_options talk_groups (talk_packet <$> talk_groups) server t)
    as (s' & k & E & S & D & K & _); [..|exists s', k; split; [exact E|split; [exact (eq_trans S Hs)|split; [exact D|exact K]]]].
  - apply talk_numbers.
  - exact talk_fits.
  - apply talk_numbers.
  - apply talk_numbers.
  - exact talk_sorted.
  - exact talk_first.
  - exact Et.
  - exact Htr.
  - exact Hq.
  - rewrite Hs. discriminate.
  - rewrite Htag. apply talk_numbers.
  - rewrite Htag. discriminate.
  - exact talk_fragments.
  - vm_compute. repeat split; reflexivity.
  - vm_compute. repeat split; discriminate.
  - rewrite Htag. exact talk_packets.
Defined.
