(* ===== verification/Teardown.v ===== *)
(** * The end of an association

    An association that is up and has nothing outstanding is shut down: the three packets
    SHUTDOWN, SHUTDOWN ACK and SHUTDOWN COMPLETE close both sockets. *)

From S2P Require Import Prelude SeqNum SctpTimer SctpWire SctpPacket ReConfig DataTracker Reassembly ReassemblyQueue.
From S2P Require Import SendQueue OutstandingData RetransmissionQueue RRSendQueue StreamReset ControlWire ControlBlock Socket SocketInvariant SocketHistory Handshake.
Open Scope Z_scope.

Lemma Word_reads : reads_type ControlWire.Shutdown ShutdownChunkConfig.
Proof. split; [done|]. split; [cbn; lia|]. intros data c. cbn [fmt_parse ControlWire.Shutdown WordFormat]. unfold Word_Parse. destruct (ParseTLV _ data) as [r| |]; [by eexists|done..]. Qed.
Lemma ShutdownAck_reads : reads_type ShutdownAck ShutdownAckChunkConfig.
Proof. split; [done|]. split; [cbn; lia|]. intros data c. cbn [fmt_parse ShutdownAck EmptyFormat]. unfold Empty_Parse. destruct (ParseTLV _ data) as [r| |]; [by eexists|done..]. Qed.
Lemma ShutdownComplete_reads : reads_type ShutdownComplete ShutdownCompleteChunkConfig.
Proof.
  split; [done|]. split; [cbn; lia|]. intros data c. cbn [fmt_parse ShutdownComplete]. unfold ShutdownCompleteChunk_Parse.
  destruct (ParseTLV _ data) as [r| |]; [by eexists|done..].
Qed.

(** A socket in a state, with a block that has nothing to send. *)
Definition at_rest (s : Socket) (state : State) (t : TCB) : Prop := state_ s = state ∧ tcb_ s = Some t ∧ idle t.
(** No block, whose timers are gone with it, and none of the three timers of the socket runs. *)
Definition closed (s : Socket) : Prop :=
  state_ s = kClosed ∧ tcb_ s = None ∧ is_running_ (t1_init_ s) = false ∧ is_running_ (t1_cookie_ s) = false ∧ is_running_ (t2_shutdown_ s) = false.
(** All that a socket has sent and called between [s] and [s'], the latest first. *)
Definition since (s s' : Socket) (events : list SocketEvent) : Prop := trace_ (sock_io_ s') = events ++ trace_ (sock_io_ s).

Lemma InternalClose_closes s : state_ s ≠ kClosed → ∃ s', InternalClose kNoError [] s = Ret tt s' ∧ closed s' ∧ trace_ (sock_io_ s') = OnClosed :: trace_ (sock_io_ s).
Proof.
  intros Hs. unfold InternalClose. rewrite (bind_ret get _ s s s) by done. rewrite bool_decide_false by done. cbn [negb when]. eexists. split; [done|].
  split; [|done]. split; [done|]. split; [done|]. split_and!; apply timer_stopped.
Qed.
Lemma ParseTLV_second cfg data r : (4 ≤ kHeaderSize cfg)%nat → ParseTLV cfg data = Parsed r → Load8 1 r = Load8 1 data.
Proof.
  intros H4. assert (∀ n x, BoundedByteReader (kHeaderSize cfg) (take n data) = Parsed x → Load8 1 x = Load8 1 data) as Hr.
  { intros n x. unfold BoundedByteReader. destruct (Nat.leb_spec (kHeaderSize cfg) (length (take n data))) as [Hl|]; [|done]. intros [= <-].
    rewrite length_take in Hl. destruct n as [|[|n]]; [lia|lia|]. by destruct data as [|? []]. }
  unfold ParseTLV. destruct (_ <? _)%nat; [done|]. unfold BoundedByteReader at 1. destruct (_ <=? _)%nat; [|done]. cbn [pbind]. destruct (negb _); [done|].
  destruct (_ =? 0); [destruct (negb _ || negb _); [done|apply Hr]|]. destruct (_ || _); [done|]. destruct (3 <? _); [done|]. destruct (negb _); [done|apply Hr].
Qed.

(** A packet that is not one of the exceptions is accepted with the own tag. *)
Lemma own_tag {E : Endpoint} s t p d : tcb_ s = Some t → my_verification_tag_ t ≠ 0 → descriptors_ p = [d] → verification_tag (common_header_ p) = my_verification_tag_ t →
  (desc_type d =? kType AbortChunkConfig) = false → (desc_type d =? kType InitAckChunkConfig) = false → (desc_type d =? kType ShutdownCompleteChunkConfig) = false →
  ValidatePacket p (counted s) = Ret true (counted s).
Proof.
  intros Ht H0 Hd Hh T1 T2 T3. unfold ValidatePacket, bind, get. rewrite Hd, Hh, (proj2 (Z.eqb_neq _ _) H0). cbn [head in_bounds ret]. rewrite T1, T2, T3.
  destruct (_ =? kType CookieEchoChunkConfig); [done|]. unfold socket_verification_tag. change (tcb_ (counted s)) with (tcb_ s). by rewrite Ht, Z.eqb_refl.
Qed.

Section Side.
Context (P : Endpoint) {E : Endpoint}.
Hypothesis Hfair : fair E.
Hypothesis Hcrc : @env_crc P = @env_crc E.

Lemma send_plain {A} (fmt : WireFormat A) cfg c tag bytes s : RoundTrips fmt → reads_type fmt cfg → fmt_wf fmt c → uint 32 tag →
  fmt_serialize fmt c [] = Parsed bytes → Z.of_nat (length bytes) ≤ 65500 →
  ∃ payload, send_chunk tag (fmt_serialize fmt c) s = Ret tt (s <| sock_io_ ::= departed payload |>) ∧ announces fmt cfg c tag true payload.
Proof using Hfair. intros. by apply send_one with (bytes := bytes). Qed.

Lemma SendShutdown_sends s state t : at_rest s state t → uint 32 (peer_verification_tag_ t) →
  ∃ payload, SendShutdown s = Ret tt (s <| sock_io_ ::= departed payload |>)
    ∧ announces ControlWire.Shutdown ShutdownChunkConfig (last_cumulative_acked_tsn (tracker t)) (peer_verification_tag_ t) true payload.
Proof using Hfair.
  intros (_ & Ht & _) Htag. destruct (send_plain ControlWire.Shutdown ShutdownChunkConfig (last_cumulative_acked_tsn (tracker t)) (peer_verification_tag_ t)
    (ShutdownChunk_SerializeTo (last_cumulative_acked_tsn (tracker t)) []) s) as (payload & Hs & Ha); try done; [apply _|apply Word_reads|by apply wrap_uint|].
  exists payload. split; [|done]. unfold SendShutdown. rewrite (bind_ret the_tcb _ s t s) by (unfold the_tcb, bind, get; by rewrite Ht). exact Hs.
Qed.
Lemma SendShutdownAck_sends s state t : at_rest s state t → uint 32 (peer_verification_tag_ t) →
  ∃ payload s', SendShutdownAck s = Ret tt s' ∧ at_rest s' state t ∧ since s s' [SentPacket payload kSuccess]
    ∧ announces ShutdownAck ShutdownAckChunkConfig tt (peer_verification_tag_ t) true payload.
Proof using Hfair.
  intros (Hs & Ht & Hi) Htag. destruct (send_plain ShutdownAck ShutdownAckChunkConfig tt (peer_verification_tag_ t) (ShutdownAckChunk_SerializeTo []) s) as (payload & Hsend & Ha);
    try done; [apply _|apply ShutdownAck_reads|].
  set (s1 := s <| sock_io_ ::= departed payload |>). eexists payload, _. split; [|split; [|split; [|exact Ha]]].
  - unfold SendShutdownAck. rewrite (bind_ret the_tcb _ s t s) by (unfold the_tcb, bind, get; by rewrite Ht).
    change (total ShutdownAckChunk_SerializeTo) with (fmt_serialize ShutdownAck tt). rewrite (bind_ret _ _ _ _ _ Hsend). unfold start_t2.
    rewrite (bind_ret the_tcb _ s1 t s1) by (unfold the_tcb, bind, get; change (tcb_ s1) with (tcb_ s); by rewrite Ht). done.
  - by split.
  - done.
Qed.

(** The application asks for it. *)
Lemma Shutdown_sends s t : at_rest s kEstablished t → uint 32 (peer_verification_tag_ t) →
  ∃ payload s', Socket.Shutdown s = Ret tt s' ∧ since s s' [SentPacket payload kSuccess] ∧ at_rest s' kShutdownSent t
    ∧ announces ControlWire.Shutdown ShutdownChunkConfig (last_cumulative_acked_tsn (tracker t)) (peer_verification_tag_ t) true payload.
Proof using Hfair.
  intros (Hs & Ht & Hi) Htag. set (s1 := stop_t1_cookie (stop_t1_init (s <| state_ := kShutdownPending |>))).
  destruct (SendShutdown_sends s1 kShutdownPending t) as (payload & Hsend & Ha); try done. set (s2 := s1 <| sock_io_ ::= departed payload |>).
  eexists payload, _. split; [|split; [|split; [|exact Ha]]].
  - unfold Socket.Shutdown. rewrite (bind_ret get _ s s s) by done. rewrite Ht, Hs. rewrite !bool_decide_false by done. cbn [negb andb when].
    rewrite (bind_ret (SetState _) _ s tt (s <| state_ := kShutdownPending |>)) by done. rewrite (bind_ret (modify _) _ _ tt (stop_t1_init (s <| state_ := kShutdownPending |>))) by done.
    rewrite (bind_ret (modify _) _ _ tt s1) by done. unfold MaybeSendShutdownOrAck. rewrite (bind_ret the_tcb _ s1 t s1) by (unfold the_tcb, bind, get; change (tcb_ s1) with (tcb_ s); by rewrite Ht).
    rewrite (idle_unacked _ (idle_data _ Hi)). cbn [Z.eqb negb]. rewrite (bind_ret get _ s1 s1 s1) by done. change (state_ s1) with kShutdownPending. cbv iota.
    rewrite (bind_ret _ _ _ _ _ Hsend). unfold start_t2 at 1. unfold bind at 1.
    rewrite (bind_ret the_tcb _ s2 t s2) by (unfold the_tcb, bind, get; change (tcb_ s2) with (tcb_ s); by rewrite Ht). done.
  - done.
  - by split.
Qed.

(** The peer is asked to. *)
Lemma receive_shutdown s t payload tsn : at_rest s kEstablished t → my_verification_tag_ t ≠ 0 → uint 32 (peer_verification_tag_ t) →
  @announces P _ ControlWire.Shutdown ShutdownChunkConfig tsn (my_verification_tag_ t) true payload →
  ∃ acked s', ReceivePacket payload s = Ret tt s' ∧ since s s' [SentPacket acked kSuccess] ∧ at_rest s' kShutdownAckSent t
    ∧ announces ShutdownAck ShutdownAckChunkConfig tt (peer_verification_tag_ t) true acked.
Proof using Hfair Hcrc.
  intros (Hs & Ht & Hi) H0 Htag Ha.
  destruct (receive_announced P Hcrc ControlWire.Shutdown ShutdownChunkConfig tsn (my_verification_tag_ t) true payload s (λ _, HandleShutdown) (λ s', ∃ acked, at_rest s' kShutdownAckSent t
    ∧ since s s' [SentPacket acked kSuccess] ∧ announces ShutdownAck ShutdownAckChunkConfig tt (peer_verification_tag_ t) true acked) Ha)
    as (s' & E1 & acked & HQ); [by left|done|..].
  - intros p d Hd Hh Hty _ _. apply (own_tag s t p d); try done; by rewrite Hty.
  - intros header d Hty. unfold Dispatch. by rewrite Hty.
  - intros header data _ Hparse. set (s1 := counted s <| state_ := kShutdownReceived |>).
    destruct (SendShutdownAck_sends s1 kShutdownReceived t) as (acked & s2 & E2 & (_ & Ht2 & _) & Hp2 & Ha2); try done.
    exists (s2 <| state_ := kShutdownAckSent |>). split; [|exists acked; by split_and!].
    unfold HandleShutdown, with_chunk. change (fmt_parse ControlWire.Shutdown data) with (ShutdownChunk_Parse data) in Hparse. rewrite Hparse.
    rewrite (bind_ret get _ (counted s) (counted s) (counted s)) by done. change (state_ (counted s)) with (state_ s). rewrite Hs.
    rewrite (bind_ret (SetState _) _ _ tt s1) by done. unfold MaybeSendShutdownOrAck. rewrite (bind_ret the_tcb _ s1 t s1) by (unfold the_tcb, bind, get; change (tcb_ s1) with (tcb_ s); by rewrite Ht).
    rewrite (idle_unacked _ (idle_data _ Hi)). cbn [Z.eqb negb]. rewrite (bind_ret get _ s1 s1 s1) by done. change (state_ s1) with kShutdownReceived. cbv iota.
    by rewrite (bind_ret _ _ _ _ _ E2).
  - intros s' t' (acked & (_ & Ht' & Hi') & _) Ht''. congruence.
  - destruct HQ as (H1 & H2 & H3). by exists acked, s'.
Qed.

(** The first side learns that the peer is done. *)
Lemma receive_shutdown_ack s t payload : at_rest s kShutdownSent t → my_verification_tag_ t ≠ 0 → uint 32 (peer_verification_tag_ t) →
  @announces P _ ShutdownAck ShutdownAckChunkConfig tt (my_verification_tag_ t) true payload →
  ∃ completed s', ReceivePacket payload s = Ret tt s' ∧ closed s' ∧ since s s' [OnClosed; SentPacket completed kSuccess]
    ∧ announces ShutdownComplete ShutdownCompleteChunkConfig false (peer_verification_tag_ t) true completed.
Proof using Hfair Hcrc.
  intros (Hs & Ht & Hi) H0 Htag Ha.
  destruct (receive_announced P Hcrc ShutdownAck ShutdownAckChunkConfig tt (my_verification_tag_ t) true payload s HandleShutdownAck (λ s', ∃ completed, closed s' ∧ since s s' [OnClosed; SentPacket completed kSuccess]
    ∧ announces ShutdownComplete ShutdownCompleteChunkConfig false (peer_verification_tag_ t) true completed) Ha)
    as (s' & E1 & completed & HQ); [by left|done|..].
  - intros p d Hd Hh Hty _ _. apply (own_tag s t p d); try done; by rewrite Hty.
  - intros header d Hty. unfold Dispatch. by rewrite Hty.
  - intros header data _ Hparse. destruct (send_plain ShutdownComplete ShutdownCompleteChunkConfig false (peer_verification_tag_ t) (ShutdownCompleteChunk_SerializeTo false []) (counted s))
      as (completed & Hsend & Hp); try done; [apply _|apply ShutdownComplete_reads|].
    destruct (InternalClose_closes (counted s <| sock_io_ ::= departed completed |>)) as (s' & E1 & Hcl & Htr); [cbn; by rewrite Hs|].
    exists s'. split; [|exists completed; by split]. 
    unfold HandleShutdownAck, with_chunk. change (fmt_parse ShutdownAck data) with (ShutdownAckChunk_Parse data) in Hparse. rewrite Hparse.
    rewrite (bind_ret get _ (counted s) (counted s) (counted s)) by done. change (state_ (counted s)) with (state_ s). rewrite Hs.
    rewrite (bind_ret the_tcb _ (counted s) t (counted s)) by (unfold the_tcb, bind, get; change (tcb_ (counted s)) with (tcb_ s); by rewrite Ht).
    change (total (ShutdownCompleteChunk_SerializeTo false)) with (fmt_serialize ShutdownComplete false). by rewrite (bind_ret _ _ _ _ _ Hsend).
  - intros s' t' (_ & (_ & Hn & _) & _) Ht'. congruence.
  - destruct HQ as (H1 & H2 & H3). by exists completed, s'.
Qed.

(** And the other that it is over. *)
Lemma receive_shutdown_complete s t payload : at_rest s kShutdownAckSent t → my_verification_tag_ t ≠ 0 →
  @announces P _ ShutdownComplete ShutdownCompleteChunkConfig false (my_verification_tag_ t) true payload →
  ∃ s', ReceivePacket payload s = Ret tt s' ∧ closed s' ∧ since s s' [OnClosed].
Proof using Hcrc.
  intros (Hs & Ht & Hi) H0 Ha.
  apply (receive_announced P Hcrc ShutdownComplete ShutdownCompleteChunkConfig false (my_verification_tag_ t) true payload s (λ _, HandleShutdownComplete)
    (λ s', closed s' ∧ since s s' [OnClosed]) Ha); [by left|done|..].
  - intros p d Hd Hh Hty Hfl Hparse. cbn [fmt_parse ShutdownComplete] in Hparse. unfold ShutdownCompleteChunk_Parse in Hparse.
    destruct (ParseTLV _ _) as [r| |] eqn:Er in Hparse; [|done..]. cbn [pbind] in Hparse. injection Hparse as Hflag. apply ParseTLV_second in Er; [|cbn; lia].
    assert (t_bit d = false) as Htb by (unfold t_bit; rewrite Hfl, <- Er; exact Hflag).
    unfold ValidatePacket. rewrite (bind_ret get _ (counted s) (counted s) (counted s)) by done. rewrite Hd, Hh, (proj2 (Z.eqb_neq _ _) H0).
    rewrite (bind_ret (in_bounds _) _ _ d (counted s)) by done. rewrite Hty. cbn [kType AbortChunkConfig InitAckChunkConfig CookieEchoChunkConfig ShutdownCompleteChunkConfig Z.eqb Pos.eqb].
    rewrite (bind_ret (tag_matches _ _) _ _ true (counted s)); [done|]. unfold tag_matches, bind, get. rewrite Htb. cbn [andb negb]. unfold socket_verification_tag.
    change (tcb_ (counted s)) with (tcb_ s). by rewrite Ht, Z.eqb_refl.
  - intros header d Hty. unfold Dispatch. by rewrite Hty.
  - intros header data _ Hparse. destruct (InternalClose_closes (counted s)) as (s' & E1 & Hcl & Htr); [cbn; by rewrite Hs|]. exists s'.
    split; [|by split].
    unfold HandleShutdownComplete, with_chunk. change (fmt_parse ShutdownComplete data) with (ShutdownCompleteChunk_Parse data) in Hparse. rewrite Hparse.
    rewrite (bind_ret get _ (counted s) (counted s) (counted s)) by done. change (state_ (counted s)) with (state_ s). rewrite Hs, bool_decide_true by done. exact E1.
  - intros s' t' ((_ & Hn & _) & _) Ht'. congruence.
Qed.
End Side.

(** C4: Two sockets whose association is up, with nothing outstanding on either side: when one of
    them is asked to shut down, it sends SHUTDOWN, the peer answers with SHUTDOWN ACK, and it
    ends with SHUTDOWN COMPLETE.  Both are then closed, without a block and with none of the
    timers of the socket running.  Over the whole exchange each has sent these packets and no
    other, and called its application exactly once, [OnClosed], at the end. *)
Theorem shutdown_completes (A B : Endpoint) (sa sz : Socket) (tag_a tsn_a tag_z tsn_z : Z) : fair A → fair B → @env_crc A = @env_crc B →
  @established B A sa tag_a tsn_a tag_z tsn_z → @established A B sz tag_z tsn_z tag_a tsn_a →
  uint 32 tag_a → tag_a ≠ 0 → uint 32 tag_z → tag_z ≠ 0 →
  ∃ shutdown shutdown_ack shutdown_complete sa1 sz1 sa2 sz2,
    (@Socket.Shutdown A sa = Ret tt sa1 ∧ state_ sa1 = kShutdownSent ∧ since sa sa1 [SentPacket shutdown kSuccess])
    ∧ (@ReceivePacket B shutdown sz = Ret tt sz1 ∧ state_ sz1 = kShutdownAckSent ∧ since sz sz1 [SentPacket shutdown_ack kSuccess])
    ∧ (@ReceivePacket A shutdown_ack sa1 = Ret tt sa2 ∧ closed sa2
       ∧ since sa sa2 [OnClosed; SentPacket shutdown_complete kSuccess; SentPacket shutdown kSuccess])
    ∧ (@ReceivePacket B shutdown_complete sz1 = Ret tt sz2 ∧ closed sz2 ∧ since sz sz2 [OnClosed; SentPacket shutdown_ack kSuccess]).
Proof.
  intros HA HB Hcrc (Hsa & ta & Hta & Hia & _ & Ba1 & Ba2 & Ba3 & Ba4 & Ba5) (Hsz & tz & Htz & Hiz & _ & Bz1 & Bz2 & Bz3 & Bz4 & Bz5) Ha Ha0 Hz Hz0.
  destruct (@Shutdown_sends A HA sa ta) as (p1 & sa1 & S1 & T1 & R1 & An1); [done|congruence|].
  destruct (@receive_shutdown A B HB Hcrc sz tz p1 (last_cumulative_acked_tsn (tracker ta))) as (p2 & sz1 & S2 & T2 & R2 & An2); [done|congruence|congruence|by rewrite Bz2, <- Ba4|].
  destruct (@receive_shutdown_ack B A HA (eq_sym Hcrc) sa1 ta p2) as (p3 & sa2 & S3 & C3 & T3 & An3); [done|congruence|congruence|by rewrite Ba2, <- Bz4|].
  destruct (@receive_shutdown_complete A B Hcrc sz1 tz p3) as (sz2 & E4 & C4 & T4); [done|congruence|by rewrite Bz2, <- Ba4|].
  destruct R1 as [R1 _], R2 as [R2 _]. exists p1, p2, p3, sa1, sz1, sa2, sz2. unfold since in *. split_and!; try done; [by rewrite T3, T1|by rewrite T4, T2].
Qed.

Import Sample.
(** The two sockets of the example, after their handshake. *)
Definition cookie_ack_packet : list Z := last_packet (socket_after server_up).
Definition sample_client : Socket := socket_after [CallConnect; CallReceivePacket init_ack_packet; CallReceivePacket cookie_ack_packet].
Definition sample_server : Socket := socket_after server_up.
(** What [established] asks of a block, computed. *)
Definition rest_view (t : TCB) :=
  (ack_state_ (tracker t), outstanding_data_ (rtx_data_ (rtx t)), to_be_retransmitted_ (rtx_data_ (rtx t)), RRSendQueue.streams_ (tcb_queue t), active_streams_ (tcb_queue t),
   RRSendQueue.callbacks_ (tcb_queue t), events_ (rtx t), rtx_header_size_ (rtx t), unacked_bytes (rtx t), current_request_ (reset_ t), cookie_echo_chunk_ t).
Definition who (t : TCB) := (capabilities_ t, my_verification_tag_ t, my_initial_tsn_ t, peer_verification_tag_ t, peer_initial_tsn_ t).
Lemma view_established (P : Endpoint) {E : Endpoint} s caps a b c d : state_ s = kEstablished → rest_view <$> tcb_ s = Some (kIdle, [], [], [], [], [], [], 16, 0, None, None) →
  who <$> tcb_ s = Some (caps, a, b, c, d) → caps = negotiated options (@options P) → @established P E s a b c d.
Proof.
  intros Hs Hv Hw Hc. split; [done|]. destruct (tcb_ s) as [t|]; [|done]. exists t. cbn in Hv, Hw. injection Hv as V1 V2 V3 V4 V5 V6 V7 V8 V9 V10 V11.
  injection Hw as W1 W2 W3 W4 W5. subst caps. split; [done|]. split; [split; [done| |done]; split; try done; lia|]. by unfold belongs; split_and!.
Qed.

Lemma shutdown_completes_witness : ∃ shutdown shutdown_ack shutdown_complete sa1 sz1 sa2 sz2,
  Socket.Shutdown sample_client = Ret tt sa1 ∧ ReceivePacket shutdown sample_server = Ret tt sz1
  ∧ (ReceivePacket shutdown_ack sa1 = Ret tt sa2 ∧ closed sa2 ∧ since sample_client sa2 [OnClosed; SentPacket shutdown_complete kSuccess; SentPacket shutdown kSuccess])
  ∧ (ReceivePacket shutdown_complete sz1 = Ret tt sz2 ∧ closed sz2 ∧ since sample_server sz2 [OnClosed; SentPacket shutdown_ack kSuccess]).
Proof.
  assert (established sample_endpoint sample_client 19 17 18 18) as Ha by (eapply view_established; by vm_compute).
  assert (established sample_endpoint sample_server 18 18 19 17) as Hz by (eapply view_established; by vm_compute).
  destruct (shutdown_completes sample_endpoint sample_endpoint sample_client sample_server 19 17 18 18 sample_fair sample_fair eq_refl Ha Hz)
    as (p1 & p2 & p3 & sa1 & sz1 & sa2 & sz2 & [H1 _] & [H2 _] & H3 & H4); [by vm_compute..|].
  exists p1, p2, p3, sa1, sz1, sa2, sz2. exact (conj H1 (conj H2 (conj H3 H4))).
Defined.
