(* ===== verification/Deferrer.v ===== *)
(** * Calls to the application (includes/webrtc/net/dcsctp/socket/callback_deferrer.h, .cc)

    A socket does not call the application in the middle of an operation: the calls are kept
    and made at the end of the public call, when the socket can be called again.  This file
    models the object that keeps them, a socket with it, and an application that may call the
    socket from within a callback. *)

From S2P Require Import Prelude SeqNum SctpTimer SctpWire SctpPacket ReConfig DataTracker Reassembly ReassemblyQueue.
From S2P Require Import SendQueue OutstandingData RetransmissionQueue RRSendQueue StreamReset ControlWire ControlBlock Socket SocketInvariant SocketHistory Handshake Delivery Teardown.
Open Scope Z_scope.

(** ** What a socket has called only grows *)

Class Traced (S : Type) := trace_of : S → list SocketEvent.
#[export] Instance Io_traced : Traced Io := trace_.
#[export] Instance Block_traced : Traced Block := λ b, trace_ (io_ b).
#[export] Instance Socket_traced : Traced Socket := λ s, trace_ (sock_io_ s).
Definition grows {S} `{Traced S} {A} (m : M S A) : Prop := ∀ s a s', m s = Ret a s' → trace_of s `suffix_of` trace_of s'.

Create HintDb grows.
Section Grows.
Context {S : Type} `{Traced S}.

Lemma grows_ret {A} (a : A) : grows (ret a).
Proof using Type. by intros s a' s' [= _ <-]. Qed.
Lemma grows_terminate {A} : grows (terminate : M S A).
Proof using Type. by intros s a s'. Qed.
Lemma grows_bind {A B} (m : M S A) (k : A → M S B) : grows m → (∀ a, grows (k a)) → grows (bind m k).
Proof using Type.
  intros Hm Hk s b s' E. cbn in E. destruct (m s) as [a s1| | |] eqn:E1; try done. etrans; [by eapply Hm|by eapply Hk].
Qed.
Lemma grows_get {A} (k : S → M S A) : (∀ s, grows (k s)) → grows (bind get k).
Proof using Type. intros Hk s a s' E. exact (Hk s s a s' E). Qed.
Lemma grows_gets {A B} (f : S → B) (k : B → M S A) : (∀ b, grows (k b)) → grows (bind (gets f) k).
Proof using Type. intros Hk s a s' E. exact (Hk (f s) s a s' E). Qed.
Lemma grows_when b (m : M S unit) : grows m → grows (when b m).
Proof using Type. intros Hm. destruct b; [done|apply grows_ret]. Qed.
Lemma grows_modify f : (∀ s, trace_of s `suffix_of` trace_of (f s)) → grows (modify f).
Proof using Type. intros Hf s a s' [= _ <-]. apply Hf. Qed.
Lemma grows_for_each {A} (f : A → M S unit) l : (∀ a, grows (f a)) → grows (for_each f l).
Proof using Type. intros Hf. induction l as [|a l IH]; [apply grows_ret|]. cbn [for_each]. apply grows_bind; [apply Hf|intros _; exact IH]. Qed.
Lemma grows_fold_m {A B} (f : B → A → M S B) l b : (∀ b a, grows (f b a)) → grows (fold_m f l b).
Proof using Type. intros Hf. revert b. induction l as [|a l IH]; intros b; [apply grows_ret|]. cbn [fold_m]. apply grows_bind; [apply Hf|intros b'; apply IH]. Qed.
Lemma grows_deref {A} (o : option A) : grows (deref o : M S A).
Proof using Type. destruct o; [apply grows_ret|by intros s a s']. Qed.
Lemma grows_in_bounds {A} (o : option A) : grows (in_bounds o : M S A).
Proof using Type. destruct o; [apply grows_ret|by intros s a s']. Qed.
Lemma grows_add f b : grows (add_chunk f b : M S Builder).
Proof using Type. unfold add_chunk. destruct (Builder_Add f b); [apply grows_ret|apply grows_terminate..]. Qed.
Lemma grows_checked {A} (p : parsed A) : grows (checked p : M S A).
Proof using Type. unfold checked. destruct p; [apply grows_ret|apply grows_terminate..]. Qed.
(** A part without a trace, and a timer. *)
Lemma grows_lift {T A} (proj : S → T) upd (m : M T A) : (∀ t s, trace_of (upd t s) = trace_of s) → grows (lift proj upd m).
Proof using Type. intros Hu s a s' E. cbn in E. destruct (m (proj s)); try done. injection E as _ <-. by rewrite Hu. Qed.
Lemma grows_expire (timer : S → Timer) set_timer timeout_id (m : M S Z) : (∀ x s, trace_of (set_timer x s) = trace_of s) → grows m → grows (expire timer set_timer timeout_id m).
Proof using Type.
  intros Hs Hm. unfold expire. apply grows_get. intros s0. destruct (Trigger_before _ _) as [t|]; [|apply grows_ret].
  apply grows_bind; [apply grows_modify; intros s; by rewrite Hs|intros _]. apply grows_bind; [done|intros d]. apply grows_modify. intros s. by rewrite Hs.
Qed.
End Grows.
#[export] Hint Resolve grows_ret grows_terminate grows_deref grows_in_bounds grows_add grows_checked : grows.

Lemma grows_on_io {A} (m : M Io A) : grows m → grows (on_io m).
Proof. intros Hm b a b' E. unfold on_io in E. cbn in E. destruct (m (io_ b)) as [x i'| | |] eqn:Ei; try done. injection E as _ <-. by apply (Hm _ _ _ Ei). Qed.
Lemma grows_sock_io {A} (m : M Io A) : grows m → grows (sock_io m).
Proof. intros Hm s a s' E. unfold sock_io in E. cbn in E. destruct (m (sock_io_ s)) as [x i'| | |] eqn:Ei; try done. injection E as _ <-. by apply (Hm _ _ _ Ei). Qed.
Lemma grows_on_block {A} (m : M Block A) : grows m → grows (on_block m).
Proof.
  intros Hm s a s' E. unfold on_block in E. destruct (tcb_ s) as [t|]; [|done].
  destruct (m _) as [x b| | |] eqn:Eb; try done. injection E as _ <-. by apply (Hm _ _ _ Eb).
Qed.
Lemma grows_on_rtx {A} (m : M (RetransmissionQueue RRSendQueue) A) : grows (on_rtx m).
Proof. by apply grows_lift. Qed.
Lemma grows_on_reset {A} (m : M Handler A) : grows (on_reset m).
Proof. by apply grows_lift. Qed.
Lemma grows_on_tracker {A} (f : DataTracker → A * DataTracker) : grows (on_tracker f).
Proof. intros b a b' E. unfold on_tracker in E. destruct (f _). by injection E as _ <-. Qed.
Lemma grows_on_tcb f : grows (on_tcb f).
Proof. by apply grows_modify. Qed.
Lemma grows_flush : grows flush.
Proof. apply grows_modify. intros b. unfold flush_logs. by eexists. Qed.
Lemma grows_on_send_queue f : grows (on_send_queue f).
Proof. apply grows_modify. intros s. unfold put_queue. destruct (tcb_ s); by eexists. Qed.
Lemma grows_the_tcb : grows the_tcb.
Proof. apply grows_get. intros s. apply grows_deref. Qed.
#[export] Hint Resolve grows_on_rtx grows_on_reset grows_on_tracker grows_on_tcb grows_flush grows_on_send_queue grows_the_tcb : grows.

(** Take an operation apart, by its definition where nothing is known of it. *)
Ltac head_of m := lazymatch m with ?f _ => head_of f | ?f => f end.
Ltac grow_step := lazymatch goal with
  | |- grows (bind get _) => apply grows_get; intros ?
  | |- grows (bind (gets _) _) => apply grows_gets; intros ?
  | |- grows (bind _ _) => apply grows_bind; [|intros ?]
  | |- grows (when _ _) => apply grows_when
  | |- grows (match ?x with _ => _ end) => destruct x
  | |- grows (for_each _ _) => apply grows_for_each; intros ?
  | |- grows (fold_m _ _ _) => apply grows_fold_m; intros ? ?
  | |- grows (modify _) => apply grows_modify; intros ?; reflexivity
  | |- grows (expire _ _ _ _) => apply grows_expire; [reflexivity|]
  | |- grows (on_io _) => apply grows_on_io
  | |- grows (sock_io _) => apply grows_sock_io
  | |- grows (on_block _) => apply grows_on_block
  | |- grows ?m => first [solve [auto with grows nocore] | let f := head_of m in unfold f]
  end.
Ltac grow := repeat grow_step.

Section Operations.
Context {E : Endpoint}.

Lemma grows_PacketSender b write_checksum : grows (PacketSender_Send b write_checksum).
Proof using Type. unfold PacketSender_Send. destruct (out_ b); [apply grows_ret|]. intros i a i' [= _ <-]. by eexists [_]. Qed.
Lemma grows_callback e : grows (callback e).
Proof using Type. apply grows_modify. intros i. by exists [e]. Qed.
Lemma grows_Now : grows Now.
Proof using Type. by intros i a i' [= _ <-]. Qed.
Lemma grows_random low high : grows (GetRandomInt low high).
Proof using Type. by intros i a i' [= _ <-]. Qed.
Hint Resolve grows_PacketSender grows_callback grows_Now grows_random : grows.

Lemma grows_add_data i chunks b : grows (add_data i chunks b).
Proof using Type. revert b. induction chunks as [|[tsn data] chunks IH]; intros b; cbn [add_data]; grow. Qed.
Hint Resolve grows_add_data : grows.
Lemma grows_flush_reset : grows flush_reset.
Proof using Type. grow. Qed.
Lemma grows_control_chunks b now : grows (add_control_chunks b now).
Proof using Type. grow. Qed.
Hint Resolve grows_flush_reset grows_control_chunks : grows.
Lemma grows_packets n first b now : grows (send_packets n first b now).
Proof using Type. revert first b. induction n as [|n IH]; intros first b; cbn [send_packets]; grow. Qed.
Hint Resolve grows_packets : grows.
Lemma grows_SendBuffered now : grows (SendBufferedPackets now).
Proof using Type. grow. Qed.
Lemma grows_HandleSack now sack : grows (tcb_HandleSack now sack).
Proof using Type. grow. Qed.
Lemma grows_MaybeSendSack : grows tcb_MaybeSendSack.
Proof using Type. grow. Qed.
Hint Resolve grows_SendBuffered grows_HandleSack grows_MaybeSendSack : grows.

Lemma grows_send w b : grows (send_with w b).
Proof using Type. grow. Qed.
Lemma grows_chunk tag f : grows (send_chunk tag f).
Proof using Type. grow. Qed.
Lemma grows_abort tag filled cause : grows (send_abort tag filled cause).
Proof using Type. grow. Qed.
Lemma grows_close error causes : grows (InternalClose error causes).
Proof using Type. unfold InternalClose, drop_tcb. grow. Qed.
Hint Resolve grows_send grows_chunk grows_abort grows_close : grows.
Lemma grows_shutdown_or_ack : grows MaybeSendShutdownOrAck.
Proof using Type. grow. Qed.
Lemma grows_deliver : grows Socket.MaybeDeliverMessages.
Proof using Type. unfold Socket.MaybeDeliverMessages, FlushMessages. grow. Qed.
Lemma grows_reset_request : grows MaybeSendResetStreamsRequest.
Proof using Type. grow. Qed.
Lemma grows_create c a b d e f g : grows (CreateTransmissionControlBlock c a b d e f g).
Proof using Type. grow. Qed.
Lemma grows_new_tag tries mine tag : grows (new_verification_tag tries mine tag).
Proof using Type. revert tag. induction tries as [|n IH]; intros tag; cbn [new_verification_tag]; grow. Qed.
Hint Resolve grows_shutdown_or_ack grows_deliver grows_reset_request grows_create grows_new_tag : grows.

(** The handlers. *)
Lemma grows_HandleDataCommon chunk : grows (Socket.HandleDataCommon chunk).
Proof using Type. grow. Qed.
Lemma grows_HandleForwardTsnCommon chunk : grows (Socket.HandleForwardTsnCommon chunk).
Proof using Type. grow. Qed.
Lemma grows_HandleInit data : grows (HandleInit data).
Proof using Type. grow. Qed.
Lemma grows_HandleInitAck data : grows (HandleInitAck data).
Proof using Type. grow. Qed.
Lemma grows_establish cookie : grows (establish cookie).
Proof using Type. grow. Qed.
Hint Resolve grows_HandleDataCommon grows_HandleForwardTsnCommon grows_HandleInit grows_HandleInitAck grows_establish : grows.
Lemma grows_HandleCookieEcho header data : grows (HandleCookieEcho header data).
Proof using Type. grow. Qed.
Lemma grows_HandleReconfig data : grows (HandleReconfig data).
Proof using Type. grow. Qed.
Hint Resolve grows_HandleCookieEcho grows_HandleReconfig : grows.
Lemma grows_Dispatch header d : grows (Dispatch header d).
Proof using Type. grow. Qed.
Hint Resolve grows_Dispatch : grows.
Lemma grows_dispatch_all header ds : grows (dispatch_all header ds).
Proof using Type. induction ds as [|d ds IH]; cbn [dispatch_all]; grow. Qed.
Hint Resolve grows_dispatch_all : grows.
Lemma grows_ReceivePacket data : grows (ReceivePacket data).
Proof using Type. grow. Qed.
Lemma grows_HandleTimeout timeout_id : grows (socket_HandleTimeout timeout_id).
Proof using Type. grow. Qed.
Hint Resolve grows_ReceivePacket grows_HandleTimeout : grows.
Lemma grows_perform call : grows (perform call).
Proof using Type. destruct call; cbn [perform]; grow. Qed.
End Operations.

(** ** The object that keeps the calls *)

Inductive CallbackData :=
| data_none
| data_message (message : DcSctpMessage)
| data_error (error : ErrorKind) (message : list CauseLine)
| data_reset (streams : list Z) (message : option Result)
| data_stream (stream_id : Z).

(** The functions that are stored with the data, one for each method. *)
Inductive DeferredCallback :=
| call_OnMessageReceived | call_OnError | call_OnAborted | call_OnConnected | call_OnClosed | call_OnConnectionRestarted
| call_OnStreamsResetFailed | call_OnStreamsResetPerformed | call_OnIncomingStreamsReset | call_OnBufferedAmountLow | call_OnTotalBufferedAmountLow.

(** What such a function calls; none where [absl::get] finds another alternative, or where the
    reason of a failed reset is missing, which is always stored with it. *)
Definition invoke (cb : DeferredCallback) (data : CallbackData) : option SocketEvent :=
  match cb, data with
  | call_OnMessageReceived, data_message m => Some (OnMessageReceived m)
  | call_OnError, data_error e m => Some (OnError e m)
  | call_OnAborted, data_error e m => Some (OnAborted e m)
  | call_OnConnected, _ => Some OnConnected
  | call_OnClosed, _ => Some OnClosed
  | call_OnConnectionRestarted, _ => Some OnConnectionRestarted
  | call_OnStreamsResetFailed, data_reset streams (Some reason) => Some (OnReset (OnStreamsResetFailed streams reason))
  | call_OnStreamsResetPerformed, data_reset streams _ => Some (OnReset (OnStreamsResetPerformed streams))
  | call_OnIncomingStreamsReset, data_reset streams _ => Some (OnReset (OnIncomingStreamsReset streams))
  | call_OnBufferedAmountLow, data_stream id => Some (OnQueueCallback (OnBufferedAmountLow id))
  | call_OnTotalBufferedAmountLow, _ => Some (OnQueueCallback OnTotalBufferedAmountLow)
  | _, _ => None
  end.

Record CallbackDeferrer := mkDeferrer { prepared_ : bool; deferred_ : list (DeferredCallback * CallbackData) }.
#[export] Instance CallbackDeferrer_eta : Eta CallbackDeferrer := λ d, mkDeferrer (prepared_ d) (deferred_ d).

Definition emplace_back (cb : DeferredCallback) (data : CallbackData) (d : CallbackDeferrer) : CallbackDeferrer := d <| deferred_ ::= (λ l, l ++ [(cb, data)]) |>.
Definition defer_OnMessageReceived (message : DcSctpMessage) : CallbackDeferrer → CallbackDeferrer := emplace_back call_OnMessageReceived (data_message message).
Definition defer_OnError (error : ErrorKind) (message : list CauseLine) : CallbackDeferrer → CallbackDeferrer := emplace_back call_OnError (data_error error message).
Definition defer_OnAborted (error : ErrorKind) (message : list CauseLine) : CallbackDeferrer → CallbackDeferrer := emplace_back call_OnAborted (data_error error message).
Definition defer_OnConnected : CallbackDeferrer → CallbackDeferrer := emplace_back call_OnConnected data_none.
Definition defer_OnClosed : CallbackDeferrer → CallbackDeferrer := emplace_back call_OnClosed data_none.
Definition defer_OnConnectionRestarted : CallbackDeferrer → CallbackDeferrer := emplace_back call_OnConnectionRestarted data_none.
Definition defer_OnStreamsResetFailed (streams : list Z) (reason : Result) : CallbackDeferrer → CallbackDeferrer :=
  emplace_back call_OnStreamsResetFailed (data_reset streams (Some reason)).
Definition defer_OnStreamsResetPerformed (streams : list Z) : CallbackDeferrer → CallbackDeferrer := emplace_back call_OnStreamsResetPerformed (data_reset streams None).
Definition defer_OnIncomingStreamsReset (streams : list Z) : CallbackDeferrer → CallbackDeferrer := emplace_back call_OnIncomingStreamsReset (data_reset streams None).
Definition defer_OnBufferedAmountLow (stream_id : Z) : CallbackDeferrer → CallbackDeferrer := emplace_back call_OnBufferedAmountLow (data_stream stream_id).
Definition defer_OnTotalBufferedAmountLow : CallbackDeferrer → CallbackDeferrer := emplace_back call_OnTotalBufferedAmountLow data_none.

(** The method that a call of the socket reaches: [None] for those that are passed on at once,
    that is packets and the life cycles of messages. *)
Definition deferral (e : SocketEvent) : option (CallbackDeferrer → CallbackDeferrer) :=
  match e with
  | OnMessageReceived m => Some (defer_OnMessageReceived m)
  | OnError e m => Some (defer_OnError e m)
  | OnAborted e m => Some (defer_OnAborted e m)
  | OnConnected => Some defer_OnConnected
  | OnClosed => Some defer_OnClosed
  | OnConnectionRestarted => Some defer_OnConnectionRestarted
  | OnReset (OnStreamsResetFailed streams reason) => Some (defer_OnStreamsResetFailed streams reason)
  | OnReset (OnStreamsResetPerformed streams) => Some (defer_OnStreamsResetPerformed streams)
  | OnReset (OnIncomingStreamsReset streams) => Some (defer_OnIncomingStreamsReset streams)
  | OnQueueCallback (OnBufferedAmountLow id) => Some (defer_OnBufferedAmountLow id)
  | OnQueueCallback OnTotalBufferedAmountLow => Some defer_OnTotalBufferedAmountLow
  | _ => None
  end.
Definition is_deferred (e : SocketEvent) : bool := bool_decide (is_Some (deferral e)).

(** ** A socket and its application *)

(** [told_] are the calls the application got, with the socket as it is then, or nothing for a
    call in the middle of an operation, from which the socket must not be called. *)
Record Client := mkClient { socket_ : Socket; deferrer_ : CallbackDeferrer; told_ : list (SocketEvent * option Socket) }.
#[export] Instance Client_eta : Eta Client := λ c, mkClient (socket_ c) (deferrer_ c) (told_ c).

Definition Prepare (c : Client) : Client := c <| deferrer_ ::= (λ d, d <| prepared_ := true |>) |>.
Definition tell (e : SocketEvent) (at_ : option Socket) (c : Client) : Client := c <| told_ ::= (λ l, l ++ [(e, at_)]) |>.
Definition reaches_deferrer (c : Client) (e : SocketEvent) : Client :=
  match deferral e with Some f => c <| deferrer_ ::= f |> | None => tell e None c end.
(** What a call of the socket has called, the first first. *)
Definition raised (s s' : Socket) : list SocketEvent :=
  reverse (take (length (trace_of s') - length (trace_of s)) (trace_of s')).

(** The public methods with a [ScopedDeferrer]. *)
Definition is_scoped (call : SocketCall) : bool :=
  match call with CallSetMaxMessageSize _ | CallSetStreamPriority _ _ | CallSetBufferedAmountLowThreshold _ _ => false | _ => true end.

Section Client.
Context {E : Endpoint}.
(** What the application calls from within a callback, knowing all it was told. *)
Context (respond : list (SocketEvent * option Socket) → list SocketCall).

(** [TriggerDeferred], and the calls of the application from within the callbacks. *)
Definition deliver_one (again : SocketCall → M Client unit) (p : DeferredCallback * CallbackData) : M Client unit :=
  match invoke p.1 p.2 with
  | None => terminate
  | Some e =>
    modify (λ c, tell e (Some (socket_ c)) c) ;;
    let! c := get in for_each again (respond (told_ c))
  end.
Definition TriggerDeferred (again : SocketCall → M Client unit) : M Client unit :=
  let! c := get in
  modify (λ c, c <| deferrer_ := mkDeferrer false [] |>) ;;
  for_each (deliver_one again) (deferred_ (deferrer_ c)).

(** A public call; [fuel] bounds how deep the application calls back. *)
Fixpoint public_call (fuel : nat) (call : SocketCall) : M Client unit :=
  match fuel with
  | O => undef NoProgress
  | S fuel' =>
    when (is_scoped call) (modify Prepare) ;;
    let! c := get in
    lift socket_ (λ s c, c <| socket_ := s |>) (perform call) ;;
    modify (λ c', foldl reaches_deferrer c' (raised (socket_ c) (socket_ c'))) ;;
    when (is_scoped call) (TriggerDeferred (public_call fuel'))
  end.
Definition Client_new (max_message_size : Z) : Client := mkClient (DcSctpSocket_new max_message_size) (mkDeferrer false []) [].

(** *** Every call is made once *)

Definition pending (c : Client) : list SocketEvent := omap (λ p, invoke p.1 p.2) (deferred_ (deferrer_ c)).
(** What the application was told: where it was not in the middle of an operation, the socket
    was one that a history of calls reaches. *)
Definition told_ok (p : SocketEvent * option Socket) : Prop :=
  match p.2 with Some s => is_deferred p.1 = true ∧ reachable s | None => is_deferred p.1 = false end.
(** All that the socket has called was told, is kept, or is on its way ([extra]). *)
Record accounted (extra : list SocketEvent) (c : Client) : Prop := {
  acc_reachable : reachable (socket_ c);
  acc_once : (told_ c).*1 ++ pending c ++ extra ≡ₚ trace_of (socket_ c);
  acc_kept : Forall (λ p, match invoke p.1 p.2 with Some e => is_deferred e = true | None => False end) (deferred_ (deferrer_ c));
  acc_told : Forall told_ok (told_ c)
}.

(** The function that is stored fits the data that are stored with it. *)
Lemma deferral_kept e f d : deferral e = Some f → ∃ cb data, f d = emplace_back cb data d ∧ invoke cb data = Some e.
Proof using Type. destruct e as [| | | | | | |[]| |[]]; intros [= <-]; by eexists _, _. Qed.

Lemma accounted_reaches e extra c : accounted (e :: extra) c → accounted extra (reaches_deferrer c e) ∧ (length (told_ c) ≤ length (told_ (reaches_deferrer c e)))%nat.
Proof using Type.
  intros [Hr Ho Hk Ht]. unfold reaches_deferrer. destruct (deferral e) as [f|] eqn:Ef.
  - destruct (deferral_kept e f (deferrer_ c) Ef) as (cb & data & Hf & Hi). split; [|done]. split; [done| |..|done].
    + unfold pending. cbn [deferrer_ set_field Client_eta]. rewrite Hf. cbn [deferred_ emplace_back set_field CallbackDeferrer_eta]. rewrite omap_app. cbn. rewrite Hi.
      rewrite <- Ho. unfold pending. by rewrite <- !app_assoc.
    + cbn [deferrer_ set_field Client_eta]. rewrite Hf. apply Forall_app. split; [done|]. constructor; [|done]. cbn. rewrite Hi. unfold is_deferred. by rewrite Ef.
  - split; [|cbn; rewrite length_app; lia]. split; [done| |done|].
    + cbn [told_ tell set_field Client_eta]. rewrite fmap_app, <- Ho, <- app_assoc. cbn. apply Permutation_app_head. change (pending (tell e None c)) with (pending c).
      by rewrite Permutation_middle.
    + apply Forall_app. split; [done|]. constructor; [|done]. unfold told_ok, is_deferred. cbn. by rewrite Ef.
Qed.
Lemma accounted_all events extra c : accounted (events ++ extra) c →
  accounted extra (foldl reaches_deferrer c events) ∧ (length (told_ c) ≤ length (told_ (foldl reaches_deferrer c events)))%nat.
Proof using Type.
  revert c. induction events as [|e events IH]; intros c Hc; [done|]. apply accounted_reaches in Hc as [Hc Hl]. cbn [foldl]. apply IH in Hc as [Hc Hl']. split; [done|lia].
Qed.

(** A call of the socket, and what it has called. *)
Lemma raised_split s call s' : perform call s = Ret tt s' → trace_of s' = reverse (raised s s') ++ trace_of s.
Proof using Type.
  intros Ec. apply (grows_perform call) in Ec as [new Enew]. unfold raised. rewrite Enew, length_app. rewrite reverse_involutive. f_equal.
  by rewrite Nat.add_sub, take_app_length.
Qed.
Lemma accounted_performed call extra c s' : accounted extra c → perform call (socket_ c) = Ret tt s' → accounted (raised (socket_ c) s' ++ extra) (c <| socket_ := s' |>).
Proof using Type.
  intros [Hr Ho Hk Ht] Ec. split; [by econstructor| |done|done]. cbn [socket_ told_ set_field Client_eta]. change (pending (c <| socket_ := s' |>)) with (pending c).
  rewrite (raised_split _ _ _ Ec), reverse_Permutation, <- Ho. by rewrite (Permutation_app_swap_app (pending c)), (Permutation_app_swap_app (told_ c).*1).
Qed.

(** *** Runs with an application that calls back *)

(** A run that fails does so in a call of the socket. *)
Definition sound (o : outcome Client unit) (P : Client → Prop) : Prop :=
  match o with
  | Ret _ c => P c
  | Throw e c => ∃ s call, reachable s ∧ perform call s = Throw e (socket_ c)
  | Terminate => ∃ s call, reachable s ∧ perform call s = Terminate
  | Undef f c => ∃ s call, reachable s ∧ perform call s = Undef f (socket_ c)
  end.
Lemma sound_bind m k c P Q : sound (m c) P → (∀ c', P c' → sound (k c') Q) → sound (bind m (λ _, k) c) Q.
Proof using Type. intros Hm Hk. cbn. destruct (m c) as [[] c'| | |]; try done. by apply Hk. Qed.
Lemma sound_mono o (P Q : Client → Prop) : sound o P → (∀ c, P c → Q c) → sound o Q.
Proof using Type. intros Ho H. destruct o; try done. by apply H. Qed.
Lemma sound_perform call extra c : accounted extra c →
  sound (lift socket_ (λ s c, c <| socket_ := s |>) (perform call) c) (λ c', perform call (socket_ c) = Ret tt (socket_ c') ∧ c' = c <| socket_ := socket_ c' |>).
Proof using Type. intros Hc. cbn. destruct (perform call (socket_ c)) as [[] s'| | |] eqn:Ec; cbn; [done|..]; eexists _, call; (split; [apply Hc|done]). Qed.

(** The application falls silent when it was told [limit] things. *)
Context (limit : nat) (Hlimit : ∀ h, (limit ≤ length h)%nat → respond h = []).

Definition all_scoped : Prop := ∀ h, Forall (λ call, is_scoped call = true) (respond h).
(** What a call keeps, for whatever is on its way. *)
Definition progress (extra : list SocketEvent) (quiet : Prop) (c c' : Client) : Prop :=
  accounted extra c' ∧ (length (told_ c) ≤ length (told_ c'))%nat ∧ prepared_ (deferrer_ c') = false ∧ (all_scoped → quiet → deferred_ (deferrer_ c') = []).
Definition good_call (fuel : nat) (again : SocketCall → M Client unit) : Prop := ∀ call extra c,
  (limit < fuel + length (told_ c))%nat → accounted extra c → prepared_ (deferrer_ c) = false → sound (again call c) (progress extra (is_scoped call = true) c).

Lemma again_all fuel again calls extra c : good_call fuel again → (limit < fuel + length (told_ c))%nat → accounted extra c → prepared_ (deferrer_ c) = false →
  sound (for_each again calls c) (progress extra (Forall (λ call, is_scoped call = true) calls ∧ deferred_ (deferrer_ c) = []) c).
Proof using Type.
  intros Ha. revert c. induction calls as [|call calls IH]; intros c Hf Hc Hp; cbn [for_each].
  { split; [done|]. split; [done|]. by split; [|intros _ []]. }
  eapply sound_bind; [by apply (Ha call extra)|]. intros c1 (Hc1 & Hl1 & Hp1 & Hq1). eapply sound_mono; [apply IH; [lia|done..]|].
  intros c2 (Hc2 & Hl2 & Hp2 & Hq2). split; [done|]. split; [lia|]. split; [done|]. intros Hs [Hall Hd]. apply list.Forall_cons in Hall as [Hcall Hall]. auto.
Qed.

Lemma accounted_told e extra c : is_deferred e = true → accounted (e :: extra) c → accounted extra (tell e (Some (socket_ c)) c).
Proof using Type.
  intros He [Hr Ho Hk Ht]. split; [done| |done|].
  - cbn [told_ tell set_field Client_eta]. rewrite fmap_app, <- Ho, <- app_assoc. cbn. apply Permutation_app_head. change (pending (tell _ _ c)) with (pending c).
    by rewrite Permutation_middle.
  - apply Forall_app. split; [done|]. by constructor.
Qed.
Lemma deliver_one_ok fuel again p e extra c : ((1 ≤ fuel)%nat → good_call fuel again) → (limit < S fuel + length (told_ c))%nat → invoke p.1 p.2 = Some e → is_deferred e = true →
  accounted (e :: extra) c → prepared_ (deferrer_ c) = false → sound (deliver_one again p c) (progress extra (deferred_ (deferrer_ c) = []) c).
Proof using Hlimit.
  intros Ha Hf Hi He Hc Hp. unfold deliver_one. rewrite Hi. apply (accounted_told e extra c He) in Hc. set (c1 := tell e (Some (socket_ c)) c) in Hc.
  assert (length (told_ c1) = S (length (told_ c))) as Hl by (cbn; rewrite length_app; cbn; lia).
  change (sound (for_each again (respond (told_ c1)) c1) (progress extra (deferred_ (deferrer_ c) = []) c)).
  destruct (decide (limit ≤ length (told_ c1))%nat) as [Hs|Hs].
  - rewrite Hlimit by done. split; [done|]. split; [lia|]. by split.
  - eapply sound_mono; [apply (again_all fuel); [apply Ha; lia|lia|done|done]|]. intros c2 (Hc2 & Hl2 & Hp2 & Hq2). split; [done|]. split; [lia|]. split; [done|].
    intros Has Hd. apply Hq2; [done|]. split; [apply Has|done].
Qed.
Lemma deliver_all fuel again ps extra c : ((1 ≤ fuel)%nat → good_call fuel again) → (limit < S fuel + length (told_ c))%nat →
  Forall (λ p, match invoke p.1 p.2 with Some e => is_deferred e = true | None => False end) ps → accounted (omap (λ p, invoke p.1 p.2) ps ++ extra) c → prepared_ (deferrer_ c) = false →
  sound (for_each (deliver_one again) ps c) (progress extra (deferred_ (deferrer_ c) = []) c).
Proof using Hlimit.
  intros Ha. revert c. induction ps as [|p ps IH]; intros c Hf Hps Hc Hp; cbn [for_each]; [by split; [|split; [|split]]|].
  apply list.Forall_cons in Hps as [Hp1 Hps]. cbn in Hc. destruct (invoke p.1 p.2) as [e|] eqn:Ei; [|done].
  eapply sound_bind; [by apply (deliver_one_ok fuel again p e (omap (λ p, invoke p.1 p.2) ps ++ extra))|].
  intros c1 (Hc1 & Hl1 & Hp1' & Hq1). eapply sound_mono; [apply IH; [lia|done..]|]. intros c2 (Hc2 & Hl2 & Hp2 & Hq2). split; [done|]. split; [lia|]. split; [done|]. auto.
Qed.

(** [deferred_] is swapped with an empty list. *)
Lemma accounted_swapped extra c : accounted extra c → accounted (pending c ++ extra) (c <| deferrer_ := mkDeferrer false [] |>).
Proof using Type. intros [Hr Ho Hk Ht]. by split. Qed.
Lemma reaches_prepared events c : prepared_ (deferrer_ (foldl reaches_deferrer c events)) = prepared_ (deferrer_ c).
Proof using Type.
  revert c. induction events as [|e events IH]; intros c; [done|]. cbn [foldl]. rewrite IH. unfold reaches_deferrer. destruct (deferral e) as [f|] eqn:Ef; [|done].
  destruct (deferral_kept e f (deferrer_ c) Ef) as (cb & data & Hf & _). cbn. by rewrite Hf.
Qed.

(** A public call, however deep the application calls back. *)
Lemma public_call_ok fuel : (1 ≤ fuel)%nat → good_call fuel (public_call fuel).
Proof using Hlimit.
  induction fuel as [|fuel IH]; [lia|]. intros _ call extra c Hf Hc Hp. cbn [public_call].
  set (c0 := if is_scoped call then Prepare c else c). assert (accounted extra c0 ∧ told_ c0 = told_ c) as [Hc0 Ht0] by (unfold c0; by destruct (is_scoped call), Hc).
  rewrite (bind_ret _ _ _ tt c0) by (unfold c0; by destruct (is_scoped call)). rewrite (bind_ret get _ _ c0 c0) by done.
  eapply sound_bind; [by apply (sound_perform call extra)|]. intros c1 [Ec ->]. rewrite (bind_ret (modify _) _ _ tt (foldl reaches_deferrer (c0 <| socket_ := socket_ c1 |>) (raised (socket_ c0) (socket_ c1)))) by done.
  apply (accounted_performed call extra) in Ec; [|done]. apply accounted_all in Ec as [Hc2 Hl2].
  set (c2 := foldl reaches_deferrer _ _) in *. change (length (told_ (c0 <| socket_ := socket_ c1 |>))) with (length (told_ c0)) in Hl2. rewrite Ht0 in Hl2.
  destruct (is_scoped call) eqn:Es; cbn [when].
  - unfold TriggerDeferred. rewrite (bind_ret get _ _ c2 c2) by done. set (c3 := c2 <| deferrer_ := mkDeferrer false [] |>). rewrite (bind_ret (modify _) _ _ tt c3) by done.
    eapply sound_mono; [apply (deliver_all fuel); [exact IH|change (told_ c3) with (told_ c2); lia|apply Hc2|by apply accounted_swapped|done]|].
    intros c4 (Hc4 & Hl4 & Hp4 & Hq4). change (told_ c3) with (told_ c2) in Hl4. split; [done|]. split; [lia|]. split; [done|]. auto.
  - split; [done|]. split; [lia|]. split; [|done]. unfold c2. by rewrite reaches_prepared.
Qed.

(** C7: Any calls of the application, which may call back: when they are over, all that the socket
    has called, the packets and the life cycles of messages included, was told once, or is kept;
    nothing is kept if only calls with a [ScopedDeferrer] are made.  What is deferred is told
    between operations, when the socket is one that a history of calls reaches, and only that.
    Callbacks that call back do not go on for ever while the application falls silent at some
    time, and a run fails only in a call of the socket. *)
Theorem callbacks_exactly_once fuel max_message_size calls : (limit < fuel)%nat →
  sound (for_each (public_call fuel) calls (Client_new max_message_size)) (λ c,
    (told_ c).*1 ++ pending c ≡ₚ trace_of (socket_ c) ∧ Forall told_ok (told_ c)
    ∧ (all_scoped → Forall (λ call, is_scoped call = true) calls → deferred_ (deferrer_ c) = [])).
Proof using Hlimit.
  intros Hf. eapply sound_mono; [apply (again_all fuel _ calls []); [apply public_call_ok; lia|cbn; lia| |done]|].
  - split; [constructor|done|constructor|constructor].
  - intros c ([Hr Ho Hk Ht] & _ & _ & Hq). rewrite app_nil_r in Ho. split_and!; [done|done|]. auto.
Qed.
End Client.

(** *** The order of the calls, for an application that does not call back *)

Section Order.
Context {E : Endpoint}.
(** Calls in the middle of an operation, and calls when it is over. *)
Definition at_once (es : list SocketEvent) : list (SocketEvent * option Socket) := (λ e, (e, None)) <$> es.
Definition at_end (s : Socket) (es : list SocketEvent) : list (SocketEvent * option Socket) := (λ e, (e, Some s)) <$> es.
Definition silent (h : list (SocketEvent * option Socket)) : list SocketCall := [].

Lemma reaches_all events c : let c' := foldl reaches_deferrer c events in
  socket_ c' = socket_ c ∧ told_ c' = told_ c ++ ((λ e, (e, None)) <$> filter (λ e, is_deferred e = false) events)
  ∧ ∃ kept, deferred_ (deferrer_ c') = deferred_ (deferrer_ c) ++ kept ∧ Forall2 (λ p e, invoke p.1 p.2 = Some e) kept (filter (λ e, is_deferred e = true) events).
Proof using Type.
  revert c. induction events as [|e events IH]; intros c; cbn [foldl]; [rewrite !app_nil_r; split_and!; [done..|]; exists []; by rewrite app_nil_r|].
  rewrite !filter_cons. destruct (IH (reaches_deferrer c e)) as (Hs & Ht & kept & Hk & Hi). rewrite Hs, Ht, Hk. clear IH Hs Ht Hk. destruct (deferral e) as [f|] eqn:Ef.
  - assert (is_deferred e = true) as He by (unfold is_deferred; by rewrite Ef). rewrite decide_False, decide_True by (by rewrite He).
    destruct (deferral_kept e f (deferrer_ c) Ef) as (cb & data & Hf & Hin). unfold reaches_deferrer. rewrite Ef. split_and!; [done|done|]. exists ((cb, data) :: kept). split; [|by constructor].
    cbn [deferrer_ set_field Client_eta]. rewrite Hf. cbn. by rewrite <- app_assoc.
  - assert (is_deferred e = false) as He by (unfold is_deferred; by rewrite Ef). rewrite decide_True, decide_False by (by rewrite He).
    unfold reaches_deferrer. rewrite Ef. split_and!; [done|cbn; by rewrite <- app_assoc|by exists kept].
Qed.
Lemma deliver_silent again ps es c : Forall2 (λ p e, invoke p.1 p.2 = Some e) ps es →
  for_each (deliver_one silent again) ps c = Ret tt (c <| told_ := told_ c ++ ((λ e, (e, Some (socket_ c))) <$> es) |>).
Proof using Type.
  intros H. revert c. induction H as [|p e ps es Hp _ IH]; intros c; cbn [for_each fmap list_fmap]; [rewrite app_nil_r; by destruct c|].
  rewrite (bind_ret _ _ _ tt (tell e (Some (socket_ c)) c)); [rewrite IH; cbn; by rewrite <- app_assoc|]. unfold deliver_one. by rewrite Hp.
Qed.

(** A public call up to the calls it makes when it is over. *)
Lemma scoped_call respond n call c s' : is_scoped call = true → deferred_ (deferrer_ c) = [] → perform call (socket_ c) = Ret tt s' →
  ∃ ps, Forall2 (λ p e, invoke p.1 p.2 = Some e) ps (filter (λ e, is_deferred e = true) (raised (socket_ c) s'))
    ∧ public_call respond (S n) call c = for_each (deliver_one respond (public_call respond n)) ps
        (mkClient s' (mkDeferrer false []) (told_ c ++ at_once (filter (λ e, is_deferred e = false) (raised (socket_ c) s')))).
Proof using Type.
  intros Hs Hd Hc. cbn [public_call]. rewrite Hs. cbn [when]. rewrite (bind_ret (modify Prepare) _ _ tt (Prepare c)) by done. rewrite (bind_ret get _ _ (Prepare c) (Prepare c)) by done.
  rewrite (bind_ret (lift _ _ _) _ _ tt (Prepare c <| socket_ := s' |>)) by (cbn; by rewrite Hc). set (c1 := Prepare c <| socket_ := s' |>).
  change (socket_ (Prepare c)) with (socket_ c). rewrite (bind_ret (modify _) _ _ tt (foldl reaches_deferrer c1 (raised (socket_ c) s'))) by done.
  destruct (reaches_all (raised (socket_ c) s') c1) as (Hs2 & Ht2 & kept & Hk & Hi). set (c2 := foldl _ _ _) in *. exists kept. split; [done|]. unfold TriggerDeferred.
  rewrite (bind_ret get _ _ c2 c2) by done. rewrite (bind_ret (modify _) _ _ tt (c2 <| deferrer_ := mkDeferrer false [] |>)) by done.
  change (deferred_ (deferrer_ c1)) with (deferred_ (deferrer_ c)) in Hk. rewrite Hk, Hd. cbn [app]. f_equal. destruct c2. cbn in *. by rewrite Hs2, Ht2.
Qed.

(** A call with a [ScopedDeferrer]: first come the packets and the life cycles, while the call
    runs, and then all else, in the order in which it came up, with the socket as it is at the
    end of the call. *)
Theorem callbacks_in_order call c s' : is_scoped call = true → deferred_ (deferrer_ c) = [] → perform call (socket_ c) = Ret tt s' →
  ∃ c', public_call silent 1 call c = Ret tt c' ∧ socket_ c' = s' ∧ deferrer_ c' = mkDeferrer false []
    ∧ told_ c' = told_ c ++ at_once (filter (λ e, is_deferred e = false) (raised (socket_ c) s')) ++ at_end s' (filter (λ e, is_deferred e = true) (raised (socket_ c) s')).
Proof using Type.
  intros Hs Hd Hc. destruct (scoped_call silent 0 call c s' Hs Hd Hc) as (ps & Hps & ->). rewrite (deliver_silent _ _ _ _ Hps).
  eexists. split; [done|]. split_and!; [done|done|]. cbn. by rewrite <- app_assoc.
Qed.
End Order.

(** *** An application that closes the socket from within a callback *)

Section CloseFromWithin.
Context {E : Endpoint}.
(** The calls on which the application closes the socket. *)
Context (on : SocketEvent → bool).
Definition closer (h : list (SocketEvent * option Socket)) : list SocketCall :=
  match list.last h with Some (e, _) => if on e then [CallClose] else [] | None => [] end.

Definition is_packet (e : SocketEvent) : Prop := match e with SentPacket _ _ => True | _ => False end.

Lemma send_abort_sends tag cause s bytes : Parameters_Add (total cause) [] = Parsed bytes →
  ∃ p status i, send_abort tag true cause s = Ret tt (s <| sock_io_ := i |>) ∧ trace_ i = SentPacket p status :: trace_ (sock_io_ s).
Proof using Type.
  intros Hc. unfold send_abort. rewrite Hc. cbn [checked]. rewrite (bind_ret (ret bytes) _ _ bytes s) by done. unfold send_chunk, add_chunk.
  erewrite Builder_Add_out by done. set (b := _ <| out_ := _ |>). rewrite (bind_ret (ret b) _ _ b s) by done.
  assert (out_ b ≠ []) as Hb by (intros Hn%(f_equal length); unfold b in Hn; cbn [out_ set_field Builder_eta] in Hn; rewrite length_app in Hn; cbn in Hn; lia).
  unfold send, send_with, PacketSender_Send. destruct (out_ b); [done|]. by eexists _, _, _.
Qed.

(** [Close] never fails: it sends one packet if there is a block, and then reports the end. *)
Lemma Close_closes s : state_ s ≠ kClosed → ∃ packets s', Close s = Ret tt s' ∧ closed s' ∧ raised s s' = packets ++ [OnClosed]
  ∧ Forall is_packet packets ∧ length packets = (if tcb_ s is Some _ then 1 else 0)%nat.
Proof using Type.
  intros Hs. unfold Close. rewrite (bind_ret get _ _ s s) by done. rewrite bool_decide_false by done. cbn [negb when].
  assert (∃ packets i, match tcb_ s with Some t => send_abort (peer_verification_tag_ t) true (UserInitiatedAbort_SerializeTo (text "Close called")) | None => ret tt end s = Ret tt (s <| sock_io_ := i |>)
    ∧ trace_ i = packets ++ trace_ (sock_io_ s) ∧ Forall is_packet packets ∧ length packets = (if tcb_ s is Some _ then 1 else 0)%nat) as (packets & i & E1 & Hi & Hp & Hl).
  { destruct (tcb_ s) as [t|]; [|exists [], (sock_io_ s); by destruct s].
    destruct (send_abort_sends (peer_verification_tag_ t) (UserInitiatedAbort_SerializeTo (text "Close called")) s _ eq_refl) as (p & status & i & E1 & Hi).
    exists [SentPacket p status], i. split; [exact E1|]. split; [exact Hi|]. split; [by constructor|done]. }
  rewrite (bind_ret _ _ _ tt _ E1). assert (state_ (s <| sock_io_ := i |>) ≠ kClosed) as Hs1 by done. destruct (InternalClose_closes _ Hs1) as (s' & E2 & Hcl & Htr). exists (reverse packets), s'. split; [exact E2|]. split; [exact Hcl|].
  split; [|split; [by apply Forall_reverse|by rewrite length_reverse]]. unfold raised. change (trace_of s') with (trace_ (sock_io_ s')). change (trace_of s) with (trace_ (sock_io_ s)).
  rewrite Htr. cbn [sock_io_ set_field Socket_eta]. rewrite Hi. change (OnClosed :: packets ++ trace_ (sock_io_ s)) with ((OnClosed :: packets) ++ trace_ (sock_io_ s)).
  rewrite length_app, Nat.add_sub, take_app_length. by rewrite reverse_cons.
Qed.

Lemma closer_told e at_ c : closer (told_ (tell e at_ c)) = if on e then [CallClose] else [].
Proof using Type. unfold closer. cbn. by rewrite last_snoc. Qed.
Lemma deliver_quiet again ps es c : Forall2 (λ p e, invoke p.1 p.2 = Some e) ps es → Forall (λ e, on e = false) es →
  for_each (deliver_one closer again) ps c = Ret tt (c <| told_ := told_ c ++ at_end (socket_ c) es |>).
Proof using Type.
  intros H. revert c. induction H as [|p e ps es Hp _ IH]; intros c Hq; cbn [for_each]; [unfold at_end; cbn; rewrite app_nil_r; by destruct c|].
  apply list.Forall_cons in Hq as [He Hq]. rewrite (bind_ret _ _ _ tt (tell e (Some (socket_ c)) c)); [rewrite IH by done; cbn; by rewrite <- app_assoc|].
  unfold deliver_one. rewrite Hp. rewrite (bind_ret (modify _) _ _ tt (tell e (Some (socket_ c)) c)) by done. rewrite (bind_ret get _ _ (tell e (Some (socket_ c)) c) (tell e (Some (socket_ c)) c)) by done.
  by rewrite closer_told, He.
Qed.

(** To close a closed socket does nothing, whoever does it. *)
Lemma close_again n c : state_ (socket_ c) = kClosed → deferrer_ c = mkDeferrer false [] → public_call closer (S n) CallClose c = Ret tt c.
Proof using Type.
  intros Hs Hd. destruct (scoped_call closer n CallClose c (socket_ c)) as (ps & Hps & ->); [done|by rewrite Hd|cbn [perform]; unfold Close, bind, get; by rewrite bool_decide_true|].
  unfold raised in *. rewrite Nat.sub_diag in *. apply Forall2_nil_inv_r in Hps as ->. unfold at_once. cbn. rewrite app_nil_r. destruct c as [? ? ?]. cbn in Hd. by subst.
Qed.
Lemma deliver_closed n ps es c : Forall2 (λ p e, invoke p.1 p.2 = Some e) ps es → state_ (socket_ c) = kClosed → deferrer_ c = mkDeferrer false [] →
  for_each (deliver_one closer (public_call closer (S n))) ps c = Ret tt (c <| told_ := told_ c ++ at_end (socket_ c) es |>).
Proof using Type.
  intros H. revert c. induction H as [|p e ps es Hp _ IH]; intros c Hs Hd; cbn [for_each]; [unfold at_end; cbn; rewrite app_nil_r; by destruct c|].
  set (c1 := tell e (Some (socket_ c)) c). rewrite (bind_ret _ _ _ tt c1); [rewrite IH by done; cbn; by rewrite <- app_assoc|].
  unfold deliver_one. rewrite Hp. rewrite (bind_ret (modify _) _ _ tt c1) by done. rewrite (bind_ret get _ _ c1 c1) by done. unfold c1. rewrite closer_told. fold c1.
  destruct (on e); [|done]. cbn [for_each]. by rewrite (bind_ret _ _ _ tt c1) by (by apply close_again).
Qed.

Lemma close_call n c : state_ (socket_ c) ≠ kClosed → deferrer_ c = mkDeferrer false [] →
  ∃ packets s', closed s' ∧ Forall is_packet packets ∧ length packets = (if tcb_ (socket_ c) is Some _ then 1 else 0)%nat
    ∧ public_call closer (S (S n)) CallClose c = Ret tt (mkClient s' (mkDeferrer false []) (told_ c ++ at_once packets ++ at_end s' [OnClosed])).
Proof using Type.
  intros Hs Hd. destruct (Close_closes (socket_ c) Hs) as (packets & s' & Ec & Hcl & Hr & Hp & Hl). exists packets, s'. split; [done|]. split; [done|]. split; [done|].
  destruct (scoped_call closer (S n) CallClose c s') as (ps & Hps & ->); [done|by rewrite Hd|done|]. rewrite Hr, !filter_app in *.
  assert (filter (λ e, is_deferred e = true) packets = [] ∧ filter (λ e, is_deferred e = false) packets = packets) as [F1 F2].
  { clear -Hp. induction Hp as [|e packets He _ [F1 F2]]; [done|]. rewrite !filter_cons, F1, F2. by destruct e. }
  rewrite F1, F2 in *. cbn [app] in Hps. cbn. rewrite app_nil_r. rewrite (deliver_closed n ps [OnClosed]) by (done || apply Hcl). cbn. by rewrite <- app_assoc.
Qed.

Lemma for_each_app {S A} (f : A → M S unit) l1 l2 s : for_each f (l1 ++ l2) s = bind (for_each f l1) (λ _, for_each f l2) s.
Proof using Type. revert s. induction l1 as [|a l1 IH]; intros s; [done|]. cbn. destruct (f a s) as [[] s1| | |]; [apply IH|done..]. Qed.

(** C10: The interface says that no other call is made after [OnClosed] unless the socket
    reconnects, and that the socket may be closed from within a callback.  Whatever the public
    call and whatever its callbacks, if the application closes the socket in one of them, those
    that were to follow are still made: after [OnClosed], and with a closed socket. *)
Theorem calls_after_closed n call c s' before e after :
  is_scoped call = true → deferred_ (deferrer_ c) = [] → perform call (socket_ c) = Ret tt s' → state_ s' ≠ kClosed →
  filter (λ e, is_deferred e = true) (raised (socket_ c) s') = before ++ e :: after → Forall (λ e, on e = false) before → on e = true →
  ∃ c' packets, public_call closer (S (S (S n))) call c = Ret tt c' ∧ closed (socket_ c') ∧ deferrer_ c' = mkDeferrer false []
    ∧ Forall is_packet packets ∧ length packets = (if tcb_ s' is Some _ then 1 else 0)%nat
    ∧ told_ c' = told_ c ++ at_once (filter (λ e, is_deferred e = false) (raised (socket_ c) s'))
        ++ at_end s' before ++ at_end s' [e] ++ at_once packets ++ at_end (socket_ c') [OnClosed] ++ at_end (socket_ c') after.
Proof using Type.
  intros Hsc Hd Hc Hs Hf Hb He. destruct (scoped_call closer (S (S n)) call c s' Hsc Hd Hc) as (ps & Hps & ->). rewrite Hf in Hps. set (c1 := mkClient s' _ _).
  apply Forall2_app_inv_r in Hps as (ps1 & ps2 & H1 & H2 & ->). apply Forall2_cons_inv_r in H2 as (p & ps3 & Hp & H3 & ->).
  rewrite for_each_app. rewrite (bind_ret _ _ _ tt _ (deliver_quiet _ _ _ c1 H1 Hb)). cbn [for_each]. set (c2 := tell e (Some s') (c1 <| told_ := told_ c1 ++ at_end s' before |>)).
  destruct (close_call n c2) as (packets & s2 & Hcl & Hpk & Hl & Ec); [done|done|]. set (c3 := mkClient s2 _ _) in Ec.
  rewrite (bind_ret _ _ _ tt c3).
  - rewrite (deliver_closed _ ps3 after c3) by (done || apply Hcl). eexists _, packets. split; [done|]. split; [exact Hcl|]. split; [done|]. split; [done|]. split; [done|].
    cbn. rewrite <- !app_assoc. done.
  - unfold deliver_one. rewrite Hp. change (bind (modify _) _ _) with (for_each (public_call closer (S (S n))) (closer (told_ c2)) c2). unfold c2 at 1. rewrite closer_told, He.
    cbn [for_each]. by rewrite (bind_ret _ _ _ tt c3 Ec).
Qed.
End CloseFromWithin.

(** ** Examples *)

Import Sample.
(** An application that answers [OnConnected] with a message. *)
Definition greet (h : list (SocketEvent * option Socket)) : list SocketCall :=
  match list.last h with
  | Some (OnConnected, _) => if (length h <? 10)%nat then [CallSend (mkMessage 3 51 [1; 2; 3]) (mkSendOptions false None None 0)] else []
  | _ => []
  end.
Definition client_after (respond : list (SocketEvent * option Socket) → list SocketCall) (calls : list SocketCall) : Client :=
  match for_each (public_call respond 11) calls (Client_new 262144) with Ret _ c => c | _ => Client_new 0 end.
Definition greeted : Client := client_after greet server_up.

Lemma greet_silent h : (10 ≤ length h)%nat → greet h = [].
Proof. intros Hh. unfold greet. destruct (list.last h) as [[[] ?]|]; try done. by rewrite (proj2 (Nat.ltb_ge _ _) Hh). Qed.
Lemma greeted_run : for_each (public_call greet 11) server_up (Client_new 262144) = Ret tt greeted.
Proof. vm_compute. reflexivity. Qed.
Lemma greeted_kept : deferred_ (deferrer_ greeted) = [].
Proof. vm_compute. reflexivity. Qed.

Lemma callbacks_exactly_once_witness : (told_ greeted).*1 ≡ₚ trace_of (socket_ greeted) ∧ length (told_ greeted) = 5%nat.
Proof.
  pose proof (callbacks_exactly_once greet 10 greet_silent 11 262144 server_up ltac:(lia)) as H. rewrite greeted_run in H. destruct H as (H & _).
  unfold pending in H. rewrite greeted_kept, app_nil_r in H. split; [exact H|]. clear H. vm_compute. reflexivity.
Defined.

Lemma callbacks_in_order_witness : ∃ c', public_call silent 1 CallClose greeted = Ret tt c' ∧ deferrer_ c' = mkDeferrer false [].
Proof.
  destruct (perform CallClose (socket_ greeted)) as [[] s'| | |] eqn:Ec; try (exfalso; revert Ec; vm_compute; discriminate).
  destruct (callbacks_in_order CallClose greeted s' eq_refl greeted_kept Ec) as (c' & H1 & _ & H2 & _). exists c'. exact (conj H1 H2).
Defined.

(** Two messages come in one packet, and the application closes the socket on the first. *)
Definition on_first (e : SocketEvent) : bool := match e with OnMessageReceived (mkMessage _ _ [1; 2; 3]) => true | _ => false end.
Definition two_messages : SocketCall := CallReceivePacket (talk_packet [(0, 0); (0, 1); (1, 0)]%nat).
Definition up : Client := client_after (closer on_first) server_up.
Definition socket_after (call : SocketCall) (c : Client) : Socket := match perform call (socket_ c) with Ret _ s => s | _ => socket_ c end.
Lemma two_performed : perform two_messages (socket_ up) = Ret tt (socket_after two_messages up).
Proof. vm_compute. reflexivity. Qed.
Lemma two_raised : filter (λ e, is_deferred e = true) (raised (socket_ up) (socket_after two_messages up)) = [OnMessageReceived (mkMessage 7 51 [1; 2; 3]); OnMessageReceived (mkMessage 7 51 [4])].
Proof. vm_compute. reflexivity. Qed.
Lemma up_rest : deferred_ (deferrer_ up) = [] ∧ state_ (socket_after two_messages up) = kEstablished ∧ is_Some (tcb_ (socket_after two_messages up)).
Proof. vm_compute. eauto. Qed.

Lemma calls_after_closed_witness : ∃ c' packets, public_call (closer on_first) 3 two_messages up = Ret tt c' ∧ closed (socket_ c') ∧ length packets = 1%nat
  ∧ told_ c' = told_ up ++ at_once (filter (λ e, is_deferred e = false) (raised (socket_ up) (socket_after two_messages up)))
      ++ at_end (socket_after two_messages up) [OnMessageReceived (mkMessage 7 51 [1; 2; 3])] ++ at_once packets
      ++ at_end (socket_ c') [OnClosed] ++ at_end (socket_ c') [OnMessageReceived (mkMessage 7 51 [4])].
Proof.
  destruct up_rest as (Hd & Hs & [t Ht]).
  destruct (calls_after_closed on_first 0 two_messages up (socket_after two_messages up) [] (OnMessageReceived (mkMessage 7 51 [1; 2; 3])) [OnMessageReceived (mkMessage 7 51 [4])])
    as (c' & packets & H1 & H2 & _ & _ & H3 & H4); [reflexivity|exact Hd|exact two_performed|rewrite Hs; discriminate|exact two_raised|constructor|reflexivity|].
  rewrite Ht in H3. exists c', packets. exact (conj H1 (conj H2 (conj H3 H4))).
Defined.

(** [SetBufferedAmountLowThreshold] has no [ScopedDeferrer], but may call [OnBufferedAmountLow]:
    the call is kept, although [prepared_] is false, until some other call is over. *)
Theorem threshold_call_is_late :
  let send := CallSend (mkMessage 3 51 [1; 2; 3]) (mkSendOptions false None None 0) in
  let c := client_after silent [send; CallSetBufferedAmountLowThreshold 3 100] in
  (pending c = [OnQueueCallback (OnBufferedAmountLow 3)] ∧ prepared_ (deferrer_ c) = false ∧ told_ c = [])
  ∧ (told_ (client_after silent [send; CallSetBufferedAmountLowThreshold 3 100; CallShutdown])).*1 = [OnQueueCallback (OnBufferedAmountLow 3)].
Proof. vm_compute. split; [split; [|split]|]; reflexivity. Qed.
